(* ===== verification/_CoqProject ===== *)
-Q . S2P
Prelude.v
GoStrings.v
GoStringsFacts.v
GoPath.v
Utf8.v
Logsafe.v
Base64.v
StoreModels.v
MessageStore.v
MessageQueue.v
QueueProps.v
Directory.v
DirectoryProps.v
GoFloat.v
Backoff.v
RateLimit.v
Transport.v
TransportProps.v
Exchange.v
Worker.v
WorkerProps.v
Runner.v
Policy.v
PolicyProps.v
Headers.v
HeadersProps.v
Password.v
SmtpAuth.v
SmtpAuthProps.v
SmtpSession.v
SmtpSessionProps.v
ConnLimit.v
ProxyProto.v
Gate.v
Serving.v
AdminStore.v
AdminStoreProps.v
AdminAuth.v
AdminAuthProps.v
AdminApi.v
AdminApiProps.v
Keyring.v
Expand.v
ExpandProps.v
Sql.v
Migrate.v
MigrateProps.v
AuditLog.v
Diagnostics.v
Config.v
ConfigProps.v
SmtpServer.v
App.v
Bootstrap.v
BootstrapProps.v
Reconcile.v
Tokens.v
Api.v
DirectoryApi.v
DirectoryApiProps.v
DeclaredObjects.v
AccountLifecycle.v
ApiSecrecy.v
MessageList.v
JsonList.v
SqlText.v
Statements.v
Repositories.v
QueueApi.v
QueueApiProps.v
Http.v
People.v
Sso.v
Idp.v
Command.v
Webui.v
Covercheck.v
Startup.v
Wiring.v
Metrics.v
