(* ===== verification/Prelude.v ===== *)
(** * smtp-auth-proxy: a verification library

    ** The program

    smtp-auth-proxy is an SMTP submission server for devices that cannot do
    OAuth. A device logs in with a password and submits a message; the server
    decides as which shared mailbox the message may leave, rewrites its headers
    where the policy says so and stores it in a queue. Workers, in one or
    several replicas that share the database, claim queued messages under a
    lease and deliver them to Microsoft 365, over SMTP with XOAUTH2 or through
    Graph, retrying within a schedule and under Exchange Online's per-mailbox
    limits. Administrators sign in to a management API, with a password or
    through an identity provider, and manage credentials, mailboxes, accounts,
    the queue and each other.

    At start the program reads a configuration file, opens and migrates the
    database, applies a bootstrap file that declares objects, and builds its
    parts from the settings.

    The parts meet in three places. The SMTP listener (packages smtpsrv, policy,
    app) hands a [Submission] to the queue's [Enqueue]. The queue (package store)
    is shared by the listener, the workers, the housekeeping and the operators,
    each statement being one transaction. A worker (package queue) calls a
    transport (packages transport, smtprelay, graph) and writes back what came
    of it.

    ** Files

    - [Prelude]: results, instants, 64-bit integers, tactics, hint databases.
    - [GoStrings], [GoStringsFacts]: Go strings as byte strings, and what the
      program uses of packages strings, bytes and strconv.
    - [GoPath]: package path. [Utf8]: runes and ill-formed bytes.
    - [Base64]: the encodings of package encoding/base64.
    - [Logsafe] (internal/logsafe): values of outsiders in the log.
    - [StoreModels] (internal/store/models.go): the rows, the tables [DB], and
      SQL's UPDATE, DELETE and SELECT on them. A table is a [gmap] from the
      primary key; a nullable column is an [option].
    - [MessageStore] (internal/store/messages.go, tx.go): one function per
      method of [MessageRepo] that reads or writes a message, as the statements
      it runs. [MessageQueue]: the statements as a type [Op], their sequences
      [run], the row invariant [db_ok] and the abstract lifecycle [lifecycle],
      [row_step]. [QueueProps]: the queue's properties.
    - [Directory] (internal/store/credentials.go, mailboxes.go, accounts.go and
      the constraints of migrations/sqlite/0001): the other repositories.
      [DirectoryProps]: [dir_ok], the integrity of the whole database, and what
      the repositories promise.
    - [GoFloat], [Backoff] (internal/queue/backoff.go), [RateLimit]
      (internal/queue/ratelimit.go): retry schedule and per-mailbox budgets,
      with binary64 arithmetic as a class of rounded operations on rationals.
    - [Transport], [TransportProps] (internal/transport, internal/oauth/xoauth2.go):
      error values, the relay as a trace of commands, the Graph request.
      [Exchange] (internal/testsupport/fakeexchange): the SMTP server the relay
      is tested against, and the relay against it, with the client library as
      the class [SMTPClient] between them; [dot_client] discharges its laws.
    - [Worker], [WorkerProps] (internal/queue/worker.go): a delivery, the
      dispatcher, the housekeeping. [Runner] (the same file): [Run] with the
      goroutines it starts, and one per delivery, as a transition system
      [runner_move], its invariant [runner_ok] and the weights that bound a stop.
    - [Policy], [PolicyProps] (internal/policy): addresses, patterns, the
      sender decision, source networks.
    - [Headers], [HeadersProps] (internal/smtpsrv/headers.go): reading and
      rewriting a header block, byte for byte.
    - [Password] (internal/crypto/password.go): the stored
      hash format; the class [PasswordHasher] and its law, which the
      authentication is proved against and [argon2_hasher] discharges.
    - [SmtpAuth], [SmtpAuthProps] (internal/app/auth.go, smtpsrv/auth.go,
      sasl_login.go): the authenticator and the SASL exchanges.
    - [SmtpSession], [SmtpSessionProps] (internal/smtpsrv/session.go,
      submission.go, internal/app/submit.go): the command handlers, a session
      as a sequence of commands, and the path from the client to the queue.
    - [ConnLimit] (internal/smtpsrv/limits.go), [ProxyProto]
      (internal/smtpsrv/proxyproto.go): connection limits, PROXY headers.
      [Gate] (server.go): the gate every connection passes. [Serving]
      (server.go): [Serve], [Shutdown] and their goroutines as a transition
      system [serving_step], its invariant [serving_ok] and a rank.
    - [AdminStore], [AdminStoreProps] (internal/store/users.go, sessions.go):
      administrators and their sessions, and the integrity [admin_ok] of their
      tables.
    - [AdminAuth], [AdminAuthProps] (internal/adminauth, and the middleware of
      internal/adminapi): roles, password sign-in and its lockout, sessions,
      CSRF, single sign-on.
    - [AdminApi], [AdminApiProps] (internal/adminapi/users.go, auth.go): the
      handlers that manage administrators and sign them in and out, and runs of
      requests to them.
    - [Keyring] (internal/crypto/keyring.go, random.go): the
      master keys, the sealed format of secrets at rest, generated passwords.
    - [Expand], [ExpandProps] (internal/config/expand.go, scalar.go): variables
      in the configuration file, durations and sizes. [Config], [ConfigProps]
      (config.go, validate.go): the file as data, its defaults, validation and
      warnings.
    - [Sql] (internal/store/dialect*.go, open.go, columns.go):
      placeholders, error codes, the SQLite DSN, the pool. [Migrate],
      [MigrateProps] (migrate.go): loading, splitting, applying and reverting
      migrations.
    - [AuditLog] (internal/store/audit.go, adminapi/audit.go,
      query.go): the append-only log, its filters, and the masking of details.
    - [Diagnostics] (internal/store/diagnostics.go,
      adminapi/diagnostics.go): test messages and their request keys;
      [ProxyDB], all tables together.
    - [SmtpServer] (internal/smtpsrv/server.go, tls.go): server settings and
      certificates. [App] (internal/app/app.go, upstreamtls.go):
      what each part is given, the order of construction, the running parts.
    - [Bootstrap], [BootstrapProps], [Reconcile] (internal/bootstrap):
      validating and applying the bootstrap file, and what the database says
      afterwards. [Startup] (internal/app/app.go): from the file to the first
      SMTP login.
    - [Tokens] (internal/oauth/provider.go): the cache of clients
      that obtain access tokens.
    - [Api] (internal/adminapi/errors.go): how a handler runs. [DirectoryApi]
      (internal/adminapi/credentials.go, mailboxes.go, accounts.go): requests,
      validation, handlers and routes of the directory. [DirectoryApiProps]: a
      program logic for handlers, integrity and permissions.
      [DeclaredObjects], [AccountLifecycle], [ApiSecrecy]: what the handlers
      leave alone, from the request to the login, and what they do not tell.
    - [MessageList] (internal/store/messages.go, jsonlist.go): filters, pages
      and searches, with LIKE as the two engines read it. [QueueApi],
      [QueueApiProps] (internal/adminapi/messages.go, status.go, audit.go,
      setup.go, query.go, diagnostics.go): watching and working the queue.
      [People] (users.go, auth.go): the views of administrators. [Http]
      (server.go, middleware.go, errors.go): the routes and the middleware.
      [JsonList] (internal/store/jsonlist.go): lists of strings as JSON text.
    - [SqlText]: a lexer, a parser and an evaluator, with three-valued logic, for
      the SQL the store writes. [Statements] (internal/store/messages.go): the
      texts of the queue, their arguments and [scanMessage], executed.
      [Repositories] (internal/store/credentials.go, mailboxes.go, accounts.go,
      users.go, sessions.go): the same for the other tables; the class [Stored]
      says what a repository's texts have to be, and each one is an instance.
    - [Sso] (internal/adminauth/oidc.go, session.go,
      internal/adminapi/auth.go, state.go): the redirect of single sign-on, the
      cookie that carries it, and the callback. [Idp]
      (internal/testsupport/fakeidp): the identity provider it is tested
      against, and the whole way through it, with the OAuth, URL and signature
      libraries as the class [OidcLibrary].
    - [Command] (cmd/smtp-auth-proxy, internal/version): the
      command line with package flag, and from adduser to the first session.
    - [Wiring] (internal/app/app.go, smtprelay.New, graph.New, adminapi.New):
      what the upstream side and the management interface are built from.
    - [Metrics] (internal/metrics, internal/app/recorder.go): the series and
      what they count. [Webui] (internal/webui, internal/legal): the embedded
      pages. [Covercheck] (internal/tools/covercheck): the coverage gate of the
      build.

    ** How the code is read

    A Go function that returns an error is a function into [result]; a handler
    that changes state takes the state and returns it. A method that talks to
    the database takes the outcome of the driver call as an argument, [None] for
    success and [Some] message for a failure, so that every error path is there;
    a statement that fails leaves the tables as they were. Clocks, random values
    and fresh identifiers are arguments. Where a method reads the database more
    than once, other processes may write in between: [World] and [AuthWorld]
    give each read its own database; in [Api] the other writers are a function
    [w_env] that runs before every call of a handler. The steps of a migration
    and of the bootstrap each take the next element of a list of faults, so a
    theorem about all lists is one about a failure at any point. Goroutines
    that share memory are step relations ([limiter_step], [dispatch_step],
    [conn_step]) or transition functions of an action ([serving_step],
    [runner_move]) between the points where another one can run. Strings are bytes; times are nanoseconds since
    the zero [time.Time]. Logging is left out throughout, and metrics wherever
    a file does not say otherwise.

    Code that is not the program's is a parameter: net/mail, net, package
    unicode beyond ASCII, fmt's quoting, Argon2, the SMTP and HTTP clients,
    JSON, YAML, AES-GCM, SHA-256, X.509, token signatures, the Microsoft authentication library,
    the database engine's row order ([scan]) and text collation. What a
    theorem needs of such a parameter is a hypothesis of it, and its witness
    instantiates the parameter.

    ** What is proved

    - From the client to the queue: [queued_mail_was_granted],
      [session_submits_only_entitled], [authentication_sound],
      [authentication_complete], [resolve_grants_exactly_entitled],
      [accepted_pattern_is_narrow]: who can send as what, end to end and per
      component; [one_verification_per_attempt], [failed_logins_are_bounded],
      [message_size_limited], [hash_verifies_password]; the listener's
      [connection_limits_hold], [gate_books_balance], [gate_lets_in],
      [proxy_header_needs_trust], [proxy_header_roundtrip];
      [serving_is_all_or_nothing] and [orderly_shutdown_completes] for the
      server's goroutines in every order.
    - Messages: [no_header_injection], [rewrite_changes_only_edited_fields],
      [rewrite_keeps_body].
    - The queue: [queue_invariant] for every reachable state,
      [statements_refine_lifecycle] against the abstract lifecycle,
      [lease_is_exclusive], [claim_is_exact], [expired_lease_is_reclaimed],
      [stale_worker_changes_nothing], [owner_completion], [operator_actions],
      [sent_is_final], [enqueue_atomic]. The level below:
      [queue_statements_do_what_the_model_says] and
      [repository_statements_do_what_the_model_says], the SQL texts executed on
      rows refine the functions on tables, on both engines;
      [messages_are_read_back], [records_are_read_back].
    - The directory: [directory_integrity], [set_mailboxes_replaces],
      [deleting_mailbox_keeps_history].
    - Delivery: [delivery_outcome], [dispatcher_never_blocks],
      [run_accounts_for_every_claim] and [cancelled_run_returns] for a runner's
      goroutines in every order,
      [relay_follows_protocol], [relay_permanent_only_when_refused],
      [relay_and_exchange_agree] and [exchange_vouches_for_deliveries] for the
      two ends of the relay's protocol together, [graph_delivery_outcome], [xoauth2_roundtrip], [retry_within_schedule],
      [limiter_within_exchange_limits], [rate_is_bounded].
    - The management interface: [admission_is_exact] and
      [issued_session_is_admitted] for who gets past the middleware;
      [local_sign_in_sound], [local_sign_in_complete], [lockout_bounds_guesses],
      [sso_sign_in_sound], [sso_role_is_best] for signing in;
      [password_change_takes_hold], [removal_signs_out] for what ends a session;
      [an_administrator_is_left] for every run of requests, and
      [admin_integrity] of the tables below them;
      [sign_in_belongs_to_its_browser] and [started_sign_in_completes] for the
      redirect of single sign-on, [code_is_bound_to_its_request] and
      [provider_sign_in_completes] through the provider, [added_user_can_sign_in] from the command
      line to an admitted request.
    - The management of the directory: [requests_keep_integrity] for every
      request, failure and interleaving, [only_administrators_change_directory],
      [api_respects_declarations], [views_reveal_no_secret] as
      non-interference, [created_account_can_log_in] from the request through
      the store to the SMTP login.
    - The management of the queue: [queue_actions_are_exact],
      [mail_is_read_on_record], [watching_reveals_no_mail],
      [queue_requests_keep_integrity], [message_pages_cover_queue],
      [search_is_substring]; of people [people_reveal_no_proof]; of the server
      as a whole [changing_routes_are_guarded], [safe_methods_change_nothing],
      [responses_are_hardened].
    - Secrets: [sealed_value_survives_rotation], [decrypted_value_is_authentic]
      of the key ring, [masked_details_hide_secrets] of the audit log,
      [clients_are_current] of the token provider, [logged_value_is_harmless]
      of the log.
    - Start: [expansion_terminates], [validated_config_is_sound],
      [validated_settings_take_effect], [startup_is_clean],
      [certificate_survives_renewal], [self_signed_covers_the_host]; [loaded_migrations_are_complete],
      [up_leaves_complete_version], [down_undoes_up];
      [rebind_numbers_placeholders] against a reference reading of SQL;
      [apply_once_leaves_existing_rows], [reconcile_makes_the_file_true] and
      [declared_account_can_send], from the file to the SMTP login;
      [validated_upstreams_take_effect].
    - Data and pages: [list_column_roundtrip] with the JSON escapes,
      [counters_count] of the metrics, [pages_stay_inside] of the embedded
      pages, [threshold_is_longest_prefix] of the coverage gate.
    - Audit and diagnostics: [audit_log_only_grows],
      [diagnostic_sent_at_most_once], [diagnostic_all_or_nothing].
    - Where the code does not do what it says, as theorems about concrete
      runs: [lease_can_lapse_before_send], [second_from_header_unchecked],
      [mixed_line_endings_lose_text], [requested_delay_escapes_max_age],
      [burst_exceeds_exchange_limit], [rebuild_exceeds_concurrency],
      [read_failure_fails_message], [retry_after_seconds],
      [dead_pattern_accepted], [rehash_writes_stale_row],
      [quiet_client_is_refused], [crossed_demotions_leave_nobody],
      [sso_can_remove_last_admin], [client_chooses_forwarded_address],
      [similar_pragma_keeps_foreign_keys_off], [nan_jitter_is_accepted],
      [require_tls_reaches_plain_listener], [line_break_still_opens],
      [default_mailbox_of_the_database_is_lost],
      [interrupted_account_is_never_linked], [earlier_secret_is_kept],
      [short_password_on_reset], [blank_username_on_update],
      [password_of_an_update_is_ignored],
      [refused_account_is_created_unaudited], [zero_limit_is_the_default],
      [certificate_credential_without_certificate],
      [underscore_finds_any_letter], [name_can_leave_its_quotes],
      [shutdown_can_miss_a_listener], [failed_bind_leaves_socket_open],
      [balanced_clients_share_a_limit], [next_line_is_kept],
      [asset_directory_is_listed], [given_up_delivery_counts_as_deferred],
      [deleted_credential_keeps_its_gauge],
      [lookalike_authority_keeps_discovery], [stopping_sends_twice].

    ** Bounds and fuel

    [readMessage] runs its loop with one more step than the reader has pieces
    and bytes; [message_size_limited] proves that this is enough, the result
    never being [None]. [drop_spaces] has the length of the string as fuel, each
    step removing at least a byte. [digits_of] has 20 digits, enough for every
    64-bit integer ([Itoa_value]). The expansion of a document has its length
    as fuel, [expansion_terminates] being the proof that it ends before;
    [itoa] of package store has the eight bytes of its buffer, as the code.
    [Load] and [bootstrap_Load] never report that fuel ran out ([load_ends],
    [bootstrap_load_ends]). The decoder of a JSON list has more fuel than it
    has bytes ([decode_fuel]); [fields_from] has the length of the text. The
    lexer of SQL has one more step than the text has bytes and every token takes
    one; the parser has one more than there are tokens. Each text of the store
    is shown to parse, so neither bound cuts a statement short.
    Nothing else is bounded.

    ** Not modelled

    The libraries: the SMTP library's own protocol handling (the session is
    verified for every order of calls instead), the TLS handshake and the
    cryptography, the decoding of JSON bodies and of YAML, the matching of
    paths, the HTTP server, the Prometheus registry. The texts on standard
    error and the log. Of the SQL the joins, the grouped counts, the filtered
    listings and the tables of links, migrations, audit and diagnostics are
    functions on tables only and not executed as text. Of the test support,
    opening a temporary database and dropping the log, which is pure I/O. *)

From stdpp Require Import base gmap strings list sorting.
From Stdlib Require Import ZArith Lia.

Open Scope Z_scope.

(** ** Results *)

(** A Go function that returns [(T, error)]. *)
Inductive result (E A : Type) : Type :=
| Ok (a : A)
| Err (e : E).

Arguments Ok {E A} a.
Arguments Err {E A} e.

Declare Scope go_scope.
Delimit Scope go_scope with go.

(** The [if err != nil { return err }] chain. *)
Notation "'let?' x ':=' c 'in' k" :=
  (match c with Ok x => k | Err e => Err e end)
  (at level 10, x pattern, c at level 100, k at level 200) : go_scope.

Definition is_ok {E A} (r : result E A) : bool :=
  match r with Ok _ => true | Err _ => false end.

(** ** Instants, durations and machine integers

    A [time.Time] is its instant in nanoseconds since the zero [time.Time], so
    [IsZero] is [t = 0]; [UTC] changes the zone and not the instant. A
    [time.Duration] is its [int64] number of nanoseconds. *)

Definition time_zero : Z := 0.
Definition IsZero (t : Z) : bool := t =? time_zero.
Definition After (t u : Z) : bool := u <? t.

Definition Second : Z := 1000000000.
Definition Minute : Z := 60 * Second.
Definition Hour : Z := 60 * Minute.

Definition min_int64 : Z := - 2 ^ 63.
Definition max_int64 : Z := 2 ^ 63 - 1.

(** Two's complement wrap-around of a 64-bit [int]. *)
Definition wrap64 (z : Z) : Z := (z + 2 ^ 63) mod 2 ^ 64 - 2 ^ 63.

(** ** Tactics *)

(** Splits the conditionals and matches of the goal. *)
Ltac split_matches := repeat (case_match; simplify_eq/=; try done).

(** Reads boolean tests of the context as propositions. *)
Ltac bools :=
  repeat match goal with
  | H : _ && _ = true |- _ => apply andb_true_iff in H as [? ?]
  | H : _ || _ = false |- _ => apply orb_false_iff in H as [? ?]
  | H : negb _ = true |- _ => apply negb_true_iff in H
  | H : negb _ = false |- _ => apply negb_false_iff in H
  | H : bool_decide _ = true |- _ => apply bool_decide_eq_true_1 in H
  | H : bool_decide _ = false |- _ => apply bool_decide_eq_false_1 in H
  | H : (_ =? _) = true |- _ => apply Z.eqb_eq in H
  | H : (_ =? _) = false |- _ => apply Z.eqb_neq in H
  | H : (_ <? _) = true |- _ => apply Z.ltb_lt in H
  | H : (_ <? _) = false |- _ => apply Z.ltb_ge in H
  | H : (_ <=? _) = true |- _ => apply Z.leb_le in H
  | H : (_ <=? _) = false |- _ => apply Z.leb_gt in H
  | H : (_ >? _) = true |- _ => apply Z.gtb_lt in H
  | H : (_ >? _) = false |- _ => rewrite Z.gtb_ltb in H; apply Z.ltb_ge in H
  | H : (_ >=? _) = true |- _ => apply Z.geb_le in H
  | H : (_ >=? _) = false |- _ => rewrite Z.geb_leb in H; apply Z.leb_gt in H
  end.

(** ** Hint databases *)

(** Facts about tables, statements and the message lifecycle. *)
Create HintDb store.

(** Equations that push concatenations of strings to the leaves. *)
Create Rewrite HintDb go_string.

(** ** Shared lemmas *)

Lemma wrap64_small z : min_int64 <= z <= max_int64 -> wrap64 z = z.
Proof.
  unfold wrap64, min_int64, max_int64. intros H.
  rewrite Z.mod_small; lia.
Qed.

Lemma wrap64_bounds z : min_int64 <= wrap64 z <= max_int64.
Proof.
  unfold wrap64, min_int64, max_int64.
  pose proof (Z.mod_pos_bound (z + 2 ^ 63) (2 ^ 64)). lia.
Qed.

Lemma take_subset {A} (n : nat) (l : list A) x : x ∈ take n l -> x ∈ l.
Proof. intros H. apply list_elem_of_lookup in H as [i Hi].
  apply list_elem_of_lookup. exists i. by apply lookup_take_Some in Hi as [? _]. Qed.

Lemma orb_bool_decide_l (P : Prop) `{Decision P} (b : bool) :
  P -> bool_decide P || b = true.
Proof. intros HP. by rewrite (bool_decide_eq_true_2 P HP). Qed.

(** ** Sorting and projections *)

Section Sort.
Context {A B : Type} (f : A -> B) (R : relation A) (S : relation B) `{!forall x y, Decision (R x y)} `{!forall x y, Decision (S x y)}.
Context (Hf : forall x y, R x y <-> S (f x) (f y)).

Let on_stack (st : list (option (list A))) : list (option (list B)) := List.map (option_map (List.map f)) st.

Lemma list_merge_fmap l1 l2 : f <$> list_merge R l1 l2 = list_merge S (f <$> l1) (f <$> l2).
Proof using Hf.
  revert l2. induction l1 as [|x l1 IH1]; intros l2; [by destruct l2|].
  induction l2 as [|y l2 IH2]; [done|]. rewrite !fmap_cons, !list_merge_cons.
  pose proof (Hf x y) as Hxy. repeat case_decide; try tauto; rewrite fmap_cons; f_equal; [apply IH1|apply IH2].
Qed.

Lemma merge_stack_fmap st : f <$> merge_stack R st = merge_stack S (on_stack st).
Proof using Hf. induction st as [|[l|] st IH]; simpl; [done| |done]. by rewrite list_merge_fmap, IH. Qed.

Lemma merge_list_to_stack_fmap st l :
  on_stack (merge_list_to_stack R st l) = merge_list_to_stack S (on_stack st) (f <$> l).
Proof using Hf. revert l. induction st as [|[l'|] st IH]; intros l; simpl; [done| |done]. by rewrite IH, list_merge_fmap. Qed.

Lemma merge_sort_fmap l : f <$> merge_sort R l = merge_sort S (f <$> l).
Proof using Hf.
  unfold merge_sort. change (@nil (option (list B))) with (on_stack []).
  generalize (@nil (option (list A))). induction l as [|x l IH]; intros st; simpl; [apply merge_stack_fmap|].
  rewrite IH. f_equal. apply merge_list_to_stack_fmap.
Qed.
End Sort.
