(* ===== verification/GoStrings.v ===== *)
(** * Go strings

    A Go [string] or [\[\]byte] is a sequence of bytes: here Rocq's [string] of
    8-bit [ascii]. This file holds what the program uses of the packages
    [strings], [bytes] and [strconv], on bytes.

    The Unicode case tables ([unicode.ToLower], [unicode.ToUpper], simple
    folding) only matter once a byte above 0x7f is met, exactly as in the
    package's own ASCII fast path; what happens from there on is the parameter
    [UnicodeCase]. [TrimSpace] needs no parameter: the encodings of the
    Unicode spaces are listed. *)

From stdpp Require Import base gmap strings list.
From Stdlib Require Import ZArith Lia Ascii.
From S2P Require Import Prelude.

Open Scope Z_scope.

(** ** Bytes *)

Definition code (c : ascii) : Z := Z.of_nat (nat_of_ascii c).
Definition chr (z : Z) : ascii := ascii_of_nat (Z.to_nat z).

Definition bytes (s : string) : list ascii := String.list_ascii_of_string s.
Definition unbytes (l : list ascii) : string := String.string_of_list_ascii l.

(** [len(s)] *)
Definition len (s : string) : Z := Z.of_nat (String.length s).

Definition TAB : ascii := chr 9.
Definition LF : ascii := chr 10.
Definition CR : ascii := chr 13.
Definition SP : ascii := chr 32.
Definition CRLF : string := String CR (String LF "").

(** [c >= utf8.RuneSelf] *)
Definition rune_self (c : ascii) : bool := 128 <=? code c.

Definition is_upper (c : ascii) : bool := (65 <=? code c) && (code c <=? 90).
Definition is_lower (c : ascii) : bool := (97 <=? code c) && (code c <=? 122).
Definition is_digit (c : ascii) : bool := (48 <=? code c) && (code c <=? 57).

Definition lower_byte (c : ascii) : ascii := if is_upper c then chr (code c + 32) else c.
Definition upper_byte (c : ascii) : ascii := if is_lower c then chr (code c - 32) else c.

(** The [asciiSpace] table of package strings: tab, LF, VT, FF, CR, space. *)
Definition ascii_space (c : ascii) : bool :=
  ((9 <=? code c) && (code c <=? 13)) || (code c =? 32).

(** ** Case *)

(** What package unicode does to a string from its first non-ASCII byte on. *)
Class UnicodeCase := {
  unicode_to_lower : string -> string;
  unicode_to_upper : string -> string;
  unicode_equal_fold : string -> string -> bool
}.

Fixpoint string_map (f : ascii -> ascii) (s : string) : string :=
  match s with
  | EmptyString => EmptyString
  | String c s' => String (f c) (string_map f s')
  end.

Fixpoint string_exists (f : ascii -> bool) (s : string) : bool :=
  match s with
  | EmptyString => false
  | String c s' => f c || string_exists f s'
  end.

Definition is_ascii (s : string) : bool := negb (string_exists rune_self s).

Definition ToLower `{UnicodeCase} (s : string) : string :=
  if is_ascii s then string_map lower_byte s else unicode_to_lower s.

Definition ToUpper `{UnicodeCase} (s : string) : string :=
  if is_ascii s then string_map upper_byte s else unicode_to_upper s.

(** [strings.EqualFold]: byte by byte while both bytes are ASCII, then the
    Unicode folding of what is left of both strings. *)
Fixpoint EqualFold `{UnicodeCase} (s t : string) : bool :=
  match s, t with
  | String a s', String b t' =>
      if rune_self a || rune_self b then unicode_equal_fold s t
      else if bool_decide (lower_byte a = lower_byte b) then EqualFold s' t'
      else false
  | EmptyString, EmptyString => true
  | _, _ => false
  end.

(** ** Searching and cutting *)

Definition HasPrefix (s pre : string) : bool := String.prefix pre s.

Fixpoint drop_bytes (n : nat) (s : string) : string :=
  match n, s with
  | S n', String _ s' => drop_bytes n' s'
  | _, _ => s
  end.

Fixpoint take_bytes (n : nat) (s : string) : string :=
  match n, s with
  | S n', String c s' => String c (take_bytes n' s')
  | _, _ => EmptyString
  end.

(** [strings.CutPrefix] *)
Definition CutPrefix (s pre : string) : option string :=
  if HasPrefix s pre then Some (drop_bytes (String.length pre) s) else None.

(** [strings.TrimPrefix] *)
Definition TrimPrefix (s pre : string) : string := default s (CutPrefix s pre).

(** [strings.HasSuffix], [strings.CutSuffix] *)
Definition HasSuffix (s suffix : string) : bool :=
  bool_decide (String.length suffix <= String.length s)%nat
  && bool_decide (drop_bytes (String.length s - String.length suffix) s = suffix).

Definition CutSuffix (s suffix : string) : option string :=
  if HasSuffix s suffix then Some (take_bytes (String.length s - String.length suffix) s) else None.

(** [strings.IndexByte], as the prefix before and the suffix after the byte. *)
Fixpoint cut_byte (c : ascii) (s : string) : option (string * string) :=
  match s with
  | EmptyString => None
  | String a s' =>
      if bool_decide (a = c) then Some (EmptyString, s')
      else match cut_byte c s' with
           | Some (x, y) => Some (String a x, y)
           | None => None
           end
  end.

(** [strings.LastIndex(s, c)], as the prefix before and the suffix after. *)
Fixpoint last_cut_byte (c : ascii) (s : string) : option (string * string) :=
  match s with
  | EmptyString => None
  | String a s' =>
      match last_cut_byte c s' with
      | Some (x, y) => Some (String a x, y)
      | None => if bool_decide (a = c) then Some (EmptyString, s') else None
      end
  end.

(** [strings.Index(s, sub)] *)
Fixpoint Index (sub s : string) : option nat :=
  if HasPrefix s sub then Some 0%nat
  else match s with
       | EmptyString => None
       | String _ s' => option_map S (Index sub s')
       end.

Definition Contains (s sub : string) : bool :=
  match Index sub s with Some _ => true | None => false end.

Definition contains_byte (s : string) (c : ascii) : bool :=
  string_exists (fun a => bool_decide (a = c)) s.

(** [strings.ContainsAny] for a cutset of ASCII characters. *)
Definition ContainsAny (s chars : string) : bool := string_exists (contains_byte chars) s.

(** [strings.Split(s, sep)] for a one-byte separator. *)
Fixpoint split_byte (sep : ascii) (s : string) : list string :=
  match s with
  | EmptyString => [EmptyString]
  | String c s' =>
      if bool_decide (c = sep) then EmptyString :: split_byte sep s'
      else match split_byte sep s' with
           | p :: ps => String c p :: ps
           | [] => [String c EmptyString]
           end
  end.

(** The order of strings, byte by byte. *)
Definition string_le (a b : string) : Prop := String.leb a b = true.
#[global] Instance string_le_dec a b : Decision (string_le a b).
Proof. unfold string_le. apply _. Defined.

(** [strings.Join] *)
Definition Join (parts : list string) (sep : string) : string := String.concat sep parts.

(** ** Trimming *)

(** The UTF-8 encodings of the code points [unicode.IsSpace] accepts above
    0x7f: U+0085, U+00A0, U+1680, U+2000..U+200A, U+2028, U+2029, U+202F,
    U+205F, U+3000. *)
Definition unicode_spaces : list (list Z) :=
  [[194; 133]; [194; 160]; [225; 154; 128];
   [226; 128; 128]; [226; 128; 129]; [226; 128; 130]; [226; 128; 131];
   [226; 128; 132]; [226; 128; 133]; [226; 128; 134]; [226; 128; 135];
   [226; 128; 136]; [226; 128; 137]; [226; 128; 138];
   [226; 128; 168]; [226; 128; 169]; [226; 128; 175]; [226; 129; 159];
   [227; 128; 128]].

(** Bytes the space at the head of [l] takes, 0 when there is none. *)
Definition space_width (spaces : list (list Z)) (l : list ascii) : nat :=
  match l with
  | [] => 0%nat
  | c :: _ =>
      if ascii_space c then 1%nat
      else match List.find (fun p => bool_decide (List.map code (take (length p) l) = p)) spaces with
           | Some p => length p
           | None => 0%nat
           end
  end.

(** [fuel] bounds the number of spaces; the length of the string is enough. *)
Fixpoint drop_spaces (spaces : list (list Z)) (fuel : nat) (l : list ascii) : list ascii :=
  match fuel with
  | O => l
  | S fuel' =>
      match space_width spaces l with
      | O => l
      | w => drop_spaces spaces fuel' (drop w l)
      end
  end.

Definition trim_left_bytes (l : list ascii) : list ascii :=
  drop_spaces unicode_spaces (length l) l.

Definition trim_right_bytes (l : list ascii) : list ascii :=
  rev (drop_spaces (List.map (@rev Z) unicode_spaces) (length l) (rev l)).

(** [strings.TrimSpace], [bytes.TrimSpace] *)
Definition TrimSpace (s : string) : string :=
  unbytes (trim_right_bytes (trim_left_bytes (bytes s))).

Fixpoint drop_while (f : ascii -> bool) (l : list ascii) : list ascii :=
  match l with
  | [] => []
  | c :: l' => if f c then drop_while f l' else l
  end.

(** [strings.TrimRight], [strings.Trim] for a cutset of ASCII characters. *)
Definition TrimRight (s cutset : string) : string :=
  unbytes (rev (drop_while (contains_byte cutset) (rev (bytes s)))).

Definition Trim (s cutset : string) : string :=
  TrimRight (unbytes (drop_while (contains_byte cutset) (bytes s))) cutset.

(** ** Decimal numbers *)

Definition digit_char (d : Z) : ascii := chr (48 + d).

Fixpoint digits_of (fuel : nat) (n : Z) (acc : string) : string :=
  match fuel with
  | O => acc
  | S f =>
      if n <? 10 then String (digit_char n) acc
      else digits_of f (n / 10) (String (digit_char (n mod 10)) acc)
  end.

(** [strconv.Itoa] of an [int] ([%d]); 20 digits cover every 64-bit value. *)
Definition Itoa (n : Z) : string :=
  if n <? 0 then String "-" (digits_of 20 (- n) "") else digits_of 20 n "".

Fixpoint digits_value (s : string) (acc : Z) : option Z :=
  match s with
  | EmptyString => Some acc
  | String c s' => if is_digit c then digits_value s' (10 * acc + (code c - 48)) else None
  end.

(** [strconv.Atoi]: an optional sign and decimal digits, within 64 bits. *)
Definition Atoi (s : string) : option Z :=
  let '(neg, ds) :=
    match s with
    | String c s' => if bool_decide (c = "-"%char) then (true, s')
                     else if bool_decide (c = "+"%char) then (false, s') else (false, s)
    | EmptyString => (false, s)
    end in
  if bool_decide (ds = "") then None
  else match digits_value ds 0 with
       | Some n => let v := if (neg : bool) then - n else n in
                   if (min_int64 <=? v) && (v <=? max_int64) then Some v else None
       | None => None
       end.
