(* ===== verification/GoStringsFacts.v ===== *)
(** * Facts about Go strings

    What the components share about the functions of [GoStrings]. *)

From stdpp Require Import base gmap strings list.
From Stdlib Require Import ZArith Lia Ascii.
From S2P Require Import Prelude GoStrings.

Open Scope Z_scope.

Lemma split_byte_no_sep c s : contains_byte s c = false -> split_byte c s = [s].
Proof.
  induction s as [|a s IH]; simpl; [done|]. unfold contains_byte in *. simpl.
  intros [Ha Hs]%orb_false_iff. bools. rewrite bool_decide_eq_false_2 by done.
  by rewrite IH.
Qed.

Lemma split_byte_app c s t :
  contains_byte s c = false -> split_byte c (s +:+ String c t) = s :: split_byte c t.
Proof.
  induction s as [|a s IH]; simpl.
  - by rewrite bool_decide_eq_true_2.
  - unfold contains_byte in *. simpl. intros [Ha Hs]%orb_false_iff. bools.
    rewrite bool_decide_eq_false_2 by done. by rewrite IH.
Qed.

Lemma split_Join c parts :
  parts <> [] -> Forall (fun p => contains_byte p c = false) parts -> split_byte c (Join parts (String c "")) = parts.
Proof.
  induction parts as [|p parts IH]; [done|]. intros _ [Hp Hps]%Forall_cons. destruct parts as [|p' parts].
  - by apply split_byte_no_sep.
  - change (Join (p :: p' :: parts) (String c "")) with (p +:+ String c (Join (p' :: parts) (String c ""))).
    by rewrite split_byte_app, IH.
Qed.

Lemma split_byte_clean c s : Forall (fun e => contains_byte e c = false) (split_byte c s).
Proof.
  induction s as [|a s IH]; simpl; [by repeat constructor|]. case_bool_decide as Ha; [by constructor|].
  destruct IH as [|p ps Hp Hps]; constructor; try done; unfold contains_byte in *; simpl; rewrite bool_decide_eq_false_2 by done; done.
Qed.

Lemma contains_byte_app s t c : contains_byte (s +:+ t) c = contains_byte s c || contains_byte t c.
Proof. unfold contains_byte. induction s as [|a s IH]; simpl; [done|]. by rewrite IH, orb_assoc. Qed.

Lemma ContainsAny_false s chars c :
  ContainsAny s chars = false -> contains_byte chars c = true -> contains_byte s c = false.
Proof.
  unfold ContainsAny. intros H Hc. unfold contains_byte at 1. induction s as [|a s IH]; simpl in *; [done|].
  apply orb_false_iff in H as [Ha Hs]. rewrite IH by done. rewrite orb_false_r.
  apply bool_decide_eq_false_2. intros ->. congruence.
Qed.

Lemma CutPrefix_Some s pre t : CutPrefix s pre = Some t -> s = pre +:+ t.
Proof.
  unfold CutPrefix, HasPrefix. revert s. induction pre as [|c pre IH]; intros s; simpl.
  { by destruct s; intros [= <-]. }
  destruct s as [|a s]; simpl; [done|]. destruct (ascii_dec c a) as [->|]; [|done].
  intros H%IH. change (String a s = String a (pre +:+ t)). by rewrite <- H.
Qed.

Lemma CutPrefix_app pre t : CutPrefix (pre +:+ t) pre = Some t.
Proof.
  unfold CutPrefix, HasPrefix. induction pre as [|c pre IH]; simpl; [by destruct t|].
  destruct (ascii_dec c c); [|done]. apply IH.
Qed.

Lemma string_map_app f s t : string_map f (s +:+ t) = string_map f s +:+ string_map f t.
Proof. induction s as [|c s IH]; simpl; [done|]. by rewrite IH. Qed.

Lemma string_exists_app f s t : string_exists f (s +:+ t) = string_exists f s || string_exists f t.
Proof. induction s as [|c s IH]; simpl; [done|]. by rewrite IH, orb_assoc. Qed.

Lemma string_map_empty f s : string_map f s = "" -> s = "".
Proof. by destruct s. Qed.

Lemma string_exists_iff f s : string_exists f s = true <-> exists c, c ∈ bytes s /\ f c = true.
Proof.
  induction s as [|a s IH]; simpl; [by split; [|intros (? & ?%elem_of_nil & _)]|].
  rewrite orb_true_iff, IH. setoid_rewrite elem_of_cons. naive_solver.
Qed.

Lemma contains_byte_iff s c : contains_byte s c = true <-> c ∈ bytes s.
Proof. unfold contains_byte. rewrite string_exists_iff. setoid_rewrite bool_decide_eq_true. naive_solver. Qed.

Lemma contains_byte_false s c : contains_byte s c = false <-> c ∉ bytes s.
Proof. rewrite <- contains_byte_iff. by rewrite not_true_iff_false. Qed.

Lemma bytes_unbytes l : bytes (unbytes l) = l.
Proof. apply String.list_ascii_of_string_of_list_ascii. Qed.

Lemma unbytes_bytes s : unbytes (bytes s) = s.
Proof. apply String.string_of_list_ascii_of_string. Qed.

Lemma bytes_app s t : bytes (s +:+ t) = bytes s ++ bytes t.
Proof. induction s as [|c s IH]; simpl; [done|]. by rewrite <- IH. Qed.

Lemma elem_of_rev {A} (x : A) l : x ∈ rev l <-> x ∈ l.
Proof. rewrite !list_elem_of_In. symmetry. apply in_rev. Qed.

Lemma string_app_assoc (a b c : string) : (a +:+ b) +:+ c = a +:+ (b +:+ c).
Proof. induction a as [|x a IH]; [done|]. change (String x ((a +:+ b) +:+ c) = String x (a +:+ (b +:+ c))). by rewrite IH. Qed.

Lemma string_app_nil (a : string) : a +:+ "" = a.
Proof. induction a as [|x a IH]; [done|]. change (String x (a +:+ "") = String x a). by rewrite IH. Qed.

Lemma String_length_app (a b : string) : String.length (a +:+ b) = (String.length a + String.length b)%nat.
Proof. induction a as [|x a IH]; [done|]. change (S (String.length (a +:+ b)) = S (String.length a + String.length b)). by rewrite IH. Qed.

Lemma drop_bytes_app a b : drop_bytes (String.length a) (a +:+ b) = b.
Proof. induction a as [|c a IH]; [by destruct b|exact IH]. Qed.

Lemma take_bytes_app a b : take_bytes (String.length a) (a +:+ b) = a.
Proof.
  induction a as [|c a IH]; [by destruct b|]. change (String c (take_bytes (String.length a) (a +:+ b)) = String c a).
  by rewrite IH.
Qed.

(** ** Bytes and digits *)

Lemma chr_code c : chr (code c) = c.
Proof. unfold chr, code. rewrite Nat2Z.id. apply ascii_nat_embedding. Qed.

Lemma code_bounds c : 0 <= code c < 256.
Proof. unfold code. pose proof (nat_ascii_bounded c). lia. Qed.

Lemma digit_char_ok d : 0 <= d <= 9 -> is_digit (digit_char d) = true /\ code (digit_char d) = 48 + d.
Proof.
  intros H. assert (d = 0 \/ d = 1 \/ d = 2 \/ d = 3 \/ d = 4 \/ d = 5 \/ d = 6 \/ d = 7 \/ d = 8 \/ d = 9) as Hd by lia.
  destruct Hd as [->|[->|[->|[->|[->|[->|[->|[->|[->| ->]]]]]]]]]; by vm_compute.
Qed.

Lemma digit_step d s acc : 0 <= d <= 9 -> digits_value (String (digit_char d) s) acc = digits_value s (10 * acc + d).
Proof. intros H. destruct (digit_char_ok d H) as [H1 H2]. simpl. rewrite H1, H2. f_equal. lia. Qed.

Lemma digits_value_of fuel n acc :
  0 <= n < 10 ^ Z.of_nat fuel -> digits_value (digits_of fuel n acc) 0 = digits_value acc n.
Proof.
  revert n acc. induction fuel as [|fuel IH]; intros n acc Hn; simpl.
  { change (10 ^ Z.of_nat 0) with 1 in Hn. f_equal. lia. }
  rewrite Nat2Z.inj_succ, Z.pow_succ_r in Hn by lia.
  destruct (n <? 10) eqn:Hlt; bools.
  - by rewrite digit_step by lia.
  - pose proof (Z.mod_pos_bound n 10). rewrite IH.
    + rewrite digit_step by lia. f_equal. pose proof (Z.div_mod n 10). lia.
    + split; [apply Z.div_pos; lia|apply Z.div_lt_upper_bound; lia].
Qed.

Lemma digits_of_all_digits fuel n acc c :
  0 <= n -> is_digit c = false -> contains_byte (digits_of fuel n acc) c = contains_byte acc c.
Proof.
  intros Hn Hc. revert n acc Hn. induction fuel as [|fuel IH]; intros n acc Hn; simpl; [done|].
  assert (forall d, 0 <= d <= 9 -> contains_byte (String (digit_char d) acc) c = contains_byte acc c) as Hd.
  { intros d Hd. unfold contains_byte. simpl. destruct (digit_char_ok d Hd) as [Hdig _].
    rewrite bool_decide_eq_false_2; [done|]. congruence. }
  destruct (n <? 10) eqn:Hlt; bools; [apply Hd; lia|]. pose proof (Z.mod_pos_bound n 10).
  rewrite IH by (apply Z.div_pos; lia). apply Hd. lia.
Qed.

Lemma Itoa_value n : 0 <= n < 10 ^ 20 -> digits_value (Itoa n) 0 = Some n.
Proof.
  intros H. unfold Itoa. rewrite (proj2 (Z.ltb_ge n 0)) by lia. by rewrite digits_value_of by (simpl; lia).
Qed.

Lemma Itoa_only_digits n c : 0 <= n -> is_digit c = false -> contains_byte (Itoa n) c = false.
Proof. intros Hn Hc. unfold Itoa. rewrite (proj2 (Z.ltb_ge n 0)) by lia. by rewrite digits_of_all_digits. Qed.

Lemma digits_of_head fuel n acc :
  0 <= n -> exists d s, 0 <= d <= 9 /\ digits_of (S fuel) n acc = String (digit_char d) s.
Proof.
  revert n acc. induction fuel as [|fuel IH]; intros n acc Hn; cbn [digits_of].
  - destruct (n <? 10) eqn:Hlt; bools; [by exists n, acc; split; [lia|]|].
    exists (n mod 10), acc. pose proof (Z.mod_pos_bound n 10). by split; [lia|].
  - destruct (n <? 10) eqn:Hlt; bools; [by exists n, acc; split; [lia|]|].
    apply (IH (n / 10) (String (digit_char (n mod 10)) acc)). apply Z.div_pos; lia.
Qed.

Lemma code_chr z : 0 <= z < 256 -> code (chr z) = z.
Proof. intros H. unfold code, chr. rewrite nat_ascii_embedding; lia. Qed.

Lemma Atoi_Itoa n : 0 <= n <= max_int64 -> Atoi (Itoa n) = Some n.
Proof.
  intros Hn. pose proof (Itoa_value n ltac:(unfold max_int64 in Hn; lia)) as Hv.
  assert (exists d s, 0 <= d <= 9 /\ Itoa n = String (digit_char d) s) as (d & s & Hd & E).
  { unfold Itoa. rewrite (proj2 (Z.ltb_ge n 0)) by lia. apply digits_of_head. lia. }
  destruct (digit_char_ok d Hd) as [Ha _]. unfold Atoi. rewrite E in Hv |- *.
  rewrite (bool_decide_eq_false_2 (digit_char d = "-"%char)), (bool_decide_eq_false_2 (digit_char d = "+"%char))
    by (intros Heq; rewrite Heq in Ha; by vm_compute in Ha).
  rewrite bool_decide_eq_false_2, Hv by done.
  rewrite (proj2 (Z.leb_le min_int64 n)), (proj2 (Z.leb_le n max_int64)); [done|lia|unfold min_int64; lia].
Qed.

Lemma drop_while_none f l : (forall c, c ∈ l -> f c = false) -> drop_while f l = l.
Proof. destruct l as [|c l]; simpl; [done|]. intros H. by rewrite (H c) by left. Qed.

Lemma TrimRight_none s cutset : ContainsAny s cutset = false -> TrimRight s cutset = s.
Proof.
  intros H. unfold TrimRight. rewrite drop_while_none.
  - by rewrite rev_involutive, unbytes_bytes.
  - intros c Hc. rewrite elem_of_rev in Hc. apply not_true_iff_false. intros Hin.
    assert (ContainsAny s cutset = true) as Hany by (apply string_exists_iff; by exists c). congruence.
Qed.

Lemma cut_byte_app c s t : contains_byte s c = false -> cut_byte c (s +:+ String c t) = Some (s, t).
Proof.
  unfold contains_byte. induction s as [|a s IH]; simpl.
  - intros _. by rewrite bool_decide_eq_true_2.
  - intros [Ha Hs]%orb_false_iff. rewrite Ha. by rewrite IH.
Qed.

Lemma cut_byte_Some c s x y : cut_byte c s = Some (x, y) -> s = x +:+ String c y /\ contains_byte x c = false.
Proof.
  revert x y. induction s as [|a s IH]; simpl; intros x y; [done|]. case_bool_decide as Ha; [by intros [= <- <-]; subst|].
  destruct (cut_byte c s) as [[p q]|]; [|done]. intros [= <- <-]. destruct (IH p q eq_refl) as [-> Hp]. split; [done|].
  unfold contains_byte in *. simpl. by rewrite bool_decide_eq_false_2, Hp.
Qed.

Lemma take_drop_bytes n s : take_bytes n s +:+ drop_bytes n s = s.
Proof.
  revert s. induction n as [|n IH]; intros s; [by destruct s|]. destruct s as [|c s]; [done|]. simpl.
  change (String c (take_bytes n s +:+ drop_bytes n s) = String c s). by rewrite IH.
Qed.

Lemma length_take_bytes n s : (n <= String.length s)%nat -> String.length (take_bytes n s) = n.
Proof. revert s. induction n as [|n IH]; intros s; [done|]. destruct s; simpl; [lia|]. intros. rewrite IH; lia. Qed.

Lemma ContainsAny_app s t chars : ContainsAny (s +:+ t) chars = ContainsAny s chars || ContainsAny t chars.
Proof. apply string_exists_app. Qed.

(** Concatenations, pushed to the leaves. *)
#[export] Hint Rewrite string_app_assoc string_app_nil String_length_app bytes_app bytes_unbytes unbytes_bytes
  contains_byte_app ContainsAny_app : go_string.

(** ** Trimming *)

(** A byte that is neither white space nor part of a longer code point. *)
Definition plain (c : ascii) : Prop := ascii_space c = false /\ code c < 128.

Definition wide (spaces : list (list Z)) : bool := forallb (fun p => match p with h :: _ => 128 <=? h | [] => false end) spaces.

Definition plain_head (l : list ascii) : Prop := match l with [] => True | c :: _ => plain c end.

Lemma drop_spaces_plain spaces fuel l : wide spaces = true -> plain_head l -> drop_spaces spaces fuel l = l.
Proof.
  intros Hw Hl. destruct fuel; [done|]. cbn [drop_spaces]. enough (space_width spaces l = 0%nat) as -> by done.
  destruct l as [|c l]; [done|]. destruct Hl as [Hs Hc]. unfold space_width. rewrite Hs.
  destruct (List.find _ spaces) as [p|] eqn:Hf; [|done]. apply List.find_some in Hf as [Hin Hp]. bools.
  unfold wide in Hw. rewrite forallb_forall in Hw. specialize (Hw p Hin). destruct p as [|h p]; [done|].
  simpl in Hp. injection Hp as Hh _. bools. lia.
Qed.

(** Trimming leaves a string with plain ends alone. *)
Lemma TrimSpace_ends s : plain_head (bytes s) -> plain_head (rev (bytes s)) -> TrimSpace s = s.
Proof.
  intros Hh Ht. unfold TrimSpace, trim_right_bytes, trim_left_bytes. rewrite (drop_spaces_plain unicode_spaces) by done.
  rewrite drop_spaces_plain by done. by rewrite rev_involutive, unbytes_bytes.
Qed.

Lemma plain_head_all l : (forall c, c ∈ l -> plain c) -> plain_head l.
Proof. destruct l as [|c l]; [done|]. intros H. apply H. left. Qed.

Lemma TrimSpace_plain s : (forall c, c ∈ bytes s -> ascii_space c = false /\ code c < 128) -> TrimSpace s = s.
Proof.
  intros H. apply TrimSpace_ends; apply plain_head_all; [done|]. intros c Hc. apply H. by apply elem_of_rev.
Qed.

(** ** Prefixes and cuts *)

Lemma HasPrefix_app a b : HasPrefix (a +:+ b) a = true.
Proof. unfold HasPrefix. induction a as [|c a IH]; simpl; [by destruct b|]. by destruct (ascii_dec c c). Qed.

Lemma cut_byte_none c s : contains_byte s c = false -> cut_byte c s = None.
Proof.
  unfold contains_byte. induction s as [|a s IH]; [done|]. simpl. intros [-> Hs]%orb_false_iff. by rewrite IH.
Qed.
