(* ===== verification/GoPath.v ===== *)
(** * Package path

    Slash-separated paths: [Clean], [Dir] and [Join] by the elements between
    the slashes, and the names an [fs.FS] takes. *)

From stdpp Require Import base strings list.
From Stdlib Require Import ZArith Lia Ascii.
From S2P Require Import Prelude GoStrings GoStringsFacts.

(** ** Definitions *)

Definition SLASH : ascii := "/".

(** One element of [Clean]; the stack has the last element first. *)
Definition clean_step (rooted : bool) (stack : list string) (e : string) : list string :=
  if bool_decide (e = "") || bool_decide (e = ".") then stack
  else if bool_decide (e = "..") then
    match stack with
    | [] => if rooted then [] else [".."]
    | top :: rest => if bool_decide (top = "..") then ".." :: stack else rest
    end
  else e :: stack.

Definition clean_elements (rooted : bool) (elements : list string) : list string := rev (fold_left (clean_step rooted) elements []).

Definition Clean (p : string) : string :=
  if bool_decide (p = "") then "."
  else if HasPrefix p "/" then "/" +:+ Join (clean_elements true (split_byte SLASH p)) "/"
  else match clean_elements false (split_byte SLASH p) with
       | [] => "."
       | l => Join l "/"
       end.

(** [path.Dir]: what is before the last slash, cleaned. *)
Definition Dir (p : string) : string :=
  Clean (match last_cut_byte SLASH p with Some (dir, _) => dir +:+ "/" | None => "" end).

(** [path.Join] of two elements. *)
Definition Join2 (a b : string) : string :=
  match List.filter (fun e => negb (bool_decide (e = ""))) [a; b] with
  | [] => ""
  | l => Clean (Join l "/")
  end.

(** An element of a name, and [fs.ValidPath] of a name other than the root's. *)
Definition valid_element (e : string) : bool :=
  negb (bool_decide (e = "")) && negb (bool_decide (e = ".")) && negb (bool_decide (e = "..")) && negb (contains_byte e SLASH).

Definition valid_name (name : string) : bool := forallb valid_element (split_byte SLASH name).

(** ** Lemmas *)

Lemma clean_step_valid stack e :
  Forall (fun x => valid_element x = true) stack -> contains_byte e SLASH = false -> Forall (fun x => valid_element x = true) (clean_step true stack e).
Proof.
  intros Hs He. unfold clean_step. case_bool_decide as H1; [done|]. case_bool_decide as H2; [done|]. cbn [orb]. case_bool_decide as H3.
  - destruct stack as [|top rest]; [done|]. apply Forall_cons in Hs as [Ht Hr]. case_bool_decide; [subst; done|done].
  - constructor; [|done]. unfold valid_element. by rewrite !bool_decide_eq_false_2, He.
Qed.

(** What is left of a rooted path has no element that leads out of it. *)
Lemma clean_elements_valid elements :
  Forall (fun e => contains_byte e SLASH = false) elements -> Forall (fun e => valid_element e = true) (clean_elements true elements).
Proof.
  intros He. unfold clean_elements. apply Forall_rev. assert (Forall (fun x => valid_element x = true) []) as H0 by constructor. revert H0.
  generalize (@nil string) as stack. induction He as [|e elements He _ IH]; intros stack Hs; [done|]. cbn [fold_left]. apply IH. by apply clean_step_valid.
Qed.

(** Elements that are fine already stay. *)
Lemma clean_elements_id elements : Forall (fun e => valid_element e = true) elements -> clean_elements true elements = elements.
Proof.
  intros He. unfold clean_elements. assert (forall stack, fold_left (clean_step true) elements stack = rev elements ++ stack) as ->.
  { induction He as [|e elements He _ IH]; intros stack; [done|]. cbn [fold_left rev]. rewrite IH. unfold valid_element in He. bools. unfold clean_step.
    rewrite !bool_decide_eq_false_2 by done. cbn [orb]. rewrite <-app_assoc. done. }
  by rewrite app_nil_r, rev_involutive.
Qed.

(** What a request path names in a file system: [path.Clean] of it with a slash
    in front, without the slash. *)
Definition rooted_name (p : string) : string := Join (clean_elements true (split_byte SLASH p)) "/".

Lemma clean_rooted p : Clean ("/" +:+ p) = "/" +:+ rooted_name p.
Proof.
  unfold Clean, rooted_name. rewrite bool_decide_eq_false_2 by done. assert (HasPrefix ("/" +:+ p) "/" = true) as -> by (by destruct p).
  change (split_byte SLASH ("/" +:+ p)) with ("" :: split_byte SLASH p). done.
Qed.

(** No request leads out of the file system. *)
Lemma rooted_name_valid p : rooted_name p = "" \/ valid_name (rooted_name p) = true.
Proof.
  unfold rooted_name. pose proof (clean_elements_valid _ (split_byte_clean SLASH p)) as Hv. set (l := clean_elements true _) in *.
  destruct l as [|e l]; [by left|]. right. unfold valid_name. change "/" with (String SLASH "") at 1. rewrite split_Join; [|done|].
  - apply forallb_forall. apply List.Forall_forall. exact Hv.
  - eapply Forall_impl; [exact Hv|]. intros x Hx. unfold valid_element in Hx. bools. done.
Qed.

Lemma rooted_name_id name : valid_name name = true -> rooted_name name = name.
Proof.
  unfold valid_name, rooted_name. intros Hv. rewrite clean_elements_id; [|apply List.Forall_forall; by apply forallb_forall].
  clear Hv. induction name as [|c s IH]; [done|]. cbn [split_byte]. case_bool_decide as Hc.
  - subst. pose proof (split_byte_clean SLASH s). revert IH. destruct (split_byte SLASH s) eqn:Hs; [by destruct s|]. intros <-. done.
  - revert IH. destruct (split_byte SLASH s) as [|p [|q l]] eqn:Hs; [by destruct s|intros <-; done..].
Qed.
