(* ===== verification/Utf8.v ===== *)
(** * UTF-8

    How Go reads text: a string is bytes, and [range], [strings.Map] and
    [encoding/json] take it apart into well-formed encodings of one rune and
    single bytes that belong to none, which read as U+FFFD. *)

From stdpp Require Import base gmap strings list.
From Stdlib Require Import ZArith Lia Ascii.
From S2P Require Import Prelude GoStrings.

Open Scope Z_scope.

(** ** Definitions *)

Definition byte_in (lo hi : Z) (c : ascii) : bool := (lo <=? code c) && (code c <=? hi).
Definition tail_byte : ascii -> bool := byte_in 128 191.

(** The range of the second byte of a rune of three or four bytes. *)
Definition second_of_three (a b : ascii) : bool :=
  if code a =? 224 then byte_in 160 191 b else if code a =? 237 then byte_in 128 159 b else tail_byte b.
Definition second_of_four (a b : ascii) : bool :=
  if code a =? 240 then byte_in 144 191 b else if code a =? 244 then byte_in 128 143 b else tail_byte b.

(** [utf8.DecodeRune]: the number of bytes of a well-formed first rune. *)
Definition rune_width (l : list ascii) : option nat :=
  match l with
  | a :: t =>
      if code a <? 128 then Some 1%nat
      else match t with
      | b :: t =>
          if byte_in 194 223 a && tail_byte b then Some 2%nat
          else match t with
          | c :: t =>
              if byte_in 224 239 a && second_of_three a b && tail_byte c then Some 3%nat
              else match t with
              | d :: _ => if byte_in 240 244 a && second_of_four a b && tail_byte c && tail_byte d then Some 4%nat else None
              | [] => None
              end
          | [] => None
          end
      | [] => None
      end
  | [] => None
  end.

(** A well-formed rune, or a byte that is part of none. *)
Inductive chunk := Rune (enc : list ascii) | Bad (b : ascii).

Fixpoint chunks (l : list ascii) : list chunk :=
  match l with
  | [] => []
  | a :: t1 =>
      match rune_width l, t1 with
      | Some 1%nat, _ => Rune [a] :: chunks t1
      | Some 2%nat, b :: t2 => Rune [a; b] :: chunks t2
      | Some 3%nat, b :: c :: t3 => Rune [a; b; c] :: chunks t3
      | Some 4%nat, b :: c :: d :: t4 => Rune [a; b; c; d] :: chunks t4
      | _, _ => Bad a :: chunks t1
      end
  end.

(** The encoding of U+FFFD. *)
Definition RuneError : list ascii := [chr 239; chr 191; chr 189].

(** What a chunk reads as. *)
Definition reads_as (c : chunk) : list ascii := match c with Rune enc => enc | Bad _ => RuneError end.

Definition is_bad (c : chunk) : bool := match c with Bad _ => true | Rune _ => false end.

(** [utf8.ValidString] *)
Definition valid_utf8 (s : string) : bool := negb (existsb is_bad (chunks (bytes s))).

(** The string with every byte that is part of no rune replaced. *)
Definition to_valid (s : string) : string := unbytes (concat (reads_as <$> chunks (bytes s))).

(** ** Lemmas *)

Lemma length_unbytes l : String.length (unbytes l) = length l.
Proof. induction l as [|c l IH]; [done|]. simpl. by rewrite <-IH. Qed.

Lemma length_bytes s : length (bytes s) = String.length s.
Proof. induction s as [|c s IH]; [done|]. simpl. by rewrite <-IH. Qed.

Ltac rune_cases l H :=
  unfold rune_width in H; destruct l as [|?a [|?b [|?c [|?d ?t]]]]; simpl in H; repeat case_match; simplify_eq/=.

(** The first rune is the same whatever follows it. *)
Lemma rune_width_app l w rest : rune_width l = Some w -> rune_width (l ++ rest) = Some w.
Proof.
  unfold rune_width. destruct l as [|a [|b [|c [|d t]]]]; simpl; intros H; repeat case_match; simplify_eq; done.
Qed.

Lemma rune_width_bound l w : rune_width l = Some w -> (1 <= w <= 4)%nat /\ (w <= length l)%nat.
Proof. intros H. rune_cases l H; lia. Qed.

Lemma rune_width_take l w : rune_width l = Some w -> rune_width (take w l) = Some w.
Proof. intros H. rune_cases l H; unfold rune_width; simpl; repeat case_match; simplify_eq; done. Qed.

(** A rune of more than one byte has no ASCII byte. *)
Lemma rune_width_high l w : rune_width l = Some w -> (2 <= w)%nat -> Forall (fun c => 128 <= code c) (take w l).
Proof.
  intros H Hw. rune_cases l H; try lia; unfold second_of_three, second_of_four, tail_byte, byte_in in *;
    repeat (constructor; [repeat case_match; bools; lia|]); constructor.
Qed.

(** A well-formed chunk. *)
Definition chunk_ok (c : chunk) : Prop :=
  match c with Rune enc => rune_width enc = Some (length enc) | Bad b => 128 <= code b end.

Lemma chunks_cons l : l <> [] -> exists c, chunk_ok c /\
  match c with
  | Rune enc => l = enc ++ drop (length enc) l /\ chunks l = Rune enc :: chunks (drop (length enc) l)
  | Bad b => l = b :: tail l /\ chunks l = Bad b :: chunks (tail l)
  end.
Proof.
  intros Hl. destruct (rune_width l) as [w|] eqn:Hw.
  - exists (Rune (take w l)). pose proof (rune_width_bound l w Hw) as [Hb Hlen]. split.
    + simpl. rewrite length_take_le by done. by apply rune_width_take.
    + rewrite length_take_le by done. rewrite take_drop. split; [done|]. rename Hw into H. pose proof H as Hw. rune_cases l H; simpl; rewrite Hw; done.
  - destruct l as [|a t]; [done|]. exists (Bad a). split; [simpl|by split; [|cbn [chunks]; rewrite Hw]].
    unfold rune_width in Hw. destruct (code a <? 128) eqn:Ha; [done|]. bools. lia.
Qed.

(** Induction over the chunks of a text. *)
Lemma chunks_ind (P : list ascii -> Prop) :
  P [] ->
  (forall enc l, chunk_ok (Rune enc) -> chunks (enc ++ l) = Rune enc :: chunks l -> P l -> P (enc ++ l)) ->
  (forall b l, chunk_ok (Bad b) -> chunks (b :: l) = Bad b :: chunks l -> P l -> P (b :: l)) ->
  forall l, P l.
Proof.
  intros H0 H1 H2 l. remember (length l) as n eqn:Hn. revert l Hn. induction (lt_wf n) as [n _ IH]. intros l ->.
  destruct l as [|a t] eqn:El; [done|]. destruct (chunks_cons (a :: t)) as (c & Hok & Hc); [done|]. destruct c as [enc|b].
  - destruct Hc as [Heq Hch]. set (rest := drop (length enc) (a :: t)) in *. rewrite Heq. apply H1; [done|by rewrite <-Heq|].
    assert (length enc > 0)%nat by (pose proof (rune_width_bound _ _ Hok) as [? _]; lia).
    eapply IH; [|done]. rewrite Heq, length_app. lia.
  - destruct Hc as [Heq Hch]. injection Heq as <-. apply H2; [done|done|]. eapply IH; [|done]. simpl. lia.
Qed.

Lemma chunks_ok l : Forall chunk_ok (chunks l).
Proof.
  induction l as [|enc l Hok He IH|b l Hok He IH] using chunks_ind; [constructor|rewrite He; by constructor|rewrite He; by constructor].
Qed.

(** Reading well-formed text gives it back. *)
Lemma valid_chunks l : existsb is_bad (chunks l) = false -> concat (reads_as <$> chunks l) = l.
Proof.
  induction l as [|enc l Hok He IH|b l Hok He IH] using chunks_ind; [done|rewrite He, fmap_cons..]; cbn [concat reads_as existsb is_bad orb]; [|done].
  intros H. by rewrite (IH H).
Qed.

Lemma to_valid_id s : valid_utf8 s = true -> to_valid s = s.
Proof.
  unfold valid_utf8, to_valid. intros H. bools. rewrite valid_chunks by done. apply String.string_of_list_ascii_of_string.
Qed.

(** A byte below 128 is a rune of its own. *)
Lemma ascii_rune c l : code c < 128 -> chunks (c :: l) = Rune [c] :: chunks l.
Proof. intros H. cbn [chunks]. unfold rune_width. by rewrite (proj2 (Z.ltb_lt _ _)). Qed.

Lemma rune_of_one enc c : chunk_ok (Rune enc) -> c ∈ enc -> code c < 128 -> enc = [c].
Proof.
  intros Hok Hin Hc. simpl in Hok. destruct (decide (length enc = 1%nat)) as [H1|H1].
  - destruct enc as [|x [|]]; try done. by apply list_elem_of_singleton in Hin as ->.
  - pose proof (rune_width_bound _ _ Hok) as [Hb _]. pose proof (rune_width_high enc _ Hok ltac:(lia)) as Hh.
    rewrite take_ge in Hh by done. rewrite Forall_forall in Hh. specialize (Hh c Hin). lia.
Qed.
