(* ===== verification/Logsafe.v ===== *)
(** * Values in the log

    [internal/logsafe/logsafe.go]: what is done to a value an outsider chose
    before it reaches the log. *)

From stdpp Require Import base gmap strings list.
From Stdlib Require Import ZArith Lia Ascii.
From S2P Require Import Prelude GoStrings GoStringsFacts Utf8.

Open Scope Z_scope.

(** ** Definitions *)

Definition maxLen : nat := 512.

(** [strings.ReplaceAll] of one byte. *)
Definition replace_byte (c : ascii) (by_ : list ascii) (l : list ascii) : list ascii :=
  concat ((fun x => if bool_decide (x = c) then by_ else [x]) <$> l).

(** The mapping function on the code of an ASCII rune. *)
Definition control (c : ascii) : bool := (code c <? 32) || (code c =? 127).

(** [strings.Map] with it: a control character goes, a byte that is part of no
    rune becomes U+FFFD. *)
Definition map_chunk (c : chunk) : list ascii :=
  match c with
  | Rune [x] => if control x then [] else [x]
  | Rune enc => enc
  | Bad _ => RuneError
  end.

Definition drop_controls (l : list ascii) : list ascii := concat (map_chunk <$> chunks l).

Definition BACKSLASH : ascii := chr 92.

(** The ellipsis U+2026 and the text after it. *)
Definition truncated : list ascii := [chr 226; chr 128; chr 166] ++ bytes "(truncated)".

Definition neutral (l : list ascii) : list ascii :=
  drop_controls (replace_byte CR [BACKSLASH; "r"%char] (replace_byte LF [BACKSLASH; "n"%char] l)).

Definition bounded (l : list ascii) : list ascii := if (maxLen <? length l)%nat then take maxLen l ++ truncated else l.

Definition logsafe_String (s : string) : string := unbytes (bounded (neutral (bytes s))).

Definition logsafe_Error (err : option string) : string := match err with None => "" | Some e => logsafe_String e end.

(** ** Lemmas *)

Lemma replace_byte_id c by_ l : c ∉ l -> replace_byte c by_ l = l.
Proof.
  unfold replace_byte. induction l as [|x l IH]; [done|]. intros Hn. apply not_elem_of_cons in Hn as [Hx Hl]. rewrite fmap_cons. cbn [concat].
  rewrite bool_decide_eq_false_2 by congruence. simpl. f_equal. by apply IH.
Qed.

Lemma map_chunk_clean ch : chunk_ok ch -> Forall (fun c => control c = false) (map_chunk ch).
Proof.
  destruct ch as [enc|b]; intros Hok; [|by repeat constructor]. destruct enc as [|x [|y enc]]; simpl; [constructor| |].
  - destruct (control x) eqn:Hx; repeat constructor. done.
  - apply Forall_forall. intros c Hc. destruct (decide (code c < 128)) as [Hlt|Hge].
    + by pose proof (rune_of_one _ c Hok Hc Hlt).
    + unfold control. apply orb_false_iff. split; [apply Z.ltb_ge|apply Z.eqb_neq]; lia.
Qed.

Lemma drop_controls_clean l : Forall (fun c => control c = false) (drop_controls l).
Proof.
  unfold drop_controls. apply Forall_concat, Forall_fmap. eapply Forall_impl; [apply chunks_ok|]. intros ch Hok. by apply map_chunk_clean.
Qed.

(** Clean, well-formed text stays. *)
Lemma drop_controls_id l : existsb is_bad (chunks l) = false -> Forall (fun c => control c = false) l -> drop_controls l = l.
Proof.
  unfold drop_controls. induction l as [|enc l Hok He IH|b l Hok He IH] using chunks_ind; [done|rewrite He, fmap_cons..]; cbn [concat existsb is_bad orb]; [|done].
  intros Hb [Hc Hl]%Forall_app. rewrite (IH Hb Hl). f_equal. destruct enc as [|x [|y enc]]; [done| |done]. inversion Hc as [|? ? Hx _]; subst. cbn [map_chunk]. by rewrite Hx.
Qed.

Lemma bounded_length l : (length (bounded l) <= maxLen + length truncated)%nat.
Proof.
  unfold bounded. destruct (maxLen <? length l)%nat eqn:H; [rewrite length_app, length_take; lia|].
  apply Nat.ltb_ge in H. lia.
Qed.

Lemma bounded_clean l : Forall (fun c => control c = false) l -> Forall (fun c => control c = false) (bounded l).
Proof.
  intros H. unfold bounded. case_match; [|done]. apply Forall_app. split; [by apply Forall_take|]. by repeat constructor.
Qed.

(** ** Properties *)

(** a logged value cannot forge or flood the log. Whatever bytes an
    outsider sends, what is logged of them contains no line break and no other
    ASCII control character, so that it stays on its line; it is at most 526
    bytes long; and a value that is well-formed UTF-8 without control
    characters and at most 512 bytes long is logged as it is. *)
Theorem logged_value_is_harmless s :
  (forall c, c ∈ bytes (logsafe_String s) -> 32 <= code c /\ code c <> 127)
  /\ len (logsafe_String s) <= 526
  /\ (valid_utf8 s = true -> Forall (fun c => control c = false) (bytes s) -> len s <= 512 -> logsafe_String s = s).
Proof.
  unfold logsafe_String. split_and!.
  - intros c. rewrite bytes_unbytes. intros Hc. pose proof (bounded_clean _ (drop_controls_clean (replace_byte CR [BACKSLASH; "r"%char] (replace_byte LF [BACKSLASH; "n"%char] (bytes s))))) as H.
    rewrite Forall_forall in H. specialize (H c Hc). unfold control in H. bools. lia.
  - unfold len. rewrite length_unbytes. pose proof (bounded_length (neutral (bytes s))) as H. change (maxLen + length truncated)%nat with 526%nat in H. lia.
  - intros Hv Hc Hl. assert (forall c, control c = true -> c ∉ bytes s) as Hn.
    { intros c Ht Hin. rewrite Forall_forall in Hc. rewrite (Hc c Hin) in Ht. done. }
    unfold neutral. rewrite (replace_byte_id LF), (replace_byte_id CR) by (by apply Hn).
    unfold valid_utf8 in Hv. apply negb_true_iff in Hv. rewrite drop_controls_id by done. unfold bounded.
    assert ((maxLen <? length (bytes s))%nat = false) as ->; [|apply String.string_of_list_ascii_of_string].
    apply Nat.ltb_ge. unfold len in Hl. rewrite length_bytes. unfold maxLen. lia.
Qed.

(** ** Observations *)

(** A line break stays visible. *)
Lemma line_break_is_shown : logsafe_String ("alice" +:+ String LF "level=INFO") = "alice" +:+ String BACKSLASH "nlevel=INFO".
Proof. vm_compute. reflexivity. Qed.

(** The control characters of Unicode outside ASCII are kept, U+0085 (next
    line) among them. *)
Lemma next_line_is_kept :
  let s := unbytes [chr 97; chr 194; chr 133; chr 98] in valid_utf8 s = true /\ logsafe_String s = s.
Proof. split; vm_compute; reflexivity. Qed.
