(* ===== verification/Base64.v ===== *)
(** * base64 without padding

    [encoding/base64]'s [RawStdEncoding] and [RawURLEncoding], with and without
    [Strict()]: what the program stores keys, hashes, sealed values and tokens
    in. *)

From stdpp Require Import base gmap strings list.
From Stdlib Require Import ZArith Lia Ascii.
From S2P Require Import Prelude GoStrings GoStringsFacts.

Open Scope Z_scope.

Definition StdAlphabet : string := "ABCDEFGHIJKLMNOPQRSTUVWXYZabcdefghijklmnopqrstuvwxyz0123456789+/".
Definition URLAlphabet : string := "ABCDEFGHIJKLMNOPQRSTUVWXYZabcdefghijklmnopqrstuvwxyz0123456789-_".

Fixpoint index_of (c : ascii) (l : list ascii) : option Z :=
  match l with
  | [] => None
  | a :: l' => if bool_decide (a = c) then Some 0 else Z.succ <$> index_of c l'
  end.

(** Bytes to 6-bit digits, without padding. *)
Fixpoint b64_digits (l : list Z) : list Z :=
  match l with
  | a :: b :: c :: r =>
      a / 4 :: (a mod 4) * 16 + b / 16 :: (b mod 16) * 4 + c / 64 :: c mod 64 :: b64_digits r
  | [a; b] => [a / 4; (a mod 4) * 16 + b / 16; (b mod 16) * 4]
  | [a] => [a / 4; (a mod 4) * 16]
  | [] => []
  end.

(** ... and back; with [strict] the unused bits must be zero. *)
Fixpoint b64_bytes (strict : bool) (l : list Z) : option (list Z) :=
  match l with
  | w :: x :: y :: z :: r =>
      match b64_bytes strict r with
      | Some t => Some (w * 4 + x / 16 :: (x mod 16) * 16 + y / 4 :: (y mod 4) * 64 + z :: t)
      | None => None
      end
  | [w; x; y] =>
      if strict && negb (y mod 4 =? 0) then None else Some [w * 4 + x / 16; (x mod 16) * 16 + y / 4]
  | [w; x] => if strict && negb (x mod 16 =? 0) then None else Some [w * 4 + x / 16]
  | [_] => None
  | [] => Some []
  end.

Section Encoding.
Context (alphabet : string).

Definition b64_char (d : Z) : ascii := nth (Z.to_nat d) (bytes alphabet) "A"%char.
Definition b64_digit (c : ascii) : option Z := index_of c (bytes alphabet).

Definition b64_encode (s : string) : string := unbytes (b64_char <$> b64_digits (code <$> bytes s)).

(** The decoder skips line breaks. *)
Definition b64_decode (strict : bool) (s : string) : option string :=
  match mapM b64_digit (base.filter (fun c => c <> CR /\ c <> LF) (bytes s)) with
  | Some ds => (fun l => unbytes (chr <$> l)) <$> b64_bytes strict ds
  | None => None
  end.

(** 64 different characters, none of which is a line break. *)
Definition alphabet_ok : bool :=
  forallb (fun n => bool_decide (b64_digit (b64_char (Z.of_nat n)) = Some (Z.of_nat n))) (seq 0 64)
  && bool_decide (length (bytes alphabet) = 64%nat)
  && forallb (fun c => bool_decide (c <> CR /\ c <> LF)) (bytes alphabet).
End Encoding.

(** ** Digits *)

Lemma filter_all {A} (P : A -> Prop) `{forall x, Decision (P x)} l : Forall P l -> base.filter P l = l.
Proof. induction 1 as [|x l Hx _ IH]; [done|]. rewrite filter_cons_True by done. by rewrite IH. Qed.

Definition byte (z : Z) : Prop := 0 <= z < 256.
Definition digit (d : Z) : Prop := 0 <= d < 64.

Lemma b64_digits_bounds l : Forall byte l -> Forall digit (b64_digits l).
Proof.
  induction l as [l IH] using (induction_ltof1 _ (@length Z)). unfold ltof in IH. intros Hl.
  destruct l as [|a [|b [|c l]]]; simpl; repeat (apply Forall_cons in Hl as [? Hl]); unfold byte, digit in *;
    repeat constructor; try (Z.div_mod_to_equations; lia).
  apply IH; [simpl; lia|done].
Qed.

Lemma b64_bytes_digits strict l : Forall byte l -> b64_bytes strict (b64_digits l) = Some l.
Proof.
  induction l as [l IH] using (induction_ltof1 _ (@length Z)). unfold ltof in IH. intros Hl.
  destruct l as [|a [|b [|c l]]]; simpl; repeat (apply Forall_cons in Hl as [? Hl]); unfold byte in *.
  - done.
  - rewrite (proj2 (Z.eqb_eq _ _)) by (Z.div_mod_to_equations; lia). rewrite andb_false_r.
    do 2 f_equal. Z.div_mod_to_equations; lia.
  - rewrite (proj2 (Z.eqb_eq _ _)) by (Z.div_mod_to_equations; lia). rewrite andb_false_r.
    do 2 f_equal; [Z.div_mod_to_equations; lia|f_equal; Z.div_mod_to_equations; lia].
  - rewrite IH; [|simpl; lia|done]. do 2 f_equal; [Z.div_mod_to_equations; lia|].
    f_equal; [Z.div_mod_to_equations; lia|]. f_equal. Z.div_mod_to_equations; lia.
Qed.

(** Strictly read, bytes have one spelling. *)
Lemma b64_digits_bytes ds l : Forall digit ds -> b64_bytes true ds = Some l -> b64_digits l = ds /\ Forall byte l.
Proof.
  revert l. induction ds as [ds IH] using (induction_ltof1 _ (@length Z)). unfold ltof in IH. intros l Hd.
  destruct ds as [|w [|x [|y [|z ds]]]]; simpl; repeat (apply Forall_cons in Hd as [? Hd]); unfold digit in *.
  - intros [= <-]. split; [done|constructor].
  - done.
  - destruct (negb _) eqn:E; [done|]. bools. intros [= <-]. simpl. split.
    + f_equal; [Z.div_mod_to_equations; lia|]. f_equal. Z.div_mod_to_equations; lia.
    + repeat constructor; unfold byte; Z.div_mod_to_equations; lia.
  - destruct (negb _) eqn:E; [done|]. bools. intros [= <-]. simpl. split.
    + f_equal; [Z.div_mod_to_equations; lia|]. f_equal; [Z.div_mod_to_equations; lia|].
      f_equal. Z.div_mod_to_equations; lia.
    + repeat constructor; unfold byte; Z.div_mod_to_equations; lia.
  - destruct (b64_bytes true ds) as [t|] eqn:Ht; [|done]. intros [= <-].
    destruct (IH ds ltac:(simpl; lia) t Hd Ht) as [Hds Ht']. simpl. rewrite Hds. split.
    + f_equal; [Z.div_mod_to_equations; lia|]. f_equal; [Z.div_mod_to_equations; lia|].
      f_equal; [Z.div_mod_to_equations; lia|]. f_equal. Z.div_mod_to_equations; lia.
    + repeat (constructor; [unfold byte; Z.div_mod_to_equations; lia|]). done.
Qed.

Lemma index_of_Some c l d : index_of c l = Some d -> (Z.to_nat d < length l)%nat /\ 0 <= d /\ nth (Z.to_nat d) l "A"%char = c.
Proof.
  revert d. induction l as [|a l IH]; simpl; intros d; [done|]. case_bool_decide as Ha; [intros [= <-]; simpl; split_and!; [lia|lia|done]|].
  destruct (index_of c l) as [e|]; [|done]. intros [= <-]. destruct (IH e eq_refl) as (H1 & H2 & H3).
  rewrite Z2Nat.inj_succ by done. split_and!; [lia|lia|done].
Qed.

(** ** Texts *)

Section Alphabet.
Context (alphabet : string) (Hok : alphabet_ok alphabet = true).

Lemma b64_digit_char d : digit d -> b64_digit alphabet (b64_char alphabet d) = Some d.
Proof.
  intros H. unfold alphabet_ok in Hok. apply andb_true_iff in Hok as [[Ha _]%andb_true_iff _].
  rewrite forallb_forall in Ha. specialize (Ha (Z.to_nat d)). unfold digit in H. rewrite Z2Nat.id in Ha by lia.
  assert (In (Z.to_nat d) (seq 0 64)) as Hin by (apply in_seq; lia). specialize (Ha Hin). by bools.
Qed.

Lemma b64_char_digit c d : b64_digit alphabet c = Some d -> b64_char alphabet d = c /\ digit d.
Proof.
  unfold alphabet_ok in Hok. apply andb_true_iff in Hok as [[_ Hl]%andb_true_iff _]. bools.
  intros (H1 & H2 & H3)%index_of_Some. split; [done|]. unfold digit. lia.
Qed.

Lemma b64_char_in d : digit d -> b64_char alphabet d ∈ bytes alphabet.
Proof.
  unfold alphabet_ok in Hok. apply andb_true_iff in Hok as [[_ Hl]%andb_true_iff _]. bools. unfold digit. intros Hd.
  apply list_elem_of_In, nth_In. lia.
Qed.

Lemma code_bytes s : Forall byte (code <$> bytes s).
Proof. apply Forall_fmap, Forall_true. intros c. apply code_bounds. Qed.

Lemma b64_encode_chars s c : c ∈ bytes (b64_encode alphabet s) -> c ∈ bytes alphabet.
Proof.
  unfold b64_encode. rewrite bytes_unbytes. intros (d & -> & Hd)%list_elem_of_fmap. apply b64_char_in.
  pose proof (b64_digits_bounds _ (code_bytes s)) as Hb. rewrite Forall_forall in Hb. by apply Hb.
Qed.

Lemma b64_encode_no c s : c ∉ bytes alphabet -> contains_byte (b64_encode alphabet s) c = false.
Proof. intros Hc. apply contains_byte_false. by intros ?%b64_encode_chars. Qed.

Lemma b64_encode_no_breaks s : Forall (fun c => c <> CR /\ c <> LF) (bytes (b64_encode alphabet s)).
Proof.
  rewrite Forall_forall. intros c Hc%b64_encode_chars. unfold alphabet_ok in Hok.
  apply andb_true_iff in Hok as [_ Hb]. rewrite forallb_forall in Hb. apply list_elem_of_In, Hb in Hc. by bools.
Qed.

Lemma mapM_digits ds : Forall digit ds -> mapM (b64_digit alphabet) (b64_char alphabet <$> ds) = Some ds.
Proof. intros H. apply mapM_Some. induction H; constructor; auto using b64_digit_char. Qed.

Lemma chr_code_bytes s : unbytes (chr <$> (code <$> bytes s)) = s.
Proof.
  rewrite <- list_fmap_compose, (list_fmap_ext _ id); [by rewrite list_fmap_id, unbytes_bytes|]. intros i c _. apply chr_code.
Qed.

Lemma b64_decode_encode strict s : b64_decode alphabet strict (b64_encode alphabet s) = Some s.
Proof.
  unfold b64_decode. rewrite filter_all by apply b64_encode_no_breaks. unfold b64_encode.
  rewrite bytes_unbytes, mapM_digits by apply b64_digits_bounds, code_bytes.
  rewrite b64_bytes_digits by apply code_bytes. simpl. by rewrite chr_code_bytes.
Qed.

Lemma b64_encode_nonempty s : s <> "" -> b64_encode alphabet s <> "".
Proof.
  intros Hs He. pose proof (b64_decode_encode true s) as Hd. rewrite He in Hd. by injection Hd as <-.
Qed.

(** A text that decodes strictly is the encoding of what it decodes to, line
    breaks apart. *)
Lemma b64_strict_canonical s r :
  b64_decode alphabet true s = Some r ->
  b64_encode alphabet r = unbytes (base.filter (fun c => c <> CR /\ c <> LF) (bytes s)).
Proof.
  unfold b64_decode. set (cs := base.filter _ _). destruct (mapM _ cs) as [ds|] eqn:Hm; [|done].
  apply mapM_Some in Hm. assert (b64_char alphabet <$> ds = cs /\ Forall digit ds) as [Hcs Hds].
  { clear -Hm Hok. induction Hm as [|c d cs ds Hc _ [IH1 IH2]]; [done|]. apply b64_char_digit in Hc as [Hc Hd].
    rewrite fmap_cons, Hc, IH1. split; [done|]. by constructor. }
  destruct (b64_bytes true ds) as [l|] eqn:Hl; [|done]. intros [= <-].
  apply b64_digits_bytes in Hl as [Hl Hb]; [|done]. unfold b64_encode. rewrite bytes_unbytes.
  assert (code <$> (chr <$> l) = l) as ->.
  { rewrite <- list_fmap_compose. clear -Hb. induction Hb as [|z l Hz _ IH]; [done|]. rewrite fmap_cons, IH. f_equal.
    by apply code_chr. }
  by rewrite Hl, Hcs.
Qed.
End Alphabet.

Lemma StdAlphabet_ok : alphabet_ok StdAlphabet = true.
Proof. vm_compute. reflexivity. Qed.

Lemma URLAlphabet_ok : alphabet_ok URLAlphabet = true.
Proof. vm_compute. reflexivity. Qed.
