(* ===== verification/StoreModels.v ===== *)
(** * The data of the store

    The row types of [internal/store/models.go], the repositories' errors, and
    the database as a record of tables. A table is a finite map from the
    primary key to the row; [sql.NullX] is [option]. The string enumerations
    are inductive types; [StatusUnset] is the Go zero value "" of a status that
    a caller left out, and the [...Other] constructors carry a string the
    program does not name, "" among them. *)

From stdpp Require Import base gmap strings list sorting.
From Stdlib Require Import ZArith Lia.
From S2P Require Import Prelude GoStrings.

Open Scope Z_scope.

(** ** Enumerations *)

Inductive ManagedBy := ManagedByUI | ManagedByBootstrap | ManagedByOther (name : string).

Inductive AuthType := AuthTypeSecret | AuthTypeCertificate | AuthTypeOther (name : string).

Inductive Transport := TransportSMTP | TransportGraph | TransportOther (name : string).

Inductive FromPolicy :=
| FromPolicyReject
| FromPolicyRewrite
| FromPolicyPassthrough
| FromPolicyOther (name : string).

Inductive MessageStatus :=
| StatusUnset
| StatusQueued
| StatusSending
| StatusSent
| StatusDeferred
| StatusFailed
| StatusHeld.

#[export] Instance ManagedBy_eq_dec : EqDecision ManagedBy.
Proof. solve_decision. Defined.
#[export] Instance AuthType_eq_dec : EqDecision AuthType.
Proof. solve_decision. Defined.
#[export] Instance Transport_eq_dec : EqDecision Transport.
Proof. solve_decision. Defined.
#[export] Instance FromPolicy_eq_dec : EqDecision FromPolicy.
Proof. solve_decision. Defined.
#[export] Instance MessageStatus_eq_dec : EqDecision MessageStatus.
Proof. solve_decision. Defined.

(** ** Rows *)

Record OAuthCredential := mkOAuthCredential {
  cred_ID : string;
  cred_Name : string;
  cred_TenantID : string;
  cred_ClientID : string;
  cred_AuthType : AuthType;
  cred_ClientSecretEnc : string;
  cred_CertificatePEM : string;
  cred_CertificateKeyEnc : string;
  cred_CertificateThumbprint : string;
  cred_AuthorityHost : string;
  cred_ExpiresAt : option Z;
  cred_ManagedBy : ManagedBy;
  cred_CreatedAt : Z;
  cred_UpdatedAt : Z
}.

Record Mailbox := mkMailbox {
  mb_ID : string;
  mb_Address : string;
  mb_DisplayName : string;
  mb_OAuthCredentialID : string;
  mb_Transport : Transport;
  mb_RateLimitPerMin : option Z;
  mb_MaxConcurrent : option Z;
  mb_Enabled : bool;
  mb_ManagedBy : ManagedBy;
  mb_CreatedAt : Z;
  mb_UpdatedAt : Z
}.

Record SMTPAccount := mkSMTPAccount {
  acc_ID : string;
  acc_Username : string;
  acc_PasswordHash : string;
  acc_Description : string;
  acc_DefaultMailboxID : option string;
  acc_FromPolicy : FromPolicy;
  acc_AllowCIDRs : list string;
  acc_RateLimitPerMin : option Z;
  acc_Enabled : bool;
  acc_LastUsedAt : option Z;
  acc_ManagedBy : ManagedBy;
  acc_CreatedAt : Z;
  acc_UpdatedAt : Z
}.

Record AllowedSender := mkAllowedSender {
  as_ID : string;
  as_SMTPAccountID : string;
  as_Pattern : string;
  as_CreatedAt : Z
}.

Record Message := mkMessage {
  m_Origin : string;
  m_ID : string;
  m_SMTPAccountID : option string;
  m_MailboxID : option string;
  m_AccountUsername : string;
  m_MailboxAddress : string;
  m_EnvelopeFrom : string;
  m_HeaderFrom : string;
  m_Recipients : list string;
  m_RecipientCount : Z;
  m_SizeBytes : Z;
  m_Subject : string;
  m_MessageID : string;
  m_Status : MessageStatus;
  m_Attempts : Z;
  m_NextAttemptAt : Z;
  m_LeaseOwner : option string;
  m_LeaseExpiresAt : option Z;
  m_LastError : string;
  m_LastErrorCode : string;
  m_LastErrorPermanent : bool;
  m_ClientIP : string;
  m_BlobRef : string;
  m_ReceivedAt : Z;
  m_SentAt : option Z;
  m_UpdatedAt : Z
}.

(** [Failure] describes why a delivery attempt did not succeed. *)
Record Failure := mkFailure {
  f_Code : string;
  f_Message : string;
  f_Permanent : bool
}.

(** *** Assignment to one field *)

Definition set_m_Origin (v : string) (x : Message) : Message :=
  mkMessage v (m_ID x) (m_SMTPAccountID x) (m_MailboxID x)
    (m_AccountUsername x) (m_MailboxAddress x) (m_EnvelopeFrom x) (m_HeaderFrom x)
    (m_Recipients x) (m_RecipientCount x) (m_SizeBytes x) (m_Subject x)
    (m_MessageID x) (m_Status x) (m_Attempts x) (m_NextAttemptAt x)
    (m_LeaseOwner x) (m_LeaseExpiresAt x) (m_LastError x) (m_LastErrorCode x)
    (m_LastErrorPermanent x) (m_ClientIP x) (m_BlobRef x) (m_ReceivedAt x)
    (m_SentAt x) (m_UpdatedAt x).

Definition set_m_ID (v : string) (x : Message) : Message :=
  mkMessage (m_Origin x) v (m_SMTPAccountID x) (m_MailboxID x)
    (m_AccountUsername x) (m_MailboxAddress x) (m_EnvelopeFrom x) (m_HeaderFrom x)
    (m_Recipients x) (m_RecipientCount x) (m_SizeBytes x) (m_Subject x)
    (m_MessageID x) (m_Status x) (m_Attempts x) (m_NextAttemptAt x)
    (m_LeaseOwner x) (m_LeaseExpiresAt x) (m_LastError x) (m_LastErrorCode x)
    (m_LastErrorPermanent x) (m_ClientIP x) (m_BlobRef x) (m_ReceivedAt x)
    (m_SentAt x) (m_UpdatedAt x).

Definition set_m_SMTPAccountID (v : option string) (x : Message) : Message :=
  mkMessage (m_Origin x) (m_ID x) v (m_MailboxID x)
    (m_AccountUsername x) (m_MailboxAddress x) (m_EnvelopeFrom x) (m_HeaderFrom x)
    (m_Recipients x) (m_RecipientCount x) (m_SizeBytes x) (m_Subject x)
    (m_MessageID x) (m_Status x) (m_Attempts x) (m_NextAttemptAt x)
    (m_LeaseOwner x) (m_LeaseExpiresAt x) (m_LastError x) (m_LastErrorCode x)
    (m_LastErrorPermanent x) (m_ClientIP x) (m_BlobRef x) (m_ReceivedAt x)
    (m_SentAt x) (m_UpdatedAt x).

Definition set_m_MailboxID (v : option string) (x : Message) : Message :=
  mkMessage (m_Origin x) (m_ID x) (m_SMTPAccountID x) v
    (m_AccountUsername x) (m_MailboxAddress x) (m_EnvelopeFrom x) (m_HeaderFrom x)
    (m_Recipients x) (m_RecipientCount x) (m_SizeBytes x) (m_Subject x)
    (m_MessageID x) (m_Status x) (m_Attempts x) (m_NextAttemptAt x)
    (m_LeaseOwner x) (m_LeaseExpiresAt x) (m_LastError x) (m_LastErrorCode x)
    (m_LastErrorPermanent x) (m_ClientIP x) (m_BlobRef x) (m_ReceivedAt x)
    (m_SentAt x) (m_UpdatedAt x).

Definition set_m_AccountUsername (v : string) (x : Message) : Message :=
  mkMessage (m_Origin x) (m_ID x) (m_SMTPAccountID x) (m_MailboxID x)
    v (m_MailboxAddress x) (m_EnvelopeFrom x) (m_HeaderFrom x)
    (m_Recipients x) (m_RecipientCount x) (m_SizeBytes x) (m_Subject x)
    (m_MessageID x) (m_Status x) (m_Attempts x) (m_NextAttemptAt x)
    (m_LeaseOwner x) (m_LeaseExpiresAt x) (m_LastError x) (m_LastErrorCode x)
    (m_LastErrorPermanent x) (m_ClientIP x) (m_BlobRef x) (m_ReceivedAt x)
    (m_SentAt x) (m_UpdatedAt x).

Definition set_m_RecipientCount (v : Z) (x : Message) : Message :=
  mkMessage (m_Origin x) (m_ID x) (m_SMTPAccountID x) (m_MailboxID x)
    (m_AccountUsername x) (m_MailboxAddress x) (m_EnvelopeFrom x) (m_HeaderFrom x)
    (m_Recipients x) v (m_SizeBytes x) (m_Subject x)
    (m_MessageID x) (m_Status x) (m_Attempts x) (m_NextAttemptAt x)
    (m_LeaseOwner x) (m_LeaseExpiresAt x) (m_LastError x) (m_LastErrorCode x)
    (m_LastErrorPermanent x) (m_ClientIP x) (m_BlobRef x) (m_ReceivedAt x)
    (m_SentAt x) (m_UpdatedAt x).

Definition set_m_Status (v : MessageStatus) (x : Message) : Message :=
  mkMessage (m_Origin x) (m_ID x) (m_SMTPAccountID x) (m_MailboxID x)
    (m_AccountUsername x) (m_MailboxAddress x) (m_EnvelopeFrom x) (m_HeaderFrom x)
    (m_Recipients x) (m_RecipientCount x) (m_SizeBytes x) (m_Subject x)
    (m_MessageID x) v (m_Attempts x) (m_NextAttemptAt x)
    (m_LeaseOwner x) (m_LeaseExpiresAt x) (m_LastError x) (m_LastErrorCode x)
    (m_LastErrorPermanent x) (m_ClientIP x) (m_BlobRef x) (m_ReceivedAt x)
    (m_SentAt x) (m_UpdatedAt x).

Definition set_m_Attempts (v : Z) (x : Message) : Message :=
  mkMessage (m_Origin x) (m_ID x) (m_SMTPAccountID x) (m_MailboxID x)
    (m_AccountUsername x) (m_MailboxAddress x) (m_EnvelopeFrom x) (m_HeaderFrom x)
    (m_Recipients x) (m_RecipientCount x) (m_SizeBytes x) (m_Subject x)
    (m_MessageID x) (m_Status x) v (m_NextAttemptAt x)
    (m_LeaseOwner x) (m_LeaseExpiresAt x) (m_LastError x) (m_LastErrorCode x)
    (m_LastErrorPermanent x) (m_ClientIP x) (m_BlobRef x) (m_ReceivedAt x)
    (m_SentAt x) (m_UpdatedAt x).

Definition set_m_NextAttemptAt (v : Z) (x : Message) : Message :=
  mkMessage (m_Origin x) (m_ID x) (m_SMTPAccountID x) (m_MailboxID x)
    (m_AccountUsername x) (m_MailboxAddress x) (m_EnvelopeFrom x) (m_HeaderFrom x)
    (m_Recipients x) (m_RecipientCount x) (m_SizeBytes x) (m_Subject x)
    (m_MessageID x) (m_Status x) (m_Attempts x) v
    (m_LeaseOwner x) (m_LeaseExpiresAt x) (m_LastError x) (m_LastErrorCode x)
    (m_LastErrorPermanent x) (m_ClientIP x) (m_BlobRef x) (m_ReceivedAt x)
    (m_SentAt x) (m_UpdatedAt x).

Definition set_m_LeaseOwner (v : option string) (x : Message) : Message :=
  mkMessage (m_Origin x) (m_ID x) (m_SMTPAccountID x) (m_MailboxID x)
    (m_AccountUsername x) (m_MailboxAddress x) (m_EnvelopeFrom x) (m_HeaderFrom x)
    (m_Recipients x) (m_RecipientCount x) (m_SizeBytes x) (m_Subject x)
    (m_MessageID x) (m_Status x) (m_Attempts x) (m_NextAttemptAt x)
    v (m_LeaseExpiresAt x) (m_LastError x) (m_LastErrorCode x)
    (m_LastErrorPermanent x) (m_ClientIP x) (m_BlobRef x) (m_ReceivedAt x)
    (m_SentAt x) (m_UpdatedAt x).

Definition set_m_LeaseExpiresAt (v : option Z) (x : Message) : Message :=
  mkMessage (m_Origin x) (m_ID x) (m_SMTPAccountID x) (m_MailboxID x)
    (m_AccountUsername x) (m_MailboxAddress x) (m_EnvelopeFrom x) (m_HeaderFrom x)
    (m_Recipients x) (m_RecipientCount x) (m_SizeBytes x) (m_Subject x)
    (m_MessageID x) (m_Status x) (m_Attempts x) (m_NextAttemptAt x)
    (m_LeaseOwner x) v (m_LastError x) (m_LastErrorCode x)
    (m_LastErrorPermanent x) (m_ClientIP x) (m_BlobRef x) (m_ReceivedAt x)
    (m_SentAt x) (m_UpdatedAt x).

Definition set_m_LastError (v : string) (x : Message) : Message :=
  mkMessage (m_Origin x) (m_ID x) (m_SMTPAccountID x) (m_MailboxID x)
    (m_AccountUsername x) (m_MailboxAddress x) (m_EnvelopeFrom x) (m_HeaderFrom x)
    (m_Recipients x) (m_RecipientCount x) (m_SizeBytes x) (m_Subject x)
    (m_MessageID x) (m_Status x) (m_Attempts x) (m_NextAttemptAt x)
    (m_LeaseOwner x) (m_LeaseExpiresAt x) v (m_LastErrorCode x)
    (m_LastErrorPermanent x) (m_ClientIP x) (m_BlobRef x) (m_ReceivedAt x)
    (m_SentAt x) (m_UpdatedAt x).

Definition set_m_LastErrorCode (v : string) (x : Message) : Message :=
  mkMessage (m_Origin x) (m_ID x) (m_SMTPAccountID x) (m_MailboxID x)
    (m_AccountUsername x) (m_MailboxAddress x) (m_EnvelopeFrom x) (m_HeaderFrom x)
    (m_Recipients x) (m_RecipientCount x) (m_SizeBytes x) (m_Subject x)
    (m_MessageID x) (m_Status x) (m_Attempts x) (m_NextAttemptAt x)
    (m_LeaseOwner x) (m_LeaseExpiresAt x) (m_LastError x) v
    (m_LastErrorPermanent x) (m_ClientIP x) (m_BlobRef x) (m_ReceivedAt x)
    (m_SentAt x) (m_UpdatedAt x).

Definition set_m_LastErrorPermanent (v : bool) (x : Message) : Message :=
  mkMessage (m_Origin x) (m_ID x) (m_SMTPAccountID x) (m_MailboxID x)
    (m_AccountUsername x) (m_MailboxAddress x) (m_EnvelopeFrom x) (m_HeaderFrom x)
    (m_Recipients x) (m_RecipientCount x) (m_SizeBytes x) (m_Subject x)
    (m_MessageID x) (m_Status x) (m_Attempts x) (m_NextAttemptAt x)
    (m_LeaseOwner x) (m_LeaseExpiresAt x) (m_LastError x) (m_LastErrorCode x)
    v (m_ClientIP x) (m_BlobRef x) (m_ReceivedAt x)
    (m_SentAt x) (m_UpdatedAt x).

Definition set_m_ReceivedAt (v : Z) (x : Message) : Message :=
  mkMessage (m_Origin x) (m_ID x) (m_SMTPAccountID x) (m_MailboxID x)
    (m_AccountUsername x) (m_MailboxAddress x) (m_EnvelopeFrom x) (m_HeaderFrom x)
    (m_Recipients x) (m_RecipientCount x) (m_SizeBytes x) (m_Subject x)
    (m_MessageID x) (m_Status x) (m_Attempts x) (m_NextAttemptAt x)
    (m_LeaseOwner x) (m_LeaseExpiresAt x) (m_LastError x) (m_LastErrorCode x)
    (m_LastErrorPermanent x) (m_ClientIP x) (m_BlobRef x) v
    (m_SentAt x) (m_UpdatedAt x).

Definition set_m_SentAt (v : option Z) (x : Message) : Message :=
  mkMessage (m_Origin x) (m_ID x) (m_SMTPAccountID x) (m_MailboxID x)
    (m_AccountUsername x) (m_MailboxAddress x) (m_EnvelopeFrom x) (m_HeaderFrom x)
    (m_Recipients x) (m_RecipientCount x) (m_SizeBytes x) (m_Subject x)
    (m_MessageID x) (m_Status x) (m_Attempts x) (m_NextAttemptAt x)
    (m_LeaseOwner x) (m_LeaseExpiresAt x) (m_LastError x) (m_LastErrorCode x)
    (m_LastErrorPermanent x) (m_ClientIP x) (m_BlobRef x) (m_ReceivedAt x)
    v (m_UpdatedAt x).

Definition set_m_UpdatedAt (v : Z) (x : Message) : Message :=
  mkMessage (m_Origin x) (m_ID x) (m_SMTPAccountID x) (m_MailboxID x)
    (m_AccountUsername x) (m_MailboxAddress x) (m_EnvelopeFrom x) (m_HeaderFrom x)
    (m_Recipients x) (m_RecipientCount x) (m_SizeBytes x) (m_Subject x)
    (m_MessageID x) (m_Status x) (m_Attempts x) (m_NextAttemptAt x)
    (m_LeaseOwner x) (m_LeaseExpiresAt x) (m_LastError x) (m_LastErrorCode x)
    (m_LastErrorPermanent x) (m_ClientIP x) (m_BlobRef x) (m_ReceivedAt x)
    (m_SentAt x) v.

Definition set_acc_PasswordHash (v : string) (x : SMTPAccount) : SMTPAccount :=
  mkSMTPAccount (acc_ID x) (acc_Username x) v (acc_Description x)
    (acc_DefaultMailboxID x) (acc_FromPolicy x) (acc_AllowCIDRs x) (acc_RateLimitPerMin x)
    (acc_Enabled x) (acc_LastUsedAt x) (acc_ManagedBy x) (acc_CreatedAt x)
    (acc_UpdatedAt x).

Definition set_acc_LastUsedAt (v : option Z) (x : SMTPAccount) : SMTPAccount :=
  mkSMTPAccount (acc_ID x) (acc_Username x) (acc_PasswordHash x) (acc_Description x)
    (acc_DefaultMailboxID x) (acc_FromPolicy x) (acc_AllowCIDRs x) (acc_RateLimitPerMin x)
    (acc_Enabled x) v (acc_ManagedBy x) (acc_CreatedAt x)
    (acc_UpdatedAt x).

Definition set_acc_UpdatedAt (v : Z) (x : SMTPAccount) : SMTPAccount :=
  mkSMTPAccount (acc_ID x) (acc_Username x) (acc_PasswordHash x) (acc_Description x)
    (acc_DefaultMailboxID x) (acc_FromPolicy x) (acc_AllowCIDRs x) (acc_RateLimitPerMin x)
    (acc_Enabled x) (acc_LastUsedAt x) (acc_ManagedBy x) (acc_CreatedAt x)
    v.

(** ** Errors *)

(** The repositories' sentinel errors, with what they are about, and an error
    of the database driver passed on as it is. *)
Inductive StoreError :=
| ErrNotFound (what : string)
| ErrConflict (what : string)
| ErrReferenced (what : string)
| ErrImmutable (what : string)
| ErrStateConflict
| ErrDriver (msg : string).

#[export] Instance StoreError_eq_dec : EqDecision StoreError.
Proof. solve_decision. Defined.

(** What the driver reports for a statement. *)
Inductive DriverError :=
| SqlNoRows
| SqlUniqueViolation
| SqlForeignKeyViolation
| SqlOther (msg : string).

(** [translateError]: [None] is Go's nil. *)
Definition translateError (err : option DriverError) (what : string) : option StoreError :=
  match err with
  | None => None
  | Some SqlNoRows => Some (ErrNotFound what)
  | Some SqlUniqueViolation => Some (ErrConflict what)
  | Some SqlForeignKeyViolation => Some (ErrReferenced what)
  | Some (SqlOther msg) => Some (ErrDriver msg)
  end.

(** [NullString]: the empty string is NULL. *)
Definition NullString (s : string) : option string :=
  if bool_decide (s = "") then None else Some s.

(** [NullTime]: the zero time is NULL. *)
Definition NullTime (t : Z) : option Z := if IsZero t then None else Some t.

(** [NullInt]: zero and negative numbers are NULL. *)
Definition NullInt (n : Z) : option Z := if n >? 0 then Some n else None.

(** ** The database *)

Record DB := mkDB {
  oauth_credentials : gmap string OAuthCredential;
  mailboxes : gmap string Mailbox;
  smtp_accounts : gmap string SMTPAccount;
  smtp_account_mailboxes : gset (string * string);
  allowed_senders : gmap string AllowedSender;
  messages : gmap string Message;
  message_blobs : gmap string string
}.

Definition empty_DB : DB := mkDB ∅ ∅ ∅ ∅ ∅ ∅ ∅.

Definition set_messages (t : gmap string Message) (db : DB) : DB :=
  mkDB (oauth_credentials db) (mailboxes db) (smtp_accounts db)
    (smtp_account_mailboxes db) (allowed_senders db) t (message_blobs db).

Definition set_message_blobs (t : gmap string string) (db : DB) : DB :=
  mkDB (oauth_credentials db) (mailboxes db) (smtp_accounts db)
    (smtp_account_mailboxes db) (allowed_senders db) (messages db) t.

Definition set_smtp_accounts (t : gmap string SMTPAccount) (db : DB) : DB :=
  mkDB (oauth_credentials db) (mailboxes db) t
    (smtp_account_mailboxes db) (allowed_senders db) (messages db) (message_blobs db).

(** ** SQL statements on one table

    [UPDATE t SET ... WHERE p] maps the rows that satisfy [p] and reports how
    many there were; [DELETE FROM t WHERE p] keeps the others. *)

Section Table.
Context {R : Type}.
Implicit Types (t : gmap string R) (p : R -> bool) (f : R -> R).

Definition rows_where p t : gmap string R := filter (fun kv => p kv.2 = true) t.

Definition rows_affected p t : Z := Z.of_nat (size (rows_where p t)).

Definition sql_update p f t : gmap string R := (fun r => if p r then f r else r) <$> t.

Definition sql_delete p t : gmap string R := filter (fun kv => p kv.2 = false) t.

(** Rows of a [SELECT ... WHERE p], in the order [scan] in which the engine
    visits the keys. *)
Definition sql_select p (scan : list string) t : list R :=
  base.filter (fun r => p r = true) (omap (fun k => t !! k) scan).

Lemma lookup_sql_update p f t k :
  sql_update p f t !! k = (fun r => if p r then f r else r) <$> t !! k.
Proof. apply lookup_fmap. Qed.

Lemma lookup_sql_delete p t k r :
  sql_delete p t !! k = Some r <-> t !! k = Some r /\ p r = false.
Proof. unfold sql_delete. by rewrite map_lookup_filter_Some. Qed.

Lemma rows_affected_zero p t :
  rows_affected p t = 0 <-> forall k r, t !! k = Some r -> p r = false.
Proof.
  unfold rows_affected, rows_where. split.
  - intros H k r Hk. destruct (p r) eqn:Hp; [|done].
    assert (filter (fun kv : string * R => p kv.2 = true) t = ∅) as He.
    { apply map_size_empty_iff. lia. }
    assert (filter (fun kv : string * R => p kv.2 = true) t !! k = Some r) as Hf.
    { by apply map_lookup_filter_Some. }
    rewrite He in Hf. by rewrite lookup_empty in Hf.
  - intros H. rewrite map_empty_filter_2; [by rewrite map_size_empty|].
    intros k r Hk Hp. simpl in Hp. by rewrite (H k r Hk) in Hp.
Qed.

Lemma rows_affected_nonneg p t : 0 <= rows_affected p t.
Proof. unfold rows_affected. lia. Qed.

Lemma sql_update_noop p f t :
  (forall k r, t !! k = Some r -> p r = false) -> sql_update p f t = t.
Proof.
  intros H. apply map_eq. intros k. rewrite lookup_sql_update.
  destruct (t !! k) as [r|] eqn:E; simpl; [|done]. by rewrite (H k r E).
Qed.

Lemma elem_of_sql_select p scan t r :
  r ∈ sql_select p scan t <-> p r = true /\ exists k, k ∈ scan /\ t !! k = Some r.
Proof.
  unfold sql_select. rewrite list_elem_of_filter, list_elem_of_omap. naive_solver.
Qed.

End Table.
