(* ===== verification/MessageStore.v ===== *)
(** * The delivery queue in the database

    [internal/store/messages.go]: every statement the queue runs on the
    [messages] and [message_blobs] tables, as a function on the database.

    Each function takes what the code reads from its surroundings as an
    argument: [now] is [time.Now()], [newID] what [NewID()] (a UUID library)
    returns, [io] the failure the driver reports for the statement, if it
    does, and [scan] the order in which the engine visits the rows of a query,
    which decides ties of [ORDER BY next_attempt_at] and, under
    [SKIP LOCKED], which rows a claim sees at all. *)

From stdpp Require Import base gmap strings list sorting.
From Stdlib Require Import ZArith Lia.
From S2P Require Import Prelude GoStrings StoreModels.

Open Scope Z_scope.

(** ** Definitions *)

(** [InTx]: the transaction's changes are kept only when its body succeeds. *)
Definition InTx {T A} (fn : T -> result StoreError A * T) (db : T) : result StoreError A * T :=
  match fn db with
  | (Ok a, db') => (Ok a, db')
  | (Err e, _) => (Err e, db)
  end.

(** A statement that the driver may fail. *)
Definition exec {T A} (io : option string) (fn : T -> result StoreError A * T) (db : T)
  : result StoreError A * T :=
  match io with
  | Some e => (Err (ErrDriver e), db)
  | None => fn db
  end.

(** The fields [enqueueTx] fills in before the insert. *)
Definition enqueue_defaults (now : Z) (newID : string) (m : Message) : Message :=
  let m := if bool_decide (m_Origin m = "") then set_m_Origin "smtp" m else m in
  let m := if bool_decide (m_ID m = "") then set_m_ID newID m else m in
  let m := if IsZero (m_ReceivedAt m) then set_m_ReceivedAt now m else m in
  let m := if IsZero (m_NextAttemptAt m) then set_m_NextAttemptAt now m else m in
  let m := set_m_UpdatedAt now m in
  let m := if bool_decide (m_Status m = StatusUnset) then set_m_Status StatusQueued m else m in
  set_m_RecipientCount (Z.of_nat (length (m_Recipients m))) m.

(** A nullable foreign key into a table. *)
Definition fk_ok {R} (fk : option string) (t : gmap string R) : bool :=
  match fk with None => true | Some k => bool_decide (is_Some (t !! k)) end.

(** The constraints of the [messages] table an insert is checked against: the
    CHECK clauses, then the primary key, then the foreign keys. *)
Definition insert_message_error (m : Message) (db : DB) : option DriverError :=
  if negb (bool_decide (m_Origin m = "smtp") || bool_decide (m_Origin m = "diagnostic"))
  then Some (SqlOther "CHECK constraint failed")
  else if bool_decide (is_Some (messages db !! m_ID m)) then Some SqlUniqueViolation
  else if fk_ok (m_SMTPAccountID m) (smtp_accounts db) && fk_ok (m_MailboxID m) (mailboxes db)
  then None else Some SqlForeignKeyViolation.

Definition enqueueTx (now : Z) (newID : string) (m : Message) (body : option string) (db : DB)
  : result StoreError Message * DB :=
  let m := enqueue_defaults now newID m in
  match translateError (insert_message_error m db) ("message " +:+ m_ID m) with
  | Some e => (Err e, db)
  | None =>
      let db := set_messages (<[m_ID m := m]> (messages db)) db in
      match body with
      | None => (Ok m, db)
      | Some b =>
          if bool_decide (is_Some (message_blobs db !! m_ID m))
          then (Err (ErrDriver "storing the message body"), db)
          else (Ok m, set_message_blobs (<[m_ID m := b]> (message_blobs db)) db)
      end
  end.

Definition Enqueue (io : option string) (now : Z) (newID : string) (m : Message)
    (body : option string) (db : DB) : result StoreError Message * DB :=
  InTx (exec io (enqueueTx now newID m body)) db.

Definition Body (io : option string) (id : string) (db : DB) : result StoreError string :=
  match io with
  | Some e => Err (ErrDriver e)
  | None =>
      match message_blobs db !! id with
      | Some b => Ok b
      | None => Err (ErrNotFound ("body of message " +:+ id))
      end
  end.

Definition Get (io : option string) (id : string) (db : DB) : result StoreError Message :=
  match io with
  | Some e => Err (ErrDriver e)
  | None =>
      match messages db !! id with
      | Some m => Ok m
      | None => Err (ErrNotFound ("message " +:+ id))
      end
  end.

(** [expires_at IS NOT NULL AND expires_at < now] *)
Definition expired (now : Z) (m : Message) : bool :=
  match m_LeaseExpiresAt m with Some e => e <? now | None => false end.

Definition is_status (s : MessageStatus) (m : Message) : bool := bool_decide (m_Status m = s).

(** The WHERE clause of the claim. *)
Definition due (now : Z) (m : Message) : bool :=
  (((is_status StatusQueued m || is_status StatusDeferred m) && (m_NextAttemptAt m <=? now))
   || (is_status StatusSending m && expired now m))
  && (bool_decide (m_LeaseOwner m = None) || bool_decide (m_LeaseExpiresAt m = None)
      || expired now m).

Definition by_next_attempt (a b : Message) : Prop := m_NextAttemptAt a <= m_NextAttemptAt b.

#[export] Instance by_next_attempt_dec a b : Decision (by_next_attempt a b).
Proof. unfold by_next_attempt. apply _. Defined.

(** The subquery of the claim: [ORDER BY next_attempt_at LIMIT limit]. *)
Definition claim_select (scan : list string) (limit now : Z) (db : DB) : list Message :=
  take (Z.to_nat limit) (merge_sort by_next_attempt (sql_select (due now) scan (messages db))).

Definition claim_row (owner : string) (leaseUntil now : Z) (m : Message) : Message :=
  set_m_UpdatedAt now (set_m_LeaseExpiresAt (Some leaseUntil)
    (set_m_LeaseOwner (Some owner) (set_m_Status StatusSending m))).

(** The single [UPDATE ... WHERE id IN (subquery)]. *)
Definition claim_update (scan : list string) (owner : string) (limit leaseUntil now : Z) (db : DB)
  : Z * DB :=
  let ids := m_ID <$> claim_select scan limit now db in
  let p m := bool_decide (m_ID m ∈ ids) in
  (rows_affected p (messages db),
   set_messages (sql_update p (claim_row owner leaseUntil now) (messages db)) db).

(** The read-back of what the worker now owns. *)
Definition claim_readback (scan : list string) (owner : string) (leaseUntil : Z) (db : DB)
  : list Message :=
  merge_sort by_next_attempt
    (sql_select (fun m => bool_decide (m_LeaseOwner m = Some owner)
                          && bool_decide (m_LeaseExpiresAt m = Some leaseUntil)
                          && is_status StatusSending m)
       scan (messages db)).

Definition ClaimMessages (io io' : option string) (scan scan' : list string) (owner : string)
    (limit leaseFor now : Z) (db : DB) : result StoreError (list Message) * DB :=
  if bool_decide (owner = "")
  then (Err (ErrDriver "store: claiming requires a worker identity"), db)
  else if limit <=? 0 then (Ok [], db)
  else
    match io with
    | Some e => (Err (ErrDriver e), db)
    | None =>
        let leaseUntil := now + leaseFor in
        let '(n, db') := claim_update scan owner limit leaseUntil now db in
        if n =? 0 then (Ok [], db')
        else match io' with
             | Some e => (Err (ErrDriver e), db')
             | None => (Ok (claim_readback scan' owner leaseUntil db'), db')
             end
    end.

(** [requireOneRow] *)
Definition requireOneRow (n : Z) (what : string) : result StoreError unit :=
  if n =? 0 then Err (ErrNotFound what) else Ok tt.

(** [WHERE id = ? AND lease_owner = ?] *)
Definition owned (id owner : string) (m : Message) : bool :=
  bool_decide (m_ID m = id) && bool_decide (m_LeaseOwner m = Some owner).

Definition clear_lease (m : Message) : Message :=
  set_m_LeaseOwner None (set_m_LeaseExpiresAt None m).

(** An update of one leased row, as every completion does it. *)
Definition update_owned (io : option string) (id owner : string) (f : Message -> Message) (db : DB)
  : result StoreError unit * DB :=
  exec io (fun db =>
    (requireOneRow (rows_affected (owned id owner) (messages db)) ("lease on message " +:+ id),
     set_messages (sql_update (owned id owner) f (messages db)) db)) db.

Definition ExtendLease (io : option string) (now : Z) (id owner : string) (leaseFor : Z) (db : DB)
  : result StoreError unit * DB :=
  update_owned io id owner
    (fun m => set_m_UpdatedAt now (set_m_LeaseExpiresAt (Some (now + leaseFor)) m)) db.

Definition MarkSent (io : option string) (now : Z) (id owner : string) (db : DB)
  : result StoreError unit * DB :=
  update_owned io id owner
    (fun m => set_m_LastErrorCode "" (set_m_LastError "" (clear_lease
                (set_m_Attempts (m_Attempts m + 1) (set_m_UpdatedAt now
                   (set_m_SentAt (Some now) (set_m_Status StatusSent m))))))) db.

Definition Defer (io : option string) (now : Z) (id owner : string) (f : Failure) (retryAt : Z)
    (db : DB) : result StoreError unit * DB :=
  update_owned io id owner
    (fun m => set_m_UpdatedAt now (clear_lease (set_m_LastErrorPermanent false
                (set_m_LastErrorCode (f_Code f) (set_m_LastError (f_Message f)
                   (set_m_NextAttemptAt retryAt (set_m_Attempts (m_Attempts m + 1)
                      (set_m_Status StatusDeferred m)))))))) db.

Definition Fail (io : option string) (now : Z) (id owner : string) (f : Failure) (db : DB)
  : result StoreError unit * DB :=
  update_owned io id owner
    (fun m => set_m_UpdatedAt now (clear_lease (set_m_LastErrorPermanent (f_Permanent f)
                (set_m_LastErrorCode (f_Code f) (set_m_LastError (f_Message f)
                   (set_m_Attempts (m_Attempts m + 1) (set_m_Status StatusFailed m))))))) db.

(** [requireAction]: no row changed is "not found" or "wrong state", unless
    the query that tells them apart fails; [io] is that query's failure. *)
Definition requireAction (io : option string) (n : Z) (id : string) (db : DB) : result StoreError unit :=
  if n >? 0 then Ok tt
  else match Get io id db with
       | Err e => Err e
       | Ok _ => Err ErrStateConflict
       end.

Definition can_requeue (id : string) (m : Message) : bool :=
  bool_decide (m_ID m = id)
  && (is_status StatusFailed m || is_status StatusDeferred m || is_status StatusHeld m).

Definition Requeue (io io_get : option string) (now : Z) (id : string) (db : DB)
  : result StoreError unit * DB :=
  exec io (fun db =>
    let db' := set_messages (sql_update (can_requeue id)
      (fun m => clear_lease (set_m_UpdatedAt now (set_m_NextAttemptAt now
                  (set_m_Status StatusQueued m)))) (messages db)) db in
    (requireAction io_get (rows_affected (can_requeue id) (messages db)) id db', db')) db.

Definition can_hold (id : string) (m : Message) : bool :=
  bool_decide (m_ID m = id)
  && (is_status StatusQueued m || is_status StatusDeferred m || is_status StatusFailed m).

Definition Hold (io io_get : option string) (now : Z) (id : string) (db : DB)
  : result StoreError unit * DB :=
  exec io (fun db =>
    let db' := set_messages (sql_update (can_hold id)
      (fun m => clear_lease (set_m_UpdatedAt now (set_m_Status StatusHeld m))) (messages db)) db in
    (requireAction io_get (rows_affected (can_hold id) (messages db)) id db', db')) db.

(** Deleting a message deletes its body: [ON DELETE CASCADE]. *)
Definition delete_messages (p : Message -> bool) (db : DB) : DB :=
  let t := sql_delete p (messages db) in
  set_message_blobs (filter (fun kv => is_Some (t !! kv.1)) (message_blobs db)) (set_messages t db).

Definition can_delete (id : string) (m : Message) : bool :=
  bool_decide (m_ID m = id) && negb (is_status StatusSending m).

Definition Delete (io io_get : option string) (id : string) (db : DB) : result StoreError unit * DB :=
  exec io (fun db =>
    let db' := delete_messages (can_delete id) db in
    (requireAction io_get (rows_affected (can_delete id) (messages db)) id db', db')) db.

Definition abandoned (now : Z) (m : Message) : bool := is_status StatusSending m && expired now m.

Definition ReleaseExpiredLeases (io : option string) (now : Z) (db : DB)
  : result StoreError Z * DB :=
  exec io (fun db =>
    (Ok (rows_affected (abandoned now) (messages db)),
     set_messages (sql_update (abandoned now)
       (fun m => set_m_UpdatedAt now (clear_lease (set_m_Status StatusQueued m)))
       (messages db)) db)) db.

Definition purgeable (sentBefore failedBefore : Z) (m : Message) : bool :=
  (is_status StatusSent m && (m_UpdatedAt m <? sentBefore))
  || (is_status StatusFailed m && (m_UpdatedAt m <? failedBefore)).

Definition Purge (io : option string) (sentBefore failedBefore : Z) (db : DB)
  : result StoreError Z * DB :=
  exec io (fun db =>
    (Ok (rows_affected (purgeable sentBefore failedBefore) (messages db)),
     delete_messages (purgeable sentBefore failedBefore) db)) db.

(** [CountByStatus]: the statuses that occur, with how often. *)
Definition count_status (s : MessageStatus) (db : DB) : Z :=
  rows_affected (is_status s) (messages db).

Definition CountByStatus (db : DB) : list (MessageStatus * Z) :=
  base.filter (fun sn => 0 < sn.2)
    ((fun s => (s, count_status s db)) <$>
       [StatusQueued; StatusSending; StatusSent; StatusDeferred; StatusFailed; StatusHeld]).
