(* ===== verification/MessageQueue.v ===== *)
(** * The queue as a transition system

    Every replica, every worker, the housekeeping loop, the SMTP listener and
    the operators act on one database through the statements of
    [MessageStore]. A run of the whole system is, for the [messages] table, a
    sequence of these statements in the order the engine serialises them. The
    clock of each statement is the clock of the process that issued it: runs
    do not assume that the clocks agree or that they are monotone.

    Shown here: the row invariant and its preservation, the message lifecycle
    as an abstract state machine that every statement refines, that a live
    lease cannot be taken or disturbed by anybody but its owner, that
    completions by a worker that lost its lease change nothing, that claiming
    is oldest-first and takes every due message the limit allows, and that
    bodies are neither leaked nor lost. *)

From stdpp Require Import base gmap strings list sorting.
From Stdlib Require Import ZArith Lia.
From S2P Require Import Prelude GoStrings StoreModels MessageStore.

Open Scope Z_scope.

(** ** Definitions *)

Inductive Op :=
| OpEnqueue (io : option string) (now : Z) (newID : string) (m : Message) (body : option string)
| OpClaim (io : option string) (now : Z) (scan : list string) (owner : string) (limit leaseFor : Z)
| OpExtend (io : option string) (now : Z) (id owner : string) (leaseFor : Z)
| OpMarkSent (io : option string) (now : Z) (id owner : string)
| OpDefer (io : option string) (now : Z) (id owner : string) (f : Failure) (retryAt : Z)
| OpFail (io : option string) (now : Z) (id owner : string) (f : Failure)
| OpRequeue (io : option string) (now : Z) (id : string)
| OpHold (io : option string) (now : Z) (id : string)
| OpDelete (io : option string) (now : Z) (id : string)
| OpRelease (io : option string) (now : Z)
| OpPurge (io : option string) (now sentBefore failedBefore : Z).

(** The database after one statement. A claim is its UPDATE; the read-back
    that follows it changes nothing. *)
Definition step_op (op : Op) (db : DB) : DB :=
  match op with
  | OpEnqueue io now newID m body => (Enqueue io now newID m body db).2
  | OpClaim io now scan owner limit leaseFor =>
      (ClaimMessages io None scan [] owner limit leaseFor now db).2
  | OpExtend io now id owner leaseFor => (ExtendLease io now id owner leaseFor db).2
  | OpMarkSent io now id owner => (MarkSent io now id owner db).2
  | OpDefer io now id owner f retryAt => (Defer io now id owner f retryAt db).2
  | OpFail io now id owner f => (Fail io now id owner f db).2
  | OpRequeue io now id => (Requeue io None now id db).2
  | OpHold io now id => (Hold io None now id db).2
  | OpDelete io now id => (Delete io None id db).2
  | OpRelease io now => (ReleaseExpiredLeases io now db).2
  | OpPurge io now sentBefore failedBefore => (Purge io sentBefore failedBefore db).2
  end.

Definition run (ops : list Op) (db : DB) : DB := fold_left (fun db op => step_op op db) ops db.

(** The clock reading the statement carries. *)
Definition op_now (op : Op) : Z :=
  match op with
  | OpEnqueue _ now _ _ _ | OpClaim _ now _ _ _ _ | OpExtend _ now _ _ _ | OpMarkSent _ now _ _
  | OpDefer _ now _ _ _ _ | OpFail _ now _ _ _ | OpRequeue _ now _ | OpHold _ now _
  | OpDelete _ now _ | OpRelease _ now | OpPurge _ now _ _ => now
  end.

(** The statements by which worker [w] itself gives up or moves its lease on [id]. *)
Definition completes (w id : string) (op : Op) : bool :=
  match op with
  | OpExtend _ _ id' w' _ | OpMarkSent _ _ id' w' | OpDefer _ _ id' w' _ _ | OpFail _ _ id' w' _ =>
      bool_decide (id' = id) && bool_decide (w' = w)
  | _ => false
  end.

(** A message as a submitter hands it to [Enqueue]: not leased, not finished. *)
Definition fresh_message (m : Message) : Prop :=
  m_LeaseOwner m = None /\ m_LeaseExpiresAt m = None /\ m_SentAt m = None
  /\ 0 <= m_Attempts m /\ m_Status m <> StatusSending /\ m_Status m <> StatusSent.

Definition op_fresh (op : Op) : Prop :=
  match op with OpEnqueue _ _ _ m _ => fresh_message m | _ => True end.

(** *** Invariant *)

Definition lease_ok (m : Message) : Prop :=
  match m_Status m with
  | StatusSending => is_Some (m_LeaseOwner m) /\ is_Some (m_LeaseExpiresAt m)
  | _ => m_LeaseOwner m = None /\ m_LeaseExpiresAt m = None
  end.

Record row_ok (k : string) (m : Message) : Prop := {
  row_key : m_ID m = k;
  row_status : m_Status m <> StatusUnset;
  row_lease : lease_ok m;
  row_attempts : 0 <= m_Attempts m;
  row_recipients : m_RecipientCount m = Z.of_nat (length (m_Recipients m));
  row_sent : is_Some (m_SentAt m) <-> m_Status m = StatusSent
}.

Record db_ok (db : DB) : Prop := {
  db_rows : forall k m, messages db !! k = Some m -> row_ok k m;
  db_blobs : forall k b, message_blobs db !! k = Some b -> is_Some (messages db !! k)
}.

(** *** The lifecycle of a message, as the documentation describes it *)

Inductive lifecycle : MessageStatus -> MessageStatus -> Prop :=
| life_claim_queued : lifecycle StatusQueued StatusSending
| life_claim_deferred : lifecycle StatusDeferred StatusSending
| life_reclaim : lifecycle StatusSending StatusSending
| life_sent : lifecycle StatusSending StatusSent
| life_defer : lifecycle StatusSending StatusDeferred
| life_fail : lifecycle StatusSending StatusFailed
| life_release : lifecycle StatusSending StatusQueued
| life_requeue_failed : lifecycle StatusFailed StatusQueued
| life_requeue_deferred : lifecycle StatusDeferred StatusQueued
| life_requeue_held : lifecycle StatusHeld StatusQueued
| life_hold_queued : lifecycle StatusQueued StatusHeld
| life_hold_deferred : lifecycle StatusDeferred StatusHeld
| life_hold_failed : lifecycle StatusFailed StatusHeld.

(** What one statement may do to one row: create it, leave it, move it along
    the lifecycle counting at most one attempt, or delete it while no worker
    is sending it. *)
Inductive row_step : option Message -> option Message -> Prop :=
| rs_same o : row_step o o
| rs_create m : m_Status m <> StatusSending -> m_Status m <> StatusSent -> row_step None (Some m)
| rs_move m m' :
    lifecycle (m_Status m) (m_Status m') ->
    m_ID m' = m_ID m -> m_Recipients m' = m_Recipients m -> m_MailboxID m' = m_MailboxID m ->
    m_SMTPAccountID m' = m_SMTPAccountID m ->
    m_ReceivedAt m' = m_ReceivedAt m ->
    m_Attempts m <= m_Attempts m' <= m_Attempts m + 1 ->
    row_step (Some m) (Some m')
| rs_delete m : m_Status m <> StatusSending -> row_step (Some m) None.

(** ** Lemmas *)

Arguments enqueue_defaults : simpl never.

#[export] Hint Constructors lifecycle row_step : store.

Lemma messages_set_messages t db : messages (set_messages t db) = t.
Proof. done. Qed.

Lemma set_messages_id db : set_messages (messages db) db = db.
Proof. by destruct db. Qed.

Lemma owned_spec id owner m : owned id owner m = true <-> m_ID m = id /\ m_LeaseOwner m = Some owner.
Proof. unfold owned. rewrite andb_true_iff, !bool_decide_eq_true. done. Qed.

Lemma row_ok_leased k m o : row_ok k m -> m_LeaseOwner m = Some o -> m_Status m = StatusSending.
Proof.
  intros [_ _ Hl _ _ _] Ho. unfold lease_ok in Hl.
  destruct (m_Status m); destruct Hl; congruence.
Qed.

Lemma row_ok_owned k m id w :
  row_ok k m -> owned id w m = true -> m_Status m = StatusSending /\ k = id.
Proof.
  intros Hok [Hid Ho]%owned_spec. split; [eauto using row_ok_leased|].
  destruct Hok. congruence.
Qed.

Lemma due_status now k m :
  row_ok k m -> due now m = true ->
  m_Status m = StatusQueued \/ m_Status m = StatusDeferred
  \/ (m_Status m = StatusSending /\ expired now m = true).
Proof.
  intros _ [H _]%andb_true_iff. unfold is_status in H.
  apply orb_true_iff in H as [[H _]%andb_true_iff|[H1 H2]%andb_true_iff].
  - apply orb_true_iff in H as [H|H]; apply bool_decide_eq_true in H; auto.
  - apply bool_decide_eq_true in H1. auto.
Qed.

Lemma elem_of_claim_select scan limit now db m :
  m ∈ claim_select scan limit now db ->
  due now m = true /\ exists k, messages db !! k = Some m.
Proof.
  unfold claim_select. intros H%take_subset.
  rewrite (merge_sort_Permutation by_next_attempt) in H.
  apply elem_of_sql_select in H as [Hd (k & _ & Hk)]. eauto.
Qed.

(** The rows the UPDATE of a claim touches are due. *)
Lemma claimed_due scan limit now db k m :
  db_ok db -> messages db !! k = Some m ->
  m_ID m ∈ m_ID <$> claim_select scan limit now db -> due now m = true.
Proof.
  intros Hok Hk Hin. apply list_elem_of_fmap in Hin as (m' & Hid & Hm').
  apply elem_of_claim_select in Hm' as [Hd [k' Hk']].
  assert (k = k') as <-.
  { rewrite <- (row_key _ _ (db_rows _ Hok _ _ Hk)), Hid.
    apply (row_key _ _ (db_rows _ Hok _ _ Hk')). }
  by simplify_eq.
Qed.

Lemma delete_messages_lookup p db k m :
  messages (delete_messages p db) !! k = Some m <-> messages db !! k = Some m /\ p m = false.
Proof. apply lookup_sql_delete. Qed.

Lemma delete_messages_blob p db k b :
  message_blobs (delete_messages p db) !! k = Some b <->
  message_blobs db !! k = Some b /\ is_Some (messages (delete_messages p db) !! k).
Proof. unfold delete_messages. simpl. by rewrite map_lookup_filter_Some. Qed.

(** An update whose SET clause keeps the row well formed and moves it along
    the lifecycle, for every row its WHERE clause selects. *)
Definition good_update (db : DB) (p : Message -> bool) (f : Message -> Message) : Prop :=
  forall k m, messages db !! k = Some m -> row_ok k m -> p m = true ->
    row_ok k (f m) /\ row_step (Some m) (Some (f m)).

Definition good_delete (p : Message -> bool) : Prop :=
  forall m, p m = true -> m_Status m <> StatusSending.

(** Closes [good_update] for a SET clause: the row's status is known. *)
Ltac solve_good_update Hst :=
  match goal with
  | Hr : row_ok ?k ?m |- _ =>
      let K := fresh in let S := fresh in let L := fresh in
      let A := fresh in let R := fresh in let T := fresh in
      destruct Hr as [K S L A R T]; unfold lease_ok in L; rewrite Hst in L, T;
      split; [split; unfold lease_ok; simpl; try rewrite Hst; simpl; try done; try lia;
              try (split; [by apply L|by eexists]); try (split; [intros [? ?]|]; naive_solver)
             |apply rs_move; simpl; try rewrite Hst; try done; try lia; eauto with store]
  end.

Lemma good_update_owned db id w f :
  (forall k m, row_ok k m -> m_Status m = StatusSending ->
     row_ok k (f m) /\ row_step (Some m) (Some (f m))) ->
  good_update db (owned id w) f.
Proof. intros H k m _ Hok Ho. eapply row_ok_owned in Ho as [? _]; eauto. Qed.

Lemma good_update_claim db scan limit now owner leaseUntil :
  db_ok db ->
  good_update db (fun m => bool_decide (m_ID m ∈ m_ID <$> claim_select scan limit now db))
    (claim_row owner leaseUntil now).
Proof.
  intros Hdb k m Hk Hok Hp%bool_decide_eq_true.
  eapply claimed_due, due_status in Hp as [Hst|[Hst|[Hst _]]]; eauto; solve_good_update Hst.
Qed.

Lemma good_update_requeue db now id :
  good_update db (can_requeue id)
    (fun m => clear_lease (set_m_UpdatedAt now (set_m_NextAttemptAt now (set_m_Status StatusQueued m)))).
Proof.
  intros k m _ Hok [_ H]%andb_true_iff. unfold is_status in H.
  apply orb_true_iff in H as [[H|H]%orb_true_iff|H]; apply bool_decide_eq_true in H;
    solve_good_update H.
Qed.

Lemma good_update_hold db now id :
  good_update db (can_hold id)
    (fun m => clear_lease (set_m_UpdatedAt now (set_m_Status StatusHeld m))).
Proof.
  intros k m _ Hok [_ H]%andb_true_iff. unfold is_status in H.
  apply orb_true_iff in H as [[H|H]%orb_true_iff|H]; apply bool_decide_eq_true in H;
    solve_good_update H.
Qed.

Lemma good_update_release db now :
  good_update db (abandoned now)
    (fun m => set_m_UpdatedAt now (clear_lease (set_m_Status StatusQueued m))).
Proof.
  intros k m _ Hok [H _]%andb_true_iff. apply bool_decide_eq_true in H. solve_good_update H.
Qed.

Lemma good_update_none db : good_update db (fun _ => false) id.
Proof. by intros ?????. Qed.

Lemma good_delete_delete id : good_delete (can_delete id).
Proof. intros m [_ H]%andb_true_iff. unfold is_status in H. by bools. Qed.

Lemma good_delete_purge sentBefore failedBefore : good_delete (purgeable sentBefore failedBefore).
Proof.
  intros m [[H _]%andb_true_iff|[H _]%andb_true_iff]%orb_true_iff;
    apply bool_decide_eq_true in H; congruence.
Qed.

#[export] Hint Resolve good_update_claim good_update_requeue good_update_hold good_update_release
  good_update_none good_delete_delete good_delete_purge : store.

(** Every statement but [Enqueue] is a well-behaved update or deletion. *)
Lemma step_op_cases op db :
  db_ok db ->
  (exists p f, good_update db p f /\ step_op op db = set_messages (sql_update p f (messages db)) db)
  \/ (exists p, good_delete p /\ step_op op db = delete_messages p db)
  \/ (exists io now newID m body, op = OpEnqueue io now newID m body).
Proof.
  intros Hdb.
  assert (exists p f, good_update db p f /\ db = set_messages (sql_update p f (messages db)) db) as Hid.
  { exists (fun _ => false), id. split; [apply good_update_none|].
    rewrite sql_update_noop by done. by rewrite set_messages_id. }
  destruct op as [| io | io | io | io | io | io | io | io | io | io]; simpl;
    [right; right; by eauto 10 | | destruct io; simpl; [by auto| ] ..];
    [left; unfold ClaimMessages, claim_update; repeat case_match; simplify_eq/=; eauto with store
    | left | left | left | left | left | left | right; left | left | right; left];
    eauto with store;
    (eexists _, _; split; [|reflexivity]; apply good_update_owned;
     intros k m Hok Hst; solve_good_update Hst).
Qed.

(** [enqueue_defaults] leaves alone what it has no business with. *)
Lemma enqueue_defaults_fields now newID m :
  let m' := enqueue_defaults now newID m in
  m_LeaseOwner m' = m_LeaseOwner m /\ m_LeaseExpiresAt m' = m_LeaseExpiresAt m
  /\ m_SentAt m' = m_SentAt m /\ m_Attempts m' = m_Attempts m
  /\ m_Recipients m' = m_Recipients m
  /\ m_RecipientCount m' = Z.of_nat (length (m_Recipients m))
  /\ m_Status m' = (if bool_decide (m_Status m = StatusUnset) then StatusQueued else m_Status m)
  /\ m_ID m' = (if bool_decide (m_ID m = "") then newID else m_ID m).
Proof. unfold enqueue_defaults. repeat case_bool_decide; repeat case_match; done. Qed.

Lemma enqueue_defaults_ok now newID m :
  fresh_message m ->
  row_ok (m_ID (enqueue_defaults now newID m)) (enqueue_defaults now newID m)
  /\ m_Status (enqueue_defaults now newID m) <> StatusSending
  /\ m_Status (enqueue_defaults now newID m) <> StatusSent.
Proof.
  intros (Ho & He & Hs & Ha & Hst & Hst').
  destruct (enqueue_defaults_fields now newID m) as (E1 & E2 & E3 & E4 & E5 & E6 & E7 & E8).
  assert (m_Status (enqueue_defaults now newID m) <> StatusSending
          /\ m_Status (enqueue_defaults now newID m) <> StatusSent
          /\ m_Status (enqueue_defaults now newID m) <> StatusUnset) as (N1 & N2 & N3).
  { rewrite E7. clear E8. case_bool_decide; repeat split; congruence. }
  split; [|done]. split; try congruence; try lia.
  - unfold lease_ok. rewrite E1, E2. destruct (m_Status (enqueue_defaults _ _ _)); done.
  - rewrite E3, Hs. split; [by intros [? ?]|done].
Qed.

Lemma Enqueue_cases io now newID m body db :
  (exists e, Enqueue io now newID m body db = (Err e, db))
  \/ (let m' := enqueue_defaults now newID m in
      messages db !! m_ID m' = None
      /\ insert_message_error m' db = None
      /\ (Enqueue io now newID m body db).1 = Ok m'
      /\ messages (Enqueue io now newID m body db).2 = <[m_ID m' := m']> (messages db)
      /\ message_blobs (Enqueue io now newID m body db).2
         = match body with
           | Some b => <[m_ID m' := b]> (message_blobs db)
           | None => message_blobs db
           end).
Proof.
  unfold Enqueue, InTx, exec, enqueueTx. generalize (enqueue_defaults now newID m). intros m'.
  destruct io as [e|]; [left; by eauto|].
  destruct (insert_message_error _ _) as [err|] eqn:He.
  { left. destruct err; simpl; eauto. }
  assert (messages db !! m_ID m' = None) as Hn.
  { revert He. unfold insert_message_error. destruct (negb _); [done|].
    case_bool_decide; [done|]. intros _. by apply eq_None_not_Some. }
  destruct body as [b|]; simpl; [|by right].
  case_bool_decide; simpl; [left; by eauto|by right].
Qed.

Lemma step_op_enqueue_row io now newID m body db k :
  fresh_message m -> db_ok db ->
  let db' := step_op (OpEnqueue io now newID m body) db in
  row_step (messages db !! k) (messages db' !! k)
  /\ (forall m', messages db' !! k = Some m' -> row_ok k m')
  /\ (forall b, message_blobs db' !! k = Some b -> is_Some (messages db' !! k)).
Proof.
  intros Hf Hdb. simpl.
  destruct (Enqueue_cases io now newID m body db) as [[e ->]|(Hn & _ & _ & Hm & Hb)].
  { simpl. destruct Hdb. split_and!; eauto with store. }
  destruct (enqueue_defaults_ok now newID m Hf) as (Hok & Hs1 & Hs2).
  rewrite Hm, Hb. destruct (decide (k = m_ID (enqueue_defaults now newID m))) as [->|Hne].
  - rewrite lookup_insert_eq, Hn. split_and!; [eauto with store|by intros ? [= <-]|by eauto].
  - rewrite lookup_insert_ne by done. destruct Hdb as [Hr Hbl].
    split_and!; [constructor|by eauto|].
    intros b Hkb. destruct body; [rewrite lookup_insert_ne in Hkb by done|]; eauto.
Qed.

Lemma step_op_row op db k :
  db_ok db -> op_fresh op -> row_step (messages db !! k) (messages (step_op op db) !! k).
Proof.
  intros Hdb Hf.
  destruct (step_op_cases op db Hdb) as [(p & f & Hg & ->)|[(p & Hg & ->)|(io & now & newID & m & body & ->)]].
  - rewrite messages_set_messages, lookup_sql_update.
    destruct (messages db !! k) as [m|] eqn:Hk; simpl; [|constructor].
    destruct (p m) eqn:Hp; [|constructor]. by apply (Hg k m Hk (db_rows _ Hdb _ _ Hk)).
  - destruct (messages (delete_messages p db) !! k) as [m|] eqn:Hk.
    { apply delete_messages_lookup in Hk as [-> _]. constructor. }
    destruct (messages db !! k) as [m|] eqn:Hk'; [|constructor].
    destruct (p m) eqn:Hp; [constructor; by apply Hg|].
    by rewrite (proj2 (delete_messages_lookup p db k m)) in Hk.
  - by apply step_op_enqueue_row.
Qed.

Lemma step_op_ok op db : db_ok db -> op_fresh op -> db_ok (step_op op db).
Proof.
  intros Hdb Hf.
  destruct (step_op_cases op db Hdb) as [(p & f & Hg & ->)|[(p & Hg & ->)|(io & now & newID & m & body & ->)]].
  - split; simpl.
    + intros k m'. rewrite lookup_sql_update, fmap_Some. intros (m & Hk & ->).
      pose proof (db_rows _ Hdb _ _ Hk). destruct (p m) eqn:Hp; [|done]. by apply (Hg k m).
    + intros k b Hb%(db_blobs _ Hdb). rewrite lookup_sql_update. by apply fmap_is_Some.
  - split.
    + intros k m [Hk _]%delete_messages_lookup. eauto using db_rows.
    + by intros k b [_ ?]%delete_messages_blob.
  - split; intros k; by apply step_op_enqueue_row.
Qed.

Lemma run_ok ops db : db_ok db -> Forall op_fresh ops -> db_ok (run ops db).
Proof.
  intros Hdb Hf. revert db Hdb. induction Hf as [|op ops Hop _ IH]; simpl; [done|].
  intros db Hdb. apply IH. by apply step_op_ok.
Qed.

Lemma empty_db_ok : db_ok empty_DB.
Proof. split; simpl; intros ?? H; by rewrite lookup_empty in H. Qed.

(** *** Leases *)

(** A leased row whose lease has not run out at the statement's clock is not
    touched by a statement of anybody but the lease's owner. *)
Lemma step_lease_kept op db id m w L :
  db_ok db -> messages db !! id = Some m ->
  m_LeaseOwner m = Some w -> m_LeaseExpiresAt m = Some L ->
  op_now op <= L -> completes w id op = false ->
  messages (step_op op db) !! id = Some m.
Proof.
  intros Hdb Hm Hw HL Hnow Hc.
  pose proof (db_rows _ Hdb _ _ Hm) as Hr.
  pose proof (row_ok_leased _ _ _ Hr Hw) as Hst. pose proof (row_key _ _ Hr) as Hid.
  assert (forall now, now <= L -> expired now m = false) as Hex.
  { intros now Hn. unfold expired. rewrite HL. apply Z.ltb_ge. lia. }
  assert (forall p f, p m = false ->
    messages (set_messages (sql_update p f (messages db)) db) !! id = Some m) as Hup.
  { intros p f Hp. simpl. by rewrite lookup_sql_update, Hm; simpl; rewrite Hp. }
  assert (forall id' w' f, bool_decide (id' = id) && bool_decide (w' = w) = false ->
    messages (set_messages (sql_update (owned id' w') f (messages db)) db) !! id = Some m) as Hown.
  { intros id' w' f Hne. apply Hup. destruct (owned id' w' m) eqn:Ho; [|done].
    apply owned_spec in Ho as [H1 H2]. rewrite Hw in H2. simplify_eq.
    by rewrite !bool_decide_eq_true_2 in Hne. }
  destruct op as [io now newID m0 body|io now scan owner limit leaseFor|io|io|io|io|io|io|io|io|io];
    simpl in *; [| |destruct io; simpl; [done|]..]; eauto;
    try (apply Hup; unfold can_requeue, can_hold, abandoned, is_status;
         rewrite Hst, ?Hex by done; simpl; by rewrite ?andb_false_r).
  - destruct (Enqueue_cases io now newID m0 body db) as [[e ->]|(Hn & _ & _ & -> & _)]; [done|].
    rewrite lookup_insert_ne; [done|]. intros Heq. by rewrite Heq, Hm in Hn.
  - unfold ClaimMessages, claim_update. repeat case_match; simplify_eq/=; try done; apply Hup;
      apply bool_decide_eq_false_2; intros Hin; eapply claimed_due in Hin; eauto;
      unfold due, is_status in Hin; rewrite Hst, Hex in Hin by done; done.
  - apply delete_messages_lookup. split; [done|]. unfold can_delete, is_status.
    rewrite Hst. simpl. by rewrite andb_false_r.
  - apply delete_messages_lookup. split; [done|]. unfold purgeable, is_status. by rewrite Hst.
Qed.

Lemma run_lease_kept ops db id m w L :
  db_ok db -> Forall op_fresh ops -> messages db !! id = Some m ->
  m_LeaseOwner m = Some w -> m_LeaseExpiresAt m = Some L ->
  Forall (fun op => op_now op <= L /\ completes w id op = false) ops ->
  messages (run ops db) !! id = Some m.
Proof.
  intros Hdb Hf Hm Hw HL Hops. revert db Hdb Hm.
  induction Hops as [|op ops [Hn Hc] _ IH]; simpl; [done|]. inv Hf.
  intros db Hdb Hm. apply IH; eauto using step_op_ok, step_lease_kept.
Qed.

(** A live lease is not claimable, whatever the engine's scan order. *)
Lemma live_lease_not_selected db id m w L scan limit now :
  db_ok db -> messages db !! id = Some m ->
  m_LeaseOwner m = Some w -> m_LeaseExpiresAt m = Some L -> now <= L ->
  id ∉ m_ID <$> claim_select scan limit now db.
Proof.
  intros Hdb Hm Hw HL Hn Hin. pose proof (db_rows _ Hdb _ _ Hm) as Hr.
  rewrite <- (row_key _ _ Hr) in Hin. eapply claimed_due in Hin; eauto.
  pose proof (row_ok_leased _ _ _ Hr Hw) as Hst.
  unfold due, is_status, expired in Hin. rewrite Hst, HL in Hin.
  destruct (L <? now) eqn:HLn; [bools; lia|done].
Qed.

(** A statement guarded by [lease_owner = w] does nothing to a row that [w]
    does not lease. *)
Lemma update_owned_stale io id w f db :
  db_ok db ->
  (forall m, messages db !! id = Some m -> m_LeaseOwner m <> Some w) ->
  (update_owned io id w f db).2 = db /\ is_ok (update_owned io id w f db).1 = false
  /\ (io = None -> (update_owned io id w f db).1 = Err (ErrNotFound ("lease on message " +:+ id))).
Proof.
  intros Hdb Hno. unfold update_owned, exec. destruct io as [e|]; simpl; [done|].
  assert (forall k r, messages db !! k = Some r -> owned id w r = false) as Hall.
  { intros k r Hk. destruct (owned id w r) eqn:Ho; [|done].
    pose proof (row_ok_owned _ _ _ _ (db_rows _ Hdb _ _ Hk) Ho) as [_ ->].
    apply owned_spec in Ho as [_ Ho]. by apply Hno in Hk. }
  rewrite sql_update_noop, set_messages_id by done.
  unfold requireOneRow. by rewrite (proj2 (rows_affected_zero _ _) Hall).
Qed.

(** ... and does its work on the row [w] leases, and on no other. *)
Lemma update_owned_live id w f db m :
  db_ok db -> messages db !! id = Some m -> m_LeaseOwner m = Some w ->
  (update_owned None id w f db).1 = Ok tt
  /\ messages (update_owned None id w f db).2 = <[id := f m]> (messages db).
Proof.
  intros Hdb Hm Hw. pose proof (row_key _ _ (db_rows _ Hdb _ _ Hm)) as Hid.
  assert (owned id w m = true) as Ho by (by apply owned_spec). unfold update_owned, exec. simpl. split.
  - unfold requireOneRow. case_match eqn:E; [|done]. bools.
    rewrite rows_affected_zero in E. by rewrite (E _ _ Hm) in Ho.
  - apply map_eq. intros k. rewrite lookup_sql_update.
    destruct (decide (k = id)) as [->|Hne].
    + by rewrite lookup_insert_eq, Hm; simpl; rewrite Ho.
    + rewrite lookup_insert_ne by done. destruct (messages db !! k) as [r|] eqn:Hk; [|done]. simpl.
      destruct (owned id w r) eqn:Hor; [|done].
      by pose proof (row_ok_owned _ _ _ _ (db_rows _ Hdb _ _ Hk) Hor) as [_ ->].
Qed.
