(* ===== verification/QueueProps.v ===== *)
(** * Properties of the delivery queue

    The claims about [internal/store/messages.go] that the rest of the proxy
    relies on, over the transition system of [MessageQueue]. *)

From stdpp Require Import base gmap strings list sorting.
From Stdlib Require Import ZArith Lia.
From S2P Require Import Prelude GoStrings StoreModels MessageStore MessageQueue.

Open Scope Z_scope.

(** ** Lemmas on a claim *)

Lemma claim_update_lookup scan owner limit leaseUntil now db k m :
  messages db !! k = Some m ->
  messages (claim_update scan owner limit leaseUntil now db).2 !! k
  = Some (if bool_decide (m_ID m ∈ m_ID <$> claim_select scan limit now db)
          then claim_row owner leaseUntil now m else m).
Proof. intros Hk. simpl. by rewrite lookup_sql_update, Hk. Qed.

Lemma ClaimMessages_ok scan scan' owner limit leaseFor now db ms db' :
  owner <> "" -> 0 < limit ->
  ClaimMessages None None scan scan' owner limit leaseFor now db = (Ok ms, db') ->
  db' = (claim_update scan owner limit (now + leaseFor) now db).2
  /\ (ms = claim_readback scan' owner (now + leaseFor) db'
      \/ ms = [] /\ claim_select scan limit now db = []
      \/ ms = [] /\ rows_affected (fun m => bool_decide (m_ID m ∈ m_ID <$> claim_select scan limit now db))
                      (messages db) = 0).
Proof.
  intros Ho Hl. unfold ClaimMessages. rewrite bool_decide_eq_false_2 by done.
  rewrite (proj2 (Z.leb_gt _ _)) by lia. simpl. case_match eqn:E; intros [= <- <-]; [|by auto].
  bools. auto.
Qed.

Lemma elem_of_claim_readback scan owner leaseUntil db m :
  m ∈ claim_readback scan owner leaseUntil db <->
  m_LeaseOwner m = Some owner /\ m_LeaseExpiresAt m = Some leaseUntil /\ m_Status m = StatusSending
  /\ exists k, k ∈ scan /\ messages db !! k = Some m.
Proof.
  unfold claim_readback. rewrite (merge_sort_Permutation by_next_attempt), elem_of_sql_select.
  unfold is_status. rewrite !andb_true_iff, !bool_decide_eq_true. naive_solver.
Qed.

(** The rows a claim selects, by their identifier. *)
Lemma claim_selected scan limit now db id :
  id ∈ m_ID <$> claim_select scan limit now db ->
  db_ok db -> exists m, messages db !! id = Some m /\ due now m = true
    /\ m ∈ claim_select scan limit now db.
Proof.
  intros (m & -> & Hm)%list_elem_of_fmap Hdb.
  pose proof (elem_of_claim_select _ _ _ _ _ Hm) as [Hd [k Hk]].
  rewrite (row_key _ _ (db_rows _ Hdb _ _ Hk)). eauto.
Qed.

Lemma sql_select_due_complete scan now db id m :
  messages db !! id = Some m -> id ∈ scan -> due now m = true ->
  m ∈ merge_sort by_next_attempt (sql_select (due now) scan (messages db)).
Proof.
  intros Hm Hs Hd. rewrite (merge_sort_Permutation by_next_attempt), elem_of_sql_select. eauto.
Qed.

#[export] Instance by_next_attempt_total : Total by_next_attempt.
Proof. intros a b. unfold by_next_attempt. lia. Qed.

#[export] Instance by_next_attempt_trans : Transitive by_next_attempt.
Proof. intros a b c. unfold by_next_attempt. lia. Qed.

(** Taking a prefix of a sorted list leaves only later elements behind. *)
Lemma sorted_take_rest (n : nat) (l : list Message) a b :
  StronglySorted by_next_attempt l -> a ∈ take n l -> b ∈ drop n l -> by_next_attempt a b.
Proof.
  intros Hs Ha Hb. rewrite <- (take_drop n l) in Hs.
  apply StronglySorted_app in Hs as (Hs & _ & _). eauto.
Qed.

Lemma update_owned_refused id w f db :
  db_ok db -> (forall m, messages db !! id = Some m -> m_LeaseOwner m <> Some w) ->
  update_owned None id w f db = (Err (ErrNotFound ("lease on message " +:+ id)), db).
Proof.
  intros Hdb Hno. destruct (update_owned_stale None id w f db Hdb Hno) as (H2 & _ & H1).
  apply injective_projections; [by apply H1|done].
Qed.

(** The identifiers [op] may create. *)
Definition enqueues (id : string) (op : Op) : Prop :=
  match op with
  | OpEnqueue _ now newID m _ => m_ID (enqueue_defaults now newID m) = id
  | _ => False
  end.

Lemma step_op_absent op db id :
  db_ok db -> messages db !! id = None -> ~ enqueues id op -> messages (step_op op db) !! id = None.
Proof.
  intros Hdb Hn Hop.
  destruct (step_op_cases op db Hdb) as [(p & f & _ & ->)|[(p & _ & ->)|(io & now & newID & m & body & ->)]].
  - by rewrite messages_set_messages, lookup_sql_update, Hn.
  - destruct (messages (delete_messages p db) !! id) eqn:E; [|done].
    apply delete_messages_lookup in E as [E _]. congruence.
  - simpl in *. destruct (Enqueue_cases io now newID m body db) as [[e ->]|(_ & _ & _ & -> & _)]; [done|].
    by rewrite lookup_insert_ne.
Qed.

(** ** A concrete queue, for the witnesses *)

Definition sample_message : Message :=
  mkMessage "" "" None None "printer" "scan@example.com" "" "scan@example.com"
    ["alice@example.com"; "bob@example.com"] 0 1024 "" "" StatusUnset 0 0 None None
    "" "" false "10.0.0.9" "" 0 None 0.

Definition sample_enqueue : Op := OpEnqueue None 100 "m-1" sample_message (Some "body").
Definition sample_queued : DB := run [sample_enqueue] empty_DB.
Definition sample_claimed : DB := run [OpClaim None 200 ["m-1"] "w1" 4 300] sample_queued.

Lemma sample_fresh : fresh_message sample_message.
Proof. repeat split; done. Qed.

Lemma sample_queued_ok : db_ok sample_queued.
Proof. apply run_ok; [apply empty_db_ok|]. repeat constructor; done. Qed.

Lemma sample_claimed_ok : db_ok sample_claimed.
Proof. apply run_ok; [apply sample_queued_ok|]. repeat constructor; done. Qed.

Definition sample_row : Message := claim_row "w1" 500 200 (enqueue_defaults 100 "m-1" sample_message).

Lemma sample_claimed_row : messages sample_claimed !! "m-1" = Some sample_row.
Proof. vm_compute. reflexivity. Qed.

Lemma sample_queued_only k r :
  messages sample_queued !! k = Some r -> k = "m-1" /\ r = enqueue_defaults 100 "m-1" sample_message.
Proof.
  assert (messages sample_queued = {["m-1" := enqueue_defaults 100 "m-1" sample_message]}) as ->.
  { vm_compute. reflexivity. }
  intros [? ?]%lookup_singleton_Some. done.
Qed.

(** ** Properties *)

(** C2: The queue's row invariant holds in every state any sequence of
    statements by any set of workers, operators and submitters can reach:
    a row is leased exactly while it is being sent, [sent_at] is set exactly
    when it was sent, its status is one of the six, and no body exists without
    its message. *)
Theorem queue_invariant ops db :
  db_ok db -> Forall op_fresh ops -> db_ok (run ops db).
Proof. apply run_ok. Qed.

Lemma queue_invariant_witness : db_ok (run [OpClaim None 200 ["m-1"] "w1" 4 300] sample_queued).
Proof. apply queue_invariant; [apply sample_queued_ok|]. repeat constructor. Defined.

(** C5: Every statement refines the abstract message lifecycle: on each row it
    does nothing, creates an unsent message, moves the status along one edge
    of [lifecycle] keeping identity, recipients, mailbox and arrival time and
    counting at most one attempt, or deletes a row nobody is sending. *)
Theorem statements_refine_lifecycle ops op db k :
  db_ok db -> Forall op_fresh (ops ++ [op]) ->
  row_step (messages (run ops db) !! k) (messages (run (ops ++ [op]) db) !! k).
Proof.
  intros Hdb [Hf Hop]%Forall_app. unfold run at 2. rewrite fold_left_app. simpl.
  apply step_op_row; [by apply run_ok|]. by inv Hop.
Qed.

Lemma statements_refine_lifecycle_witness :
  row_step (messages (run [sample_enqueue] empty_DB) !! "m-1")
    (messages (run ([sample_enqueue] ++ [OpClaim None 200 ["m-1"] "w1" 4 300]) empty_DB) !! "m-1").
Proof.
  apply statements_refine_lifecycle; [apply empty_db_ok|]. repeat constructor; done.
Defined.

(** C3: Two workers never hold the same message: once worker [w] has claimed a
    message until [now + leaseFor], then, as long as no statement carries a
    clock past that deadline and [w] itself does not finish the delivery, the
    row stays exactly as claimed whatever every other worker, operator,
    submitter and housekeeping run does, and no claim at such a clock selects
    it. *)
Theorem lease_is_exclusive scan scan' w limit leaseFor now db ms db1 m ops :
  db_ok db -> w <> "" -> 0 < limit ->
  ClaimMessages None None scan scan' w limit leaseFor now db = (Ok ms, db1) -> m ∈ ms ->
  Forall op_fresh ops ->
  Forall (fun op => op_now op <= now + leaseFor /\ completes w (m_ID m) op = false) ops ->
  messages (run ops db1) !! m_ID m = Some m
  /\ forall scan2 limit2 now2, now2 <= now + leaseFor ->
       m_ID m ∉ m_ID <$> claim_select scan2 limit2 now2 (run ops db1).
Proof.
  intros Hdb Hw Hl Hc Hm Hf Hops.
  assert (db_ok db1) as Hdb1.
  { pose proof (step_op_ok (OpClaim None now scan w limit leaseFor) db Hdb I) as H. simpl in H.
    apply ClaimMessages_ok in Hc as [-> _]; [|done..].
    unfold ClaimMessages in H. rewrite bool_decide_eq_false_2, (proj2 (Z.leb_gt _ _)) in H by (done || lia).
    simpl in H. by case_match. }
  apply ClaimMessages_ok in Hc as [_ [->|[[-> _]|[-> _]]]]; try done; try by inv Hm.
  apply elem_of_claim_readback in Hm as (Ho & He & _ & k & _ & Hk).
  pose proof (row_key _ _ (db_rows _ Hdb1 _ _ Hk)) as <-.
  assert (messages (run ops db1) !! m_ID m = Some m) as Hrun by eauto using run_lease_kept.
  split; [done|]. intros scan2 limit2 now2 Hn.
  eapply live_lease_not_selected; eauto using run_ok.
Qed.

Lemma lease_is_exclusive_witness :
  messages (run [OpRelease None 400; OpClaim None 450 ["m-1"] "w2" 4 300; OpHold None 460 "m-1"]
              sample_claimed) !! "m-1" = Some sample_row.
Proof.
  refine (proj1 (lease_is_exclusive ["m-1"] ["m-1"] "w1" 4 300 200 sample_queued [sample_row]
    sample_claimed sample_row _ sample_queued_ok _ _ _ _ _ _));
    [done|done|vm_compute; reflexivity|by left|repeat constructor|].
  repeat constructor; vm_compute; done.
Defined.

(** A worker that has lost its lease, because it ran out and another worker
    or the housekeeping took the message, can no longer change it: marking it
    sent, deferring, failing or extending it is refused with "not found" and
    leaves the whole database as it is. *)
Theorem stale_worker_changes_nothing now id w f retryAt leaseFor db :
  db_ok db -> (forall m, messages db !! id = Some m -> m_LeaseOwner m <> Some w) ->
  let refused := Err (ErrNotFound ("lease on message " +:+ id)) in
  MarkSent None now id w db = (refused, db) /\ Defer None now id w f retryAt db = (refused, db)
  /\ Fail None now id w f db = (refused, db) /\ ExtendLease None now id w leaseFor db = (refused, db).
Proof.
  intros Hdb Hno refused. unfold MarkSent, Defer, Fail, ExtendLease.
  repeat split; by apply update_owned_refused.
Qed.

Lemma stale_worker_changes_nothing_witness :
  MarkSent None 300 "m-1" "w2" sample_claimed
  = (Err (ErrNotFound "lease on message m-1"), sample_claimed).
Proof.
  refine (proj1 (stale_worker_changes_nothing 300 "m-1" "w2" (mkFailure "" "" false) 0 0
    sample_claimed sample_claimed_ok _)).
  intros m. rewrite sample_claimed_row. by intros [= <-].
Defined.

(** The owner's completion does what it says on its own row and nothing
    elsewhere: sent, deferred until [retryAt] with the failure recorded, or
    failed for good; each counts exactly one attempt and releases the lease. *)
Theorem owner_completion now id w m f retryAt db :
  db_ok db -> messages db !! id = Some m -> m_LeaseOwner m = Some w ->
  (exists m1, messages (MarkSent None now id w db).2 = <[id := m1]> (messages db)
    /\ m_Status m1 = StatusSent /\ m_SentAt m1 = Some now /\ m_Attempts m1 = m_Attempts m + 1
    /\ m_LeaseOwner m1 = None /\ m_LeaseExpiresAt m1 = None)
  /\ (exists m2, messages (Defer None now id w f retryAt db).2 = <[id := m2]> (messages db)
    /\ m_Status m2 = StatusDeferred /\ m_NextAttemptAt m2 = retryAt
    /\ m_Attempts m2 = m_Attempts m + 1 /\ m_LastErrorCode m2 = f_Code f
    /\ m_LeaseOwner m2 = None /\ m_LeaseExpiresAt m2 = None)
  /\ (exists m3, messages (Fail None now id w f db).2 = <[id := m3]> (messages db)
    /\ m_Status m3 = StatusFailed /\ m_LastErrorPermanent m3 = f_Permanent f
    /\ m_Attempts m3 = m_Attempts m + 1 /\ m_LastErrorCode m3 = f_Code f
    /\ m_LeaseOwner m3 = None /\ m_LeaseExpiresAt m3 = None).
Proof.
  intros Hdb Hm Hw. unfold MarkSent, Defer, Fail.
  split_and!; (eexists; split; [by apply update_owned_live|done]).
Qed.

Lemma owner_completion_witness :
  exists m1, messages (MarkSent None 300 "m-1" "w1" sample_claimed).2
    = <["m-1" := m1]> (messages sample_claimed)
    /\ m_Status m1 = StatusSent /\ m_SentAt m1 = Some 300 /\ m_Attempts m1 = 0 + 1
    /\ m_LeaseOwner m1 = None /\ m_LeaseExpiresAt m1 = None.
Proof.
  exact (proj1 (owner_completion 300 "m-1" "w1" sample_row (mkFailure "" "" false) 0 sample_claimed
    sample_claimed_ok sample_claimed_row eq_refl)).
Defined.

(** A claim returns exactly the messages it leased, provided the worker
    holds no lease with the very same deadline already: at most [limit] of
    them, all due, and oldest first: a due message that was left behind has a
    next attempt no earlier than any message taken. *)
Theorem claim_is_exact scan scan' w limit leaseFor now db ms db1 :
  db_ok db -> w <> "" -> 0 < limit ->
  (forall k, is_Some (messages db !! k) -> k ∈ scan') ->
  (forall k r, messages db !! k = Some r ->
     m_LeaseOwner r = Some w -> m_LeaseExpiresAt r <> Some (now + leaseFor)) ->
  ClaimMessages None None scan scan' w limit leaseFor now db = (Ok ms, db1) ->
  (forall id, id ∈ m_ID <$> ms <-> id ∈ m_ID <$> claim_select scan limit now db)
  /\ Z.of_nat (length (claim_select scan limit now db)) <= limit
  /\ (forall a b, a ∈ claim_select scan limit now db ->
        b ∈ drop (Z.to_nat limit) (merge_sort by_next_attempt (sql_select (due now) scan (messages db))) ->
        m_NextAttemptAt a <= m_NextAttemptAt b)
  /\ (forall id m, messages db !! id = Some m -> id ∈ scan -> due now m = true ->
        m ∈ claim_select scan limit now db
        \/ m ∈ drop (Z.to_nat limit) (merge_sort by_next_attempt (sql_select (due now) scan (messages db)))).
Proof.
  intros Hdb Hw Hl Hscan Hno Hc. split_and!.
  - intros id. apply ClaimMessages_ok in Hc as [-> [->|[[-> E]|[-> E]]]]; [|by rewrite E| |done..].
    + split.
      * intros (m' & -> & (Ho & He & Hs & k & _ & Hk)%elem_of_claim_readback)%list_elem_of_fmap.
        simpl in Hk. rewrite lookup_sql_update in Hk.
        apply fmap_Some in Hk as (m & Hm & ->). case_bool_decide as Hin; [done|].
        by eapply Hno in He.
      * intros Hin. pose proof (claim_selected _ _ _ _ _ Hin Hdb) as (m & Hm & _ & _).
        apply list_elem_of_fmap. exists (claim_row w (now + leaseFor) now m).
        split; [by rewrite <- (row_key _ _ (db_rows _ Hdb _ _ Hm))|].
        apply elem_of_claim_readback. repeat split. exists id. split; [by eauto|].
        rewrite (claim_update_lookup _ _ _ _ _ _ _ m) by done.
        rewrite bool_decide_eq_true_2; [done|]. by rewrite (row_key _ _ (db_rows _ Hdb _ _ Hm)).
    + simpl. split; [by inversion 1|]. intros Hin.
      pose proof (claim_selected _ _ _ _ _ Hin Hdb) as (m & Hm & _ & _).
      rewrite rows_affected_zero in E. specialize (E _ _ Hm). bools.
      by rewrite (row_key _ _ (db_rows _ Hdb _ _ Hm)) in E.
  - unfold claim_select. rewrite length_take. lia.
  - intros a b Ha Hb. eapply sorted_take_rest; eauto. apply StronglySorted_merge_sort; apply _.
  - intros id m Hm Hs Hd. unfold claim_select.
    pose proof (sql_select_due_complete _ _ _ _ _ Hm Hs Hd) as Hin.
    rewrite <- (take_drop (Z.to_nat limit)) in Hin. by apply elem_of_app in Hin.
Qed.

Lemma claim_is_exact_witness : "m-1" ∈ m_ID <$> [sample_row] <->
  "m-1" ∈ m_ID <$> claim_select ["m-1"] 4 200 sample_queued.
Proof.
  refine (proj1 (claim_is_exact ["m-1"] ["m-1"] "w1" 4 300 200 sample_queued [sample_row]
    sample_claimed sample_queued_ok _ _ _ _ _) "m-1"); [done|done| | |vm_compute; reflexivity].
  - intros k [r Hk]. apply sample_queued_only in Hk as [-> _]. by left.
  - by intros k r [_ ->]%sample_queued_only.
Defined.

(** A crashed worker's message is not lost: once its lease has run out, a
    claim by any other worker that scans the row and whose limit covers the due
    messages takes it over, with a fresh lease in the new worker's name. *)
Theorem expired_lease_is_reclaimed scan w limit leaseFor now db id m L :
  db_ok db -> w <> "" -> messages db !! id = Some m ->
  m_Status m = StatusSending -> m_LeaseExpiresAt m = Some L -> L < now ->
  id ∈ scan -> Z.of_nat (length (sql_select (due now) scan (messages db))) <= limit ->
  exists m', messages (ClaimMessages None None scan scan w limit leaseFor now db).2 !! id = Some m'
    /\ m_Status m' = StatusSending /\ m_LeaseOwner m' = Some w
    /\ m_LeaseExpiresAt m' = Some (now + leaseFor) /\ m_Attempts m' = m_Attempts m.
Proof.
  intros Hdb Hw Hm Hst HL Hlt Hs Hlim.
  assert (due now m = true) as Hdue.
  { unfold due, is_status, expired. rewrite Hst, HL, (proj2 (Z.ltb_lt _ _)) by lia.
    simpl. by rewrite orb_true_r. }
  pose proof (sql_select_due_complete _ _ _ _ _ Hm Hs Hdue) as Hin.
  assert (0 < limit) as Hpos.
  { rewrite (merge_sort_Permutation by_next_attempt) in Hin.
    destruct (sql_select _ _ _); [by inv Hin|simpl in Hlim; lia]. }
  assert (m_ID m ∈ m_ID <$> claim_select scan limit now db) as Hsel.
  { apply list_elem_of_fmap. exists m. split; [done|]. unfold claim_select.
    rewrite take_ge; [done|]. rewrite (merge_sort_Permutation by_next_attempt). lia. }
  exists (claim_row w (now + leaseFor) now m). split; [|done].
  unfold ClaimMessages. rewrite bool_decide_eq_false_2, (proj2 (Z.leb_gt _ _)) by (done || lia).
  pose proof (claim_update_lookup scan w limit (now + leaseFor) now db id m Hm) as Hup.
  rewrite bool_decide_eq_true_2 in Hup by done.
  destruct (claim_update _ _ _ _ _ _) as [n db'] eqn:E. simpl in *. by case_match.
Qed.

Lemma expired_lease_is_reclaimed_witness :
  exists m', messages (ClaimMessages None None ["m-1"] ["m-1"] "w2" 4 300 501 sample_claimed).2 !! "m-1"
      = Some m'
    /\ m_Status m' = StatusSending /\ m_LeaseOwner m' = Some "w2"
    /\ m_LeaseExpiresAt m' = Some (501 + 300) /\ m_Attempts m' = m_Attempts sample_row.
Proof.
  apply (expired_lease_is_reclaimed ["m-1"] "w2" 4 300 501 sample_claimed "m-1" sample_row 500
    sample_claimed_ok); [discriminate|exact sample_claimed_row|reflexivity|reflexivity|lia|by left|].
  vm_compute. discriminate.
Defined.

(** A sent message is never sent again: whatever statements follow, its
    row is either untouched or gone, as long as nobody enqueues a new message
    under the same identifier. *)
Theorem sent_is_final ops db id m :
  db_ok db -> Forall op_fresh ops -> messages db !! id = Some m -> m_Status m = StatusSent ->
  Forall (fun op => ~ enqueues id op) ops ->
  messages (run ops db) !! id = Some m \/ messages (run ops db) !! id = None.
Proof.
  intros Hdb Hf Hm Hst Hno.
  cut (forall o, (o = Some m \/ o = None) -> messages db !! id = o ->
         messages (run ops db) !! id = Some m \/ messages (run ops db) !! id = None); [eauto|].
  clear Hm. revert db Hdb. induction ops as [|op ops IH]; [naive_solver|].
  inv Hf. inv Hno. intros db Hdb o Ho Hdbo. simpl.
  apply (IH ltac:(done) ltac:(done) (step_op op db)) with (messages (step_op op db) !! id);
    [by apply step_op_ok| |done].
  pose proof (step_op_row op db id Hdb ltac:(done)) as Hrow. rewrite Hdbo in Hrow.
  destruct Ho as [->| ->]; [|right; by apply step_op_absent].
  inv Hrow; eauto. rewrite Hst in *. by match goal with H : lifecycle StatusSent _ |- _ => inv H end.
Qed.

Lemma sent_is_final_witness :
  let db := run [OpMarkSent None 300 "m-1" "w1"] sample_claimed in
  let ops := [OpRequeue None 400 "m-1"; OpClaim None 900 ["m-1"] "w2" 4 300; OpDelete None 950 "m-1"] in
  exists m, messages (run ops db) !! "m-1" = Some m \/ messages (run ops db) !! "m-1" = None.
Proof.
  intros db ops.
  assert (exists m, messages db !! "m-1" = Some m /\ m_Status m = StatusSent) as (m & Hm & Hst).
  { eexists. split; [vm_compute; reflexivity|reflexivity]. }
  exists m. refine (sent_is_final ops db "m-1" m _ _ Hm Hst _).
  - apply run_ok; [apply sample_claimed_ok|repeat constructor].
  - repeat constructor.
  - repeat constructor; by intros [].
Defined.

(** Accepting a submission is atomic: either [Enqueue] succeeds, and then
    the message is stored as queued under a fresh identifier with its body
    readable back, or it fails and the database is exactly what it was. *)
Theorem enqueue_atomic io now newID m body db :
  db_ok db -> fresh_message m ->
  match Enqueue io now newID m (Some body) db with
  | (Ok m', db') =>
      messages db !! m_ID m' = None /\ messages db' = <[m_ID m' := m']> (messages db)
      /\ Get None (m_ID m') db' = Ok m' /\ Body None (m_ID m') db' = Ok body
      /\ m_Recipients m' = m_Recipients m
      /\ (m_Status m = StatusUnset -> m_Status m' = StatusQueued)
      /\ (forall k, k <> m_ID m' -> message_blobs db' !! k = message_blobs db !! k)
  | (Err _, db') => db' = db
  end.
Proof.
  intros Hdb Hf. destruct (Enqueue_cases io now newID m (Some body) db) as [[e ->]|(Hn & _ & Hr & Hm & Hb)]; [done|].
  destruct (Enqueue _ _ _ _ _ _) as [r db']. simpl in *. subst r.
  destruct (enqueue_defaults_fields now newID m) as (_ & _ & _ & _ & Hrec & _ & Hst & _).
  unfold Get, Body. rewrite Hm, Hb, !lookup_insert_eq. split_and!; try done.
  - intros Hu. by rewrite Hst, bool_decide_eq_true_2.
  - intros k Hk. by rewrite lookup_insert_ne.
Qed.

Lemma enqueue_atomic_witness :
  match Enqueue None 100 "m-1" sample_message (Some "body") empty_DB with
  | (Ok m', db') =>
      messages empty_DB !! m_ID m' = None /\ messages db' = <[m_ID m' := m']> (messages empty_DB)
      /\ Get None (m_ID m') db' = Ok m' /\ Body None (m_ID m') db' = Ok "body"
      /\ m_Recipients m' = m_Recipients sample_message
      /\ (m_Status sample_message = StatusUnset -> m_Status m' = StatusQueued)
      /\ (forall k, k <> m_ID m' -> message_blobs db' !! k = message_blobs empty_DB !! k)
  | (Err _, db') => db' = empty_DB
  end.
Proof. apply enqueue_atomic; [apply empty_db_ok|apply sample_fresh]. Defined.

(** ** What an operator's action does *)

Lemma action_rows (p : Message -> bool) id db :
  db_ok db -> (forall m, p m = true -> m_ID m = id) ->
  match messages db !! id with
  | Some m => if p m then 0 < rows_affected p (messages db) else
                rows_affected p (messages db) = 0 /\ forall k r, messages db !! k = Some r -> p r = false
  | None => rows_affected p (messages db) = 0 /\ forall k r, messages db !! k = Some r -> p r = false
  end.
Proof.
  intros Hdb Hp.
  assert (forall k r, messages db !! k = Some r -> p r = true -> k = id) as Hkey.
  { intros k r Hk Hr. by rewrite <- (row_key _ _ (db_rows _ Hdb _ _ Hk)), (Hp r Hr). }
  assert ((forall r, messages db !! id = Some r -> p r = false) ->
          rows_affected p (messages db) = 0 /\ forall k r, messages db !! k = Some r -> p r = false) as Hzero.
  { intros Hno. assert (forall k r, messages db !! k = Some r -> p r = false) as Hall; [|split; [|done]].
    - intros k r Hk. destruct (p r) eqn:Hr; [|done]. rewrite (Hkey k r Hk Hr) in Hk.
      by rewrite (Hno r Hk) in Hr.
    - by apply rows_affected_zero. }
  destruct (messages db !! id) as [m|] eqn:Hm; [|by apply Hzero].
  destruct (p m) eqn:Hpm; [|apply Hzero; by intros r [= <-]].
  pose proof (rows_affected_nonneg p (messages db)).
  destruct (decide (rows_affected p (messages db) = 0)) as [E|]; [|lia].
  rewrite rows_affected_zero in E. by rewrite (E _ _ Hm) in Hpm.
Qed.

Lemma action_update (p : Message -> bool) (f : Message -> Message) id db :
  db_ok db -> (forall m, p m = true -> m_ID m = id) ->
  let db' := set_messages (sql_update p f (messages db)) db in
  let r := requireAction None (rows_affected p (messages db)) id db' in
  match messages db !! id with
  | None => (r, db') = (Err (ErrNotFound ("message " +:+ id)), db)
  | Some m =>
      if p m then r = Ok tt /\ messages db' !! id = Some (f m)
      else (r, db') = (Err ErrStateConflict, db)
  end.
Proof.
  intros Hdb Hp db' r. pose proof (action_rows p id db Hdb Hp) as Hrows.
  subst db' r. unfold requireAction. destruct (messages db !! id) as [m|] eqn:Hm.
  - destruct (p m) eqn:Hpm.
    + rewrite (proj2 (Z.gtb_lt _ _)) by done. split; [done|]. simpl.
      by rewrite lookup_sql_update, Hm; simpl; rewrite Hpm.
    + destruct Hrows as [-> Hno]. rewrite sql_update_noop, set_messages_id by done.
      unfold Get. by rewrite Hm.
  - destruct Hrows as [-> Hno]. rewrite sql_update_noop, set_messages_id by done.
    unfold Get. by rewrite Hm.
Qed.

Lemma can_requeue_id id m : can_requeue id m = true -> m_ID m = id.
Proof. unfold can_requeue. intros H. by bools. Qed.

Lemma can_hold_id id m : can_hold id m = true -> m_ID m = id.
Proof. unfold can_hold. intros H. by bools. Qed.

Lemma can_delete_id id m : can_delete id m = true -> m_ID m = id.
Proof. unfold can_delete. intros H. by bools. Qed.

#[export] Hint Resolve can_requeue_id can_hold_id can_delete_id : store.

Lemma sql_delete_noop (p : Message -> bool) (t : gmap string Message) :
  (forall k r, t !! k = Some r -> p r = false) -> sql_delete p t = t.
Proof. intros H. apply map_filter_id. intros k r Hk. simpl. eauto. Qed.

Lemma delete_action id db :
  db_ok db ->
  match messages db !! id with
  | None => (Delete None None id db).1 = Err (ErrNotFound ("message " +:+ id))
            /\ messages (Delete None None id db).2 = messages db
  | Some m =>
      if is_status StatusSending m
      then (Delete None None id db).1 = Err ErrStateConflict /\ messages (Delete None None id db).2 = messages db
      else (Delete None None id db).1 = Ok tt /\ messages (Delete None None id db).2 !! id = None
           /\ message_blobs (Delete None None id db).2 !! id = None
  end.
Proof.
  intros Hdb. pose proof (action_rows (can_delete id) id db Hdb ltac:(eauto with store)) as Hrows.
  unfold Delete, exec, requireAction, Get. simpl.
  destruct (messages db !! id) as [m|] eqn:Hm.
  - pose proof (row_key _ _ (db_rows _ Hdb _ _ Hm)) as Hid.
    unfold can_delete at 1 in Hrows. rewrite bool_decide_eq_true_2 in Hrows by done. simpl in Hrows.
    destruct (is_status StatusSending m) eqn:Es; simpl in *.
    + destruct Hrows as [-> Hno]. rewrite sql_delete_noop by done. by rewrite Hm.
    + rewrite (proj2 (Z.gtb_lt _ _)) by done.
      assert (sql_delete (can_delete id) (messages db) !! id = None) as Hgone.
      { destruct (sql_delete _ _ !! id) as [r|] eqn:E; [|done].
        apply lookup_sql_delete in E as [E Hp]. rewrite Hm in E. simplify_eq.
        unfold can_delete in Hp. by rewrite bool_decide_eq_true_2, Es in Hp. }
      split_and!; [done|done|]. apply map_lookup_filter_None. right. intros b _. simpl.
      rewrite Hgone. by intros [? ?].
  - destruct Hrows as [-> Hno]. rewrite sql_delete_noop by done. by rewrite Hm.
Qed.

(** Operator actions on the queue: retrying works exactly on failed,
    deferred and held messages, holding on queued, deferred and failed ones,
    and discarding on every message no worker is sending. Anything else is
    refused and changes nothing: "not found" when there is no such message,
    "conflict" when its state forbids the action, so an active delivery can
    not be pulled from under its worker. *)
Theorem operator_actions now id db :
  db_ok db ->
  match messages db !! id with
  | None =>
      Requeue None None now id db = (Err (ErrNotFound ("message " +:+ id)), db)
      /\ Hold None None now id db = (Err (ErrNotFound ("message " +:+ id)), db)
      /\ (Delete None None id db).1 = Err (ErrNotFound ("message " +:+ id))
      /\ messages (Delete None None id db).2 = messages db
  | Some m =>
      (if can_requeue id m
       then (Requeue None None now id db).1 = Ok tt
            /\ exists m', messages (Requeue None None now id db).2 !! id = Some m'
                 /\ m_Status m' = StatusQueued /\ m_NextAttemptAt m' = now
       else Requeue None None now id db = (Err ErrStateConflict, db))
      /\ (if can_hold id m
          then (Hold None None now id db).1 = Ok tt
               /\ exists m', messages (Hold None None now id db).2 !! id = Some m' /\ m_Status m' = StatusHeld
          else Hold None None now id db = (Err ErrStateConflict, db))
      /\ (if is_status StatusSending m
          then (Delete None None id db).1 = Err ErrStateConflict
               /\ messages (Delete None None id db).2 = messages db
          else (Delete None None id db).1 = Ok tt
               /\ messages (Delete None None id db).2 !! id = None
               /\ message_blobs (Delete None None id db).2 !! id = None)
  end.
Proof.
  intros Hdb. unfold Requeue, Hold, exec. simpl.
  pose proof (action_update (can_requeue id) (fun m => clear_lease (set_m_UpdatedAt now
    (set_m_NextAttemptAt now (set_m_Status StatusQueued m)))) id db Hdb ltac:(eauto with store)) as Hq.
  pose proof (action_update (can_hold id) (fun m => clear_lease (set_m_UpdatedAt now
    (set_m_Status StatusHeld m))) id db Hdb ltac:(eauto with store)) as Hh.
  pose proof (action_rows (can_delete id) id db Hdb ltac:(eauto with store)) as Hd.
  pose proof (delete_action id db Hdb) as Hdel. simpl in *.
  destruct (messages db !! id) as [m|] eqn:Hm; [|by split_and!; try apply Hdel].
  split_and!; [| |done].
  - destruct (can_requeue id m); [|done]. destruct Hq as [-> ->]. split; [done|]. by eexists.
  - destruct (can_hold id m); [|done]. destruct Hh as [-> ->]. split; [done|]. by eexists.
Qed.

Lemma operator_actions_witness :
  Hold None None 300 "m-1" sample_claimed = (Err ErrStateConflict, sample_claimed).
Proof.
  pose proof (operator_actions 300 "m-1" sample_claimed sample_claimed_ok) as H.
  rewrite sample_claimed_row in H. exact (proj1 (proj2 H)).
Defined.
