(* ===== verification/Directory.v ===== *)
(** * Credentials, mailboxes and accounts in the database

    [internal/store/{credentials,mailboxes,accounts}.go]: the repositories the
    administration interface writes and the SMTP listener and the workers
    read, with the constraints of the schema they rely on (unique names,
    addresses and usernames, the enumerations' CHECK clauses, the foreign keys
    and their ON DELETE actions).

    [now] is [time.Now()], [newID] what [NewID()] returns and [io] the failure
    the driver reports for the statement, if it does. A constraint violation is
    reported in the order both engines check: CHECK, unique, foreign key. *)

From stdpp Require Import base gmap strings list sorting.
From Stdlib Require Import ZArith Lia.
From S2P Require Import Prelude GoStrings StoreModels MessageStore.

Open Scope Z_scope.

(** ** Tables *)

Definition set_oauth_credentials (t : gmap string OAuthCredential) (db : DB) : DB :=
  mkDB t (mailboxes db) (smtp_accounts db)
    (smtp_account_mailboxes db) (allowed_senders db) (messages db) (message_blobs db).

Definition set_mailboxes (t : gmap string Mailbox) (db : DB) : DB :=
  mkDB (oauth_credentials db) t (smtp_accounts db)
    (smtp_account_mailboxes db) (allowed_senders db) (messages db) (message_blobs db).

Definition set_account_mailboxes (t : gset (string * string)) (db : DB) : DB :=
  mkDB (oauth_credentials db) (mailboxes db) (smtp_accounts db)
    t (allowed_senders db) (messages db) (message_blobs db).

Definition set_allowed_senders (t : gmap string AllowedSender) (db : DB) : DB :=
  mkDB (oauth_credentials db) (mailboxes db) (smtp_accounts db)
    (smtp_account_mailboxes db) t (messages db) (message_blobs db).

Section Rows.
Context {R : Type}.

Definition exists_row (p : R -> bool) (t : gmap string R) : bool := negb (rows_affected p t =? 0).

(** The row a unique index finds. *)
Definition find_row (p : R -> bool) (t : gmap string R) : option R :=
  snd <$> head (map_to_list (rows_where p t)).

Lemma exists_row_spec p t : exists_row p t = true <-> exists k r, t !! k = Some r /\ p r = true.
Proof.
  unfold exists_row. rewrite negb_true_iff, Z.eqb_neq, rows_affected_zero. split.
  - intros H. apply dec_stable. intros Hn. apply H. intros k r Hk.
    apply not_true_iff_false. intros Hp. apply Hn. eauto.
  - intros (k & r & Hk & Hp) H. by rewrite (H k r Hk) in Hp.
Qed.

Lemma find_row_Some p t r : find_row p t = Some r -> p r = true /\ exists k, t !! k = Some r.
Proof.
  unfold find_row. destruct (head _) as [[k r']|] eqn:Hh; [|done]. intros [= ->].
  apply head_Some in Hh as [l Hl]. assert ((k, r) ∈ map_to_list (rows_where p t)) as Hin by (rewrite Hl; left).
  apply elem_of_map_to_list, map_lookup_filter_Some in Hin as [??]. eauto.
Qed.

Lemma find_row_None p t k r : find_row p t = None -> t !! k = Some r -> p r = false.
Proof.
  unfold find_row. destruct (map_to_list (rows_where p t)) as [|x l] eqn:Hl; [|done]. intros _ Hk.
  apply not_true_iff_false. intros Hp.
  assert (rows_where p t !! k = Some r) as Hr by (by apply map_lookup_filter_Some).
  apply elem_of_map_to_list in Hr. rewrite Hl in Hr. by apply elem_of_nil in Hr.
Qed.
End Rows.

Definition known_managed_by (x : ManagedBy) : bool :=
  match x with ManagedByOther _ => false | _ => true end.
Definition known_auth_type (x : AuthType) : bool :=
  match x with AuthTypeOther _ => false | _ => true end.
Definition known_transport (x : Transport) : bool :=
  match x with TransportOther _ => false | _ => true end.
Definition known_from_policy (x : FromPolicy) : bool :=
  match x with FromPolicyOther _ => false | _ => true end.

Definition check_failed : DriverError := SqlOther "CHECK constraint failed".

Definition managed_by_default (x : ManagedBy) : ManagedBy :=
  if bool_decide (x = ManagedByOther "") then ManagedByUI else x.

(** An insert also checks its primary key, after the CHECK clauses. *)
Definition insert_error (row_error : option DriverError) (taken : bool) : option DriverError :=
  match row_error with
  | Some (SqlOther e) => Some (SqlOther e)
  | _ => if taken then Some SqlUniqueViolation else row_error
  end.

(** ** Credentials *)

Definition credential_defaults (now : Z) (newID : string) (c : OAuthCredential) : OAuthCredential :=
  mkOAuthCredential (if bool_decide (cred_ID c = "") then newID else cred_ID c)
    (cred_Name c) (cred_TenantID c) (cred_ClientID c) (cred_AuthType c)
    (cred_ClientSecretEnc c) (cred_CertificatePEM c) (cred_CertificateKeyEnc c)
    (cred_CertificateThumbprint c) (cred_AuthorityHost c) (cred_ExpiresAt c)
    (managed_by_default (cred_ManagedBy c)) now now.

(** The constraints on a row that is to be stored under its ID: no other row
    has its name. *)
Definition credential_error (c : OAuthCredential) (db : DB) : option DriverError :=
  if negb (known_auth_type (cred_AuthType c) && known_managed_by (cred_ManagedBy c)) then Some check_failed
  else if exists_row (fun r => bool_decide (cred_Name r = cred_Name c) && negb (bool_decide (cred_ID r = cred_ID c)))
            (oauth_credentials db) then Some SqlUniqueViolation
  else None.

Definition insert_credential_error (c : OAuthCredential) (db : DB) : option DriverError :=
  insert_error (credential_error c db) (bool_decide (is_Some (oauth_credentials db !! cred_ID c))).

Definition Credentials_Create (io : option string) (now : Z) (newID : string) (c : OAuthCredential) (db : DB)
  : result StoreError OAuthCredential * DB :=
  exec io (fun db =>
    let c := credential_defaults now newID c in
    match translateError (insert_credential_error c db) ("credential " +:+ cred_Name c) with
    | Some e => (Err e, db)
    | None => (Ok c, set_oauth_credentials (<[cred_ID c := c]> (oauth_credentials db)) db)
    end) db.

Definition Credentials_Get (io : option string) (id : string) (db : DB) : result StoreError OAuthCredential :=
  match io with
  | Some e => Err (ErrDriver e)
  | None => match oauth_credentials db !! id with
            | Some c => Ok c
            | None => Err (ErrNotFound ("credential " +:+ id))
            end
  end.

Definition Credentials_GetByName (io : option string) (name : string) (db : DB) : result StoreError OAuthCredential :=
  match io with
  | Some e => Err (ErrDriver e)
  | None => match find_row (fun c => bool_decide (cred_Name c = name)) (oauth_credentials db) with
            | Some c => Ok c
            | None => Err (ErrNotFound ("credential " +:+ name))
            end
  end.

(** The SET clause of the update. *)
Definition credential_set (now : Z) (c r : OAuthCredential) : OAuthCredential :=
  mkOAuthCredential (cred_ID r)
    (cred_Name c) (cred_TenantID c) (cred_ClientID c) (cred_AuthType c)
    (cred_ClientSecretEnc c) (cred_CertificatePEM c) (cred_CertificateKeyEnc c)
    (cred_CertificateThumbprint c) (cred_AuthorityHost c) (cred_ExpiresAt c)
    (cred_ManagedBy c) (cred_CreatedAt r) now.

(** An UPDATE or DELETE of the row with this ID; constraints are checked only
    when there is such a row. *)
Definition write_row {R T} (id_of : R -> string) (io : option string) (id : string)
    (t : gmap string R) (err : option DriverError) (what what' : string) (db' db : T)
  : result StoreError unit * T :=
  exec io (fun db =>
    let n := rows_affected (fun r => bool_decide (id_of r = id)) t in
    match translateError (if n =? 0 then None else err) what with
    | Some e => (Err e, db)
    | None => (requireOneRow n what', if n =? 0 then db else db')
    end) db.

Definition Credentials_Update (io : option string) (now : Z) (c : OAuthCredential) (db : DB)
  : result StoreError unit * DB :=
  write_row cred_ID io (cred_ID c) (oauth_credentials db) (credential_error c db)
    ("credential " +:+ cred_Name c) ("credential " +:+ cred_ID c)
    (set_oauth_credentials (sql_update (fun r => bool_decide (cred_ID r = cred_ID c)) (credential_set now c)
       (oauth_credentials db)) db) db.

(** [oauth_credential_id ... ON DELETE RESTRICT] *)
Definition Credentials_Delete (io : option string) (id : string) (db : DB) : result StoreError unit * DB :=
  write_row cred_ID io id (oauth_credentials db)
    (if exists_row (fun m => bool_decide (mb_OAuthCredentialID m = id)) (mailboxes db)
     then Some SqlForeignKeyViolation else None)
    ("credential " +:+ id) ("credential " +:+ id)
    (set_oauth_credentials (sql_delete (fun r => bool_decide (cred_ID r = id)) (oauth_credentials db)) db) db.

(** ** Mailboxes *)

Definition mailbox_defaults (now : Z) (newID : string) (m : Mailbox) : Mailbox :=
  mkMailbox (if bool_decide (mb_ID m = "") then newID else mb_ID m)
    (mb_Address m) (mb_DisplayName m) (mb_OAuthCredentialID m)
    (if bool_decide (mb_Transport m = TransportOther "") then TransportSMTP else mb_Transport m)
    (mb_RateLimitPerMin m) (mb_MaxConcurrent m) (mb_Enabled m)
    (managed_by_default (mb_ManagedBy m)) now now.

Definition mailbox_error (m : Mailbox) (db : DB) : option DriverError :=
  if negb (known_transport (mb_Transport m) && known_managed_by (mb_ManagedBy m)) then Some check_failed
  else if exists_row (fun r => bool_decide (mb_Address r = mb_Address m) && negb (bool_decide (mb_ID r = mb_ID m)))
            (mailboxes db) then Some SqlUniqueViolation
  else if negb (bool_decide (is_Some (oauth_credentials db !! mb_OAuthCredentialID m)))
  then Some SqlForeignKeyViolation
  else None.

Definition insert_mailbox_error (m : Mailbox) (db : DB) : option DriverError :=
  insert_error (mailbox_error m db) (bool_decide (is_Some (mailboxes db !! mb_ID m))).

Definition Mailboxes_Create (io : option string) (now : Z) (newID : string) (m : Mailbox) (db : DB)
  : result StoreError Mailbox * DB :=
  exec io (fun db =>
    let m := mailbox_defaults now newID m in
    match translateError (insert_mailbox_error m db) ("mailbox " +:+ mb_Address m) with
    | Some e => (Err e, db)
    | None => (Ok m, set_mailboxes (<[mb_ID m := m]> (mailboxes db)) db)
    end) db.

Definition Mailboxes_Get (io : option string) (id : string) (db : DB) : result StoreError Mailbox :=
  match io with
  | Some e => Err (ErrDriver e)
  | None => match mailboxes db !! id with
            | Some m => Ok m
            | None => Err (ErrNotFound ("mailbox " +:+ id))
            end
  end.

Definition Mailboxes_GetByAddress (io : option string) (address : string) (db : DB) : result StoreError Mailbox :=
  match io with
  | Some e => Err (ErrDriver e)
  | None => match find_row (fun m => bool_decide (mb_Address m = address)) (mailboxes db) with
            | Some m => Ok m
            | None => Err (ErrNotFound ("mailbox " +:+ address))
            end
  end.

Definition mailbox_set (now : Z) (m r : Mailbox) : Mailbox :=
  mkMailbox (mb_ID r) (mb_Address m) (mb_DisplayName m) (mb_OAuthCredentialID m) (mb_Transport m)
    (mb_RateLimitPerMin m) (mb_MaxConcurrent m) (mb_Enabled m) (mb_ManagedBy m) (mb_CreatedAt r) now.

Definition Mailboxes_Update (io : option string) (now : Z) (m : Mailbox) (db : DB)
  : result StoreError unit * DB :=
  write_row mb_ID io (mb_ID m) (mailboxes db) (mailbox_error m db)
    ("mailbox " +:+ mb_Address m) ("mailbox " +:+ mb_ID m)
    (set_mailboxes (sql_update (fun r => bool_decide (mb_ID r = mb_ID m)) (mailbox_set now m) (mailboxes db)) db) db.

Definition clear_fk (id : string) (fk : option string) : option string :=
  if bool_decide (fk = Some id) then None else fk.

Definition set_acc_DefaultMailboxID (v : option string) (x : SMTPAccount) : SMTPAccount :=
  mkSMTPAccount (acc_ID x) (acc_Username x) (acc_PasswordHash x) (acc_Description x)
    v (acc_FromPolicy x) (acc_AllowCIDRs x) (acc_RateLimitPerMin x)
    (acc_Enabled x) (acc_LastUsedAt x) (acc_ManagedBy x) (acc_CreatedAt x) (acc_UpdatedAt x).

(** The row goes, the links of accounts to it go with it, and the references
    from accounts and messages become NULL. *)
Definition delete_mailbox (id : string) (db : DB) : DB :=
  mkDB (oauth_credentials db)
    (sql_delete (fun r => bool_decide (mb_ID r = id)) (mailboxes db))
    ((fun a => set_acc_DefaultMailboxID (clear_fk id (acc_DefaultMailboxID a)) a) <$> smtp_accounts db)
    (filter (fun l => l.2 <> id) (smtp_account_mailboxes db))
    (allowed_senders db)
    ((fun m => set_m_MailboxID (clear_fk id (m_MailboxID m)) m) <$> messages db)
    (message_blobs db).

Definition Mailboxes_Delete (io : option string) (id : string) (db : DB) : result StoreError unit * DB :=
  write_row mb_ID io id (mailboxes db) None ("mailbox " +:+ id) ("mailbox " +:+ id) (delete_mailbox id db) db.

(** *** Listings *)

(** The engine's collation, which orders the rows of [ORDER BY address] and
    the like. *)
Class Collation := {
  collate : relation string;
  collate_dec :: RelDecision collate
}.

Section Listings.
Context `{C : Collation}.

Definition by_column {R} (column : R -> string) (a b : R) : Prop := collate (column a) (column b).

#[export] Instance by_column_dec {R} (column : R -> string) a b : Decision (by_column column a b).
Proof. unfold by_column. apply _. Defined.

(** All rows that satisfy [p], ordered by a column. *)
Definition list_rows {R} (p : R -> bool) (column : R -> string) (t : gmap string R) : list R :=
  merge_sort (by_column column) ((map_to_list (rows_where p t)).*2).

Definition listing {A} (io : option string) (what : string) (l : list A) : result StoreError (list A) :=
  match io with
  | Some e => Err (ErrDriver (what +:+ e))
  | None => Ok l
  end.

Definition Credentials_List (io : option string) (db : DB) : result StoreError (list OAuthCredential) :=
  listing io "store: listing credentials: " (list_rows (fun _ => true) cred_Name (oauth_credentials db)).

Definition Mailboxes_List (io : option string) (db : DB) : result StoreError (list Mailbox) :=
  listing io "store: listing mailboxes: " (list_rows (fun _ => true) mb_Address (mailboxes db)).

(** [m.id IN (links of the account UNION its default mailbox)] *)
Definition may_send_as (accountID : string) (db : DB) (m : Mailbox) : bool :=
  bool_decide ((accountID, mb_ID m) ∈ smtp_account_mailboxes db)
  || match smtp_accounts db !! accountID with
     | Some a => bool_decide (acc_DefaultMailboxID a = Some (mb_ID m))
     | None => false
     end.

Definition ListForAccount (io : option string) (accountID : string) (db : DB)
  : result StoreError (list Mailbox) :=
  listing io "store: listing mailboxes: " (list_rows (may_send_as accountID db) mb_Address (mailboxes db)).

Definition Accounts_List (io : option string) (db : DB) : result StoreError (list SMTPAccount) :=
  listing io "store: listing SMTP accounts: " (list_rows (fun _ => true) acc_Username (smtp_accounts db)).

Definition AllowedSenders (io : option string) (accountID : string) (db : DB)
  : result StoreError (list AllowedSender) :=
  listing io "store: listing allowed senders: "
    (list_rows (fun s => bool_decide (as_SMTPAccountID s = accountID)) as_Pattern (allowed_senders db)).

Lemma elem_of_list_rows {R} (p : R -> bool) column t r :
  r ∈ list_rows p column t <-> p r = true /\ exists k, t !! k = Some r.
Proof.
  unfold list_rows. rewrite merge_sort_Permutation, list_elem_of_fmap. split.
  - intros ([k r'] & -> & [??]%elem_of_map_to_list%map_lookup_filter_Some). eauto.
  - intros (Hp & k & Hk). exists (k, r). split; [done|].
    by apply elem_of_map_to_list, map_lookup_filter_Some.
Qed.
End Listings.

(** [ExpiringBefore]: ordered by the expiry. *)
Definition expires_before (cutoff : Z) (c : OAuthCredential) : bool :=
  match cred_ExpiresAt c with Some e => e <? cutoff | None => false end.

Definition by_expiry (a b : OAuthCredential) : Prop :=
  default 0 (cred_ExpiresAt a) <= default 0 (cred_ExpiresAt b).

#[export] Instance by_expiry_dec : RelDecision by_expiry.
Proof. intros a b. unfold by_expiry. apply _. Defined.

Definition ExpiringBefore (io : option string) (cutoff : Z) (db : DB)
  : result StoreError (list OAuthCredential) :=
  listing io "store: listing expiring credentials: "
    (merge_sort by_expiry ((map_to_list (rows_where (expires_before cutoff) (oauth_credentials db))).*2)).

(** ** Accounts *)

Definition account_defaults (now : Z) (newID : string) (a : SMTPAccount) : SMTPAccount :=
  mkSMTPAccount (if bool_decide (acc_ID a = "") then newID else acc_ID a)
    (acc_Username a) (acc_PasswordHash a) (acc_Description a) (acc_DefaultMailboxID a)
    (if bool_decide (acc_FromPolicy a = FromPolicyOther "") then FromPolicyReject else acc_FromPolicy a)
    (acc_AllowCIDRs a) (acc_RateLimitPerMin a) (acc_Enabled a) (acc_LastUsedAt a)
    (managed_by_default (acc_ManagedBy a)) now now.

Definition account_error (a : SMTPAccount) (db : DB) : option DriverError :=
  if negb (known_from_policy (acc_FromPolicy a) && known_managed_by (acc_ManagedBy a)) then Some check_failed
  else if exists_row (fun r => bool_decide (acc_Username r = acc_Username a) && negb (bool_decide (acc_ID r = acc_ID a)))
            (smtp_accounts db) then Some SqlUniqueViolation
  else if negb (fk_ok (acc_DefaultMailboxID a) (mailboxes db)) then Some SqlForeignKeyViolation
  else None.

Definition insert_account_error (a : SMTPAccount) (db : DB) : option DriverError :=
  insert_error (account_error a db) (bool_decide (is_Some (smtp_accounts db !! acc_ID a))).

Definition Accounts_Create (io : option string) (now : Z) (newID : string) (a : SMTPAccount) (db : DB)
  : result StoreError SMTPAccount * DB :=
  exec io (fun db =>
    let a := account_defaults now newID a in
    match translateError (insert_account_error a db) ("SMTP account " +:+ acc_Username a) with
    | Some e => (Err e, db)
    | None => (Ok a, set_smtp_accounts (<[acc_ID a := a]> (smtp_accounts db)) db)
    end) db.

Definition Accounts_Get (io : option string) (id : string) (db : DB) : result StoreError SMTPAccount :=
  match io with
  | Some e => Err (ErrDriver e)
  | None => match smtp_accounts db !! id with
            | Some a => Ok a
            | None => Err (ErrNotFound ("SMTP account " +:+ id))
            end
  end.

Definition GetByUsername (io : option string) (username : string) (db : DB) : result StoreError SMTPAccount :=
  match io with
  | Some e => Err (ErrDriver e)
  | None => match find_row (fun a => bool_decide (acc_Username a = username)) (smtp_accounts db) with
            | Some a => Ok a
            | None => Err (ErrNotFound ("SMTP account " +:+ username))
            end
  end.

Definition account_set (now : Z) (a r : SMTPAccount) : SMTPAccount :=
  mkSMTPAccount (acc_ID r) (acc_Username a) (acc_PasswordHash a) (acc_Description a)
    (acc_DefaultMailboxID a) (acc_FromPolicy a) (acc_AllowCIDRs a) (acc_RateLimitPerMin a)
    (acc_Enabled a) (acc_LastUsedAt r) (acc_ManagedBy a) (acc_CreatedAt r) now.

Definition Accounts_Update (io : option string) (now : Z) (a : SMTPAccount) (db : DB)
  : result StoreError unit * DB :=
  write_row acc_ID io (acc_ID a) (smtp_accounts db) (account_error a db)
    ("SMTP account " +:+ acc_Username a) ("SMTP account " +:+ acc_ID a)
    (set_smtp_accounts (sql_update (fun r => bool_decide (acc_ID r = acc_ID a)) (account_set now a)
       (smtp_accounts db)) db) db.

Definition TouchLastUsed (io : option string) (id : string) (at_ : Z) (db : DB) : result StoreError unit * DB :=
  exec io (fun db =>
    (Ok tt, set_smtp_accounts (sql_update (fun r => bool_decide (acc_ID r = id))
              (set_acc_LastUsedAt (Some at_)) (smtp_accounts db)) db)) db.

(** Links and allowed senders go with the account; messages keep their row. *)
Definition delete_account (id : string) (db : DB) : DB :=
  mkDB (oauth_credentials db) (mailboxes db)
    (sql_delete (fun r => bool_decide (acc_ID r = id)) (smtp_accounts db))
    (filter (fun l => l.1 <> id) (smtp_account_mailboxes db))
    (sql_delete (fun s => bool_decide (as_SMTPAccountID s = id)) (allowed_senders db))
    ((fun m => set_m_SMTPAccountID (clear_fk id (m_SMTPAccountID m)) m) <$> messages db)
    (message_blobs db).

Definition Accounts_Delete (io : option string) (id : string) (db : DB) : result StoreError unit * DB :=
  write_row acc_ID io id (smtp_accounts db) None ("SMTP account " +:+ id) ("SMTP account " +:+ id)
    (delete_account id db) db.

(** *** Links *)

Definition insert_link_error (accountID id : string) (db : DB) : option DriverError :=
  if bool_decide ((accountID, id) ∈ smtp_account_mailboxes db) then Some SqlUniqueViolation
  else if bool_decide (is_Some (smtp_accounts db !! accountID)) && bool_decide (is_Some (mailboxes db !! id))
  then None else Some SqlForeignKeyViolation.

(** The loop of [SetMailboxes]; [ios] is what the driver reports for the
    insert at each position. *)
Fixpoint insert_links (ios : nat -> option string) (accountID : string) (ids : list string)
    (seen : list string) (db : DB) : result StoreError unit * DB :=
  match ids with
  | [] => (Ok tt, db)
  | id :: rest =>
      if bool_decide (id ∈ seen) then insert_links (ios ∘ S) accountID rest seen db
      else
        let err := match ios 0%nat with
                   | Some e => Some (SqlOther e)
                   | None => insert_link_error accountID id db
                   end in
        match translateError err ("mailbox link " +:+ id) with
        | Some e => (Err e, db)
        | None => insert_links (ios ∘ S) accountID rest (id :: seen)
                    (set_account_mailboxes ({[(accountID, id)]} ∪ smtp_account_mailboxes db) db)
        end
  end.

Definition SetMailboxes (io : option string) (ios : nat -> option string) (accountID : string)
    (mailboxIDs : list string) (db : DB) : result StoreError unit * DB :=
  InTx (fun db =>
    match io with
    | Some e => (Err (ErrDriver ("store: clearing mailbox links: " +:+ e)), db)
    | None =>
        insert_links ios accountID mailboxIDs []
          (set_account_mailboxes (filter (fun l => l.1 <> accountID) (smtp_account_mailboxes db)) db)
    end) db.

Definition insert_sender_error (s : AllowedSender) (db : DB) : option DriverError :=
  if bool_decide (is_Some (allowed_senders db !! as_ID s))
     || exists_row (fun r => bool_decide (as_SMTPAccountID r = as_SMTPAccountID s)
                             && bool_decide (as_Pattern r = as_Pattern s)) (allowed_senders db)
  then Some SqlUniqueViolation
  else if bool_decide (is_Some (smtp_accounts db !! as_SMTPAccountID s)) then None
  else Some SqlForeignKeyViolation.

(** The loop of [SetAllowedSenders]; [newIDs] is what [NewID] returns for the
    pattern at each position. *)
Fixpoint insert_senders (ios : nat -> option string) (newIDs : nat -> string) (now : Z) (accountID : string)
    (patterns seen : list string) (db : DB) : result StoreError unit * DB :=
  match patterns with
  | [] => (Ok tt, db)
  | p :: rest =>
      if bool_decide (p ∈ seen) then insert_senders (ios ∘ S) (newIDs ∘ S) now accountID rest seen db
      else
        let s := mkAllowedSender (newIDs 0%nat) accountID p now in
        let err := match ios 0%nat with
                   | Some e => Some (SqlOther e)
                   | None => insert_sender_error s db
                   end in
        match translateError err ("allowed sender " +:+ p) with
        | Some e => (Err e, db)
        | None => insert_senders (ios ∘ S) (newIDs ∘ S) now accountID rest (p :: seen)
                    (set_allowed_senders (<[as_ID s := s]> (allowed_senders db)) db)
        end
  end.

Definition SetAllowedSenders (io : option string) (ios : nat -> option string) (newIDs : nat -> string)
    (now : Z) (accountID : string) (patterns : list string) (db : DB) : result StoreError unit * DB :=
  InTx (fun db =>
    match io with
    | Some e => (Err (ErrDriver ("store: clearing allowed senders: " +:+ e)), db)
    | None =>
        insert_senders ios newIDs now accountID patterns []
          (set_allowed_senders (sql_delete (fun s => bool_decide (as_SMTPAccountID s = accountID))
             (allowed_senders db)) db)
    end) db.
