(* ===== verification/DirectoryProps.v ===== *)
(** * Integrity of the directory

    The referential invariant of the whole database and its preservation by
    every statement of the repositories and of the queue, and what the
    replacing and deleting operations do. *)

From stdpp Require Import base gmap strings list sorting.
From Stdlib Require Import ZArith Lia.
From S2P Require Import Prelude GoStrings StoreModels MessageStore MessageQueue Directory.

Open Scope Z_scope.

(** ** Definitions *)

(** Rows are stored under their ID, satisfy [P], and no two share a name. *)
Record table_ok {R N} (id : R -> string) (name : R -> N) (P : R -> Prop) (t : gmap string R) : Prop := {
  to_id : forall k r, t !! k = Some r -> id r = k;
  to_row : forall k r, t !! k = Some r -> P r;
  to_unique : forall k k' r r', t !! k = Some r -> t !! k' = Some r' -> name r = name r' -> k = k'
}.

Definition credential_ok (c : OAuthCredential) : Prop :=
  known_auth_type (cred_AuthType c) = true /\ known_managed_by (cred_ManagedBy c) = true.

Definition mailbox_ok (creds : gmap string OAuthCredential) (m : Mailbox) : Prop :=
  known_transport (mb_Transport m) = true /\ known_managed_by (mb_ManagedBy m) = true
  /\ is_Some (creds !! mb_OAuthCredentialID m).

Definition account_ok (mbs : gmap string Mailbox) (a : SMTPAccount) : Prop :=
  known_from_policy (acc_FromPolicy a) = true /\ known_managed_by (acc_ManagedBy a) = true
  /\ fk_ok (acc_DefaultMailboxID a) mbs = true.

Definition sender_ok (accs : gmap string SMTPAccount) (s : AllowedSender) : Prop :=
  is_Some (accs !! as_SMTPAccountID s).

Record dir_ok (db : DB) : Prop := {
  do_credentials : table_ok cred_ID cred_Name credential_ok (oauth_credentials db);
  do_mailboxes : table_ok mb_ID mb_Address (mailbox_ok (oauth_credentials db)) (mailboxes db);
  do_accounts : table_ok acc_ID acc_Username (account_ok (mailboxes db)) (smtp_accounts db);
  do_links : forall a b, (a, b) ∈ smtp_account_mailboxes db ->
    is_Some (smtp_accounts db !! a) /\ is_Some (mailboxes db !! b);
  do_senders : table_ok as_ID (fun s => (as_SMTPAccountID s, as_Pattern s))
    (sender_ok (smtp_accounts db)) (allowed_senders db);
  do_messages : forall k m, messages db !! k = Some m ->
    fk_ok (m_SMTPAccountID m) (smtp_accounts db) = true /\ fk_ok (m_MailboxID m) (mailboxes db) = true
}.

(** The statements of the repositories that write. *)
Inductive DirOp :=
| DCreateCredential (io : option string) (now : Z) (newID : string) (c : OAuthCredential)
| DUpdateCredential (io : option string) (now : Z) (c : OAuthCredential)
| DDeleteCredential (io : option string) (id : string)
| DCreateMailbox (io : option string) (now : Z) (newID : string) (m : Mailbox)
| DUpdateMailbox (io : option string) (now : Z) (m : Mailbox)
| DDeleteMailbox (io : option string) (id : string)
| DCreateAccount (io : option string) (now : Z) (newID : string) (a : SMTPAccount)
| DUpdateAccount (io : option string) (now : Z) (a : SMTPAccount)
| DTouch (io : option string) (id : string) (at_ : Z)
| DDeleteAccount (io : option string) (id : string)
| DSetMailboxes (io : option string) (ios : nat -> option string) (id : string) (ids : list string)
| DSetSenders (io : option string) (ios : nat -> option string) (newIDs : nat -> string) (now : Z)
    (id : string) (patterns : list string)
| DQueue (op : Op).

Definition step_dir (op : DirOp) (db : DB) : DB :=
  match op with
  | DCreateCredential io now newID c => (Credentials_Create io now newID c db).2
  | DUpdateCredential io now c => (Credentials_Update io now c db).2
  | DDeleteCredential io id => (Credentials_Delete io id db).2
  | DCreateMailbox io now newID m => (Mailboxes_Create io now newID m db).2
  | DUpdateMailbox io now m => (Mailboxes_Update io now m db).2
  | DDeleteMailbox io id => (Mailboxes_Delete io id db).2
  | DCreateAccount io now newID a => (Accounts_Create io now newID a db).2
  | DUpdateAccount io now a => (Accounts_Update io now a db).2
  | DTouch io id at_ => (TouchLastUsed io id at_ db).2
  | DDeleteAccount io id => (Accounts_Delete io id db).2
  | DSetMailboxes io ios id ids => (SetMailboxes io ios id ids db).2
  | DSetSenders io ios newIDs now id patterns => (SetAllowedSenders io ios newIDs now id patterns db).2
  | DQueue op => step_op op db
  end.

Definition run_dir (ops : list DirOp) (db : DB) : DB := fold_left (fun db op => step_dir op db) ops db.

Definition dir_fresh (op : DirOp) : Prop := match op with DQueue op => op_fresh op | _ => True end.

(** ** Lemmas on tables *)

Section TableOk.
Context {R N : Type} (id : R -> string) (name : R -> N).
Implicit Types (t : gmap string R) (P : R -> Prop).

Lemma table_ok_impl P Q t :
  (forall k r, t !! k = Some r -> P r -> Q r) -> table_ok id name P t -> table_ok id name Q t.
Proof. intros HPQ [H1 H2 H3]. split; eauto. Qed.

Lemma table_ok_empty P : table_ok id name P ∅.
Proof. split; intros; simplify_map_eq. Qed.

Lemma table_ok_insert P t r :
  table_ok id name P t -> P r ->
  (forall k r', t !! k = Some r' -> name r' = name r -> id r' = id r) ->
  table_ok id name P (<[id r := r]> t).
Proof.
  intros [H1 H2 H3] HP Hu. split.
  - intros k x. rewrite lookup_insert_Some. naive_solver.
  - intros k x. rewrite lookup_insert_Some. naive_solver.
  - intros k k' x x' [[<- <-]|[Hne Hk]]%lookup_insert_Some [[<- <-]|[Hne' Hk']]%lookup_insert_Some Hn; [done| | |eauto].
    + rewrite <- (Hu _ _ Hk') by done. eauto.
    + rewrite <- (Hu _ _ Hk) by done. symmetry. eauto.
Qed.

Lemma table_ok_update P t i f :
  table_ok id name P t ->
  (forall r, id (f r) = id r) ->
  (forall r, id r = i -> P (f r)) ->
  (forall k r k' r', t !! k = Some r -> id r = i -> t !! k' = Some r' -> id r' <> i -> name r' <> name (f r)) ->
  table_ok id name P (sql_update (fun r => bool_decide (id r = i)) f t).
Proof.
  intros [H1 H2 H3] Hid HP Hu.
  assert (forall k r, sql_update (fun r => bool_decide (id r = i)) f t !! k = Some r ->
    exists r0, t !! k = Some r0 /\ id r0 = k /\ ((k = i /\ r = f r0) \/ (k <> i /\ r = r0))) as Hl.
  { intros k r. rewrite lookup_sql_update, fmap_Some. intros (r0 & Hk & ->). exists r0.
    pose proof (H1 _ _ Hk). case_bool_decide; naive_solver. }
  split.
  - intros k r (r0 & ? & ? & [[??]|[??]])%Hl; subst; [by rewrite Hid|done].
  - intros k r (r0 & ? & ? & [[??]|[??]])%Hl; subst; [by apply HP|eauto].
  - intros k k' r r' (r0 & Hk & Hi & [[??]|[??]])%Hl (r1 & Hk' & Hi' & [[??]|[??]])%Hl Hn; subst; eauto.
    + by destruct (Hu _ _ _ _ Hk eq_refl Hk').
    + by destruct (Hu _ _ _ _ Hk' eq_refl Hk).
Qed.

Lemma table_ok_delete P t p : table_ok id name P t -> table_ok id name P (sql_delete p t).
Proof.
  intros [H1 H2 H3]. split; intros *; rewrite ?lookup_sql_delete; naive_solver.
Qed.

Lemma table_ok_fmap P Q t f :
  (forall r, id (f r) = id r) -> (forall r, name (f r) = name r) -> (forall r, P r -> Q (f r)) ->
  table_ok id name P t -> table_ok id name Q (f <$> t).
Proof.
  intros Hi Hn HQ [H1 H2 H3]. split; intros *; rewrite ?lookup_fmap, ?fmap_Some.
  - intros (r0 & Hk & ->). rewrite Hi. eauto.
  - intros (r0 & Hk & ->). eauto.
  - intros (r0 & Hk & ->) (r1 & Hk' & ->). rewrite !Hn. eauto.
Qed.
End TableOk.

(** No other row has the name. *)
Lemma no_clash {R} (id name : R -> string) (t : gmap string R) r :
  exists_row (fun r' => bool_decide (name r' = name r) && negb (bool_decide (id r' = id r))) t = false ->
  forall k r', t !! k = Some r' -> name r' = name r -> id r' = id r.
Proof.
  intros He k r' Hk Hn. apply dec_stable. intros Hne. apply not_true_iff_false in He. apply He.
  apply exists_row_spec. exists k, r'. split; [done|]. by rewrite bool_decide_eq_true_2, bool_decide_eq_false_2.
Qed.

(** The statement either changes nothing, or there is such a row, the
    constraints hold and the change is made. *)
Lemma write_row_cases {R T} (id_of : R -> string) io id t err what what' (db' db : T) :
  let '(r, db2) := write_row id_of io id t err what what' db' db in
  (db2 = db /\ is_ok r = false)
  \/ (db2 = db' /\ r = Ok tt /\ err = None /\ io = None /\ exists k x, t !! k = Some x /\ id_of x = id).
Proof.
  unfold write_row, exec. destruct io; simpl; [by left|].
  destruct (rows_affected _ t =? 0) eqn:Hn; simpl.
  { left. unfold requireOneRow. by rewrite Hn. }
  destruct err as [[]|]; simpl; try (by left). right. unfold requireOneRow. rewrite Hn.
  split_and!; try done. assert (exists_row (fun r => bool_decide (id_of r = id)) t = true) as He.
  { unfold exists_row. by rewrite Hn. }
  apply exists_row_spec in He as (k & x & Hk & Hx). bools. eauto.
Qed.

(** With the row there, the constraints met and no driver failure, it is done. *)
Lemma write_row_ok {R T} (id_of : R -> string) id t what what' (db' db : T) k x :
  t !! k = Some x -> id_of x = id -> write_row id_of None id t None what what' db' db = (Ok tt, db').
Proof.
  intros Hk Hx. assert ((rows_affected (fun r => bool_decide (id_of r = id)) t =? 0) = false) as Hn.
  { apply Z.eqb_neq. rewrite rows_affected_zero. intros H. specialize (H k x Hk). by bools. }
  unfold write_row, exec, requireOneRow. by rewrite Hn.
Qed.

(** Names the cases of the [write_row] in the goal. *)
Ltac write_cases Hw :=
  match goal with |- context [write_row ?f ?io ?i ?t ?e ?w ?w' ?d' ?d] =>
    pose proof (write_row_cases f io i t e w w' d' d) as Hw;
    destruct (write_row f io i t e w w' d' d) as [? ?]; simpl
  end.

Lemma fk_ok_mono {R} fk (t t' : gmap string R) :
  (forall k, is_Some (t !! k) -> is_Some (t' !! k)) -> fk_ok fk t = true -> fk_ok fk t' = true.
Proof.
  intros H. destruct fk; simpl; [|done]. intros Hb. bools. apply bool_decide_eq_true_2. auto.
Qed.

Lemma clear_fk_ok {R} id fk (t : gmap string R) p :
  (forall k r, t !! k = Some r -> p r = true -> k = id) ->
  fk_ok fk t = true -> fk_ok (clear_fk id fk) (sql_delete p t) = true.
Proof.
  intros Hp. unfold clear_fk. case_bool_decide; simpl; [done|]. destruct fk as [k|]; simpl; [|done].
  intros [r Hk]%bool_decide_eq_true. apply bool_decide_eq_true_2. exists r.
  apply lookup_sql_delete. split; [done|]. apply not_true_iff_false. intros Hpr. apply H. f_equal. eauto.
Qed.

(** ** What the constraints give *)

Lemma credential_error_None c db :
  credential_error c db = None ->
  credential_ok c
  /\ (forall k r', oauth_credentials db !! k = Some r' -> cred_Name r' = cred_Name c -> cred_ID r' = cred_ID c).
Proof.
  unfold credential_error, credential_ok. destruct (negb _) eqn:?; [done|].
  destruct (exists_row _ _) eqn:He; [done|]. intros _. bools. split; [done|]. by apply no_clash.
Qed.

Lemma mailbox_error_None m db :
  mailbox_error m db = None ->
  mailbox_ok (oauth_credentials db) m
  /\ (forall k r', mailboxes db !! k = Some r' -> mb_Address r' = mb_Address m -> mb_ID r' = mb_ID m).
Proof.
  unfold mailbox_error, mailbox_ok. destruct (negb (_ && _)) eqn:?; [done|].
  destruct (exists_row _ _) eqn:He; [done|]. destruct (bool_decide (is_Some _)) eqn:?; [|done]. intros _. bools.
  split; [done|]. by apply no_clash.
Qed.

Lemma account_error_None a db :
  account_error a db = None ->
  account_ok (mailboxes db) a
  /\ (forall k r', smtp_accounts db !! k = Some r' -> acc_Username r' = acc_Username a -> acc_ID r' = acc_ID a).
Proof.
  unfold account_error, account_ok. destruct (negb (_ && _)) eqn:?; [done|].
  destruct (exists_row _ _) eqn:He; [done|]. destruct (fk_ok _ _) eqn:?; [|done]. intros _. bools.
  split; [done|]. by apply no_clash.
Qed.

(** An insert that passes its constraints passes those of the row. *)
Lemma insert_error_None row_error taken :
  insert_error row_error taken = None -> row_error = None /\ taken = false.
Proof. destruct row_error as [[]|], taken; done. Qed.

Lemma is_Some_insert {R} (t : gmap string R) i r k : is_Some (t !! k) -> is_Some (<[i := r]> t !! k).
Proof. intros H. rewrite lookup_insert_is_Some. destruct (decide (i = k)); auto. Qed.

Lemma is_Some_sql_update {R} (t : gmap string R) p f k : is_Some (t !! k) -> is_Some (sql_update p f t !! k).
Proof. intros H. rewrite lookup_sql_update. by apply fmap_is_Some. Qed.

#[local] Hint Resolve is_Some_insert is_Some_sql_update : store.

(** Growing the referenced table keeps the referencing rows in order. *)
Lemma mailbox_ok_mono t t' m :
  (forall k, is_Some (t !! k) -> is_Some (t' !! k)) -> mailbox_ok t m -> mailbox_ok t' m.
Proof. unfold mailbox_ok. naive_solver. Qed.

Lemma account_ok_mono t t' a :
  (forall k, is_Some (t !! k) -> is_Some (t' !! k)) -> account_ok t a -> account_ok t' a.
Proof. unfold account_ok. intros H (? & ? & ?). split_and!; eauto using fk_ok_mono. Qed.

Lemma sender_ok_mono t t' s :
  (forall k, is_Some (t !! k) -> is_Some (t' !! k)) -> sender_ok t s -> sender_ok t' s.
Proof. unfold sender_ok. auto. Qed.

(** The three writes that change a referenced table without losing a key. *)
Lemma dir_ok_credentials db t :
  dir_ok db -> table_ok cred_ID cred_Name credential_ok t ->
  (forall k, is_Some (oauth_credentials db !! k) -> is_Some (t !! k)) ->
  dir_ok (set_oauth_credentials t db).
Proof.
  intros [] Ht Hk. split; simpl; try done. eapply table_ok_impl; [|done]. intros k m _. by apply mailbox_ok_mono.
Qed.

Lemma dir_ok_mailboxes db t :
  dir_ok db -> table_ok mb_ID mb_Address (mailbox_ok (oauth_credentials db)) t ->
  (forall k, is_Some (mailboxes db !! k) -> is_Some (t !! k)) ->
  dir_ok (set_mailboxes t db).
Proof.
  intros [Hc Hm Ha Hl Hs Hg] Ht Hk. split; simpl; try done.
  - eapply table_ok_impl; [|done]. intros k m _. by apply account_ok_mono.
  - intros a b [??]%Hl. eauto.
  - intros k m [??]%Hg. eauto using fk_ok_mono.
Qed.

Lemma dir_ok_accounts db t :
  dir_ok db -> table_ok acc_ID acc_Username (account_ok (mailboxes db)) t ->
  (forall k, is_Some (smtp_accounts db !! k) -> is_Some (t !! k)) ->
  dir_ok (set_smtp_accounts t db).
Proof.
  intros [Hc Hm Ha Hl Hs Hg] Ht Hk. split; simpl; try done.
  - intros a b [??]%Hl. eauto.
  - eapply table_ok_impl; [|done]. intros k m _. by apply sender_ok_mono.
  - intros k m [??]%Hg. eauto using fk_ok_mono.
Qed.

(** *** Inserts *)

Lemma Credentials_Create_ok io now newID c db : dir_ok db -> dir_ok (Credentials_Create io now newID c db).2.
Proof.
  intros Hd. unfold Credentials_Create, exec. destruct io; [done|]. set (c' := credential_defaults _ _ _).
  destruct (insert_credential_error c' db) as [[]|] eqn:He; simpl; try done.
  apply insert_error_None in He as [[Hok Hu]%credential_error_None Hn].
  apply dir_ok_credentials; [done| |eauto with store].
  apply table_ok_insert; [by destruct Hd|done|done].
Qed.

Lemma Mailboxes_Create_ok io now newID m db : dir_ok db -> dir_ok (Mailboxes_Create io now newID m db).2.
Proof.
  intros Hd. unfold Mailboxes_Create, exec. destruct io; [done|]. set (m' := mailbox_defaults _ _ _).
  destruct (insert_mailbox_error m' db) as [[]|] eqn:He; simpl; try done.
  apply insert_error_None in He as [[Hok Hu]%mailbox_error_None Hn].
  apply dir_ok_mailboxes; [done| |eauto with store].
  apply table_ok_insert; [by destruct Hd|done|done].
Qed.

Lemma Accounts_Create_ok io now newID a db : dir_ok db -> dir_ok (Accounts_Create io now newID a db).2.
Proof.
  intros Hd. unfold Accounts_Create, exec. destruct io; [done|]. set (a' := account_defaults _ _ _).
  destruct (insert_account_error a' db) as [[]|] eqn:He; simpl; try done.
  apply insert_error_None in He as [[Hok Hu]%account_error_None Hn].
  apply dir_ok_accounts; [done| |eauto with store].
  apply table_ok_insert; [by destruct Hd|done|done].
Qed.

(** *** Updates *)

Lemma Credentials_Update_ok io now c db : dir_ok db -> dir_ok (Credentials_Update io now c db).2.
Proof.
  intros Hd. unfold Credentials_Update.
  write_cases Hw.
  destruct Hw as [[-> _]|(-> & _ & [Hok Hu]%credential_error_None & _)]; [done|].
  apply dir_ok_credentials; [done| |eauto with store].
  apply table_ok_update; [by destruct Hd|done|done|]. simpl. intros. naive_solver.
Qed.

Lemma Mailboxes_Update_ok io now m db : dir_ok db -> dir_ok (Mailboxes_Update io now m db).2.
Proof.
  intros Hd. unfold Mailboxes_Update.
  write_cases Hw.
  destruct Hw as [[-> _]|(-> & _ & [Hok Hu]%mailbox_error_None & _)]; [done|].
  apply dir_ok_mailboxes; [done| |eauto with store].
  apply table_ok_update; [by destruct Hd|done|done|]. simpl. intros. naive_solver.
Qed.

Lemma Accounts_Update_ok io now a db : dir_ok db -> dir_ok (Accounts_Update io now a db).2.
Proof.
  intros Hd. unfold Accounts_Update.
  write_cases Hw.
  destruct Hw as [[-> _]|(-> & _ & [Hok Hu]%account_error_None & _)]; [done|].
  apply dir_ok_accounts; [done| |eauto with store].
  apply table_ok_update; [by destruct Hd|done|done|]. simpl. intros. naive_solver.
Qed.

Lemma TouchLastUsed_ok io id at_ db : dir_ok db -> dir_ok (TouchLastUsed io id at_ db).2.
Proof.
  intros Hd. unfold TouchLastUsed, exec. destruct io; simpl; [done|].
  apply dir_ok_accounts; [done| |eauto with store]. unfold sql_update.
  eapply (table_ok_fmap _ _ (account_ok (mailboxes db))); [| | |by destruct Hd];
    intros r; by case_bool_decide.
Qed.

(** *** Deletes *)

Lemma sql_delete_id {R N} (id : R -> string) (name : R -> N) P t i k :
  table_ok id name P t -> k <> i -> is_Some (t !! k) ->
  is_Some (sql_delete (fun r => bool_decide (id r = i)) t !! k).
Proof.
  intros Ht Hk [r Hr]. exists r. apply lookup_sql_delete. split; [done|].
  apply bool_decide_eq_false_2. rewrite (to_id _ _ _ _ Ht _ _ Hr). done.
Qed.

Lemma Credentials_Delete_ok io id db : dir_ok db -> dir_ok (Credentials_Delete io id db).2.
Proof.
  intros Hd. unfold Credentials_Delete. write_cases Hw.
  destruct Hw as [[-> _]|(-> & _ & Hfk & _)]; [done|].
  destruct (exists_row _ _) eqn:He; [done|]. destruct Hd as [Hc Hm ????]. split; simpl; try done.
  - by apply table_ok_delete.
  - eapply table_ok_impl; [|exact Hm]. intros k m Hk (? & ? & ?). split_and!; [done..|].
    eapply sql_delete_id; [done| |done]. intros Heq. apply not_true_iff_false in He. apply He.
    apply exists_row_spec. exists k, m. split; [done|]. by apply bool_decide_eq_true_2.
Qed.

(** Deleting the row [i] and clearing the references to it. *)
Lemma clear_fk_delete {R N} (id : R -> string) (name : R -> N) P t i fk :
  table_ok id name P t -> fk_ok fk t = true ->
  fk_ok (clear_fk i fk) (sql_delete (fun r => bool_decide (id r = i)) t) = true.
Proof.
  intros Ht. apply clear_fk_ok. intros k r Hk Hi. bools. by rewrite <- (to_id _ _ _ _ Ht _ _ Hk).
Qed.

Lemma delete_mailbox_ok id db : dir_ok db -> dir_ok (delete_mailbox id db).
Proof.
  intros [Hc Hm Ha Hl Hs Hg]. split; simpl; try done.
  - by apply table_ok_delete.
  - eapply table_ok_fmap; [done|done| |done]. intros a (? & ? & ?). split_and!; [done..|]. simpl.
    by eapply clear_fk_delete.
  - intros a b [Hb [??]%Hl]%elem_of_filter. rewrite lookup_fmap, fmap_is_Some. split; [done|].
    by eapply sql_delete_id.
  - eapply table_ok_impl; [|done]. intros k s _. unfold sender_ok. by rewrite lookup_fmap, fmap_is_Some.
  - intros k m'. rewrite lookup_fmap, fmap_Some. intros (m & [??]%Hg & ->). simpl. split.
    + eapply fk_ok_mono; [|done]. intros ?. by rewrite lookup_fmap, fmap_is_Some.
    + by eapply clear_fk_delete.
Qed.

Lemma delete_account_ok id db : dir_ok db -> dir_ok (delete_account id db).
Proof.
  intros [Hc Hm Ha Hl Hs Hg]. split; simpl; try done.
  - by apply table_ok_delete.
  - intros a b [Hb [??]%Hl]%elem_of_filter. split; [|done]. by eapply sql_delete_id.
  - eapply (table_ok_impl _ _ (fun s => sender_ok (smtp_accounts db) s)); [|by apply table_ok_delete].
    intros k s [_ Hk]%lookup_sql_delete Hok. bools. by eapply sql_delete_id.
  - intros k m'. rewrite lookup_fmap, fmap_Some. intros (m & [??]%Hg & ->). simpl. split; [|done].
    by eapply clear_fk_delete.
Qed.

(** *** Replacing links and senders *)

Lemma InTx_cases {A} (fn : DB -> result StoreError A * DB) db :
  (exists e, InTx fn db = (Err e, db)) \/ (exists a db', fn db = (Ok a, db') /\ InTx fn db = (Ok a, db')).
Proof. unfold InTx. destruct (fn db) as [[a|e] db']; eauto. Qed.

Lemma dir_ok_links db l :
  dir_ok db ->
  (forall a b, (a, b) ∈ l -> is_Some (smtp_accounts db !! a) /\ is_Some (mailboxes db !! b)) ->
  dir_ok (set_account_mailboxes l db).
Proof. intros [] Hl. by split. Qed.

Lemma dir_ok_senders db t :
  dir_ok db ->
  table_ok as_ID (fun s => (as_SMTPAccountID s, as_Pattern s)) (sender_ok (smtp_accounts db)) t ->
  dir_ok (set_allowed_senders t db).
Proof. intros [] Hl. by split. Qed.

(** What a completed run of the link loop did. *)
Lemma insert_links_spec ios accountID ids seen db db' :
  insert_links ios accountID ids seen db = (Ok tt, db') ->
  exists l, db' = set_account_mailboxes l db
    /\ (forall p, p ∈ l <-> p ∈ smtp_account_mailboxes db \/ (p.1 = accountID /\ p.2 ∈ ids /\ p.2 ∉ seen))
    /\ (forall id, id ∈ ids -> id ∉ seen ->
          is_Some (smtp_accounts db !! accountID) /\ is_Some (mailboxes db !! id)).
Proof.
  revert ios seen db. induction ids as [|id ids IH]; simpl; intros ios seen db.
  { intros [= <-]. exists (smtp_account_mailboxes db). split; [by destruct db|]. set_solver. }
  case_bool_decide as Hseen.
  { intros (l & -> & Hl & Hr)%IH. exists l. split; [done|]. split; [|set_solver].
    intros p. rewrite Hl. set_solver. }
  destruct (ios 0%nat) as [e|]; simpl; [done|]. unfold insert_link_error.
  destruct (bool_decide (_ ∈ _)) eqn:Hdup; simpl; [done|].
  destruct (_ && _) eqn:Hfk; simpl; [|done]. bools.
  intros (l & -> & Hl & Hr)%IH. exists l. split; [done|]. split.
  - intros p. rewrite Hl. simpl. rewrite elem_of_union, elem_of_singleton.
    destruct p as [a b]; simpl. destruct (decide (b = id)) as [->|]; set_solver.
  - intros id' Hin Hns. destruct (decide (id' = id)) as [->|]; [done|]. apply Hr; set_solver.
Qed.

Lemma SetMailboxes_cases io ios accountID ids db :
  (exists e, SetMailboxes io ios accountID ids db = (Err e, db))
  \/ (exists l, SetMailboxes io ios accountID ids db = (Ok tt, set_account_mailboxes l db)
        /\ (forall a b, (a, b) ∈ l <->
              (a <> accountID /\ (a, b) ∈ smtp_account_mailboxes db) \/ (a = accountID /\ b ∈ ids))
        /\ (forall b, b ∈ ids -> is_Some (smtp_accounts db !! accountID) /\ is_Some (mailboxes db !! b))).
Proof.
  unfold SetMailboxes. match goal with |- context [InTx ?f db] => destruct (InTx_cases f db)
    as [?|([] & db' & Hf & ->)] end; [by left|]. right.
  destruct io; [done|]. apply insert_links_spec in Hf as (l & -> & Hl & Hr). simpl in *.
  exists l. split_and!; [by destruct db| |intros b Hb; apply Hr; set_solver].
  intros a b. rewrite Hl, elem_of_filter. simpl. set_solver.
Qed.

(** Without a driver failure only a missing row refuses a link. *)
Lemma insert_links_refused ios accountID ids seen db e db' :
  (forall n, ios n = None) -> (forall id, (accountID, id) ∈ smtp_account_mailboxes db -> id ∈ seen) ->
  insert_links ios accountID ids seen db = (Err e, db') ->
  exists id, id ∈ ids /\ (smtp_accounts db !! accountID = None \/ mailboxes db !! id = None).
Proof.
  revert ios seen db. induction ids as [|id ids IH]; simpl; intros ios seen db Hios Hseen; [done|].
  destruct (bool_decide (id ∈ seen)) eqn:Hin; bools.
  { intros (id' & ? & ?)%IH; [|intros ?; apply Hios|done]. exists id'. set_solver. }
  rewrite Hios. unfold insert_link_error. rewrite bool_decide_eq_false_2 by auto.
  destruct (_ && _) eqn:Hfk; simpl.
  - intros (id' & ? & ?)%IH; [|intros ?; apply Hios|set_solver]. exists id'. simpl in *. set_solver.
  - intros _. exists id. split; [left|].
    apply andb_false_iff in Hfk as [H|H]; bools; rewrite <- eq_None_not_Some in H; auto.
Qed.

Lemma SetMailboxes_refused io ios accountID ids db e db' :
  SetMailboxes io ios accountID ids db = (Err e, db') ->
  db' = db
  /\ (io = None -> (forall n, ios n = None) ->
      exists id, id ∈ ids /\ (smtp_accounts db !! accountID = None \/ mailboxes db !! id = None)).
Proof.
  unfold SetMailboxes, InTx. intros Hs. split.
  - destruct io; [by simplify_eq|]. destruct (insert_links _ _ _ _ _) as [[]?]; by simplify_eq.
  - intros -> Hios. destruct (insert_links _ _ _ _ _) as [[]?] eqn:Hl; [done|].
    apply insert_links_refused in Hl; [done|done|]. simpl. intros id. rewrite elem_of_filter. simpl. naive_solver.
Qed.

Lemma SetMailboxes_ok io ios accountID ids db : dir_ok db -> dir_ok (SetMailboxes io ios accountID ids db).2.
Proof.
  intros Hd. destruct (SetMailboxes_cases io ios accountID ids db) as [[e ->]|(l & -> & Hl & Hr)]; [done|].
  apply dir_ok_links; [done|]. intros a b [[? ?]|[-> ?]]%Hl; [by apply (do_links _ Hd)|by apply Hr].
Qed.

Lemma insert_senders_ok ios newIDs now accountID patterns seen db :
  dir_ok db -> dir_ok (insert_senders ios newIDs now accountID patterns seen db).2.
Proof.
  revert ios newIDs seen db. induction patterns as [|p patterns IH]; simpl; intros ios newIDs seen db Hd; [done|].
  case_bool_decide; [by apply IH|]. destruct (ios 0%nat); [done|]. unfold insert_sender_error. simpl.
  destruct (_ || _) eqn:Hu; [done|]. destruct (bool_decide (is_Some (_ !! accountID))) eqn:Hacc; [|done].
  simpl. apply bool_decide_eq_true in Hacc. apply orb_false_iff in Hu as [_ Hu%not_true_iff_false]. apply IH.
  apply dir_ok_senders; [done|]. set (s := mkAllowedSender _ _ _ _).
  apply (table_ok_insert as_ID _ _ _ s); [by destruct Hd|exact Hacc|]. intros k r Hk [= Ha Hp]. exfalso.
  apply Hu, exists_row_spec. exists k, r. split; [done|].
  rewrite !bool_decide_eq_true_2; done.
Qed.

Lemma SetAllowedSenders_ok io ios newIDs now accountID patterns db :
  dir_ok db -> dir_ok (SetAllowedSenders io ios newIDs now accountID patterns db).2.
Proof.
  intros Hd. unfold SetAllowedSenders. match goal with |- context [InTx ?f db] =>
    destruct (InTx_cases f db) as [[e ->]|(a & db' & Hf & ->)] end; [done|].
  destruct io; [done|]. simpl. change db' with ((@Ok StoreError unit a), db').2. rewrite <- Hf.
  apply insert_senders_ok, dir_ok_senders; [done|]. apply table_ok_delete. by destruct Hd.
Qed.

(** *** The queue's statements *)

Lemma step_op_tables op db :
  db_ok db ->
  oauth_credentials (step_op op db) = oauth_credentials db /\ mailboxes (step_op op db) = mailboxes db
  /\ smtp_accounts (step_op op db) = smtp_accounts db
  /\ smtp_account_mailboxes (step_op op db) = smtp_account_mailboxes db
  /\ allowed_senders (step_op op db) = allowed_senders db.
Proof.
  intros Hdb. destruct (step_op_cases op db Hdb) as [(p & f & _ & ->)|[(p & _ & ->)|(io & now & newID & m & body & ->)]];
    [done..|]. simpl. unfold Enqueue, InTx, exec, enqueueTx. destruct io; [done|].
  destruct (translateError _ _); [done|]. destruct body; [|done]. by case_bool_decide.
Qed.

Lemma insert_message_error_fk m db :
  insert_message_error m db = None ->
  fk_ok (m_SMTPAccountID m) (smtp_accounts db) = true /\ fk_ok (m_MailboxID m) (mailboxes db) = true.
Proof.
  unfold insert_message_error. destruct (negb _); [done|]. destruct (bool_decide _); [done|].
  destruct (_ && _) eqn:Hf; [|done]. intros _. by bools.
Qed.

Lemma step_op_dir_ok op db : db_ok db -> op_fresh op -> dir_ok db -> dir_ok (step_op op db).
Proof.
  intros Hdb Hf Hd. destruct (step_op_tables op db Hdb) as (E1 & E2 & E3 & E4 & E5).
  destruct Hd as [Hc Hm Ha Hl Hs Hg]. split; rewrite ?E1, ?E2, ?E3, ?E4, ?E5; try done.
  intros k m Hk. pose proof (step_op_row op db k Hdb Hf) as Hr. rewrite Hk in Hr. inversion Hr; subst.
  - eapply Hg; eauto.
  - destruct (step_op_cases op db Hdb) as [(p & f & _ & Heq)|[(p & _ & Heq)|(io & now & newID & m0 & body & ->)]].
    1: by rewrite Heq, messages_set_messages, lookup_sql_update, <- H in Hk.
    1: rewrite Heq in Hk; apply delete_messages_lookup in Hk as [Hk _]; eauto.
    simpl in Hk. destruct (Enqueue_cases io now newID m0 body db) as [[e He]|(_ & Hi & _ & He & _)];
      rewrite He in Hk; simpl in Hk; [by eauto|].
    apply lookup_insert_Some in Hk as [[<- <-]|[_ Hk]]; [by apply insert_message_error_fk|eauto].
  - match goal with H : Some ?m0 = messages db !! k |- _ => symmetry in H; apply Hg in H as [??] end.
    split; congruence.
Qed.

(** The queue's own invariant does not depend on the foreign keys. *)
Lemma db_ok_fmap f db db' :
  (forall k m, row_ok k m -> row_ok k (f m)) ->
  messages db' = f <$> messages db -> message_blobs db' = message_blobs db -> db_ok db -> db_ok db'.
Proof.
  intros Hf Hm Hb [H1 H2]. split; intros k x; rewrite Hm, ?Hb.
  - rewrite lookup_fmap, fmap_Some. intros (m & Hk & ->). eauto.
  - rewrite lookup_fmap, fmap_is_Some. eauto.
Qed.

Lemma db_ok_same db db' :
  messages db' = messages db -> message_blobs db' = message_blobs db -> db_ok db -> db_ok db'.
Proof. intros Hm Hb. apply (db_ok_fmap id); [done|by rewrite map_fmap_id|done]. Qed.

Lemma insert_senders_tables ios newIDs now accountID patterns seen db :
  messages (insert_senders ios newIDs now accountID patterns seen db).2 = messages db
  /\ message_blobs (insert_senders ios newIDs now accountID patterns seen db).2 = message_blobs db.
Proof.
  revert ios newIDs seen db. induction patterns as [|p patterns IH]; simpl; intros ios newIDs seen db; [done|].
  destruct (bool_decide _); [done|]. destruct (translateError _ _); [done|]. by rewrite !(proj1 (IH _ _ _ _)), !(proj2 (IH _ _ _ _)).
Qed.

(** The other tables stay, and no pattern is lost. *)
Lemma insert_senders_extends ios newIDs now id patterns seen db :
  let db' := (insert_senders ios newIDs now id patterns seen db).2 in
  allowed_senders db ⊆ allowed_senders db' /\ oauth_credentials db' = oauth_credentials db /\ mailboxes db' = mailboxes db /\
  smtp_accounts db' = smtp_accounts db /\ smtp_account_mailboxes db' = smtp_account_mailboxes db /\
  messages db' = messages db /\ message_blobs db' = message_blobs db.
Proof.
  revert ios newIDs seen db. induction patterns as [|p patterns IH]; intros ios newIDs seen db; simpl; [by split_and!|].
  case_bool_decide; [apply IH|]. destruct (ios 0%nat); [by split_and!|]. unfold insert_sender_error. simpl.
  destruct (bool_decide (is_Some (allowed_senders db !! _)) || _) eqn:Hu; [by split_and!|].
  destruct (bool_decide (is_Some (smtp_accounts db !! id))); [|by split_and!]. simpl.
  apply orb_false_iff in Hu as [Hu _]. apply bool_decide_eq_false in Hu.
  destruct (IH (ios ∘ S) (newIDs ∘ S) (p :: seen) (set_allowed_senders (<[newIDs 0%nat := mkAllowedSender (newIDs 0%nat) id p now]> (allowed_senders db)) db))
    as (H1 & H2 & H3 & H4 & H5 & H6 & H7). split_and!; try done. etrans; [|exact H1]. simpl. apply insert_subseteq. by apply eq_None_not_Some.
Qed.

Lemma SetAllowedSenders_tables io ios newIDs now accountID patterns db :
  let db' := (SetAllowedSenders io ios newIDs now accountID patterns db).2 in
  oauth_credentials db' = oauth_credentials db /\ mailboxes db' = mailboxes db /\ smtp_accounts db' = smtp_accounts db /\
  smtp_account_mailboxes db' = smtp_account_mailboxes db.
Proof.
  cbv zeta. unfold SetAllowedSenders. match goal with |- context [InTx ?f db] => destruct (InTx_cases f db) as [[e ->]|(a & db' & Hf & ->)] end; [done|].
  destruct io; [done|]. simpl. pose proof (insert_senders_extends ios newIDs now accountID patterns []
    (set_allowed_senders (sql_delete (fun s => bool_decide (as_SMTPAccountID s = accountID)) (allowed_senders db)) db)) as H.
  rewrite Hf in H. simpl in H. naive_solver.
Qed.

Lemma step_dir_db_ok op db : dir_fresh op -> db_ok db -> db_ok (step_dir op db).
Proof.
  intros Hf Hdb. destruct op; simpl in *.
  1,4,7: unfold Credentials_Create, Mailboxes_Create, Accounts_Create, exec; destruct io; [done|];
    simpl; destruct (translateError _ _); [done|]; by apply (db_ok_same db).
  1,2,3,5: unfold Credentials_Update, Credentials_Delete, Mailboxes_Update, Accounts_Update; write_cases Hw;
    destruct Hw as [[-> _]|[-> _]]; [done|]; by apply (db_ok_same db).
  - unfold Mailboxes_Delete. write_cases Hw. destruct Hw as [[-> _]|[-> _]]; [done|].
    apply (db_ok_fmap (fun m => set_m_MailboxID (clear_fk id (m_MailboxID m)) m) db); [|done..]. intros k m []. by split.
  - unfold TouchLastUsed, exec. destruct io; [done|]. by apply (db_ok_same db).
  - unfold Accounts_Delete. write_cases Hw. destruct Hw as [[-> _]|[-> _]]; [done|].
    apply (db_ok_fmap (fun m => set_m_SMTPAccountID (clear_fk id (m_SMTPAccountID m)) m) db); [|done..]. intros k m []. by split.
  - destruct (SetMailboxes_cases io ios id ids db) as [[e ->]|(l & -> & _)]; [done|]. by apply (db_ok_same db).
  - unfold SetAllowedSenders. match goal with |- context [InTx ?f db] =>
      destruct (InTx_cases f db) as [[e ->]|(a & db' & Hff & ->)] end; [done|]. destruct io; [done|]. simpl.
    change db' with ((@Ok StoreError unit a), db').2. rewrite <- Hff.
    eapply db_ok_same; [apply insert_senders_tables|apply insert_senders_tables|]. by apply (db_ok_same db).
  - by apply step_op_ok.
Qed.

Lemma step_dir_ok op db : dir_fresh op -> db_ok db -> dir_ok db -> dir_ok (step_dir op db).
Proof.
  intros Hf Hdb Hd. destruct op; simpl in *;
    auto using Credentials_Create_ok, Credentials_Update_ok, Credentials_Delete_ok, Mailboxes_Create_ok,
      Mailboxes_Update_ok, Accounts_Create_ok, Accounts_Update_ok, TouchLastUsed_ok, SetMailboxes_ok,
      SetAllowedSenders_ok, step_op_dir_ok.
  - unfold Mailboxes_Delete. write_cases Hw. destruct Hw as [[-> _]|[-> _]]; [done|]. by apply delete_mailbox_ok.
  - unfold Accounts_Delete. write_cases Hw. destruct Hw as [[-> _]|[-> _]]; [done|]. by apply delete_account_ok.
Qed.

Lemma empty_dir_ok : dir_ok empty_DB.
Proof. split; simpl; try apply table_ok_empty; set_solver. Qed.

Lemma run_dir_ok ops db :
  Forall dir_fresh ops -> dir_ok db /\ db_ok db -> dir_ok (run_dir ops db) /\ db_ok (run_dir ops db).
Proof.
  intros Hf. revert db. induction Hf as [|op ops Hop _ IH]; simpl; [done|].
  intros db [Hd Hdb]. apply IH. split; [by apply step_dir_ok|by apply step_dir_db_ok].
Qed.

(** ** Properties *)

(** C15: The database stays consistent under every interleaving of what the
    administrators, the bootstrap, the SMTP listener and the workers do to it:
    starting from a consistent database, after any sequence of repository and
    queue statements, failing ones included, no two credentials share a name,
    no two mailboxes an address and no two accounts a username, every mailbox
    has its credential, every link, default mailbox, allowed sender and
    message refers to rows that exist, and the queue's invariant holds. *)
Theorem directory_integrity ops db :
  dir_ok db -> db_ok db -> Forall dir_fresh ops -> dir_ok (run_dir ops db) /\ db_ok (run_dir ops db).
Proof.
  intros. by apply run_dir_ok.
Qed.

(** Replacing the mailboxes of an account is all or nothing. When it fails
    nothing has changed; when it succeeds, the mailboxes the account may send
    as are exactly the ones given and its default, other accounts' links are
    as before, and duplicates in the request do no harm: without a driver
    failure it succeeds exactly when every mailbox given exists and, if there
    is one, so does the account. *)
Theorem set_mailboxes_replaces `{Collation} io ios accountID ids db :
  match SetMailboxes io ios accountID ids db with
  | (Err _, db') => db' = db
      /\ (io = None -> (forall n, ios n = None) ->
          exists id, id ∈ ids /\ (smtp_accounts db !! accountID = None \/ mailboxes db !! id = None))
  | (Ok _, db') => exists l, ListForAccount None accountID db' = Ok l
      /\ (forall m, m ∈ l <-> exists k, mailboxes db !! k = Some m
            /\ (mb_ID m ∈ ids
                \/ exists a, smtp_accounts db !! accountID = Some a /\ acc_DefaultMailboxID a = Some (mb_ID m)))
      /\ (forall other b, other <> accountID ->
            (other, b) ∈ smtp_account_mailboxes db' <-> (other, b) ∈ smtp_account_mailboxes db)
      /\ messages db' = messages db
  end.
Proof.
  destruct (SetMailboxes io ios accountID ids db) as [[[]|e] db'] eqn:Hs.
  - destruct (SetMailboxes_cases io ios accountID ids db) as [[e He]|(l & He & Hl & _)];
      rewrite Hs in He; simplify_eq.
    eexists. split; [done|]. split_and!; [|naive_solver|done].
    intros m. rewrite elem_of_list_rows. simpl. unfold may_send_as. simpl.
    rewrite orb_true_iff, bool_decide_eq_true, Hl.
    destruct (smtp_accounts db !! accountID) as [a|]; rewrite ?bool_decide_eq_true; naive_solver.
  - by eapply SetMailboxes_refused.
Qed.

(** Deleting a mailbox loses no history: every message is still there,
    with every field but the reference to the mailbox as it was, every body is
    kept, and no account or link refers to the mailbox any more. *)
Theorem deleting_mailbox_keeps_history io id db db' :
  dir_ok db -> Mailboxes_Delete io id db = (Ok tt, db') ->
  (forall k, messages db' !! k
     = (fun m => if bool_decide (m_MailboxID m = Some id) then set_m_MailboxID None m else m) <$> messages db !! k)
  /\ message_blobs db' = message_blobs db
  /\ mailboxes db' !! id = None
  /\ (forall k a, smtp_accounts db' !! k = Some a -> acc_DefaultMailboxID a <> Some id)
  /\ (forall a, (a, id) ∉ smtp_account_mailboxes db').
Proof.
  intros Hd. unfold Mailboxes_Delete. write_cases Hw. intros [= -> ->].
  destruct Hw as [[_ ?]|[-> _]]; [done|]. simpl. split_and!; [|done| | |].
  - intros k. rewrite lookup_fmap. destruct (messages db !! k) as [m|]; simpl; [|done]. f_equal.
    unfold clear_fk. case_bool_decide; [done|by destruct m].
  - apply eq_None_not_Some. intros [m [Hm Hi]%lookup_sql_delete]. bools.
    by apply Hi, (to_id _ _ _ _ (do_mailboxes _ Hd)).
  - intros k a. rewrite lookup_fmap, fmap_Some. intros (a0 & _ & ->). simpl. unfold clear_fk.
    case_bool_decide; [done|by destruct (acc_DefaultMailboxID a0); congruence].
  - intros a. rewrite elem_of_filter. simpl. naive_solver.
Qed.

(** *** A small directory *)

Definition dir_credential : OAuthCredential :=
  mkOAuthCredential "c1" "tenant" "tid" "cid" AuthTypeSecret "" "" "" "" "" None (ManagedByOther "") 0 0.
Definition dir_mailbox : Mailbox :=
  mkMailbox "b1" "scan@x" "" "c1" (TransportOther "") None None true (ManagedByOther "") 0 0.
Definition dir_account : SMTPAccount :=
  mkSMTPAccount "" "printer" "hash" "" (Some "b1") (FromPolicyOther "") [] None true None (ManagedByOther "") 0 0.

Definition dir_message : Message :=
  mkMessage "" "m1" (Some "a1") (Some "b1") "printer" "scan@x" "scan@x" "scan@x" ["to@y"] 0 10 "" ""
    StatusUnset 0 0 None None "" "" false "" "" 0 None 0.

Definition dir_ops : list DirOp :=
  [DCreateCredential None 1 "x" dir_credential; DCreateMailbox None 2 "x" dir_mailbox;
   DCreateAccount None 3 "a1" dir_account; DSetMailboxes None (fun _ => None) "a1" ["b1"; "b1"];
   DQueue (OpEnqueue None 4 "x" dir_message (Some "body"))].

Definition dir_db : DB := run_dir dir_ops empty_DB.

Lemma dir_ops_fresh : Forall dir_fresh dir_ops.
Proof. repeat constructor; done. Qed.

Lemma directory_integrity_witness : dir_ok dir_db /\ db_ok dir_db.
Proof. apply (directory_integrity dir_ops empty_DB empty_dir_ok empty_db_ok dir_ops_fresh). Defined.

Lemma dir_db_ok : dir_ok dir_db.
Proof. apply run_dir_ok; [exact dir_ops_fresh|]. split; [exact empty_dir_ok|exact empty_db_ok]. Qed.

Lemma deleting_mailbox_keeps_history_witness :
  bool_decide (is_Some (messages dir_db !! "m1")) = true
  /\ mailboxes (Mailboxes_Delete None "b1" dir_db).2 !! "b1" = None.
Proof.
  split; [vm_compute; reflexivity|].
  refine (proj1 (proj2 (proj2 (deleting_mailbox_keeps_history None "b1" dir_db _ dir_db_ok _)))).
  assert ((Mailboxes_Delete None "b1" dir_db).1 = Ok tt) as H by (vm_compute; reflexivity).
  destruct (Mailboxes_Delete None "b1" dir_db) as [r db']. simpl in *. by rewrite H.
Defined.
