(* ===== verification/GoFloat.v ===== *)
(** * Floating point

    A finite Go [float64] is a rational number. Each operation yields the
    exact result rounded by [rnd], as IEEE 754 requires of a correctly rounded
    operation. The class states what is used of round-to-nearest-even in
    binary64 away from overflow: it is monotone, it fixes the integers up to
    2^53 and everything that is already representable, subtracting one from a
    representable number between 1 and 2^53 is exact, and a result is off by at
    most one part in 2^53 (results far above the subnormal range). *)

From Stdlib Require Import ZArith QArith Qround Lqa Lia.
From stdpp Require Import base tactics.

Open Scope Q_scope.

Definition ulp : Q := 1 # (2 ^ 53).

Lemma ulp_pos : 0 < ulp.
Proof. reflexivity. Qed.

Class Float64 := {
  rnd : Q -> Q;
  rnd_mono : forall x y, x <= y -> rnd x <= rnd y;
  rnd_int : forall z : Z, (Z.abs z <= 2 ^ 53)%Z -> rnd (inject_Z z) == inject_Z z;
  rnd_idem : forall x, rnd (rnd x) == rnd x;
  rnd_pred : forall x, rnd x == x -> 1 <= x -> x <= inject_Z (2 ^ 53) -> rnd (x - 1) == x - 1;
  rnd_err : forall x, 0 <= x -> rnd x <= x * (1 + ulp)
}.

(** Conversion to an integer: truncation towards zero. *)
Definition trunc (q : Q) : Z := Z.quot (Qnum q) (Zpos (Qden q)).

Definition Qle_b (x y : Q) : bool := Qle_bool x y.
Definition Qlt_b (x y : Q) : bool := negb (Qle_bool y x).

(** Exact arithmetic satisfies the laws; [Qred] keeps it executable. *)
Definition exact_float : Float64.
Proof.
  refine {| rnd := Qred |}; intros; rewrite ?Qred_correct; try reflexivity; try done.
  pose proof ulp_pos. nra.
Defined.

Section Float.
Context `{F : Float64}.

Lemma rnd_proper x y : x == y -> rnd x == rnd y.
Proof. intros H. apply Qle_antisym; apply rnd_mono; rewrite H; apply Qle_refl. Qed.

Lemma rnd_zero : rnd 0 == 0.
Proof. by rewrite (rnd_int 0). Qed.

Lemma rnd_one : rnd 1 == 1.
Proof. by rewrite (rnd_int 1). Qed.

Lemma rnd_nonneg x : 0 <= x -> 0 <= rnd x.
Proof. intros H. rewrite <- rnd_zero. by apply rnd_mono. Qed.

Lemma rnd_le_rep x y : rnd y == y -> x <= y -> rnd x <= y.
Proof. intros Hy H. rewrite <- Hy. by apply rnd_mono. Qed.

Lemma rnd_ge_rep x y : rnd y == y -> y <= x -> y <= rnd x.
Proof. intros Hy H. rewrite <- Hy. by apply rnd_mono. Qed.

End Float.

#[export] Instance rnd_Proper `{Float64} : Proper (Qeq ==> Qeq) rnd.
Proof. intros x y Hxy. by apply rnd_proper. Qed.

Lemma trunc_nonneg q : 0 <= q -> (0 <= trunc q)%Z /\ inject_Z (trunc q) <= q.
Proof.
  unfold trunc, Qle, inject_Z. destruct q as [n d]. simpl. intros H. split.
  - apply Z.quot_pos; lia.
  - rewrite Z.mul_1_r, Z.quot_div_nonneg by lia. rewrite Z.mul_comm. apply Z.mul_div_le. lia.
Qed.

Lemma trunc_le_int q z : 0 <= q -> q <= inject_Z z -> (trunc q <= z)%Z.
Proof.
  intros H0 Hz. destruct (trunc_nonneg q H0) as [_ H].
  rewrite Zle_Qle. by apply Qle_trans with q.
Qed.

Lemma Qle_b_spec x y : Qle_b x y = true <-> x <= y.
Proof. apply Qle_bool_iff. Qed.

Lemma Qlt_b_spec x y : Qlt_b x y = true <-> x < y.
Proof.
  unfold Qlt_b. rewrite negb_true_iff, <- not_true_iff_false, Qle_bool_iff. split.
  - apply Qnot_le_lt.
  - apply Qlt_not_le.
Qed.
