(* ===== verification/Backoff.v ===== *)
(** * Retry schedule

    [internal/queue/backoff.go]. The random source is an argument: [random] is
    what [randomValue] returns, a number in [0, 1). *)

From Stdlib Require Import ZArith QArith Qround Lqa Lia.
From stdpp Require Import base list.
From S2P Require Import Prelude GoFloat.

Open Scope Z_scope.

(** ** Definitions *)

Record Backoff := mkBackoff {
  Delays : list Z;
  Jitter : Q;
  MaxAttempts : Z;
  MaxAge : Z
}.

Definition DefaultDelays : list Z :=
  [Minute; 5 * Minute; 15 * Minute; Hour; 4 * Hour; 12 * Hour].

Definition clampJitter (j : Q) : Q :=
  if Qlt_b j 0 then 0%Q else if Qlt_b 1 j then 1%Q else j.

(** The entry of the schedule for this attempt; the last one repeats. *)
Definition base_delay (b : Backoff) (attempts : Z) : Z :=
  let delays := if bool_decide (Delays b = []) then DefaultDelays else Delays b in
  let index := attempts - 1 in
  let index := if index <? 0 then 0 else index in
  let index := if index >=? Z.of_nat (length delays) then Z.of_nat (length delays) - 1 else index in
  nth (Z.to_nat index) delays 0.

Section Schedule.
Context `{F : Float64}.

Definition delayFor (b : Backoff) (random : Q) (attempts : Z) : Z :=
  let delay := base_delay b attempts in
  if Qle_b (Jitter b) 0 then delay
  else
    let spread := rnd (rnd (inject_Z delay) * clampJitter (Jitter b)) in
    delay - trunc (rnd (spread * random)).

(** [None] is the [false] of the Go result. *)
Definition NextAttempt (b : Backoff) (random : Q) (now attempts receivedAt : Z) : option Z :=
  if (MaxAttempts b >? 0) && (attempts >=? MaxAttempts b) then None
  else
    let next := now + delayFor b random attempts in
    if (MaxAge b >? 0) && negb (IsZero receivedAt) && After next (receivedAt + MaxAge b) then None
    else Some next.

Definition NextAttemptAfter (b : Backoff) (random : Q) (now attempts receivedAt requested : Z)
  : option Z :=
  match NextAttempt b random now attempts receivedAt with
  | None => None
  | Some next =>
      if requested >? 0 then
        let asked := now + requested in
        if After asked next then Some asked else Some next
      else Some next
  end.

(** ** Lemmas *)

(** A configured schedule: durations of at most 2^53 ns, about 104 days. *)
Definition schedule_ok (b : Backoff) : Prop := Forall (fun d => 0 <= d <= 2 ^ 53) (Delays b).

Lemma base_delay_bounds b attempts : schedule_ok b -> 0 <= base_delay b attempts <= 2 ^ 53.
Proof.
  intros Hok. unfold base_delay.
  set (delays := if bool_decide _ then _ else _).
  assert (Forall (fun d => 0 <= d <= 2 ^ 53) delays) as Hd.
  { subst delays. case_bool_decide; [|exact Hok]. repeat constructor; vm_compute; discriminate. }
  cbv zeta. match goal with |- context [nth ?i delays 0] => generalize i end.
  intros n. destruct (le_lt_dec (length delays) n) as [Hn|Hn].
  - rewrite nth_overflow by done. lia.
  - rewrite Forall_forall in Hd. apply Hd. by apply list_elem_of_In, nth_In.
Qed.

Lemma clampJitter_bounds j : (0 <= clampJitter j <= 1)%Q.
Proof.
  unfold clampJitter. destruct (Qlt_b j 0) eqn:H0; [lra|].
  destruct (Qlt_b 1 j) eqn:H1; [lra|].
  apply not_true_iff_false in H0, H1. rewrite Qlt_b_spec in H0, H1. lra.
Qed.

(** Jitter only ever shortens the delay, and never below zero. *)
Lemma delayFor_bounds b random attempts :
  schedule_ok b -> (0 <= random <= 1)%Q -> 0 <= delayFor b random attempts <= base_delay b attempts.
Proof.
  intros Hok Hr. pose proof (base_delay_bounds b attempts Hok) as Hd.
  unfold delayFor. case_match; [lia|].
  set (d := base_delay b attempts) in *.
  pose proof (clampJitter_bounds (Jitter b)) as [Hj0 Hj1].
  assert (rnd (inject_Z d) == inject_Z d)%Q as Hrep by (apply rnd_int; lia).
  assert (0 <= inject_Z d)%Q as Hd0 by (change 0%Q with (inject_Z 0); rewrite <- Zle_Qle; lia).
  set (spread := rnd (rnd (inject_Z d) * clampJitter (Jitter b))).
  assert (0 <= spread)%Q as Hs0.
  { apply rnd_nonneg. rewrite Hrep. nra. }
  assert (spread <= inject_Z d)%Q as Hs1.
  { apply rnd_le_rep; [done|]. rewrite Hrep. nra. }
  assert (0 <= rnd (spread * random))%Q as Ht0 by (apply rnd_nonneg; nra).
  assert (rnd (spread * random) <= inject_Z d)%Q as Ht1.
  { apply rnd_le_rep; [done|]. nra. }
  pose proof (proj1 (trunc_nonneg _ Ht0)). pose proof (trunc_le_int _ _ Ht0 Ht1). lia.
Qed.

Lemma NextAttempt_spec b random now attempts receivedAt t :
  NextAttempt b random now attempts receivedAt = Some t ->
  t = now + delayFor b random attempts
  /\ (0 < MaxAttempts b -> attempts < MaxAttempts b)
  /\ (0 < MaxAge b -> receivedAt <> 0 -> t <= receivedAt + MaxAge b).
Proof.
  unfold NextAttempt, After, IsZero, time_zero.
  destruct ((MaxAttempts b >? 0) && (attempts >=? MaxAttempts b)) eqn:E1; [done|].
  destruct ((MaxAge b >? 0) && negb (receivedAt =? 0) && _) eqn:E2; [done|].
  intros [= <-]. split_and!; [done| |].
  - intros Hm. rewrite (proj2 (Z.gtb_lt _ _)) in E1 by lia. simpl in E1. bools. lia.
  - intros Hm Hr. rewrite (proj2 (Z.gtb_lt _ _)), (proj2 (Z.eqb_neq _ _)) in E2 by lia.
    simpl in E2. bools. lia.
Qed.

Lemma NextAttemptAfter_spec b random now attempts receivedAt requested t :
  NextAttemptAfter b random now attempts receivedAt requested = Some t ->
  exists u, NextAttempt b random now attempts receivedAt = Some u
    /\ t = (if requested >? 0 then Z.max u (now + requested) else u).
Proof.
  unfold NextAttemptAfter, After. destruct (NextAttempt _ _ _ _ _) as [u|]; [|done].
  intros H. exists u. split; [done|]. repeat case_match; simplify_eq; bools; lia.
Qed.

(** ** Properties *)

(** A retry is scheduled within its configured delay: jitter only brings
    it forward, never before the present; the attempt budget is respected;
    and a message is never scheduled past its maximum age by the proxy's own
    schedule. *)
Theorem retry_within_schedule b random now attempts receivedAt t :
  schedule_ok b -> (0 <= random <= 1)%Q ->
  NextAttempt b random now attempts receivedAt = Some t ->
  now <= t <= now + base_delay b attempts
  /\ (0 < MaxAttempts b -> attempts < MaxAttempts b)
  /\ (0 < MaxAge b -> receivedAt <> 0 -> t <= receivedAt + MaxAge b).
Proof.
  intros Hok Hr (-> & H1 & H2)%NextAttempt_spec.
  pose proof (delayFor_bounds b random attempts Hok Hr). split_and!; [lia|lia|done|done].
Qed.

(** The proxy never retries sooner than the upstream asked: a scheduled
    retry is at or after both its own schedule and the requested delay, and
    asking for a delay never turns a give-up into a retry or back. *)
Theorem upstream_delay_honored b random now attempts receivedAt requested :
  match NextAttemptAfter b random now attempts receivedAt requested,
        NextAttempt b random now attempts receivedAt with
  | Some t, Some u => u <= t /\ now + requested <= Z.max t now
                      /\ (t = u \/ t = now + requested)
  | None, None => True
  | _, _ => False
  end.
Proof.
  unfold NextAttemptAfter, After. destruct (NextAttempt _ _ _ _ _) as [u|]; [|done].
  repeat case_match; simplify_eq; bools; repeat split; lia.
Qed.
End Schedule.

Definition sample_backoff : Backoff := mkBackoff [Minute; 5 * Minute] (1 # 5) 3 (2 * Hour).

Lemma retry_within_schedule_witness :
  NextAttempt (F := exact_float) sample_backoff (1 # 2) 1000 1 900 = Some 54000001000
  /\ 1000 <= 54000001000 <= 1000 + base_delay sample_backoff 1
  /\ (0 < MaxAttempts sample_backoff -> 1 < MaxAttempts sample_backoff)
  /\ (0 < MaxAge sample_backoff -> 900 <> 0 -> 54000001000 <= 900 + MaxAge sample_backoff).
Proof.
  assert (NextAttempt (F := exact_float) sample_backoff (1 # 2) 1000 1 900 = Some 54000001000) as H.
  { vm_compute. reflexivity. }
  split; [exact H|].
  apply (retry_within_schedule (F := exact_float) sample_backoff (1 # 2)); [| |exact H].
  - repeat constructor; vm_compute; discriminate.
  - split; vm_compute; discriminate.
Defined.

(** The deadline is only checked against the proxy's own schedule: when the
    upstream asks for a long delay, a retry is scheduled after the message's
    maximum age, although [NextAttempt] says scheduling past the deadline "is
    the same as not retrying, and leaves the message looking alive when it is
    not". *)
Theorem requested_delay_escapes_max_age :
  exists b random now attempts receivedAt requested t,
    schedule_ok b /\ 0 < MaxAge b /\ receivedAt <> 0
    /\ NextAttemptAfter (F := exact_float) b random now attempts receivedAt requested = Some t
    /\ receivedAt + MaxAge b < t.
Proof.
  exists sample_backoff, 0%Q, 1000, 1, 900, (24 * Hour), (1000 + 24 * Hour).
  split_and!; [repeat constructor; vm_compute; discriminate|vm_compute; reflexivity|discriminate| |];
    vm_compute; reflexivity.
Qed.
