(* ===== verification/RateLimit.v ===== *)
(** * Per-mailbox pacing

    [internal/queue/ratelimit.go]: a token bucket for the rate and a semaphore
    for concurrency, per mailbox. Limiters are objects that deliveries keep
    pointing at after the map has moved on to a new one, so they live in a
    heap; [l_mailbox] maps a mailbox to the address of its current limiter.
    A buffered channel used as a semaphore is the number of its occupied
    slots and its capacity. *)

From Stdlib Require Import ZArith QArith Qround Lqa Lia.
From stdpp Require Import base gmap strings list.
From S2P Require Import Prelude GoFloat.

Open Scope Z_scope.

(** ** Definitions *)

Definition ExchangeMessagesPerMinute : Z := 30.
Definition ExchangeConcurrentConnections : Z := 3.

Record Budget := mkBudget { PerMinute : Z; MaxConcurrent : Z }.

#[export] Instance Budget_eq_dec : EqDecision Budget.
Proof. solve_decision. Defined.

Definition clamp (b : Budget) : Budget :=
  let pm := if (PerMinute b <=? 0) || (PerMinute b >? ExchangeMessagesPerMinute)
            then ExchangeMessagesPerMinute else PerMinute b in
  let mc := if MaxConcurrent b <=? 0 then 2 else MaxConcurrent b in
  let mc := if mc >? ExchangeConcurrentConnections then ExchangeConcurrentConnections else mc in
  mkBudget pm mc.

Record tokenBucket := mkBucket {
  perMinute : Z;
  tokens : Q;
  capacity : Q;
  last : Z
}.

Record mailboxLimiter := mkLimiter {
  bucket : tokenBucket;
  in_use : Z;      (* occupied slots of the semaphore *)
  slots : Z        (* cap(semaphore) *)
}.

Record Limiter := mkLimiters {
  l_heap : gmap positive mailboxLimiter;
  l_mailbox : gmap string positive;
  l_defaults : Budget
}.

Definition NewLimiter (defaults : Budget) : Limiter := mkLimiters ∅ ∅ (clamp defaults).

(** [effective]: a mailbox's overrides over the defaults. *)
Definition effective (l : Limiter) (b : Budget) : Budget :=
  clamp (mkBudget (if PerMinute b <=? 0 then PerMinute (l_defaults l) else PerMinute b)
                  (if MaxConcurrent b <=? 0 then MaxConcurrent (l_defaults l) else MaxConcurrent b)).

Definition newTokenBucket (perMinute now : Z) : tokenBucket :=
  mkBucket perMinute (inject_Z perMinute) (inject_Z perMinute) now.

Section Bucket.
Context `{F : Float64}.

(** [Duration.Minutes]: whole minutes plus the remaining nanoseconds. *)
Definition Minutes (d : Z) : Q :=
  rnd (rnd (inject_Z (d / Minute)) + rnd (rnd (inject_Z (d mod Minute)) / inject_Z Minute)).

Definition refill (b : tokenBucket) (now : Z) : tokenBucket :=
  if negb (After now (last b)) then b
  else
    let elapsed := now - last b in
    let t := rnd (tokens b + rnd (Minutes elapsed * rnd (inject_Z (perMinute b)))) in
    mkBucket (perMinute b) (if Qlt_b (capacity b) t then capacity b else t) (capacity b) now.

(** [take]: [(0, true)] is [(0, true)] of the code, [(d, false)] how long to wait. *)
Definition take_token (b : tokenBucket) (now : Z) : Z * bool * tokenBucket :=
  let b := refill b now in
  if Qle_b 1 (tokens b)
  then (0, true, mkBucket (perMinute b) (rnd (tokens b - 1)) (capacity b) (last b))
  else
    let missing := rnd (1 - tokens b) in
    let perToken := Minute / perMinute b in
    (trunc (rnd (missing * rnd (inject_Z perToken))), false, b).

(** How many of the calls [take_token] at the times [nows] get a token. *)
Fixpoint grants (b : tokenBucket) (nows : list Z) : Z * tokenBucket :=
  match nows with
  | [] => (0, b)
  | now :: rest =>
      let '(_, ok, b') := take_token b now in
      let '(n, b'') := grants b' rest in
      ((if ok then 1 else 0) + n, b'')
  end.
End Bucket.

Definition perMinute_of (ml : mailboxLimiter) : Z := perMinute (bucket ml).

(** [forMailbox]: the mailbox's limiter, rebuilt when its budget changed.
    [new] is the address the allocator hands out. *)
Definition forMailbox (new : positive) (now : Z) (id : string) (b : Budget) (l : Limiter)
  : positive * Limiter :=
  let eff := effective l b in
  let fresh := mkLimiter (newTokenBucket (PerMinute eff) now) 0 (MaxConcurrent eff) in
  let rebuilt := (new, mkLimiters (<[new := fresh]> (l_heap l)) (<[id := new]> (l_mailbox l)) (l_defaults l)) in
  match l_mailbox l !! id with
  | Some a =>
      match l_heap l !! a with
      | Some ml => if (perMinute_of ml =? PerMinute eff) && (slots ml =? MaxConcurrent eff)
                   then (a, l) else rebuilt
      | None => rebuilt
      end
  | None => rebuilt
  end.

(** [Forget] *)
Definition Forget (id : string) (l : Limiter) : Limiter :=
  mkLimiters (l_heap l) (delete id (l_mailbox l)) (l_defaults l).

Definition set_in_use (n : Z) (ml : mailboxLimiter) : mailboxLimiter :=
  mkLimiter (bucket ml) n (slots ml).

Definition set_bucket (b : tokenBucket) (ml : mailboxLimiter) : mailboxLimiter :=
  mkLimiter b (in_use ml) (slots ml).

(** The atomic actions of [Acquire] and of the release function it returns, on
    the limiter object the call holds: [semaphore <- struct{}{}], which blocks
    while the channel is full; [bucket.take]; [<-semaphore]. *)
Inductive limiter_step `{Float64} : Limiter -> Limiter -> Prop :=
| ls_forMailbox l new now id b :
    l_heap l !! new = None ->
    limiter_step l (forMailbox new now id b l).2
| ls_enter l a ml :
    l_heap l !! a = Some ml -> in_use ml < slots ml ->
    limiter_step l (mkLimiters (<[a := set_in_use (in_use ml + 1) ml]> (l_heap l)) (l_mailbox l) (l_defaults l))
| ls_take l a ml now :
    l_heap l !! a = Some ml ->
    limiter_step l (mkLimiters (<[a := set_bucket (take_token (bucket ml) now).2 ml]> (l_heap l))
                      (l_mailbox l) (l_defaults l))
| ls_leave l a ml :
    l_heap l !! a = Some ml -> 0 < in_use ml ->
    limiter_step l (mkLimiters (<[a := set_in_use (in_use ml - 1) ml]> (l_heap l)) (l_mailbox l) (l_defaults l))
| ls_forget l id : limiter_step l (Forget id l).

(** ** Invariants *)

Definition budget_ok (b : Budget) : Prop :=
  0 < PerMinute b <= ExchangeMessagesPerMinute
  /\ 0 < MaxConcurrent b <= ExchangeConcurrentConnections.

Definition bucket_ok `{Float64} (b : tokenBucket) : Prop :=
  0 < perMinute b <= ExchangeMessagesPerMinute
  /\ (capacity b == inject_Z (perMinute b))%Q
  /\ (0 <= tokens b <= capacity b)%Q /\ (rnd (tokens b) == tokens b)%Q.

Definition limiter_ok `{Float64} (ml : mailboxLimiter) : Prop :=
  bucket_ok (bucket ml) /\ 0 < slots ml <= ExchangeConcurrentConnections
  /\ 0 <= in_use ml <= slots ml.

Record Limiter_ok `{Float64} (l : Limiter) : Prop := {
  lo_heap : forall a ml, l_heap l !! a = Some ml -> limiter_ok ml;
  lo_defaults : budget_ok (l_defaults l);
  lo_mailbox : forall id a, l_mailbox l !! id = Some a -> is_Some (l_heap l !! a)
}.

(** ** Lemmas *)

Lemma clamp_ok b : budget_ok (clamp b).
Proof.
  unfold clamp, budget_ok, ExchangeMessagesPerMinute, ExchangeConcurrentConnections. simpl.
  split; repeat case_match; bools; repeat (apply orb_true_iff in H as [H|H]; bools); bools; try lia.
Qed.

(** A budget already within the limits is left alone. *)
Lemma clamp_id b : budget_ok b -> clamp b = b.
Proof.
  destruct b as [pm mc]. unfold clamp, budget_ok, ExchangeMessagesPerMinute, ExchangeConcurrentConnections.
  simpl. intros [H1 H2]. rewrite (proj2 (Z.leb_gt pm 0)), (proj2 (Z.leb_gt mc 0)) by lia. simpl.
  rewrite !Z.gtb_ltb, (proj2 (Z.ltb_ge 30 pm)), (proj2 (Z.ltb_ge 3 mc)) by lia. done.
Qed.

Lemma effective_ok l b : budget_ok (effective l b).
Proof. apply clamp_ok. Qed.

Section BucketLemmas.
Context `{F : Float64}.

Lemma newTokenBucket_ok pm now : 0 < pm <= ExchangeMessagesPerMinute -> bucket_ok (newTokenBucket pm now).
Proof.
  unfold bucket_ok, ExchangeMessagesPerMinute. simpl. intros H. split_and!; try lia; try reflexivity.
  - change 0%Q with (inject_Z 0). rewrite <- Zle_Qle. lia.
  - apply Qle_refl.
  - apply rnd_int. lia.
Qed.

Lemma Qdiv_nonneg x y : (0 <= x -> 0 < y -> 0 <= x / y)%Q.
Proof. intros Hx Hy. unfold Qdiv. apply Qmult_le_0_compat; [done|]. apply Qinv_le_0_compat. lra. Qed.

Lemma inject_Z_nonneg z : 0 <= z -> (0 <= inject_Z z)%Q.
Proof. intros H. change 0%Q with (inject_Z 0). by rewrite <- Zle_Qle. Qed.

Lemma Minute_pos : (0 < inject_Z Minute)%Q.
Proof. reflexivity. Qed.

Lemma Minutes_nonneg d : 0 <= d -> (0 <= Minutes d)%Q.
Proof.
  intros Hd. apply rnd_nonneg.
  assert (0 <= rnd (inject_Z (d / Minute)))%Q.
  { apply rnd_nonneg, inject_Z_nonneg, Z.div_pos; [done|reflexivity]. }
  assert (0 <= rnd (rnd (inject_Z (d mod Minute)) / inject_Z Minute))%Q.
  { apply rnd_nonneg, Qdiv_nonneg; [|apply Minute_pos].
    apply rnd_nonneg, inject_Z_nonneg, Z.mod_pos_bound. reflexivity. }
  lra.
Qed.

(** The rounded number of minutes is at most the exact one, up to rounding. *)
Lemma Minutes_upper d :
  0 <= d -> (Minutes d <= inject_Z d / inject_Z Minute * (1 + ulp) * (1 + ulp) * (1 + ulp))%Q.
Proof.
  intros Hd. unfold Minutes.
  set (q := inject_Z (d / Minute)). set (r := inject_Z (d mod Minute)).
  assert (0 <= q)%Q as Hq by (apply inject_Z_nonneg, Z.div_pos; [done|reflexivity]).
  assert (0 <= r)%Q as Hr by (apply inject_Z_nonneg, Z.mod_pos_bound; reflexivity).
  assert (inject_Z d / inject_Z Minute == q + r / inject_Z Minute)%Q as ->.
  { subst q r. rewrite (Z.div_mod d Minute) at 1 by discriminate.
    rewrite inject_Z_plus, inject_Z_mult. field. discriminate. }
  clearbody q r.
  pose proof (rnd_err q Hq) as Eq. pose proof (rnd_err r Hr) as Er.
  assert (0 <= rnd r)%Q as Hr' by (by apply rnd_nonneg).
  pose proof (rnd_err (rnd r / inject_Z Minute) (Qdiv_nonneg _ _ Hr' Minute_pos)) as Ef.
  assert (rnd r / inject_Z Minute <= r / inject_Z Minute * (1 + ulp))%Q as Ef2.
  { unfold Qdiv. rewrite <- (Qmult_assoc r), (Qmult_comm (/ _)), Qmult_assoc.
    apply Qmult_le_compat_r; [done|]. apply Qinv_le_0_compat, Qlt_le_weak, Minute_pos. }
  pose proof (Qdiv_nonneg r _ Hr Minute_pos) as Hf0.
  set (f := (r / inject_Z Minute)%Q) in *. clearbody f.
  assert (0 < ulp)%Q as Hu by reflexivity.
  assert (0 <= rnd q)%Q as Hq' by (by apply rnd_nonneg).
  assert (0 <= rnd (rnd r / inject_Z Minute))%Q as Hf' by (apply rnd_nonneg, Qdiv_nonneg; [done|apply Minute_pos]).
  assert (0 <= rnd q + rnd (rnd r / inject_Z Minute))%Q as Hsum by lra.
  pose proof (rnd_err _ Hsum) as Es.
  eapply Qle_trans; [exact Es|]. apply Qmult_le_compat_r; [|lra].
  eapply Qle_trans; [apply Qplus_le_compat; [exact Eq|exact Ef]|].
  assert (0 <= q * ulp)%Q by (apply Qmult_le_0_compat; lra).
  assert (0 <= q * ulp * ulp)%Q by (apply Qmult_le_0_compat; lra).
  assert (rnd r / inject_Z Minute * (1 + ulp) <= f * (1 + ulp) * (1 + ulp))%Q.
  { apply Qmult_le_compat_r; [done|lra]. }
  lra.
Qed.

Lemma pm_rep b : bucket_ok b -> (rnd (inject_Z (perMinute b)) == inject_Z (perMinute b))%Q.
Proof. intros (H & _). unfold ExchangeMessagesPerMinute in H. apply rnd_int. lia. Qed.

Lemma capacity_rep b : bucket_ok b -> (rnd (capacity b) == capacity b)%Q.
Proof. intros Hb. pose proof (pm_rep b Hb) as Hp. destruct Hb as (_ & Hc & _). by rewrite Hc. Qed.

Lemma pm_nonneg b : bucket_ok b -> (0 <= inject_Z (perMinute b))%Q.
Proof. intros (H & _). apply inject_Z_nonneg. lia. Qed.

Lemma refill_ok b now : bucket_ok b -> bucket_ok (refill b now).
Proof.
  intros Hb. pose proof (capacity_rep b Hb) as Hcr. pose proof (pm_nonneg b Hb) as Hp.
  pose proof (pm_rep b Hb) as Hpr. unfold refill. case_match eqn:E; [done|].
  destruct Hb as (H1 & H2 & [H3 H4] & H5). unfold After in E. bools.
  split_and!; simpl; try done; try lia.
  - case_match; [by rewrite H2|]. apply rnd_nonneg.
    assert (0 <= rnd (Minutes (now - last b) * rnd (inject_Z (perMinute b))))%Q; [|lra].
    apply rnd_nonneg. rewrite Hpr. apply Qmult_le_0_compat; [|done]. apply Minutes_nonneg. lia.
  - case_match eqn:Hlt; [lra|]. apply not_true_iff_false in Hlt. rewrite Qlt_b_spec in Hlt. lra.
  - case_match; [done|]. apply rnd_idem.
Qed.

Lemma refill_last b now : last (refill b now) = Z.max (last b) now.
Proof. unfold refill, After. case_match; bools; simpl; lia. Qed.

Lemma refill_static b now :
  perMinute (refill b now) = perMinute b /\ capacity (refill b now) = capacity b.
Proof. unfold refill. by case_match. Qed.

(** Five roundings separate the refill from the exact increment. *)
Definition slack : Q := (1 + ulp) * (1 + ulp) * (1 + ulp) * (1 + ulp) * (1 + ulp).

Lemma refill_gain b now :
  bucket_ok b ->
  (tokens (refill b now) <= tokens b
     + inject_Z (last (refill b now) - last b) / inject_Z Minute * inject_Z (perMinute b) * slack
     + capacity b * ulp)%Q.
Proof.
  intros Hb. pose proof (pm_nonneg b Hb) as Hp. pose proof (pm_rep b Hb) as Hpr.
  pose proof ulp_pos as Hu. rewrite refill_last.
  destruct Hb as (H1 & H2 & [H3 H4] & H5).
  assert (0 <= capacity b * ulp)%Q as Hcu by (apply Qmult_le_0_compat; lra).
  unfold refill, After. destruct (last b <? now) eqn:E; simpl; bools.
  2:{ replace (Z.max (last b) now - last b) with 0 by lia. unfold Qdiv. change (inject_Z 0) with 0%Q. lra. }
  replace (Z.max (last b) now - last b) with (now - last b) by lia.
  set (d := now - last b). assert (0 <= d) as Hd by lia.
  pose proof (Minutes_upper d Hd) as HM. pose proof (Minutes_nonneg d Hd) as HM0.
  set (x := (inject_Z d / inject_Z Minute)%Q) in *.
  assert (0 <= Minutes d * rnd (inject_Z (perMinute b)))%Q as Hg0.
  { rewrite Hpr. by apply Qmult_le_0_compat. }
  pose proof (rnd_err _ Hg0) as Hg. rewrite Hpr in Hg at 2.
  pose proof (rnd_nonneg _ Hg0) as Hg1. set (g := rnd _) in Hg, Hg1 |- *.
  set (pm := inject_Z (perMinute b)) in *. clearbody g x pm.
  assert (g <= x * pm * (1 + ulp) * (1 + ulp) * (1 + ulp) * (1 + ulp))%Q as Hgx.
  { eapply Qle_trans; [exact Hg|].
    assert (Minutes d * pm * (1 + ulp) <= x * (1 + ulp) * (1 + ulp) * (1 + ulp) * pm * (1 + ulp))%Q.
    { apply Qmult_le_compat_r; [|lra]. by apply Qmult_le_compat_r. }
    lra. }
  assert (0 <= tokens b + g)%Q as Hs0 by lra. pose proof (rnd_err _ Hs0) as Hs.
  assert (rnd (tokens b + g) <= tokens b + x * pm * slack + capacity b * ulp)%Q as Hfin.
  { eapply Qle_trans; [exact Hs|]. unfold slack.
    assert (g * (1 + ulp) <= x * pm * (1 + ulp) * (1 + ulp) * (1 + ulp) * (1 + ulp) * (1 + ulp))%Q
      by (apply Qmult_le_compat_r; [done|lra]).
    assert (tokens b * ulp <= capacity b * ulp)%Q by (apply Qmult_le_compat_r; lra). lra. }
  case_match eqn:Hlt; [|done]. rewrite Qlt_b_spec in Hlt. lra.
Qed.

Lemma take_token_ok b now : bucket_ok b -> bucket_ok (take_token b now).2.
Proof.
  intros Hb%(refill_ok b now). unfold take_token. case_match eqn:E; simpl; [|done].
  rewrite Qle_b_spec in E. destruct Hb as (H1 & H2 & [H3 H4] & H5).
  assert (capacity (refill b now) <= inject_Z (2 ^ 53))%Q as Hc.
  { rewrite H2, <- Zle_Qle. unfold ExchangeMessagesPerMinute in H1. lia. }
  assert (rnd (tokens (refill b now) - 1) == tokens (refill b now) - 1)%Q as Hr.
  { apply rnd_pred; [done|done|lra]. }
  split_and!; simpl; try done; try lia; rewrite Hr; try lra.
Qed.

Lemma take_token_gain b now :
  bucket_ok b ->
  let '(_, ok, b') := take_token b now in
  ((if ok then 1 else 0) + tokens b' <= tokens b
     + inject_Z (last b' - last b) / inject_Z Minute * inject_Z (perMinute b) * slack
     + capacity b * ulp)%Q
  /\ perMinute b' = perMinute b /\ capacity b' = capacity b.
Proof.
  intros Hb. pose proof (refill_gain b now Hb) as Hg. pose proof (refill_ok b now Hb) as Hok.
  destruct (refill_static b now) as [Hs1 Hs2]. unfold take_token.
  destruct Hok as (H1 & H2 & [H3 H4] & H5).
  destruct (Qle_b 1 (tokens (refill b now))) eqn:E; simpl; (split; [|done]); [|lra].
  rewrite Qle_b_spec in E.
  assert (capacity (refill b now) <= inject_Z (2 ^ 53))%Q as Hc.
  { rewrite H2, <- Zle_Qle. unfold ExchangeMessagesPerMinute in H1. lia. }
  rewrite (rnd_pred (tokens (refill b now))) by (done || lra). lra.
Qed.

Lemma grants_bound b nows :
  bucket_ok b ->
  let '(n, b') := grants b nows in
  (inject_Z n + tokens b' <= tokens b
     + inject_Z (last b' - last b) / inject_Z Minute * inject_Z (perMinute b) * slack
     + inject_Z (Z.of_nat (length nows)) * (capacity b * ulp))%Q
  /\ (0 <= tokens b')%Q.
Proof.
  revert b. induction nows as [|now nows IH]; intros b Hb; simpl.
  { destruct Hb as (_ & _ & [H3 _] & _). split; [|done].
    replace (last b - last b) with 0 by lia. unfold Qdiv. change (Z.of_nat 0) with 0. change (inject_Z 0) with 0%Q. lra. }
  pose proof (take_token_gain b now Hb) as Hg. pose proof (take_token_ok b now Hb) as Hok.
  destruct (take_token b now) as [[dd ok] b1]. simpl in Hok. destruct Hg as (Hg & Hp & Hc).
  specialize (IH b1 Hok). destruct (grants b1 nows) as [n b2]. destruct IH as [IH H0].
  rewrite Hp, Hc in IH. split; [|done].
  replace (Z.of_nat (S (length nows))) with (Z.of_nat (length nows) + 1) by lia.
  replace (last b2 - last b) with ((last b2 - last b1) + (last b1 - last b)) by lia.
  rewrite !inject_Z_plus. unfold Qdiv in *.
  destruct ok; change (inject_Z 1) with 1%Q; change (inject_Z 0) with 0%Q; lra.
Qed.
End BucketLemmas.

Section Steps.
Context `{F : Float64}.

Lemma heap_insert_ok l a ml (mm : gmap string positive) :
  Limiter_ok l -> limiter_ok ml ->
  (forall id x, mm !! id = Some x -> x = a \/ l_mailbox l !! id = Some x) ->
  Limiter_ok (mkLimiters (<[a := ml]> (l_heap l)) mm (l_defaults l)).
Proof.
  intros [H1 H2 H3] Hml Hmm. split; simpl; [|done|].
  - intros a' ml' [[_ <-]|[_ ?]]%lookup_insert_Some; eauto.
  - intros id x Hx. rewrite lookup_insert. case_decide; [by eexists|].
    destruct (Hmm id x Hx); [congruence|eauto].
Qed.

Lemma limiter_step_ok l l' : Limiter_ok l -> limiter_step l l' -> Limiter_ok l'.
Proof.
  intros Hl Hs. destruct Hs as [l new now id b Hnew|l a ml Ha Hlt|l a ml now Ha|l a ml Ha Hpos|l id].
  - assert (limiter_ok (mkLimiter (newTokenBucket (PerMinute (effective l b)) now) 0
              (MaxConcurrent (effective l b)))) as Hf.
    { destruct (effective_ok l b) as [Hp Hc]. split; [by apply newTokenBucket_ok|]. cbn [slots in_use]. lia. }
    unfold forMailbox. repeat case_match; simpl; try done;
      (apply heap_insert_ok; [done|done|]; intros id' x [[_ <-]|[_ ?]]%lookup_insert_Some; auto).
  - destruct (lo_heap _ Hl _ _ Ha) as (Hb & Hs & Hu).
    apply heap_insert_ok; [done| |auto]. split; [exact Hb|]. simpl. lia.
  - destruct (lo_heap _ Hl _ _ Ha) as (Hb & Hs & Hu).
    apply heap_insert_ok; [done| |auto]. split; [by apply take_token_ok|done].
  - destruct (lo_heap _ Hl _ _ Ha) as (Hb & Hs & Hu).
    apply heap_insert_ok; [done| |auto]. split; [exact Hb|]. simpl. lia.
  - destruct Hl as [H1 H2 H3]. split; simpl; eauto. intros i a [_ ?]%lookup_delete_Some. eauto.
Qed.

Lemma NewLimiter_ok d : Limiter_ok (NewLimiter d).
Proof. split; simpl; [done|apply clamp_ok|done]. Qed.

(** ** Properties *)

(** However budgets are configured and however deliveries interleave, every
    limiter object ever built keeps within Exchange Online's limits: its rate
    is between 1 and 30 a minute, its bucket holds between 0 and that many
    tokens, and at most 3 deliveries hold one of its slots. *)
Theorem limiter_within_exchange_limits defaults l a ml :
  rtc limiter_step (NewLimiter defaults) l -> l_heap l !! a = Some ml ->
  0 < perMinute (bucket ml) <= 30 /\ (0 <= tokens (bucket ml) <= inject_Z (perMinute (bucket ml)))%Q
  /\ 0 <= in_use ml <= slots ml /\ slots ml <= 3.
Proof.
  intros Hrtc Ha.
  assert (Limiter_ok l) as Hl.
  { revert Hrtc. generalize (NewLimiter_ok defaults). generalize (NewLimiter defaults).
    intros l0 Hl0 Hr. induction Hr; eauto using limiter_step_ok. }
  destruct (lo_heap _ Hl _ _ Ha) as ((H1 & H2 & H3 & _) & H4 & H5).
  rewrite H2 in H3. unfold ExchangeMessagesPerMinute, ExchangeConcurrentConnections in *.
  split_and!; try lia; apply H3.
Qed.

(** C39: The sustained rate stays within the budget: over any sequence of calls,
    the number of messages let through is at most one full bucket plus the
    rate times the elapsed time, up to floating-point rounding (five roundings
    on the rate, one part in 2^53 of the capacity per call). *)
Theorem rate_is_bounded b nows :
  bucket_ok b ->
  let '(n, b') := grants b nows in
  (inject_Z n <= capacity b
     + inject_Z (last b' - last b) / inject_Z Minute * inject_Z (perMinute b) * slack
     + inject_Z (Z.of_nat (length nows)) * (capacity b * ulp))%Q.
Proof.
  intros Hb. pose proof (grants_bound b nows Hb) as H. destruct (grants b nows) as [n b'].
  destruct H as [H H0]. destruct Hb as (_ & _ & [_ Hc] & _). lra.
Qed.

(** A caller that finds no token is told to wait at most the time one token
    takes to arrive. *)
Theorem wait_is_short b now d b' :
  bucket_ok b -> take_token b now = (d, false, b') -> 0 <= d <= Minute / perMinute b.
Proof.
  intros Hb. pose proof (refill_ok b now Hb) as Hok. destruct (refill_static b now) as [Hs _].
  unfold take_token. destruct (Qle_b 1 (tokens (refill b now))) eqn:E; [done|].
  intros [= <- <-]. rewrite Hs.
  apply not_true_iff_false in E. rewrite Qle_b_spec in E.
  destruct Hb as (Hp & _). unfold ExchangeMessagesPerMinute in Hp.
  destruct Hok as (_ & _ & [H3 _] & _).
  set (per := Minute / perMinute b).
  assert (0 <= per <= 2 ^ 53) as Hper.
  { split; [apply Z.div_pos; [discriminate|lia]|].
    apply Z.le_trans with Minute; [|discriminate]. apply Z.div_le_upper_bound; [lia|].
    assert (0 < Minute) by reflexivity. nia. }
  assert (rnd (inject_Z per) == inject_Z per)%Q as Hrep by (apply rnd_int; lia).
  pose proof (inject_Z_nonneg per ltac:(lia)) as Hq.
  assert (rnd (1 - tokens (refill b now)) <= 1)%Q as Hm1 by (apply rnd_le_rep; [apply rnd_one|lra]).
  assert (0 <= rnd (1 - tokens (refill b now)))%Q as Hm0 by (apply rnd_nonneg; lra).
  set (x := rnd (1 - _)) in *.
  assert (0 <= rnd (x * rnd (inject_Z per)))%Q as Hx0.
  { apply rnd_nonneg. rewrite Hrep. by apply Qmult_le_0_compat. }
  assert (rnd (x * rnd (inject_Z per)) <= inject_Z per)%Q as Hx1.
  { apply rnd_le_rep; [done|]. rewrite Hrep. nra. }
  split; [by apply trunc_nonneg|by apply trunc_le_int].
Qed.
End Steps.

(** ** Witnesses and the burst *)

Definition sample_bucket : tokenBucket := newTokenBucket 30 0.

Lemma sample_bucket_ok : bucket_ok (H := exact_float) sample_bucket.
Proof. apply newTokenBucket_ok. by unfold ExchangeMessagesPerMinute. Qed.

Definition sample_limiter : Limiter := (forMailbox 1 0 "mb" (mkBudget 50 9) (NewLimiter (mkBudget 0 0))).2.

Lemma limiter_within_exchange_limits_witness :
  0 < perMinute (newTokenBucket 30 0) <= 30
  /\ (0 <= tokens (newTokenBucket 30 0) <= inject_Z (perMinute (newTokenBucket 30 0)))%Q
  /\ 0 <= 0 <= 3 /\ 3 <= 3.
Proof.
  apply (limiter_within_exchange_limits (F := exact_float) (mkBudget 0 0) sample_limiter 1
    (mkLimiter (newTokenBucket 30 0) 0 3)); [|vm_compute; reflexivity].
  eapply rtc_l; [|apply rtc_refl]. by apply ls_forMailbox.
Defined.

Definition sample_calls : list Z := [0; 0; Second].

Lemma rate_is_bounded_witness :
  let '(n, b') := grants (F := exact_float) sample_bucket sample_calls in
  (inject_Z n <= capacity sample_bucket
     + inject_Z (last b' - last sample_bucket) / inject_Z Minute * inject_Z (perMinute sample_bucket) * slack
     + inject_Z (Z.of_nat (length sample_calls)) * (capacity sample_bucket * ulp))%Q.
Proof. apply (rate_is_bounded (F := exact_float) sample_bucket sample_calls sample_bucket_ok). Defined.

Definition drained_bucket : tokenBucket := mkBucket 30 (1 # 2) 30 0.

Lemma wait_is_short_witness : 0 <= Second <= Minute / perMinute drained_bucket.
Proof.
  apply (wait_is_short (F := exact_float) drained_bucket 0 Second drained_bucket).
  - unfold bucket_ok, ExchangeMessagesPerMinute. simpl. repeat split; vm_compute; discriminate.
  - vm_compute. reflexivity.
Defined.

(** Thirty calls at once, then one every two seconds. *)
Definition burst : list Z := repeat 0 30 ++ ((fun k => 2 * Second * Z.of_nat k) <$> seq 1 29).

(** The bucket does not keep a mailbox below Exchange's 30 messages in a
    minute: a full bucket at the maximum rate lets 59 messages through in 58
    seconds, because the burst of a whole minute's budget comes on top of the
    continuous refill. *)
Theorem burst_exceeds_exchange_limit :
  exists b', grants (F := exact_float) sample_bucket burst = (59, b')
    /\ last b' - last sample_bucket < Minute /\ ExchangeMessagesPerMinute < 59.
Proof. eexists. split; [vm_compute; reflexivity|]. split; reflexivity. Qed.

Definition slots_used (l : Limiter) (a : positive) : Z :=
  match l_heap l !! a with Some ml => in_use ml | None => 0 end.

(** One delivery takes a slot of the limiter at [a]. *)
Definition enter (a : positive) (l : Limiter) : Limiter :=
  match l_heap l !! a with
  | Some ml => mkLimiters (<[a := set_in_use (in_use ml + 1) ml]> (l_heap l)) (l_mailbox l) (l_defaults l)
  | None => l
  end.

Lemma enter_step `{Float64} a l ml :
  l_heap l !! a = Some ml -> in_use ml < slots ml -> limiter_step l (enter a l).
Proof. intros Ha Hlt. unfold enter. rewrite Ha. by apply ls_enter. Qed.

(** Three deliveries of one mailbox are in flight. *)
Definition three_in_flight : Limiter := enter 1 (enter 1 (enter 1 sample_limiter)).

(** The operator then lowers the mailbox's budget to two connections. *)
Definition after_change : Limiter := enter 2 (enter 2 (forMailbox 2 0 "mb" (mkBudget 50 2) three_in_flight).2).

(** Rebuilding a limiter after a budget change is not "harmless": the three
    deliveries that hold the old semaphore and two that enter the new one are
    in flight together, five connections for one mailbox where Exchange allows
    three. *)
Theorem rebuild_exceeds_concurrency :
  rtc (limiter_step (H := exact_float)) (NewLimiter (mkBudget 0 0)) three_in_flight
  /\ l_mailbox three_in_flight !! "mb" = Some 1%positive
  /\ rtc (limiter_step (H := exact_float)) three_in_flight after_change
  /\ l_mailbox after_change !! "mb" = Some 2%positive
  /\ ExchangeConcurrentConnections < slots_used after_change 1 + slots_used after_change 2.
Proof.
  split_and!; try reflexivity.
  - eapply rtc_l; [by apply (ls_forMailbox (H := exact_float) _ 1 0 "mb" (mkBudget 50 9))|].
    do 3 (eapply rtc_l; [eapply (enter_step 1); vm_compute; reflexivity|]). apply rtc_refl.
  - eapply rtc_l; [by apply (ls_forMailbox (H := exact_float) _ 2 0 "mb" (mkBudget 50 2))|].
    do 2 (eapply rtc_l; [eapply (enter_step 2); vm_compute; reflexivity|]). apply rtc_refl.
Qed.
