(* ===== verification/Transport.v ===== *)
(** * Delivery to Microsoft 365

    [internal/transport]: the classified delivery error, and the two backends,
    [smtprelay] (SMTP with SASL XOAUTH2) and [graph] (the sendMail API).

    The upstream server, the SMTP client library, the HTTP client and the token
    source are parameters: [SMTPUpstream] is what each call on the SMTP client
    returns, [HTTPResponse] what Graph answered. A run of the relay also
    yields the commands it issued, in order. *)

From stdpp Require Import base gmap strings list.
From Stdlib Require Import ZArith Lia Ascii.
From S2P Require Import Prelude GoStrings StoreModels.

Open Scope Z_scope.

(** ** Errors *)

(** [transport.Error], without its cause. *)
Record TransportError := mkTransportError {
  e_Code : string;
  e_Message : string;
  e_Permanent : bool;
  e_RetryAfter : Z;
  e_Auth : bool
}.

(** A Go error: a [*transport.Error] with its cause, an SMTP status reported by
    the client library (with the text its [Error] method renders), an error
    that wraps another, or any other error, known by its text. *)
Inductive GoError :=
| ETransport (e : TransportError) (cause : option GoError)
| ESMTP (status : Z) (enhanced : Z * Z * Z) (message text : string)
| EWrap (prefix : string) (inner : GoError)
| EOther (text : string).

(** [err.Error()] *)
Fixpoint error_text (err : GoError) : string :=
  match err with
  | ETransport e _ =>
      if bool_decide (e_Code e = "") then e_Message e else e_Code e +:+ ": " +:+ e_Message e
  | ESMTP _ _ _ text => text
  | EWrap prefix inner => prefix +:+ error_text inner
  | EOther text => text
  end.

(** [errors.As(err, &terr)] for [*transport.Error]. *)
Fixpoint as_transport (err : GoError) : option TransportError :=
  match err with
  | ETransport e _ => Some e
  | EWrap _ inner => as_transport inner
  | _ => None
  end.

(** [errors.As(err, &smtpErr)] for [*smtp.SMTPError]. *)
Fixpoint as_smtp (err : GoError) : option (Z * (Z * Z * Z) * string) :=
  match err with
  | ESMTP status enhanced message _ => Some (status, enhanced, message)
  | ETransport _ (Some cause) => as_smtp cause
  | EWrap _ inner => as_smtp inner
  | _ => None
  end.

Definition IsPermanent (err : GoError) : bool :=
  match as_transport err with Some e => e_Permanent e | None => false end.

Definition RetryAfter (err : GoError) : Z :=
  match as_transport err with Some e => e_RetryAfter e | None => 0 end.

Definition AsFailure (err : GoError) : Failure :=
  match as_transport err with
  | Some e => mkFailure (e_Code e) (e_Message e) (e_Permanent e)
  | None => mkFailure "" (error_text err) false
  end.

Definition IsAuthFailure (err : GoError) : bool :=
  match as_transport err with Some e => e_Auth e | None => false end.

Definition NewPermanent (code message : string) (err : option GoError) : GoError :=
  ETransport (mkTransportError code message true 0 false) err.

Definition NewTransient (code message : string) (err : option GoError) : GoError :=
  ETransport (mkTransportError code message false 0 false) err.

Definition NewThrottled (code message : string) (retryAfter : Z) (err : option GoError) : GoError :=
  ETransport (mkTransportError code message false retryAfter false) err.

Definition authFailureHint : string :=
  " — check that admin consent was granted for SMTP.SendAsApp, that New-ServicePrincipal used the Object ID from Enterprise applications, and that Add-MailboxPermission was run for this mailbox".

Definition NewAuthFailure (code message : string) (err : option GoError) : GoError :=
  ETransport (mkTransportError code (TrimSpace message +:+ authFailureHint) false 0 true) err.

(** ** Messages *)

(** [transport.Message] *)
Record TMessage := mkTMessage {
  t_ID : string;
  t_Mailbox : Mailbox;
  t_Credential : OAuthCredential;
  t_Recipients : list string;
  t_Raw : string
}.

(** [EnvelopeFrom] *)
Definition EnvelopeFrom (m : TMessage) : string := mb_Address (t_Mailbox m).

(** ** XOAUTH2 *)

Definition SOH : ascii := chr 1.
Definition separator : string := String SOH "".

(** [BuildXOAuth2]: the SASL initial response. *)
Definition BuildXOAuth2 (mailbox accessToken : string) : result string string :=
  if bool_decide (mailbox = "") then Err "oauth: XOAUTH2 needs a mailbox address"
  else if bool_decide (accessToken = "") then Err "oauth: XOAUTH2 needs an access token"
  else if ContainsAny mailbox (separator +:+ CRLF)
  then Err ("oauth: mailbox " +:+ mailbox +:+ " contains a control character")
  else if ContainsAny accessToken (separator +:+ CRLF)
  then Err "oauth: the access token contains a control character"
  else Ok ("user=" +:+ mailbox +:+ separator +:+ "auth=Bearer " +:+ accessToken +:+ separator +:+ separator).

(** ** The SMTP relay *)

Record SMTPUpstream := mkSMTPUpstream {
  up_dial : option GoError;
  up_starttls : option GoError;
  up_hello : option GoError;
  up_supports_xoauth2 : bool;
  up_auth : string -> option GoError;
  up_mail : string -> option GoError;
  up_rcpt : string -> option GoError;
  up_data : option GoError;
  up_write : option GoError;
  up_close : option GoError;
  up_quit : option GoError
}.

Record RelayOptions := mkRelayOptions {
  r_Host : string;
  r_Port : Z;
  r_Scope : string;
  r_LocalName : string
}.

(** What goes out on the wire. *)
Inductive Cmd :=
| CDial (address : string)
| CStartTLS
| CHello (name : string)
| CAuth (initial : string)
| CMail (from : string)
| CRcpt (to : string)
| CData
| CWrite (raw : string)
| CEndData
| CQuit.

(** A computation that issues commands and may fail. *)
Definition Wire (A : Type) : Type := list Cmd * result GoError A.

Definition wire_ret {A} (a : A) : Wire A := ([], Ok a).
Definition wire_fail {A} (e : GoError) : Wire A := ([], Err e).
Definition wire_bind {A B} (x : Wire A) (f : A -> Wire B) : Wire B :=
  match x with
  | (t, Ok a) => let '(t', r) := f a in (t ++ t', r)
  | (t, Err e) => (t, Err e)
  end.

(** Issues one command; on failure the error is mapped by [f]. *)
Definition wire_call (c : Cmd) (outcome : option GoError) (f : GoError -> GoError) : Wire unit :=
  ([c], match outcome with None => Ok tt | Some e => Err (f e) end).

Notation "'do' x '<-' a ';;' b" := (wire_bind a (fun x => b))
  (at level 10, x pattern, a at level 99, b at level 200, only parsing) : go_scope.
Local Open Scope go_scope.

Section Relay.
(** [smtp.EnhancedCodeNotSet] of the SMTP library. *)
Context (EnhancedCodeNotSet : Z * Z * Z).

Definition enhancedOrNumeric (status : Z) (enhanced : Z * Z * Z) : string :=
  if bool_decide (enhanced = EnhancedCodeNotSet) then Itoa status
  else let '(a, b, c) := enhanced in Itoa a +:+ "." +:+ Itoa b +:+ "." +:+ Itoa c.

Definition classify (what : string) (err : GoError) : GoError :=
  match as_smtp err with
  | None => NewTransient "net" (what +:+ ": " +:+ error_text err) (Some err)
  | Some (status, enhanced, msg) =>
      let code := enhancedOrNumeric status enhanced in
      let message := what +:+ ": " +:+ TrimSpace msg in
      if status >=? 500 then NewPermanent code message (Some err)
      else NewTransient code message (Some err)
  end.

Definition classifyAuth (mailbox : string) (err : GoError) : GoError :=
  let '(code, message) :=
    match as_smtp err with
    | Some (status, enhanced, msg) => (enhancedOrNumeric status enhanced, TrimSpace msg)
    | None => ("535", error_text err)
    end in
  NewAuthFailure code ("authenticating as " +:+ mailbox +:+ " failed: " +:+ message) (Some err).

(** [net.JoinHostPort] *)
Definition JoinHostPort (host : string) (port : Z) : string :=
  if contains_byte host ":"%char then "[" +:+ host +:+ "]:" +:+ Itoa port
  else host +:+ ":" +:+ Itoa port.

Definition connect (o : RelayOptions) (u : SMTPUpstream) : Wire unit :=
  let address := JoinHostPort (r_Host o) (r_Port o) in
  do _ <- wire_call (CDial address) (up_dial u)
            (fun e => NewTransient "net" ("could not connect to " +:+ address +:+ ": " +:+ error_text e) (Some e)) ;;
  do _ <- wire_call CStartTLS (up_starttls u) (classify "STARTTLS failed") ;;
  wire_call (CHello (r_LocalName o)) (up_hello u) (classify "EHLO failed").

Definition authenticate (u : SMTPUpstream) (mailbox accessToken : string) : Wire unit :=
  if negb (up_supports_xoauth2 u)
  then wire_fail (NewTransient "smtp" "the server does not offer AUTH XOAUTH2 after STARTTLS" None)
  else match BuildXOAuth2 mailbox accessToken with
       | Err e => wire_fail (NewPermanent "xoauth2" e (Some (EOther e)))
       | Ok initial => wire_call (CAuth initial) (up_auth u initial) (classifyAuth mailbox)
       end.

Fixpoint rcpt_all (u : SMTPUpstream) (rcpts : list string) : Wire unit :=
  match rcpts with
  | [] => wire_ret tt
  | rcpt :: rest =>
      do _ <- wire_call (CRcpt rcpt) (up_rcpt u rcpt) (classify ("RCPT TO " +:+ rcpt +:+ " was rejected")) ;;
      rcpt_all u rest
  end.

(** [w.Write], which a [w.Close] follows when it fails, whatever that says. *)
Definition write_all (u : SMTPUpstream) (raw : string) : Wire unit :=
  match up_write u with
  | Some e =>
      ([CWrite raw; CEndData],
       Err (NewTransient "net" ("the connection failed while sending the message: " +:+ error_text e) (Some e)))
  | None => ([CWrite raw], Ok tt)
  end.

Definition relay_deliver (u : SMTPUpstream) (m : TMessage) : Wire unit :=
  do _ <- wire_call (CMail (EnvelopeFrom m)) (up_mail u (EnvelopeFrom m)) (classify "MAIL FROM was rejected") ;;
  do _ <- rcpt_all u (t_Recipients m) ;;
  do _ <- wire_call CData (up_data u) (classify "DATA was rejected") ;;
  do _ <- write_all u (t_Raw m) ;;
  do _ <- wire_call CEndData (up_close u) (classify "the message was rejected") ;;
  (* a failed QUIT is only logged *)
  ([CQuit], Ok tt).

(** [Relay.Send] *)
Definition relay_send (o : RelayOptions) (token : result GoError string) (u : SMTPUpstream) (m : TMessage)
  : Wire unit :=
  match token with
  | Err e => wire_fail (NewTransient "oauth" ("could not obtain an access token: " +:+ error_text e) (Some e))
  | Ok accessToken =>
      do _ <- connect o u ;;
      do _ <- authenticate u (mb_Address (t_Mailbox m)) accessToken ;;
      relay_deliver u m
  end.
End Relay.

(** [xoauth2Client.Next]: the empty answer, once. *)
Definition xoauth2_next (done : bool) : result string string * bool :=
  if done then (Err "smtprelay: unexpected additional XOAUTH2 challenge", done) else (Ok "", true).

(** ** Microsoft Graph *)

Definition MaxMIMESize : Z := 4 * 2 ^ 20.

Record HTTPResponse := mkHTTPResponse {
  h_StatusCode : Z;
  h_Body : option string;       (* None: reading it failed *)
  h_RetryAfter : string         (* the Retry-After header, "" when absent *)
}.

Record HTTPRequest := mkHTTPRequest {
  q_URL : string;
  q_Headers : list (string * string);
  q_Body : string
}.

Record GraphOptions := mkGraphOptions { g_Endpoint : string; g_Scope : string; g_UserAgent : string }.

Definition truncate (s : string) (limit : Z) : string :=
  if len s <=? limit then s else take_bytes (Z.to_nat limit) s +:+ "…".

Section Graph.
(** [url.PathEscape], [base64.StdEncoding], the JSON decoder for the error
    envelope (its code and message), [http.StatusText], [http.ParseTime], and
    what building a request for a URL reports. *)
Context (PathEscape : string -> string) (base64_std : string -> string)
  (unmarshal : string -> option (string * string)) (StatusText : Z -> string)
  (ParseTime : string -> option Z) (new_request_error : string -> option GoError).

Definition buildRequest (o : GraphOptions) (m : TMessage) (accessToken : string)
  : result GoError HTTPRequest :=
  let endpoint := TrimRight (g_Endpoint o) "/" +:+ "/v1.0/users/"
                  +:+ PathEscape (mb_Address (t_Mailbox m)) +:+ "/sendMail" in
  match new_request_error endpoint with
  | Some e => Err (NewPermanent "graph" ("could not build the Graph request: " +:+ error_text e) (Some e))
  | None => Ok (mkHTTPRequest endpoint
      [("Authorization", "Bearer " +:+ accessToken); ("Content-Type", "text/plain");
       ("User-Agent", g_UserAgent o); ("client-request-id", t_ID m)]
      (base64_std (t_Raw m)))
  end.

(** [readError]; [None] is a nil [*graphError]. *)
Definition readError (resp : HTTPResponse) : option (string * string) :=
  match h_Body resp with
  | None => None
  | Some body =>
      let body := take_bytes (64 * 1024) body in
      if bool_decide (body = "") then None
      else match unmarshal body with
           | Some (code, message) =>
               if bool_decide (code = "") then Some ("", truncate (TrimSpace body) 512)
               else Some (code, message)
           | None => Some ("", truncate (TrimSpace body) 512)
           end
  end.

Definition graph_code (g : option (string * string)) (status : Z) : string :=
  match g with
  | Some (code, _) => if bool_decide (code = "") then Itoa status else code
  | None => Itoa status
  end.

Definition graph_message (g : option (string * string)) (status : Z) : string :=
  match g with
  | Some (_, message) => if bool_decide (message = "") then StatusText status else message
  | None => StatusText status
  end.

(** [retryAfter]: seconds, or an HTTP date. The product with [time.Second] is
    an [int64] product. *)
Definition retryAfter (now : Z) (resp : HTTPResponse) : Z :=
  let raw := h_RetryAfter resp in
  if bool_decide (raw = "") then 0
  else
    let by_date :=
      match ParseTime raw with
      | Some when_ => if when_ - now >? 0 then when_ - now else 0
      | None => 0
      end in
    match Atoi (TrimSpace raw) with
    | Some seconds => if seconds >? 0 then wrap64 (seconds * Second) else by_date
    | None => by_date
    end.

(** [Transport.classify]; [None] is success. *)
Definition graph_classify (now : Z) (resp : HTTPResponse) (m : TMessage) : option GoError :=
  let status := h_StatusCode resp in
  if status =? 202 then None
  else
    let detail := readError resp in
    let code := graph_code detail status in
    let message := graph_message detail status in
    Some (
      if status =? 429 then NewThrottled code message (retryAfter now resp) None
      else if (status =? 401) || (status =? 403)
      then NewAuthFailure code ("sending as " +:+ mb_Address (t_Mailbox m) +:+ " was refused: " +:+ message) None
      else if status >=? 500 then NewTransient code message None
      else if status =? 404
      then NewPermanent code ("the mailbox " +:+ mb_Address (t_Mailbox m) +:+ " was not found: " +:+ message) None
      else NewPermanent code message None).

(** [Transport.Send]: the requests made and the error, if any. *)
Definition graph_send (o : GraphOptions) (now : Z) (token : result GoError string)
    (http : HTTPRequest -> result GoError HTTPResponse) (m : TMessage)
  : list HTTPRequest * option GoError :=
  if len (t_Raw m) >? MaxMIMESize then
    ([], Some (NewPermanent "graph.size" ("the message is " +:+ Itoa (len (t_Raw m)) +:+ " bytes, over the "
      +:+ Itoa MaxMIMESize +:+ " byte limit the Graph sendMail API accepts in MIME form; switch this mailbox to the SMTP transport to send messages this large") None))
  else
    match token with
    | Err e => ([], Some (NewTransient "oauth" ("could not obtain an access token: " +:+ error_text e) (Some e)))
    | Ok accessToken =>
        match buildRequest o m accessToken with
        | Err e => ([], Some e)
        | Ok req =>
            match http req with
            | Err e => ([req], Some (NewTransient "net" ("the Graph request failed: " +:+ error_text e) (Some e)))
            | Ok resp => ([req], graph_classify now resp m)
            end
        end
    end.
End Graph.
