(* ===== verification/TransportProps.v ===== *)
(** * Properties of the transports *)

From stdpp Require Import base gmap strings list.
From Stdlib Require Import ZArith Lia Ascii.
From S2P Require Import Prelude GoStrings GoStringsFacts StoreModels Transport.

Open Scope Z_scope.

(** ** XOAUTH2 *)

(** The XOAUTH2 string is unambiguous: splitting what [BuildXOAuth2] returns
    at its 0x01 bytes gives back exactly the mailbox and the token, so neither
    can smuggle in a field, and a mailbox or token with a control character or
    an empty one is refused. *)
Theorem xoauth2_roundtrip mailbox token s :
  BuildXOAuth2 mailbox token = Ok s ->
  split_byte SOH s = ["user=" +:+ mailbox; "auth=Bearer " +:+ token; ""; ""]
  /\ mailbox <> "" /\ token <> ""
  /\ contains_byte mailbox CR = false /\ contains_byte token CR = false
  /\ contains_byte mailbox LF = false /\ contains_byte token LF = false.
Proof.
  unfold BuildXOAuth2. repeat case_bool_decide; try done.
  destruct (ContainsAny mailbox _) eqn:Hm; [done|]. destruct (ContainsAny token _) eqn:Ht; [done|].
  intros [= <-]. split; [|split_and!; try done; eapply ContainsAny_false; eauto].
  assert (contains_byte mailbox SOH = false) as Hm1 by (eapply ContainsAny_false; eauto).
  assert (contains_byte token SOH = false) as Ht1 by (eapply ContainsAny_false; eauto).
  unfold separator.
  change (split_byte SOH (("user=" +:+ mailbox) +:+ String SOH
    (("auth=Bearer " +:+ token) +:+ String SOH (String SOH "")))
    = ["user=" +:+ mailbox; "auth=Bearer " +:+ token; ""; ""]).
  rewrite !split_byte_app by (by rewrite contains_byte_app; simpl; rewrite ?Hm1, ?Ht1). done.
Qed.

Lemma xoauth2_roundtrip_witness :
  split_byte SOH ("user=scan@x" +:+ separator +:+ "auth=Bearer t" +:+ separator +:+ separator)
  = ["user=" +:+ "scan@x"; "auth=Bearer " +:+ "t"; ""; ""].
Proof. refine (proj1 (xoauth2_roundtrip "scan@x" "t" _ _)). reflexivity. Defined.

(** ** What the relay puts on the wire *)

Definition follows {A} (x : Wire A) (full : list Cmd) : Prop :=
  x.1 `prefix_of` full /\ (is_ok x.2 = true -> x.1 = full).

Lemma follows_call c o f : follows (wire_call c o f) [c].
Proof. by split. Qed.

Lemma follows_bind {A B} (x : Wire A) (f : A -> Wire B) l1 l2 :
  follows x l1 -> (forall a, x.2 = Ok a -> follows (f a) l2) -> follows (wire_bind x f) (l1 ++ l2).
Proof.
  intros [Hp Hok] Hf. destruct x as [t [a|e]]; simpl in *.
  - specialize (Hf a eq_refl). destruct (f a) as [t' r]. destruct Hf as [Hp' Hok']. simpl in *.
    rewrite Hok by done. split; [by apply prefix_app|]. intros H. by rewrite Hok'.
  - split; [|done]. by apply prefix_app_r.
Qed.

Lemma follows_rcpt NS u rcpts : follows (rcpt_all NS u rcpts) (CRcpt <$> rcpts).
Proof.
  induction rcpts as [|r rcpts IH]; [by split|].
  rewrite fmap_cons. apply (follows_bind _ _ [CRcpt r]); [apply follows_call|done].
Qed.

Definition delivery_commands (m : TMessage) : list Cmd :=
  [CMail (mb_Address (t_Mailbox m))] ++ (CRcpt <$> t_Recipients m)
  ++ [CData] ++ [CWrite (t_Raw m)] ++ [CEndData] ++ [CQuit].

(** The close after a failed write is where the one after a good write is. *)
Lemma follows_write {B} u raw (f : unit -> Wire B) l :
  (forall a, follows (f a) (CEndData :: l)) -> follows (wire_bind (write_all u raw) f) ([CWrite raw] ++ CEndData :: l).
Proof.
  intros Hf. unfold write_all. destruct (up_write u); [split; [|done]; simpl; by do 2 apply prefix_cons; apply prefix_nil|].
  by apply follows_bind.
Qed.

Lemma follows_deliver NS u m : follows (relay_deliver NS u m) (delivery_commands m).
Proof.
  unfold relay_deliver, delivery_commands.
  do 3 (apply follows_bind; [apply follows_call || apply follows_rcpt|intros _ _]).
  apply follows_write. intros _. apply (follows_bind _ _ [CEndData]); [apply follows_call|]. by split.
Qed.

Definition connect_commands (o : RelayOptions) : list Cmd :=
  [CDial (JoinHostPort (r_Host o) (r_Port o))] ++ [CStartTLS] ++ [CHello (r_LocalName o)].

Lemma follows_connect NS o u : follows (connect NS o u) (connect_commands o).
Proof.
  unfold connect, connect_commands.
  repeat (apply follows_bind; [apply follows_call|intros _ _]). apply follows_call.
Qed.

(** A run that fails never reaches QUIT. *)
Definition quits_only_ok {A} (x : Wire A) : Prop := is_ok x.2 = false -> CQuit ∉ x.1.

Lemma quits_only_ok_bind {A B} (x : Wire A) (f : A -> Wire B) :
  CQuit ∉ x.1 -> (forall a, quits_only_ok (f a)) -> quits_only_ok (wire_bind x f).
Proof.
  intros Hx Hf. destruct x as [t [a|e]]; [|by intros _]. specialize (Hf a).
  unfold quits_only_ok, wire_bind in *. destruct (f a) as [t' r]. simpl in *.
  intros H. rewrite elem_of_app. intros [?|Hin]; [done|]. by apply (Hf H).
Qed.

Lemma follows_not_elem {A} (x : Wire A) l c : follows x l -> c ∉ l -> c ∉ x.1.
Proof. intros [[k ->] _] Hl Hc. apply Hl, elem_of_app. by left. Qed.

Lemma deliver_quits_ok NS u m : quits_only_ok (relay_deliver NS u m).
Proof.
  unfold relay_deliver.
  repeat (apply quits_only_ok_bind; [|intros _]); try (by simpl; intros ?%list_elem_of_singleton).
  - eapply follows_not_elem; [apply follows_rcpt|]. by intros (? & ? & _)%list_elem_of_fmap.
  - unfold write_all. destruct (up_write u); simpl; set_solver.
  - by intros ?.
Qed.

Lemma connect_secure {A} NS o u (f : unit -> Wire A) :
  (2 < length (wire_bind (connect NS o u) f).1)%nat -> up_dial u = None /\ up_starttls u = None.
Proof.
  unfold connect, wire_call. destruct (up_dial u); simpl; [lia|].
  destruct (up_starttls u); simpl; [lia|done].
Qed.

(** The relay speaks the submission protocol in order and as the mailbox:
    whatever the upstream answers, the commands it issues are a prefix of
    dial, STARTTLS, EHLO, AUTH with the mailbox's XOAUTH2 string, MAIL FROM
    the mailbox address, every recipient in order, DATA, the message, end of
    data, QUIT; in particular neither the bearer token nor any mail goes out
    unless STARTTLS succeeded. It reports success exactly when it got to the
    end, whatever QUIT answers. *)
Theorem relay_follows_protocol NS o token u m :
  match token with
  | Err _ => (relay_send NS o token u m).1 = []
  | Ok tok =>
      match BuildXOAuth2 (mb_Address (t_Mailbox m)) tok with
      | Err _ => (relay_send NS o token u m).1 `prefix_of` connect_commands o
                 /\ is_ok (relay_send NS o token u m).2 = false
      | Ok initial =>
          let full := connect_commands o ++ [CAuth initial] ++ delivery_commands m in
          (relay_send NS o token u m).1 `prefix_of` full
          /\ (is_ok (relay_send NS o token u m).2 = true <-> (relay_send NS o token u m).1 = full)
          /\ ((2 < length (relay_send NS o token u m).1)%nat -> up_dial u = None /\ up_starttls u = None)
      end
  end.
Proof.
  destruct token as [tok|e]; [|done]. unfold relay_send, authenticate.
  pose proof (follows_connect NS o u) as Hc.
  destruct (BuildXOAuth2 _ _) as [initial|e]; cbv zeta.
  - assert (follows (wire_bind (connect NS o u) (fun _ => wire_bind
      (if negb (up_supports_xoauth2 u)
       then wire_fail (NewTransient "smtp" "the server does not offer AUTH XOAUTH2 after STARTTLS" None)
       else wire_call (CAuth initial) (up_auth u initial) (classifyAuth NS (mb_Address (t_Mailbox m))))
      (fun _ => relay_deliver NS u m)))
      (connect_commands o ++ [CAuth initial] ++ delivery_commands m)) as [Hp Hok].
    { apply follows_bind; [done|]. intros _ _. apply follows_bind; [|intros _ _; apply follows_deliver].
      destruct (up_supports_xoauth2 u); simpl; [apply follows_call|]. split; [apply prefix_nil|done]. }
    split; [done|]. split; [|intros Hlen; by apply connect_secure in Hlen].
    split; [done|]. intros Hfull. apply not_false_iff_true. intros Hno.
    revert Hno. match goal with |- is_ok ?x.2 = false -> _ => assert (quits_only_ok x) as Hq end.
    { apply quits_only_ok_bind; [eapply follows_not_elem; [done|set_solver]|]. intros _.
      apply quits_only_ok_bind; [|intros _; apply deliver_quits_ok].
      destruct (up_supports_xoauth2 u); simpl; [by intros ?%list_elem_of_singleton|set_solver]. }
    intros Hno%Hq. apply Hno. rewrite Hfull. unfold delivery_commands. set_solver.
  - destruct Hc as [Hp Hok]. destruct (connect NS o u) as [t [[]|e']]; simpl in *; [|done].
    destruct (negb _); simpl; by rewrite app_nil_r.
Qed.

(** ** Classification of failures *)

(** What the upstream answered to a command. *)
Definition answer (u : SMTPUpstream) (c : Cmd) : option GoError :=
  match c with
  | CDial _ => up_dial u
  | CStartTLS => up_starttls u
  | CHello _ => up_hello u
  | CAuth initial => up_auth u initial
  | CMail from => up_mail u from
  | CRcpt to => up_rcpt u to
  | CData => up_data u
  | CWrite _ => up_write u
  | CEndData => up_close u
  | CQuit => up_quit u
  end.

(** The last command was refused with an SMTP status of 500 or above. *)
Definition refused_for_good (u : SMTPUpstream) (t : list Cmd) : Prop :=
  exists pre c err status enhanced msg, t = pre ++ [c] /\ (forall i, c <> CAuth i)
    /\ answer u c = Some err /\ as_smtp err = Some (status, enhanced, msg) /\ 500 <= status.

Definition blames {A} (u : SMTPUpstream) (x : Wire A) : Prop :=
  forall e, x.2 = Err e -> IsPermanent e = true -> refused_for_good u x.1.

Lemma blames_bind {A B} u (x : Wire A) (f : A -> Wire B) :
  blames u x -> (forall a, blames u (f a)) -> blames u (wire_bind x f).
Proof.
  intros Hx Hf e. destruct x as [t [a|e']]; [|intros [= ->]; exact (Hx e eq_refl)]. specialize (Hf a e).
  unfold wire_bind. destruct (f a) as [t' r]. simpl in *. intros -> Hp.
  destruct (Hf eq_refl Hp) as (pre & c & err & st & en & msg & -> & H).
  exists (t ++ pre), c, err, st, en, msg. by rewrite app_assoc.
Qed.

Lemma IsPermanent_classify NS what err :
  IsPermanent (classify NS what err) = true <->
  exists status enhanced msg, as_smtp err = Some (status, enhanced, msg) /\ 500 <= status.
Proof.
  unfold classify. destruct (as_smtp err) as [[[st en] msg]|]; simpl; [|naive_solver].
  case_match; bools; simpl; naive_solver lia.
Qed.

Lemma blames_classified NS u c what :
  (forall i, c <> CAuth i) -> blames u (wire_call c (answer u c) (classify NS what)).
Proof.
  intros Hc e. unfold wire_call. destruct (answer u c) as [err|] eqn:Ha; simpl; [|done].
  intros [= <-] (st & en & msg & Hs & Hge)%IsPermanent_classify.
  exists [], c, err, st, en, msg. done.
Qed.

Lemma blames_call_transient u c o f :
  (forall e, IsPermanent (f e) = false) -> blames u (wire_call c o f).
Proof. intros Hf e. unfold wire_call. destruct o; simpl; [|done]. intros [= <-]. by rewrite Hf. Qed.

Lemma blames_rcpt NS u rcpts : blames u (rcpt_all NS u rcpts).
Proof.
  induction rcpts as [|r rcpts IH]; [done|].
  apply (blames_bind u (wire_call _ _ _)); [|done]. by apply (blames_classified NS u (CRcpt r)).
Qed.

Lemma blames_deliver NS u m : blames u (relay_deliver NS u m).
Proof.
  unfold relay_deliver.
  apply blames_bind; [by apply (blames_classified NS u (CMail _))|intros _].
  apply blames_bind; [apply blames_rcpt|intros _].
  apply blames_bind; [by apply (blames_classified NS u CData)|intros _].
  apply blames_bind; [unfold write_all; destruct (up_write u); by intros e [= <-]|intros _].
  apply blames_bind; [by apply (blames_classified NS u CEndData)|done].
Qed.

Lemma classifyAuth_transient NS mailbox err : IsPermanent (classifyAuth NS mailbox err) = false.
Proof. unfold classifyAuth. by destruct (as_smtp err) as [[[? ?] ?]|]. Qed.

(** The relay gives up on a message only on the upstream's word: a failure
    is permanent only when the last command was answered with an SMTP status
    of 500 or more and that command was not AUTH, or when the mailbox address
    or the token cannot be put in an XOAUTH2 string. Network trouble, missing
    tokens, 4xx answers and every authentication refusal, 535 included, are
    retried. *)
Theorem relay_permanent_only_when_refused NS o token u m e :
  (relay_send NS o token u m).2 = Err e -> IsPermanent e = true ->
  refused_for_good u (relay_send NS o token u m).1
  \/ exists tok msg, token = Ok tok /\ BuildXOAuth2 (mb_Address (t_Mailbox m)) tok = Err msg.
Proof.
  destruct token as [tok|e']; [|by intros [= <-]].
  unfold relay_send, authenticate. destruct (BuildXOAuth2 _ tok) as [initial|msg] eqn:Hx; [|by eauto].
  intros He Hp. left. revert e He Hp.
  change (blames u (wire_bind (connect NS o u) (fun _ => wire_bind
    (if negb (up_supports_xoauth2 u)
     then wire_fail (NewTransient "smtp" "the server does not offer AUTH XOAUTH2 after STARTTLS" None)
     else wire_call (CAuth initial) (up_auth u initial) (classifyAuth NS (mb_Address (t_Mailbox m))))
    (fun _ => relay_deliver NS u m)))).
  apply blames_bind.
  - unfold connect. apply blames_bind; [by apply blames_call_transient|intros _].
    apply blames_bind; [by apply (blames_classified NS u CStartTLS)|intros _].
    by apply (blames_classified NS u (CHello _)).
  - intros _. apply blames_bind; [|intros _; apply blames_deliver].
    destruct (up_supports_xoauth2 u); simpl; [|by intros e [= <-]].
    apply blames_call_transient. intros e. apply classifyAuth_transient.
Qed.

Definition unknown_recipient : GoError := ESMTP 550 (5, 1, 1) "User unknown" "SMTP error 550: User unknown".

Definition picky_upstream : SMTPUpstream :=
  mkSMTPUpstream None None None true (fun _ => None) (fun _ => None)
    (fun to => if bool_decide (to = "nobody@x") then Some unknown_recipient else None)
    None None None None.

Definition sample_mailbox : Mailbox := mkMailbox "mb" "scan@x" "" "cred" TransportSMTP None None true ManagedByUI 0 0.

Definition sample_credential : OAuthCredential :=
  mkOAuthCredential "cred" "tenant" "tid" "cid" AuthTypeSecret "" "" "" "" "" None ManagedByUI 0 0.

Definition sample_outgoing : TMessage :=
  mkTMessage "m1" sample_mailbox sample_credential ["a@x"; "nobody@x"] "Subject: x".

Definition sample_relay : RelayOptions := mkRelayOptions "smtp.office365.com" 587 "scope" "proxy".

Lemma relay_permanent_only_when_refused_witness :
  refused_for_good picky_upstream
    (relay_send (0, 0, 0) sample_relay (Ok "token") picky_upstream sample_outgoing).1
  \/ exists tok msg, @Ok GoError string "token" = Ok tok
       /\ BuildXOAuth2 (mb_Address (t_Mailbox sample_outgoing)) tok = Err msg.
Proof.
  eapply (relay_permanent_only_when_refused (0, 0, 0) sample_relay (Ok "token") picky_upstream
    sample_outgoing); vm_compute; reflexivity.
Defined.

(** ** Graph *)

(** The answers that end a Graph delivery for good. *)
Definition final_status (status : Z) : bool :=
  negb (bool_decide (status ∈ [202; 401; 403; 429])) && (status <? 500).

Lemma graph_classify_table ST unmarshal PT now resp m :
  match graph_classify unmarshal ST PT now resp m with
  | None => h_StatusCode resp = 202
  | Some e => h_StatusCode resp <> 202
      /\ IsPermanent e = final_status (h_StatusCode resp)
      /\ IsAuthFailure e = bool_decide (h_StatusCode resp ∈ [401; 403])
      /\ RetryAfter e = (if h_StatusCode resp =? 429 then retryAfter PT now resp else 0)
  end.
Proof.
  unfold graph_classify, final_status.
  destruct (h_StatusCode resp =? 202) eqn:?; bools; [done|].
  destruct (h_StatusCode resp =? 429) eqn:H429; bools; simpl.
  { by rewrite H429. }
  destruct (_ || _) eqn:Hau; simpl.
  { apply orb_true_iff in Hau as [Hs|Hs]; bools; rewrite Hs; by split_and!. }
  bools. assert ((h_StatusCode resp ∉ [202; 401; 403; 429]) /\ (h_StatusCode resp ∉ [401; 403])) as [Hn1 Hn2]
    by set_solver.
  rewrite !bool_decide_eq_false_2 by done. simpl.
  destruct (_ >=? 500) eqn:?; bools; [|destruct (_ =? 404)]; split_and!; try done; simpl;
    rewrite ?Z.ltb_lt, ?Z.ltb_ge; symmetry; (apply Z.ltb_lt || apply Z.ltb_ge); lia.
Qed.

(** What a Graph delivery reports. At most one request is made. It reports
    success exactly when the message is within the API's MIME limit and the
    request was answered 202. A failure is final exactly when the message is
    too large, the request cannot be built, or the answer is a status below
    500 other than 401, 403 and 429; it is an authentication failure exactly
    for 401 and 403, and carries a requested delay only for 429. *)
Theorem graph_delivery_outcome PathEscape b64 unmarshal ST PT nre o now token http m :
  let '(reqs, out) := graph_send PathEscape b64 unmarshal ST PT nre o now token http m in
  (length reqs <= 1)%nat
  /\ match reqs, out with
     | [req], None => len (t_Raw m) <= MaxMIMESize
         /\ exists resp, http req = Ok resp /\ h_StatusCode resp = 202
     | [req], Some e => exists r, http req = r
         /\ match r with
            | Err _ => IsPermanent e = false /\ IsAuthFailure e = false /\ RetryAfter e = 0
            | Ok resp => h_StatusCode resp <> 202
                /\ IsPermanent e = final_status (h_StatusCode resp)
                /\ IsAuthFailure e = bool_decide (h_StatusCode resp ∈ [401; 403])
                /\ (RetryAfter e <> 0 -> h_StatusCode resp = 429)
            end
     | _, None => False
     | _, Some e => IsAuthFailure e = false
         /\ (IsPermanent e = true <->
             MaxMIMESize < len (t_Raw m)
             \/ exists tok e', token = Ok tok /\ buildRequest PathEscape b64 nre o m tok = Err e')
     end.
Proof.
  unfold graph_send. destruct (len (t_Raw m) >? MaxMIMESize) eqn:Hlen; bools; simpl.
  { split; [lia|]. split; [done|]. by split; [left|]. }
  destruct token as [tok|e]; simpl.
  2: { split; [lia|]. split; [done|]. split; [done|]. intros [?|(? & ? & ? & _)]; [lia|done]. }
  destruct (buildRequest _ _ _ _ _ _) as [req|e] eqn:Hb; simpl.
  2: { split; [lia|]. assert (IsAuthFailure e = false /\ IsPermanent e = true) as [??].
       { revert Hb. unfold buildRequest. destruct (nre _); [|done]. by intros [= <-]. }
       split; [done|]. split; [|done]. intros _. right. eauto. }
  destruct (http req) as [resp|e] eqn:Hh; simpl; (split; [lia|]).
  - pose proof (graph_classify_table ST unmarshal PT now resp m) as Ht.
    destruct (graph_classify _ _ _ _ _ _) as [e|]; [|by eauto].
    exists (Ok resp). split; [done|]. destruct Ht as (? & ? & ? & Hr). split_and!; [done..|].
    rewrite Hr. destruct (_ =? 429) eqn:?; bools; done.
  - exists (Err e). by split_and!.
Qed.

(** The delay Graph asks for is taken exactly while it fits a duration: a
    Retry-After of up to 9223372036 seconds is that many seconds, and the first
    value past it wraps to a negative delay. *)
Theorem retry_after_seconds PT now resp seconds :
  Atoi (TrimSpace (h_RetryAfter resp)) = Some seconds -> 0 < seconds ->
  (seconds <= 9223372036 -> retryAfter PT now resp = seconds * Second)
  /\ (seconds = 9223372037 -> retryAfter PT now resp < 0).
Proof.
  intros Ha Hs. unfold retryAfter. destruct (bool_decide _) eqn:He; bools.
  { rewrite He in Ha. by vm_compute in Ha. }
  rewrite Ha, (proj2 (Z.gtb_lt _ _)) by lia. split.
  - intros H. apply wrap64_small. unfold Second, min_int64, max_int64. lia.
  - intros ->. by vm_compute.
Qed.

Lemma retry_after_seconds_witness :
  (120 <= 9223372036 -> retryAfter (fun _ => None) 5 (mkHTTPResponse 429 None "120") = 120 * Second)
  /\ (120 = 9223372037 -> retryAfter (fun _ => None) 5 (mkHTTPResponse 429 None "120") < 0).
Proof. apply retry_after_seconds; reflexivity. Defined.
