(* ===== verification/Exchange.v ===== *)
(** * The submission endpoint the relay speaks to

    [internal/testsupport/fakeexchange]: the stand-in for Exchange Online's
    submission endpoint, as a state machine that takes a line at a time, and
    the relay of [internal/transport/smtprelay] verified against it. What a
    session is blocked on ([Reading]) is part of its state; the sessions of a
    server share its deliveries and its behaviour.

    Between the two stands the SMTP client library, which is a parameter: the
    class [SMTPClient] says what it writes for a call and how it reads the
    replies, as RFC 5321 and the library's documentation have it.
    [dot_client] is an instance with the dot writer of net/textproto. *)

From stdpp Require Import base gmap strings list relations.
From Stdlib Require Import ZArith Lia Ascii.
From S2P Require Import Prelude GoStrings GoStringsFacts Utf8 Base64 StoreModels Transport TransportProps.

Open Scope Z_scope.

(** ** Data *)

Record Delivery := mkDelivery {
  dv_AuthUser : string;
  dv_AuthToken : string;
  dv_RawXOAuth2 : string;
  dv_EnvelopeFrom : string;
  dv_Recipients : list string;
  dv_Data : string
}.

Record Behavior := mkBehavior {
  bh_RejectAuth : bool;
  bh_RejectMailFrom : string;
  bh_RejectRcptTo : string;
  bh_RejectData : string;
  bh_FailAfterDeliveries : Z
}.

Record Exchange := mkExchange { ex_deliveries : list Delivery; ex_behavior : Behavior }.

Definition no_delivery : Delivery := mkDelivery "" "" "" "" [] "".

(** Where a session waits for its client. *)
Inductive Reading :=
| ReadCommand                                              (* in the loop of [run] *)
| ReadHandshake                                            (* in [startTLS] *)
| ReadInitial                                              (* in [auth], for the initial response *)
| ReadEmpty                                                (* in [auth], after the error challenge *)
| ReadData (body : string) (busyAfter accepted : Z).       (* in [data] *)

Record XSession := mkXSession {
  xs_tls : bool;
  xs_authenticated : bool;
  xs_current : Delivery;
  xs_reading : Reading
}.

Definition set_reading (p : Reading) (s : XSession) : XSession :=
  mkXSession (xs_tls s) (xs_authenticated s) (xs_current s) p.
Definition set_current (d : Delivery) (s : XSession) : XSession :=
  mkXSession (xs_tls s) (xs_authenticated s) d (xs_reading s).

(** ** Parsing *)

Definition parse_part (ut : string * string) (p : string) : string * string :=
  if HasPrefix p "user=" then (TrimPrefix p "user=", ut.2)
  else if HasPrefix p "auth=Bearer " then (ut.1, TrimPrefix p "auth=Bearer ")
  else ut.

Definition parseXOAuth2 (raw : string) : string * string * bool :=
  let '(user, token) := foldl parse_part ("", "") (split_byte SOH raw) in
  (user, token, negb (bool_decide (user = "")) && negb (bool_decide (token = ""))).

Definition splitCommand (line : string) : string * string :=
  let trimmed := TrimSpace line in
  match cut_byte SP trimmed with
  | Some (verb, args) => (verb, TrimSpace args)
  | None => (trimmed, "")
  end.

(** [base64.StdEncoding]: with padding; the decoder skips line breaks. *)
Definition pad_of (s : string) : string :=
  match (String.length s mod 3)%nat with 1%nat => "==" | 2%nat => "=" | _ => "" end.
Definition std_encode (s : string) : string := b64_encode StdAlphabet s +:+ pad_of s.
Definition is_break (c : ascii) : bool := bool_decide (c = CR) || bool_decide (c = LF).
(** Up to two padding characters, of the reversed text. *)
Definition strip_pad (l : list ascii) : list ascii :=
  match l with
  | a :: r =>
      if bool_decide (a = "="%char)
      then match r with b :: r' => if bool_decide (b = "="%char) then r' else r | [] => r end
      else l
  | [] => l
  end.
Definition std_decode (s : string) : option string :=
  let l := base.filter (fun c => is_break c = false) (bytes s) in
  if bool_decide ((length l mod 4)%nat = 0%nat)
  then b64_decode StdAlphabet false (unbytes (rev (strip_pad (rev l))))
  else None.

Section Fake.
Context `{UC : UnicodeCase}.

(** The slice is taken of the line itself, at an index into its upper-case
    form; [None] is the panic when that index is beyond its end. *)
Definition extractAddress (args pre : string) : option string :=
  match Index pre (ToUpper args) with
  | None => Some ""
  | Some i =>
      if (String.length args <? i + String.length pre)%nat then None
      else
        let rest := TrimSpace (drop_bytes (i + String.length pre) args) in
        let rest := match cut_byte SP rest with Some (r, _) => r | None => rest end in
        Some (Trim rest "<>")
  end.

(** ** Commands *)

(** What a line does: the server's shared state, the session, [None] once it
    has ended, and the lines written. *)
Definition Outcome : Type := Exchange * option XSession * list string.

Definition reply (x : Exchange) (s : XSession) (line : string) : Outcome := (x, Some (set_reading ReadCommand s), [line]).

Definition ehlo (x : Exchange) (s : XSession) : Outcome :=
  (x, Some (set_reading ReadCommand s),
   ["250-fake.outlook.example"; "250-SIZE 157286400"; "250-8BITMIME"]
   ++ (if xs_tls s then ["250-AUTH XOAUTH2 LOGIN"] else ["250-STARTTLS"]) ++ ["250 SMTPUTF8"]).

Definition auth_initial (initial : string) (x : Exchange) (s : XSession) : Outcome :=
  match std_decode initial with
  | None => reply x s "501 5.5.2 Cannot decode response"
  | Some raw =>
      let '(user, token, ok) := parseXOAuth2 raw in
      if negb ok then reply x s "535 5.7.3 Authentication unsuccessful"
      else if bh_RejectAuth (ex_behavior x)
      then (x, Some (set_reading ReadEmpty s), ["334 eyJzdGF0dXMiOiI0MDEiLCJzY2hlbWVzIjoiQmVhcmVyIn0="])
      else
        let c := xs_current s in
        (x, Some (mkXSession (xs_tls s) true
                    (mkDelivery user token raw (dv_EnvelopeFrom c) (dv_Recipients c) (dv_Data c)) ReadCommand),
         ["235 2.7.0 Authentication successful"])
  end.

Definition xs_auth (args : string) (x : Exchange) (s : XSession) : Outcome :=
  let '(mech, initial) := splitCommand args in
  if negb (EqualFold mech "XOAUTH2") then reply x s "504 5.7.4 Unrecognized authentication type"
  else if negb (xs_tls s) then reply x s "530 5.7.0 Must issue a STARTTLS command first"
  else if bool_decide (initial = "") then (x, Some (set_reading ReadInitial s), ["334 "])
  else auth_initial initial x s.

Definition xs_mail (args : string) (x : Exchange) (s : XSession) : Outcome :=
  if negb (xs_authenticated s) then reply x s "530 5.7.0 Authentication required"
  else if negb (bool_decide (bh_RejectMailFrom (ex_behavior x) = "")) then reply x s (bh_RejectMailFrom (ex_behavior x))
  else match extractAddress args "FROM:" with
       | None => (x, None, [])
       | Some from =>
           let c := xs_current s in
           reply x (set_current (mkDelivery (dv_AuthUser c) (dv_AuthToken c) (dv_RawXOAuth2 c) from [] (dv_Data c)) s) "250 2.1.0 Sender OK"
       end.

Definition xs_rcpt (args : string) (x : Exchange) (s : XSession) : Outcome :=
  if negb (xs_authenticated s) then reply x s "530 5.7.0 Authentication required"
  else if negb (bool_decide (bh_RejectRcptTo (ex_behavior x) = "")) then reply x s (bh_RejectRcptTo (ex_behavior x))
  else match extractAddress args "TO:" with
       | None => (x, None, [])
       | Some to =>
           let c := xs_current s in
           reply x (set_current (mkDelivery (dv_AuthUser c) (dv_AuthToken c) (dv_RawXOAuth2 c) (dv_EnvelopeFrom c)
                                   (dv_Recipients c ++ [to]) (dv_Data c)) s) "250 2.1.5 Recipient OK"
       end.

(** [data], up to its loop: what it needs of the shared state is read here. *)
Definition xs_data (x : Exchange) (s : XSession) : Outcome :=
  if negb (xs_authenticated s) then reply x s "530 5.7.0 Authentication required"
  else if negb (bool_decide (bh_RejectData (ex_behavior x) = "")) then reply x s (bh_RejectData (ex_behavior x))
  else (x, Some (set_reading (ReadData "" (bh_FailAfterDeliveries (ex_behavior x)) (Z.of_nat (length (ex_deliveries x)))) s),
        ["354 Start mail input; end with <CRLF>.<CRLF>"]).

(** ... its loop, and what follows the final dot. *)
Definition data_line (line body : string) (busyAfter accepted : Z) (x : Exchange) (s : XSession) : Outcome :=
  if negb (bool_decide (line = "." +:+ CRLF) || bool_decide (line = String "."%char (String LF "")))
  then (x, Some (set_reading (ReadData (body +:+ TrimPrefix line ".") busyAfter accepted) s), [])
  else if (busyAfter >? 0) && (accepted >=? busyAfter)
  then reply x s "451 4.7.500 Server busy, please try again later"
  else
    let c := xs_current s in
    reply (mkExchange (ex_deliveries x ++
             [mkDelivery (dv_AuthUser c) (dv_AuthToken c) (dv_RawXOAuth2 c) (dv_EnvelopeFrom c) (dv_Recipients c) body]) (ex_behavior x))
      (set_current (mkDelivery (dv_AuthUser c) (dv_AuthToken c) (dv_RawXOAuth2 c) "" [] "") s)
      "250 2.0.0 OK <fake-message-id>".

(** The switch of [run]. *)
Definition command (line : string) (x : Exchange) (s : XSession) : Outcome :=
  let '(verb, args) := splitCommand (TrimRight line CRLF) in
  let verb := ToUpper verb in
  if bool_decide (verb = "EHLO") || bool_decide (verb = "LHLO") then ehlo x s
  else if bool_decide (verb = "HELO") then reply x s "250 fake.outlook.example"
  else if bool_decide (verb = "STARTTLS") then (x, Some (set_reading ReadHandshake s), ["220 2.0.0 SMTP server ready"])
  else if bool_decide (verb = "AUTH") then xs_auth args x s
  else if bool_decide (verb = "MAIL") then xs_mail args x s
  else if bool_decide (verb = "RCPT") then xs_rcpt args x s
  else if bool_decide (verb = "DATA") then xs_data x s
  else if bool_decide (verb = "RSET")
  then let c := xs_current s in
       reply x (set_current (mkDelivery (dv_AuthUser c) (dv_AuthToken c) (dv_RawXOAuth2 c) "" [] "") s) "250 2.0.0 Ok"
  else if bool_decide (verb = "NOOP") then reply x s "250 2.0.0 Ok"
  else if bool_decide (verb = "QUIT") then (x, None, ["221 2.0.0 Service closing transmission channel"])
  else reply x s "500 5.5.1 Unrecognized command".

(** What a session may be woken up by: a line, the end of the TLS handshake,
    or a failing read. *)
Inductive Input := Line (line : string) | Handshake (ok : bool) | ReadError.

Definition session_step (i : Input) (x : Exchange) (s : XSession) : Outcome :=
  match i, xs_reading s with
  | Line line, ReadCommand => command line x s
  | Line line, ReadInitial => auth_initial (TrimRight line CRLF) x s
  | Line _, ReadEmpty => reply x s "535 5.7.3 Authentication unsuccessful"
  | Line line, ReadData body busyAfter accepted => data_line line body busyAfter accepted x s
  | Line _, ReadHandshake => (x, None, [])
  | Handshake true, ReadHandshake => (x, Some (mkXSession true (xs_authenticated s) (xs_current s) ReadCommand), [])
  | Handshake _, _ => (x, None, [])
  | ReadError, _ => (x, None, [])
  end.

(** [handle] and the first line of [run]. *)
Definition open_session : XSession * list string :=
  (mkXSession false false no_delivery ReadCommand, ["220 fake.outlook.example ESMTP"]).

(** ** The server *)

Record FakeServer := mkFakeServer { fk_shared : Exchange; fk_sessions : list (option XSession); fk_closed : bool }.

(** [Start] *)
Definition start_fake : FakeServer := mkFakeServer (mkExchange [] (mkBehavior false "" "" "" 0)) [] false.

Inductive FakeAction :=
| FakeAccept                          (* [acceptLoop] gets a connection *)
| FakeInput (k : nat) (i : Input)     (* session k goes on *)
| FakeBehavior (b : Behavior)         (* [SetBehavior] *)
| FakeStop.                           (* [Stop], up to its wait *)

Definition fake_step (a : FakeAction) (f : FakeServer) : FakeServer :=
  match a with
  | FakeAccept =>
      if fk_closed f then f
      else mkFakeServer (fk_shared f) (fk_sessions f ++ [Some open_session.1]) (fk_closed f)
  | FakeInput k i =>
      match fk_sessions f !! k with
      | Some (Some s) =>
          let '(x, s', _) := session_step i (fk_shared f) s in
          mkFakeServer x (<[k := s']> (fk_sessions f)) (fk_closed f)
      | _ => f
      end
  | FakeBehavior b => mkFakeServer (mkExchange (ex_deliveries (fk_shared f)) b) (fk_sessions f) (fk_closed f)
  | FakeStop => mkFakeServer (fk_shared f) (fk_sessions f) true
  end.

(** [Deliveries] *)
Definition Deliveries (f : FakeServer) : list Delivery := ex_deliveries (fk_shared f).
End Fake.

(** ** Whose mail is accepted *)

(** The names in a delivery are those of the bearer token it came with. *)
Definition vouched (d : Delivery) : Prop := parseXOAuth2 (dv_RawXOAuth2 d) = (dv_AuthUser d, dv_AuthToken d, true).

Record session_ok (s : XSession) : Prop := mkSessionOk {
  sk_vouched : xs_authenticated s = true -> xs_tls s = true /\ vouched (xs_current s);
  sk_initial : xs_reading s = ReadInitial -> xs_tls s = true;
  sk_data : forall body b n, xs_reading s = ReadData body b n -> xs_authenticated s = true
}.

Definition outcome_ok (o : Outcome) : Prop :=
  Forall vouched (ex_deliveries o.1.1) /\ forall s, o.1.2 = Some s -> session_ok s.

Section Vouched.
Context `{UC : UnicodeCase}.

Lemma reply_ok x s line : Forall vouched (ex_deliveries x) -> session_ok s -> outcome_ok (reply x s line).
Proof. intros Hx [Hv Hi Hd]. split; [done|]. intros s' [= <-]. by split. Qed.

Lemma auth_initial_ok initial x s :
  Forall vouched (ex_deliveries x) -> session_ok s -> xs_tls s = true -> outcome_ok (auth_initial initial x s).
Proof.
  intros Hx Hs Ht. unfold auth_initial. destruct (std_decode initial) as [raw|]; [|by apply reply_ok].
  destruct (parseXOAuth2 raw) as [[user token] ok] eqn:Hp. destruct ok; simpl; [|by apply reply_ok].
  destruct (bh_RejectAuth _); (split; [done|]); intros s' [= <-]; [by destruct Hs; split|]. by split.
Qed.

Lemma set_reading_ok p s :
  session_ok s -> (p = ReadInitial -> xs_tls s = true) -> (forall b n m, p = ReadData b n m -> xs_authenticated s = true) ->
  session_ok (set_reading p s).
Proof. intros [Hv _ _] Hi Hd. by split. Qed.

Lemma set_current_ok d s :
  session_ok s -> (vouched (xs_current s) -> vouched d) -> session_ok (set_reading ReadCommand (set_current d s)).
Proof. intros [Hv _ _] Hd. split; [|done..]. intros Ha. destruct (Hv Ha). split; [done|by apply Hd]. Qed.

Lemma kept_ok x s (line : list string) :
  Forall vouched (ex_deliveries x) -> session_ok s -> outcome_ok (x, Some s, line).
Proof. intros Hx Hs. split; [done|]. by intros s' [= <-]. Qed.

Lemma command_ok line x s : Forall vouched (ex_deliveries x) -> session_ok s -> outcome_ok (command line x s).
Proof.
  intros Hx Hs. unfold command. destruct (splitCommand _) as [verb args].
  repeat case_match; try (by apply reply_ok); try (apply kept_ok; [done|by apply set_reading_ok]).
  - unfold xs_auth. destruct (splitCommand args) as [mech initial]. destruct (EqualFold _ _); simpl; [|by apply reply_ok].
    destruct (xs_tls s) eqn:Ht; simpl; [|by apply reply_ok]. destruct (bool_decide (initial = "")); [|by apply auth_initial_ok].
    apply kept_ok; [done|by apply set_reading_ok].
  - unfold xs_mail. repeat case_match; try (by apply reply_ok); try done. apply kept_ok; [done|by apply set_current_ok].
  - unfold xs_rcpt. repeat case_match; try (by apply reply_ok); try done. apply kept_ok; [done|by apply set_current_ok].
  - unfold xs_data. destruct (xs_authenticated s) eqn:Ha; simpl; [|by apply reply_ok].
    case_match; [by apply reply_ok|]. apply kept_ok; [done|by apply set_reading_ok].
  - apply kept_ok; [done|by apply set_current_ok].
  - by split.
Qed.

Lemma data_line_ok line body b n x s :
  Forall vouched (ex_deliveries x) -> session_ok s -> xs_authenticated s = true -> outcome_ok (data_line line body b n x s).
Proof.
  intros Hx Hs Ha. unfold data_line. case_match; [apply kept_ok; [done|by apply set_reading_ok]|].
  case_match; [by apply reply_ok|]. apply kept_ok; [|by apply set_current_ok].
  simpl. rewrite Forall_app. split; [done|]. destruct (sk_vouched _ Hs Ha). by repeat constructor.
Qed.

Lemma session_step_ok i x s : Forall vouched (ex_deliveries x) -> session_ok s -> outcome_ok (session_step i x s).
Proof.
  intros Hx Hs. pose proof Hs as [Hv Hi Hd]. assert (outcome_ok (x, None, [])) as Hnone by done.
  destruct i as [line|[]|], (xs_reading s) as [| | | |body b n] eqn:Hr; simpl; rewrite ?Hr; try done.
  - by apply command_ok.
  - apply auth_initial_ok; auto.
  - by apply reply_ok.
  - apply data_line_ok; eauto.
  - apply kept_ok; [done|]. split; [|done..]. simpl. intros Ha. by destruct (Hv Ha).
Qed.

Definition fake_ok (f : FakeServer) : Prop :=
  Forall vouched (Deliveries f) /\ Forall (fun o => forall s, o = Some s -> session_ok s) (fk_sessions f).

Lemma fake_step_ok a f : fake_ok f -> fake_ok (fake_step a f).
Proof.
  intros [Hx Hs]. destruct a as [|k i|b|]; simpl; [| |by split..].
  - destruct (fk_closed f); [by split|]. split; [done|]. simpl. rewrite Forall_app. split; [done|]. constructor; [|done].
    intros s [= <-]. by split.
  - destruct (fk_sessions f !! k) as [[s|]|] eqn:Hk; [|by split..].
    rewrite Forall_lookup in Hs. pose proof (session_step_ok i (fk_shared f) s Hx (Hs _ _ Hk s eq_refl)) as [Hx' Hs'].
    destruct (session_step _ _ _) as [[x' s'] out]. split; [done|]. simpl. apply Forall_insert; [by apply Forall_lookup|done].
Qed.

(** Whatever clients send and in whatever order the sessions go on, the fake
    accepts a message only in a session that is encrypted and authenticated,
    and files it under the user and the token of that session's XOAUTH2
    response, neither of which is empty. *)
Theorem exchange_vouches_for_deliveries acts d :
  d ∈ Deliveries (foldr fake_step start_fake acts) ->
  parseXOAuth2 (dv_RawXOAuth2 d) = (dv_AuthUser d, dv_AuthToken d, true) /\ dv_AuthUser d <> "" /\ dv_AuthToken d <> "".
Proof.
  assert (fake_ok (foldr fake_step start_fake acts)) as [Hv _].
  { induction acts; [by split|]. by apply fake_step_ok. }
  intros Hd. rewrite Forall_forall in Hv. specialize (Hv d Hd). split; [done|].
  unfold vouched, parseXOAuth2 in Hv. destruct (foldl _ _ _) as [u t]. injection Hv as <- <- Hb. bools. done.
Qed.
End Vouched.

(** ** The client library *)

(** What the SMTP library writes for the calls of the relay and what it makes
    of the replies: the name of its own EHLO, the parameters it adds to MAIL
    and RCPT, the lines of a message before the final dot, whether the replies
    to EHLO offer XOAUTH2, and the error of a call, given the lines that came
    back. [cl_text] is the message as the other side sees it. *)
Class SMTPClient := {
  cl_name : string;
  cl_mail_params : string -> string;
  cl_rcpt_params : string -> string;
  cl_text : string -> string;
  cl_body : string -> list string;
  cl_supports_xoauth2 : list string -> bool;
  cl_NotSet : Z * Z * Z;        (* smtp.EnhancedCodeNotSet *)
  cl_reply : Cmd -> list string -> option GoError
}.

(** The status RFC 5321 has for the success of a call. *)
Definition expected (c : Cmd) : string :=
  match c with
  | CDial _ | CStartTLS => "220"
  | CHello _ | CMail _ | CRcpt _ | CEndData => "250"
  | CAuth _ => "235"
  | CData => "354"
  | CWrite _ => ""
  | CQuit => "221"
  end.

Definition status_of (line : string) : option Z := Atoi (take_bytes 3 line).

(** One line "550 5.1.1 text" or "550 text". *)
Definition reply_line (line : string) : bool := HasPrefix (drop_bytes 3 line) " " && negb (ContainsAny line CRLF).

(** The enhanced status of RFC 3463 at the head of its text, ... *)
Definition enhanced_of (line : string) : option (Z * Z * Z) :=
  match split_byte SP (drop_bytes 4 line) with
  | first :: _ :: _ =>
      match split_byte "."%char first with
      | [a; b; c] =>
          match Atoi a, Atoi b, Atoi c with
          | Some a, Some b, Some c =>
              if bool_decide (a = 2 \/ a = 4 \/ a = 5) && (0 <=? b) && (b <? 1000) && (0 <=? c) && (c <? 1000) then Some (a, b, c) else None
          | _, _, _ => None
          end
      | _ => None
      end
  | _ => None
  end.

(** ... and a text whose first word can not be one. *)
Definition no_enhanced (line : string) : bool :=
  match split_byte SP (drop_bytes 4 line) with first :: _ => negb (contains_byte first "."%char) | [] => true end.

(** The code by which a refusal is known: the enhanced status, else the
    number. A first word that only resembles an enhanced status is left open. *)
Definition reply_code (line : string) : option string :=
  match enhanced_of line, status_of line with
  | Some (a, b, c), _ => Some (Itoa a +:+ "." +:+ Itoa b +:+ "." +:+ Itoa c)
  | None, Some n => if no_enhanced line then Some (Itoa n) else None
  | None, None => None
  end.

(** Printable ASCII without blanks and angle brackets. *)
Definition word_byte (c : ascii) : bool :=
  (33 <=? code c) && (code c <=? 126) && negb (bool_decide (c = "<"%char)) && negb (bool_decide (c = ">"%char)).
Definition word (s : string) : bool := negb (string_exists (fun c => negb (word_byte c)) s).

(** Nothing, or words with a blank before each. *)
Definition params_ok (s : string) : bool :=
  match bytes s, rev (bytes s) with
  | first :: _, final :: _ =>
      bool_decide (first = SP) && word_byte final && negb (string_exists (fun c => negb (word_byte c || bool_decide (c = SP))) s)
  | _, _ => true
  end.

Definition dot_line (line : string) : bool :=
  bool_decide (line = "." +:+ CRLF) || bool_decide (line = String "."%char (String LF "")).

Class SMTPClientLaws (CL : SMTPClient) := {
  cl_name_word : word cl_name = true /\ cl_name <> "";
  cl_mail_ok : forall a, word a = true -> params_ok (cl_mail_params a) = true;
  cl_rcpt_ok : forall a, word a = true -> params_ok (cl_rcpt_params a) = true;
  cl_body_ok : forall raw, Forall (fun l => dot_line l = false) (cl_body raw);
  cl_body_text : forall raw, String.concat "" ((fun l => TrimPrefix l ".") <$> cl_body raw) = cl_text raw;
  cl_offer : forall rs mechs, "250-AUTH " +:+ mechs ∈ rs -> "XOAUTH2" ∈ split_byte SP mechs -> cl_supports_xoauth2 rs = true;
  cl_accept : forall c rs l, last rs = Some l -> take_bytes 3 l = expected c -> cl_reply c rs = None;
  cl_not_set : cl_NotSet = (0, 0, 0);
  cl_refuse : forall c l n, reply_line l = true -> status_of l = Some n -> 400 <= n < 600 ->
    exists err enhanced msg, cl_reply c [l] = Some err /\ as_smtp err = Some (n, enhanced, msg)
      /\ (forall t, enhanced_of l = Some t -> enhanced = t) /\ (no_enhanced l = true -> enhanced = cl_NotSet)
}.

Section Conversation.
Context `{UC : UnicodeCase} `{CL : SMTPClient}.

(** The endpoint and the connection to it, [None] when there is none. *)
Definition Conv : Type := Exchange * option XSession.

Definition feed (i : Input) (st : Conv) : Conv * list string :=
  match st with
  | (x, Some s) => session_step i x s
  | (x, None) => ((x, None), [])
  end.

Definition send (line : string) : Conv -> Conv * list string := feed (Line (line +:+ CRLF)).

(** A call of the relay on the library: what happens on the connection, and
    the lines the library reads. A challenge is answered with what
    [xoauth2Client.Next] says. *)
Definition converse (c : Cmd) (st : Conv) : Conv * list string :=
  match c with
  | CDial _ => ((st.1, Some open_session.1), open_session.2)
  | CStartTLS =>
      let st := (send ("EHLO " +:+ cl_name) st).1 in
      let '(st, rs) := send "STARTTLS" st in
      ((feed (Handshake true) st).1, rs)
  | CHello name => send ("EHLO " +:+ name) st
  | CAuth initial =>
      let '(st, rs) := send ("AUTH XOAUTH2 " +:+ std_encode initial) st in
      if existsb (fun l => HasPrefix l "334") rs
      then match xoauth2_next false with
           | (Ok response, _) => send (std_encode response) st
           | (Err _, _) => (st, rs)
           end
      else (st, rs)
  | CMail from => send ("MAIL FROM:<" +:+ from +:+ ">" +:+ cl_mail_params from) st
  | CRcpt to => send ("RCPT TO:<" +:+ to +:+ ">" +:+ cl_rcpt_params to) st
  | CData => send "DATA" st
  | CWrite raw => (foldl (fun st l => (feed (Line l) st).1) st (cl_body raw), [])
  | CEndData => send "." st
  | CQuit => send "QUIT" st
  end.

Fixpoint play (cmds : list Cmd) (st : Conv) : Conv :=
  match cmds with [] => st | c :: cmds => play cmds (converse c st).1 end.

(** What the relay sees of a call; writing the message gets no reply. *)
Definition heard (c : Cmd) (rs : list string) : option GoError :=
  match c with CWrite _ => None | _ => cl_reply c rs end.

(** The answers in [u] are those of the endpoint in the state [st], for the
    commands [cmds] one after the other. *)
Fixpoint agrees (u : SMTPUpstream) (st : Conv) (cmds : list Cmd) : Prop :=
  match cmds with
  | [] => True
  | c :: cmds =>
      let '(st', rs) := converse c st in
      answer u c = heard c rs
      /\ match c with CHello _ => up_supports_xoauth2 u = cl_supports_xoauth2 rs | _ => True end
      /\ agrees u st' cmds
  end.
End Conversation.

(** What the endpoint's behaviour makes of a message, in the order of the
    protocol, with the line it refuses with. *)
Inductive Verdict := Accepted | AuthRefused (line : string) | Refused (line : string).

Definition refusal_status (line : string) : Z := default 0 (status_of line).

Definition verdict (x : Exchange) (rcpts : list string) : Verdict :=
  let b := ex_behavior x in
  if bh_RejectAuth b then AuthRefused "535 5.7.3 Authentication unsuccessful"
  else if negb (bool_decide (bh_RejectMailFrom b = "")) then Refused (bh_RejectMailFrom b)
  else if negb (bool_decide (rcpts = [])) && negb (bool_decide (bh_RejectRcptTo b = "")) then Refused (bh_RejectRcptTo b)
  else if negb (bool_decide (bh_RejectData b = "")) then Refused (bh_RejectData b)
  else if (bh_FailAfterDeliveries b >? 0) && (Z.of_nat (length (ex_deliveries x)) >=? bh_FailAfterDeliveries b) then Refused "451 4.7.500 Server busy, please try again later"
  else Accepted.

(** A line the behaviour answers with is a refusal. *)
Definition refusing (line : string) : bool :=
  bool_decide (line = "") || (reply_line line && (400 <=? refusal_status line) && (refusal_status line <? 600)).
Definition sane (b : Behavior) : bool :=
  refusing (bh_RejectMailFrom b) && refusing (bh_RejectRcptTo b) && refusing (bh_RejectData b).

(** ** Lines and words *)

Lemma word_byte_plain c : word_byte c = true -> plain c /\ c <> SP /\ rune_self c = false /\ contains_byte "<>" c = false.
Proof.
  unfold word_byte, plain, ascii_space, rune_self. intros H. bools. split_and!; try lia.
  - intros ->. vm_compute in H. done.
  - unfold contains_byte. simpl. rewrite !bool_decide_eq_false_2; done.
Qed.

Lemma word_bytes s c : word s = true -> c ∈ bytes s -> word_byte c = true.
Proof.
  unfold word. intros H%negb_true_iff Hc. destruct (word_byte c) eqn:Hw; [done|]. exfalso.
  assert (string_exists (fun c => negb (word_byte c)) s = true); [|congruence]. apply string_exists_iff. exists c. by rewrite Hw.
Qed.

Lemma contains_byte_none s c : (forall d, d ∈ bytes s -> d <> c) -> contains_byte s c = false.
Proof. intros H. apply contains_byte_false. intros Hc. by apply (H c). Qed.

Lemma plain_not_break c : plain c -> c <> CR /\ c <> LF.
Proof. intros [H _]. split; intros ->; vm_compute in H; done. Qed.

Lemma TrimRight_CRLF s : plain_head (rev (bytes s)) -> TrimRight (s +:+ CRLF) CRLF = s.
Proof.
  intros Hs. unfold TrimRight. rewrite bytes_app, rev_app_distr. change (rev (bytes CRLF)) with [LF; CR].
  cbn [app drop_while]. replace (contains_byte CRLF LF) with true by done. replace (contains_byte CRLF CR) with true by done.
  enough (drop_while (contains_byte CRLF) (rev (bytes s)) = rev (bytes s)) as -> by (by rewrite rev_involutive, unbytes_bytes).
  destruct (rev (bytes s)) as [|c l]; [done|]. apply plain_not_break in Hs as [H1 H2]. cbn [drop_while].
  enough (contains_byte CRLF c = false) as -> by done. apply contains_byte_none. intros d Hd.
  change (bytes CRLF) with [CR; LF] in Hd. set_solver.
Qed.

(** The last byte of a string put together. *)
Lemma plain_last_app s t : t <> "" -> plain_head (rev (bytes t)) -> plain_head (rev (bytes (s +:+ t))).
Proof.
  intros Ht H. rewrite bytes_app, rev_app_distr. destruct (rev (bytes t)) eqn:Hr; [|done].
  apply (f_equal (@rev ascii)) in Hr. rewrite rev_involutive in Hr. simpl in Hr. by destruct t.
Qed.

(** A verb, a blank and its arguments. *)
Lemma splitCommand_args verb args :
  contains_byte verb SP = false -> plain_head (bytes verb) -> verb <> "" ->
  plain_head (bytes args) -> plain_head (rev (bytes args)) -> args <> "" ->
  splitCommand (verb +:+ " " +:+ args) = (verb, args).
Proof.
  intros Hv Hh Hn Ha Hl Hna. unfold splitCommand. rewrite TrimSpace_ends.
  - change (" " +:+ args) with (String SP args). rewrite cut_byte_app by done. f_equal. by apply TrimSpace_ends.
  - destruct verb; [done|]. done.
  - rewrite <-string_app_assoc. by apply plain_last_app.
Qed.

Lemma command_split verb args :
  contains_byte verb SP = false -> plain_head (bytes verb) -> verb <> "" ->
  plain_head (bytes args) -> plain_head (rev (bytes args)) -> args <> "" ->
  splitCommand (TrimRight ((verb +:+ " " +:+ args) +:+ CRLF) CRLF) = (verb, args).
Proof.
  intros. rewrite TrimRight_CRLF; [by apply splitCommand_args|].
  rewrite <-string_app_assoc. by apply plain_last_app.
Qed.

Lemma word_heads s : word s = true -> plain_head (bytes s) /\ plain_head (rev (bytes s)).
Proof.
  intros Hw. split; apply plain_head_all; intros c Hc; apply word_byte_plain, (word_bytes s); try done. by apply elem_of_rev.
Qed.

(** The padded encoding. *)
Lemma b64_digits_length l :
  length (b64_digits l) = (4 * (length l / 3) + match (length l mod 3)%nat with 0%nat => 0 | 1%nat => 2 | _ => 3 end)%nat.
Proof.
  induction l as [l IH] using (induction_ltof1 _ (@length Z)); unfold ltof in IH.
  destruct l as [|a [|b [|c l]]]; [done..|]. cbn [b64_digits length]. rewrite (IH l) by (simpl; lia).
  replace (S (S (S (length l)))) with (length l + 1 * 3)%nat by lia.
  rewrite Nat.div_add, Nat.Div0.mod_add by lia. lia.
Qed.

Lemma pad_bytes s : bytes (pad_of s) = repeat "="%char (match (String.length s mod 3)%nat with 1%nat => 2 | 2%nat => 1 | _ => 0 end).
Proof. unfold pad_of. by repeat case_match. Qed.

Lemma b64_no_pad s : "="%char ∉ bytes (b64_encode StdAlphabet s).
Proof. apply contains_byte_false, b64_encode_no; [exact StdAlphabet_ok|]. by apply contains_byte_false. Qed.

Lemma strip_pad_repeat k l : (k <= 2)%nat -> "="%char ∉ l -> strip_pad (repeat "="%char k ++ l) = l.
Proof.
  intros Hk Hl. destruct k as [|[|[|k]]]; [| | |lia]; simpl; destruct l as [|c l]; simpl; try done;
    rewrite not_elem_of_cons in Hl; destruct Hl as [Hc _]; by rewrite bool_decide_eq_false_2.
Qed.

Lemma std_length s : (length (bytes (std_encode s)) mod 4)%nat = 0%nat.
Proof.
  unfold std_encode, b64_encode. rewrite bytes_app, length_app, bytes_unbytes, length_fmap, b64_digits_length, length_fmap, length_bytes.
  rewrite pad_bytes, repeat_length. pose proof (Nat.mod_upper_bound (String.length s) 3 ltac:(lia)).
  destruct (String.length s mod 3)%nat as [|[|[|n]]]; [| | |lia].
  - rewrite !Nat.add_0_r, Nat.mul_comm. apply Nat.Div0.mod_mul.
  - replace (4 * (String.length s / 3) + 2 + 2)%nat with ((String.length s / 3 + 1) * 4)%nat by lia. apply Nat.Div0.mod_mul.
  - replace (4 * (String.length s / 3) + 3 + 1)%nat with ((String.length s / 3 + 1) * 4)%nat by lia. apply Nat.Div0.mod_mul.
Qed.

Lemma std_chars s c : c ∈ bytes (std_encode s) -> word_byte c = true.
Proof.
  unfold std_encode. rewrite bytes_app, elem_of_app. intros [Hc|Hc].
  - apply b64_encode_chars in Hc; [|exact StdAlphabet_ok]. assert (word StdAlphabet = true) as Hw by (by vm_compute).
    by apply (word_bytes StdAlphabet).
  - rewrite pad_bytes in Hc. apply list_elem_of_In, repeat_spec in Hc as ->. done.
Qed.

Lemma std_word s : word (std_encode s) = true.
Proof.
  unfold word. apply negb_true_iff, not_true_iff_false. intros (c & Hc & Hn)%string_exists_iff. by rewrite (std_chars _ _ Hc) in Hn.
Qed.

Lemma std_decode_encode s : std_decode (std_encode s) = Some s.
Proof.
  unfold std_decode. rewrite filter_all.
  - rewrite bool_decide_eq_true_2 by apply std_length. unfold std_encode. rewrite bytes_app, rev_app_distr, pad_bytes, rev_repeat, strip_pad_repeat.
    + rewrite rev_involutive, unbytes_bytes. by apply b64_decode_encode, StdAlphabet_ok.
    + repeat case_match; lia.
    + rewrite elem_of_rev. apply b64_no_pad.
  - apply Forall_forall. intros c Hc%std_chars%word_byte_plain. destruct Hc as [[H1 H2]%plain_not_break _].
    unfold is_break. by rewrite !bool_decide_eq_false_2.
Qed.

Lemma std_encode_nonempty s : s <> "" -> std_encode s <> "".
Proof.
  intros Hs He. apply (b64_encode_nonempty StdAlphabet StdAlphabet_ok s Hs). unfold std_encode in He.
  by destruct (b64_encode StdAlphabet s).
Qed.

(** The fake reads what the relay built. *)
Lemma parse_built mailbox token initial :
  BuildXOAuth2 mailbox token = Ok initial -> parseXOAuth2 initial = (mailbox, token, true) /\ initial <> "".
Proof.
  unfold BuildXOAuth2. case_bool_decide as Hm; [done|]. case_bool_decide as Ht; [done|].
  destruct (ContainsAny mailbox _) eqn:Hcm; [done|]. destruct (ContainsAny token _) eqn:Hct; [done|]. intros [= <-].
  apply (ContainsAny_false _ _ SOH) in Hcm; [|done]. apply (ContainsAny_false _ _ SOH) in Hct; [|done].
  split; [|done]. unfold parseXOAuth2, separator.
  assert (split_byte SOH ("user=" +:+ mailbox +:+ String SOH "" +:+ "auth=Bearer " +:+ token +:+ String SOH "" +:+ String SOH "")
          = ["user=" +:+ mailbox; "auth=Bearer " +:+ token; ""; ""]) as ->.
  { change (String SOH "" +:+ String SOH "") with (String SOH (String SOH "")).
    rewrite <-(string_app_assoc "user="). change (String SOH "" +:+ ?x) with (String SOH x).
    rewrite split_byte_app by (rewrite contains_byte_app, Hcm; done). f_equal.
    change ("" +:+ ?x) with x. rewrite <-(string_app_assoc "auth=Bearer ").
    rewrite split_byte_app by (rewrite contains_byte_app, Hct; done). done. }
  cbn [foldl]. unfold parse_part, TrimPrefix. rewrite !CutPrefix_app, !HasPrefix_app.
  replace (HasPrefix ("auth=Bearer " +:+ token) "user=") with false by done. cbn.
  by rewrite !bool_decide_eq_false_2.
Qed.

Lemma Index_prefix s sub : HasPrefix s sub = true -> Index sub s = Some 0%nat.
Proof. intros H. destruct s; cbn [Index]; by rewrite H. Qed.

Lemma drop_while_head f l : match l with [] => True | c :: _ => f c = false end -> drop_while f l = l.
Proof. destruct l as [|c l]; [done|]. simpl. by intros ->. Qed.

Lemma Trim_angles a : word a = true -> Trim ("<" +:+ a +:+ ">") "<>" = a.
Proof.
  intros Ha. assert (forall l, (forall c, c ∈ l -> word_byte c = true) ->
    match l with [] => True | c :: _ => contains_byte "<>" c = false end) as Hh.
  { intros [|c l]; [done|]. intros H. apply word_byte_plain, H. left. }
  unfold Trim, TrimRight. rewrite !bytes_app. cbn [bytes String.list_ascii_of_string app drop_while].
  replace (contains_byte "<>" "<"%char) with true by done.
  destruct (bytes a) as [|c l] eqn:Hb; [by destruct a|].
  assert (forall d, d ∈ c :: l -> word_byte d = true) as Hw by (rewrite <-Hb; eauto using word_bytes).
  rewrite (drop_while_head _ ((c :: l) ++ [">"%char])) by (apply (Hh (c :: l) Hw)).
  rewrite bytes_unbytes, rev_app_distr. cbn [rev app drop_while]. replace (contains_byte "<>" ">"%char) with true by done.
  change (rev l ++ [c]) with (rev (c :: l)). rewrite drop_while_head.
  - by rewrite rev_involutive, <-Hb, unbytes_bytes.
  - apply Hh. intros d Hd. by apply Hw, elem_of_rev.
Qed.

Lemma params_cases s :
  params_ok s = true -> s = "" \/ exists r, s = String SP r /\ plain_head (rev (bytes s)) /\ is_ascii s = true.
Proof.
  unfold params_ok. destruct s as [|c r]; [by left|]. cbn [bytes String.list_ascii_of_string].
  destruct (rev (c :: _)) as [|final l] eqn:Hr.
  { apply (f_equal (@rev ascii)) in Hr. by rewrite rev_involutive in Hr. }
  intros H. bools. right. exists r. split_and!; [by subst|by apply word_byte_plain|].
  unfold is_ascii. apply negb_true_iff, not_true_iff_false. intros (d & Hd & Hn)%string_exists_iff.
  apply not_true_iff_false in H0. apply H0, string_exists_iff. exists d. split; [done|].
  destruct (word_byte d) eqn:Hw; [apply word_byte_plain in Hw as (_ & _ & Hw & _); congruence|]. simpl.
  apply negb_true_iff, bool_decide_eq_false_2. intros ->. vm_compute in Hn. done.
Qed.

Lemma word_ascii s : word s = true -> is_ascii s = true.
Proof.
  intros Hw. unfold is_ascii. apply negb_true_iff, not_true_iff_false. intros (d & Hd & Hn)%string_exists_iff.
  apply (word_bytes s d Hw), word_byte_plain in Hd as (_ & _ & Hd & _). congruence.
Qed.

Lemma word_no c s : word s = true -> word_byte c = false -> contains_byte s c = false.
Proof. intros Hw Hc. apply contains_byte_none. intros d Hd ->. by rewrite (word_bytes s c) in Hc. Qed.

Lemma path_plain_last pre a params :
  params_ok params = true -> plain_head (rev (bytes (pre +:+ "<" +:+ a +:+ ">" +:+ params))).
Proof.
  intros [->|(r & -> & Hr & _)]%params_cases.
  - rewrite string_app_nil, <-!string_app_assoc. by apply plain_last_app.
  - rewrite <-!string_app_assoc. by apply plain_last_app.
Qed.

(** The address of a path, with parameters after it or not. *)
Lemma extract_path `{UC : UnicodeCase} pre a params :
  is_ascii pre = true -> string_map upper_byte pre = pre -> word a = true -> params_ok params = true ->
  extractAddress (pre +:+ "<" +:+ a +:+ ">" +:+ params) pre = Some a.
Proof.
  intros Hpre Hup Ha Hok. pose proof (params_cases _ Hok) as Hp. unfold extractAddress.
  assert (is_ascii (pre +:+ "<" +:+ a +:+ ">" +:+ params) = true) as Hascii.
  { unfold is_ascii in *. rewrite !string_exists_app. apply word_ascii in Ha. unfold is_ascii in Ha. apply negb_true_iff in Ha, Hpre.
    rewrite Ha, Hpre. simpl. destruct Hp as [->|(r & _ & _ & Hr)]; [done|]. unfold is_ascii in Hr. apply negb_true_iff in Hr. by rewrite Hr. }
  unfold ToUpper. rewrite Hascii, string_map_app, Hup, Index_prefix by apply HasPrefix_app.
  rewrite String_length_app. replace (_ <? _)%nat with false by (symmetry; apply Nat.ltb_ge; lia).
  simpl (0 + _)%nat. rewrite drop_bytes_app. f_equal. rewrite TrimSpace_ends; [|done|].
  - rewrite <-(string_app_assoc a), <-(string_app_assoc "<").
    assert (contains_byte ("<" +:+ a +:+ ">") SP = false) as Hsp by (rewrite !contains_byte_app, (word_no SP a); done).
    destruct Hp as [->|(r & -> & _)].
    + rewrite string_app_nil, cut_byte_none by done. by apply Trim_angles.
    + rewrite cut_byte_app by done. by apply Trim_angles.
  - by apply (path_plain_last "").
Qed.

(** ** A delivery, call by call *)

Section Agreement.
Context `{UC : UnicodeCase} `{CL : SMTPClient} `{LW : !SMTPClientLaws CL}.

(** An encrypted session that waits for a command. *)
Definition idle (x : Exchange) (authenticated : bool) (d : Delivery) : Conv := (x, Some (mkXSession true authenticated d ReadCommand)).

(** The switch, for the verbs with arguments. *)
Lemma command_verb line verb args x s :
  splitCommand (TrimRight (line +:+ CRLF) CRLF) = (verb, args) -> xs_reading s = ReadCommand ->
  send line (x, Some s)
  = if bool_decide (verb = "AUTH") then xs_auth args x s
    else if bool_decide (verb = "MAIL") then xs_mail args x s
    else if bool_decide (verb = "RCPT") then xs_rcpt args x s
    else send line (x, Some s).
Proof.
  intros Hl Hs. repeat case_bool_decide; subst; [..|done];
    unfold send, feed, session_step; rewrite Hs; unfold command; by rewrite Hl.
Qed.

Lemma send_ehlo name x s :
  word name = true -> name <> "" -> xs_reading s = ReadCommand -> send ("EHLO " +:+ name) (x, Some s) = ehlo x s.
Proof.
  intros Hw Hn Hs. unfold send, feed, session_step. rewrite Hs. unfold command. destruct (word_heads _ Hw).
  change ("EHLO " +:+ name) with ("EHLO" +:+ " " +:+ name). by rewrite command_split.
Qed.

Lemma converse_starttls x :
  converse CStartTLS (x, Some open_session.1) = (idle x false no_delivery, ["220 2.0.0 SMTP server ready"]).
Proof. unfold converse. destruct cl_name_word as [Hw Hn]. by rewrite send_ehlo. Qed.

Lemma converse_hello name x a d :
  word name = true -> name <> "" ->
  exists rs, converse (CHello name) (idle x a d) = (idle x a d, rs) /\ last rs = Some "250 SMTPUTF8" /\ "250-AUTH XOAUTH2 LOGIN" ∈ rs.
Proof. intros Hw Hn. eexists. split; [by apply send_ehlo|]. split; [done|]. simpl. set_solver. Qed.

Lemma converse_auth mailbox token initial x :
  BuildXOAuth2 mailbox token = Ok initial ->
  converse (CAuth initial) (idle x false no_delivery)
  = if bh_RejectAuth (ex_behavior x)
    then (idle x false no_delivery, ["535 5.7.3 Authentication unsuccessful"])
    else (idle x true (mkDelivery mailbox token initial "" [] ""), ["235 2.7.0 Authentication successful"]).
Proof.
  intros [Hp Hn]%parse_built. pose proof (std_word initial) as Hw. pose proof (std_encode_nonempty initial Hn) as Hne.
  destruct (word_heads _ Hw) as [Hh Hl].
  assert (send ("AUTH XOAUTH2 " +:+ std_encode initial) (idle x false no_delivery)
          = auth_initial (std_encode initial) x (mkXSession true false no_delivery ReadCommand)) as Hs.
  { change ("AUTH XOAUTH2 " +:+ std_encode initial) with ("AUTH" +:+ " " +:+ ("XOAUTH2" +:+ " " +:+ std_encode initial)).
    unfold idle. rewrite (command_verb _ "AUTH" ("XOAUTH2" +:+ " " +:+ std_encode initial));
      [|apply command_split; try done; by rewrite <-string_app_assoc; apply plain_last_app|done].
    rewrite bool_decide_eq_true_2 by done. unfold xs_auth. rewrite splitCommand_args by done.
    replace (EqualFold "XOAUTH2" "XOAUTH2") with true by done. by rewrite bool_decide_eq_false_2. }
  unfold converse. rewrite Hs. unfold auth_initial. rewrite std_decode_encode, Hp. cbn [negb].
  destruct (bh_RejectAuth _) eqn:Hr; done.
Qed.

Lemma converse_mail from x d :
  word from = true ->
  converse (CMail from) (idle x true d)
  = if bool_decide (bh_RejectMailFrom (ex_behavior x) = "")
    then (idle x true (mkDelivery (dv_AuthUser d) (dv_AuthToken d) (dv_RawXOAuth2 d) from [] (dv_Data d)), ["250 2.1.0 Sender OK"])
    else (idle x true d, [bh_RejectMailFrom (ex_behavior x)]).
Proof.
  intros Hw. pose proof (cl_mail_ok from Hw) as Hp. unfold converse, idle.
  change ("MAIL FROM:<" +:+ from +:+ ">" +:+ cl_mail_params from) with ("MAIL" +:+ " " +:+ ("FROM:" +:+ "<" +:+ from +:+ ">" +:+ cl_mail_params from)).
  erewrite command_verb; [|apply command_split; try done; by apply path_plain_last|done].
  rewrite bool_decide_eq_false_2, bool_decide_eq_true_2 by done. unfold xs_mail. cbn [xs_authenticated negb].
  rewrite extract_path by done. by case_bool_decide.
Qed.

Lemma converse_rcpt to x d :
  word to = true ->
  converse (CRcpt to) (idle x true d)
  = if bool_decide (bh_RejectRcptTo (ex_behavior x) = "")
    then (idle x true (mkDelivery (dv_AuthUser d) (dv_AuthToken d) (dv_RawXOAuth2 d) (dv_EnvelopeFrom d) (dv_Recipients d ++ [to]) (dv_Data d)),
          ["250 2.1.5 Recipient OK"])
    else (idle x true d, [bh_RejectRcptTo (ex_behavior x)]).
Proof.
  intros Hw. pose proof (cl_rcpt_ok to Hw) as Hp. unfold converse, idle.
  change ("RCPT TO:<" +:+ to +:+ ">" +:+ cl_rcpt_params to) with ("RCPT" +:+ " " +:+ ("TO:" +:+ "<" +:+ to +:+ ">" +:+ cl_rcpt_params to)).
  erewrite command_verb; [|apply command_split; try done; by apply path_plain_last|done].
  rewrite !bool_decide_eq_false_2, bool_decide_eq_true_2 by done. unfold xs_rcpt. cbn [xs_authenticated negb].
  rewrite extract_path by done. by case_bool_decide.
Qed.

Lemma converse_data x d :
  converse CData (idle x true d)
  = if bool_decide (bh_RejectData (ex_behavior x) = "")
    then ((x, Some (mkXSession true true d (ReadData "" (bh_FailAfterDeliveries (ex_behavior x)) (Z.of_nat (length (ex_deliveries x)))))),
          ["354 Start mail input; end with <CRLF>.<CRLF>"])
    else (idle x true d, [bh_RejectData (ex_behavior x)]).
Proof.
  assert (send "DATA" (idle x true d) = xs_data x (mkXSession true true d ReadCommand)) as Hs by done.
  unfold converse. rewrite Hs. unfold xs_data. cbn [xs_authenticated negb]. by case_bool_decide.
Qed.

Lemma feed_body ls body b n x d :
  Forall (fun l => dot_line l = false) ls ->
  foldl (fun st l => (feed (Line l) st).1) (x, Some (mkXSession true true d (ReadData body b n))) ls
  = (x, Some (mkXSession true true d (ReadData (body +:+ String.concat "" ((fun l => TrimPrefix l ".") <$> ls)) b n))).
Proof.
  intros Hl. revert body. induction Hl as [|l ls Hl _ IH]; intros body; [by rewrite string_app_nil|].
  cbn [foldl feed session_step xs_reading]. unfold data_line. unfold dot_line in Hl. rewrite Hl. cbn [negb fst].
  etransitivity; [apply IH|]. rewrite string_app_assoc. do 6 f_equal. destruct ls; [by rewrite string_app_nil|done].
Qed.

Lemma converse_write raw b n x d :
  converse (CWrite raw) (x, Some (mkXSession true true d (ReadData "" b n)))
  = ((x, Some (mkXSession true true d (ReadData (cl_text raw) b n))), []).
Proof. unfold converse. rewrite feed_body by apply cl_body_ok. by rewrite cl_body_text. Qed.

(** The fake's verdict on a message, when it has all of it. *)
Lemma converse_end body b n x d :
  converse CEndData (x, Some (mkXSession true true d (ReadData body b n)))
  = if (b >? 0) && (n >=? b)
    then (idle x true d, ["451 4.7.500 Server busy, please try again later"])
    else (idle (mkExchange (ex_deliveries x ++
            [mkDelivery (dv_AuthUser d) (dv_AuthToken d) (dv_RawXOAuth2 d) (dv_EnvelopeFrom d) (dv_Recipients d) body]) (ex_behavior x)) true
            (mkDelivery (dv_AuthUser d) (dv_AuthToken d) (dv_RawXOAuth2 d) "" [] ""), ["250 2.0.0 OK <fake-message-id>"]).
Proof. unfold converse, send, feed, session_step. cbn [xs_reading]. unfold data_line. rewrite (bool_decide_eq_true_2 (_ = _)) by done. by case_match. Qed.

(** *** A program logic for the relay

    [runs_to u st w P]: if the answers in [u] are the endpoint's, the run [w]
    from the state [st] ends in a state and with a result of [P]. *)
Context (u : SMTPUpstream).

Definition runs_to (st : Conv) (w : Wire unit) (P : Conv -> result GoError unit -> Prop) : Prop :=
  agrees u st w.1 -> P (play w.1 st) w.2.

Lemma runs_ret st P : P st (Ok tt) -> runs_to st (wire_ret tt) P.
Proof. by intros HP _. Qed.

Lemma bind_assoc {A B C} (w : Wire A) (f : A -> Wire B) (g : B -> Wire C) :
  wire_bind (wire_bind w f) g = wire_bind w (fun a => wire_bind (f a) g).
Proof.
  destruct w as [t [a|e]]; [|done]. simpl. destruct (f a) as [t1 [b|e]]; simpl; [|done]. destruct (g b) as [t2 r]. by rewrite app_assoc.
Qed.

(** A call the endpoint grants ... *)
Lemma runs_call c f st st' rs k P :
  converse c st = (st', rs) -> heard c rs = None ->
  ((match c with CHello _ => up_supports_xoauth2 u = cl_supports_xoauth2 rs | _ => True end) -> runs_to st' (k tt) P) ->
  runs_to st (wire_bind (wire_call c (answer u c) f) k) P.
Proof.
  intros Hc Hh Hk. unfold runs_to, wire_call, wire_bind. destruct (answer u c) as [e|] eqn:Ha; [|destruct (k tt) as [t r] eqn:Hkt]; simpl;
    rewrite Hc; intros (Hag & Hsup & Hrest); rewrite Ha, Hh in Hag; [done|]. simpl. specialize (Hk Hsup). by apply Hk.
Qed.

(** ... and one it refuses. *)
Lemma runs_refused c f st st' rs e k P :
  converse c st = (st', rs) -> heard c rs = Some e -> P st' (Err (f e)) -> runs_to st (wire_bind (wire_call c (answer u c) f) k) P.
Proof.
  intros Hc Hh HP. unfold runs_to, wire_call, wire_bind. destruct (answer u c) as [e'|] eqn:Ha; [|destruct (k tt) as [t r]]; simpl;
    rewrite Hc; intros (Hag & _); rewrite Ha, Hh in Hag; [|done]. by injection Hag as ->.
Qed.

Local Abbreviation NS := cl_NotSet.

(** An error that says what the line says. *)
Definition reports (line : string) (e : GoError) : Prop :=
  (exists enhanced msg, as_smtp e = Some (refusal_status line, enhanced, msg))
  /\ forall code, reply_code line = Some code -> f_Code (AsFailure e) = code.

Lemma enhanced_class line a b c : enhanced_of line = Some (a, b, c) -> (a, b, c) <> (0, 0, 0).
Proof. unfold enhanced_of. intros H [= -> -> ->]. repeat case_match; simplify_eq. Qed.

(** The code the relay reports for a status is the one of the line. *)
Lemma enhanced_or_numeric line n enhanced code :
  status_of line = Some n -> (forall t, enhanced_of line = Some t -> enhanced = t) -> (no_enhanced line = true -> enhanced = NS) ->
  reply_code line = Some code -> enhancedOrNumeric NS n enhanced = code.
Proof.
  intros Hs He Hno. unfold reply_code, enhancedOrNumeric. rewrite Hs, cl_not_set in *. destruct (enhanced_of line) as [[[a b] c]|] eqn:Hen.
  - rewrite (He _ eq_refl), (bool_decide_eq_false_2 _ (enhanced_class _ _ _ _ Hen)). by intros [= <-].
  - destruct (no_enhanced line); [|done]. rewrite Hno, bool_decide_eq_true_2 by done. by intros [= <-].
Qed.

Lemma refusing_status line :
  refusing line = true -> line <> "" -> reply_line line = true /\ status_of line = Some (refusal_status line) /\ 400 <= refusal_status line < 600.
Proof.
  unfold refusing, refusal_status. intros H Hn. rewrite (bool_decide_eq_false_2 _ Hn) in H. simpl in H.
  destruct (status_of line) as [n|]; simpl in *; bools; [split_and!; [done|done|lia..]|lia].
Qed.

Lemma refused_status what c line :
  (forall raw, c <> CWrite raw) -> refusing line = true -> line <> "" ->
  exists e, heard c [line] = Some e /\ IsPermanent (classify NS what e) = (500 <=? refusal_status line) /\ reports line (classify NS what e).
Proof.
  intros Hc Hl Hn. destruct (refusing_status _ Hl Hn) as (Hrl & Hs & Hr).
  destruct (cl_refuse c line _ Hrl Hs Hr) as (e & enh & msg & He & Has & Hen & Hno).
  exists e. split; [by destruct c; try done; destruct (Hc raw)|]. unfold classify. rewrite Has, Z.geb_leb.
  split; [by case_match|]. split; [exists enh, msg; by case_match|]. intros code Hcode. case_match; by apply (enhanced_or_numeric line).
Qed.

Lemma refused_auth mailbox c line :
  (forall raw, c <> CWrite raw) -> refusing line = true -> line <> "" ->
  exists e, heard c [line] = Some e /\ IsAuthFailure (classifyAuth NS mailbox e) = true /\ IsPermanent (classifyAuth NS mailbox e) = false
    /\ reports line (classifyAuth NS mailbox e).
Proof.
  intros Hc Hl Hn. destruct (refusing_status _ Hl Hn) as (Hrl & Hs & Hr).
  destruct (cl_refuse c line _ Hrl Hs Hr) as (e & enh & msg & He & Has & Hen & Hno).
  exists e. split; [by destruct c; try done; destruct (Hc raw)|]. unfold classifyAuth. rewrite Has. split_and!; [done..|].
  split; [by exists enh, msg|]. intros code Hcode. by apply (enhanced_or_numeric line).
Qed.

Definition with_recipients (d : Delivery) (rcpts : list string) : Delivery :=
  mkDelivery (dv_AuthUser d) (dv_AuthToken d) (dv_RawXOAuth2 d) (dv_EnvelopeFrom d) (dv_Recipients d ++ rcpts) (dv_Data d).

Lemma runs_rcpts rcpts x d k P :
  Forall (fun r => word r = true) rcpts -> refusing (bh_RejectRcptTo (ex_behavior x)) = true ->
  (rcpts = [] \/ bh_RejectRcptTo (ex_behavior x) = "" -> runs_to (idle x true (with_recipients d rcpts)) (k tt) P) ->
  (rcpts <> [] -> bh_RejectRcptTo (ex_behavior x) <> "" ->
     forall e, IsPermanent e = (500 <=? refusal_status (bh_RejectRcptTo (ex_behavior x))) -> reports (bh_RejectRcptTo (ex_behavior x)) e -> P (idle x true d) (Err e)) ->
  runs_to (idle x true d) (wire_bind (rcpt_all NS u rcpts) k) P.
Proof.
  intros Hw Hsane Hk Hr. revert d Hk Hr. induction Hw as [|r rcpts Hw Hws IH]; intros d Hk Hr.
  { unfold rcpt_all, wire_ret, wire_bind. destruct (k tt) as [t res] eqn:Hkt. unfold runs_to. cbn [fst snd app].
    specialize (Hk (or_introl eq_refl)). unfold with_recipients in Hk. rewrite app_nil_r in Hk. destruct d. exact Hk. }
  cbn [rcpt_all]. rewrite bind_assoc. destruct (decide (bh_RejectRcptTo (ex_behavior x) = "")) as [Hno|Hyes].
  - eapply (runs_call (CRcpt r)).
    + rewrite converse_rcpt, bool_decide_eq_true_2 by done. reflexivity.
    + by apply (cl_accept (CRcpt r) _ "250 2.1.5 Recipient OK").
    + intros _. apply IH; [|by intros _ ?]. intros _. specialize (Hk (or_intror Hno)).
      unfold with_recipients in *. cbn [dv_AuthUser dv_AuthToken dv_RawXOAuth2 dv_EnvelopeFrom dv_Recipients dv_Data]. by rewrite <-app_assoc.
  - destruct (refused_status ("RCPT TO " +:+ r +:+ " was rejected") (CRcpt r) _ ltac:(done) Hsane Hyes) as (e & He & Hp & Hrep).
    eapply (runs_refused (CRcpt r)); [rewrite converse_rcpt, bool_decide_eq_false_2 by done; reflexivity|exact He|]. by apply Hr.
Qed.

Lemma heard_ok c rs l : last rs = Some l -> take_bytes 3 l = expected c -> heard c rs = None.
Proof. intros Hl He. destruct c; try done; by eapply cl_accept. Qed.

(** The endpoint takes the whole message, so [Write] does not fail. *)
Lemma runs_write raw b n x d k P :
  runs_to (x, Some (mkXSession true true d (ReadData (cl_text raw) b n))) (k tt) P ->
  runs_to (x, Some (mkXSession true true d (ReadData "" b n))) (wire_bind (write_all u raw) k) P.
Proof.
  intros Hk. unfold runs_to, write_all, wire_bind. destruct (up_write u) as [e|] eqn:Hu; [|destruct (k tt) as [t r] eqn:Hkt]; cbn [fst snd app agrees play];
    rewrite converse_write; intros (Hag & _ & Hrest); cbn in Hag; [congruence|]. unfold runs_to in Hk. by apply Hk.
Qed.

(** From MAIL on. *)
Lemma runs_deliver x user token raw m (P : Conv -> result GoError unit -> Prop) :
  word (EnvelopeFrom m) = true -> Forall (fun r => word r = true) (t_Recipients m) -> sane (ex_behavior x) = true ->
  bh_RejectAuth (ex_behavior x) = false ->
  (forall line st e, verdict x (t_Recipients m) = Refused line -> st.1 = x -> IsPermanent e = (500 <=? refusal_status line) -> reports line e -> P st (Err e)) ->
  (forall st, verdict x (t_Recipients m) = Accepted -> ex_behavior st.1 = ex_behavior x ->
     ex_deliveries st.1 = ex_deliveries x ++ [mkDelivery user token raw (EnvelopeFrom m) (t_Recipients m) (cl_text (t_Raw m))] -> P st (Ok tt)) ->
  runs_to (idle x true (mkDelivery user token raw "" [] "")) (relay_deliver NS u m) P.
Proof.
  intros Hf Hr Hsane Ha Href Hacc. apply andb_true_iff in Hsane as [[Hs1 Hs2]%andb_true_iff Hs3]. unfold verdict in Href, Hacc. rewrite Ha in Href, Hacc.
  set (b := ex_behavior x) in *. unfold relay_deliver.
  destruct (decide (bh_RejectMailFrom b = "")) as [Hm|Hm].
  2: { destruct (refused_status "MAIL FROM was rejected" (CMail (EnvelopeFrom m)) _ ltac:(done) Hs1 Hm) as (e & He & Hp & Hrep).
       rewrite (bool_decide_eq_false_2 _ Hm) in Href. simpl in Href.
       eapply (runs_refused (CMail _)); [rewrite converse_mail, bool_decide_eq_false_2 by done; reflexivity|exact He|]. by eapply Href. }
  rewrite (bool_decide_eq_true_2 _ Hm) in Href, Hacc. cbn [negb] in Href, Hacc.
  eapply (runs_call (CMail _)); [rewrite converse_mail, bool_decide_eq_true_2 by done; reflexivity|by eapply heard_ok|intros _].
  apply runs_rcpts; [done|done| |].
  2: { intros Hne Hrej e He Hrep. rewrite (bool_decide_eq_false_2 _ Hne), (bool_decide_eq_false_2 _ Hrej) in Href. by eapply Href. }
  intros Hgo. assert (negb (bool_decide (t_Recipients m = [])) && negb (bool_decide (bh_RejectRcptTo b = "")) = false) as Hv.
  { destruct Hgo as [-> | Hgo]; [done|]. fold b in Hgo. by rewrite (bool_decide_eq_true_2 _ Hgo), andb_false_r. }
  rewrite Hv in Href, Hacc. clear Hv.
  destruct (decide (bh_RejectData b = "")) as [Hd|Hd].
  2: { destruct (refused_status "DATA was rejected" CData _ ltac:(done) Hs3 Hd) as (e & He & Hp & Hrep).
       rewrite (bool_decide_eq_false_2 _ Hd) in Href. simpl in Href.
       eapply (runs_refused CData); [rewrite converse_data, bool_decide_eq_false_2 by done; reflexivity|exact He|]. by eapply Href. }
  rewrite (bool_decide_eq_true_2 _ Hd) in Href, Hacc. cbn [negb] in Href, Hacc.
  eapply (runs_call CData); [rewrite converse_data, bool_decide_eq_true_2 by done; reflexivity|by eapply heard_ok|intros _].
  apply runs_write. fold b.
  destruct ((bh_FailAfterDeliveries b >? 0) && (Z.of_nat (length (ex_deliveries x)) >=? bh_FailAfterDeliveries b)) eqn:Hbusy.
  - destruct (refused_status "the message was rejected" CEndData "451 4.7.500 Server busy, please try again later"
      ltac:(done) ltac:(by vm_compute) ltac:(done)) as (e & He & Hp & Hrep).
    eapply (runs_refused CEndData); [rewrite converse_end, Hbusy; reflexivity|exact He|]. by eapply Href.
  - eapply (runs_call CEndData); [rewrite converse_end, Hbusy; reflexivity|by eapply heard_ok|intros _].
    intros _. apply Hacc; [done|..]; done.
Qed.

End Agreement.

(** ** A client with the dot writer of net/textproto *)

(** The states of [dotWriter]. *)
Inductive WState := WBegin | WLine | WData | WCR.

Definition next_state (st : WState) (c : ascii) : WState :=
  match st with
  | WCR => if bool_decide (c = LF) then WLine else WData
  | _ => if bool_decide (c = CR) then WCR else if bool_decide (c = LF) then WLine else WData
  end.

(** What is written before the byte itself: a CR before a bare LF. *)
Definition break_before (st : WState) (c : ascii) : list ascii :=
  match st with WCR => [] | _ => if bool_decide (c = LF) then [CR] else [] end.

(** ... and another dot before one that starts a line. *)
Definition dot_before (st : WState) (c : ascii) : list ascii :=
  match st with
  | WBegin | WLine => if bool_decide (c = "."%char) then ["."%char] else []
  | _ => []
  end.

(** What [Close] adds, up to the final dot. *)
Definition finish (st : WState) : list ascii :=
  match st with WLine => [] | WCR => [LF] | WBegin | WData => [CR; LF] end.

Fixpoint dot_write (st : WState) (l : list ascii) : list ascii :=
  match l with
  | [] => finish st
  | c :: l => dot_before st c ++ break_before st c ++ c :: dot_write (next_state st c) l
  end.

(** The same without the dots. *)
Fixpoint crlf_text (st : WState) (l : list ascii) : list ascii :=
  match l with
  | [] => finish st
  | c :: l => break_before st c ++ c :: crlf_text (next_state st c) l
  end.

(** [ReadString('\n')] until there is nothing left. *)
Fixpoint read_lines (l : list ascii) : list (list ascii) :=
  match l with
  | [] => []
  | c :: l =>
      if bool_decide (c = LF) then [c] :: read_lines l
      else match read_lines l with [] => [[c]] | h :: t => (c :: h) :: t end
  end.

Definition unstuff (line : list ascii) : list ascii :=
  match line with c :: r => if bool_decide (c = "."%char) then r else line | [] => line end.

(** A line that starts with a dot goes on with another. *)
Definition stuffed (line : list ascii) : Prop :=
  match line with c :: r => c = "."%char -> exists r', r = "."%char :: r' | [] => True end.

Definition at_start (st : WState) : bool := match st with WBegin | WLine => true | WData | WCR => false end.

(** Reading back what was written, line by line; in the middle of a line the
    first piece belongs to a line that has begun. *)
Lemma read_written l st :
  let ls := read_lines (dot_write st l) in
  if at_start st then Forall stuffed ls /\ concat (unstuff <$> ls) = crlf_text st l
  else exists h t, ls = h :: t /\ Forall stuffed t /\ h ++ concat (unstuff <$> t) = crlf_text st l.
Proof.
  cbv zeta. revert st. induction l as [|c l IH]; intros st.
  { destruct st; simpl; [split; [by repeat constructor|done]|by split|by exists [CR; LF], []|by exists [LF], []]. }
  cbn [dot_write crlf_text]. specialize (IH (next_state st c)).
  destruct (decide (c = LF)) as [->|Hlf].
  { assert (next_state st LF = WLine) as Hn by (by destruct st). rewrite Hn in *. simpl in IH. destruct IH as [IHf IHc].
    destruct st; simpl; [..|by exists [LF], (read_lines (dot_write WLine l)); rewrite <-IHc].
    1, 2: split; [constructor; [done|exact IHf]|by rewrite <-IHc].
    exists [CR; LF], (read_lines (dot_write WLine l)). by rewrite <-IHc. }
  assert (at_start (next_state st c) = false) as Hmid by (unfold next_state; destruct st; repeat case_bool_decide; done).
  rewrite Hmid in IH. destruct IH as (h & t & Hls & Ht & Hc).
  assert (break_before st c = []) as -> by (destruct st; simpl; by rewrite ?bool_decide_eq_false_2).
  assert (read_lines (c :: dot_write (next_state st c) l) = (c :: h) :: t) as Hread.
  { cbn [read_lines]. by rewrite (bool_decide_eq_false_2 _ Hlf), Hls. }
  rewrite <-Hc. destruct (at_start st) eqn:Hst.
  - assert (dot_before st c = if bool_decide (c = "."%char) then ["."%char] else []) as -> by (by destruct st).
    case_bool_decide as Hdot; subst; cbn [app].
    + cbn [read_lines] in Hread |- *. rewrite Hread. simpl. split; [|done]. constructor; [by eexists|done].
    + rewrite Hread. split; [constructor; [by intros ?|done]|]. simpl. by rewrite bool_decide_eq_false_2.
  - assert (dot_before st c = []) as -> by (by destruct st). cbn [app]. rewrite Hread. by exists (c :: h), t.
Qed.

Lemma unbytes_app l k : unbytes (l ++ k) = unbytes l +:+ unbytes k.
Proof. rewrite <-(unbytes_bytes (_ +:+ _)), bytes_app, !bytes_unbytes. done. Qed.

Lemma concat_unbytes ls : String.concat "" (unbytes <$> ls) = unbytes (concat ls).
Proof.
  induction ls as [|l [|k ls] IH]; [done|simpl; by rewrite app_nil_r|].
  change (String.concat "" (unbytes <$> l :: k :: ls)) with (unbytes l +:+ "" +:+ String.concat "" (unbytes <$> k :: ls)).
  rewrite IH. cbn [concat]. by rewrite !unbytes_app.
Qed.

Lemma TrimPrefix_dot l : TrimPrefix (unbytes l) "." = unbytes (unstuff l).
Proof.
  destruct l as [|c l]; [done|]. unfold TrimPrefix. cbn [unstuff]. case_bool_decide as Hc.
  - subst c. change (unbytes ("."%char :: l)) with ("." +:+ unbytes l). by rewrite CutPrefix_app.
  - destruct (CutPrefix _ _) as [t|] eqn:Hp; [|done]. apply CutPrefix_Some in Hp. by injection Hp as ->.
Qed.

Lemma stuffed_no_dot l : stuffed l -> dot_line (unbytes l) = false.
Proof.
  intros Hl. unfold dot_line. apply orb_false_iff.
  split; apply bool_decide_eq_false_2; intros He; apply (f_equal bytes) in He; rewrite bytes_unbytes in He; subst l;
    destruct (Hl eq_refl) as [r' Hr]; vm_compute in Hr; done.
Qed.

Definition dot_client : SMTPClient := {|
  cl_name := "localhost";
  cl_mail_params := fun _ => " BODY=8BITMIME";
  cl_rcpt_params := fun _ => "";
  cl_text := fun raw => unbytes (crlf_text WBegin (bytes raw));
  cl_body := fun raw => unbytes <$> read_lines (dot_write WBegin (bytes raw));
  cl_supports_xoauth2 := existsb (fun l => match CutPrefix l "250-AUTH " with
                                           | Some mechs => bool_decide ("XOAUTH2" ∈ split_byte SP mechs)
                                           | None => false
                                           end);
  cl_NotSet := (0, 0, 0);
  cl_reply := fun c rs =>
    match last rs with
    | None => Some (EOther "EOF")
    | Some l =>
        if bool_decide (take_bytes 3 l = expected c) then None
        else match status_of l with Some n => Some (ESMTP n (default (0, 0, 0) (enhanced_of l)) (drop_bytes 4 l) l) | None => Some (EOther l) end
    end
|}.

#[export] Instance dot_client_laws : SMTPClientLaws dot_client.
Proof.
  split; cbn -[take_bytes].
  - by vm_compute.
  - intros _ _. by vm_compute.
  - done.
  - intros raw. apply Forall_fmap. destruct (read_written (bytes raw) WBegin) as [Hs _].
    eapply Forall_impl; [exact Hs|]. apply stuffed_no_dot.
  - intros raw. destruct (read_written (bytes raw) WBegin) as [_ Hc]. rewrite <-Hc, <-concat_unbytes, <-!list_fmap_compose.
    f_equal. apply list_fmap_ext. intros _ l _. apply TrimPrefix_dot.
  - intros rs mechs Hin Hm. apply existsb_exists. exists ("250-AUTH " +:+ mechs). split; [by apply list_elem_of_In|].
    rewrite CutPrefix_app. by apply bool_decide_eq_true_2.
  - intros c rs l -> ->. by rewrite bool_decide_eq_true_2.
  - done.
  - intros c l n _ Hst Hn. rewrite bool_decide_eq_false_2, Hst.
    { do 3 eexists. split_and!; [done|done| |]; [by intros t ->|]. unfold no_enhanced, enhanced_of. destruct (split_byte SP _) as [|w [|? ?]]; [done..|].
      intros Hw%negb_true_iff. by rewrite split_byte_no_sep. }
    intros He. unfold status_of in Hst. rewrite He in Hst. destruct c; vm_compute in Hst; simplify_eq; lia.
Qed.

(** A text in which every line ends in CRLF arrives as it is. *)
Fixpoint crlf_lines (st : WState) (l : list ascii) : bool :=
  match l with
  | [] => match st with WLine => true | _ => false end
  | c :: l => match break_before st c with [] => crlf_lines (next_state st c) l | _ => false end
  end.

Lemma crlf_text_lines st l : crlf_lines st l = true -> crlf_text st l = l.
Proof.
  revert st. induction l as [|c l IH]; intros st; [by destruct st|]. simpl. destruct (break_before st c); [|done].
  intros H. simpl. by rewrite IH.
Qed.

Lemma text_arrives_unchanged raw : crlf_lines WBegin (bytes raw) = true -> cl_text (SMTPClient := dot_client) raw = raw.
Proof. intros H. cbn. by rewrite (crlf_text_lines _ _ H), unbytes_bytes. Qed.

(** ** Concrete runs *)

#[local] Instance ascii_only : UnicodeCase :=
  {| unicode_to_lower := id; unicode_to_upper := id; unicode_equal_fold := fun a b => bool_decide (a = b) |}.

(** Every call granted, as the fake does when nothing is set. *)
Definition granting : SMTPUpstream :=
  mkSMTPUpstream None None None true (fun _ => None) (fun _ => None) (fun _ => None) None None None None.

(** ... and with every recipient unknown. *)
Definition refusing_recipients : SMTPUpstream :=
  mkSMTPUpstream None None None true (fun _ => None) (fun _ => None)
    (fun _ => Some (ESMTP 550 (5, 1, 1) "5.1.1 User unknown" "550 5.1.1 User unknown")) None None None None.

Definition dotted : TMessage :=
  mkTMessage "m1" sample_mailbox sample_credential ["a@x"; "b@x"] ("Subject: x" +:+ CRLF +:+ CRLF +:+ ".hidden" +:+ CRLF +:+ "." +:+ CRLF).

