(* ===== verification/Worker.v ===== *)
(** * The delivery worker

    [internal/queue/worker.go]: what one worker does with a claimed message,
    and the loops around it. A delivery reads the database three times, waits
    for the mailbox's budget, calls a transport and writes the outcome; other
    processes act on the database in between. [World] holds what a delivery
    meets on its way: the database at each read and at the final write, the
    failures the driver reports, whether the budget was granted before the
    shutdown, and the clocks. Logging is left out; metrics are kept. *)

From stdpp Require Import base gmap strings list.
From Stdlib Require Import ZArith QArith Lia.
From S2P Require Import Prelude GoStrings StoreModels MessageStore MessageQueue Directory.
From S2P Require Import GoFloat Backoff RateLimit Transport.

Open Scope Z_scope.

(** ** Options *)

(** A [transport.Transport]: its name and what sending a message returns. *)
Record Backend := mkBackend { be_Name : string; be_Send : TMessage -> option GoError }.

Record Options := mkOptions {
  o_DB : bool;                                  (* a database was given *)
  o_Transports : list (Transport * Backend);    (* a map: keys are distinct *)
  o_Workers : Z;
  o_PollInterval : Z;
  o_LeaseDuration : Z;
  o_Backoff : Backoff;
  o_Budget : Budget;
  o_RetainSent : Z;
  o_RetainFailed : Z;
  o_PurgeInterval : Z;
  o_WorkerID : string
}.

(** [New]: what is refused and what is filled in. *)
Definition New (newID : string) (o : Options) : result string Options :=
  if negb (o_DB o) then Err "queue: a database is required"
  else if bool_decide (length (o_Transports o) = 0%nat) then Err "queue: at least one transport is required"
  else Ok (mkOptions (o_DB o) (o_Transports o)
    (if o_Workers o <=? 0 then 4 else o_Workers o)
    (if o_PollInterval o <=? 0 then 5 * Second else o_PollInterval o)
    (if o_LeaseDuration o <=? 0 then 5 * Minute else o_LeaseDuration o)
    (o_Backoff o) (o_Budget o) (o_RetainSent o) (o_RetainFailed o)
    (if o_PurgeInterval o <=? 0 then Hour else o_PurgeInterval o)
    (if bool_decide (o_WorkerID o = "") then newID else o_WorkerID o)).

Definition find_transport (t : Transport) (ts : list (Transport * Backend)) : option Backend :=
  snd <$> list_find (fun p => p.1 = t) ts ≫= fun x => Some x.2.

(** ** Errors of the store, as text *)

Definition store_error_text (e : StoreError) : string :=
  match e with
  | ErrNotFound what => "store: not found: " +:+ what
  | ErrConflict what => "store: already exists: " +:+ what
  | ErrReferenced what => "store: still referenced by another object: " +:+ what
  | ErrImmutable what => "store: object is managed by the bootstrap file: " +:+ what
  | ErrStateConflict => "operation conflicts with current state"
  | ErrDriver msg => msg
  end.

Definition store_error (e : StoreError) : GoError := EOther (store_error_text e).

(** ** One delivery *)

Record World := mkWorld {
  wd_mailbox_io : option string;  wd_mailbox_db : DB;
  wd_cred_io : option string;     wd_cred_db : DB;
  wd_body_io : option string;     wd_body_db : DB;
  wd_acquired : bool;             (* Acquire returned before ctx was done *)
  wd_now : Z;                     (* r.opts.now() when the retry is scheduled *)
  wd_random : Q;                  (* the jitter's random value *)
  wd_write_io : option string;
  wd_write_now : Z;               (* time.Now() of the statement that records the outcome *)
  wd_write_db : DB
}.

Inductive DeliveryOutcome := DeliverySent | DeliveryDeferred | DeliveryFailed.

#[export] Instance DeliveryOutcome_eq_dec : EqDecision DeliveryOutcome.
Proof. solve_decision. Defined.

(** What a delivery did: the calls of [Send], the metric it reported, and the
    database after it. *)
Record Delivered := mkDelivered {
  dl_sends : list (string * TMessage);
  dl_metric : option (string * DeliveryOutcome);
  dl_db : DB
}.

Definition prepare (w : World) (m : Message) : result GoError TMessage :=
  match m_MailboxID m with
  | None => Err (EOther "the message is not associated with a mailbox")
  | Some mailboxID =>
      match Mailboxes_Get (wd_mailbox_io w) mailboxID (wd_mailbox_db w) with
      | Err e => Err (EWrap "loading the mailbox: " (store_error e))
      | Ok mailbox =>
          if negb (mb_Enabled mailbox)
          then Err (EOther ("the mailbox " +:+ mb_Address mailbox +:+ " is disabled"))
          else match Credentials_Get (wd_cred_io w) (mb_OAuthCredentialID mailbox) (wd_cred_db w) with
               | Err e => Err (EWrap ("loading the credential for " +:+ mb_Address mailbox +:+ ": ") (store_error e))
               | Ok credential =>
                   match Body (wd_body_io w) (m_ID m) (wd_body_db w) with
                   | Err e => Err (EWrap "loading the message body: " (store_error e))
                   | Ok body => Ok (mkTMessage (m_ID m) mailbox credential (m_Recipients m) body)
                   end
               end
      end
  end.

Definition outcomeFor (err : GoError) : DeliveryOutcome :=
  if IsPermanent err then DeliveryFailed else DeliveryDeferred.

Definition transport_name (t : Transport) : string :=
  match t with TransportSMTP => "smtp" | TransportGraph => "graph" | TransportOther name => name end.

Section Deliver.
Context `{F : Float64}.
(** [fmt.Sprintf("%q", s)] *)
Context (Quote : string -> string).

Definition recordFailure (o : Options) (w : World) (m : Message) (sendErr : GoError)
  : result StoreError unit * DB :=
  let failure := AsFailure sendErr in
  let attempts := m_Attempts m + 1 in
  if IsPermanent sendErr
  then Fail (wd_write_io w) (wd_write_now w) (m_ID m) (o_WorkerID o) failure (wd_write_db w)
  else
    match NextAttemptAfter (o_Backoff o) (wd_random w) (wd_now w) attempts (m_ReceivedAt m) (RetryAfter sendErr) with
    | None =>
        let failure := mkFailure (f_Code failure)
          ("giving up after " +:+ Itoa attempts +:+ " attempts: " +:+ f_Message failure) true in
        Fail (wd_write_io w) (wd_write_now w) (m_ID m) (o_WorkerID o) failure (wd_write_db w)
    | Some retryAt =>
        Defer (wd_write_io w) (wd_write_now w) (m_ID m) (o_WorkerID o) failure retryAt (wd_write_db w)
    end.

(** The budget a mailbox asks for: NULL is 0, which [Acquire] replaces. *)
Definition mailbox_budget (mb : Mailbox) : Budget :=
  mkBudget (default 0 (mb_RateLimitPerMin mb)) (default 0 (mb_MaxConcurrent mb)).

Definition deliver (o : Options) (w : World) (m : Message) : Delivered :=
  match prepare w m with
  | Err e =>
      mkDelivered [] None (recordFailure o w m (NewPermanent "proxy" (error_text e) (Some e))).2
  | Ok prepared =>
      if negb (wd_acquired w) then mkDelivered [] None (wd_write_db w)
      else
        match find_transport (mb_Transport (t_Mailbox prepared)) (o_Transports o) with
        | None =>
            mkDelivered [] None (recordFailure o w m (NewPermanent "proxy"
              ("no transport is configured for " +:+ Quote (transport_name (mb_Transport (t_Mailbox prepared)))) None)).2
        | Some backend =>
            match be_Send backend prepared with
            | None =>
                mkDelivered [(be_Name backend, prepared)] (Some (be_Name backend, DeliverySent))
                  (MarkSent (wd_write_io w) (wd_write_now w) (m_ID m) (o_WorkerID o) (wd_write_db w)).2
            | Some sendErr =>
                mkDelivered [(be_Name backend, prepared)] (Some (be_Name backend, outcomeFor sendErr))
                  (recordFailure o w m sendErr).2
            end
        end
  end.
End Deliver.

(** ** The dispatcher

    [dispatch] claims as many messages as there are free slots, then puts each
    into a slot; a delivery frees its slot when it ends. *)

Record Dispatch := mkDispatch {
  d_running : list Message;   (* one occupied slot each *)
  d_waiting : list Message    (* claimed in this round, not started *)
}.

Definition claim (o : Options) (io io' : option string) (scan scan' : list string) (limit now : Z) (db : DB)
  : list Message * DB :=
  if limit <=? 0 then ([], db)
  else match ClaimMessages io io' scan scan' (o_WorkerID o) limit (o_LeaseDuration o) now db with
       | (Ok claimed, db') => (claimed, db')
       | (Err _, db') => ([], db')
       end.

Definition free_slots (o : Options) (d : Dispatch) : Z := o_Workers o - Z.of_nat (length (d_running d)).

(** A claim is made on a well-formed queue in which the worker holds no lease
    with the very same deadline; the engine's scan visits a row once. *)
Inductive dispatch_step (o : Options) : Dispatch * DB -> Dispatch * DB -> Prop :=
| ds_claim running io io' scan scan' now db :
    let d := mkDispatch running [] in
    db_ok db -> NoDup scan' ->
    (forall k r, messages db !! k = Some r -> m_LeaseOwner r = Some (o_WorkerID o) ->
       m_LeaseExpiresAt r <> Some (now + o_LeaseDuration o)) ->
    dispatch_step o (d, db)
      (mkDispatch running (claim o io io' scan scan' (free_slots o d) now db).1,
       (claim o io io' scan scan' (free_slots o d) now db).2)
| ds_start running m rest db :
    0 < free_slots o (mkDispatch running (m :: rest)) ->
    dispatch_step o (mkDispatch running (m :: rest), db) (mkDispatch (m :: running) rest, db)
| ds_finish r1 m r2 waiting db db' :
    dispatch_step o (mkDispatch (r1 ++ m :: r2) waiting, db) (mkDispatch (r1 ++ r2) waiting, db')
| ds_other d db db' : dispatch_step o (d, db) (d, db').

(** ** Housekeeping *)

Definition releaseExpiredLeases (io : option string) (now : Z) (db : DB) : DB :=
  (ReleaseExpiredLeases io now db).2.

Definition purge (o : Options) (io : option string) (now : Z) (db : DB) : DB :=
  if (o_RetainSent o <=? 0) && (o_RetainFailed o <=? 0) then db
  else (Purge io (now - o_RetainSent o) (now - o_RetainFailed o) db).2.

(** [publishGauges], the queue depths: every status, the empty ones too. *)
Definition published_statuses : list MessageStatus :=
  [StatusQueued; StatusSending; StatusDeferred; StatusFailed; StatusHeld; StatusSent].

Definition lookup_count (s : MessageStatus) (counts : list (MessageStatus * Z)) : Z :=
  match list_find (fun p => p.1 = s) counts with Some (_, p) => p.2 | None => 0 end.

Definition queue_depths (db : DB) : list (MessageStatus * Z) :=
  (fun s => (s, lookup_count s (CountByStatus db))) <$> published_statuses.

(** ... and the credentials' time left. *)
Definition credential_gauges (now : Z) (creds : list OAuthCredential) : list (string * Z) :=
  omap (fun c => match cred_ExpiresAt c with Some e => Some (cred_Name c, e - now) | None => None end) creds.

(** One turn of the loop: what the tick does. *)
Inductive Tick := TickGauges | TickPurge.

Definition housekeeping_tick (o : Options) (io io' : option string) (now now' : Z) (t : Tick) (db : DB) : DB :=
  match t with
  | TickGauges => db
  | TickPurge => purge o io' now' (releaseExpiredLeases io now db)
  end.
