(* ===== verification/WorkerProps.v ===== *)
(** * Properties of the delivery worker *)

From stdpp Require Import base gmap strings list sorting.
From Stdlib Require Import ZArith QArith Lia Relations.
From S2P Require Import Prelude GoStrings StoreModels MessageStore MessageQueue QueueProps Directory.
From S2P Require Import GoFloat Backoff RateLimit Transport Worker.

Open Scope Z_scope.

Section Props.
Context `{F : Float64}.
Context (Quote : string -> string).

(** ** Lemmas *)

Lemma find_transport_Some t ts b : find_transport t ts = Some b -> (t, b) ∈ ts.
Proof.
  unfold find_transport. destruct (list_find _ ts) as [[i [t' b']]|] eqn:Hf; [|done]. simpl. intros [= ->].
  apply list_find_Some in Hf as (Hi & Ht & _). simpl in Ht. subst. by eapply list_elem_of_lookup_2.
Qed.

(** What a prepared delivery consists of. *)
Lemma prepare_Ok w m p :
  prepare w m = Ok p ->
  exists id, m_MailboxID m = Some id
    /\ mailboxes (wd_mailbox_db w) !! id = Some (t_Mailbox p) /\ mb_Enabled (t_Mailbox p) = true
    /\ oauth_credentials (wd_cred_db w) !! mb_OAuthCredentialID (t_Mailbox p) = Some (t_Credential p)
    /\ message_blobs (wd_body_db w) !! m_ID m = Some (t_Raw p)
    /\ t_ID p = m_ID m /\ t_Recipients p = m_Recipients m.
Proof.
  unfold prepare, Mailboxes_Get, Credentials_Get, Body. destruct (m_MailboxID m) as [id|]; [|done].
  destruct (wd_mailbox_io w); [done|]. destruct (mailboxes _ !! _) as [mb|] eqn:?; [|done].
  destruct (mb_Enabled mb) eqn:?; simpl; [|done].
  destruct (wd_cred_io w); [done|]. destruct (oauth_credentials _ !! _) eqn:?; [|done].
  destruct (wd_body_io w); [done|]. destruct (message_blobs _ !! _) eqn:?; [|done].
  intros [= <-]. by exists id.
Qed.

(** Why a message was given up: final by its nature, or out of attempts or time. *)
Definition exhausted (o : Options) (w : World) (m : Message) : Prop :=
  NextAttempt (o_Backoff o) (wd_random w) (wd_now w) (m_Attempts m + 1) (m_ReceivedAt m) = None.

(** What a row looks like after a failure [e] of the attempt was recorded. *)
Definition failure_recorded (o : Options) (w : World) (m : Message) (e : GoError) (r r' : Message) : Prop :=
  m_LeaseOwner r' = None /\ m_Attempts r' = m_Attempts r + 1
  /\ ((m_Status r' = StatusFailed /\ (IsPermanent e = true \/ exhausted o w m))
      \/ (m_Status r' = StatusDeferred /\ IsPermanent e = false
          /\ (0 < MaxAttempts (o_Backoff o) -> m_Attempts m + 1 < MaxAttempts (o_Backoff o))
          /\ (0 < RetryAfter e -> wd_now w + RetryAfter e <= m_NextAttemptAt r'))).

(** The lease on the message is live and the delivery's alone. *)
Record owns (o : Options) (w : World) (m r : Message) : Prop := {
  ow_db : db_ok (wd_write_db w);
  ow_row : messages (wd_write_db w) !! m_ID m = Some r;
  ow_owner : m_LeaseOwner r = Some (o_WorkerID o);
  ow_io : wd_write_io w = None
}.

Lemma recordFailure_live o w m e r :
  owns o w m r ->
  exists r', messages (recordFailure o w m e).2 = <[m_ID m := r']> (messages (wd_write_db w))
    /\ failure_recorded o w m e r r'.
Proof.
  intros [Hdb Hr Ho Hio]. unfold recordFailure, failure_recorded, exhausted. rewrite Hio.
  unfold Fail, Defer. destruct (IsPermanent e).
  { eexists. split; [by apply update_owned_live|]. simpl. split_and!; auto. }
  destruct (NextAttemptAfter _ _ _ _ _ _) as [t|] eqn:Ht.
  - eexists. split; [by apply update_owned_live|]. simpl. split_and!; [done..|]. right.
    apply NextAttemptAfter_spec in Ht as (u & (_ & Hm & _)%NextAttempt_spec & ->). split_and!; [done..|].
    intros Hra. rewrite (proj2 (Z.gtb_lt _ _)) by lia. lia.
  - eexists. split; [by apply update_owned_live|]. simpl. split_and!; [done..|]. left. split; [done|]. right.
    revert Ht. unfold NextAttemptAfter. destruct (NextAttempt _ _ _ _ _); [|done]. by repeat case_match.
Qed.

Lemma outcomeFor_not_sent e : outcomeFor e <> DeliverySent.
Proof. unfold outcomeFor. by destruct (IsPermanent e). Qed.

(** A failure before anything was sent. *)
Ltac no_send Hown :=
  match goal with |- context [recordFailure ?o ?w ?m ?e] =>
    let r' := fresh in let Hm := fresh in let Hst := fresh in
    destruct (recordFailure_live o w m e _ Hown) as (r' & Hm & ? & ? & [[Hst _]|[_ [? _]]]); [|done];
    exists r'; rewrite Hst; rewrite bool_decide_eq_false_2 by done;
    split_and!; try done; [naive_solver|by left]
  end.

(** ** Properties *)

(** A delivery calls a transport at most once, and only for a message whose
    mailbox is present and enabled, through the transport configured for that
    mailbox, with the mailbox's own credential, the stored body and exactly
    the message's recipients, after the mailbox's budget granted it. *)
Theorem delivery_sends_at_most_once o w m :
  (length (dl_sends (deliver Quote o w m)) <= 1)%nat
  /\ forall name p, (name, p) ∈ dl_sends (deliver Quote o w m) ->
       wd_acquired w = true
       /\ t_ID p = m_ID m /\ t_Recipients p = m_Recipients m
       /\ message_blobs (wd_body_db w) !! m_ID m = Some (t_Raw p)
       /\ (exists id, m_MailboxID m = Some id /\ mailboxes (wd_mailbox_db w) !! id = Some (t_Mailbox p))
       /\ mb_Enabled (t_Mailbox p) = true
       /\ oauth_credentials (wd_cred_db w) !! mb_OAuthCredentialID (t_Mailbox p) = Some (t_Credential p)
       /\ exists b, (mb_Transport (t_Mailbox p), b) ∈ o_Transports o /\ be_Name b = name.
Proof.
  unfold deliver. destruct (prepare w m) as [p|e] eqn:Hp; simpl; [|split; [lia|set_solver]].
  destruct (wd_acquired w) eqn:Ha; simpl; [|split; [lia|set_solver]].
  destruct (find_transport _ _) as [b|] eqn:Hb; simpl; [|split; [lia|set_solver]].
  apply prepare_Ok in Hp as (id & ? & ? & ? & ? & ? & ? & ?). apply find_transport_Some in Hb.
  destruct (be_Send b p) eqn:Hs; simpl; (split; [lia|]); intros name p' [= -> ->]%list_elem_of_singleton; eauto 20.
Qed.

(** C9: What a delivery leaves behind while its worker holds the lease. The
    message is sent exactly when the transport accepted it. It is failed only
    when nothing could be sent, the transport called the failure permanent, or
    the attempts or the time are used up; so a refused login never fails a
    message by itself. It is deferred only with an attempt left, and not
    before the delay the upstream asked for. It stays leased only when the
    process shut down before the attempt. Every recorded attempt is counted
    once and gives up the lease, and no other message is touched. *)
Theorem delivery_outcome o w m r :
  owns o w m r -> m_Attempts r = m_Attempts m ->
  let d := deliver Quote o w m in
  exists r', messages (dl_db d) = <[m_ID m := r']> (messages (wd_write_db w))
  /\ (m_Status r' = StatusSent <->
        exists name p b, dl_sends d = [(name, p)] /\ (mb_Transport (t_Mailbox p), b) ∈ o_Transports o
          /\ be_Name b = name /\ be_Send b p = None /\ dl_metric d = Some (name, DeliverySent))
  /\ (m_Status r' = StatusFailed ->
        dl_sends d = [] \/ exhausted o w m
        \/ exists name p b e, dl_sends d = [(name, p)] /\ (mb_Transport (t_Mailbox p), b) ∈ o_Transports o
              /\ be_Send b p = Some e /\ IsPermanent e = true)
  /\ (m_Status r' = StatusDeferred ->
        (0 < MaxAttempts (o_Backoff o) -> m_Attempts r' < MaxAttempts (o_Backoff o))
        /\ exists name p b e, dl_sends d = [(name, p)] /\ (mb_Transport (t_Mailbox p), b) ∈ o_Transports o
              /\ be_Send b p = Some e /\ IsPermanent e = false
              /\ (0 < RetryAfter e -> wd_now w + RetryAfter e <= m_NextAttemptAt r'))
  /\ (if bool_decide (m_Status r' = StatusSending)
      then r' = r /\ wd_acquired w = false /\ dl_sends d = []
      else m_LeaseOwner r' = None /\ m_Attempts r' = m_Attempts r + 1).
Proof.
  intros Hown Hat d. subst d. unfold deliver.
  destruct (prepare w m) as [p|e] eqn:Hp; simpl.
  2: { no_send Hown. }
  destruct (wd_acquired w) eqn:Ha; simpl.
  2: { destruct Hown as [Hdb Hr Ho Hio]. exists r. rewrite insert_id by done.
       pose proof (row_ok_leased _ _ _ (db_rows _ Hdb _ _ Hr) Ho) as Hst. rewrite Hst.
       rewrite bool_decide_eq_true_2 by done. split_and!; try done. split; [done|]. naive_solver. }
  destruct (find_transport _ _) as [b|] eqn:Hb; simpl.
  2: { no_send Hown. }
  apply find_transport_Some in Hb. destruct (be_Send b p) as [e|] eqn:Hs; simpl.
  - destruct (recordFailure_live o w m e r Hown) as (r' & Hm & Hl & Hc & Hcase). exists r'. split; [done|].
    rewrite bool_decide_eq_false_2 by (destruct Hcase as [[-> _]|[-> _]]; done).
    destruct Hcase as [[Hst Hw]|(Hst & Hnp & Hmax & Hra)]; rewrite Hst.
    + split_and!; try done; [split; [done|]; intros (? & ? & ? & _ & _ & _ & _ & [= _ H]); by apply outcomeFor_not_sent in H|].
      intros _. destruct Hw as [Hperm|Hex]; [|by auto].
      right. right. by exists (be_Name b), p, b, e.
    + split_and!; try done; [split; [done|]; intros (? & ? & ? & _ & _ & _ & _ & [= _ H]); by apply outcomeFor_not_sent in H|].
      intros _. split; [rewrite Hc; lia|].
      by exists (be_Name b), p, b, e.
  - destruct Hown as [Hdb Hr Ho Hio]. rewrite Hio.
    eexists. split; [by apply update_owned_live|]. simpl. split_and!; try done.
    split; [|done]. intros _. by exists (be_Name b), p, b.
Qed.
End Props.

(** ** The dispatcher *)

Lemma sql_select_ids (p : Message -> bool) scan t :
  (forall k r, t !! k = Some r -> m_ID r = k) -> NoDup scan -> NoDup (m_ID <$> sql_select p scan t).
Proof.
  intros Hid. unfold sql_select. induction 1 as [|k scan Hk _ IH]; simpl; [constructor|].
  destruct (t !! k) as [r|] eqn:Hr; [|done]. rewrite filter_cons. case_decide; [|done]. simpl.
  constructor; [|done]. rewrite (Hid _ _ Hr).
  intros (r' & Heq & [_ (k' & Hin & Hr')%list_elem_of_omap]%list_elem_of_filter)%list_elem_of_fmap.
  apply Hk. by rewrite Heq, (Hid _ _ Hr').
Qed.

(** A claim hands out no more than it was asked for. *)
Lemma claim_length io io' scan scan' w limit leaseFor now db ms db' :
  db_ok db -> NoDup scan' -> 0 < limit ->
  (forall k r, messages db !! k = Some r -> m_LeaseOwner r = Some w -> m_LeaseExpiresAt r <> Some (now + leaseFor)) ->
  ClaimMessages io io' scan scan' w limit leaseFor now db = (Ok ms, db') ->
  Z.of_nat (length ms) <= limit.
Proof.
  intros Hdb Hnd Hl Hno. unfold ClaimMessages. case_bool_decide; [done|].
  rewrite (proj2 (Z.leb_gt _ _)) by lia. destruct io; [done|]. unfold claim_update.
  destruct (_ =? 0); [intros [= <- _]; simpl; lia|]. destruct io'; [done|]. intros [= <- _].
  set (ids := m_ID <$> claim_select scan limit now db).
  set (db1 := set_messages _ db). set (ms := claim_readback _ _ _ _).
  assert (length (m_ID <$> ms) <= length ids)%nat as Hlen.
  { apply submseteq_length, NoDup_submseteq.
    - subst ms. unfold claim_readback. rewrite merge_sort_Permutation. apply sql_select_ids; [|done].
      simpl. intros k r. rewrite lookup_sql_update, fmap_Some. intros (r0 & Hk & ->).
      pose proof (row_key _ _ (db_rows _ Hdb _ _ Hk)). by case_bool_decide.
    - intros id (m' & -> & (Ho & He & _ & k & _ & Hk)%elem_of_claim_readback)%list_elem_of_fmap.
      simpl in Hk. rewrite lookup_sql_update in Hk. apply fmap_Some in Hk as (m & Hm & ->).
      case_bool_decide as Hin; [done|]. by eapply Hno in He. }
  rewrite length_fmap in Hlen. subst ids. rewrite length_fmap in Hlen.
  assert (length (claim_select scan limit now db) <= Z.to_nat limit)%nat.
  { unfold claim_select. rewrite length_take. lia. }
  lia.
Qed.

Definition dispatch_ok (o : Options) (d : Dispatch) : Prop :=
  Z.of_nat (length (d_running d)) + Z.of_nat (length (d_waiting d)) <= o_Workers o.

Lemma dispatch_step_ok o x y : dispatch_ok o x.1 -> dispatch_step o x y -> dispatch_ok o y.1.
Proof.
  unfold dispatch_ok. intros Hd Hs. inv Hs; simpl in *; rewrite ?length_app in *; simpl in *; try lia.
  unfold claim, free_slots. simpl. destruct (_ <=? 0) eqn:Hl; simpl; [lia|]. bools.
  destruct (ClaimMessages _ _ _ _ _ _ _ _ _) as [[ms|e] db'] eqn:Hc; simpl; [|lia].
  apply claim_length in Hc; [lia|done..|lia|done].
Qed.

Lemma dispatch_run_ok o x y : rtc (dispatch_step o) x y -> dispatch_ok o x.1 -> dispatch_ok o y.1.
Proof. induction 1; eauto using dispatch_step_ok. Qed.

(** The dispatcher runs at most [Workers] deliveries, and never sits on a
    claimed message: while one waits to be started there is a free slot for
    it, so no lease runs down in the dispatcher's hands. *)
Theorem dispatcher_never_blocks o db d db' :
  0 <= o_Workers o -> rtc (dispatch_step o) (mkDispatch [] [], db) (d, db') ->
  Z.of_nat (length (d_running d)) <= o_Workers o /\ (d_waiting d <> [] -> 0 < free_slots o d).
Proof.
  intros Hw Hd%dispatch_run_ok; [|unfold dispatch_ok; simpl; lia].
  unfold dispatch_ok, free_slots in *. simpl in *. split; [lia|]. destruct (d_waiting d); simpl in *; [done|lia].
Qed.

(** ** Concrete runs *)

Definition accepts : Backend := mkBackend "smtp" (fun _ => None).
Definition refuses (e : GoError) : Backend := mkBackend "smtp" (fun _ => Some e).

Definition run_options (b : Backend) (worker : string) : Options :=
  mkOptions true [(TransportSMTP, b)] 4 (5 * Second) 300 sample_backoff (mkBudget 30 3) (30 * 24 * Hour)
    (30 * 24 * Hour) Hour worker.

(** The claimed sample message, with its mailbox and credential in place. *)
Definition run_mailbox : Mailbox := mkMailbox "mb-1" "scan@x" "" "c-1" TransportSMTP None None true ManagedByUI 0 0.
Definition run_credential : OAuthCredential :=
  mkOAuthCredential "c-1" "tenant" "tid" "cid" AuthTypeSecret "" "" "" "" "" None ManagedByUI 0 0.
Definition stocked (db : DB) : DB :=
  set_mailboxes {["mb-1" := run_mailbox]} (set_oauth_credentials {["c-1" := run_credential]} db).

Definition calm_world (db : DB) : World :=
  mkWorld None (stocked db) None (stocked db) None (stocked db) true 250 0 None 260 db.

Definition run_message : Message := set_m_MailboxID (Some "mb-1") sample_row.

Lemma sample_owned b : owns (run_options b "w1") (calm_world sample_claimed) run_message sample_row.
Proof. split; [apply sample_claimed_ok|exact sample_claimed_row|done|done]. Qed.

Lemma sample_attempts : m_Attempts sample_row = m_Attempts run_message.
Proof. vm_compute. reflexivity. Qed.

Lemma delivery_outcome_witness :
  exists r', messages (dl_db (deliver (F := exact_float) id (run_options accepts "w1") (calm_world sample_claimed) run_message))
             = <[m_ID run_message := r']> (messages (wd_write_db (calm_world sample_claimed))).
Proof.
  destruct (delivery_outcome (F := exact_float) id (run_options accepts "w1") (calm_world sample_claimed)
    run_message sample_row (sample_owned accepts) sample_attempts) as (r' & H & _). exists r'. exact H.
Defined.

Definition one_claimed : list Message * DB :=
  claim (run_options accepts "w1") None None ["m-1"] ["m-1"] 4 200 sample_queued.

Lemma dispatcher_never_blocks_witness :
  length one_claimed.1 = 1%nat
  /\ Z.of_nat (length (d_running (mkDispatch [] one_claimed.1))) <= o_Workers (run_options accepts "w1")
  /\ (one_claimed.1 <> [] -> 0 < free_slots (run_options accepts "w1") (mkDispatch [] one_claimed.1)).
Proof.
  split; [vm_compute; reflexivity|].
  apply (dispatcher_never_blocks (run_options accepts "w1") sample_queued (mkDispatch [] one_claimed.1) one_claimed.2);
    [vm_compute; discriminate|].
  apply rtc_once, (ds_claim (run_options accepts "w1") [] None None ["m-1"] ["m-1"] 200 sample_queued);
    [apply sample_queued_ok|apply NoDup_singleton|].
  by intros k r [_ ->]%sample_queued_only.
Defined.

(** ** Divergences *)

Definition slow_options (worker : string) : Options :=
  mkOptions true [(TransportSMTP, accepts)] 8 (5 * Second) (5 * Minute) sample_backoff (mkBudget 1 3)
    (30 * 24 * Hour) (30 * 24 * Hour) Hour worker.

Definition first_claim : list Message * DB :=
  claim (slow_options "w1") None None ["m-1"] ["m-1"] 8 200 sample_queued.
Definition second_claim : list Message * DB :=
  claim (slow_options "w2") None None ["m-1"] ["m-1"] 8 (200 + 5 * Minute + 1) first_claim.2.

Definition with_mailbox (l : list Message) : list Message := set_m_MailboxID (Some "mb-1") <$> l.

(** The second worker sends and records; then the first one gets its turn. *)
Definition second_deliveries : list Delivered :=
  deliver (F := exact_float) id (slow_options "w2") (calm_world second_claim.2) <$> with_mailbox second_claim.1.
Definition after_second : DB := match second_deliveries with d :: _ => dl_db d | [] => empty_DB end.
Definition first_deliveries : list Delivered :=
  deliver (F := exact_float) id (slow_options "w1") (calm_world after_second) <$> with_mailbox first_claim.1.

(** A message can be delivered twice although no send is slow. A delivery
    waits for its mailbox's budget with the lease already running, nothing
    extends the lease, and nothing looks at it again before [Send]: with a
    rate of one a minute the seventh message of a batch waits longer than the
    default lease of five minutes, another replica then claims and sends it,
    and the first one sends it again, after it was recorded as sent. *)
Theorem lease_can_lapse_before_send :
  (grants (F := exact_float) (newTokenBucket 1 0) ((fun k => Z.of_nat k * Minute) <$> seq 0 6)).1 = 6
  /\ (take_token (F := exact_float)
        (grants (F := exact_float) (newTokenBucket 1 0) ((fun k => Z.of_nat k * Minute) <$> seq 0 6)).2
        (5 * Minute + 30 * Second)).1 = (30 * Second, false)
  /\ (m_ID <$> first_claim.1) = ["m-1"] /\ (m_ID <$> second_claim.1) = ["m-1"]
  /\ (m_Status <$> messages after_second !! "m-1") = Some StatusSent
  /\ (fun d => (fun s => t_ID s.2) <$> dl_sends d) <$> second_deliveries = [["m-1"]]
  /\ (fun d => (fun s => t_ID s.2) <$> dl_sends d) <$> first_deliveries = [["m-1"]].
Proof. split_and!; vm_compute; reflexivity. Qed.

(** A database failure while a delivery is prepared is taken for a
    permanent one: when reading the mailbox fails, whatever the reason, and
    the outcome can be recorded, the message is failed for good on that
    attempt, however many it has left; the code's ground is that "retrying
    would fail the same way". *)
Theorem read_failure_fails_message `{Float64} Quote o w m r id msg :
  owns o w m r -> m_MailboxID m = Some id -> wd_mailbox_io w = Some msg ->
  exists r', messages (dl_db (deliver Quote o w m)) !! m_ID m = Some r'
    /\ m_Status r' = StatusFailed /\ m_LastErrorPermanent r' = true /\ dl_sends (deliver Quote o w m) = [].
Proof.
  intros [Hdb Hr Ho Hio] Hid Hmsg. unfold deliver, prepare, Mailboxes_Get. rewrite Hid, Hmsg. cbn [dl_db dl_sends].
  unfold recordFailure. rewrite Hio.
  match goal with |- context [IsPermanent ?e] => change (IsPermanent e) with true end. cbn iota. unfold Fail.
  eexists. split; [rewrite (proj2 (update_owned_live _ _ _ _ _ Hdb Hr Ho)); apply lookup_insert_eq|].
  by split_and!.
Qed.

Definition broken_world (db : DB) : World :=
  mkWorld (Some "database is locked") (stocked db) None (stocked db) None (stocked db) true 250 0 None 260 db.

Lemma broken_owned : owns (run_options accepts "w1") (broken_world sample_claimed) run_message sample_row.
Proof. split; [apply sample_claimed_ok|exact sample_claimed_row|done|done]. Qed.

Lemma read_failure_fails_message_witness :
  exists r', messages (dl_db (deliver (F := exact_float) id (run_options accepts "w1") (broken_world sample_claimed) run_message))
               !! m_ID run_message = Some r' /\ m_Status r' = StatusFailed.
Proof.
  destruct (read_failure_fails_message (H := exact_float) id (run_options accepts "w1") (broken_world sample_claimed)
    run_message sample_row "mb-1" "database is locked" broken_owned eq_refl eq_refl) as (r' & H1 & H2 & _).
  exists r'. split; [exact H1|exact H2].
Defined.

(** What the purge removes. It removes nothing while both retentions are
    unset; otherwise exactly the sent messages that were last touched before
    the sent retention and the failed ones before the failed retention, with
    their bodies, and so, when only the failed retention is set, every sent
    message at once. *)
Theorem purge_removes_old_finished o now db k m :
  messages db !! k = Some m ->
  (messages (purge o None now db) !! k = None <->
     (0 < o_RetainSent o \/ 0 < o_RetainFailed o)
     /\ ((m_Status m = StatusSent /\ m_UpdatedAt m < now - o_RetainSent o)
         \/ (m_Status m = StatusFailed /\ m_UpdatedAt m < now - o_RetainFailed o)))
  /\ (messages (purge o None now db) !! k = Some m \/ messages (purge o None now db) !! k = None)
  /\ (messages (purge o None now db) !! k = None -> message_blobs (purge o None now db) !! k = None).
Proof.
  intros Hk. unfold purge. destruct (_ && _) eqn:Hoff.
  { bools. rewrite Hk. split_and!; [|by left|done]. split; [done|]. intros [[?|?] _]; lia. }
  apply andb_false_iff in Hoff. unfold Purge, exec. cbn [snd].
  set (p := purgeable _ _). pose proof (delete_messages_lookup p db k) as Hl.
  assert (messages (delete_messages p db) !! k = if p m then None else Some m) as Hd.
  { destruct (p m) eqn:Hp; [|by apply Hl]. apply eq_None_not_Some. intros [m' [Hm' Hp']%Hl]. congruence. }
  rewrite Hd. split_and!; [|destruct (p m); auto|].
  - assert (p m = true <-> (m_Status m = StatusSent /\ m_UpdatedAt m < now - o_RetainSent o)
         \/ (m_Status m = StatusFailed /\ m_UpdatedAt m < now - o_RetainFailed o)) as <-.
    { subst p. unfold purgeable, is_status.
      by rewrite orb_true_iff, !andb_true_iff, !bool_decide_eq_true, !Z.ltb_lt. }
    destruct (p m); split; try done; [|naive_solver]. intros _. split; [|done].
    destruct Hoff; bools; [left|right]; lia.
  - intros Hn. apply eq_None_not_Some. intros [b [_ [m' Hb]]%delete_messages_blob]. congruence.
Qed.

Lemma purge_removes_old_finished_witness :
  messages (purge (run_options accepts "w1") None (40 * 24 * Hour) sample_claimed) !! "m-1" = Some sample_row
  \/ messages (purge (run_options accepts "w1") None (40 * 24 * Hour) sample_claimed) !! "m-1" = None.
Proof.
  exact (proj1 (proj2 (purge_removes_old_finished (run_options accepts "w1") (40 * 24 * Hour) sample_claimed "m-1"
    sample_row sample_claimed_row))).
Defined.
