(* ===== verification/Runner.v ===== *)
(** * The life of a queue runner

    [Runner.Run], [dispatch] and [housekeeping] of [internal/queue/worker.go]
    as a transition system: the goroutine inside [Run], the two it starts, one
    goroutine per delivery, the tickers, and whoever calls [Run], cancels its
    context or works on the same database. A step is what one goroutine does
    between two points where another may run; a delivery is one step, [deliver]
    with whatever it meets on its way. Which case a [select] takes when several
    are ready is part of the action. *)

From stdpp Require Import base gmap strings list relations.
From Stdlib Require Import ZArith QArith Lia.
From S2P Require Import Prelude GoStrings StoreModels MessageStore MessageQueue QueueProps Directory.
From S2P Require Import GoFloat Backoff RateLimit Transport Worker WorkerProps.

Open Scope Z_scope.

(** ** State *)

(** Where the goroutine that called [Run] is. *)
Inductive RunPc :=
| RunIdle          (* no call of [Run] has the flag *)
| RunHouse         (* about to start the housekeeping *)
| RunDispatch      (* about to start the dispatcher *)
| RunWait          (* in [wg.Wait] *)
| RunClear.        (* about to clear the flag *)

(** The goroutine of [housekeeping]. *)
Inductive HousePc :=
| HouseDone        (* not started, or returned *)
| HouseStart       (* about to release expired leases *)
| HouseFirst       (* about to publish the gauges for the first time *)
| HouseSelect      (* in the select *)
| HousePublish     (* a gauge tick was taken *)
| HouseRelease     (* a purge tick was taken *)
| HousePurge.      (* leases released, about to purge *)

(** The goroutine of [dispatch]. *)
Inductive DispatchPc :=
| DispatchDone                                    (* not started, or returned *)
| DispatchRound                                   (* about to count the free slots *)
| DispatchClaim (limit : Z)                       (* about to claim that many *)
| DispatchFeed (got : bool) (rest : list Message) (* in the loop over the claimed messages *)
| DispatchPoll                                    (* waiting for a tick *)
| DispatchDrain.                                  (* in the deferred [inFlight.Wait] *)

(** The goroutine of a delivery: its two deferred calls run in this order. *)
Inductive FlightPc := FlightDeliver | FlightFree | FlightDone.

#[export] Instance RunPc_eq_dec : EqDecision RunPc.
Proof. solve_decision. Defined.
#[export] Instance FlightPc_eq_dec : EqDecision FlightPc.
Proof. solve_decision. Defined.

(** [ru_slots] is [len(slots)]; [ru_flying] has one entry per goroutine
    counted by [inFlight]. The last three fields are the history of the
    current run: what was claimed, what [deliver] was called on, and what was
    claimed and then left because the context was done. *)
Record Runner := mkRunner {
  ru_running : bool;
  ru_main : RunPc;
  ru_house : HousePc;
  ru_dispatch : DispatchPc;
  ru_slots : nat;
  ru_flying : list (FlightPc * Message);
  ru_done : bool;          (* [ctx] is done *)
  ru_poll : bool;          (* a tick is waiting in a ticker's channel *)
  ru_purge : bool;
  ru_gauge : bool;
  ru_db : DB;
  ru_claimed : list Message;
  ru_delivered : list Message;
  ru_left : list Message
}.

(** A runner that [New] returned. *)
Definition new_runner (db : DB) : Runner :=
  mkRunner false RunIdle HouseDone DispatchDone 0 [] false false false false db [] [] [].

(** ** Setters *)

Definition set_main (p : RunPc) (s : Runner) : Runner :=
  mkRunner (ru_running s) p (ru_house s) (ru_dispatch s) (ru_slots s) (ru_flying s) (ru_done s) (ru_poll s) (ru_purge s) (ru_gauge s) (ru_db s) (ru_claimed s) (ru_delivered s) (ru_left s).
Definition set_house (p : HousePc) (s : Runner) : Runner :=
  mkRunner (ru_running s) (ru_main s) p (ru_dispatch s) (ru_slots s) (ru_flying s) (ru_done s) (ru_poll s) (ru_purge s) (ru_gauge s) (ru_db s) (ru_claimed s) (ru_delivered s) (ru_left s).
Definition set_dispatch (p : DispatchPc) (s : Runner) : Runner :=
  mkRunner (ru_running s) (ru_main s) (ru_house s) p (ru_slots s) (ru_flying s) (ru_done s) (ru_poll s) (ru_purge s) (ru_gauge s) (ru_db s) (ru_claimed s) (ru_delivered s) (ru_left s).
Definition set_flying (n : nat) (f : list (FlightPc * Message)) (s : Runner) : Runner :=
  mkRunner (ru_running s) (ru_main s) (ru_house s) (ru_dispatch s) n f (ru_done s) (ru_poll s) (ru_purge s) (ru_gauge s) (ru_db s) (ru_claimed s) (ru_delivered s) (ru_left s).
Definition set_ticks (poll purge gauge : bool) (s : Runner) : Runner :=
  mkRunner (ru_running s) (ru_main s) (ru_house s) (ru_dispatch s) (ru_slots s) (ru_flying s) (ru_done s) poll purge gauge (ru_db s) (ru_claimed s) (ru_delivered s) (ru_left s).
Definition set_db (db : DB) (s : Runner) : Runner :=
  mkRunner (ru_running s) (ru_main s) (ru_house s) (ru_dispatch s) (ru_slots s) (ru_flying s) (ru_done s) (ru_poll s) (ru_purge s) (ru_gauge s) db (ru_claimed s) (ru_delivered s) (ru_left s).
Definition set_done (s : Runner) : Runner :=
  mkRunner (ru_running s) (ru_main s) (ru_house s) (ru_dispatch s) (ru_slots s) (ru_flying s) true (ru_poll s) (ru_purge s) (ru_gauge s) (ru_db s) (ru_claimed s) (ru_delivered s) (ru_left s).
Definition set_history (claimed delivered left_ : list Message) (s : Runner) : Runner :=
  mkRunner (ru_running s) (ru_main s) (ru_house s) (ru_dispatch s) (ru_slots s) (ru_flying s) (ru_done s) (ru_poll s) (ru_purge s) (ru_gauge s) (ru_db s) claimed delivered left_.
Definition clear_running (s : Runner) : Runner :=
  mkRunner false RunIdle (ru_house s) (ru_dispatch s) (ru_slots s) (ru_flying s) (ru_done s) (ru_poll s) (ru_purge s) (ru_gauge s) (ru_db s) (ru_claimed s) (ru_delivered s) (ru_left s).

(** ** Steps *)

(** The first lines of [Run], with a fresh context: refused while the flag is
    set. *)
Definition begin_run (s : Runner) : result string Runner :=
  if ru_running s then Err "queue: already running"
  else Ok (mkRunner true RunHouse (ru_house s) (ru_dispatch s) (ru_slots s) (ru_flying s) false false false false (ru_db s) [] [] []).

(** The rest of [Run]. *)
Definition main_step (s : Runner) : option Runner :=
  match ru_main s with
  | RunIdle => None
  | RunHouse => Some (set_main RunDispatch (set_house HouseStart s))
  | RunDispatch => Some (set_main RunWait (set_dispatch DispatchRound s))
  | RunWait =>
      match ru_house s, ru_dispatch s with
      | HouseDone, DispatchDone => Some (set_main RunClear s)
      | _, _ => None
      end
  | RunClear => Some (clear_running s)
  end.

(** Which case of its select the housekeeping takes. *)
Inductive HouseCase := CaseGauges | CasePurge | CaseDone.

Definition house_step (o : Options) (c : HouseCase) (io : option string) (now : Z) (s : Runner) : option Runner :=
  match ru_house s with
  | HouseDone => None
  | HouseStart => Some (set_house HouseFirst (set_db (releaseExpiredLeases io now (ru_db s)) s))
  | HouseFirst | HousePublish => Some (set_house HouseSelect s)
  | HouseSelect =>
      match c with
      | CaseGauges => if ru_gauge s then Some (set_house HousePublish (set_ticks (ru_poll s) (ru_purge s) false s)) else None
      | CasePurge => if ru_purge s then Some (set_house HouseRelease (set_ticks (ru_poll s) false (ru_gauge s) s)) else None
      | CaseDone => if ru_done s then Some (set_house HouseDone s) else None
      end
  | HouseRelease => Some (set_house HousePurge (set_db (releaseExpiredLeases io now (ru_db s)) s))
  | HousePurge => Some (set_house HouseSelect (set_db (purge o io now (ru_db s)) s))
  end.

(** [leave]: the case [<-ctx.Done()] of the select the dispatcher is in. The
    one after a round that claimed something has a default case, so there it
    is taken exactly when the context is done. *)
Definition dispatch_next (o : Options) (leave : bool) (io io' : option string) (scan scan' : list string) (now : Z) (s : Runner)
  : option Runner :=
  match ru_dispatch s with
  | DispatchDone => None
  | DispatchRound => Some (set_dispatch (DispatchClaim (o_Workers o - Z.of_nat (ru_slots s))) s)
  | DispatchClaim limit =>
      let '(claimed, db) := claim o io io' scan scan' limit now (ru_db s) in
      Some (set_dispatch (DispatchFeed (0 <? Z.of_nat (length claimed)) claimed)
        (set_history (ru_claimed s ++ claimed) (ru_delivered s) (ru_left s) (set_db db s)))
  | DispatchFeed got rest =>
      match rest with
      | m :: rest =>
          if leave then
            if ru_done s
            then Some (set_dispatch DispatchDrain (set_history (ru_claimed s) (ru_delivered s) (ru_left s ++ m :: rest) s))
            else None
          else if Z.of_nat (ru_slots s) <? o_Workers o
          then Some (set_dispatch (DispatchFeed got rest) (set_flying (S (ru_slots s)) ((FlightDeliver, m) :: ru_flying s) s))
          else None
      | [] =>
          Some (set_dispatch (if got then if ru_done s then DispatchDrain else DispatchRound else DispatchPoll) s)
      end
  | DispatchPoll =>
      if leave then if ru_done s then Some (set_dispatch DispatchDrain s) else None
      else if ru_poll s then Some (set_dispatch DispatchRound (set_ticks false (ru_purge s) (ru_gauge s) s)) else None
  | DispatchDrain => match ru_flying s with [] => Some (set_dispatch DispatchDone s) | _ :: _ => None end
  end.

Section Flights.
Context `{F : Float64}.
(** [fmt.Sprintf("%q", s)] *)
Context (Quote : string -> string).

(** One step of the k-th delivery: [deliver], then its slot, then [inFlight]. *)
Definition flight_step (o : Options) (k : nat) (w : World) (s : Runner) : option Runner :=
  match ru_flying s !! k with
  | None => None
  | Some (FlightDeliver, m) =>
      let w := mkWorld (wd_mailbox_io w) (wd_mailbox_db w) (wd_cred_io w) (wd_cred_db w) (wd_body_io w) (wd_body_db w)
                 (wd_acquired w) (wd_now w) (wd_random w) (wd_write_io w) (wd_write_now w) (ru_db s) in
      Some (set_history (ru_claimed s) (ru_delivered s ++ [m]) (ru_left s)
        (set_flying (ru_slots s) (<[k := (FlightFree, m)]> (ru_flying s))
          (set_db (dl_db (deliver Quote o w m)) s)))
  | Some (FlightFree, m) =>
      match ru_slots s with
      | O => None
      | S n => Some (set_flying n (<[k := (FlightDone, m)]> (ru_flying s)) s)
      end
  | Some (FlightDone, m) => Some (set_flying (ru_slots s) (delete k (ru_flying s)) s)
  end.

(** What the goroutines of the runner do. *)
Inductive Move :=
| MoveRun
| MoveHouse (c : HouseCase) (io : option string) (now : Z)
| MoveDispatch (leave : bool) (io io' : option string) (scan scan' : list string) (now : Z)
| MoveFlight (k : nat) (w : World).

Definition runner_move (o : Options) (a : Move) (s : Runner) : option Runner :=
  match a with
  | MoveRun => main_step s
  | MoveHouse c io now => house_step o c io now s
  | MoveDispatch leave io io' scan scan' now => dispatch_next o leave io io' scan scan' now s
  | MoveFlight k w => flight_step o k w s
  end.

(** What happens around them. *)
Inductive RunnerEvent :=
| CallRun                       (* somebody calls [Run] *)
| Cancel                        (* the context of the run is cancelled *)
| Others (db : DB)              (* other processes work on the database *)
| Ticks (poll purge gauge : bool).

Definition runner_event (e : RunnerEvent) (s : Runner) : Runner :=
  match e with
  | CallRun => match begin_run s with Ok s => s | Err _ => s end
  | Cancel => set_done s
  | Others db => set_db db s
  | Ticks poll purge gauge => set_ticks (ru_poll s || poll) (ru_purge s || purge) (ru_gauge s || gauge) s
  end.

Fixpoint runner_run (o : Options) (l : list (RunnerEvent + Move)) (s : Runner) : option Runner :=
  match l with
  | [] => Some s
  | inl e :: l => runner_run o l (runner_event e s)
  | inr a :: l => match runner_move o a s with None => None | Some s => runner_run o l s end
  end.
End Flights.

(** ** What holds throughout *)

(** The messages whose delivery has not returned, and the deliveries that hold
    a slot. *)
Definition delivering (f : list (FlightPc * Message)) : list Message :=
  omap (fun x => match x.1 with FlightDeliver => Some x.2 | _ => None end) f.
Definition holding (f : list (FlightPc * Message)) : nat :=
  length (omap (fun x => match x.1 with FlightDone => None | _ => Some x.2 end) f).

(** Claimed in this round and not started. *)
Definition waiting (p : DispatchPc) : list Message :=
  match p with DispatchFeed _ rest => rest | _ => [] end.

Record runner_ok (o : Options) (s : Runner) : Prop := mkRunnerOk {
  rk_flag : ru_running s = bool_decide (ru_main s <> RunIdle);
  rk_slots : ru_slots s = holding (ru_flying s);
  rk_bound : Z.of_nat (ru_slots s) <= o_Workers o;
  rk_history : ru_claimed s ≡ₚ ru_delivered s ++ delivering (ru_flying s) ++ waiting (ru_dispatch s) ++ ru_left s;
  rk_left : ru_left s <> [] -> ru_done s = true;
  rk_drained : ru_dispatch s = DispatchDone -> ru_flying s = [];
  rk_dispatch : ru_dispatch s <> DispatchDone -> ru_main s = RunWait;
  rk_house : ru_house s <> HouseDone -> ru_main s = RunDispatch \/ ru_main s = RunWait
}.

(** A place in the list of deliveries. *)
Lemma flight_split (f : list (FlightPc * Message)) k x :
  f !! k = Some x ->
  exists f1 f2, f = f1 ++ x :: f2 /\ delete k f = f1 ++ f2 /\ forall y, <[k := y]> f = f1 ++ y :: f2.
Proof.
  intros (f1 & f2 & -> & ->)%list_elem_of_split_length. exists f1, f2. split_and!; [done|apply delete_middle|].
  intros y. replace (length f1) with (length f1 + 0)%nat by lia. by rewrite insert_app_r.
Qed.

Lemma delivering_app f1 x f2 :
  delivering (f1 ++ x :: f2) ≡ₚ delivering [x] ++ delivering f1 ++ delivering f2.
Proof.
  unfold delivering. rewrite omap_app, (omap_app _ [x] f2 : omap _ (x :: f2) = _). by rewrite !(assoc_L (++)), (comm (++) (omap _ [x])).
Qed.

Lemma holding_app f1 x f2 : holding (f1 ++ x :: f2) = (holding [x] + holding f1 + holding f2)%nat.
Proof.
  unfold holding. rewrite omap_app, (omap_app _ [x] f2 : omap _ (x :: f2) = _), !length_app. lia.
Qed.

Lemma delivering_holding f : (length (delivering f) <= holding f)%nat.
Proof. unfold delivering, holding. induction f as [|[[] m] f IH]; csimpl in *; lia. Qed.

Lemma new_runner_ok o db : 0 <= o_Workers o -> runner_ok o (new_runner db).
Proof. intros. by split. Qed.

Lemma event_ok o e s : 0 <= o_Workers o -> runner_ok o s -> runner_ok o (runner_event e s).
Proof.
  intros Hw [Hf Hs Hb Hh Hl Hd Hp Hu]. destruct e; simpl; [|by split..].
  unfold begin_run. destruct (ru_running s) eqn:Hr; [by split; rewrite ?Hr|].
  case_bool_decide as Hi; [done|].
  assert (ru_dispatch s = DispatchDone) as Hdd.
  { destruct (ru_dispatch s); [done|..]; exfalso; discriminate (eq_trans (eq_sym Hi) (Hp ltac:(done))). }
  assert (ru_house s = HouseDone) as Hhd.
  { destruct (ru_house s); [done|..]; exfalso; destruct (Hu ltac:(done)); congruence. }
  split; simpl; try done. by rewrite Hdd, (Hd Hdd).
Qed.

(** The goroutine of [Run] and the housekeeping touch no delivery. *)
Lemma main_step_ok o s s' : runner_ok o s -> main_step s = Some s' -> runner_ok o s'.
Proof.
  intros [Hf Hs Hb Hh Hl Hd Hp Hu]. unfold main_step.
  destruct (ru_main s) eqn:Hm; intros Hr; simplify_eq.
  - split; simpl; auto. intros Hn. by specialize (Hp Hn).
  - assert (ru_dispatch s = DispatchDone) as Hdd by (destruct (ru_dispatch s); [done|..]; by specialize (Hp ltac:(done))).
    rewrite Hdd in Hh. split; simpl; auto; done.
  - destruct (ru_house s) eqn:Hhs, (ru_dispatch s) eqn:Hds; simplify_eq. split; simpl; rewrite ?Hhs, ?Hds; auto; done.
  - assert (ru_dispatch s = DispatchDone) as Hdd by (destruct (ru_dispatch s); [done|..]; by specialize (Hp ltac:(done))).
    split; simpl; auto; [by rewrite Hdd in Hp|]. intros Hn. destruct (Hu Hn); done.
Qed.

Lemma house_step_ok o c io now s s' : runner_ok o s -> house_step o c io now s = Some s' -> runner_ok o s'.
Proof.
  intros [Hf Hs Hb Hh Hl Hd Hp Hu] H. unfold house_step in H.
  destruct (ru_house s) eqn:Hhs; [done|..]; repeat case_match; simplify_eq;
    (split; simpl; auto; intros _; apply Hu; done).
Qed.

Lemma dispatch_next_ok o leave io io' scan scan' now s s' :
  runner_ok o s -> dispatch_next o leave io io' scan scan' now s = Some s' -> runner_ok o s'.
Proof.
  intros [Hf Hs Hb Hh Hl Hd Hp Hu]. unfold dispatch_next.
  destruct (ru_dispatch s) as [| |limit|got [|m rest]| |] eqn:Hds; [done|..]; simpl in Hh; specialize (Hp ltac:(done)).
  - intros; simplify_eq. by split.
  - destruct (claim _ _ _ _ _ _ _ _) as [claimed db]. intros; simplify_eq. split; simpl; auto; try done.
    rewrite Hh. by rewrite (comm (++) claimed), !(assoc_L (++)).
  - destruct got; intros; simplify_eq; [|by split]. destruct (ru_done s) eqn:Hdn; by split; simpl; rewrite ?Hdn.
  - destruct leave.
    + destruct (ru_done s) eqn:Hdn; intros; simplify_eq. split; simpl; auto; try done.
      rewrite Hh. by rewrite (comm (++) (ru_left s)).
    + destruct (_ <? _) eqn:Hlt; intros; simplify_eq. bools. split; simpl; auto; try done; [|lia|].
      * rewrite Hs. unfold holding. by simpl.
      * rewrite Hh. unfold delivering. simpl. by rewrite <- Permutation_middle.
  - repeat case_match; intros; simplify_eq; by split.
  - destruct (ru_flying s) eqn:Hfl; intros; simplify_eq. split; simpl; rewrite ?Hfl; auto.
Qed.

Section Invariant.
Context `{F : Float64}.
Context (Quote : string -> string) (o : Options).

Lemma flight_step_ok k w s s' : runner_ok o s -> flight_step Quote o k w s = Some s' -> runner_ok o s'.
Proof.
  intros [Hf Hs Hb Hh Hl Hd Hp Hu]. unfold flight_step.
  destruct (ru_flying s !! k) as [[p m]|] eqn:Hk; [|done].
  assert (ru_dispatch s <> DispatchDone) as Hnd by (intros Hdd; by rewrite (Hd Hdd) in Hk).
  apply flight_split in Hk as (f1 & f2 & Hfl & Hdel & Hins). rewrite Hfl, holding_app in Hs. rewrite Hfl, delivering_app in Hh.
  destruct p; [|destruct (ru_slots s) as [|n] eqn:Hn|]; intros; simplify_eq; split; simpl; rewrite ?Hins, ?Hdel; auto; try done.
  all: rewrite ?holding_app, ?delivering_app; unfold delivering, holding in *; simpl in *; rewrite ?omap_app, ?length_app; try lia; try done.
  by rewrite Hh, <- !(assoc_L (++)).
Qed.

Lemma runner_move_ok a s s' : runner_ok o s -> runner_move Quote o a s = Some s' -> runner_ok o s'.
Proof.
  destruct a; simpl; eauto using main_step_ok, house_step_ok, dispatch_next_ok, flight_step_ok.
Qed.

Lemma runner_run_ok l s s' : 0 <= o_Workers o -> runner_ok o s -> runner_run Quote o l s = Some s' -> runner_ok o s'.
Proof.
  intros Hw. revert s. induction l as [|[e|a] l IH]; simpl; intros s Hs; [by intros [= <-]|by apply IH, event_ok|].
  destruct (runner_move _ _ _ _) as [s1|] eqn:Hm; [|done]. eauto using runner_move_ok.
Qed.
End Invariant.

(** ** Stopping *)

(** What is left to do once the context is done: of the goroutines that loop,
    and of the messages still on their way. A tick that waits in its channel is
    another turn of the loop. *)
Definition main_weight (p : RunPc) : nat :=
  match p with RunIdle => 0 | RunClear => 1 | RunWait => 2 | RunDispatch => 15 | RunHouse => 20 end.
Definition house_weight (p : HousePc) : nat :=
  match p with
  | HouseDone => 0 | HouseSelect => 1 | HouseFirst | HousePublish | HousePurge => 2 | HouseStart | HouseRelease => 3
  end.
Definition dispatch_weight (p : DispatchPc) : nat :=
  match p with
  | DispatchDone => 0 | DispatchDrain => 1 | DispatchPoll => 2 | DispatchFeed _ _ => 3 | DispatchClaim _ => 4 | DispatchRound => 5
  end.
Definition tick_weight (poll purge gauge : bool) : nat :=
  (if poll then 6 else 0) + (if purge then 3 else 0) + (if gauge then 2 else 0).
Definition loop_weight (s : Runner) : nat :=
  main_weight (ru_main s) + house_weight (ru_house s) + dispatch_weight (ru_dispatch s)
  + tick_weight (ru_poll s) (ru_purge s) (ru_gauge s).

Definition flight_weight (x : FlightPc * Message) : nat :=
  match x.1 with FlightDeliver => 3 | FlightFree => 2 | FlightDone => 1 end.
Definition message_weight (s : Runner) : nat :=
  (4 * length (waiting (ru_dispatch s)) + sum_list_with flight_weight (ru_flying s))%nat.

Lemma sum_flights f1 x f2 :
  sum_list_with flight_weight (f1 ++ x :: f2) = (flight_weight x + sum_list_with flight_weight (f1 ++ f2))%nat.
Proof. rewrite !sum_list_with_app. simpl. lia. Qed.

(** A relation that decreases a pair of numbers, the first before the second,
    has no infinite run. *)
Lemma sn_lexicographic {A} (R : A -> A -> Prop) (P : A -> Prop) (f g : A -> nat) :
  (forall x y, P x -> R x y -> P y /\ (f y < f x \/ f y = f x /\ g y < g x)%nat) -> forall x, P x -> sn R x.
Proof.
  intros HR x. remember (f x) as a eqn:Ha. revert x Ha.
  induction (Nat.lt_wf_0 a) as [a _ IHa]. intros x Ha. remember (g x) as b eqn:Hb. revert x Ha Hb.
  induction (Nat.lt_wf_0 b) as [b _ IHb]. intros x Ha Hb HP. constructor. intros y Hxy.
  destruct (HR _ _ HP Hxy) as [HPy [Hlt|[He Hlt]]]; [eapply IHa|eapply IHb]; eauto; lia.
Qed.

Section Stopping.
Context `{F : Float64}.
Context (Quote : string -> string) (o : Options).

(** A goroutine of the runner moves, whatever the other processes have made of
    the database before. *)
Definition progress (s s' : Runner) : Prop := exists db a, runner_move Quote o a (set_db db s) = Some s'.

(** The same, with a number of ticks still to come. *)
Inductive stopping : nat * Runner -> nat * Runner -> Prop :=
| st_move n s s' : progress s s' -> stopping (n, s) (n, s')
| st_tick n s poll purge gauge : stopping (S n, s) (n, runner_event (Ticks poll purge gauge) s).

Ltac weigh := unfold loop_weight, message_weight, tick_weight; simpl.

Lemma main_step_decreases s s' :
  ru_done s = true -> main_step s = Some s' -> ru_done s' = true /\ (loop_weight s' < loop_weight s)%nat.
Proof.
  intros Hd. unfold main_step. destruct (ru_main s) eqn:Hm; intros; repeat case_match; simplify_eq;
    (split; [done|]); weigh; rewrite ?Hm; simpl; repeat case_match; simpl; lia.
Qed.

Lemma house_step_decreases c io now s s' :
  ru_done s = true -> house_step o c io now s = Some s' -> ru_done s' = true /\ (loop_weight s' < loop_weight s)%nat.
Proof.
  intros Hd. unfold house_step. destruct (ru_house s) eqn:Hh; intros; repeat case_match; simplify_eq;
    (split; [done|]); weigh; rewrite ?Hh; repeat case_match; simplify_eq/=; lia.
Qed.

Lemma dispatch_next_decreases leave io io' scan scan' now s s' :
  ru_done s = true -> dispatch_next o leave io io' scan scan' now s = Some s' ->
  ru_done s' = true
  /\ (loop_weight s' < loop_weight s \/ loop_weight s' = loop_weight s /\ message_weight s' < message_weight s)%nat.
Proof.
  intros Hd. unfold dispatch_next. destruct (ru_dispatch s) eqn:Hs; intros; repeat case_match; simplify_eq;
    (split; [done|]); weigh; rewrite ?Hs; simpl; repeat case_match; simplify_eq/=; lia.
Qed.

Lemma flight_step_decreases k w s s' :
  ru_done s = true -> flight_step Quote o k w s = Some s' ->
  ru_done s' = true /\ loop_weight s' = loop_weight s /\ (message_weight s' < message_weight s)%nat.
Proof.
  intros Hd. unfold flight_step. destruct (ru_flying s !! k) as [[p m]|] eqn:Hk; [|done].
  apply flight_split in Hk as (f1 & f2 & Hfl & Hdel & Hins).
  destruct p; [|destruct (ru_slots s)|]; intros; simplify_eq; (split; [done|split; [done|]]); weigh;
    rewrite ?Hins, ?Hdel, Hfl, !sum_flights; unfold flight_weight; simpl; lia.
Qed.

Lemma progress_decreases s s' :
  ru_done s = true -> progress s s' ->
  ru_done s' = true
  /\ (loop_weight s' < loop_weight s \/ loop_weight s' = loop_weight s /\ message_weight s' < message_weight s)%nat.
Proof.
  intros Hd (db & a & Hm). change (ru_done (set_db db s) = true) in Hd.
  change (loop_weight s) with (loop_weight (set_db db s)). change (message_weight s) with (message_weight (set_db db s)).
  destruct a; simpl in Hm.
  - apply main_step_decreases in Hm; naive_solver.
  - apply house_step_decreases in Hm; naive_solver.
  - by apply dispatch_next_decreases in Hm.
  - apply flight_step_decreases in Hm; naive_solver.
Qed.

(** However many ticks are still to come, the goroutines come to rest. *)
Lemma stopping_terminates n s : ru_done s = true -> sn stopping (n, s).
Proof.
  intros Hd. apply (sn_lexicographic stopping (fun x => ru_done x.2 = true)
    (fun x => (12 * x.1 + loop_weight x.2)%nat) (fun x => message_weight x.2)); [|done].
  intros x y Hx Hxy. destruct Hxy as [m t t' Ht|m t p q r]; simpl in *.
  { apply progress_decreases in Ht as [Ht' Hlt]; [|done]. split; [done|lia]. }
  split; [done|]. left. weigh. destruct (ru_poll t), (ru_purge t), (ru_gauge t), p, q, r; simpl; lia.
Qed.

(** The runner is not at rest while [Run] has not returned. *)
Lemma progress_possible s : runner_ok o s -> ru_done s = true -> ru_main s <> RunIdle -> exists s', progress s s'.
Proof.
  intros [_ Hs _ _ _ _ _ _] Hd Hm.
  enough (exists a s', runner_move Quote o a s = Some s') as (a & s' & H) by (exists s', (ru_db s), a; by destruct s).
  set (w := mkWorld None (ru_db s) None (ru_db s) None (ru_db s) true 0 0 None 0 (ru_db s)).
  destruct (ru_main s) eqn:Hmain; [done|..].
  1, 2, 4: exists MoveRun; simpl; unfold main_step; rewrite Hmain; eauto.
  destruct (ru_house s) eqn:Hh.
  2-7: exists (MoveHouse CaseDone None 0); simpl; unfold house_step; rewrite Hh, ?Hd; eauto.
  destruct (ru_dispatch s) as [| |limit|got [|m rest]| |] eqn:Hp.
  1: exists MoveRun; simpl; unfold main_step; rewrite Hmain, Hh, Hp; eauto.
  1-5: exists (MoveDispatch true None None [] [] 0); simpl; unfold dispatch_next; rewrite Hp, ?Hd; repeat case_match; eauto.
  destruct (ru_flying s) as [|[[] m] fl] eqn:Hfl.
  1: exists (MoveDispatch true None None [] [] 0); simpl; unfold dispatch_next; rewrite Hp, Hfl; eauto.
  all: exists (MoveFlight 0 w); simpl; unfold flight_step; rewrite Hfl; simpl; eauto.
  rewrite Hs. unfold holding. simpl. eauto.
Qed.

Lemma stopping_ok x y : rtc stopping x y -> runner_ok o x.2 -> ru_done x.2 = true -> runner_ok o y.2 /\ ru_done y.2 = true.
Proof.
  induction 1 as [x|x y z Hxy _ IH]; [done|]. intros Hok Hd. apply IH; inv Hxy; simpl in *.
  - destruct H as (db & a & Hm). eapply runner_move_ok; [|exact Hm]. by destruct Hok; split.
  - by destruct Hok; split.
  - by apply progress_decreases in H as [? _].
  - done.
Qed.
End Stopping.

Section Theorems.
Context `{F : Float64}.
Context (Quote : string -> string) (o : Options).

(** C23: However the goroutines of a runner, its callers, the tickers and other
    processes interleave: at most [Workers] messages are being delivered; every
    message that was claimed has been delivered, is being delivered, waits in
    the dispatcher or was left because the context was done, each once; a
    second [Run] is refused; and when [Run] has returned no goroutine of it is
    left, so every claimed message was delivered or, after a cancellation,
    left to its lease. *)
Theorem run_accounts_for_every_claim l db s :
  0 <= o_Workers o -> runner_run Quote o l (new_runner db) = Some s ->
  Z.of_nat (length (delivering (ru_flying s))) <= o_Workers o
  /\ ru_claimed s ≡ₚ ru_delivered s ++ delivering (ru_flying s) ++ waiting (ru_dispatch s) ++ ru_left s
  /\ (ru_left s <> [] -> ru_done s = true)
  /\ (ru_main s <> RunIdle -> begin_run s = Err "queue: already running")
  /\ (ru_main s = RunIdle ->
        ru_flying s = [] /\ ru_house s = HouseDone /\ ru_dispatch s = DispatchDone
        /\ ru_claimed s ≡ₚ ru_delivered s ++ ru_left s).
Proof.
  intros Hw Hr. apply runner_run_ok in Hr as [Hf Hs Hb Hh Hl Hd Hp Hu]; [|done|by apply new_runner_ok].
  split_and!; [|done|done|..].
  - pose proof (delivering_holding (ru_flying s)). lia.
  - intros Hm. unfold begin_run. by rewrite Hf, bool_decide_true.
  - intros Hi. rewrite Hi in Hp, Hu.
    assert (ru_dispatch s = DispatchDone) as Hdd by (destruct (ru_dispatch s); [done|..]; by specialize (Hp ltac:(done))).
    rewrite (Hd Hdd), Hdd in Hh. split_and!; auto.
    destruct (ru_house s); [done|..]; by destruct (Hu ltac:(done)).
Qed.

(** C24: Once the context of a run is done, whatever its goroutines were doing,
    whatever other processes do to the database and however many more ticks
    arrive, the goroutines cannot go on for ever, and they come to rest only
    with [Run] returned. *)
Theorem cancelled_run_returns l db s n :
  0 <= o_Workers o -> runner_run Quote o l (new_runner db) = Some s -> ru_done s = true ->
  sn (stopping Quote o) (n, s)
  /\ forall m s', rtc (stopping Quote o) (n, s) (m, s') -> (forall t, ~ progress Quote o s' t) ->
       ru_main s' = RunIdle /\ ru_flying s' = [].
Proof.
  intros Hw Hr%runner_run_ok Hd; [|done|by apply new_runner_ok]. split; [by apply stopping_terminates|].
  intros m s' [Hok Hd']%stopping_ok Hrest; [|done|done]. simpl in *.
  assert (ru_main s' = RunIdle) as Hi.
  { apply dec_stable. intros Hn. destruct (progress_possible Quote o _ Hok Hd' Hn) as [t Ht]. by apply (Hrest t). }
  split; [done|]. apply (rk_drained _ _ Hok). destruct (ru_dispatch s') eqn:Hds; [done|..];
    pose proof (rk_dispatch _ _ Hok) as Hp; rewrite Hds, Hi in Hp; by specialize (Hp ltac:(done)).
Qed.
End Theorems.

(** ** A run *)

(** The queue has one message, of a mailbox that is in place. *)
Definition runner_queue : DB :=
  stocked (set_messages (set_m_MailboxID (Some "mb-1") <$> messages sample_queued) sample_queued).

(** A delivery that meets nothing wrong but, perhaps, when it writes its
    outcome. *)
Definition flight_world (write : option string) : World :=
  mkWorld None runner_queue None runner_queue None runner_queue true 250 0 write 260 runner_queue.

(** The message is claimed and delivered; the context is cancelled during the
    delivery. *)
Definition sample_start : list (RunnerEvent + Move) :=
  [inl CallRun; inr MoveRun; inr MoveRun; inr (MoveHouse CaseDone None 100);
   inr (MoveDispatch false None None [] [] 0); inr (MoveDispatch false None None ["m-1"] ["m-1"] 200);
   inr (MoveDispatch false None None [] [] 0); inl Cancel].
Definition sample_end (write : option string) : list (RunnerEvent + Move) :=
  [inr (MoveFlight 0 (flight_world write)); inr (MoveDispatch false None None [] [] 0);
   inr (MoveFlight 0 (flight_world write)); inr (MoveHouse CaseDone None 0); inr (MoveHouse CaseDone None 0);
   inr (MoveFlight 0 (flight_world write)); inr (MoveDispatch false None None [] [] 0); inr MoveRun; inr MoveRun].
Definition whole_run (write : option string) : list (RunnerEvent + Move) := sample_start ++ sample_end write.

Definition sample_options : Options := run_options accepts "w1".
Definition sample_runner (l : list (RunnerEvent + Move)) : Runner :=
  default (new_runner runner_queue) (runner_run (F := exact_float) id sample_options l (new_runner runner_queue)).

Definition is_some {A} (x : option A) : bool := match x with Some _ => true | None => false end.

Lemma sample_runs l :
  is_some (runner_run (F := exact_float) id sample_options l (new_runner runner_queue)) = true ->
  runner_run (F := exact_float) id sample_options l (new_runner runner_queue) = Some (sample_runner l).
Proof. unfold sample_runner. by destruct (runner_run _ _ _ _). Qed.

Lemma sample_returns : ru_main (sample_runner (whole_run None)) = RunIdle.
Proof. vm_compute. reflexivity. Qed.

Lemma run_accounts_for_every_claim_witness :
  m_ID <$> ru_delivered (sample_runner (whole_run None)) = ["m-1"]
  /\ (m_Status <$> messages (ru_db (sample_runner (whole_run None))) !! "m-1") = Some StatusSent
  /\ ru_claimed (sample_runner (whole_run None))
     ≡ₚ ru_delivered (sample_runner (whole_run None)) ++ ru_left (sample_runner (whole_run None)).
Proof.
  split; [vm_compute; reflexivity|]. split; [vm_compute; reflexivity|].
  apply (run_accounts_for_every_claim (F := exact_float) id sample_options (whole_run None) runner_queue
    (sample_runner (whole_run None)));
    [vm_compute; discriminate|apply sample_runs; vm_compute; reflexivity|exact sample_returns].
Defined.

Lemma cancelled_run_returns_witness :
  m_ID <$> delivering (ru_flying (sample_runner sample_start)) = ["m-1"]
  /\ sn (stopping (F := exact_float) id sample_options) (3%nat, sample_runner sample_start).
Proof.
  split; [vm_compute; reflexivity|].
  apply (cancelled_run_returns (F := exact_float) id sample_options sample_start runner_queue (sample_runner sample_start) 3);
    [vm_compute; discriminate|apply sample_runs; vm_compute; reflexivity|vm_compute; reflexivity].
Defined.

(** ** Stopping in the middle of a delivery

    The outcome of a delivery is written with the context of the run. When that
    was cancelled after the upstream took the message, the write fails: [Run]
    returns with the message sent and still marked as being sent, and once its
    lease has run out the next claim, of whatever replica, gets it again. *)
Definition stopped : Runner := sample_runner (whole_run (Some "context canceled")).

Lemma stopping_sends_twice :
  ru_main stopped = RunIdle
  /\ (forall m, ru_delivered stopped = [m] ->
      fst <$> dl_sends (deliver (F := exact_float) id sample_options (flight_world (Some "context canceled")) m) = ["smtp"])
  /\ m_ID <$> ru_delivered stopped = ["m-1"]
  /\ (m_Status <$> messages (ru_db stopped) !! "m-1") = Some StatusSending
  /\ m_ID <$> (claim (run_options accepts "w2") None None ["m-1"] ["m-1"] 4 501 (ru_db stopped)).1 = ["m-1"].
Proof.
  split_and!; [vm_compute; reflexivity| |vm_compute; reflexivity..].
  assert (match ru_delivered stopped with
          | [m] => fst <$> dl_sends (deliver (F := exact_float) id sample_options (flight_world (Some "context canceled")) m)
          | _ => []
          end = ["smtp"]) as H by (vm_compute; reflexivity).
  intros m Hm. by rewrite Hm in H.
Qed.
