(* ===== verification/Policy.v ===== *)
(** * Who may send as whom

    [internal/policy]: address parsing, allow-list patterns, and the decision
    about one submission. The packages [net/mail] and [net] are parameters:
    [NetMail] is what [mail.ParseAddress] and [mail.ParseAddressList] accept
    and what a [mail.Address] renders as, [NetIP] the addresses and networks of
    package net. [Quote] is the [%q] verb. *)

From stdpp Require Import base gmap strings list.
From Stdlib Require Import ZArith Lia Ascii.
From S2P Require Import Prelude GoStrings StoreModels.

Open Scope Z_scope.

Class NetMail := {
  mail_ParseAddress : string -> result string (string * string);             (* name, address *)
  mail_ParseAddressList : string -> result string (list (string * string));
  mail_Address_String : string * string -> string
}.

Class NetIP := {
  IP : Type;
  IPNet : Type;
  IP_String : IP -> string;
  ParseCIDR : string -> result string IPNet;
  IPNet_Contains : IPNet -> IP -> bool
}.

Class GoFmt := { Quote : string -> string }.

(** ** Addresses *)

Inductive AddressError :=
| ErrNoAddress
| ErrMalformedAddress (detail : string).

Record Address := mkAddress {
  Display : string;
  Original : string;
  Normalized : string;
  Domain : string
}.

Definition empty_Address : Address := mkAddress "" "" "" "".

Definition IsEmpty (a : Address) : bool := bool_decide (Normalized a = "").

Definition maxAddressLen : Z := 320.

Definition at_sign : ascii := "@"%char.
Definition DQUOTE : string := String (chr 34) "".

Section Addresses.
Context `{UC : UnicodeCase} `{NM : NetMail} `{GF : GoFmt}.

(** What follows the parsing proper: the address needs a local part and a
    domain. *)
Definition address_of (raw : string) (parsed : string * string) : result AddressError Address :=
  let no_domain := Err (ErrMalformedAddress (Quote raw +:+ " has no domain")) in
  match last_cut_byte at_sign parsed.2 with
  | None => no_domain
  | Some (loc, dom) =>
      if bool_decide (loc = "") || bool_decide (dom = "") then no_domain
      else Ok (mkAddress parsed.1 parsed.2 (ToLower parsed.2) (ToLower dom))
  end.

Definition ParseAddress (raw : string) : result AddressError Address :=
  let trimmed := TrimSpace raw in
  if bool_decide (trimmed = "") || bool_decide (trimmed = "<>") then Ok empty_Address
  else if len trimmed >? maxAddressLen
  then Err (ErrMalformedAddress ("longer than " +:+ Itoa maxAddressLen +:+ " characters"))
  else
    match mail_ParseAddress trimmed with
    | Ok parsed => address_of raw parsed
    | Err _ =>
        match mail_ParseAddress (Trim trimmed "<>") with
        | Ok parsed => address_of raw parsed
        | Err _ => Err (ErrMalformedAddress (Quote raw))
        end
    end.

(** [Address.String] *)
Definition Address_String (a : Address) : string :=
  if IsEmpty a then ""
  else if bool_decide (Display a = "") then Original a
  else mail_Address_String (Display a, Original a).

Definition set_Display (d : string) (a : Address) : Address :=
  mkAddress d (Original a) (Normalized a) (Domain a).

Definition ParseHeaderFrom (header : string) : result AddressError Address :=
  let trimmed := TrimSpace header in
  if bool_decide (trimmed = "") then Err ErrNoAddress
  else
    match mail_ParseAddressList trimmed with
    | Err _ => ParseAddress trimmed
    | Ok [] => Err ErrNoAddress
    | Ok [one] =>
        match ParseAddress one.2 with
        | Err e => Err e
        | Ok addr => Ok (set_Display one.1 addr)
        end
    | Ok l => Err (ErrMalformedAddress ("From lists " +:+ Itoa (Z.of_nat (length l))
                +:+ " addresses, which has no single sender identity"))
    end.

(** ** Patterns *)

(** The pattern once trimmed and lowercased. *)
Definition matches_lowered (normalized pattern : string) : bool :=
  if bool_decide (pattern = "") || bool_decide (normalized = "") then false
  else
    match CutPrefix pattern "*@" with
    | Some domain =>
        if bool_decide (domain = "") then false
        else match last_cut_byte at_sign normalized with
             | Some (_, d) => bool_decide (d = domain)
             | None => false
             end
    | None => bool_decide (normalized = pattern)
    end.

Definition MatchesPattern (normalized pattern : string) : bool :=
  matches_lowered normalized (ToLower (TrimSpace pattern)).

Definition ValidatePattern (pattern : string) : result string unit :=
  let trimmed := TrimSpace pattern in
  if bool_decide (trimmed = "") then Err "policy: pattern must not be empty"
  else if bool_decide (trimmed = "*") || bool_decide (trimmed = "*@*") then
    Err ("policy: " +:+ DQUOTE +:+ "*" +:+ DQUOTE
         +:+ " would allow sending as any address; grant the specific addresses or domains instead")
  else
    match CutPrefix trimmed "*@" with
    | Some domain =>
        if bool_decide (domain = "") || ContainsAny domain "*@ "
        then Err ("policy: " +:+ Quote pattern +:+ " is not a valid domain pattern; use *@example.com")
        else Ok tt
    | None =>
        if Contains trimmed "*"
        then Err ("policy: " +:+ Quote pattern +:+ " is not supported; use an exact address or *@example.com")
        else match ParseAddress trimmed with
             | Err _ => Err ("policy: " +:+ Quote pattern +:+ " is not a valid address or domain pattern")
             | Ok _ => Ok tt
             end
    end.
End Addresses.

(** ** Decisions *)

Inductive Action := ActionAccept | ActionRewrite | ActionReject.

#[export] Instance Action_eq_dec : EqDecision Action.
Proof. solve_decision. Defined.

Record Decision_ := mkDecision {
  d_Action : Action;
  d_Mailbox : option Mailbox;
  d_RewriteFrom : string;
  d_OriginalFrom : Address;
  d_Code : Z;
  d_Enhanced : string;
  d_Reason : string
}.

Definition Rejected (d : Decision_) : bool := bool_decide (d_Action d = ActionReject).

(** [policy.Account] *)
Record Account := mkAccount {
  a_ID : string;
  a_Username : string;
  a_Enabled : bool;
  a_Policy : FromPolicy;
  a_DefaultMailboxID : string;
  a_AllowedSenders : list string;
  a_AllowCIDRs : list string
}.

Record Input := mkInput {
  i_Account : Account;
  i_Mailboxes : list Mailbox;
  i_EnvelopeFrom : Address;
  i_HeaderFrom : Address
}.

Definition reject (code : Z) (enhanced reason : string) : Decision_ :=
  mkDecision ActionReject None "" empty_Address code enhanced reason.

Definition accept (mb : Mailbox) (from : Address) : Decision_ :=
  mkDecision ActionAccept (Some mb) "" from 0 "" "".

Definition disabled_mailbox (mb : Mailbox) : Decision_ :=
  reject 550 "5.7.1" ("the mailbox " +:+ mb_Address mb +:+ " is disabled").

Definition policy_name (p : FromPolicy) : string :=
  match p with
  | FromPolicyReject => "reject"
  | FromPolicyRewrite => "rewrite"
  | FromPolicyPassthrough => "passthrough"
  | FromPolicyOther name => name
  end.

(** [defaultMailbox]; [None] is the panic of [mailboxes\[0\]] on an empty list. *)
Definition defaultMailbox (mailboxes : list Mailbox) (defaultID : string) : option Mailbox :=
  if bool_decide (defaultID = "") then head mailboxes
  else match List.find (fun mb => bool_decide (mb_ID mb = defaultID)) mailboxes with
       | Some mb => Some mb
       | None => head mailboxes
       end.

Definition describeAllowed (mailboxes : list Mailbox) (patterns : list string) : string :=
  let parts := (mb_Address <$> mailboxes) ++ patterns in
  let maxListed := 5%nat in
  if bool_decide (maxListed < length parts)%nat
  then Join (take maxListed parts) ", " +:+ " and " +:+ Itoa (Z.of_nat (length parts - maxListed)) +:+ " more"
  else Join parts ", ".

Section Resolution.
Context `{UC : UnicodeCase} `{GF : GoFmt}.

Definition matchMailbox (mailboxes : list Mailbox) (normalized : string) : option Mailbox :=
  List.find (fun mb => EqualFold (mb_Address mb) normalized) mailboxes.

Definition matchesAny (normalized : string) (patterns : list string) : bool :=
  existsb (MatchesPattern normalized) patterns.

Definition applyFromPolicy (i : Input) : option Decision_ :=
  match defaultMailbox (i_Mailboxes i) (a_DefaultMailboxID (i_Account i)) with
  | None => None
  | Some mb => Some
      match a_Policy (i_Account i) with
      | FromPolicyRewrite =>
          if negb (mb_Enabled mb) then disabled_mailbox mb
          else mkDecision ActionRewrite (Some mb) (mb_Address mb) (i_HeaderFrom i) 0 "" ""
      | FromPolicyPassthrough =>
          if negb (mb_Enabled mb) then disabled_mailbox mb else accept mb (i_HeaderFrom i)
      | FromPolicyReject =>
          reject 550 "5.7.1" ("this account may not send as " +:+ Original (i_HeaderFrom i)
            +:+ "; allowed senders are: "
            +:+ describeAllowed (i_Mailboxes i) (a_AllowedSenders (i_Account i)))
      | FromPolicyOther name =>
          reject 451 "4.3.5" ("the sender policy " +:+ Quote name +:+ " is not understood by this version")
      end
  end.

(** [Resolve]; [None] would be a panic. *)
Definition Resolve (i : Input) : option Decision_ :=
  if negb (a_Enabled (i_Account i)) then Some (reject 550 "5.7.1" "this account is disabled")
  else if bool_decide (i_Mailboxes i = []) then
    Some (reject 550 "5.7.1" "this account is not linked to any mailbox; grant it one in the admin interface")
  else if IsEmpty (i_HeaderFrom i) then Some (reject 550 "5.7.1" "the message has no From header")
  else
    match matchMailbox (i_Mailboxes i) (Normalized (i_HeaderFrom i)) with
    | Some mb => Some (if negb (mb_Enabled mb) then disabled_mailbox mb else accept mb (i_HeaderFrom i))
    | None =>
        if matchesAny (Normalized (i_HeaderFrom i)) (a_AllowedSenders (i_Account i)) then
          match defaultMailbox (i_Mailboxes i) (a_DefaultMailboxID (i_Account i)) with
          | None => None
          | Some mb => Some (if negb (mb_Enabled mb) then disabled_mailbox mb else accept mb (i_HeaderFrom i))
          end
        else applyFromPolicy i
    end.
End Resolution.

(** ** Source addresses *)

Section Source.
Context `{NI : NetIP} `{GF : GoFmt}.

Fixpoint check_cidrs (username : string) (cidrs : list string) (ip : IP) : result string unit :=
  match cidrs with
  | [] => Err ("policy: account " +:+ username +:+ " is not allowed to connect from " +:+ IP_String ip)
  | raw :: rest =>
      match ParseCIDR raw with
      | Err e => Err ("policy: account " +:+ username +:+ " has an invalid allowed network "
                        +:+ Quote raw +:+ ": " +:+ e)
      | Ok network => if IPNet_Contains network ip then Ok tt else check_cidrs username rest ip
      end
  end.

(** [CheckSourceAddress]; [None] is an unknown client address. *)
Definition CheckSourceAddress (account : Account) (ip : option IP) : result string unit :=
  if bool_decide (a_AllowCIDRs account = []) then Ok tt
  else match ip with
       | None => Err ("policy: account " +:+ a_Username account
                        +:+ " restricts source addresses, but the client address is unknown")
       | Some ip => check_cidrs (a_Username account) (a_AllowCIDRs account) ip
       end.
End Source.

Definition AccountFromStore (a : SMTPAccount) (allowed : list AllowedSender) : Account :=
  mkAccount (acc_ID a) (acc_Username a) (acc_Enabled a) (acc_FromPolicy a)
    (default "" (acc_DefaultMailboxID a)) (as_Pattern <$> allowed) (acc_AllowCIDRs a).
