(* ===== verification/PolicyProps.v ===== *)
(** * Properties of the sender policy *)

From stdpp Require Import base gmap strings list.
From Stdlib Require Import ZArith Lia Ascii.
From S2P Require Import Prelude GoStrings GoStringsFacts StoreModels Policy.

Open Scope Z_scope.

(** ** Lemmas *)

Lemma find_elem {A} (f : A -> bool) l x : List.find f l = Some x -> x ∈ l /\ f x = true.
Proof. intros H%List.find_some. by rewrite list_elem_of_In. Qed.

Lemma find_none_iff {A} (f : A -> bool) l : List.find f l = None <-> forall x, x ∈ l -> f x = false.
Proof.
  split; [intros H x Hx; by eapply List.find_none; [|apply list_elem_of_In]|].
  induction l as [|a l IH]; [done|]. intros H. simpl. rewrite (H a) by left. apply IH. intros x Hx. apply H. by right.
Qed.

Lemma head_elem {A} (l : list A) x : head l = Some x -> x ∈ l.
Proof. destruct l; [done|]. intros [= ->]. left. Qed.

Lemma defaultMailbox_elem l d mb : defaultMailbox l d = Some mb -> mb ∈ l.
Proof.
  unfold defaultMailbox. destruct (bool_decide _); [apply head_elem|].
  destruct (List.find _ l) as [x|] eqn:Hf; [|apply head_elem]. intros [= ->]. by apply find_elem in Hf as [? _].
Qed.

(** On a non-empty list there is a default: no panic. *)
Lemma defaultMailbox_is_Some l d : l <> [] -> is_Some (defaultMailbox l d).
Proof.
  intros Hl. unfold defaultMailbox. destruct l as [|mb l]; [done|].
  destruct (bool_decide _); [by eauto|]. destruct (List.find _ (mb :: l)); eauto.
Qed.

(** A configured default that the account may use is the one that is used. *)
Lemma defaultMailbox_configured l d mb :
  d <> "" -> mb ∈ l -> mb_ID mb = d -> exists mb', defaultMailbox l d = Some mb' /\ mb_ID mb' = d.
Proof.
  intros Hd Hin Hid. unfold defaultMailbox. rewrite bool_decide_eq_false_2 by done.
  destruct (List.find _ l) as [x|] eqn:Hf.
  - exists x. apply find_elem in Hf as [_ Hx]. by bools.
  - rewrite find_none_iff in Hf. specialize (Hf mb Hin). by bools.
Qed.

Section Props.
Context `{UC : UnicodeCase} `{GF : GoFmt}.

(** ** The decision *)

(** What entitles a submission to leave as a mailbox: an enabled account, a
    From address, and an enabled mailbox of the account that is the From
    address itself or, when no mailbox is, the account's default, provided
    the address is on the allow-list or the account's policy lets strangers
    through. *)
Definition entitled (i : Input) (mb : Mailbox) : Prop :=
  a_Enabled (i_Account i) = true /\ IsEmpty (i_HeaderFrom i) = false /\ mb_Enabled mb = true
  /\ (matchMailbox (i_Mailboxes i) (Normalized (i_HeaderFrom i)) = Some mb
      \/ (matchMailbox (i_Mailboxes i) (Normalized (i_HeaderFrom i)) = None
          /\ defaultMailbox (i_Mailboxes i) (a_DefaultMailboxID (i_Account i)) = Some mb
          /\ (matchesAny (Normalized (i_HeaderFrom i)) (a_AllowedSenders (i_Account i)) = true
              \/ a_Policy (i_Account i) = FromPolicyRewrite
              \/ a_Policy (i_Account i) = FromPolicyPassthrough))).

(** The From header must be replaced. *)
Definition must_rewrite (i : Input) : bool :=
  match matchMailbox (i_Mailboxes i) (Normalized (i_HeaderFrom i)) with
  | Some _ => false
  | None => negb (matchesAny (Normalized (i_HeaderFrom i)) (a_AllowedSenders (i_Account i)))
            && bool_decide (a_Policy (i_Account i) = FromPolicyRewrite)
  end.

Definition granted (i : Input) (mb : Mailbox) : Decision_ :=
  if must_rewrite i then mkDecision ActionRewrite (Some mb) (mb_Address mb) (i_HeaderFrom i) 0 "" ""
  else accept mb (i_HeaderFrom i).

Lemma Resolve_cases i :
  exists d, Resolve i = Some d
  /\ ((Rejected d = false /\ exists mb, entitled i mb /\ mb ∈ i_Mailboxes i /\ d = granted i mb)
      \/ (Rejected d = true /\ (forall mb, ~ entitled i mb) /\ d_Mailbox d = None
          /\ (d_Code d = 550 \/ (d_Code d = 451 /\ exists name, a_Policy (i_Account i) = FromPolicyOther name)))).
Proof.
  unfold Resolve, applyFromPolicy, entitled, granted, must_rewrite.
  destruct (a_Enabled (i_Account i)); simpl; [|eexists; split; [done|]; right; naive_solver].
  destruct (bool_decide (i_Mailboxes i = [])) eqn:Hl; bools.
  { eexists. split; [done|]. right. split_and!; try done; [|by left].
    intros mb (_ & _ & _ & H). rewrite Hl in H. unfold defaultMailbox in H. simpl in H. case_bool_decide; naive_solver. }
  destruct (IsEmpty _); [eexists; split; [done|]; right; naive_solver|].
  destruct (matchMailbox _ _) as [mb|] eqn:Hm.
  { apply find_elem in Hm as [Hin _]. destruct (mb_Enabled mb) eqn:He; simpl; eexists; (split; [done|]).
    - left. split; [done|]. exists mb. split_and!; auto.
    - right. split_and!; [done| |done|by left]. intros mb' (_ & _ & ? & [?|[? _]]); congruence. }
  destruct (defaultMailbox_is_Some _ (a_DefaultMailboxID (i_Account i)) Hl) as [mb Hd]. rewrite Hd.
  apply defaultMailbox_elem in Hd as Hin.
  destruct (matchesAny _ _) eqn:Ha; simpl; [|destruct (a_Policy (i_Account i)) as [| | |name] eqn:Hp; simpl].
  all: try (eexists; split; [done|]; right; split_and!; [done| |done|by eauto];
    intros mb' (_ & _ & _ & [?|(_ & _ & [?|[?|?]])]); congruence).
  all: destruct (mb_Enabled mb) eqn:He; simpl; eexists; (split; [done|]);
    [left; split; [done|]; exists mb; split_and!; auto 10
    |right; split_and!; [done| |done|by left];
     intros mb' (_ & _ & ? & [?|(_ & ? & _)]); congruence].
Qed.

(** C4: The decision is total and exact. [Resolve] never panics; it lets a
    submission through exactly when some mailbox entitles it, then as that
    mailbox, which is one the account was granted, with the From header
    replaced by the mailbox's address exactly when only the rewrite policy
    lets it through; every other submission is refused with a 550, or a 451
    when the policy is one this version does not know. *)
Theorem resolve_grants_exactly_entitled i :
  exists d, Resolve i = Some d
  /\ ((Rejected d = false /\ exists mb, entitled i mb /\ mb ∈ i_Mailboxes i /\ d = granted i mb)
      \/ (Rejected d = true /\ (forall mb, ~ entitled i mb) /\ d_Mailbox d = None
          /\ (d_Code d = 550 \/ (d_Code d = 451 /\ exists name, a_Policy (i_Account i) = FromPolicyOther name)))).
Proof. apply Resolve_cases. Qed.

(** ** Patterns *)

Lemma lower_star c : lower_byte c = "*"%char -> c = "*"%char.
Proof. by destruct c as [[] [] [] [] [] [] [] []]; vm_compute. Qed.

(** An exact pattern does not turn into a domain pattern by lowercasing. *)
Lemma lowered_exact s : Contains s "*" = false -> CutPrefix (string_map lower_byte s) "*@" = None.
Proof.
  intros Hc. destruct (CutPrefix _ _) as [t|] eqn:Hp; [|done]. apply CutPrefix_Some in Hp.
  destruct s as [|a s]; [done|]. simpl in Hp. injection Hp as Ha _. apply lower_star in Ha as ->.
  by destruct s.
Qed.

Context `{NM : NetMail}.

(** An allow-list entry that is accepted allows what it says and nothing
    else: "*@domain" matches exactly the addresses whose domain, after the last
    "@", is that one, and every other entry matches exactly the one address it
    spells, in either case up to the case of its ASCII letters. *)
Theorem accepted_pattern_is_narrow p :
  ValidatePattern p = Ok tt -> is_ascii (TrimSpace p) = true ->
  (exists domain, TrimSpace p = "*@" +:+ domain /\ domain <> ""
     /\ forall n, MatchesPattern n p = true
          <-> exists loc, last_cut_byte at_sign n = Some (loc, string_map lower_byte domain))
  \/ (Contains (TrimSpace p) "*" = false
      /\ forall n, MatchesPattern n p = true <-> n = string_map lower_byte (TrimSpace p)).
Proof.
  unfold ValidatePattern, MatchesPattern, ToLower. set (t := TrimSpace p). intros Hv ->.
  destruct (bool_decide (t = "")) eqn:Ht; [done|]. destruct (_ || _); [done|].
  assert (string_map lower_byte t <> "") as Hlt by (intros ?%string_map_empty; by bools).
  destruct (CutPrefix t "*@") as [domain|] eqn:Hp.
  - left. apply CutPrefix_Some in Hp. rewrite Hp in *. clear Hp. destruct (bool_decide (domain = "")) eqn:Hd; [done|].
    exists domain. bools. split_and!; [done..|]. intros n. unfold matches_lowered.
    rewrite (bool_decide_eq_false_2 _ Hlt), string_map_app.
    change (string_map lower_byte "*@") with "*@". rewrite CutPrefix_app. simpl.
    rewrite (bool_decide_eq_false_2 (string_map lower_byte domain = "")) by (by intros ?%string_map_empty).
    case_bool_decide as Hn; [subst n; simpl; naive_solver|].
    destruct (last_cut_byte at_sign n) as [[loc d]|]; [rewrite bool_decide_eq_true|]; naive_solver.
  - right. destruct (Contains t "*") eqn:Hc; [done|]. split; [done|]. intros n. unfold matches_lowered.
    rewrite (bool_decide_eq_false_2 _ Hlt), lowered_exact by done. simpl.
    destruct (decide (n = "")) as [->|Hn]; [simpl; naive_solver|].
    by rewrite (bool_decide_eq_false_2 _ Hn), bool_decide_eq_true.
Qed.

(** ** Source addresses *)

Context `{NI : NetIP}.

(** A restricted account is only let in from its networks: with an empty
    list every source is accepted, otherwise the client's address must be
    known and inside a listed network that no unreadable entry precedes; an
    unreadable entry never widens what the others allow. *)
Theorem source_restricted account ip :
  CheckSourceAddress account ip = Ok tt <->
  a_AllowCIDRs account = []
  \/ exists a before raw after network, ip = Some a /\ a_AllowCIDRs account = before ++ raw :: after
       /\ ParseCIDR raw = Ok network /\ IPNet_Contains network a = true
       /\ Forall (fun r => exists n, ParseCIDR r = Ok n /\ IPNet_Contains n a = false) before.
Proof.
  unfold CheckSourceAddress. case_bool_decide as Hl; [naive_solver|].
  destruct ip as [a|]; [|naive_solver].
  assert (forall l, check_cidrs (a_Username account) l a = Ok tt <->
    exists before raw after network, l = before ++ raw :: after /\ ParseCIDR raw = Ok network
      /\ IPNet_Contains network a = true
      /\ Forall (fun r => exists n, ParseCIDR r = Ok n /\ IPNet_Contains n a = false) before) as H.
  { intros l. induction l as [|raw l IH]; simpl.
    { split; [done|]. by intros ([|??] & ? & ? & ? & ? & _). }
    destruct (ParseCIDR raw) as [n|e] eqn:Hr.
    - destruct (IPNet_Contains n a) eqn:Hc.
      { split; [|done]. intros _. by exists [], raw, l, n. }
      rewrite IH. split.
      + intros (b & r & af & nw & -> & ? & ? & ?). exists (raw :: b), r, af, nw. split_and!; try done.
        constructor; eauto.
      + intros ([|x b] & r & af & nw & [= -> ->] & ? & ? & Hf); [congruence|]. inv Hf. by exists b, r, af, nw.
    - split; [done|]. intros ([|x b] & r & af & nw & [= -> ->] & ? & ? & Hf); [congruence|].
      apply Forall_cons in Hf as [(? & ? & _) _]. congruence. }
  rewrite H. naive_solver.
Qed.
End Props.

(** *** Concrete parameters, for the witnesses *)

Definition plain_case : UnicodeCase := Build_UnicodeCase id id String.eqb.
Definition plain_fmt : GoFmt := Build_GoFmt (fun s => DQUOTE +:+ s +:+ DQUOTE).
Definition plain_mail : NetMail :=
  Build_NetMail (fun s => if contains_byte s at_sign then Ok ("", s) else Err "mail: no angle-addr")
    (fun s => if contains_byte s at_sign then Ok [("", s)] else Err "mail: no angle-addr") snd.

Lemma accepted_pattern_is_narrow_witness :
  (exists domain, TrimSpace " *@Example.com" = "*@" +:+ domain /\ domain <> ""
     /\ forall n, MatchesPattern (UC := plain_case) n " *@Example.com" = true
          <-> exists loc, last_cut_byte at_sign n = Some (loc, string_map lower_byte domain))
  \/ (Contains (TrimSpace " *@Example.com") "*" = false
      /\ forall n, MatchesPattern (UC := plain_case) n " *@Example.com" = true
           <-> n = string_map lower_byte (TrimSpace " *@Example.com")).
Proof.
  apply (accepted_pattern_is_narrow (UC := plain_case) (GF := plain_fmt) (NM := plain_mail)); vm_compute; reflexivity.
Defined.

(** Validation lets through an entry that can never match: "<>" is
    accepted, since the empty envelope sender parses, and no parsed address
    matches it, although validation exists "so the admin API can reject a bad
    entry at write time rather than silently never matching". *)
Theorem dead_pattern_accepted `{UC : UnicodeCase} `{GF : GoFmt} `{NM : NetMail} :
  ValidatePattern "<>" = Ok tt
  /\ forall raw a, ParseAddress raw = Ok a -> is_ascii (Original a) = true ->
       MatchesPattern (Normalized a) "<>" = false.
Proof.
  split; [vm_compute; reflexivity|]. intros raw a Ha Hascii.
  change (matches_lowered (Normalized a) "<>" = false). unfold matches_lowered. simpl.
  case_bool_decide as Hn; [done|]. apply bool_decide_eq_false_2. intros Hs.
  assert (Normalized a = ToLower (Original a) /\ is_Some (last_cut_byte at_sign (Original a))) as [Hl Hat].
  { revert Ha. unfold ParseAddress, address_of. destruct (_ || _); [by intros [= <-]|]. destruct (_ >? _); [done|].
    destruct (mail_ParseAddress _) as [p|]; [|destruct (mail_ParseAddress _) as [p|]; [|done]];
      destruct (last_cut_byte _ _) as [[loc dom]|] eqn:Hc; try done; destruct (_ || _); try done;
      intros [= <-]; simpl; rewrite Hc; eauto. }
  rewrite Hl in Hs. unfold ToLower in Hs. rewrite Hascii in Hs. destruct (Original a) as [|c1 [|c2 [|c3 t]]]; try done.
  simpl in Hs. injection Hs as H1 H2.
  assert (c1 <> at_sign /\ c2 <> at_sign) as [N1 N2] by (split; intros ->; done).
  simpl in Hat. rewrite !bool_decide_eq_false_2 in Hat by done. by destruct Hat.
Qed.

Lemma dead_pattern_accepted_witness :
  MatchesPattern (UC := plain_case) "scan@x" "<>" = false.
Proof.
  refine (proj2 (dead_pattern_accepted (UC := plain_case) (GF := plain_fmt) (NM := plain_mail)) " Scan@x"
    (mkAddress "" "Scan@x" "scan@x" "x") _ _); vm_compute; reflexivity.
Defined.
