(* ===== verification/Headers.v ===== *)
(** * Message headers

    [internal/smtpsrv/headers.go], and what it uses of [net/textproto]: the
    canonical form of a field name and [ReadMIMEHeader] on a block held in
    memory. A message is never re-encoded: the header block is edited line by
    line and the body is copied. *)

From stdpp Require Import base gmap strings list.
From Stdlib Require Import ZArith Lia Ascii.
From S2P Require Import Prelude GoStrings.

Open Scope Z_scope.

Definition COLON : ascii := ":"%char.

(** ** net/textproto *)

(** [validHeaderFieldByte]: the characters of a token. *)
Definition validHeaderFieldByte (c : ascii) : bool :=
  is_upper c || is_lower c || is_digit c || contains_byte "!#$%&'*+-.^_`|~" c.

(** Upper case at the start and after a hyphen, lower case elsewhere. *)
Fixpoint canonical_case (upper : bool) (s : string) : string :=
  match s with
  | EmptyString => EmptyString
  | String c s' =>
      let c := if upper then upper_byte c else lower_byte c in
      String c (canonical_case (bool_decide (c = "-"%char)) s')
  end.

Definition all_bytes (f : ascii -> bool) (s : string) : bool := negb (string_exists (fun c => negb (f c)) s).

(** A name with an invalid byte is left alone. *)
Definition CanonicalMIMEHeaderKey (s : string) : string :=
  if all_bytes validHeaderFieldByte s then canonical_case true s else s.

(** [canonicalMIMEHeaderKey]: a space is tolerated, anything else refused. *)
Definition canonical_key (s : string) : option string :=
  if bool_decide (s = "") then None
  else if negb (all_bytes (fun c => validHeaderFieldByte c || bool_decide (c = SP)) s) then None
  else Some (CanonicalMIMEHeaderKey s).

(** [validHeaderValueByte]: tab, visible characters and space, and 0x80 up. *)
Definition validHeaderValueByte (c : ascii) : bool :=
  (code c =? 9) || ((32 <=? code c) && (code c <=? 126)) || (128 <=? code c).

Definition blank_byte (c : ascii) : bool := bool_decide (c = SP) || bool_decide (c = TAB).

Definition starts_blank (s : string) : bool :=
  match s with String c _ => blank_byte c | EmptyString => false end.

Definition trim_blanks_left (s : string) : string := unbytes (drop_while blank_byte (bytes s)).
Definition trim_blanks (s : string) : string :=
  unbytes (rev (drop_while blank_byte (rev (drop_while blank_byte (bytes s))))).

(** ** Lines *)

(** [splitLines]: splits on LF, keeping the terminator on each line. *)
Fixpoint splitLines (b : string) : list string :=
  match b with
  | EmptyString => []
  | String c b' =>
      if bool_decide (c = LF) then String c EmptyString :: splitLines b'
      else match splitLines b' with
           | [] => [String c EmptyString]
           | l :: ls => String c l :: ls
           end
  end.

(** What [bufio.Reader.ReadLine] returns for a line. *)
Definition line_text (l : string) : string :=
  match rev (bytes l) with
  | c :: r =>
      if bool_decide (c = LF) then
        match r with
        | c' :: r' => if bool_decide (c' = CR) then unbytes (rev r') else unbytes (rev r)
        | [] => ""
        end
      else l
  | [] => l
  end.

(** The continuation lines that follow a field, unfolded onto it. *)
Fixpoint continuations (buf : string) (lines : list string) : string * list string :=
  match lines with
  | line :: rest =>
      if starts_blank line then continuations (buf +:+ String SP (trim_blanks line)) rest else (buf, lines)
  | [] => (buf, lines)
  end.

Definition malformed (line : string) : string := "malformed MIME header line: " +:+ line.

(** [fuel] is the number of lines. *)
Fixpoint read_fields (fuel : nat) (lines : list string) : result string (list (string * string)) :=
  match fuel, lines with
  | S fuel, line :: rest =>
      if bool_decide (line = "") then Ok []
      else if negb (contains_byte line COLON) then Err ("malformed MIME header: missing colon: " +:+ line)
      else
        let '(kv, rest) := continuations (trim_blanks line) rest in
        match cut_byte COLON kv with
        | None => Err (malformed kv)
        | Some (k, v) =>
            match canonical_key k with
            | None => Err (malformed kv)
            | Some key =>
                if negb (all_bytes validHeaderValueByte v) then Err (malformed kv)
                else match read_fields fuel rest with
                     | Ok fields => Ok ((key, trim_blanks_left v) :: fields)
                     | Err e => Err e
                     end
            end
        end
  | _, _ => Err "EOF"
  end.

(** [ReadMIMEHeader], as the fields in order. *)
Definition ReadMIMEHeader (block : string) : result string (list (string * string)) :=
  let lines := line_text <$> splitLines block in
  match lines with
  | line :: _ =>
      if starts_blank line then Err ("malformed MIME header initial line: " +:+ line)
      else read_fields (length lines) lines
  | [] => Err "EOF"
  end.

(** [MIMEHeader.Get]: the first value, or "". *)
Definition header_Get (fields : list (string * string)) (key : string) : string :=
  match List.find (fun f => bool_decide (f.1 = CanonicalMIMEHeaderKey key)) fields with
  | Some f => f.2
  | None => ""
  end.

(** ** The message *)

Inductive HeaderError :=
| ErrNoHeaderSeparator
| ErrHeaderTooLarge (n : Z)
| ErrBadHeader (detail : string).

Definition header_error_text (e : HeaderError) : string :=
  match e with
  | ErrNoHeaderSeparator => "smtpsrv: message has no blank line separating headers from body"
  | ErrHeaderTooLarge n => "smtpsrv: message headers are too large: " +:+ Itoa n +:+ " bytes"
  | ErrBadHeader detail => "smtpsrv: parsing message headers: " +:+ detail
  end.

Definition maxHeaderBytes : Z := 2 ^ 20.

Record message := mkMsg {
  msg_raw : string;
  msg_headerEnd : nat;
  msg_header : list (string * string);
  msg_keys : list string
}.

(** The offset just past the blank line. *)
Definition findHeaderEnd (raw : string) : option nat :=
  match Index (CRLF +:+ CRLF) raw with
  | Some i => Some (i + 4)%nat
  | None =>
      match Index (String LF (String LF "")) raw with
      | Some i => Some (i + 2)%nat
      | None => None
      end
  end.

Definition headerOrder (block : string) : list string :=
  omap (fun line =>
    if bool_decide (line = "") || starts_blank line then None
    else match cut_byte COLON line with
         | Some (k, _) => if bool_decide (k = "") then None else Some (TrimSpace k)
         | None => None
         end) (split_byte LF block).

Definition parseMessage (raw : string) : result HeaderError message :=
  match findHeaderEnd raw with
  | None => Err ErrNoHeaderSeparator
  | Some end_ =>
      if Z.of_nat end_ >? maxHeaderBytes then Err (ErrHeaderTooLarge (Z.of_nat end_))
      else match ReadMIMEHeader (take_bytes end_ raw) with
           | Err e => Err (ErrBadHeader e)
           | Ok header => Ok (mkMsg raw end_ header (headerOrder (take_bytes end_ raw)))
           end
  end.

Definition msg_Get (m : message) (key : string) : string := header_Get (msg_header m) key.

Definition msg_Body (m : message) : string := drop_bytes (msg_headerEnd m) (msg_raw m).

(** ** Edits *)

Record headerEdit := mkEdit { ed_Key : string; ed_Value : string; ed_Prepend : bool }.

(** The replacer of [sanitizeHeaderValue]: CRLF, CR and LF each become one space. *)
Fixpoint replace_breaks (s : string) : string :=
  match s with
  | EmptyString => EmptyString
  | String c s' =>
      if bool_decide (c = CR) then
        match s' with
        | String c' s'' => if bool_decide (c' = LF) then String SP (replace_breaks s'') else String SP (replace_breaks s')
        | EmptyString => String SP EmptyString
        end
      else if bool_decide (c = LF) then String SP (replace_breaks s')
      else String c (replace_breaks s')
  end.

Definition sanitizeHeaderValue (v : string) : string :=
  if negb (ContainsAny v CRLF) then v else TrimSpace (replace_breaks v).

(** The line [writeHeaderLine] writes, without its line ending. *)
Definition header_line (key value : string) : string :=
  CanonicalMIMEHeaderKey key +:+ ": " +:+ sanitizeHeaderValue value.

Definition writeHeaderLine (key value : string) : string := header_line key value +:+ CRLF.

(** The map [replace]: the last edit of a field wins. *)
Definition replace_map (edits : list headerEdit) : gmap string string :=
  fold_left (fun r e => if ed_Prepend e then r else <[CanonicalMIMEHeaderKey (ed_Key e) := ed_Value e]> r) edits ∅.

(** The walk over the lines of the block. *)
Fixpoint rewrite_lines (replace : gmap string string) (skipping : bool) (seen : gset string) (lines : list string)
  : string * gset string :=
  match lines with
  | [] => ("", seen)
  | line :: rest =>
      let trimmed := TrimRight line CRLF in
      if bool_decide (trimmed = "") then ("", seen)
      else if starts_blank trimmed then
        let '(out, seen') := rewrite_lines replace skipping seen rest in
        (if skipping then out else trimmed +:+ CRLF +:+ out, seen')
      else
        let keep :=
          let '(out, seen') := rewrite_lines replace false seen rest in (trimmed +:+ CRLF +:+ out, seen') in
        match cut_byte COLON trimmed with
        | None => keep
        | Some (k, _) =>
            if bool_decide (k = "") then keep
            else
              let key := CanonicalMIMEHeaderKey (TrimSpace k) in
              match replace !! key with
              | None => keep
              | Some newValue =>
                  let '(out, seen') := rewrite_lines replace true ({[key]} ∪ seen) rest in
                  ((if bool_decide (newValue = "") then "" else writeHeaderLine key newValue) +:+ out, seen')
              end
        end
  end.

(** What a buffer holds after these writes. *)
Definition concat_strings (l : list string) : string := fold_right String.append "" l.

(** [rewriteHeaders]; [order] is the order in which the runtime visits the keys
    of the map [replace]. *)
Definition rewriteHeaders (order : list string) (m : message) (edits : list headerEdit) : string :=
  let replace := replace_map edits in
  let prepended := concat_strings
    ((fun e => writeHeaderLine (ed_Key e) (ed_Value e)) <$> base.filter (fun e => ed_Prepend e = true) edits) in
  let '(walked, seen) := rewrite_lines replace false ∅ (splitLines (take_bytes (msg_headerEnd m) (msg_raw m))) in
  let added := concat_strings
    (omap (fun key => match replace !! key with
                      | Some value => if bool_decide (key ∈ seen) || bool_decide (value = "") then None
                                      else Some (writeHeaderLine key value)
                      | None => None
                      end) order) in
  prepended +:+ walked +:+ added +:+ CRLF +:+ msg_Body m.
