(* ===== verification/HeadersProps.v ===== *)
(** * Properties of the header edits *)

From stdpp Require Import base gmap strings list.
From Stdlib Require Import ZArith Lia Ascii.
From S2P Require Import Prelude GoStrings GoStringsFacts Headers.

Open Scope Z_scope.

(** ** Lemmas on bytes *)

Lemma elem_of_drop_subset {A} n (l : list A) x : x ∈ drop n l -> x ∈ l.
Proof. intros H. rewrite <- (take_drop n l). apply elem_of_app. by right. Qed.

Lemma drop_spaces_subset spaces fuel l c : c ∈ drop_spaces spaces fuel l -> c ∈ l.
Proof.
  revert l. induction fuel as [|fuel IH]; intros l; simpl; [done|].
  destruct (space_width spaces l) eqn:Hw; [done|]. intros H%IH. by eapply elem_of_drop_subset.
Qed.

Lemma drop_while_subset f l c : c ∈ drop_while f l -> c ∈ l.
Proof. induction l as [|a l IH]; simpl; [done|]. destruct (f a); [|done]. intros H. right. auto. Qed.

(** Trimming adds nothing. *)
Lemma TrimSpace_subset s c : c ∈ bytes (TrimSpace s) -> c ∈ bytes s.
Proof.
  unfold TrimSpace, trim_right_bytes, trim_left_bytes. rewrite bytes_unbytes, elem_of_rev.
  intros H%drop_spaces_subset. rewrite elem_of_rev in H. by apply drop_spaces_subset in H.
Qed.

Lemma TrimRight_subset s cut c : c ∈ bytes (TrimRight s cut) -> c ∈ bytes s.
Proof.
  unfold TrimRight. rewrite bytes_unbytes, elem_of_rev. intros H%drop_while_subset. by rewrite elem_of_rev in H.
Qed.

Definition not_break (c : ascii) : Prop := c <> CR /\ c <> LF.
Definition no_breaks (s : string) : Prop := Forall not_break (bytes s).

Lemma no_breaks_cons c s : not_break c -> no_breaks s -> no_breaks (String c s).
Proof. intros. by constructor. Qed.

Lemma replace_breaks_clean s : no_breaks (replace_breaks s).
Proof.
  induction s as [s IH] using (induction_ltof1 _ String.length). unfold ltof in IH.
  destruct s as [|c s]; simpl; [constructor|].
  assert (not_break SP) as HSP by done. assert (no_breaks (replace_breaks s)) as Hs by (apply IH; simpl; lia).
  destruct (bool_decide (c = CR)) eqn:Hc; bools.
  - destruct s as [|c' s]; [by apply no_breaks_cons|]. destruct (bool_decide (c' = LF)); [|by apply no_breaks_cons].
    apply no_breaks_cons; [done|]. apply IH. simpl. lia.
  - destruct (bool_decide (c = LF)) eqn:Hl; bools; by apply no_breaks_cons.
Qed.

Lemma sanitize_clean v : no_breaks (sanitizeHeaderValue v).
Proof.
  unfold sanitizeHeaderValue, no_breaks. rewrite Forall_forall. intros c.
  destruct (ContainsAny v CRLF) eqn:Hc; simpl.
  - intros H%TrimSpace_subset. pose proof (replace_breaks_clean v) as Hr.
    unfold no_breaks in Hr. rewrite Forall_forall in Hr. auto.
  - apply not_true_iff_false in Hc. unfold ContainsAny in Hc. rewrite string_exists_iff in Hc.
    intros H. split; intros ->; apply Hc; (eexists; split; [exact H|reflexivity]).
Qed.

Lemma no_breaks_app s t : no_breaks s -> no_breaks t -> no_breaks (s +:+ t).
Proof. unfold no_breaks. rewrite bytes_app. by apply Forall_app_2. Qed.

(** A name made of token characters has no line break, whatever its case. *)
Definition token (s : string) : Prop := all_bytes validHeaderFieldByte s = true.

Lemma valid_byte_no_break c :
  validHeaderFieldByte c = true -> not_break (upper_byte c) /\ not_break (lower_byte c).
Proof. by destruct c as [[] [] [] [] [] [] [] []]; vm_compute. Qed.

Lemma canonical_case_clean up s : token s -> no_breaks (canonical_case up s).
Proof.
  unfold token, all_bytes. revert up. induction s as [|c s IH]; intros up H; simpl; [constructor|].
  simpl in H. bools. destruct (valid_byte_no_break c) as [? ?]; [done|].
  apply no_breaks_cons; [by destruct up|]. apply IH. by apply negb_true_iff.
Qed.

Lemma header_line_clean key value : token key -> no_breaks (header_line key value).
Proof.
  intros Hk. unfold header_line, CanonicalMIMEHeaderKey. rewrite Hk.
  apply no_breaks_app; [by apply canonical_case_clean|]. apply no_breaks_app; [|apply sanitize_clean].
  by repeat constructor.
Qed.

(** ** The walk, field by field *)

(** The field a line starts. *)
Definition field_key (line : string) : option string :=
  match cut_byte COLON line with
  | Some (k, _) => if bool_decide (k = "") then None else Some (CanonicalMIMEHeaderKey (TrimSpace k))
  | None => None
  end.

Record hline := mkHline {
  hl_text : string;            (* the line without its line ending *)
  hl_field : option string;    (* the field it belongs to *)
  hl_first : bool              (* it starts the field *)
}.

(** The lines of a block up to the blank one, each with its field. *)
Fixpoint annotate (cur : option string) (lines : list string) : list hline :=
  match lines with
  | [] => []
  | line :: rest =>
      let text := TrimRight line CRLF in
      if bool_decide (text = "") then []
      else if starts_blank text then mkHline text cur false :: annotate cur rest
      else mkHline text (field_key text) true :: annotate (field_key text) rest
  end.

Definition edited (replace : gmap string string) (field : option string) : bool :=
  match field with Some key => bool_decide (is_Some (replace !! key)) | None => false end.

(** What becomes of one line: it stays as it is, unless its field is edited;
    then the field's first line becomes the new value, if there is one. *)
Definition rewrite_one (replace : gmap string string) (h : hline) : list string :=
  match hl_field h ≫= fun key => replace !! key with
  | None => [hl_text h]
  | Some v => if hl_first h && negb (bool_decide (v = "")) then [header_line (default "" (hl_field h)) v] else []
  end.

Definition fields_seen (replace : gmap string string) (hs : list hline) : gset string :=
  list_to_set (omap (fun h => if edited replace (hl_field h) && hl_first h then hl_field h else None) hs).

Definition crlf_lines (ls : list string) : string := concat_strings ((fun l => l +:+ CRLF) <$> ls).

Lemma crlf_lines_cons l ls : crlf_lines (l :: ls) = l +:+ CRLF +:+ crlf_lines ls.
Proof. unfold crlf_lines. simpl. by rewrite string_app_assoc. Qed.

Lemma crlf_lines_app a b : crlf_lines (a ++ b) = crlf_lines a +:+ crlf_lines b.
Proof.
  induction a as [|l a IH]; [done|]. rewrite <- app_comm_cons, !crlf_lines_cons, IH. by rewrite !string_app_assoc.
Qed.

Lemma rewrite_one_kept replace h : edited replace (hl_field h) = false -> rewrite_one replace h = [hl_text h].
Proof.
  unfold rewrite_one, edited. destruct (hl_field h) as [key|]; simpl; [|done]. intros H. bools.
  by rewrite (proj2 (eq_None_not_Some _)).
Qed.

Lemma rewrite_one_edited replace h key v :
  hl_field h = Some key -> replace !! key = Some v ->
  rewrite_one replace h = if hl_first h && negb (bool_decide (v = "")) then [header_line key v] else [].
Proof. intros Hf Hr. unfold rewrite_one. rewrite Hf. simpl. by rewrite Hr. Qed.

Lemma edited_Some replace field : edited replace field = true <-> exists key v, field = Some key /\ replace !! key = Some v.
Proof.
  unfold edited. destruct field as [key|]; [|naive_solver]. rewrite bool_decide_eq_true. unfold is_Some. naive_solver.
Qed.

(** The text of the annotated lines, one line prefixed. *)
Lemma annotated_cons replace h hs :
  crlf_lines ((h :: hs) ≫= rewrite_one replace)
  = crlf_lines (rewrite_one replace h) +:+ crlf_lines (hs ≫= rewrite_one replace).
Proof. apply crlf_lines_app. Qed.

Lemma rewrite_lines_spec replace cur seen lines :
  rewrite_lines replace (edited replace cur) seen lines
  = (crlf_lines (annotate cur lines ≫= rewrite_one replace), fields_seen replace (annotate cur lines) ∪ seen).
Proof.
  revert cur seen. induction lines as [|line lines IH]; intros cur seen; cbn [rewrite_lines annotate].
  { f_equal. set_solver. }
  set (text := TrimRight line CRLF).
  destruct (bool_decide (text = "")); [f_equal; set_solver|].
  destruct (starts_blank text).
  - rewrite IH, annotated_cons. f_equal; [|by unfold fields_seen; simpl; rewrite andb_false_r].
    destruct (edited replace cur) eqn:He.
    + apply edited_Some in He as (key & v & -> & Hv). by rewrite (rewrite_one_edited _ _ key v).
    + rewrite rewrite_one_kept by done. by rewrite crlf_lines_cons, !string_app_assoc.
  - rewrite annotated_cons. destruct (edited replace (field_key text)) eqn:He.
    + apply edited_Some in He as Hkv. destruct Hkv as (key & v & Hk & Hv).
      rewrite Hk, (rewrite_one_edited _ _ key v) by done. clear He.
      assert (edited replace (Some key) = true) as He by (apply edited_Some; eauto).
      pose proof (IH (Some key) ({[key]} ∪ seen)) as IHk. rewrite He in IHk.
      unfold fields_seen at 1. cbn [omap list_omap hl_field hl_first]. rewrite He. cbn [andb list_to_set].
      fold (fields_seen replace (annotate (Some key) lines)).
      unfold field_key in Hk. destruct (cut_byte COLON text) as [[k r]|]; [|done].
      destruct (bool_decide (k = "")); [done|]. injection Hk as Hk. rewrite Hk, Hv, IHk.
      f_equal; [|set_solver]. destruct (bool_decide (v = "")); [done|]. simpl.
      by rewrite crlf_lines_cons; unfold writeHeaderLine; rewrite !string_app_assoc.
    + rewrite rewrite_one_kept by done.
      pose proof (IH (field_key text) seen) as IHk. rewrite He in IHk.
      trans (let '(out, seen') := rewrite_lines replace false seen lines in (text +:+ CRLF +:+ out, seen')).
      * unfold field_key in He. destruct (cut_byte COLON text) as [[k r]|]; [|done].
        destruct (bool_decide (k = "")); [done|]. simpl in He. bools.
        by rewrite (proj2 (eq_None_not_Some _)).
      * rewrite IHk, crlf_lines_cons, !string_app_assoc. unfold fields_seen at 2.
        cbn [omap list_omap hl_field hl_first]. by rewrite He.
Qed.

(** The lines the rewrite puts out: the prepended ones, the walked ones, and
    the edited fields the message did not have. *)
Definition out_lines (order : list string) (m : message) (edits : list headerEdit) : list string :=
  let replace := replace_map edits in
  let block := annotate None (splitLines (take_bytes (msg_headerEnd m) (msg_raw m))) in
  ((fun e => header_line (ed_Key e) (ed_Value e)) <$> base.filter (fun e => ed_Prepend e = true) edits)
  ++ (block ≫= rewrite_one replace)
  ++ omap (fun key => v ← replace !! key;
                      if bool_decide (v = "") || bool_decide (key ∈ fields_seen replace block) then None
                      else Some (header_line key v)) order.

Lemma concat_strings_lines {A} (f : A -> string) l :
  concat_strings ((fun x => f x +:+ CRLF) <$> l) = crlf_lines (f <$> l).
Proof. unfold crlf_lines. by rewrite <- list_fmap_compose. Qed.

Lemma concat_strings_omap (f : string -> option string) (g : string -> option string) l :
  (forall x, f x = (fun y => y +:+ CRLF) <$> g x) -> concat_strings (omap f l) = crlf_lines (omap g l).
Proof.
  intros H. induction l as [|x l IH]; [done|].
  change (omap f (x :: l)) with (match f x with Some y => y :: omap f l | None => omap f l end).
  change (omap g (x :: l)) with (match g x with Some y => y :: omap g l | None => omap g l end).
  rewrite H. destruct (g x) as [y|]; [|exact IH]. rewrite crlf_lines_cons, <- IH. simpl. by rewrite string_app_assoc.
Qed.

Lemma rewriteHeaders_lines order m edits :
  rewriteHeaders order m edits = crlf_lines (out_lines order m edits) +:+ CRLF +:+ msg_Body m.
Proof.
  unfold rewriteHeaders, out_lines. change false with (edited (replace_map edits) None).
  rewrite rewrite_lines_spec. unfold writeHeaderLine at 1. rewrite concat_strings_lines.
  rewrite (concat_strings_omap _ (fun key => v ← replace_map edits !! key;
    if bool_decide (v = "") || bool_decide (key ∈ fields_seen (replace_map edits)
        (annotate None (splitLines (take_bytes (msg_headerEnd m) (msg_raw m)))))
    then None else Some (header_line key v))).
  - by rewrite !crlf_lines_app, !string_app_assoc.
  - intros key. destruct (replace_map edits !! key) as [v|]; simpl; [|done].
    rewrite (right_id_L ∅ (∪)), orb_comm. by destruct (_ || _).
Qed.

(** ** The end of the header block *)

Definition ok_line (l : string) : Prop := l <> "" /\ (LF ∉ bytes l).

(** A line without LF holds no blank line; the one after it decides. *)
Lemma Index_line l r :
  LF ∉ bytes l ->
  Index (CRLF +:+ CRLF) (l +:+ CRLF +:+ r)
  = if HasPrefix r CRLF then Some (String.length l)
    else option_map (fun n => (String.length l + 2 + n)%nat) (Index (CRLF +:+ CRLF) r).
Proof.
  induction l as [|c l IH]; intros Hl.
  - change ("" +:+ CRLF +:+ r) with (String CR (String LF r)). cbn [Index].
    change (HasPrefix (String CR (String LF r)) (CRLF +:+ CRLF)) with (HasPrefix r CRLF).
    destruct (HasPrefix r CRLF); [done|]. change (HasPrefix (String LF r) (CRLF +:+ CRLF)) with false. cbn iota.
    by destruct (Index _ r).
  - apply not_elem_of_cons in Hl as [Hc Hl]. change (String c l +:+ CRLF +:+ r) with (String c (l +:+ CRLF +:+ r)).
    cbn [Index]. replace (HasPrefix (String c (l +:+ CRLF +:+ r)) (CRLF +:+ CRLF)) with false.
    + rewrite (IH Hl). destruct (HasPrefix r CRLF); [done|]. by destruct (Index _ r).
    + symmetry. unfold HasPrefix. change (CRLF +:+ CRLF) with (String CR (String LF CRLF)). cbn [String.prefix].
      destruct (ascii_dec CR c); [|done]. destruct l as [|c' l]; [reflexivity|].
      apply not_elem_of_cons in Hl as [Hc' _]. change (String c' l +:+ CRLF +:+ r) with (String c' (l +:+ CRLF +:+ r)).
      cbn [String.prefix]. destruct (ascii_dec LF c'); [congruence|done].
Qed.

Lemma ok_line_no_prefix l r : ok_line l -> HasPrefix (l +:+ CRLF +:+ r) CRLF = false.
Proof.
  intros [Hn Hl]. unfold HasPrefix. change CRLF with (String CR (String LF "")) at 1. destruct l as [|c [|c' l]]; [done| |].
  - change (String c "" +:+ CRLF +:+ r) with (String c (String CR (String LF r))). cbn [String.prefix].
    by destruct (ascii_dec CR c).
  - change (String c (String c' l) +:+ CRLF +:+ r) with (String c (String c' (l +:+ CRLF +:+ r))). cbn [String.prefix].
    destruct (ascii_dec CR c); [|done].
    apply not_elem_of_cons in Hl as [_ [Hl _]%not_elem_of_cons]. destruct (ascii_dec LF c'); [congruence|done].
Qed.

Lemma Index_lines ls body :
  ls <> [] -> Forall ok_line ls ->
  exists n, Index (CRLF +:+ CRLF) (crlf_lines ls +:+ CRLF +:+ body) = Some n
    /\ (n + 2)%nat = String.length (crlf_lines ls).
Proof.
  intros Hne Hok. induction Hok as [|l ls Hl Hok IH]; [done|]. rewrite crlf_lines_cons, !string_app_assoc.
  rewrite Index_line by apply Hl. destruct ls as [|l' ls].
  - replace (HasPrefix (crlf_lines [] +:+ CRLF +:+ body) CRLF) with true by (by destruct body). exists (String.length l). split; [done|].
    change (crlf_lines []) with "". rewrite string_app_nil. rewrite String_length_app. done.
  - destruct IH as (n & Hn & Hlen); [done|]. rewrite crlf_lines_cons, !string_app_assoc.
    rewrite ok_line_no_prefix by (by inv Hok). rewrite crlf_lines_cons, !string_app_assoc in Hn. rewrite Hn.
    exists (String.length l + 2 + n)%nat. split; [done|].
    rewrite crlf_lines_cons in Hlen. rewrite !String_length_app in *. simpl in *. lia.
Qed.

(** ** The lines put out are lines *)

Lemma splitLines_shape b line :
  line ∈ splitLines b -> exists l, (LF ∉ bytes l) /\ (line = l \/ line = l +:+ String LF "").
Proof.
  revert line. induction b as [|c b IH]; intros line; simpl; [by intros ?%elem_of_nil|].
  destruct (bool_decide (c = LF)) eqn:Hc; bools.
  { intros [->|Hin]%elem_of_cons; [|by apply IH]. exists "". split; [by intros ?%elem_of_nil|]. subst c. by right. }
  destruct (splitLines b) as [|l ls].
  - intros ->%list_elem_of_singleton. exists (String c ""). split; [|by left]. simpl.
    rewrite not_elem_of_cons. split; [done|by intros ?%elem_of_nil].
  - intros [->|Hin]%elem_of_cons; [|apply IH; by right].
    destruct (IH l) as (x & Hx & Hl); [left|]. exists (String c x). split.
    + simpl. rewrite not_elem_of_cons. done.
    + destruct Hl as [->| ->]; [by left|by right].
Qed.

Lemma trimmed_no_LF b line : line ∈ splitLines b -> LF ∉ bytes (TrimRight line CRLF).
Proof.
  intros (l & Hl & [->| ->])%splitLines_shape Hin; [by apply TrimRight_subset in Hin|].
  revert Hin. unfold TrimRight. rewrite bytes_unbytes, elem_of_rev, bytes_app, rev_app_distr. simpl.
  intros H%drop_while_subset. by rewrite elem_of_rev in H.
Qed.

Lemma annotate_ok b cur h : h ∈ annotate cur (splitLines b) -> ok_line (hl_text h).
Proof.
  assert (forall lines, (forall line, line ∈ lines -> LF ∉ bytes (TrimRight line CRLF)) ->
    forall cur, h ∈ annotate cur lines -> ok_line (hl_text h)) as H.
  { intros lines. induction lines as [|line lines IH]; simpl; intros Hl c; [by intros ?%elem_of_nil|].
    destruct (bool_decide (TrimRight line CRLF = "")) eqn:He; [by intros ?%elem_of_nil|]. bools.
    assert (ok_line (TrimRight line CRLF)) by (split; [done|apply Hl; left]).
    assert (forall cur, h ∈ annotate cur lines -> ok_line (hl_text h)) as IH'.
    { apply IH. intros l Hin. apply Hl. by right. }
    destruct (starts_blank _); intros [->|Hin]%elem_of_cons; eauto. }
  apply H. intros line. apply trimmed_no_LF.
Qed.

Lemma canonical_case_token up s : token s -> token (canonical_case up s).
Proof.
  unfold token, all_bytes. revert up. induction s as [|c s IH]; intros up H; simpl; [done|]. simpl in H. bools.
  assert (validHeaderFieldByte (if up then upper_byte c else lower_byte c) = true) as ->.
  { revert H. by destruct up, c as [[] [] [] [] [] [] [] []]; vm_compute. }
  simpl. apply IH. by apply negb_true_iff.
Qed.

Lemma canonical_token s : token s -> token (CanonicalMIMEHeaderKey s).
Proof. intros H. unfold CanonicalMIMEHeaderKey. rewrite H. by apply canonical_case_token. Qed.

Lemma replace_map_Some edits key v :
  replace_map edits !! key = Some v ->
  exists e, e ∈ edits /\ ed_Prepend e = false /\ key = CanonicalMIMEHeaderKey (ed_Key e) /\ v = ed_Value e.
Proof.
  unfold replace_map. assert (forall r : gmap string string, fold_left (fun r e => if ed_Prepend e then r else
      <[CanonicalMIMEHeaderKey (ed_Key e) := ed_Value e]> r) edits r !! key = Some v ->
    r !! key = Some v \/ exists e, e ∈ edits /\ ed_Prepend e = false
      /\ key = CanonicalMIMEHeaderKey (ed_Key e) /\ v = ed_Value e) as H.
  { induction edits as [|e edits IH]; simpl; intros r; [by left|]. intros [H|(e' & ? & ?)]%IH.
    - destruct (ed_Prepend e) eqn:Hp; [by left|]. apply lookup_insert_Some in H as [[<- <-]|[_ ?]]; [|by left].
      right. exists e. split; [left|done].
    - right. exists e'. split; [by right|done]. }
  intros [Hn|?]%H; [|done]. by rewrite lookup_empty in Hn.
Qed.

Lemma header_line_ok key value : token key -> ok_line (header_line key value).
Proof.
  intros Hk. split.
  - unfold header_line. by destruct (CanonicalMIMEHeaderKey key).
  - pose proof (header_line_clean key value Hk) as Hc. unfold no_breaks in Hc. rewrite Forall_forall in Hc.
    intros Hin%Hc. by destruct Hin.
Qed.

Lemma out_lines_ok order m edits :
  Forall (fun e => token (ed_Key e)) edits -> Forall ok_line (out_lines order m edits).
Proof.
  rewrite !Forall_forall. intros Ht. set (replace := replace_map edits).
  assert (forall key v, replace !! key = Some v -> token key) as Hkey.
  { intros key v (e & He & _ & -> & _)%replace_map_Some. by apply canonical_token, Ht. }
  intros l. unfold out_lines. rewrite !elem_of_app. intros [Hl|[Hl|Hl]].
  - apply list_elem_of_fmap in Hl as (e & -> & [_ He]%list_elem_of_filter). by apply header_line_ok, Ht.
  - apply list_elem_of_bind in Hl as (h & Hl & Hh). apply annotate_ok in Hh. revert Hl. unfold rewrite_one.
    destruct (hl_field h) as [key|]; simpl; [|by intros ->%list_elem_of_singleton].
    destruct (replace_map edits !! key) as [v|] eqn:Hv; [|by intros ->%list_elem_of_singleton].
    destruct (_ && _); [|by intros ?%elem_of_nil]. intros ->%list_elem_of_singleton.
    eapply header_line_ok, Hkey, Hv.
  - apply list_elem_of_omap in Hl as (key & _ & Hl). destruct (replace_map edits !! key) as [v|] eqn:Hv; [|done].
    simpl in Hl. destruct (_ || _); [done|]. injection Hl as <-. eapply header_line_ok, Hkey, Hv.
Qed.

(** ** Properties *)

(** No header can be injected: a line written for an edit holds no line
    break besides the one that ends it, whatever the value is, and a value
    that has none is written as it is. *)
Theorem no_header_injection key value :
  token key ->
  contains_byte (header_line key value) CR = false /\ contains_byte (header_line key value) LF = false
  /\ writeHeaderLine key value = header_line key value +:+ CRLF
  /\ (contains_byte value CR = false -> contains_byte value LF = false ->
      header_line key value = CanonicalMIMEHeaderKey key +:+ ": " +:+ value).
Proof.
  intros Hk. pose proof (header_line_clean key value Hk) as Hc. unfold no_breaks in Hc. rewrite Forall_forall in Hc.
  rewrite !contains_byte_false. split_and!; [by intros [? _]%Hc|by intros [_ ?]%Hc|done|].
  intros Hcr Hlf. unfold header_line, sanitizeHeaderValue. destruct (ContainsAny value CRLF) eqn:Ha; [|done].
  unfold ContainsAny in Ha. apply string_exists_iff in Ha as (c & Hin & Hb).
  apply contains_byte_iff in Hb. repeat (apply elem_of_cons in Hb as [->|Hb]; [done|]). by apply elem_of_nil in Hb.
Qed.

Lemma no_header_injection_witness :
  contains_byte (header_line "Reply-To" ("a@b" +:+ CRLF +:+ "Bcc: c@d")) CR = false
  /\ contains_byte (header_line "Reply-To" ("a@b" +:+ CRLF +:+ "Bcc: c@d")) LF = false.
Proof.
  destruct (no_header_injection "Reply-To" ("a@b" +:+ CRLF +:+ "Bcc: c@d")) as (H1 & H2 & _); [vm_compute; reflexivity|].
  split; [exact H1|exact H2].
Defined.

(** The edit is faithful. The rewritten message is the prepended lines,
    then every line of the original block up to its first blank line, in
    order and byte for byte apart from its line ending, except those of an
    edited field, the first of which gives way to the new value, then the
    edited fields the block did not have, then the blank line and the body. *)
Theorem rewrite_changes_only_edited_fields order m edits :
  rewriteHeaders order m edits = crlf_lines (out_lines order m edits) +:+ CRLF +:+ msg_Body m
  /\ (forall h, h ∈ annotate None (splitLines (take_bytes (msg_headerEnd m) (msg_raw m))) ->
        edited (replace_map edits) (hl_field h) = false -> hl_text h ∈ out_lines order m edits)
  /\ (forall key v, replace_map edits !! key = Some v -> v <> "" -> key ∈ order ->
        header_line key v ∈ out_lines order m edits).
Proof.
  split_and!; [apply rewriteHeaders_lines| |].
  - intros h Hh He. unfold out_lines. rewrite !elem_of_app, list_elem_of_bind. right. left.
    exists h. split; [|done]. rewrite rewrite_one_kept by done. left.
  - intros key v Hkv Hv Ho. unfold out_lines. set (block := annotate None _). rewrite !elem_of_app. right.
    destruct (decide (key ∈ fields_seen (replace_map edits) block)) as [Hseen|Hns].
    + left. unfold fields_seen in Hseen. apply elem_of_list_to_set, list_elem_of_omap in Hseen as (h & Hh & Hf).
      destruct (_ && hl_first h) eqn:Hef; [|done]. bools. apply list_elem_of_bind. exists h. split; [|done].
      rewrite (rewrite_one_edited _ _ key v) by done. rewrite H0, bool_decide_eq_false_2 by done. left.
    + right. apply list_elem_of_omap. exists key. split; [done|]. rewrite Hkv. simpl.
      by rewrite !bool_decide_eq_false_2.
Qed.

(** C8: The body survives. Read again the way this program reads a message,
    the rewritten message, which always has a header prepended, splits exactly
    where it was put together: its header block ends at the blank line that
    was written, and what follows is the original body, byte for byte. *)
Theorem rewrite_keeps_body order m edits :
  Forall (fun e => token (ed_Key e)) edits -> Exists (fun e => ed_Prepend e = true) edits ->
  exists end_, findHeaderEnd (rewriteHeaders order m edits) = Some end_
    /\ drop_bytes end_ (rewriteHeaders order m edits) = msg_Body m
    /\ take_bytes end_ (rewriteHeaders order m edits) = crlf_lines (out_lines order m edits) +:+ CRLF.
Proof.
  intros Ht Hp. rewrite rewriteHeaders_lines.
  destruct (Index_lines (out_lines order m edits) (msg_Body m)) as (n & Hn & Hlen).
  - unfold out_lines. apply Exists_exists in Hp as (e & He & Hpe).
    assert (e ∈ base.filter (fun e => ed_Prepend e = true) edits) as Hin by (by apply list_elem_of_filter).
    destruct (base.filter _ edits); [by apply elem_of_nil in Hin|done].
  - by apply out_lines_ok.
  - exists (n + 4)%nat. unfold findHeaderEnd. rewrite Hn.
    set (pre := crlf_lines (out_lines order m edits)) in *.
    assert (n + 4 = String.length (pre +:+ CRLF))%nat as ->.
    { rewrite String_length_app. change (String.length CRLF) with 2%nat. lia. }
    rewrite <- string_app_assoc. split_and!; [done|apply drop_bytes_app|apply take_bytes_app].
Qed.

(** *** A message, for the witnesses *)

Definition lf_text (ls : list string) : string := concat_strings ((fun l => l +:+ String LF "") <$> ls).

Definition sample_raw : string :=
  crlf_lines ["From: scan@x"; "Subject: a scan"; "  in two lines"; ""; "body"].

Definition sample_msg : message :=
  match parseMessage sample_raw with Ok m => m | Err _ => mkMsg "" 0 [] [] end.

Definition sample_edits : list headerEdit :=
  [mkEdit "Received" "from printer" true; mkEdit "From" "shared@x" false].

Lemma rewrite_keeps_body_witness :
  exists end_, findHeaderEnd (rewriteHeaders ["From"] sample_msg sample_edits) = Some end_
    /\ drop_bytes end_ (rewriteHeaders ["From"] sample_msg sample_edits) = msg_Body sample_msg.
Proof.
  destruct (rewrite_keeps_body ["From"] sample_msg sample_edits) as (e & H1 & H2 & _).
  - repeat constructor.
  - by left.
  - exists e. split; [exact H1|exact H2].
Defined.

Lemma rewrite_changes_only_edited_fields_sample :
  out_lines ["From"] sample_msg sample_edits
  = ["Received: from printer"; "From: shared@x"; "Subject: a scan"; "  in two lines"].
Proof. vm_compute. reflexivity. Qed.

(** A message with bare LF line endings whose body quotes a CRLF blank line. *)
Definition mixed_raw : string :=
  lf_text ["From: scan@x"; ""; "first paragraph"] +:+ CRLF +:+ CRLF +:+ lf_text ["second paragraph"].

(** Text can get lost: the end of the header block is looked for as CRLF
    CRLF first, anywhere in the message, so a message with bare LF line
    endings, which the reader means to accept, and a CRLF blank line in its
    body is cut there; the walk then stops at the real blank line and the
    text in between is not in the message that is queued. *)
Theorem mixed_line_endings_lose_text :
  match parseMessage mixed_raw with
  | Ok m => Contains (msg_raw m) "first paragraph" = true
      /\ Contains (rewriteHeaders [] m [mkEdit "Received" "from printer" true]) "first paragraph" = false
      /\ Contains (rewriteHeaders [] m [mkEdit "Received" "from printer" true]) "second paragraph" = true
  | Err _ => False
  end.
Proof. vm_compute. done. Qed.
