(* ===== verification/Password.v ===== *)
(** * Password hashes

    [internal/crypto/password.go]: Argon2id hashes in the PHC string format.
    The key derivation itself is a library function and a parameter, [IDKey];
    [salt] is what the random source returned. *)

From stdpp Require Import base gmap strings list.
From Stdlib Require Import ZArith Lia Ascii.
From S2P Require Import Prelude GoStrings GoStringsFacts Base64.

Open Scope Z_scope.

(** ** base64.RawStdEncoding, strict *)

Definition EncodeToString : string -> string := b64_encode StdAlphabet.
Definition DecodeString : string -> option string := b64_decode StdAlphabet true.

(** ** Parameters *)

Inductive CryptoError :=
| ErrInvalidHash
| ErrIncompatible (detail : string)
| ErrPasswordTooLong
| ErrRandom (detail : string).

Definition MaxPasswordLen : Z := 1024.

Record Argon2Params := mkParams {
  p_Memory : Z;
  p_Iterations : Z;
  p_Parallelism : Z;
  p_SaltLength : Z;
  p_KeyLength : Z
}.

(** [DefaultArgon2Params]; [numCPU] is [runtime.NumCPU()]. *)
Definition DefaultArgon2Params (numCPU : Z) : Argon2Params :=
  mkParams (64 * 1024) 3 (if numCPU <? 2 then numCPU else 2) 16 32.

Definition weakerThanDefault (numCPU : Z) (p : Argon2Params) : bool :=
  let d := DefaultArgon2Params numCPU in
  (p_Memory p <? p_Memory d) || (p_Iterations p <? p_Iterations d)
  || (p_KeyLength p <? p_KeyLength d) || (p_SaltLength p <? p_SaltLength d).

Definition DOLLAR : ascii := "$"%char.
Definition COMMA : ascii := ","%char.
Definition EQUALS : ascii := "="%char.

(** [strconv.ParseUint(s, 10, 32)] *)
Definition ParseUint32 (s : string) : option Z :=
  if bool_decide (s = "") then None
  else match digits_value s 0 with
       | Some n => if n <? 2 ^ 32 then Some n else None
       | None => None
       end.

(** [fmt.Sscanf(s, "v=%d", &version)]: the literal, blanks, a sign, digits;
    what follows is not looked at. *)
Fixpoint scan_digits (s : string) (acc : Z) (any : bool) : option Z :=
  match s with
  | String c s' => if is_digit c then scan_digits s' (10 * acc + (code c - 48)) true else if any then Some acc else None
  | EmptyString => if any then Some acc else None
  end.

Definition scan_version (s : string) : option Z :=
  match CutPrefix s "v=" with
  | None => None
  | Some rest =>
      let rest := unbytes (drop_while (fun c => bool_decide (c = SP) || bool_decide (c = TAB)) (bytes rest)) in
      match rest with
      | String c rest' =>
          if bool_decide (c = "-"%char) then Z.opp <$> scan_digits rest' 0 false
          else if bool_decide (c = "+"%char) then scan_digits rest' 0 false
          else scan_digits rest 0 false
      | EmptyString => None
      end
  end.

(** The fields of the parameter list; a flag tells that the field was seen. *)
Record SeenParams := mkSeen { s_m : option Z; s_t : option Z; s_p : option Z }.

Fixpoint parse_fields (fields : list string) (acc : SeenParams) : option SeenParams :=
  match fields with
  | [] => Some acc
  | field :: rest =>
      match cut_byte EQUALS field with
      | None => None
      | Some (name, value) =>
          match ParseUint32 value with
          | None => None
          | Some n =>
              if n =? 0 then None
              else if bool_decide (name = "m") then parse_fields rest (mkSeen (Some n) (s_t acc) (s_p acc))
              else if bool_decide (name = "t") then parse_fields rest (mkSeen (s_m acc) (Some n) (s_p acc))
              else if bool_decide (name = "p") then
                if n >? 255 then None else parse_fields rest (mkSeen (s_m acc) (s_t acc) (Some n))
              else None
          end
      end
  end.

Definition parseParams (s : string) : option Argon2Params :=
  match parse_fields (split_byte COMMA s) (mkSeen None None None) with
  | Some (mkSeen (Some m) (Some t) (Some p)) => Some (mkParams m t p 0 0)
  | _ => None
  end.

Section Hashing.
(** [argon2.IDKey] of a password and a salt, and [argon2.Version]. *)
Context (IDKey : string -> string -> Argon2Params -> string) (argon2_Version : Z).
Context (Quote : string -> string) (numCPU : Z).

Definition HashPasswordWith (salt : result string string) (password : string) (p : Argon2Params)
  : result CryptoError string :=
  if len password >? MaxPasswordLen then Err ErrPasswordTooLong
  else match salt with
       | Err e => Err (ErrRandom ("crypto: read random salt: " +:+ e))
       | Ok salt =>
           Ok ("$argon2id$v=" +:+ Itoa argon2_Version +:+ "$m=" +:+ Itoa (p_Memory p) +:+ ",t="
               +:+ Itoa (p_Iterations p) +:+ ",p=" +:+ Itoa (p_Parallelism p) +:+ "$"
               +:+ EncodeToString salt +:+ "$" +:+ EncodeToString (IDKey password salt p))
       end.

Definition HashPassword (salt : result string string) (password : string) : result CryptoError string :=
  HashPasswordWith salt password (DefaultArgon2Params numCPU).

(** [decodeHash]: the parameters, the salt and the key. *)
Definition decodeHash (encoded : string) : result CryptoError (Argon2Params * string * string) :=
  match split_byte DOLLAR encoded with
  | [p0; p1; p2; p3; p4; p5] =>
      if negb (bool_decide (p0 = "")) then Err ErrInvalidHash
      else if negb (bool_decide (p1 = "argon2id")) then Err (ErrIncompatible ("algorithm " +:+ Quote p1))
      else match scan_version p2 with
      | None => Err ErrInvalidHash
      | Some version =>
          if negb (version =? argon2_Version) then Err (ErrIncompatible ("version " +:+ Itoa version))
          else match parseParams p3, DecodeString p4, DecodeString p5 with
               | Some p, Some salt, Some key =>
                   if (len salt =? 0) || (len key =? 0) then Err ErrInvalidHash
                   else Ok (mkParams (p_Memory p) (p_Iterations p) (p_Parallelism p) (len salt) (len key), salt, key)
               | _, _, _ => Err ErrInvalidHash
               end
      end
  | _ => Err ErrInvalidHash
  end.

(** [VerifyPassword]: whether it matches and whether a rehash is due. *)
Definition VerifyPassword (encoded password : string) : result CryptoError (bool * bool) :=
  if len password >? MaxPasswordLen then Err ErrPasswordTooLong
  else match decodeHash encoded with
       | Err e => Err e
       | Ok (p, salt, want) =>
           if negb (bool_decide (IDKey password salt p = want)) then Ok (false, false)
           else Ok (true, weakerThanDefault numCPU p)
       end.
End Hashing.

(** ** The interface

    What the rest of the program is given: [VerifyPassword] and [HashPassword]
    in one process, and what their clients rely on, that a password verifies
    against a hash that was made from it. *)

Class PasswordHasher := {
  ph_verify : string -> string -> result CryptoError (bool * bool);
  ph_hash : string -> result CryptoError string
}.

Class PasswordHasherLaws (PH : PasswordHasher) : Prop := {
  ph_verify_hash : forall password hash, ph_hash password = Ok hash -> exists due, ph_verify hash password = Ok (true, due)
}.

(** The program's own hasher; [salt] is what the random source returned. *)
Definition argon2_hasher (IDKey : string -> string -> Argon2Params -> string) (argon2_Version : Z)
    (Quote : string -> string) (numCPU : Z) (salt : result string string) : PasswordHasher := {|
  ph_verify := VerifyPassword IDKey argon2_Version Quote numCPU;
  ph_hash := HashPassword IDKey argon2_Version numCPU salt
|}.

(** ** Numbers in a hash *)

Lemma scan_digits_value s acc n : s <> "" -> digits_value s acc = Some n -> scan_digits s acc false = Some n.
Proof.
  assert (forall s acc any, digits_value s acc = Some n -> (any = true \/ s <> "") -> scan_digits s acc any = Some n) as H.
  { clear. induction s as [|c s IH]; simpl; intros acc any.
    - intros [= ->] [->|]; done.
    - destruct (is_digit c); [|done]. intros Hd _. apply IH; auto. }
  intros. apply H; auto.
Qed.

Lemma scan_version_Itoa v : 0 <= v < 10 ^ 20 -> scan_version ("v=" +:+ Itoa v) = Some v.
Proof.
  intros Hv. unfold scan_version. rewrite CutPrefix_app. pose proof (Itoa_value v Hv) as Hval.
  assert (exists d s, 0 <= d <= 9 /\ Itoa v = String (digit_char d) s) as (d & s & Hd & Hs).
  { unfold Itoa. rewrite (proj2 (Z.ltb_ge v 0)) by lia. apply digits_of_head. lia. }
  rewrite Hs in *. destruct (digit_char_ok d Hd) as [Hdig _].
  assert (digit_char d <> SP /\ digit_char d <> TAB /\ digit_char d <> "-"%char /\ digit_char d <> "+"%char) as (N1 & N2 & N3 & N4).
  { split_and!; intros Heq; rewrite Heq in Hdig; by vm_compute in Hdig. }
  simpl. rewrite (bool_decide_eq_false_2 _ N1), (bool_decide_eq_false_2 _ N2). simpl.
  rewrite (bool_decide_eq_false_2 _ N3), (bool_decide_eq_false_2 _ N4).
  rewrite unbytes_bytes. by apply (scan_digits_value (String (digit_char d) s)).
Qed.

(** ** Hashing and verifying *)

Lemma cut_field name n : contains_byte name EQUALS = false -> cut_byte EQUALS (name +:+ String EQUALS n) = Some (name, n).
Proof.
  unfold contains_byte. induction name as [|c name IH]; [reflexivity|]. simpl.
  intros [Hc Hn]%orb_false_iff. bools. change (String c name +:+ String EQUALS n) with (String c (name +:+ String EQUALS n)).
  simpl. rewrite bool_decide_eq_false_2 by done. by rewrite IH.
Qed.

Lemma ParseUint32_Itoa n : 0 <= n < 2 ^ 32 -> ParseUint32 (Itoa n) = Some n.
Proof.
  intros Hn. unfold ParseUint32. assert (0 <= n < 10 ^ 20) by lia.
  assert (exists d s, Itoa n = String (digit_char d) s) as (d & s & Hs).
  { unfold Itoa. rewrite (proj2 (Z.ltb_ge n 0)) by lia. destruct (digits_of_head 19 n "") as (d & s & _ & ->); eauto; lia. }
  rewrite bool_decide_eq_false_2 by (by rewrite Hs). rewrite Itoa_value by lia.
  by rewrite (proj2 (Z.ltb_lt _ _)) by lia.
Qed.

Definition params_ok (p : Argon2Params) : Prop :=
  0 < p_Memory p < 2 ^ 32 /\ 0 < p_Iterations p < 2 ^ 32 /\ 0 < p_Parallelism p <= 255.

Lemma parseParams_Itoa p :
  params_ok p ->
  parseParams ("m=" +:+ Itoa (p_Memory p) +:+ ",t=" +:+ Itoa (p_Iterations p) +:+ ",p=" +:+ Itoa (p_Parallelism p))
  = Some (mkParams (p_Memory p) (p_Iterations p) (p_Parallelism p) 0 0).
Proof.
  intros (Hm & Ht & Hp). unfold parseParams.
  change ("m=" +:+ Itoa (p_Memory p) +:+ ",t=" +:+ Itoa (p_Iterations p) +:+ ",p=" +:+ Itoa (p_Parallelism p)) with
    (("m=" +:+ Itoa (p_Memory p)) +:+ String COMMA (("t=" +:+ Itoa (p_Iterations p)) +:+ String COMMA ("p=" +:+ Itoa (p_Parallelism p)))).
  assert (forall pre n, contains_byte pre COMMA = false -> 0 <= n -> contains_byte (pre +:+ Itoa n) COMMA = false) as Hno.
  { intros pre n Hpre Hn. rewrite contains_byte_app, Hpre. by apply Itoa_only_digits. }
  rewrite !split_byte_app, split_byte_no_sep by (apply Hno; [done|lia]).
  unfold parse_fields.
  change ("m=" +:+ Itoa (p_Memory p)) with ("m" +:+ String EQUALS (Itoa (p_Memory p))).
  change ("t=" +:+ Itoa (p_Iterations p)) with ("t" +:+ String EQUALS (Itoa (p_Iterations p))).
  change ("p=" +:+ Itoa (p_Parallelism p)) with ("p" +:+ String EQUALS (Itoa (p_Parallelism p))).
  rewrite !cut_field by done. rewrite !ParseUint32_Itoa by lia.
  rewrite !(proj2 (Z.eqb_neq _ 0)) by lia. rewrite Z.gtb_ltb, (proj2 (Z.ltb_ge 255 _)) by lia. done.
Qed.

Section RoundTrip.
Context (IDKey : string -> string -> Argon2Params -> string) (argon2_Version : Z).
Context (Quote : string -> string) (numCPU : Z).

Lemma decodeHash_encoded p salt key :
  params_ok p -> 0 <= argon2_Version < 10 ^ 20 -> 0 < len salt -> 0 < len key ->
  decodeHash argon2_Version Quote
    ("$argon2id$v=" +:+ Itoa argon2_Version +:+ "$m=" +:+ Itoa (p_Memory p) +:+ ",t="
     +:+ Itoa (p_Iterations p) +:+ ",p=" +:+ Itoa (p_Parallelism p) +:+ "$"
     +:+ EncodeToString salt +:+ "$" +:+ EncodeToString key)
  = Ok (mkParams (p_Memory p) (p_Iterations p) (p_Parallelism p) (len salt) (len key), salt, key).
Proof.
  intros Hp Hv Hs Hk. unfold decodeHash.
  set (ps := "m=" +:+ Itoa (p_Memory p) +:+ ",t=" +:+ Itoa (p_Iterations p) +:+ ",p=" +:+ Itoa (p_Parallelism p)).
  replace ("$argon2id$v=" +:+ Itoa argon2_Version +:+ "$m=" +:+ Itoa (p_Memory p) +:+ ",t="
     +:+ Itoa (p_Iterations p) +:+ ",p=" +:+ Itoa (p_Parallelism p) +:+ "$"
     +:+ EncodeToString salt +:+ "$" +:+ EncodeToString key) with
    ("" +:+ String DOLLAR ("argon2id" +:+ String DOLLAR (("v=" +:+ Itoa argon2_Version) +:+ String DOLLAR
       (ps +:+ String DOLLAR (EncodeToString salt +:+ String DOLLAR (EncodeToString key)))))).
  2: { subst ps. rewrite !string_app_assoc. reflexivity. }
  assert (forall n, 0 <= n -> contains_byte (Itoa n) DOLLAR = false) as Hi by (intros; by apply Itoa_only_digits).
  assert (forall s, contains_byte (EncodeToString s) DOLLAR = false) as He.
  { intros s. apply (b64_encode_no _ StdAlphabet_ok). intros H%list_elem_of_In. vm_compute in H. intuition discriminate. }
  assert (contains_byte ps DOLLAR = false) as Hps.
  { subst ps. destruct Hp as (? & ? & ?). rewrite !contains_byte_app, !Hi by lia. done. }
  rewrite !split_byte_app, split_byte_no_sep; try done; [|by rewrite contains_byte_app, Hi by lia].
  simpl. rewrite scan_version_Itoa, Z.eqb_refl by done. simpl. subst ps.
  rewrite parseParams_Itoa by done. unfold DecodeString, EncodeToString. rewrite !(b64_decode_encode _ StdAlphabet_ok).
  by rewrite !(proj2 (Z.eqb_neq _ 0)) by lia.
Qed.

Lemma HashPasswordWith_verifies p salt password :
  params_ok p -> 0 <= argon2_Version < 10 ^ 20 ->
  len salt = p_SaltLength p -> 0 < p_SaltLength p -> 0 < p_KeyLength p ->
  (forall pw s q, 0 <= p_KeyLength q -> len (IDKey pw s q) = p_KeyLength q) ->
  len password <= MaxPasswordLen ->
  exists encoded, HashPasswordWith IDKey argon2_Version (Ok salt) password p = Ok encoded
    /\ forall other, VerifyPassword IDKey argon2_Version Quote numCPU encoded other =
         if len other >? MaxPasswordLen then Err ErrPasswordTooLong
         else if bool_decide (IDKey other salt p = IDKey password salt p)
              then Ok (true, weakerThanDefault numCPU p) else Ok (false, false).
Proof.
  intros Hp Hv Hs Hs0 Hk0 Hid Hpw. unfold HashPasswordWith.
  rewrite Z.gtb_ltb, (proj2 (Z.ltb_ge _ _)) by lia. eexists. split; [done|]. intros other. unfold VerifyPassword.
  destruct (len other >? MaxPasswordLen); [done|]. rewrite decodeHash_encoded; [|done|done|lia|rewrite Hid; lia].
  rewrite Hid, Hs by lia.
  assert (mkParams (p_Memory p) (p_Iterations p) (p_Parallelism p) (p_SaltLength p) (p_KeyLength p) = p) as -> by (by destruct p).
  by destruct (bool_decide _).
Qed.
(** A stored hash verifies its password and no password that derives a
    different key: hashing a password of at most [MaxPasswordLen] bytes yields
    a string from which verification reads back the very parameters, salt and
    key, so that it answers yes exactly for the passwords whose key is the
    same, and asks for a rehash exactly when the parameters are weaker than
    the defaults. Longer passwords are refused before any work is done. The
    key derivation is only assumed to return as many bytes as it is asked for. *)
Theorem hash_verifies_password p salt password :
  params_ok p -> 0 <= argon2_Version < 10 ^ 20 ->
  len salt = p_SaltLength p -> 0 < p_SaltLength p -> 0 < p_KeyLength p ->
  (forall pw s q, 0 <= p_KeyLength q -> len (IDKey pw s q) = p_KeyLength q) ->
  len password <= MaxPasswordLen ->
  exists encoded, HashPasswordWith IDKey argon2_Version (Ok salt) password p = Ok encoded
    /\ forall other, VerifyPassword IDKey argon2_Version Quote numCPU encoded other =
         if len other >? MaxPasswordLen then Err ErrPasswordTooLong
         else if bool_decide (IDKey other salt p = IDKey password salt p)
              then Ok (true, weakerThanDefault numCPU p) else Ok (false, false).
Proof. apply HashPasswordWith_verifies. Qed.

(** The hasher keeps its interface's law, on any machine with a CPU and with a
    salt of the length that was asked for. *)
Lemma argon2_hasher_laws salt :
  0 < numCPU -> 0 <= argon2_Version < 10 ^ 20 -> len salt = 16 ->
  (forall pw s q, 0 <= p_KeyLength q -> len (IDKey pw s q) = p_KeyLength q) ->
  PasswordHasherLaws (argon2_hasher IDKey argon2_Version Quote numCPU (Ok salt)).
Proof.
  intros Hcpu Hv Hs Hid. constructor. intros password hash. cbn [ph_hash ph_verify argon2_hasher].
  intros Hh. assert (len password <= MaxPasswordLen) as Hlen.
  { unfold HashPassword, HashPasswordWith in Hh. destruct (len password >? MaxPasswordLen) eqn:E; [done|]. by bools. }
  destruct (HashPasswordWith_verifies (DefaultArgon2Params numCPU) salt password) as (e & He & Hver); try done.
  { unfold params_ok. simpl. destruct (numCPU <? 2) eqn:E; bools; lia. }
  unfold HashPassword in Hh. rewrite He in Hh. injection Hh as <-. rewrite Hver.
  rewrite Z.gtb_ltb, (proj2 (Z.ltb_ge _ _)), bool_decide_eq_true_2 by (done || lia). by eexists.
Qed.
End RoundTrip.

(** A stand-in for the derivation, for the witness. *)
Definition toy_key (pw salt : string) (p : Argon2Params) : string :=
  unbytes (take (Z.to_nat (p_KeyLength p)) (bytes (pw +:+ salt) ++ replicate (Z.to_nat (p_KeyLength p)) "0"%char)).

Lemma toy_key_length pw salt q : 0 <= p_KeyLength q -> len (toy_key pw salt q) = p_KeyLength q.
Proof.
  intros Hq. unfold toy_key, len.
  assert (forall l, String.length (unbytes l) = length l) as Hl.
  { intros l. induction l as [|c l IH]; [done|]. simpl. by rewrite <- IH. }
  rewrite Hl, length_take, length_app, length_replicate. lia.
Qed.

Definition cheap_params : Argon2Params := mkParams 64 1 1 16 32.

Lemma hash_verifies_password_witness :
  exists encoded, HashPasswordWith toy_key 19 (Ok "0123456789abcdef") "secret" cheap_params = Ok encoded
    /\ VerifyPassword toy_key 19 id 4 encoded "secret" = Ok (true, true)
    /\ VerifyPassword toy_key 19 id 4 encoded "guess" = Ok (false, false).
Proof.
  destruct (hash_verifies_password toy_key 19 id 4 cheap_params "0123456789abcdef" "secret") as (e & He & Hv).
  - unfold params_ok; simpl; lia.
  - split; [discriminate|reflexivity].
  - reflexivity.
  - reflexivity.
  - reflexivity.
  - intros. by apply toy_key_length.
  - discriminate.
  - exists e. split; [exact He|]. rewrite !Hv. split; vm_compute; reflexivity.
Defined.
