(* ===== verification/SmtpAuth.v ===== *)
(** * Authentication of SMTP clients

    [internal/app/auth.go] (the authenticator the server is given) and
    [internal/smtpsrv/{auth,sasl_login}.go] (the SASL exchanges). Looking up an
    account, its allowed senders and its mailboxes are separate reads, so
    [AuthWorld] holds the database each of them meets; the writes at the end
    meet [aw_write_db]. *)

From stdpp Require Import base gmap strings list.
From Stdlib Require Import ZArith Lia Ascii.
From S2P Require Import Prelude GoStrings StoreModels MessageStore Directory Policy Password.

Open Scope Z_scope.

(** ** Identities *)

Record Identity := mkIdentity {
  id_AccountID : string;
  id_Username : string;
  id_Account : Account;
  id_Mailboxes : list Mailbox
}.

(** [smtpsrv.Authenticator]: an identity, or the reason for the log. *)
Definition Authenticator_ (IPAddr : Type) : Type := string -> string -> option IPAddr -> result string Identity.

(** ** The authenticator *)

Record AuthWorld := mkAuthWorld {
  aw_user_io : option string;     aw_user_db : DB;
  aw_senders_io : option string;  aw_senders_db : DB;
  aw_mailbox_io : option string;  aw_mailbox_db : DB;
  aw_rehash_io : option string;
  aw_touch_io : option string;
  aw_now : Z;
  aw_write_db : DB
}.

(** The outcome, the password verifications that were made (hash and
    password), and the database afterwards. *)
Record AuthRun := mkAuthRun {
  ar_result : result string Identity;
  ar_verified : list (string * string);
  ar_db : DB
}.

Section Authenticate.
Context `{C : Collation} `{NI : NetIP} `{GF : GoFmt} `{PH : PasswordHasher}.
Context (decoyHash : string) (store_text : StoreError -> string) (crypto_text : CryptoError -> string).

(** [rehash]: best effort; the whole account row is written back. *)
Definition rehash (w : AuthWorld) (account : SMTPAccount) (password : string) (db : DB) : DB :=
  match ph_hash password with
  | Err _ => db
  | Ok updated => (Accounts_Update (aw_rehash_io w) (aw_now w) (set_acc_PasswordHash updated account) db).2
  end.

Definition Authenticate (w : AuthWorld) (username password : string) (remote : option IP) : AuthRun :=
  match GetByUsername (aw_user_io w) username (aw_user_db w) with
  | Err (ErrNotFound _) =>
      mkAuthRun (Err ("no account named " +:+ Quote username)) [(decoyHash, password)] (aw_write_db w)
  | Err e => mkAuthRun (Err ("looking up " +:+ Quote username +:+ ": " +:+ store_text e)) [] (aw_write_db w)
  | Ok account =>
      let tried := [(acc_PasswordHash account, password)] in
      match ph_verify (acc_PasswordHash account) password with
      | Err e =>
          mkAuthRun (Err ("the stored password hash for " +:+ Quote username +:+ " is unusable: " +:+ crypto_text e))
            tried (aw_write_db w)
      | Ok (false, _) => mkAuthRun (Err ("wrong password for " +:+ Quote username)) tried (aw_write_db w)
      | Ok (true, needsRehash) =>
          if negb (acc_Enabled account)
          then mkAuthRun (Err ("account " +:+ Quote username +:+ " is disabled")) tried (aw_write_db w)
          else
            match AllowedSenders (aw_senders_io w) (acc_ID account) (aw_senders_db w) with
            | Err e => mkAuthRun (Err ("loading allowed senders for " +:+ Quote username +:+ ": " +:+ store_text e))
                         tried (aw_write_db w)
            | Ok allowed =>
                let policyAccount := AccountFromStore account allowed in
                match CheckSourceAddress policyAccount remote with
                | Err e => mkAuthRun (Err e) tried (aw_write_db w)
                | Ok _ =>
                    match ListForAccount (aw_mailbox_io w) (acc_ID account) (aw_mailbox_db w) with
                    | Err e => mkAuthRun (Err ("loading mailboxes for " +:+ Quote username +:+ ": " +:+ store_text e))
                                 tried (aw_write_db w)
                    | Ok mailboxes =>
                        let db := if needsRehash : bool then rehash w account password (aw_write_db w) else aw_write_db w in
                        let db := (TouchLastUsed (aw_touch_io w) (acc_ID account) (aw_now w) db).2 in
                        mkAuthRun (Ok (mkIdentity (acc_ID account) (acc_Username account) policyAccount mailboxes))
                          tried db
                    end
                end
            end
      end
  end.
End Authenticate.

(** ** AUTH LOGIN *)

Inductive loginState := loginStateUsername | loginStatePassword | loginStateDone.

Record loginServer := mkLoginServer { ls_state : loginState; ls_username : string }.

Definition newLoginServer : loginServer := mkLoginServer loginStateUsername "".

Definition maxLoginFieldLen : Z := 1024.

(** What a step of the exchange answers. *)
Inductive LoginReply :=
| Challenge (prompt : string)          (* not done *)
| LoginError (reason : string)         (* done, with an error *)
| Verify (username password : string). (* done; the authenticator decides *)

Definition usernameChallenge : string := "Username:".
Definition passwordChallenge : string := "Password:".

(** [Next]; [None] is a nil response. *)
Definition login_Next (s : loginServer) (response : option string) : LoginReply * loginServer :=
  let field := default "" response in
  match ls_state s with
  | loginStateUsername =>
      match response with
      | None => (Challenge usernameChallenge, s)
      | Some r =>
          if len r >? maxLoginFieldLen
          then (LoginError "smtpsrv: authentication failed", mkLoginServer loginStateDone (ls_username s))
          else (Challenge passwordChallenge, mkLoginServer loginStatePassword r)
      end
  | loginStatePassword =>
      if len field >? maxLoginFieldLen
      then (LoginError "smtpsrv: authentication failed", mkLoginServer loginStateDone (ls_username s))
      else (Verify (ls_username s) field, mkLoginServer loginStateDone (ls_username s))
  | loginStateDone => (LoginError "smtpsrv: AUTH LOGIN exchange already finished", s)
  end.
