(* ===== verification/SmtpAuthProps.v ===== *)
(** * Properties of the authentication *)

From stdpp Require Import base gmap strings list sorting.
From Stdlib Require Import ZArith Lia Ascii.
From S2P Require Import Prelude GoStrings StoreModels MessageStore MessageQueue Directory DirectoryProps.
From S2P Require Import Policy PolicyProps Password SmtpAuth.

Open Scope Z_scope.

Section Props.
Context `{C : Collation} `{NI : NetIP} `{GF : GoFmt} `{PH : PasswordHasher}.
Context (decoyHash : string) (store_text : StoreError -> string) (crypto_text : CryptoError -> string).

Abbreviation Authenticate := (Authenticate decoyHash store_text crypto_text).

Lemma GetByUsername_Ok io username db a :
  GetByUsername io username db = Ok a -> acc_Username a = username /\ exists k, smtp_accounts db !! k = Some a.
Proof.
  unfold GetByUsername. destruct io; [done|]. destruct (find_row _ _) as [x|] eqn:Hf; [|done]. intros [= ->].
  apply find_row_Some in Hf as [Hu Hk]. by bools.
Qed.

(** Usernames are unique, so the lookup finds the account that has it. *)
Lemma GetByUsername_known db k a :
  dir_ok db -> smtp_accounts db !! k = Some a -> GetByUsername None (acc_Username a) db = Ok a.
Proof.
  intros Hdb Hk. unfold GetByUsername. destruct (find_row _ _) as [x|] eqn:Hf.
  - apply find_row_Some in Hf as [Hu (k' & Hk')]. bools.
    pose proof (to_unique _ _ _ _ (do_accounts _ Hdb) _ _ _ _ Hk' Hk Hu). by simplify_eq.
  - pose proof (find_row_None _ _ _ _ Hf Hk) as Hn. simpl in Hn. by bools.
Qed.

Lemma ListForAccount_Ok io id db l :
  ListForAccount io id db = Ok l ->
  forall m, m ∈ l <-> may_send_as id db m = true /\ exists k, mailboxes db !! k = Some m.
Proof.
  unfold ListForAccount, listing. destruct io; [done|]. intros [= <-] m. apply elem_of_list_rows.
Qed.

(** The account has no networks, or the client's address is known and in one
    of them. *)
Definition source_admitted (account : SMTPAccount) (remote : option IP) : Prop :=
  acc_AllowCIDRs account = []
  \/ exists ip cidr network, remote = Some ip /\ cidr ∈ acc_AllowCIDRs account
       /\ ParseCIDR cidr = Ok network /\ IPNet_Contains network ip = true.

Lemma admitted_of_stored account allowed remote :
  CheckSourceAddress (AccountFromStore account allowed) remote = Ok tt -> source_admitted account remote.
Proof.
  intros [H|(ip & before & raw & after & network & -> & Hl & Hp & Hc & _)]%source_restricted; [by left|right].
  cbn [AccountFromStore a_AllowCIDRs] in Hl. exists ip, raw, network. rewrite Hl. split_and!; try done.
  apply elem_of_app. right. left.
Qed.

Lemma Authenticate_Ok w username password remote id :
  ar_result (Authenticate w username password remote) = Ok id ->
  exists account k rehash_due,
    smtp_accounts (aw_user_db w) !! k = Some account /\ acc_Username account = username
    /\ acc_Enabled account = true
    /\ ph_verify (acc_PasswordHash account) password = Ok (true, rehash_due)
    /\ id_AccountID id = acc_ID account
    /\ a_Policy (id_Account id) = acc_FromPolicy account /\ a_Enabled (id_Account id) = true
    /\ a_AllowCIDRs (id_Account id) = acc_AllowCIDRs account /\ source_admitted account remote
    /\ (forall p, p ∈ a_AllowedSenders (id_Account id) <->
          exists s j, allowed_senders (aw_senders_db w) !! j = Some s
            /\ as_SMTPAccountID s = acc_ID account /\ as_Pattern s = p)
    /\ (forall m, m ∈ id_Mailboxes id <->
          may_send_as (acc_ID account) (aw_mailbox_db w) m = true
          /\ exists j, mailboxes (aw_mailbox_db w) !! j = Some m).
Proof.
  unfold Authenticate. destruct (GetByUsername _ _ _) as [account|[]] eqn:Hu; try done.
  apply GetByUsername_Ok in Hu as (Hname & k & Hk).
  destruct (ph_verify _ _) as [[[] due]|e] eqn:Hv; try done.
  destruct (acc_Enabled account) eqn:He; [|done]. simpl.
  destruct (AllowedSenders _ _ _) as [allowed|e] eqn:Hs; [|done].
  destruct (CheckSourceAddress _ _) as [[]|e] eqn:Hc; [|done].
  destruct (ListForAccount _ _ _) as [mbs|e] eqn:Hm; [|done]. simpl. intros [= <-].
  exists account, k, due. simpl. split_and!; try done; [by eapply admitted_of_stored| |by eapply ListForAccount_Ok].
  intros p. unfold AllowedSenders, listing in Hs. destruct (aw_senders_io w); [done|]. injection Hs as <-.
  rewrite list_elem_of_fmap. setoid_rewrite elem_of_list_rows. setoid_rewrite bool_decide_eq_true. naive_solver.
Qed.

(** C6: Authentication is sound. An identity is only handed out for an enabled
    account of that username whose stored hash verifies the password, to a
    client whose address is in one of the networks stored with the account, if
    there are any; the identity carries the
    account's own ID, policy, networks and allow-list, and its mailboxes are exactly the
    ones the account is linked to or has as its default. *)
Theorem authentication_sound w username password remote id :
  ar_result (Authenticate w username password remote) = Ok id ->
  exists account k rehash_due,
    smtp_accounts (aw_user_db w) !! k = Some account /\ acc_Username account = username
    /\ acc_Enabled account = true
    /\ ph_verify (acc_PasswordHash account) password = Ok (true, rehash_due)
    /\ id_AccountID id = acc_ID account
    /\ a_Policy (id_Account id) = acc_FromPolicy account /\ a_Enabled (id_Account id) = true
    /\ a_AllowCIDRs (id_Account id) = acc_AllowCIDRs account /\ source_admitted account remote
    /\ (forall p, p ∈ a_AllowedSenders (id_Account id) <->
          exists s j, allowed_senders (aw_senders_db w) !! j = Some s
            /\ as_SMTPAccountID s = acc_ID account /\ as_Pattern s = p)
    /\ (forall m, m ∈ id_Mailboxes id <->
          may_send_as (acc_ID account) (aw_mailbox_db w) m = true
          /\ exists j, mailboxes (aw_mailbox_db w) !! j = Some m).
Proof. apply Authenticate_Ok. Qed.

Lemma known_account_logs_in `{!PasswordHasherLaws PH} w k account password remote allowed :
  dir_ok (aw_user_db w) -> smtp_accounts (aw_user_db w) !! k = Some account -> acc_Enabled account = true ->
  ph_hash password = Ok (acc_PasswordHash account) ->
  aw_user_io w = None -> aw_mailbox_io w = None ->
  AllowedSenders (aw_senders_io w) (acc_ID account) (aw_senders_db w) = Ok allowed ->
  CheckSourceAddress (AccountFromStore account allowed) remote = Ok tt ->
  exists id, ar_result (Authenticate w (acc_Username account) password remote) = Ok id
    /\ id_AccountID id = k /\ id_Account id = AccountFromStore account allowed.
Proof.
  intros Hdb Hk He Hh Hio Hio' Hs Hc. destruct (ph_verify_hash _ _ Hh) as [due Hv].
  unfold SmtpAuth.Authenticate. rewrite Hio, (GetByUsername_known _ _ _ Hdb Hk), Hv, He. simpl. rewrite Hs, Hc.
  unfold ListForAccount, listing. rewrite Hio'. eexists. split; [done|]. simpl.
  split; [|done]. exact (to_id _ _ _ _ (do_accounts _ Hdb) _ _ Hk).
Qed.

(** C7: Authentication is complete: an account's owner gets in. With a hasher that
    keeps its law, the password an enabled account's hash was made from is
    accepted from every source the account admits, whenever the database can be
    read, and the identity is that account's. *)
Theorem authentication_complete `{!PasswordHasherLaws PH} w k account password remote allowed :
  dir_ok (aw_user_db w) -> smtp_accounts (aw_user_db w) !! k = Some account -> acc_Enabled account = true ->
  ph_hash password = Ok (acc_PasswordHash account) ->
  aw_user_io w = None -> aw_mailbox_io w = None ->
  AllowedSenders (aw_senders_io w) (acc_ID account) (aw_senders_db w) = Ok allowed ->
  CheckSourceAddress (AccountFromStore account allowed) remote = Ok tt ->
  exists id, ar_result (Authenticate w (acc_Username account) password remote) = Ok id
    /\ id_AccountID id = k /\ id_Account id = AccountFromStore account allowed.
Proof. apply known_account_logs_in. Qed.

(** Guessing usernames is no cheaper than guessing passwords: as long as
    the account table can be read, every attempt verifies the given password
    against exactly one hash, whether the username exists or not, and nothing
    is written unless the attempt succeeds. *)
Theorem one_verification_per_attempt w username password remote :
  aw_user_io w = None ->
  (exists hash, ar_verified (Authenticate w username password remote) = [(hash, password)]
     /\ (hash = decoyHash \/ exists k a, smtp_accounts (aw_user_db w) !! k = Some a
           /\ acc_Username a = username /\ acc_PasswordHash a = hash))
  /\ (is_ok (ar_result (Authenticate w username password remote)) = false ->
      ar_db (Authenticate w username password remote) = aw_write_db w).
Proof.
  intros Hio. unfold Authenticate. destruct (GetByUsername _ _ _) as [account|e] eqn:Hu.
  - apply GetByUsername_Ok in Hu as (Hname & k & Hk).
    destruct (ph_verify _ _) as [[[] due]|e]; simpl; eauto 10.
    destruct (acc_Enabled account); simpl; eauto 10. destruct (AllowedSenders _ _ _); simpl; eauto 10.
    destruct (CheckSourceAddress _ _); simpl; eauto 10. destruct (ListForAccount _ _ _); simpl; eauto 10.
    split; eauto 10. done.
  - unfold GetByUsername in Hu. rewrite Hio in Hu. destruct (find_row _ _); [done|]. injection Hu as <-. simpl. eauto.
Qed.

(** An upgrade of a password hash can undo an administrator's change: the
    whole account row read before the verification is written back, so when
    the row was changed in the meantime, the account is enabled again and has
    its old password and policy back. *)
Theorem rehash_writes_stale_row w account password db k r updated :
  dir_ok db -> smtp_accounts db !! k = Some r -> acc_ID account = k ->
  ph_hash password = Ok updated -> aw_rehash_io w = None -> account_error (set_acc_PasswordHash updated account) db = None ->
  exists r', smtp_accounts (rehash w account password db) !! k = Some r'
    /\ acc_Enabled r' = acc_Enabled account /\ acc_PasswordHash r' = updated
    /\ acc_FromPolicy r' = acc_FromPolicy account /\ acc_AllowCIDRs r' = acc_AllowCIDRs account.
Proof.
  intros Hd Hk Hid Hh Hio Herr. unfold rehash. rewrite Hh. unfold Accounts_Update. rewrite Hio, Herr.
  pose proof (to_id _ _ _ _ (do_accounts _ Hd) _ _ Hk) as Hr. rewrite (write_row_ok _ _ _ _ _ _ _ k r) by (simpl; congruence).
  simpl. rewrite lookup_sql_update, Hk. simpl. rewrite bool_decide_eq_true_2 by congruence. eauto 10.
Qed.
End Props.

(** *** Concrete parameters, for the witnesses *)

Definition plain_ip : NetIP :=
  Build_NetIP string string id (fun s => Ok s) (fun n a => bool_decide (n = a)).
Definition any_collation : Collation := {| collate := fun a b => True; collate_dec := fun _ _ => left I |}.
Definition plain_hasher : PasswordHasher :=
  Build_PasswordHasher (fun h p => Ok (bool_decide (h = p), true)) (fun p => Ok ("new " +:+ p)).

(** The small directory of [DirectoryProps], and its account. *)
Definition known_account : SMTPAccount := account_defaults 3 "a1" dir_account.

Definition calm_auth : AuthWorld :=
  mkAuthWorld None dir_db None dir_db None dir_db None None 50 dir_db.

Definition sample_auth : AuthRun :=
  Authenticate (C := any_collation) (NI := plain_ip) (GF := plain_fmt) (PH := plain_hasher)
    "decoy" (fun _ => "") (fun _ => "") calm_auth "printer" "hash" None.

Definition sample_identity : Identity :=
  mkIdentity "a1" "printer" (AccountFromStore known_account []) [mailbox_defaults 2 "x" dir_mailbox].

Lemma authentication_sound_witness :
  exists account k rehash_due,
    smtp_accounts (aw_user_db calm_auth) !! k = Some account /\ acc_Username account = "printer"
    /\ ph_verify (PasswordHasher := plain_hasher) (acc_PasswordHash account) "hash" = Ok (true, rehash_due).
Proof.
  destruct (authentication_sound (C := any_collation) (NI := plain_ip) (GF := plain_fmt) (PH := plain_hasher)
    "decoy" (fun _ => "") (fun _ => "") calm_auth "printer" "hash" None sample_identity) as (a & k & due & H1 & H2 & _ & H4 & _).
  - vm_compute. reflexivity.
  - exists a, k, due. split; [exact H1|]. split; [exact H2|exact H4].
Defined.

Lemma update_account_ok io now a : dir_ok (step_dir (DUpdateAccount io now a) dir_db).
Proof.
  apply step_dir_ok; [done|apply run_dir_ok; [exact dir_ops_fresh|]|exact dir_db_ok].
  split; [exact empty_dir_ok|exact empty_db_ok].
Qed.

(** The account's hash as the program makes it, with the stand-in derivation. *)
Definition toy_hasher : PasswordHasher := argon2_hasher toy_key 19 id 4 (Ok "0123456789abcdef").

Definition hashed_account : SMTPAccount :=
  match ph_hash (PasswordHasher := toy_hasher) "secret" with
  | Ok h => set_acc_PasswordHash h known_account
  | Err _ => known_account
  end.
Definition hashed_db : DB := step_dir (DUpdateAccount None 40 hashed_account) dir_db.

Lemma authentication_complete_witness :
  exists id account, smtp_accounts hashed_db !! "a1" = Some account
    /\ ar_result (SmtpAuth.Authenticate (C := any_collation) (NI := plain_ip) (GF := plain_fmt) (PH := toy_hasher)
         "decoy" (fun _ => "") (fun _ => "") (mkAuthWorld None hashed_db None hashed_db None hashed_db None None 50 hashed_db)
         (acc_Username account) "secret" None) = Ok id.
Proof.
  assert (PasswordHasherLaws toy_hasher) as Hlaws.
  { apply argon2_hasher_laws; [reflexivity|split; [discriminate|reflexivity]|reflexivity|apply toy_key_length]. }
  destruct (authentication_complete (C := any_collation) (NI := plain_ip) (GF := plain_fmt) (PH := toy_hasher)
    "decoy" (fun _ => "") (fun _ => "") (mkAuthWorld None hashed_db None hashed_db None hashed_db None None 50 hashed_db)
    "a1" (account_set 40 hashed_account known_account) "secret" None []) as (id & Hid & _);
    [apply update_account_ok|vm_compute; reflexivity..|].
  eexists id, _. split; [|exact Hid]. vm_compute. reflexivity.
Defined.

Lemma one_verification_per_attempt_witness :
  exists hash, ar_verified (Authenticate (C := any_collation) (NI := plain_ip) (GF := plain_fmt) (PH := plain_hasher)
    "decoy" (fun _ => "") (fun _ => "") calm_auth "nobody" "guess" None) = [(hash, "guess")].
Proof.
  destruct (one_verification_per_attempt (C := any_collation) (NI := plain_ip) (GF := plain_fmt) (PH := plain_hasher)
    "decoy" (fun _ => "") (fun _ => "") calm_auth "nobody" "guess" None eq_refl) as [(h & H & _) _].
  exists h. exact H.
Defined.

(** The administrator disables the account while the password is verified. *)
Definition disabled_account : SMTPAccount :=
  mkSMTPAccount "a1" "printer" "reset" "" (Some "b1") FromPolicyReject [] None false None ManagedByUI 3 40.
Definition disabled_db : DB := step_dir (DUpdateAccount None 40 disabled_account) dir_db.

Lemma disabled_db_ok : dir_ok disabled_db.
Proof. apply update_account_ok. Qed.

Lemma rehash_writes_stale_row_witness :
  acc_Enabled <$> smtp_accounts disabled_db !! "a1" = Some false
  /\ exists r', smtp_accounts (rehash (PH := plain_hasher) calm_auth known_account "hash" disabled_db) !! "a1" = Some r'
       /\ acc_Enabled r' = true.
Proof.
  split; [vm_compute; reflexivity|].
  destruct (rehash_writes_stale_row (PH := plain_hasher) calm_auth known_account "hash" disabled_db "a1"
    (account_set 40 disabled_account known_account) "new hash" disabled_db_ok) as (r' & H1 & H2 & _);
    try (vm_compute; reflexivity).
  exists r'. split; [exact H1|]. rewrite H2. vm_compute. reflexivity.
Defined.
