(* ===== verification/SmtpSession.v ===== *)
(** * The SMTP session

    [internal/smtpsrv/session.go], [submission.go], the mechanism table of
    [auth.go], and [internal/app/submit.go], which turns a submission into a
    queued message. The SMTP library calls the session's methods as the client
    issues commands; nothing is assumed here about the order in which it does,
    except that it makes no call after the session closed the connection. The
    authenticator and the submitter are interfaces of the server and arguments
    here. Logging and metrics are left out. *)

From stdpp Require Import base gmap strings list.
From Stdlib Require Import ZArith Lia Ascii.
From S2P Require Import Prelude GoStrings StoreModels MessageStore Policy Headers SmtpAuth.

Open Scope Z_scope.

(** ** Server and session *)

Record Server := mkServer {
  sv_hostname : string;
  sv_userAgent : string;          (* version.UserAgent() *)
  sv_allowInsecureAuth : bool;
  sv_requireTLS : bool;
  sv_maxAuthFailures : Z;
  sv_maxRecipients : Z;
  sv_maxMessageBytes : Z;
  sv_recordSubjects : bool
}.

Record session := mkSession {
  ss_identity : option Identity;
  ss_authFailures : Z;
  ss_closed : bool;
  ss_envelopeFrom : Address;
  ss_recipients : list string
}.

Definition new_session : session := mkSession None 0 false empty_Address [].

(** An error the library sends to the client. *)
Inductive SessionError :=
| SMTPError (code : Z) (enhanced : Z * Z * Z) (message : string)
| ErrAuthFailed.

Definition errAuthRequired : SessionError := SMTPError 530 (5, 7, 0) "Authentication required".

(** ** Authentication *)

Inductive Mechanism := PLAIN | LOGIN.

Definition AuthMechanisms (sv : Server) (encrypted : bool) : list string :=
  if negb encrypted && negb (sv_allowInsecureAuth sv) then [] else ["PLAIN"; "LOGIN"].

Definition saslServers (mech : string) : result SessionError Mechanism :=
  if bool_decide (mech = "PLAIN") then Ok PLAIN
  else if bool_decide (mech = "LOGIN") then Ok LOGIN
  else Err ErrAuthFailed.

Definition Auth (sv : Server) (encrypted : bool) (mech : string) : result SessionError Mechanism :=
  if negb encrypted && negb (sv_allowInsecureAuth sv)
  then Err (SMTPError 538 (5, 7, 11) "Encryption required for requested authentication mechanism")
  else saslServers mech.

Definition recordAuthFailure (sv : Server) (s : session) : session :=
  let failures := ss_authFailures s + 1 in
  mkSession (ss_identity s) failures
    (ss_closed s || ((sv_maxAuthFailures sv >? 0) && (failures >=? sv_maxAuthFailures sv)))
    (ss_envelopeFrom s) (ss_recipients s).

(** [authenticate]; [outcome] is what the authenticator returned. *)
Definition authenticate (sv : Server) (outcome : result string Identity) (s : session)
  : result SessionError unit * session :=
  match outcome with
  | Err _ => (Err ErrAuthFailed, recordAuthFailure sv s)
  | Ok identity =>
      (Ok tt, mkSession (Some identity) (ss_authFailures s) (ss_closed s) (ss_envelopeFrom s) (ss_recipients s))
  end.

(** The callback of the PLAIN mechanism. *)
Definition plain_auth (sv : Server) (auth : string -> string -> result string Identity)
    (identity username password : string) (s : session) : result SessionError unit * session :=
  if negb (bool_decide (identity = "")) && negb (bool_decide (identity = username))
  then (Err ErrAuthFailed, recordAuthFailure sv s)
  else authenticate sv (auth username password) s.

(** The exchange of the LOGIN mechanism, over the client's responses. *)
Fixpoint login_auth (sv : Server) (auth : string -> string -> result string Identity)
    (responses : list (option string)) (l : loginServer) (s : session) : result SessionError unit * session :=
  match responses with
  | [] => (Err ErrAuthFailed, s)     (* the client went away *)
  | r :: rest =>
      match login_Next l r with
      | (Challenge _, l') => login_auth sv auth rest l' s
      | (LoginError _, _) => (Err ErrAuthFailed, s)
      | (Verify username password, _) => authenticate sv (auth username password) s
      end
  end.

(** ** The envelope *)

Section Envelope.
Context `{UC : UnicodeCase} `{NM : NetMail} `{GF : GoFmt}.

Definition Mail (sv : Server) (encrypted : bool) (from : string) (s : session) : result SessionError unit * session :=
  match ss_identity s with
  | None => (Err errAuthRequired, s)
  | Some _ =>
      if sv_requireTLS sv && negb encrypted
      then (Err (SMTPError 530 (5, 7, 0) "Must issue a STARTTLS command first"), s)
      else match ParseAddress from with
           | Err _ => (Err (SMTPError 501 (5, 1, 7) "Bad sender address syntax"), s)
           | Ok addr => (Ok tt, mkSession (ss_identity s) (ss_authFailures s) (ss_closed s) addr [])
           end
  end.

Definition Rcpt (sv : Server) (to : string) (s : session) : result SessionError unit * session :=
  match ss_identity s with
  | None => (Err errAuthRequired, s)
  | Some _ =>
      if Z.of_nat (length (ss_recipients s)) >=? sv_maxRecipients sv
      then (Err (SMTPError 452 (4, 5, 3)
              ("Too many recipients; this server accepts at most " +:+ Itoa (sv_maxRecipients sv))), s)
      else
        let bad := (Err (SMTPError 501 (5, 1, 3) "Bad recipient address syntax"), s) in
        match ParseAddress to with
        | Err _ => bad
        | Ok addr =>
            if IsEmpty addr then bad
            else (Ok tt, mkSession (ss_identity s) (ss_authFailures s) (ss_closed s) (ss_envelopeFrom s)
                    (ss_recipients s ++ [Original addr]))
        end
  end.
End Envelope.

Definition Reset (s : session) : session :=
  mkSession (ss_identity s) (ss_authFailures s) (ss_closed s) empty_Address [].

(** ** Reading the message *)

Inductive ReadErr := NoErr | EOF | ReadFailed.

(** A reader, as the pieces it has to give and the error that comes with each.
    A call that asks for fewer bytes than the piece has gets the first of them;
    after the last piece it reports the end of file. *)
Definition Reader : Type := list (string * ReadErr).

Definition read_piece (k : Z) (r : Reader) : string * ReadErr * Reader :=
  match r with
  | [] => ("", EOF, [])
  | (piece, err) :: r' =>
      if len piece <=? k then (piece, err, r')
      else (take_bytes (Z.to_nat k) piece, NoErr, (drop_bytes (Z.to_nat k) piece, err) :: r')
  end.

(** [io.LimitReader.Read] with a buffer of [k] bytes, [n] bytes left. *)
Definition limited_read (n k : Z) (r : Reader) : string * ReadErr * Reader :=
  if n <=? 0 then ("", EOF, r) else read_piece (Z.min k n) r.

Definition chunk_size : Z := 32 * 1024.

(** The loop of [readMessage]; [n] is what the limit reader has left. [None]
    is running out of fuel. *)
Fixpoint read_loop (fuel : nat) (limit n : Z) (buf : string) (r : Reader) : option (result SessionError string) :=
  match fuel with
  | O => None
  | S fuel =>
      let '(piece, err, r') := limited_read n chunk_size r in
      let buf := buf +:+ piece in
      match err with
      | EOF => Some (Ok buf)
      | ReadFailed => Some (Err (SMTPError 451 (4, 4, 2) "Connection error while reading the message"))
      | NoErr =>
          if len buf >? limit
          then Some (Err (SMTPError 552 (5, 3, 4) ("Message exceeds the " +:+ Itoa limit +:+ " byte limit")))
          else read_loop fuel limit (n - len piece) buf r'
      end
  end.

Definition reader_size (r : Reader) : nat :=
  fold_right (fun p n => (S (String.length p.1) + n)%nat) 0%nat r.

Definition readMessage (sv : Server) (r : Reader) : option (result SessionError string) :=
  read_loop (S (reader_size r)) (sv_maxMessageBytes sv) (sv_maxMessageBytes sv + 1) "" r.

(** ** Submissions *)

Section Submissions.
Context `{UC : UnicodeCase} `{NM : NetMail} `{GF : GoFmt} `{NI : NetIP}.

Record Submission := mkSubmission {
  sub_Identity : Identity;
  sub_Mailbox : Mailbox;
  sub_EnvelopeFrom : Address;
  sub_HeaderFrom : Address;
  sub_Recipients : list string;
  sub_Raw : string;
  sub_Subject : string;
  sub_MessageID : string;
  sub_ClientIP : option IP;
  sub_ClientHelo : string;
  sub_TLS : bool;
  sub_ReceivedAt : Z
}.

(** What the connection tells about the client, and the clock. *)
Record Conn := mkConn {
  cn_encrypted : bool;
  cn_hostname : string;
  cn_remote : option IP;
  cn_now : Z;
  cn_now_text : string   (* time.Now().UTC().Format(time.RFC1123Z) *)
}.

Definition receivedHeader (sv : Server) (cn : Conn) (username : string) : string :=
  "from " +:+ (if bool_decide (cn_hostname cn = "") then "unknown" else sanitizeHeaderValue (cn_hostname cn))
  +:+ (match cn_remote cn with Some ip => " (" +:+ IP_String ip +:+ ")" | None => "" end)
  +:+ " by " +:+ sv_hostname sv +:+ " (" +:+ sv_userAgent sv +:+ ") with "
  +:+ (if cn_encrypted cn then "ESMTPSA" else "ESMTPA")
  +:+ " id " +:+ username +:+ "; " +:+ cn_now_text cn.

(** The edits of [applyDecision]. *)
Definition decision_edits (sv : Server) (cn : Conn) (username : string) (parsed : message) (d : Decision_)
    (headerFrom : Address) : list headerEdit :=
  let received := mkEdit "Received" (receivedHeader sv cn username) true in
  match d_Action d with
  | ActionRewrite =>
      [received; mkEdit "From" (d_RewriteFrom d) false;
       mkEdit "X-Original-From" (Address_String headerFrom) false]
      ++ (if bool_decide (msg_Get parsed "Reply-To" = "") && negb (IsEmpty headerFrom)
          then [mkEdit "Reply-To" (Address_String headerFrom) false] else [])
  | _ => [received]
  end.

(** [applyDecision]; [None] is the panic of [MustParseAddress]. *)
Definition applyDecision (sv : Server) (cn : Conn) (username : string) (order : list string) (parsed : message)
    (d : Decision_) (headerFrom : Address) : option (string * Address) :=
  let final := rewriteHeaders order parsed (decision_edits sv cn username parsed d headerFrom) in
  match d_Action d with
  | ActionRewrite =>
      match ParseAddress (d_RewriteFrom d) with Ok a => Some (final, a) | Err _ => None end
  | _ => Some (final, headerFrom)
  end.

(** [parseEnhanced] *)
Fixpoint enhanced_digits (s : string) (n : Z) : option Z :=
  match s with
  | EmptyString => Some n
  | String c s' => if is_digit c then enhanced_digits s' (n * 10 + (code c - 48)) else None
  end.

Definition parseEnhanced (not_set : Z * Z * Z) (s : string) : Z * Z * Z :=
  match split_byte "."%char s with
  | [a; b; c] =>
      match enhanced_digits a 0, enhanced_digits b 0, enhanced_digits c 0 with
      | Some x, Some y, Some z => (x, y, z)
      | _, _, _ => not_set
      end
  | _ => not_set
  end.

(** What [Data] does with a message that was read. *)
Inductive DataOutcome :=
| DataRefused (e : SessionError)
| DataPanic
| DataSubmit (sub : Submission).

Definition address_error_text (e : AddressError) : string :=
  match e with
  | ErrNoAddress => "policy: no address"
  | ErrMalformedAddress detail => "policy: malformed address: " +:+ detail
  end.

Definition prepare_submission (sv : Server) (cn : Conn) (not_set : Z * Z * Z) (order : list string)
    (identity : Identity) (s : session) (raw : string) : DataOutcome :=
  match parseMessage raw with
  | Err e => DataRefused (SMTPError 550 (5, 6, 0) ("Message could not be parsed: " +:+ header_error_text e))
  | Ok parsed =>
      let from := ParseHeaderFrom (msg_Get parsed "From") in
      match from with
      | Err (ErrMalformedAddress d) =>
          DataRefused (SMTPError 550 (5, 7, 1) ("Bad From header: " +:+ address_error_text (ErrMalformedAddress d)))
      | _ =>
          let headerFrom := match from with Ok a => a | Err _ => empty_Address end in
          match Resolve (mkInput (id_Account identity) (id_Mailboxes identity) (ss_envelopeFrom s) headerFrom) with
          | None => DataPanic
          | Some d =>
              if Rejected d
              then DataRefused (SMTPError (d_Code d) (parseEnhanced not_set (d_Enhanced d)) (d_Reason d))
              else
                match d_Mailbox d, applyDecision sv cn (id_Username identity) order parsed d headerFrom with
                | Some mb, Some (final, finalFrom) =>
                    DataSubmit (mkSubmission identity mb (ss_envelopeFrom s) finalFrom (ss_recipients s) final
                      (if sv_recordSubjects sv then msg_Get parsed "Subject" else "")
                      (Trim (msg_Get parsed "Message-Id") "<>") (cn_remote cn) (cn_hostname cn)
                      (cn_encrypted cn) (cn_now cn))
                | _, _ => DataPanic
                end
          end
      end
  end.

(** [Data]: what is refused before anything is submitted, or the submission. *)
Definition Data (sv : Server) (cn : Conn) (not_set : Z * Z * Z) (order : list string) (r : Reader) (s : session)
  : DataOutcome :=
  match ss_identity s with
  | None => DataRefused errAuthRequired
  | Some identity =>
      if bool_decide (ss_recipients s = []) then DataRefused (SMTPError 554 (5, 5, 1) "No valid recipients")
      else match readMessage sv r with
           | Some (Ok raw) => prepare_submission sv cn not_set order identity s raw
           | Some (Err e) => DataRefused e
           | None => DataPanic
           end
  end.

(** The answer once the submitter has been asked. *)
Definition data_reply {A} (submitted : result string A) : result SessionError unit :=
  match submitted with
  | Ok _ => Ok tt
  | Err _ => Err (SMTPError 451 (4, 3, 0) "Could not queue the message; please retry")
  end.

(** [submitter.Submit]: the queued message. *)
Definition submitted_message (sub : Submission) : Message :=
  mkMessage "" "" (NullString (id_AccountID (sub_Identity sub))) (NullString (mb_ID (sub_Mailbox sub)))
    (id_Username (sub_Identity sub)) (mb_Address (sub_Mailbox sub))
    (Original (sub_EnvelopeFrom sub)) (Original (sub_HeaderFrom sub)) (sub_Recipients sub) 0
    (len (sub_Raw sub)) (sub_Subject sub) (sub_MessageID sub) StatusUnset 0 0 None None "" "" false
    (match sub_ClientIP sub with Some ip => IP_String ip | None => "" end) "" (sub_ReceivedAt sub) None 0.

Definition Submit (io : option string) (now : Z) (newID : string) (sub : Submission) (db : DB)
  : result string string * DB :=
  match Enqueue io now newID (submitted_message sub) (Some (sub_Raw sub)) db with
  | (Ok m, db') => (Ok (m_ID m), db')
  | (Err _, db') => (Err ("queueing a submission from " +:+ id_Username (sub_Identity sub)), db')
  end.

(** ** A session's commands *)

Inductive Command :=
| CmdPlain (mech : string) (identity username password : string)
| CmdLogin (mech : string) (responses : list (option string))
| CmdMail (from : string)
| CmdRcpt (to : string)
| CmdData (r : Reader)
| CmdReset.

(** One command, on the connection as it is then: the session afterwards and
    the submission made, if any. [auth] is the authenticator for this client. *)
Definition step_session (sv : Server) (not_set : Z * Z * Z) (order : list string)
    (auth : string -> string -> result string Identity) (cn : Conn) (c : Command) (s : session)
  : session * option Submission :=
  if ss_closed s then (s, None)
  else
    match c with
    | CmdPlain mech identity username password =>
        match Auth sv (cn_encrypted cn) mech with
        | Ok PLAIN => ((plain_auth sv auth identity username password s).2, None)
        | _ => (s, None)
        end
    | CmdLogin mech responses =>
        match Auth sv (cn_encrypted cn) mech with
        | Ok LOGIN => ((login_auth sv auth responses newLoginServer s).2, None)
        | _ => (s, None)
        end
    | CmdMail from => ((Mail sv (cn_encrypted cn) from s).2, None)
    | CmdRcpt to => ((Rcpt sv to s).2, None)
    | CmdData r => (s, match Data sv cn not_set order r s with DataSubmit sub => Some sub | _ => None end)
    | CmdReset => (Reset s, None)
    end.

(** A run of the session: what was submitted, in order. *)
Fixpoint run_session (sv : Server) (not_set : Z * Z * Z) (order : list string)
    (auth : string -> string -> result string Identity) (cmds : list (Conn * Command)) (s : session)
  : session * list Submission :=
  match cmds with
  | [] => (s, [])
  | (cn, c) :: rest =>
      let '(s', sub) := step_session sv not_set order auth cn c s in
      let '(s'', subs) := run_session sv not_set order auth rest s' in
      (s'', match sub with Some x => x :: subs | None => subs end)
  end.
End Submissions.
