(* ===== verification/SmtpSessionProps.v ===== *)
(** * Properties of the SMTP session *)

From stdpp Require Import base gmap strings list sorting.
From Stdlib Require Import ZArith Lia Ascii.
From S2P Require Import Prelude GoStrings GoStringsFacts StoreModels MessageStore MessageQueue Directory DirectoryProps.
From S2P Require Import Policy PolicyProps Headers HeadersProps Password SmtpAuth SmtpAuthProps SmtpSession.

Open Scope Z_scope.

(** ** Reading the message *)

Lemma len_app s t : len (s +:+ t) = len s + len t.
Proof. unfold len. rewrite String_length_app. lia. Qed.

Lemma len_nonneg s : 0 <= len s.
Proof. unfold len. lia. Qed.

(** All the bytes a reader has. *)
Definition reader_text (r : Reader) : string := concat_strings r.*1.

(** One read: it never exceeds what was asked for, and nothing is lost. *)
Lemma read_piece_spec k r piece err r' :
  0 < k -> read_piece k r = (piece, err, r') ->
  len piece <= k /\ reader_text r = piece +:+ reader_text r'
  /\ (r = [] \/ (reader_size r' < reader_size r)%nat).
Proof.
  intros Hk. unfold read_piece. destruct r as [|[p e] r]; [intros [= <- <- <-]; unfold len; simpl; auto with lia|].
  destruct (len p <=? k) eqn:Hl; bools; intros [= <- <- <-].
  - split_and!; [done|done|]. right. simpl. lia.
  - unfold len in *. rewrite length_take_bytes by lia. split_and!; [lia| |].
    + unfold reader_text. simpl. rewrite <- string_app_assoc. by rewrite take_drop_bytes.
    + right. simpl. assert (String.length p = (Z.to_nat k + String.length (drop_bytes (Z.to_nat k) p))%nat) as Hd; [|lia].
      rewrite <- (take_drop_bytes (Z.to_nat k) p) at 1. rewrite String_length_app, length_take_bytes by lia. done.
Qed.

(** The loop ends, and never returns more than the limit reader lets through. *)
Lemma read_loop_total fuel limit n buf r :
  (reader_size r < fuel)%nat -> len buf + n = limit + 1 -> 0 <= n -> is_Some (read_loop fuel limit n buf r).
Proof.
  revert n buf r. induction fuel as [|fuel IH]; intros n buf r Hf Hn Hpos; [lia|]. simpl. unfold limited_read.
  destruct (n <=? 0) eqn:Hn0; [eauto|]. bools.
  destruct (read_piece _ r) as [[piece err] r'] eqn:Hr.
  assert (0 < Z.min chunk_size n) as Hk by (unfold chunk_size; lia).
  destruct (read_piece_spec _ _ _ _ _ Hk Hr) as (Hlen & _ & Hsz). destruct err; eauto.
  destruct (_ >? _) eqn:Hgt; eauto. bools. destruct Hsz as [->|Hsz]; [by simplify_eq/=|].
  apply IH; [lia|rewrite len_app; lia|]. pose proof (len_nonneg piece). lia.
Qed.

Lemma read_loop_bound fuel limit n buf r out :
  len buf + n = limit + 1 -> 0 <= n -> read_loop fuel limit n buf r = Some (Ok out) ->
  len out <= limit + 1 /\ exists rest, buf +:+ reader_text r = out +:+ rest.
Proof.
  revert n buf r. induction fuel as [|fuel IH]; intros n buf r Hn Hpos; [done|]. simpl. unfold limited_read.
  destruct (n <=? 0) eqn:Hn0; bools.
  { intros [= <-]. rewrite string_app_nil. split; [lia|]. eauto. }
  destruct (read_piece _ r) as [[piece err] r'] eqn:Hr.
  assert (0 < Z.min chunk_size n) as Hk by (unfold chunk_size; lia).
  destruct (read_piece_spec _ _ _ _ _ Hk Hr) as (Hlen & Ht & _). rewrite Ht. pose proof (len_nonneg piece).
  destruct err; [destruct (_ >? _) eqn:Hgt; [done|]; bools| |done].
  - intros (H1 & rest & H2)%IH; [|rewrite len_app; lia|lia]. split; [done|]. exists rest. by rewrite <- string_app_assoc.
  - intros [= <-]. rewrite len_app. split; [lia|]. exists (reader_text r'). by rewrite string_app_assoc.
Qed.

(** A reader whose pieces carry no error. *)
Definition clean (r : Reader) : Prop := Forall (fun p => p.2 = NoErr) r.

Lemma read_piece_clean k r piece err r' :
  0 < k -> clean r -> read_piece k r = (piece, err, r') ->
  clean r' /\ ((r = [] /\ piece = "" /\ err = EOF) \/ (r <> [] /\ err = NoErr)).
Proof.
  intros Hk Hc. unfold read_piece. destruct r as [|[p e] r]; [intros [= <- <- <-]; auto|].
  apply Forall_cons in Hc as [He Hc]. simpl in He. subst e.
  destruct (_ <=? _); intros [= <- <- <-]; [auto|]. split; [by constructor|auto].
Qed.

Lemma read_loop_clean fuel limit n buf r :
  (reader_size r < fuel)%nat -> 0 < n -> len buf + n = limit + 1 -> clean r ->
  read_loop fuel limit n buf r =
    Some (if len (buf +:+ reader_text r) <=? limit then Ok (buf +:+ reader_text r)
          else Err (SMTPError 552 (5, 3, 4) ("Message exceeds the " +:+ Itoa limit +:+ " byte limit"))).
Proof.
  revert n buf r. induction fuel as [|fuel IH]; intros n buf r Hf Hpos Hn Hc; [lia|]. simpl. unfold limited_read.
  rewrite (proj2 (Z.leb_gt n 0)) by lia.
  destruct (read_piece _ r) as [[piece err] r'] eqn:Hr.
  assert (0 < Z.min chunk_size n) as Hk by (unfold chunk_size; lia).
  destruct (read_piece_spec _ _ _ _ _ Hk Hr) as (Hlen & Ht & Hsz).
  destruct (read_piece_clean _ _ _ _ _ Hk Hc Hr) as (Hc' & [(-> & -> & ->)|[Hne ->]]).
  { change (reader_text []) with "". rewrite string_app_nil. by rewrite (proj2 (Z.leb_le _ _)) by lia. }
  destruct Hsz as [?|Hsz]; [done|]. rewrite Ht, <- (string_app_assoc buf piece). pose proof (len_nonneg piece).
  destruct (len (buf +:+ piece) >? limit) eqn:Hgt; bools; rewrite len_app in Hgt.
  - rewrite (proj2 (Z.leb_gt _ _)); [done|]. rewrite !len_app. pose proof (len_nonneg (reader_text r')). lia.
  - apply IH; [lia|lia|rewrite len_app; lia|done].
Qed.

(** Reading a message always ends with an answer. It never yields more
    than one byte over the limit, whatever the reader does, and what it yields
    is the beginning of what the client sent; and when the reader reports the
    end of the data by itself, the message is accepted whole exactly when it
    is within the limit, and refused with a 552 otherwise. *)
Theorem message_size_limited sv r :
  0 <= sv_maxMessageBytes sv ->
  exists answer, readMessage sv r = Some answer
  /\ (forall raw, answer = Ok raw ->
        len raw <= sv_maxMessageBytes sv + 1 /\ exists rest, reader_text r = raw +:+ rest)
  /\ (clean r -> answer = if len (reader_text r) <=? sv_maxMessageBytes sv then Ok (reader_text r)
        else Err (SMTPError 552 (5, 3, 4) ("Message exceeds the " +:+ Itoa (sv_maxMessageBytes sv) +:+ " byte limit"))).
Proof.
  intros Hl. unfold readMessage.
  assert (len "" + (sv_maxMessageBytes sv + 1) = sv_maxMessageBytes sv + 1) as H0 by (unfold len; simpl; lia).
  destruct (read_loop_total (S (reader_size r)) (sv_maxMessageBytes sv) (sv_maxMessageBytes sv + 1) "" r) as [a Ha];
    [lia|done|lia|].
  rewrite Ha. exists a. split; [done|]. split.
  - intros raw ->. apply read_loop_bound in Ha; [exact Ha|done|lia].
  - intros Hc. rewrite read_loop_clean in Ha; [|lia|lia|done|done]. by injection Ha as <-.
Qed.

Definition sample_server : Server := mkServer "proxy" "ua" false true 3 100 1048576 false.

Lemma message_size_limited_witness :
  exists answer, readMessage sample_server [("abc", NoErr); ("def", EOF)] = Some answer.
Proof.
  destruct (message_size_limited sample_server [("abc", NoErr); ("def", EOF)]) as (a & H & _); [discriminate|].
  exists a. exact H.
Defined.

(** ** What a session may submit *)

Section Props.
Context `{UC : UnicodeCase} `{NM : NetMail} `{GF : GoFmt} `{NI : NetIP}.
Context (sv : Server) (not_set : Z * Z * Z) (order : list string).
Context (auth : string -> string -> result string Identity).

(** What was checked of the message [raw] a submission was made from: it has a
    header block and a From header with one address, which entitles the
    identity to the mailbox, and the submission's text is [raw] with lines
    prepended and, when the policy demands it, the From header replaced by the
    mailbox's address. *)
Definition sub_checked (sub : Submission) (raw : string) : Prop :=
  exists parsed from edits,
    parseMessage raw = Ok parsed /\ ParseHeaderFrom (msg_Get parsed "From") = Ok from
    /\ let i := mkInput (id_Account (sub_Identity sub)) (id_Mailboxes (sub_Identity sub)) (sub_EnvelopeFrom sub) from in
       entitled i (sub_Mailbox sub) /\ sub_Mailbox sub ∈ id_Mailboxes (sub_Identity sub)
       /\ sub_Raw sub = rewriteHeaders order parsed edits
       /\ if must_rewrite i then mkEdit "From" (mb_Address (sub_Mailbox sub)) false ∈ edits
          else Forall (fun e => ed_Prepend e = true) edits.

(** ... which was read by one of the session's DATA commands. *)
Definition sub_entitled (cmds : list (Conn * Command)) (sub : Submission) : Prop :=
  exists cn r raw, (cn, CmdData r) ∈ cmds /\ readMessage sv r = Some (Ok raw) /\ sub_checked sub raw.

Lemma decision_edits_granted cn username parsed i mb :
  let edits := decision_edits sv cn username parsed (granted i mb) (i_HeaderFrom i) in
  if must_rewrite i then mkEdit "From" (mb_Address mb) false ∈ edits else Forall (fun e => ed_Prepend e = true) edits.
Proof.
  unfold granted. destruct (must_rewrite i); simpl; [right; left|by repeat constructor].
Qed.

Lemma prepare_submission_Submit cn identity s raw sub :
  prepare_submission sv cn not_set order identity s raw = DataSubmit sub ->
  sub_Identity sub = identity /\ sub_Recipients sub = ss_recipients s /\ sub_checked sub raw.
Proof.
  unfold prepare_submission. destruct (parseMessage raw) as [m|e] eqn:Hm; [|done].
  set (from := ParseHeaderFrom _). set (hf := match from with Ok a => a | Err _ => empty_Address end).
  set (i := mkInput (id_Account identity) (id_Mailboxes identity) (ss_envelopeFrom s) hf).
  intros H. assert (match Resolve i with
    | Some d => Rejected d = false /\ exists mb final ff, d_Mailbox d = Some mb
        /\ applyDecision sv cn (id_Username identity) order m d hf = Some (final, ff)
        /\ sub_Identity sub = identity /\ sub_Recipients sub = ss_recipients s /\ sub_Mailbox sub = mb
        /\ sub_Raw sub = final /\ sub_EnvelopeFrom sub = ss_envelopeFrom s
    | None => False end) as Hres.
  { subst i. destruct from as [a|[|d]]; [| |done]; destruct (Resolve _) as [d'|]; try done;
      (destruct (Rejected d') eqn:Hr; [done|]); (split; [done|]);
      (destruct (d_Mailbox d') as [mb|]; [|done]); (destruct (applyDecision _ _ _ _ _ _ _) as [[final ff]|]; [|done]);
      injection H as <-; by exists mb, final, ff. }
  clear H. destruct (Resolve_cases i) as (d & Hd & Hcase). rewrite Hd in Hres.
  destruct Hres as (Hrej & mb & final & ff & Hmb & Happ & Hi & Hr & Hsm & Hraw & Henv).
  destruct Hcase as [(_ & mb' & Hent & Hin & ->)|(Hrej' & _)]; [|congruence].
  assert (mb' = mb) as -> by (unfold granted in Hmb; destruct (must_rewrite _); simpl in Hmb; congruence).
  split_and!; [done|done|]. exists m, hf, (decision_edits sv cn (id_Username identity) m (granted i mb) hf).
  rewrite Hi, Hsm, Henv. cbv zeta. fold i. split_and!; [done| |done|done| |apply (decision_edits_granted cn _ _ i)].
  - destruct Hent as (_ & Hne & _). revert Hne. fold from. unfold i, hf. cbn [i_HeaderFrom]. by destruct from.
  - rewrite Hraw. unfold applyDecision in Happ.
    destruct (d_Action _); [|destruct (ParseAddress _)|]; simplify_eq/=; done.
Qed.

Lemma Data_Submit cn r s sub :
  Data sv cn not_set order r s = DataSubmit sub ->
  ss_identity s = Some (sub_Identity sub) /\ sub_Recipients sub = ss_recipients s /\ ss_recipients s <> []
  /\ exists raw, readMessage sv r = Some (Ok raw) /\ sub_checked sub raw.
Proof.
  unfold Data. destruct (ss_identity s) as [identity|]; [|done].
  destruct (bool_decide _) eqn:Hne; [done|]. bools.
  destruct (readMessage sv r) as [[raw|e]|]; [|done|done].
  intros (-> & ? & ?)%prepare_submission_Submit. split_and!; try done. by exists raw.
Qed.

(** *** What the client offered *)

(** The command carries this username and password: PLAIN in one message, with
    no other identity to act as; LOGIN as the first answer the client gives and
    the one after it, an answer left out counting as an empty password. *)
Inductive offers : Command -> string -> string -> Prop :=
| offers_plain identity u p : identity = "" \/ identity = u -> offers (CmdPlain "PLAIN" identity u p) u p
| offers_login blanks u answer rest :
    Forall (fun r => r = None) blanks -> offers (CmdLogin "LOGIN" (blanks ++ Some u :: answer :: rest)) u (default "" answer).

(** ... in one of the session's commands, on an encrypted connection unless the
    operator allowed otherwise. *)
Definition offered (cmds : list (Conn * Command)) (u p : string) : Prop :=
  exists cn c, (cn, c) ∈ cmds /\ offers c u p /\ (sv_allowInsecureAuth sv = true \/ cn_encrypted cn = true).

Lemma offered_mono cmds cmds' u p : cmds ⊆ cmds' -> offered cmds u p -> offered cmds' u p.
Proof. intros Hsub (cn & c & Hin & Ho). exists cn, c. split; [by apply Hsub|done]. Qed.

Lemma login_Verify_password u r username password l' :
  login_Next (mkLoginServer loginStatePassword u) r = (Verify username password, l') -> username = u /\ password = default "" r.
Proof. unfold login_Next. simpl. destruct (_ >? _); [done|]. by intros [= <- <- _]. Qed.

(** The LOGIN exchange asks about what the client answered, and nothing else. *)
Lemma login_auth_asks responses s s' :
  login_auth sv auth responses newLoginServer s = s' ->
  s'.2 = s \/ exists u p, offers (CmdLogin "LOGIN" responses) u p /\ s' = authenticate sv (auth u p) s.
Proof.
  intros <-. assert (forall blanks, Forall (fun r => r = None) blanks ->
    (login_auth sv auth responses newLoginServer s).2 = s
    \/ exists u p, offers (CmdLogin "LOGIN" (blanks ++ responses)) u p /\
         login_auth sv auth responses newLoginServer s = authenticate sv (auth u p) s) as H; [|by apply (H [])].
  induction responses as [|r responses IH]; intros blanks Hb; [by left|]. cbn [login_auth].
  unfold login_Next at 1 2. cbn [newLoginServer ls_state]. destruct r as [u|]; simpl.
  - destruct (_ >? _); [by left|]. destruct responses as [|r responses]; [by left|]. cbn [login_auth].
    destruct (login_Next _ r) as [[prompt|reason|username password] l'] eqn:Hn; [|by left|].
    { unfold login_Next in Hn. simpl in Hn. by destruct (_ >? _). }
    apply login_Verify_password in Hn as [-> ->]. right. exists u, (default "" r). split; [by constructor|done].
  - specialize (IH (blanks ++ [None])). rewrite <-app_assoc in IH. apply IH. apply Forall_app. by repeat constructor.
Qed.

(** *** The session's invariant *)

(** [P]: the usernames and passwords the client may have authenticated with. *)
Record session_ok (P : string -> string -> Prop) (s : session) : Prop := {
  so_identity : forall id, ss_identity s = Some id -> exists u p, P u p /\ auth u p = Ok id;
  so_recipients : Z.of_nat (length (ss_recipients s)) <= Z.max 0 (sv_maxRecipients sv);
  so_failures : 0 <= ss_authFailures s;
  so_closed : 0 < sv_maxAuthFailures sv ->
    (ss_closed s = false -> ss_authFailures s < sv_maxAuthFailures sv) /\ ss_authFailures s <= sv_maxAuthFailures sv
}.

Section Invariant.
Context (P : string -> string -> Prop).

Lemma recordAuthFailure_ok s : ss_closed s = false -> session_ok P s -> session_ok P (recordAuthFailure sv s).
Proof.
  intros Hc [H1 H2 H3 H4]. split; simpl; [done|done|lia|]. intros Hm. rewrite Hc. simpl.
  specialize (H4 Hm) as [H4 _]. specialize (H4 Hc). split; [|lia].
  rewrite (proj2 (Z.gtb_lt _ _)) by lia. simpl. intros ?. bools. lia.
Qed.

Lemma authenticate_ok u p s :
  P u p -> ss_closed s = false -> session_ok P s -> session_ok P (authenticate sv (auth u p) s).2.
Proof.
  intros HP Hc Hs. unfold authenticate. destruct (auth u p) as [id|e] eqn:Ha; simpl; [|by apply recordAuthFailure_ok].
  destruct Hs as [H1 H2 H3 H4]. split; simpl; [|done|done|done]. intros id' [= <-]. eauto.
Qed.

Lemma Auth_Ok encrypted mech m :
  Auth sv encrypted mech = Ok m ->
  (sv_allowInsecureAuth sv = true \/ encrypted = true) /\ mech = match m with PLAIN => "PLAIN" | LOGIN => "LOGIN" end.
Proof.
  unfold Auth, saslServers. destruct encrypted, (sv_allowInsecureAuth sv); simpl; try done; repeat case_bool_decide; intros [= <-]; auto.
Qed.

Lemma step_session_ok cn c s :
  (forall u p, offered [(cn, c)] u p -> P u p) ->
  session_ok P s -> session_ok P (step_session sv not_set order auth cn c s).1.
Proof.
  intros HP Hs. unfold step_session. destruct (ss_closed s) eqn:Hc; [done|].
  destruct c as [mech i u p|mech rs|from|to|r|]; simpl.
  - destruct (Auth _ _ _) as [[]|] eqn:Ha; try done. apply Auth_Ok in Ha as [He ->]. simpl. unfold plain_auth.
    destruct (negb _ && _) eqn:Hi; simpl; [by apply recordAuthFailure_ok|]. apply authenticate_ok; [|done..].
    apply HP. exists cn, (CmdPlain "PLAIN" i u p). split_and!; [left| |done]. constructor.
    apply andb_false_iff in Hi as [Hi|Hi]; apply negb_false_iff in Hi; bools; auto.
  - destruct (Auth _ _ _) as [[]|] eqn:Ha; try done. apply Auth_Ok in Ha as [He ->]. simpl.
    destruct (login_auth_asks rs s _ eq_refl) as [->|(u & p & Ho & ->)]; [done|]. apply authenticate_ok; [|done..].
    apply HP. exists cn, (CmdLogin "LOGIN" rs). split_and!; [left|done..].
  - unfold Mail. destruct (ss_identity s) as [id|] eqn:Hi; [|done]. destruct (_ && _); [done|].
    destruct (ParseAddress from); [|done]. destruct Hs as [H1 H2 H3 H4]. split; simpl; try done; [by rewrite <- Hi|lia].
  - unfold Rcpt. destruct (ss_identity s) as [id|] eqn:Hi; [|done]. destruct (_ >=? _) eqn:Hr; [done|]. bools.
    destruct (ParseAddress to) as [a|]; [|done]. destruct (IsEmpty a); [done|]. destruct Hs as [H1 H2 H3 H4].
    split; simpl; try done; [by rewrite <- Hi|]. rewrite length_app. simpl. lia.
  - done.
  - destruct Hs as [H1 H2 H3 H4]. split; simpl; try done. lia.
Qed.

(** What is known of a submission made by one of the commands. *)
Definition sub_granted (cmds : list (Conn * Command)) (sub : Submission) : Prop :=
  sub_entitled cmds sub /\ (exists u p, P u p /\ auth u p = Ok (sub_Identity sub))
  /\ sub_Recipients sub <> [] /\ Z.of_nat (length (sub_Recipients sub)) <= Z.max 0 (sv_maxRecipients sv).

Lemma sub_granted_mono cmds cmds' sub : cmds ⊆ cmds' -> sub_granted cmds sub -> sub_granted cmds' sub.
Proof. intros Hsub ((cn & r & raw & Hin & Hraw) & Hrest). split; [|done]. exists cn, r, raw. split; [by apply Hsub|done]. Qed.

Lemma step_session_sub cn c s sub :
  session_ok P s -> (step_session sv not_set order auth cn c s).2 = Some sub -> sub_granted [(cn, c)] sub.
Proof.
  intros Hs. unfold step_session. destruct (ss_closed s); [done|].
  destruct c as [mech i u p|mech rs|from|to|r|]; simpl; try done.
  1,2: destruct (Auth _ _ _) as [[]|]; done.
  destruct (Data _ _ _ _ _ _) as [e| |x] eqn:Hd; try done. intros [= ->].
  apply Data_Submit in Hd as (Hi & Hr & Hne & raw & Hraw & Hck). pose proof (so_identity _ _ Hs _ Hi) as Hu.
  unfold sub_granted. rewrite Hr. split_and!; try done; [|apply (so_recipients _ _ Hs)].
  exists cn, r, raw. split_and!; [left|done|done].
Qed.

Lemma run_session_ok cmds s :
  (forall u p, offered cmds u p -> P u p) -> session_ok P s ->
  session_ok P (run_session sv not_set order auth cmds s).1
  /\ Forall (sub_granted cmds) (run_session sv not_set order auth cmds s).2.
Proof.
  revert s. induction cmds as [|[cn c] cmds IH]; intros s HP Hs; simpl; [by split; [|constructor]|].
  assert ([(cn, c)] ⊆ (cn, c) :: cmds) as Hhead by (intros y Hy%list_elem_of_singleton; subst y; left).
  assert (cmds ⊆ (cn, c) :: cmds) as Htail by (intros y; by right).
  pose proof (step_session_ok cn c s (fun u p Ho => HP u p (offered_mono _ _ _ _ Hhead Ho)) Hs) as Hs'.
  pose proof (step_session_sub cn c s) as Hsub. destruct (step_session _ _ _ _ _ _ _) as [s' o]. simpl in *.
  destruct (IH s' (fun u p Ho => HP u p (offered_mono _ _ _ _ Htail Ho)) Hs') as [IH1 IH2].
  destruct (run_session _ _ _ _ cmds s') as [s'' subs]. simpl in *. split; [done|].
  assert (Forall (sub_granted ((cn, c) :: cmds)) subs) as Hsubs.
  { eapply Forall_impl; [exact IH2|]. intros x. by apply sub_granted_mono. }
  destruct o as [x|]; [|done]. constructor; [|done]. eapply sub_granted_mono; [exact Hhead|]. by apply (Hsub x Hs).
Qed.

Lemma new_session_ok : session_ok P new_session.
Proof. split; simpl; try done; [lia|]. intros. lia. Qed.
End Invariant.

(** ** Properties *)

(** What a client can get into the queue. Whatever commands a client sends,
    in whatever order, every submission the session makes comes from a message
    one of its DATA commands delivered, whose From header has exactly one
    address; it is made for an identity the authenticator returned for a
    username and password the client offered in this session, as a mailbox of
    that identity which that address entitles it to, with the From header
    replaced by the mailbox's address when only the rewrite policy lets it
    through and with nothing but prepended lines otherwise; it has at least one
    and at most [maxRecipients] recipients; and unless the operator allowed
    insecure authentication, the connection was encrypted when the password was
    sent. *)
Theorem session_submits_only_entitled cmds sub :
  sub ∈ (run_session sv not_set order auth cmds new_session).2 ->
  (exists cn r raw, (cn, CmdData r) ∈ cmds /\ readMessage sv r = Some (Ok raw) /\ sub_checked sub raw)
  /\ (exists u p, offered cmds u p /\ auth u p = Ok (sub_Identity sub))
  /\ sub_Recipients sub <> [] /\ Z.of_nat (length (sub_Recipients sub)) <= Z.max 0 (sv_maxRecipients sv).
Proof.
  intros Hin. destruct (run_session_ok (offered cmds) cmds new_session) as [_ Hf]; [done|apply new_session_ok|].
  rewrite Forall_forall in Hf. by destruct (Hf _ Hin) as (He & Hu & Hne & Hmax).
Qed.

(** Guessing on one connection is bounded: with a limit on failed logins
    the counter never passes it and the connection is closed the moment it is
    reached; on a connection that is not encrypted, and without the operator's
    permission, no login is attempted at all. *)
Theorem failed_logins_are_bounded cmds :
  0 < sv_maxAuthFailures sv ->
  let s := (run_session sv not_set order auth cmds new_session).1 in
  0 <= ss_authFailures s <= sv_maxAuthFailures sv
  /\ (ss_authFailures s = sv_maxAuthFailures sv -> ss_closed s = true)
  /\ (sv_allowInsecureAuth sv = false -> (forall cn c, (cn, c) ∈ cmds -> cn_encrypted cn = false) ->
      ss_identity s = None /\ AuthMechanisms sv false = []).
Proof.
  intros Hm. cbv zeta. destruct (run_session_ok (offered cmds) cmds new_session) as [[H1 _ H3 H4] _]; [done|apply new_session_ok|].
  destruct (H4 Hm) as [H5 H6]. split_and!; [done|done| |].
  - intros Heq. apply not_false_iff_true. intros Hc%H5. lia.
  - intros Hi Hcn. split; [|unfold AuthMechanisms; by rewrite Hi].
    destruct (ss_identity _) as [id|]; [|done]. destruct (H1 id eq_refl) as (u & p & (cn & c & Hin & _ & [He|He]) & _); [congruence|].
    by rewrite (Hcn _ _ Hin) in He.
Qed.
End Props.

(** ** From the client to the queue *)

Lemma enqueue_defaults_links now newID m :
  m_MailboxID (enqueue_defaults now newID m) = m_MailboxID m
  /\ m_SMTPAccountID (enqueue_defaults now newID m) = m_SMTPAccountID m
  /\ m_MailboxAddress (enqueue_defaults now newID m) = m_MailboxAddress m.
Proof. unfold enqueue_defaults. repeat case_bool_decide; repeat case_match; done. Qed.

Lemma Submit_Ok `{NI : NetIP} io now newID (sub : Submission) db id db' :
  Submit io now newID sub db = (Ok id, db') ->
  exists row, messages db' !! id = Some row /\ message_blobs db' !! id = Some (sub_Raw sub)
    /\ m_Status row = StatusQueued /\ m_Recipients row = sub_Recipients sub
    /\ m_MailboxID row = NullString (mb_ID (sub_Mailbox sub)) /\ m_MailboxAddress row = mb_Address (sub_Mailbox sub)
    /\ m_SMTPAccountID row = NullString (id_AccountID (sub_Identity sub)).
Proof.
  unfold Submit. destruct (Enqueue_cases io now newID (submitted_message sub) (Some (sub_Raw sub)) db)
    as [[e ->]|(_ & _ & Hr & Hm & Hb)]; [done|].
  destruct (Enqueue _ _ _ _ _ _) as [[m|e] db''] eqn:He; simpl in *; [|done]. injection Hr as ->. intros [= <- <-].
  exists (enqueue_defaults now newID (submitted_message sub)). rewrite Hm, Hb, !lookup_insert_eq.
  destruct (enqueue_defaults_fields now newID (submitted_message sub)) as (_ & _ & _ & _ & Hrc & _ & Hst & _).
  destruct (enqueue_defaults_links now newID (submitted_message sub)) as (Hl1 & Hl2 & Hl3).
  rewrite Hrc, Hst, Hl1, Hl2, Hl3. done.
Qed.

Section EndToEnd.
Context `{UC : UnicodeCase} `{NM : NetMail} `{GF : GoFmt} `{NI : NetIP} `{C : Collation} `{PH : PasswordHasher}.
Context (sv : Server) (not_set : Z * Z * Z) (order : list string).
Context (decoyHash : string) (store_text : StoreError -> string) (crypto_text : CryptoError -> string).

End EndToEnd.

(** *** A session, for the witnesses *)

#[local] Existing Instance plain_case.
#[local] Existing Instance plain_fmt.
#[local] Existing Instance plain_mail.
#[local] Existing Instance plain_ip.
#[local] Existing Instance any_collation.
#[local] Existing Instance plain_hasher.

Definition tls_conn : Conn := mkConn true "printer" None 60 "now".

Definition sample_commands : list (Conn * Command) :=
  [(tls_conn, CmdPlain "PLAIN" "" "printer" "hash"); (tls_conn, CmdMail "scan@x");
   (tls_conn, CmdRcpt "to@y"); (tls_conn, CmdData [(sample_raw, EOF)])].

Definition sample_auth_of (u p : string) : result string Identity :=
  ar_result (Authenticate "decoy" (fun _ => "") (fun _ => "") calm_auth u p None).

Definition sample_submissions : list Submission :=
  (run_session sample_server (0, 0, 0) [] sample_auth_of sample_commands new_session).2.

Definition sample_submission : Submission :=
  match sample_submissions with
  | sub :: _ => sub
  | [] => mkSubmission sample_identity (mailbox_defaults 2 "x" dir_mailbox) empty_Address empty_Address [] "" "" "" None "" false 0
  end.

Lemma sample_submissions_one : sample_submissions = [sample_submission].
Proof. vm_compute. reflexivity. Qed.

Lemma sample_submission_in : sample_submission ∈ sample_submissions.
Proof. rewrite sample_submissions_one. left. Qed.

Lemma session_submits_only_entitled_witness :
  sub_Recipients sample_submission <> []
  /\ exists u p, offered sample_server sample_commands u p /\ sample_auth_of u p = Ok (sub_Identity sample_submission).
Proof.
  destruct (session_submits_only_entitled sample_server (0, 0, 0) [] sample_auth_of sample_commands sample_submission
    sample_submission_in) as (_ & Hu & Hr & _). split; [exact Hr|exact Hu].
Defined.

Lemma failed_logins_are_bounded_witness :
  0 <= ss_authFailures (run_session sample_server (0, 0, 0) [] sample_auth_of
         [(tls_conn, CmdPlain "PLAIN" "" "printer" "guess")] new_session).1 <= sv_maxAuthFailures sample_server.
Proof.
  exact (proj1 (failed_logins_are_bounded sample_server (0, 0, 0) [] sample_auth_of
    [(tls_conn, CmdPlain "PLAIN" "" "printer" "guess")] eq_refl)).
Defined.


(** ** A divergence *)

(** Two From headers: one of the account's mailbox, one of somebody else. *)
Definition two_from_raw : string :=
  crlf_lines ["From: scan@x"; "From: ceo@x"; "Subject: urgent"; ""; "pay"].

Definition forged : DataOutcome :=
  Data sample_server tls_conn (0, 0, 0) [] [(two_from_raw, EOF)]
    (mkSession (Some sample_identity) 0 false empty_Address ["to@y"]).

(** The policy looks at one From header only: a second From header with an
    address the account may not send as passes under the strictest policy and
    reaches the recipients unchanged, although a From with two addresses is
    refused because it "has no single identity to check". *)
Theorem second_from_header_unchecked :
  a_Policy (id_Account sample_identity) = FromPolicyReject
  /\ (exists sub, forged = DataSubmit sub
        /\ Contains (sub_Raw sub) ("From: ceo@x" +:+ CRLF) = true)
  /\ (forall mb, ~ entitled (mkInput (id_Account sample_identity) (id_Mailboxes sample_identity) empty_Address
                     (mkAddress "" "ceo@x" "ceo@x" "x")) mb).
Proof.
  split; [reflexivity|]. split.
  - destruct forged as [e| |sub] eqn:Hf; [vm_compute in Hf; discriminate..|]. exists sub. split; [done|].
    replace sub with (match forged with DataSubmit s => s | _ => sample_submission end) by (by rewrite Hf).
    vm_compute. reflexivity.
  - intros mb (_ & _ & _ & [H|(_ & _ & [H|[H|H]])]); vm_compute in H; discriminate.
Qed.
