(* ===== verification/ConnLimit.v ===== *)
(** * Connection limits

    [internal/smtpsrv/limits.go]: how many connections one client address, and
    all of them together, may hold. The listener acquires a slot when it
    accepts a connection and releases it when that connection ends. *)

From stdpp Require Import base gmap strings list.
From Stdlib Require Import ZArith Lia.
From S2P Require Import Prelude GoStrings.

Open Scope Z_scope.

(** ** Definitions *)

Record connLimiter := mkConnLimiter {
  cl_perIP : gmap string Z;
  cl_total : Z;
  cl_maxIP : Z;
  cl_maxAll : Z
}.

Definition newConnLimiter (maxPerIP maxTotal : Z) : connLimiter := mkConnLimiter ∅ 0 maxPerIP maxTotal.

(** [l.perIP\[key\]]: an absent key counts as zero. *)
Definition per_ip (l : connLimiter) (key : string) : Z := default 0 (cl_perIP l !! key).

Definition acquire (l : connLimiter) (key : string) : bool * connLimiter :=
  if (cl_maxAll l >? 0) && (cl_total l >=? cl_maxAll l) then (false, l)
  else if (cl_maxIP l >? 0) && (per_ip l key >=? cl_maxIP l) then (false, l)
  else (true, mkConnLimiter (<[key := per_ip l key + 1]> (cl_perIP l)) (cl_total l + 1) (cl_maxIP l) (cl_maxAll l)).

Definition release (l : connLimiter) (key : string) : connLimiter :=
  let n := per_ip l key in
  mkConnLimiter (if n <=? 1 then delete key (cl_perIP l) else <[key := n - 1]> (cl_perIP l))
    (if cl_total l >? 0 then cl_total l - 1 else cl_total l) (cl_maxIP l) (cl_maxAll l).

Definition counts (l : connLimiter) : Z * Z := (cl_total l, Z.of_nat (size (cl_perIP l))).

(** [addrKey]: the host of an address; [None] is a nil address. [SplitHostPort]
    is [net.SplitHostPort], without the port. *)
Definition addrKey (SplitHostPort : string -> result string string) (addr : option string) : string :=
  match addr with
  | None => "unknown"
  | Some a => match SplitHostPort a with Ok host => host | Err _ => a end
  end.

(** The listener: the open connections, by their key, and the limiter. *)
Inductive conn_step : list string * connLimiter -> list string * connLimiter -> Prop :=
| cs_accept live l key : (acquire l key).1 = true -> conn_step (live, l) (key :: live, (acquire l key).2)
| cs_refuse live l key : (acquire l key).1 = false -> conn_step (live, l) (live, (acquire l key).2)
| cs_close a b l key : conn_step (a ++ key :: b, l) (a ++ b, release l key).

(** ** Lemmas *)

Definition count_key (key : string) (live : list string) : Z :=
  Z.of_nat (length (base.filter (fun k => k = key) live)).

(** The limiter counts exactly the open connections. *)
Record counts_ok (maxIP maxAll : Z) (live : list string) (l : connLimiter) : Prop := {
  co_per : forall key, cl_perIP l !! key = if count_key key live =? 0 then None else Some (count_key key live);
  co_total : cl_total l = Z.of_nat (length live);
  co_maxIP : cl_maxIP l = maxIP;
  co_maxAll : cl_maxAll l = maxAll;
  co_within : 0 < maxAll -> Z.of_nat (length live) <= maxAll;
  co_within_ip : 0 < maxIP -> forall key, count_key key live <= maxIP
}.

Lemma count_key_cons key k live : count_key key (k :: live) = (if bool_decide (k = key) then 1 else 0) + count_key key live.
Proof.
  unfold count_key. rewrite filter_cons. case_decide; case_bool_decide; try done; simpl; lia.
Qed.

Lemma count_key_app key a b : count_key key (a ++ b) = count_key key a + count_key key b.
Proof. unfold count_key. rewrite filter_app, length_app. lia. Qed.

Lemma count_key_nonneg key live : 0 <= count_key key live.
Proof. unfold count_key. lia. Qed.

Lemma per_ip_counts maxIP maxAll live l key : counts_ok maxIP maxAll live l -> per_ip l key = count_key key live.
Proof.
  intros Ho. unfold per_ip. rewrite (co_per _ _ _ _ Ho). destruct (_ =? 0) eqn:H; bools; simpl; lia.
Qed.

Lemma conn_step_ok maxIP maxAll x y :
  counts_ok maxIP maxAll x.1 x.2 -> conn_step x y -> counts_ok maxIP maxAll y.1 y.2.
Proof.
  intros Ho Hs. destruct Hs as [live l key Ha|live l key Ha|a b l key]; simpl in *.
  - pose proof (per_ip_counts _ _ _ _ key Ho) as Hp. destruct Ho as [H1 H2 H3 H4 H5 H6]. unfold acquire in *.
    destruct ((cl_maxAll l >? 0) && _) eqn:E1; [done|]. destruct ((cl_maxIP l >? 0) && _) eqn:E2; [done|]. simpl.
    rewrite H3, H4, H2, Hp in *. split; simpl; try done.
    + intros k. pose proof (count_key_nonneg key live). rewrite count_key_cons. case_bool_decide as Hk; [subst k|].
      * rewrite lookup_insert_eq, (proj2 (Z.eqb_neq _ 0)) by lia. f_equal. lia.
      * rewrite lookup_insert_ne by done. rewrite H1. by replace (0 + count_key k live) with (count_key k live) by lia.
    + lia.
    + intros Hm. rewrite (proj2 (Z.gtb_lt _ _)) in E1 by lia. simpl in E1. bools. lia.
    + intros Hm k. specialize (H6 Hm k). rewrite (proj2 (Z.gtb_lt _ _)) in E2 by lia. simpl in E2. bools.
      rewrite count_key_cons. case_bool_decide; [subst; lia|lia].
  - replace (acquire l key).2 with l; [done|]. unfold acquire in *. destruct (_ && _); [done|].
    by destruct (_ && _).
  - pose proof (per_ip_counts _ _ _ _ key Ho) as Hp. destruct Ho as [H1 H2 H3 H4 H5 H6]. unfold release. rewrite Hp, H2.
    rewrite length_app in *. simpl in *. pose proof (count_key_nonneg key a). pose proof (count_key_nonneg key b).
    rewrite count_key_app, count_key_cons, bool_decide_eq_true_2 in * by done.
    split; simpl; try done.
    + intros k. specialize (H1 k). rewrite count_key_app, count_key_cons in H1. rewrite count_key_app.
      case_bool_decide as Hk; [subst k|].
      * destruct (_ <=? 1) eqn:Hle; bools.
        -- rewrite lookup_delete_eq, (proj2 (Z.eqb_eq _ 0)) by lia. done.
        -- rewrite lookup_insert_eq, (proj2 (Z.eqb_neq _ 0)) by lia. f_equal. lia.
      * replace (0 + count_key k b) with (count_key k b) in H1 by lia.
        destruct (_ <=? 1); [by rewrite lookup_delete_ne|by rewrite lookup_insert_ne].
    + rewrite length_app. rewrite (proj2 (Z.gtb_lt _ 0)) by lia. lia.
    + rewrite length_app. lia.
    + intros Hm k. specialize (H6 Hm k). rewrite count_key_app, count_key_cons in H6. rewrite count_key_app.
      case_bool_decide; lia.
Qed.

(** ** Properties *)

(** The limits hold and the books balance: after any sequence of accepted,
    refused and closed connections, the limiter's counters are exactly the
    numbers of open connections, in total and per client, neither exceeds its
    limit when one is set, and once every connection is closed the limiter is
    empty again. *)
Theorem connection_limits_hold maxIP maxAll live l :
  rtc conn_step ([], newConnLimiter maxIP maxAll) (live, l) ->
  cl_total l = Z.of_nat (length live)
  /\ (forall key, per_ip l key = count_key key live)
  /\ (0 < maxAll -> cl_total l <= maxAll) /\ (0 < maxIP -> forall key, per_ip l key <= maxIP)
  /\ (live = [] -> counts l = (0, 0)).
Proof.
  intros Hr. assert (counts_ok maxIP maxAll live l) as Ho.
  { change (counts_ok maxIP maxAll (live, l).1 (live, l).2).
    remember ([], newConnLimiter maxIP maxAll) as x eqn:Hx.
    assert (counts_ok maxIP maxAll x.1 x.2) as H0 by (subst x; split; simpl; try done; [lia|intros ??; unfold count_key; simpl; lia]).
    clear Hx. induction Hr; [done|]. eauto using conn_step_ok. }
  split_and!.
  - apply Ho.
  - intros key. by eapply per_ip_counts.
  - intros Hm. rewrite (co_total _ _ _ _ Ho). by apply (co_within _ _ _ _ Ho).
  - intros Hm key. rewrite (per_ip_counts _ _ _ _ key Ho). by apply (co_within_ip _ _ _ _ Ho).
  - intros ->. unfold counts. rewrite (co_total _ _ _ _ Ho).
    assert (cl_perIP l = ∅) as ->; [|done]. apply map_empty. intros k. rewrite (co_per _ _ _ _ Ho). done.
Qed.

Lemma connection_limits_hold_witness :
  cl_total (acquire (newConnLimiter 1 2) "10.0.0.9").2 = 1
  /\ (acquire (acquire (newConnLimiter 1 2) "10.0.0.9").2 "10.0.0.9").1 = false.
Proof.
  split; [|vm_compute; reflexivity].
  refine (proj1 (connection_limits_hold 1 2 ["10.0.0.9"] _ _)).
  apply rtc_once, (cs_accept [] (newConnLimiter 1 2)). vm_compute. reflexivity.
Defined.
