(* ===== verification/ProxyProto.v ===== *)
(** * The PROXY protocol

    [internal/smtpsrv/proxyproto.go]. A connection is the bytes that arrive
    before the read deadline and what happens after them: the peer closes, or
    the deadline passes. Package net's addresses are parameters: the networks
    of [NetIP], [ParseIP], and [IP_of_bytes], the conversion [net.IP(b)]. *)

From stdpp Require Import base gmap strings list.
From Stdlib Require Import ZArith Lia Ascii.
From S2P Require Import Prelude GoStrings GoStringsFacts Policy.

Open Scope Z_scope.

(** ** Definitions *)

Inductive ProxyError :=
| ErrProxyUntrusted
| ErrProxyMalformed (detail : string)
| ErrDeadline.                          (* the read deadline passed *)

Inductive StreamEnd := PeerClosed | Silent.

Record Stream := mkStream { st_bytes : string; st_end : StreamEnd }.

Definition proxyV1Prefix : string := "PROXY ".
Definition proxyV2Sig : string := unbytes (chr <$> [13; 10; 13; 10; 0; 13; 10; 81; 85; 73; 84; 10]).

Definition proxyV1MaxLen : Z := 107.
Definition proxyV2HeaderLen : nat := 16.

(** [br.Peek(n)]: the bytes, and the error when there are fewer. *)
Definition Peek (n : nat) (st : Stream) : string * option StreamEnd :=
  (take_bytes n (st_bytes st), if bool_decide (n <= String.length (st_bytes st))%nat then None else Some (st_end st)).

(** [splitFields]: splits on runs of spaces; [cur] is the field being read. *)
Fixpoint split_spaces (cur : string) (s : string) : list string :=
  match s with
  | EmptyString => if bool_decide (cur = "") then [] else [cur]
  | String c s' =>
      if bool_decide (c = SP) then (if bool_decide (cur = "") then [] else [cur]) ++ split_spaces "" s'
      else split_spaces (cur +:+ String c "") s'
  end.

Definition splitFields (line : string) : list string := split_spaces "" (TrimRight line CRLF).

(** Byte [i] of a buffer. *)
Definition byte_at (i : nat) (s : string) : Z := match String.get i s with Some c => code c | None => 0 end.

(** [binary.BigEndian.Uint16] at offset [i]. *)
Definition Uint16 (i : nat) (s : string) : Z := byte_at i s * 256 + byte_at (S i) s.

Section Proxy.
Context `{NI : NetIP} `{GF : GoFmt}.
Context (ParseIP : string -> option IP) (IP_of_bytes : string -> IP).

(** [net.TCPAddr] *)
Record TCPAddr := mkTCPAddr { ta_IP : IP; ta_Port : Z }.

(** [parseProxyV1]: the source, if the header names one, and what follows. *)
Definition parseProxyV1 (st : Stream) : result ProxyError (option TCPAddr * string) :=
  match cut_byte LF (st_bytes st) with
  | None => Err (ErrProxyMalformed "no line")
  | Some (text, rest) =>
      let line := text +:+ String LF "" in
      if len line >? proxyV1MaxLen
      then Err (ErrProxyMalformed ("version 1 header is " +:+ Itoa (len line) +:+ " bytes"))
      else
        let fields := splitFields line in
        if bool_decide (fields !! 1%nat = Some "UNKNOWN") then Ok (None, rest)
        else match fields with
             | [f0; f1; f2; f3; f4; f5] =>
                 if negb (bool_decide (f0 = "PROXY")) then Err (ErrProxyMalformed (Quote line))
                 else match ParseIP f2 with
                      | None => Err (ErrProxyMalformed ("source address " +:+ Quote f2))
                      | Some ip =>
                          match Atoi f4 with
                          | Some port =>
                              if (port <? 0) || (port >? 65535)
                              then Err (ErrProxyMalformed ("source port " +:+ Quote f4))
                              else Ok (Some (mkTCPAddr ip port), rest)
                          | None => Err (ErrProxyMalformed ("source port " +:+ Quote f4))
                          end
                      end
             | _ => Err (ErrProxyMalformed (Quote line))
             end
  end.

(** [io.ReadFull] *)
Definition ReadFull (n : nat) (s : string) : option (string * string) :=
  if bool_decide (n <= String.length s)%nat then Some (take_bytes n s, drop_bytes n s) else None.

Definition parseProxyV2 (st : Stream) : result ProxyError (option TCPAddr * string) :=
  match ReadFull proxyV2HeaderLen (st_bytes st) with
  | None => Err (ErrProxyMalformed "short header")
  | Some (header, rest) =>
      let versionCommand := byte_at 12 header in
      if negb (Z.shiftr versionCommand 4 =? 2)
      then Err (ErrProxyMalformed ("unsupported version " +:+ Itoa (Z.shiftr versionCommand 4)))
      else
        let command := Z.land versionCommand 15 in
        let family := byte_at 13 header in
        let length_ := Uint16 14 header in
        match ReadFull (Z.to_nat length_) rest with
        | None => Err (ErrProxyMalformed "short body")
        | Some (body, rest) =>
            if command =? 0 then Ok (None, rest)
            else if negb (command =? 1)
            then Err (ErrProxyMalformed ("unsupported command " +:+ Itoa command))
            else if (family =? 17) || (family =? 18) then
              if len body <? 12 then Err (ErrProxyMalformed ("IPv4 body is " +:+ Itoa (len body) +:+ " bytes"))
              else Ok (Some (mkTCPAddr (IP_of_bytes (take_bytes 4 body)) (Uint16 8 body)), rest)
            else if (family =? 33) || (family =? 34) then
              if len body <? 36 then Err (ErrProxyMalformed ("IPv6 body is " +:+ Itoa (len body) +:+ " bytes"))
              else Ok (Some (mkTCPAddr (IP_of_bytes (take_bytes 16 body)) (Uint16 32 body)), rest)
            else if family =? 0 then Ok (None, rest)
            else Err (ErrProxyMalformed "unsupported address family")
        end
  end.

(** [newProxyHandshake] *)
Fixpoint parse_trusted (cidrs : list string) : result string (list IPNet) :=
  match cidrs with
  | [] => Ok []
  | c :: rest =>
      match ParseCIDR c with
      | Err e => Err ("smtpsrv: invalid trusted network " +:+ Quote c +:+ ": " +:+ e)
      | Ok network => match parse_trusted rest with Ok l => Ok (network :: l) | Err e => Err e end
      end
  end.

Definition newProxyHandshake (trustedCIDRs : list string) : result string (list IPNet) :=
  match parse_trusted trustedCIDRs with
  | Err e => Err e
  | Ok [] => Err "smtpsrv: PROXY protocol needs at least one trusted network"
  | Ok l => Ok l
  end.

Definition trusts (trusted : list IPNet) (peer : option IP) : bool :=
  match peer with
  | None => false
  | Some ip => existsb (fun n => IPNet_Contains n ip) trusted
  end.

(** [handshake]: the address the connection reports when it is not the peer's
    own, and the bytes the server will read. *)
Definition handshake (trusted : list IPNet) (peer : option IP) (st : Stream)
  : result ProxyError (option TCPAddr * string) :=
  let '(peeked, err) := Peek (String.length proxyV2Sig) st in
  match err with
  | Some Silent => Err ErrDeadline
  | _ =>
      let hasV1 := HasPrefix peeked proxyV1Prefix in
      let hasV2 := bool_decide (peeked = proxyV2Sig) in
      if negb hasV1 && negb hasV2 then Ok (None, st_bytes st)
      else if negb (trusts trusted peer) then Err ErrProxyUntrusted
      else if hasV1 then parseProxyV1 st else parseProxyV2 st
  end.

(** ** Properties *)

(** A source address cannot be forged: a connection reports an address
    other than its peer's only when the peer is in a trusted network; a peer
    outside them that sends either header is turned away; and a connection
    that sends neither, and does not go quiet within its first 12 bytes, keeps
    its peer's address and every byte it sent, trusted or not. *)
Theorem proxy_header_needs_trust trusted peer st :
  let start := take_bytes 12 (st_bytes st) in
  let quiet := (String.length (st_bytes st) < 12)%nat /\ st_end st = Silent in
  let header := HasPrefix start proxyV1Prefix = true \/ start = proxyV2Sig in
  (forall source rest, handshake trusted peer st = Ok (Some source, rest) -> trusts trusted peer = true)
  /\ (trusts trusted peer = false -> ~ quiet -> header -> handshake trusted peer st = Err ErrProxyUntrusted)
  /\ (~ quiet -> ~ header -> handshake trusted peer st = Ok (None, st_bytes st)).
Proof.
  intros start quiet header. unfold handshake, Peek. change (String.length proxyV2Sig) with 12%nat. fold start.
  assert (~ quiet -> (if bool_decide (12 <= String.length (st_bytes st))%nat then None else Some (st_end st)) <> Some Silent) as Hq.
  { intros Hn. case_bool_decide as Hl; [done|]. intros [= He]. apply Hn. split; [lia|done]. }
  split_and!.
  - intros source rest. destruct (if bool_decide _ then _ else _) as [[]|]; try done;
      destruct (_ && _); try done; destruct (trusts trusted peer); done.
  - intros Hu Hn Hh. specialize (Hq Hn). rewrite Hu.
    assert (negb (HasPrefix start proxyV1Prefix) && negb (bool_decide (start = proxyV2Sig)) = false) as ->.
    { destruct Hh as [-> | ->]; [done|]. by rewrite (bool_decide_eq_true_2 (proxyV2Sig = proxyV2Sig)), andb_false_r. }
    destruct (if bool_decide _ then _ else _) as [[]|]; done.
  - intros Hn Hh. specialize (Hq Hn). unfold header in Hh.
    assert (HasPrefix start proxyV1Prefix = false) as -> by (apply not_true_iff_false; tauto).
    rewrite (bool_decide_eq_false_2 (start = proxyV2Sig)) by tauto.
    destruct (if bool_decide _ then _ else _) as [[]|]; done.
Qed.

(** The two headers a proxy sends, as the protocol's specification writes them. *)
Definition v1_header (proto src dst : string) (sport dport : Z) : string :=
  "PROXY " +:+ proto +:+ " " +:+ src +:+ " " +:+ dst +:+ " " +:+ Itoa sport +:+ " " +:+ Itoa dport +:+ CRLF.

Definition be16 (z : Z) : string := unbytes [chr (z / 256); chr (z mod 256)].

Definition v2_header (family : Z) (src dst : string) (sport dport : Z) : string :=
  proxyV2Sig +:+ unbytes [chr 33; chr family] +:+ be16 (len src + len dst + 4)
  +:+ src +:+ dst +:+ be16 sport +:+ be16 dport.

Lemma ReadFull_app n a b : String.length a = n -> ReadFull n (a +:+ b) = Some (a, b).
Proof.
  intros <-. unfold ReadFull. rewrite bool_decide_eq_true_2 by (rewrite String_length_app; lia).
  by rewrite take_bytes_app, drop_bytes_app.
Qed.

Lemma byte_at_app a i b : byte_at (String.length a + i) (a +:+ b) = byte_at i b.
Proof. unfold byte_at. induction a as [|c a IH]; [done|exact IH]. Qed.

Lemma Uint16_app a b : Uint16 (String.length a) (a +:+ b) = Uint16 0 b.
Proof.
  unfold Uint16. rewrite <- (Nat.add_0_r (String.length a)), byte_at_app, <- Nat.add_succ_r.
  by rewrite byte_at_app.
Qed.

Lemma Uint16_be16 z b : 0 <= z < 65536 -> Uint16 0 (be16 z +:+ b) = z.
Proof.
  intros Hz. change (code (chr (z / 256)) * 256 + code (chr (z mod 256)) = z).
  pose proof (Z.mod_pos_bound z 256). pose proof (Z.div_mod z 256). rewrite !code_chr; lia || (split; [apply Z.div_pos|apply Z.div_lt_upper_bound]; lia).
Qed.

Lemma split_spaces_field cur w t :
  contains_byte w SP = false -> cur +:+ w <> "" ->
  split_spaces cur (w +:+ String SP t) = (cur +:+ w) :: split_spaces "" t.
Proof.
  revert cur. induction w as [|a w IH]; intros cur; cbn [String.append split_spaces].
  - rewrite string_app_nil. intros _ Hne. change ("" +:+ String SP t) with (String SP t). cbn [split_spaces].
    by rewrite bool_decide_eq_true_2, bool_decide_eq_false_2.
  - unfold contains_byte. simpl. intros [Ha Hw]%orb_false_iff Hne.
    change (String a w +:+ String SP t) with (String a (w +:+ String SP t)). cbn [split_spaces]. rewrite Ha.
    assert (forall x, (cur +:+ String a "") +:+ x = cur +:+ String a x) as Hx by (intros; by rewrite string_app_assoc).
    rewrite IH; rewrite ?Hx; done.
Qed.

Lemma split_spaces_last cur w :
  contains_byte w SP = false -> cur +:+ w <> "" -> split_spaces cur w = [cur +:+ w].
Proof.
  revert cur. induction w as [|a w IH]; intros cur; cbn [split_spaces].
  - rewrite string_app_nil. intros _ Hne. by rewrite bool_decide_eq_false_2.
  - unfold contains_byte. simpl. intros [Ha Hw]%orb_false_iff Hne. rewrite Ha.
    assert ((cur +:+ String a "") +:+ w = cur +:+ String a w) as Hx by by rewrite string_app_assoc.
    rewrite IH; rewrite ?Hx; done.
Qed.

(** A field of the text header: not empty, no space and no line end. *)
Definition token (w : string) : bool := negb (bool_decide (w = "")) && negb (ContainsAny w (String SP CRLF)).

Lemma token_spec w : token w = true ->
  w <> "" /\ contains_byte w SP = false /\ contains_byte w LF = false /\ ContainsAny w CRLF = false.
Proof.
  unfold token. intros H. bools. split_and!; try done; try (by eapply ContainsAny_false).
  apply not_true_iff_false. intros (c & Hc & Hin)%string_exists_iff.
  assert (ContainsAny w (String SP CRLF) = true) as Hany; [|congruence].
  apply string_exists_iff. exists c. split; [done|]. unfold contains_byte in *. simpl in *. by rewrite Hin, orb_true_r.
Qed.

Lemma token_Itoa n : 0 <= n -> token (Itoa n) = true.
Proof.
  intros Hn. unfold token. apply andb_true_iff. split; apply negb_true_iff.
  - apply bool_decide_eq_false_2. unfold Itoa. rewrite (proj2 (Z.ltb_ge n 0)) by lia.
    destruct (digits_of_head 19 n "" Hn) as (d & s & _ & ->). done.
  - apply not_true_iff_false. intros (c & Hc & Hin)%string_exists_iff. apply contains_byte_iff in Hc.
    assert (is_digit c = false) as Hd; [|pose proof (Itoa_only_digits n c Hn Hd); congruence].
    apply contains_byte_iff in Hin. change (c ∈ [SP; CR; LF]) in Hin. rewrite !elem_of_cons, elem_of_nil in Hin.
    by destruct Hin as [->|[->|[->|[]]]].
Qed.

Lemma Join_cons x y l : Join (x :: y :: l) " " = x +:+ String SP (Join (y :: l) " ").
Proof. done. Qed.

Lemma Join_tokens_clean ws :
  Forall (fun x => token x = true) ws -> ContainsAny (Join ws " ") CRLF = false.
Proof.
  induction ws as [|x [|y l] IH]; [done|intros [Hx _]%Forall_cons; by apply token_spec|].
  intros [Hx Hl]%Forall_cons. rewrite Join_cons. change (String SP ?t) with ((String SP "") +:+ t).
  autorewrite with go_string. rewrite IH by done. apply token_spec in Hx as (_ & _ & _ & ->). done.
Qed.

Lemma split_spaces_Join ws :
  Forall (fun x => token x = true) ws -> split_spaces "" (Join ws " ") = ws.
Proof.
  induction ws as [|x [|y l] IH]; [done|intros [(? & ? & _)%token_spec _]%Forall_cons; by apply split_spaces_last|].
  intros [(Hne & Hsp & _)%token_spec Hl]%Forall_cons. rewrite Join_cons, split_spaces_field by done.
  by rewrite IH.
Qed.

(** The fields of a line of tokens, one space between each and the next. *)
Lemma splitFields_line ws :
  Forall (fun x => token x = true) ws -> splitFields (Join ws " " +:+ CRLF) = ws.
Proof.
  intros Hws. unfold splitFields.
  assert (TrimRight (Join ws " " +:+ CRLF) CRLF = TrimRight (Join ws " ") CRLF) as ->.
  { unfold TrimRight. by rewrite bytes_app, rev_app_distr. }
  rewrite TrimRight_none by (by apply Join_tokens_clean). by apply split_spaces_Join.
Qed.

Lemma v1_header_Join proto src dst sport dport :
  v1_header proto src dst sport dport
  = (Join ["PROXY"; proto; src; dst; Itoa sport; Itoa dport] " " +:+ String CR "") +:+ String LF "".
Proof.
  unfold v1_header. rewrite !Join_cons. repeat change (String SP ?t) with (" " +:+ t).
  by rewrite !string_app_assoc.
Qed.

Lemma parseProxyV1_header proto src dst sport dport ip rest e :
  token proto = true -> proto <> "UNKNOWN" -> token src = true -> token dst = true ->
  0 <= sport < 65536 -> 0 <= dport -> ParseIP src = Some ip ->
  len (v1_header proto src dst sport dport) <= proxyV1MaxLen ->
  parseProxyV1 (mkStream (v1_header proto src dst sport dport +:+ rest) e) = Ok (Some (mkTCPAddr ip sport), rest).
Proof.
  intros Hp Hu Hs Hd Hsp Hdp Hip Hlen. rewrite v1_header_Join in Hlen |- *. unfold parseProxyV1. cbn [st_bytes].
  set (ws := ["PROXY"; proto; src; dst; Itoa sport; Itoa dport]) in *.
  assert (Forall (fun x => token x = true) ws) as Hws.
  { by repeat constructor; try apply token_Itoa; try lia. }
  rewrite string_app_assoc. change (String LF "" +:+ rest) with (String LF rest).
  rewrite cut_byte_app.
  2: { rewrite contains_byte_app, orb_false_r. eapply ContainsAny_false; [by apply Join_tokens_clean|done]. }
  rewrite Z.gtb_ltb, (proj2 (Z.ltb_ge _ _)) by done. rewrite string_app_assoc.
  change (String CR "" +:+ String LF "") with CRLF. rewrite splitFields_line by done. subst ws. cbn [lookup list_lookup].
  rewrite bool_decide_eq_false_2 by (by intros [=]). rewrite Hip, Atoi_Itoa by (unfold max_int64; lia).
  rewrite Z.gtb_ltb, (proj2 (Z.ltb_ge sport 0)), (proj2 (Z.ltb_ge 65535 sport)) by lia. done.
Qed.

Lemma parseProxyV2_header family size src dst sport dport rest e :
  (family = 17 \/ family = 18) /\ size = 4%nat \/ (family = 33 \/ family = 34) /\ size = 16%nat ->
  String.length src = size -> String.length dst = size -> 0 <= sport < 65536 ->
  parseProxyV2 (mkStream (v2_header family src dst sport dport +:+ rest) e)
  = Ok (Some (mkTCPAddr (IP_of_bytes src) sport), rest).
Proof.
  intros Hf Hs Hd Hp. unfold parseProxyV2, v2_header. cbn [st_bytes].
  set (body := src +:+ dst +:+ be16 sport +:+ be16 dport).
  assert (len src + len dst + 4 = Z.of_nat (size + size + 4)) as -> by (unfold len; lia).
  set (header := proxyV2Sig +:+ unbytes [chr 33; chr family] +:+ be16 (Z.of_nat (size + size + 4))).
  replace ((_ +:+ rest)) with (header +:+ body +:+ rest) by (subst header body; by rewrite !string_app_assoc).
  assert (String.length body = size + size + 4)%nat as Hbl.
  { subst body. autorewrite with go_string. rewrite Hs, Hd. simpl. lia. }
  assert (Uint16 (size + size) body = sport) as Hport.
  { subst body. replace (size + size)%nat with (String.length (src +:+ dst)) by (rewrite String_length_app; lia).
    rewrite <- string_app_assoc, Uint16_app. by apply Uint16_be16. }
  rewrite (ReadFull_app proxyV2HeaderLen) by done.
  assert (take_bytes size body = src) as Hsrc by (subst body; rewrite <- Hs; apply take_bytes_app).
  assert (len body = Z.of_nat (size + size + 4)) as Hlen by (unfold len; lia).
  destruct Hf as [[[-> | ->] ->]|[[-> | ->] ->]];
    (assert (byte_at 12 header = 33) as -> by (by vm_compute));
    [ assert (byte_at 13 header = 17) as -> by (by vm_compute)
    | assert (byte_at 13 header = 18) as -> by (by vm_compute)
    | assert (byte_at 13 header = 33) as -> by (by vm_compute)
    | assert (byte_at 13 header = 34) as -> by (by vm_compute) ];
    (assert (Z.to_nat (Uint16 14 header) = String.length body) as -> by (rewrite Hbl; by vm_compute));
    rewrite ReadFull_app, Hlen, Hsrc by done; simpl in Hport |- *; by rewrite Hport.
Qed.

Lemma v1_header_long proto src dst sport dport :
  token proto = true -> token src = true -> token dst = true -> 0 <= sport -> 0 <= dport ->
  (12 <= String.length (v1_header proto src dst sport dport))%nat.
Proof.
  intros Hp Hs Hd Hsp Hdp. unfold v1_header. autorewrite with go_string. simpl.
  assert (forall w, token w = true -> (1 <= String.length w)%nat) as Hlen.
  { intros w (Hne & _)%token_spec. destruct w; simpl; [done|lia]. }
  pose proof (Hlen _ Hp). pose proof (Hlen _ Hs). pose proof (Hlen _ Hd).
  pose proof (Hlen _ (token_Itoa _ Hsp)). pose proof (Hlen _ (token_Itoa _ Hdp)). lia.
Qed.

Lemma v1_header_prefix proto src dst sport dport rest :
  HasPrefix (take_bytes 12 (v1_header proto src dst sport dport +:+ rest)) proxyV1Prefix = true.
Proof.
  unfold v1_header. rewrite string_app_assoc. set (x := (_ +:+ _) +:+ rest).
  change (HasPrefix (proxyV1Prefix +:+ take_bytes 6 x) proxyV1Prefix = true).
  pose proof (CutPrefix_app proxyV1Prefix (take_bytes 6 x)) as H. unfold CutPrefix in H. by destruct (HasPrefix _ _).
Qed.

(** The header of a trusted proxy is read back: the connection reports the
    source address and port the proxy wrote, in the text form (fields within the
    107 bytes the protocol allows) and in the binary form for IPv4 and IPv6, and
    the server reads exactly the bytes that follow the header. *)
Theorem proxy_header_roundtrip trusted peer sport dport rest e :
  trusts trusted peer = true -> 0 <= sport < 65536 -> 0 <= dport < 65536 ->
  (forall proto src dst ip,
     token proto = true -> proto <> "UNKNOWN" -> token src = true -> token dst = true -> ParseIP src = Some ip ->
     len (v1_header proto src dst sport dport) <= proxyV1MaxLen ->
     handshake trusted peer (mkStream (v1_header proto src dst sport dport +:+ rest) e)
     = Ok (Some (mkTCPAddr ip sport), rest))
  /\ (forall family size src dst,
     (family = 17 \/ family = 18) /\ size = 4%nat \/ (family = 33 \/ family = 34) /\ size = 16%nat ->
     String.length src = size -> String.length dst = size ->
     handshake trusted peer (mkStream (v2_header family src dst sport dport +:+ rest) e)
     = Ok (Some (mkTCPAddr (IP_of_bytes src) sport), rest)).
Proof.
  intros Ht Hs Hd. unfold handshake, Peek. change (String.length proxyV2Sig) with 12%nat. split.
  - intros proto src dst ip Hp Hu Hsrc Hdst Hip Hlen. cbn [st_bytes st_end].
    rewrite bool_decide_eq_true_2
      by (rewrite String_length_app; pose proof (v1_header_long proto src dst sport dport); lia || naive_solver lia).
    rewrite v1_header_prefix, Ht. by apply parseProxyV1_header; try lia.
  - intros family size src dst Hf Hsrc Hdst. cbn [st_bytes st_end].
    rewrite bool_decide_eq_true_2 by (unfold v2_header; autorewrite with go_string; simpl; lia).
    assert (take_bytes 12 (v2_header family src dst sport dport +:+ rest) = proxyV2Sig) as ->.
    { unfold v2_header. rewrite string_app_assoc. apply (take_bytes_app proxyV2Sig). }
    rewrite Ht. by eapply parseProxyV2_header.
Qed.

(** A client that connects directly and waits for the greeting, as SMTP
    has it wait, is not served: with fewer than 12 bytes received the handshake
    ends at the read deadline in an error, whoever the peer is. *)
Theorem quiet_client_is_refused trusted peer received :
  len received < 12 -> handshake trusted peer (mkStream received Silent) = Err ErrDeadline.
Proof.
  unfold len. intros H. unfold handshake, Peek. change (String.length proxyV2Sig) with 12%nat.
  cbn [st_bytes st_end]. by rewrite bool_decide_eq_false_2 by lia.
Qed.
End Proxy.

(** ** Witnesses *)

(** Addresses as their text or bytes; a network is the prefix of its members. *)
Definition text_ip : NetIP := {|
  IP := string; IPNet := string; IP_String := id; ParseCIDR := Ok;
  IPNet_Contains := fun n ip => HasPrefix ip n
|}.

Definition text_fmt : GoFmt := Build_GoFmt id.

Lemma proxy_header_roundtrip_witness :
  handshake (NI := text_ip) (GF := text_fmt) Some id ["10."] (Some "10.0.0.7")
    (mkStream (v1_header "TCP4" "192.0.2.1" "198.51.100.1" 56324 587 +:+ "EHLO a") Silent)
  = Ok (Some (mkTCPAddr (NI := text_ip) "192.0.2.1" 56324), "EHLO a")
  /\ handshake (NI := text_ip) (GF := text_fmt) Some id ["10."] (Some "10.0.0.7")
       (mkStream (v2_header 17 "abcd" "efgh" 56324 587 +:+ "EHLO a") Silent)
     = Ok (Some (mkTCPAddr (NI := text_ip) "abcd" 56324), "EHLO a").
Proof.
  pose proof (proxy_header_roundtrip (NI := text_ip) (GF := text_fmt) Some id ["10."] (Some "10.0.0.7") 56324 587 "EHLO a" Silent
                eq_refl ltac:(lia) ltac:(lia)) as [H1 H2].
  split; [apply H1; first [done | vm_compute; done] | apply (H2 17 4%nat); [left; auto|done|done]].
Defined.

Lemma quiet_client_is_refused_witness :
  handshake (NI := text_ip) (GF := text_fmt) Some id ["10."] (Some "203.0.113.9") (mkStream "" Silent) = Err ErrDeadline.
Proof. apply (quiet_client_is_refused (NI := text_ip) (GF := text_fmt)). vm_compute. done. Defined.
