(* ===== verification/Gate.v ===== *)
(** * The connection gate

    [gateListener], [limitedConn] of [internal/smtpsrv/server.go] and
    [remoteIP] of [limits.go]: every socket the listeners accept passes the
    connection limits and, when configured, the PROXY handshake before any SMTP
    is spoken. What the kernel delivers is a list of [inner.Accept] results;
    an empty rest is a call that still waits. A connection is named by a number
    so that closing it twice, which the SMTP library may do, is the same
    connection twice. [SplitHostPort], [ParseIP] and the text of a TCP address
    are package net's. *)

From stdpp Require Import base gmap strings list.
From Stdlib Require Import ZArith Lia.
From S2P Require Import Prelude GoStrings Policy ConnLimit ProxyProto.

Open Scope Z_scope.

Section Gate.
Context `{NI : NetIP} `{GF : GoFmt}.
Context (ParseIP : string -> option IP) (IP_of_bytes : string -> IP).
Context (SplitHostPort : string -> result string string) (TCPAddr_String : TCPAddr -> string).

(** ** Definitions *)

Inductive NetAddr := AddrTCP (a : TCPAddr) | AddrOther (text : string).

Definition addr_text (a : NetAddr) : string :=
  match a with AddrTCP t => TCPAddr_String t | AddrOther s => s end.

Definition remoteIP (a : option NetAddr) : option IP :=
  match a with
  | None => None
  | Some (AddrTCP t) => Some (ta_IP t)
  | Some (AddrOther s) => match SplitHostPort s with Err _ => ParseIP s | Ok host => ParseIP host end
  end.

(** What a connection counts under. *)
Definition conn_key (a : option NetAddr) : string := addrKey SplitHostPort (addr_text <$> a).

(** A socket: its peer, and what arrives on it. *)
Record Incoming := mkIncoming { in_remote : option NetAddr; in_stream : Stream }.

(** [limitedConn]; [lc_once] says that its [sync.Once] has run. *)
Record limitedConn := mkLimited { lc_remote : option NetAddr; lc_once : bool; lc_closed : bool }.

Record gateListener := mkGate {
  g_limiter : connLimiter;
  g_conns : gmap nat limitedConn;
  g_next : nat;
  g_proxy : option (list IPNet)
}.

Definition new_gate (maxPerIP maxTotal : Z) (proxy : option (list IPNet)) : gateListener :=
  mkGate (newConnLimiter maxPerIP maxTotal) ∅ 0 proxy.

(** [wrapListener], over a limiter that is shared with the other listeners. *)
Definition wrapListener (limiter : connLimiter) (enabled : bool) (trusted : list string) : result string gateListener :=
  if enabled
  then match newProxyHandshake trusted with
       | Err e => Err e
       | Ok nets => Ok (mkGate limiter ∅ 0 (Some nets))
       end
  else Ok (mkGate limiter ∅ 0 None).

(** [limitedConn.Close] *)
Definition Close (n : nat) (g : gateListener) : gateListener :=
  match g_conns g !! n with
  | None => g
  | Some c =>
      mkGate (if lc_once c then g_limiter g else release (g_limiter g) (conn_key (lc_remote c)))
        (<[n := mkLimited (lc_remote c) true true]> (g_conns g)) (g_next g) (g_proxy g)
  end.

(** What the SMTP library is given: the address it sees as the client's, and
    the bytes it will read. *)
Record Served := mkServed { sc_id : nat; sc_remote : option NetAddr; sc_bytes : string }.

Inductive Accepted := Serve (c : Served) | Failed (e : string) | Waiting.

(** The slot was taken and the connection wrapped. *)
Definition let_in (limiter : connLimiter) (c : Incoming) (g : gateListener) : gateListener :=
  mkGate limiter (<[g_next g := mkLimited (in_remote c) false false]> (g_conns g)) (S (g_next g)) (g_proxy g).

Fixpoint Accept (incoming : list (result string Incoming)) (g : gateListener)
  : Accepted * list (result string Incoming) * gateListener :=
  match incoming with
  | [] => (Waiting, [], g)
  | Err e :: rest => (Failed e, rest, g)
  | Ok c :: rest =>
      let '(ok, limiter) := acquire (g_limiter g) (conn_key (in_remote c)) in
      if negb ok then Accept rest g
      else
        let gated := g_next g in
        let g := let_in limiter c g in
        match g_proxy g with
        | None => (Serve (mkServed gated (in_remote c) (st_bytes (in_stream c))), rest, g)
        | Some trusted =>
            match handshake ParseIP IP_of_bytes trusted (remoteIP (in_remote c)) (in_stream c) with
            | Err _ => Accept rest (Close gated g)
            | Ok (source, bytes) =>
                (Serve (mkServed gated (match source with Some a => Some (AddrTCP a) | None => in_remote c end) bytes), rest, g)
            end
        end
  end.

(** Everything that happens at the gate: calls of [Accept], and connections
    that end, possibly more than once. *)
Inductive GateOp := OpAccept (incoming : list (result string Incoming)) | OpClose (n : nat).

Definition gate_step (g : gateListener) (op : GateOp) : gateListener :=
  match op with
  | OpAccept incoming => (Accept incoming g).2
  | OpClose n => Close n g
  end.

Definition run_gate (ops : list GateOp) (g : gateListener) : gateListener := fold_left gate_step ops g.

(** The connections that hold a slot. *)
Definition live (g : gateListener) : gmap nat limitedConn := base.filter (fun kv => lc_once kv.2 = false) (g_conns g).

Definition live_keys (g : gateListener) : list string := (fun kv => conn_key (lc_remote kv.2)) <$> map_to_list (live g).

(** ** Lemmas *)

#[export] Instance counts_ok_perm maxIP maxAll : Proper ((≡ₚ) ==> eq ==> iff) (counts_ok maxIP maxAll).
Proof.
  assert (forall a b l, a ≡ₚ b -> counts_ok maxIP maxAll a l -> counts_ok maxIP maxAll b l) as H.
  { intros a b l Hp [H1 H2 H3 H4 H5 H6]. assert (forall key, count_key key b = count_key key a) as Hk.
    { intros key. unfold count_key. by rewrite Hp. }
    split; try done; [intros key; by rewrite Hk|by rewrite <-Hp|by rewrite <-Hp|intros Hm key; rewrite Hk; by apply H6]. }
  intros a b Hp l ? <-. split; apply H; [done|by symmetry].
Qed.

(** The limiter counts the connections that hold a slot, and new connections
    get new numbers. *)
Record gate_ok (maxIP maxAll : Z) (g : gateListener) : Prop := mkGateOk {
  go_counts : counts_ok maxIP maxAll (live_keys g) (g_limiter g);
  go_fresh : forall n, (g_next g <= n)%nat -> g_conns g !! n = None;
  go_once : forall n c, g_conns g !! n = Some c -> lc_once c = lc_closed c
}.

Lemma live_admit limiter c g :
  g_conns g !! g_next g = None -> live_keys (let_in limiter c g) ≡ₚ conn_key (in_remote c) :: live_keys g.
Proof.
  intros Hn. unfold live_keys, live, let_in. simpl. rewrite map_filter_insert_True by done. rewrite map_to_list_insert; [done|].
  apply map_lookup_filter_None. left. done.
Qed.

Lemma live_close n c g :
  g_conns g !! n = Some c -> lc_once c = false -> live_keys g ≡ₚ conn_key (lc_remote c) :: live_keys (Close n g).
Proof.
  intros Hn Ho. unfold Close. rewrite Hn. unfold live_keys, live. simpl. rewrite map_filter_insert_False by done. rewrite map_filter_delete.
  rewrite <-(map_to_list_delete (base.filter _ (g_conns g)) n c); [done|]. by apply map_lookup_filter_Some.
Qed.

Lemma live_close_again n c g : g_conns g !! n = Some c -> lc_once c = true -> live_keys (Close n g) = live_keys g.
Proof.
  intros Hn Ho. unfold Close. rewrite Hn. unfold live_keys, live. simpl. rewrite map_filter_insert_False by done. rewrite map_filter_delete, delete_id; [done|].
  apply map_lookup_filter_None. right. intros x Hx. simpl. congruence.
Qed.

Lemma close_keeps maxIP maxAll n g : gate_ok maxIP maxAll g -> gate_ok maxIP maxAll (Close n g).
Proof.
  intros Hg. destruct (g_conns g !! n) as [c|] eqn:Hn; [|unfold Close; by rewrite Hn]. destruct Hg as [Hc Hf Ho']. split.
  - destruct (lc_once c) eqn:Ho.
    + rewrite (live_close_again n c g Hn Ho). unfold Close. by rewrite Hn, Ho.
    + rewrite (live_close n c g Hn Ho) in Hc. unfold Close at 2. rewrite Hn, Ho. simpl.
      exact (conn_step_ok maxIP maxAll (_, g_limiter g) (_, _) Hc (cs_close [] _ _ _)).
  - unfold Close. rewrite Hn. simpl. intros m Hm. rewrite lookup_insert_ne; [by apply Hf|]. intros <-. rewrite Hf in Hn; done.
  - unfold Close. rewrite Hn. simpl. intros m x [[<- <-]|[_ Hx]]%lookup_insert_Some; [done|eauto].
Qed.

Lemma let_in_keeps maxIP maxAll c g :
  gate_ok maxIP maxAll g -> (acquire (g_limiter g) (conn_key (in_remote c))).1 = true ->
  gate_ok maxIP maxAll (let_in (acquire (g_limiter g) (conn_key (in_remote c))).2 c g).
Proof.
  intros [Hc Hf Ho] Ha. split.
  - rewrite live_admit by (by apply Hf). exact (conn_step_ok maxIP maxAll (_, g_limiter g) (_, _) Hc (cs_accept _ _ _ Ha)).
  - simpl. intros n Hn. rewrite lookup_insert_ne by lia. apply Hf. lia.
  - simpl. intros n x [[<- <-]|[_ Hx]]%lookup_insert_Some; [done|eauto].
Qed.

Lemma accept_keeps maxIP maxAll incoming g : gate_ok maxIP maxAll g -> gate_ok maxIP maxAll (Accept incoming g).2.
Proof.
  revert g. induction incoming as [|[c|e] rest IH]; intros g Hg; simpl; [done| |done].
  pose proof (let_in_keeps maxIP maxAll c g Hg) as Ha. destruct (acquire _ _) as [[] limiter]; simpl in *; [|by apply IH].
  specialize (Ha eq_refl). destruct (g_proxy g) as [trusted|]; [|done]. destruct (handshake _ _ _ _ _) as [[source bytes]|e]; [done|].
  by apply IH, close_keeps.
Qed.

Lemma run_gate_ok maxIP maxAll ops g : gate_ok maxIP maxAll g -> gate_ok maxIP maxAll (run_gate ops g).
Proof.
  revert g. induction ops as [|op ops IH]; intros g Hg; [done|]. apply IH. destruct op; [by apply accept_keeps|by apply close_keeps].
Qed.

Lemma new_gate_ok maxIP maxAll proxy : gate_ok maxIP maxAll (new_gate maxIP maxAll proxy).
Proof.
  split; [|done|done]. unfold live_keys, live. simpl. rewrite map_filter_empty, map_to_list_empty. split; simpl; try done; [lia|].
  intros ??. unfold count_key. simpl. lia.
Qed.

(** ** Properties *)

(** C25: the books of the gate balance. Whatever connections come in, however
    their handshakes go, and however often each of them is closed, the limiter
    counts exactly the connections that were let in and not yet closed, in
    total and per client address; neither number exceeds its limit; and once
    all of them are closed the limiter is as new. *)
Theorem gate_books_balance maxIP maxAll proxy ops :
  let g := run_gate ops (new_gate maxIP maxAll proxy) in
  cl_total (g_limiter g) = Z.of_nat (size (live g))
  /\ (forall key, per_ip (g_limiter g) key = count_key key (live_keys g))
  /\ (0 < maxAll -> Z.of_nat (size (live g)) <= maxAll)
  /\ (0 < maxIP -> forall key, count_key key (live_keys g) <= maxIP)
  /\ ((forall n c, g_conns g !! n = Some c -> lc_closed c = true) -> counts (g_limiter g) = (0, 0)).
Proof.
  cbv zeta. destruct (run_gate_ok maxIP maxAll ops _ (new_gate_ok maxIP maxAll proxy)) as [Hc _ Ho]. set (g := run_gate _ _) in *.
  assert (length (live_keys g) = size (live g)) as Hlen by (unfold live_keys; by rewrite length_fmap, length_map_to_list).
  split_and!.
  - by rewrite (co_total _ _ _ _ Hc), Hlen.
  - intros key. by eapply per_ip_counts.
  - rewrite <-Hlen. apply (co_within _ _ _ _ Hc).
  - apply (co_within_ip _ _ _ _ Hc).
  - intros Hcl. assert (live g = ∅) as He.
    { apply map_empty. intros n. apply map_lookup_filter_None. right. intros c Hx. simpl. rewrite (Ho n c Hx), (Hcl n c Hx). done. }
    assert (live_keys g = []) as Hk by (unfold live_keys; by rewrite He, map_to_list_empty). rewrite Hk in Hc.
    unfold counts. rewrite (co_total _ _ _ _ Hc). assert (cl_perIP (g_limiter g) = ∅) as ->; [|done].
    apply map_empty. intros k. by rewrite (co_per _ _ _ _ Hc).
Qed.

Lemma handshake_trusts trusted peer st source rest :
  handshake ParseIP IP_of_bytes trusted peer st = Ok (Some source, rest) -> trusts trusted peer = true.
Proof.
  unfold handshake. destruct (Peek _ st) as [peeked err]. destruct err as [[]|]; try done;
    (destruct (negb _ && negb _); [done|]; by destruct (trusts trusted peer)).
Qed.

(** What a call of [Accept] on [incoming] may end with. *)
Record outcome (incoming : list (result string Incoming)) (g : gateListener) (r : Accepted)
    (rest : list (result string Incoming)) (g' : gateListener) : Prop := mkOutcome {
  oc_others : forall n x, g_conns g' !! n = Some x ->
    g_conns g !! n = Some x \/ (lc_once x = true /\ lc_closed x = true) \/ exists c, r = Serve c /\ n = sc_id c;
  oc_result :
    match r with
    | Serve c => exists before i, incoming = before ++ Ok i :: rest /\ Forall (fun x => is_ok x = true) before
        /\ g_conns g' !! sc_id c = Some (mkLimited (in_remote i) false false)
        /\ (sc_remote c = in_remote i \/ exists nets, g_proxy g = Some nets /\ trusts nets (remoteIP (in_remote i)) = true)
    | Failed e => exists before, incoming = before ++ Err e :: rest /\ Forall (fun x => is_ok x = true) before
    | Waiting => rest = [] /\ Forall (fun x => is_ok x = true) incoming
    end
}.

(** A connection that was turned away changes nothing of it. *)
Lemma outcome_skip c incoming g g1 r rest g' :
  g_proxy g1 = g_proxy g ->
  (forall n x, g_conns g1 !! n = Some x -> g_conns g !! n = Some x \/ (lc_once x = true /\ lc_closed x = true)) ->
  outcome incoming g1 r rest g' -> outcome (Ok c :: incoming) g r rest g'.
Proof.
  intros Hp1 Hsub [H1 H2]. split.
  - intros n x Hx. destruct (H1 n x Hx) as [Hx'|[?|?]]; [|auto..]. destruct (Hsub n x Hx'); auto.
  - destruct r as [d|e|].
    + destruct H2 as (before & i & -> & Hb & Hc & Hr). exists (Ok c :: before), i. rewrite <-Hp1. split_and!; try done. by constructor.
    + destruct H2 as (before & -> & Hb). exists (Ok c :: before). split; [done|]. by constructor.
    + destruct H2 as [? ?]. split; [done|]. by constructor.
Qed.

Lemma outcome_serve c rest g limiter remote bytes :
  (remote = in_remote c \/ exists nets, g_proxy g = Some nets /\ trusts nets (remoteIP (in_remote c)) = true) ->
  outcome (Ok c :: rest) g (Serve (mkServed (g_next g) remote bytes)) rest (let_in limiter c g).
Proof.
  intros Hr. split; simpl.
  - intros n x [[<- <-]|[_ Hx]]%lookup_insert_Some; [|auto]. right. right. by eexists.
  - exists [], c. split_and!; [done|done|by apply lookup_insert_eq|done].
Qed.

(** no client makes [Accept] fail, and nobody is let in under another name:
    what it returns is a connection that is within the limits and shook hands,
    with the slot it holds; the ones before it are closed and hold none; the
    address the server then sees is that of the socket, unless the socket's
    peer is a trusted proxy; and it fails only with what the socket reports. *)
Theorem gate_lets_in incoming g :
  (forall n, (g_next g <= n)%nat -> g_conns g !! n = None) ->
  outcome incoming g (Accept incoming g).1.1 (Accept incoming g).1.2 (Accept incoming g).2.
Proof.
  revert g. induction incoming as [|[c|e] rest IH]; intros g Hf; simpl.
  { split; [auto|by split]. }
  2: { split; [auto|]. exists []. by split. }
  destruct (acquire _ _) as [[] limiter]; simpl; [|apply (outcome_skip _ _ _ g); auto].
  destruct (g_proxy g) as [trusted|] eqn:Hp; [|by apply outcome_serve; left].
  destruct (handshake _ _ _ _ _) as [[source bytes]|err] eqn:Hh.
  - apply outcome_serve. destruct source as [a|]; [|by left]. right. exists trusted. split; [done|]. by eapply handshake_trusts.
  - assert (g_conns (let_in limiter c g) !! g_next g = Some (mkLimited (in_remote c) false false)) as Hn by apply lookup_insert_eq.
    apply (outcome_skip _ _ _ (Close (g_next g) (let_in limiter c g))); [| |apply IH]; unfold Close; rewrite Hn; simpl; [done| |].
    + intros n x. rewrite !lookup_insert_Some. intros [[<- <-]|[Hne [[? _]|[_ Hx]]]]; [by right|done|by left].
    + intros n Hge. rewrite !lookup_insert_ne by lia. apply Hf. lia.
Qed.
End Gate.

(** ** What the gate cannot tell apart *)

(** Behind a load balancer every client counts as the balancer: with one
    connection allowed per address, the second client is refused although the
    PROXY headers name different clients. *)
Lemma balanced_clients_share_a_limit :
  let balancer := Some (AddrOther (NI := text_ip) "10.0.0.7") in
  let client src := Ok (mkIncoming balancer (mkStream (v1_header "TCP4" src "198.51.100.1" 56324 587 +:+ "EHLO a") Silent)) in
  let first := Accept (NI := text_ip) (GF := text_fmt) Some id Ok (fun a => ta_IP (NI := text_ip) a) [client "192.0.2.1"]
                 (new_gate (NI := text_ip) 1 100 (Some ["10."])) in
  let second := Accept (NI := text_ip) (GF := text_fmt) Some id Ok (fun a => ta_IP (NI := text_ip) a) [client "192.0.2.2"] first.2 in
  first.1.1 = Serve (mkServed 0 (Some (AddrTCP (NI := text_ip) (mkTCPAddr (NI := text_ip) "192.0.2.1" 56324))) "EHLO a")
  /\ second.1.1 = Waiting.
Proof. split; vm_compute; reflexivity. Qed.
