(* ===== verification/Serving.v ===== *)
(** * Serving and shutting down

    [Server.Serve], [Shutdown], [Ready] and [Addresses] of
    [internal/smtpsrv/server.go] as a transition system: the goroutine that
    called [Serve], the one that watches its context, one goroutine per
    listener, and whoever calls [Shutdown]. A step is what one goroutine does
    between two points where another may run; what the kernel and the SMTP
    library answer is part of the action. Of the library's server only the
    calls on it are kept: [Serve] on a socket, and [Shutdown], which is
    documented to close the sockets the server was given. *)

From stdpp Require Import base gmap strings list relations.
From Stdlib Require Import ZArith Lia.
From S2P Require Import Prelude GoStrings.

(** ** State *)

(** The goroutine of a listener. *)
Inductive WorkerPc :=
| WNone            (* not started *)
| WStart           (* about to read [l.net] *)
| WCall            (* about to call [l.server.Serve] *)
| WServing         (* inside [l.server.Serve] *)
| WDone.

(** [listener]: [sl_cfg] is the configured address, [sl_net] is its socket's address, [sl_open] whether the socket
    is open, [sl_given] and [sl_stopped] whether the library's server was given
    it and was shut down. *)
Record SListener := mkSListener {
  sl_cfg : string; sl_net : option string; sl_open : bool; sl_given : bool; sl_stopped : bool; sl_worker : WorkerPc
}.

Definition new_listener (address : string) : SListener := mkSListener address None false false false WNone.

(** Who called [Shutdown]. *)
Inductive Caller := ByServe | ByContext | ByOther.

#[export] Instance Caller_eq_dec : EqDecision Caller.
Proof. solve_decision. Defined.

(** The call of [Shutdown] that set the flag. *)
Inductive StopPc :=
| StopIdle
| StopCancel (who : Caller)          (* about to cancel the base context *)
| StopReady (who : Caller)           (* about to mark ready *)
| StopLoop (who : Caller) (k : nat)  (* about to look at listener [k] *)
| StopDone (who : Caller).

Inductive ServePc :=
| ServeBind (k : nat)                     (* about to bind listener [k] *)
| ServePublish (k : nat) (addr : string)  (* about to store its socket *)
| ServeCleanup (e : string)               (* a bind failed: about to call [Shutdown] *)
| ServeCleaning (e : string)              (* inside that call *)
| ServeGiveUp (e : string)                (* about to mark ready and return *)
| ServeMark                               (* all bound: about to mark ready *)
| ServeSpawn (k : nat)                    (* about to start the goroutine of listener [k] *)
| ServeWait                               (* in [wg.Wait] *)
| ServeReturned (e : option string).

(** The goroutine that watches the context of [Serve]. *)
Inductive WatchPc := WatchSelect | WatchStopping | WatchDone.

Record Serving := mkServing {
  sv_listeners : list SListener;
  sv_shutdown : bool;
  sv_canceled : bool;          (* the base context *)
  sv_ready : bool;
  sv_context : bool;           (* the caller's context is canceled *)
  sv_first : option string;
  sv_stop : StopPc;
  sv_stop_error : option string;
  sv_serve : ServePc;
  sv_watch : WatchPc
}.

Definition serving_start (addresses : list string) : Serving :=
  mkServing (new_listener <$> addresses) false false false false None StopIdle None (ServeBind 0) WatchSelect.

(** ** Setters *)

Definition set_listeners (l : list SListener) (s : Serving) : Serving :=
  mkServing l (sv_shutdown s) (sv_canceled s) (sv_ready s) (sv_context s) (sv_first s) (sv_stop s) (sv_stop_error s) (sv_serve s) (sv_watch s).
Definition set_serve (p : ServePc) (s : Serving) : Serving :=
  mkServing (sv_listeners s) (sv_shutdown s) (sv_canceled s) (sv_ready s) (sv_context s) (sv_first s) (sv_stop s) (sv_stop_error s) p (sv_watch s).
Definition set_watch (p : WatchPc) (s : Serving) : Serving :=
  mkServing (sv_listeners s) (sv_shutdown s) (sv_canceled s) (sv_ready s) (sv_context s) (sv_first s) (sv_stop s) (sv_stop_error s) (sv_serve s) p.
Definition set_stop (p : StopPc) (s : Serving) : Serving :=
  mkServing (sv_listeners s) (sv_shutdown s) (sv_canceled s) (sv_ready s) (sv_context s) (sv_first s) p (sv_stop_error s) (sv_serve s) (sv_watch s).
Definition set_flag (s : Serving) : Serving :=
  mkServing (sv_listeners s) true (sv_canceled s) (sv_ready s) (sv_context s) (sv_first s) (sv_stop s) (sv_stop_error s) (sv_serve s) (sv_watch s).
Definition set_canceled (s : Serving) : Serving :=
  mkServing (sv_listeners s) (sv_shutdown s) true (sv_ready s) (sv_context s) (sv_first s) (sv_stop s) (sv_stop_error s) (sv_serve s) (sv_watch s).
Definition set_context (s : Serving) : Serving :=
  mkServing (sv_listeners s) (sv_shutdown s) (sv_canceled s) (sv_ready s) true (sv_first s) (sv_stop s) (sv_stop_error s) (sv_serve s) (sv_watch s).
Definition set_first (e : string) (s : Serving) : Serving :=
  mkServing (sv_listeners s) (sv_shutdown s) (sv_canceled s) (sv_ready s) (sv_context s)
    (match sv_first s with None => Some e | Some e0 => Some e0 end) (sv_stop s) (sv_stop_error s) (sv_serve s) (sv_watch s).
Definition set_stop_error (e : string) (s : Serving) : Serving :=
  mkServing (sv_listeners s) (sv_shutdown s) (sv_canceled s) (sv_ready s) (sv_context s) (sv_first s) (sv_stop s)
    (match sv_stop_error s with None => Some e | Some e0 => Some e0 end) (sv_serve s) (sv_watch s).

(** [markReady]: closing the channel, once. *)
Definition markReady (s : Serving) : Serving :=
  mkServing (sv_listeners s) (sv_shutdown s) (sv_canceled s) true (sv_context s) (sv_first s) (sv_stop s) (sv_stop_error s) (sv_serve s) (sv_watch s).

Definition alter_listener (k : nat) (f : SListener -> SListener) (s : Serving) : Serving :=
  set_listeners (alter f k (sv_listeners s)) s.

Definition set_worker (p : WorkerPc) (l : SListener) : SListener :=
  mkSListener (sl_cfg l) (sl_net l) (sl_open l) (sl_given l) (sl_stopped l) p.

(** ** Steps *)

(** An error of the library's [Serve] or [Shutdown]; [LibClosed] is
    [net.ErrClosed] or [smtp.ErrServerClosed]. *)
Inductive LibError := LibClosed | LibOther (e : string).

Definition isClosedErr (e : LibError) : bool := match e with LibClosed => true | LibOther _ => false end.

Definition lib_text (e : LibError) : string := match e with LibClosed => "closed" | LibOther e => e end.

(** [err != nil && !isClosedErr(err)] *)
Definition failure (r : option LibError) : option string :=
  match r with
  | Some e => if isClosedErr e then None else Some (lib_text e)
  | None => None
  end.

(** [bind]: [net.Listen], then the gate around the socket, which closes it
    again when the PROXY settings are no good. *)
Definition bind (address : string) (listen : result string string) (wrap : result string unit) : result string string :=
  match listen with
  | Err e => Err ("smtpsrv: binding " +:+ address +:+ ": " +:+ e)
  | Ok addr => match wrap with Err e => Err e | Ok _ => Ok addr end
  end.

(** The first lines of [Shutdown]: the flag is taken once. *)
Definition begin_shutdown (who : Caller) (s : Serving) : Serving :=
  if sv_shutdown s then s else set_stop (StopCancel who) (set_flag s).

(** Whether the caller's [Shutdown] has returned: at once when it was not the
    one to take the flag. *)
Definition returned (who : Caller) (s : Serving) : bool :=
  match sv_stop s with
  | StopIdle => false
  | StopCancel w | StopReady w | StopLoop w _ => negb (bool_decide (w = who))
  | StopDone _ => true
  end.

Definition serve_step (listen : result string string) (wrap : result string unit) (s : Serving) : option Serving :=
  match sv_serve s with
  | ServeBind k =>
      match sv_listeners s !! k with
      | None => Some (set_serve ServeMark s)
      | Some l =>
          match bind (sl_cfg l) listen wrap with
          | Err e => Some (set_serve (ServeCleanup e) s)
          | Ok addr => Some (set_serve (ServePublish k addr)
                         (alter_listener k (fun l => mkSListener (sl_cfg l) (sl_net l) true (sl_given l) (sl_stopped l) (sl_worker l)) s))
          end
      end
  | ServePublish k addr =>
      Some (set_serve (ServeBind (S k))
        (alter_listener k (fun l => mkSListener (sl_cfg l) (Some addr) (sl_open l) (sl_given l) (sl_stopped l) (sl_worker l)) s))
  | ServeCleanup e => Some (set_serve (ServeCleaning e) (begin_shutdown ByServe s))
  | ServeCleaning e => if returned ByServe s then Some (set_serve (ServeGiveUp e) s) else None
  | ServeGiveUp e => Some (set_serve (ServeReturned (Some e)) (markReady s))
  | ServeMark => Some (set_serve (ServeSpawn 0) (markReady s))
  | ServeSpawn k =>
      match sv_listeners s !! k with
      | None => Some (set_serve ServeWait s)
      | Some _ => Some (set_serve (ServeSpawn (S k)) (alter_listener k (set_worker WStart) s))
      end
  | ServeWait =>
      if forallb (fun l => match sl_worker l with WDone => true | _ => false end) (sv_listeners s)
      then Some (set_serve (ServeReturned (sv_first s)) s) else None
  | ServeReturned _ => None
  end.

(** When [Serve] has returned and the context is canceled, either case of the
    select may be taken. *)
Definition watch_step (stopped_first : bool) (s : Serving) : option Serving :=
  match sv_watch s with
  | WatchSelect =>
      let returned := match sv_serve s with ServeReturned _ => true | _ => false end in
      if returned && (stopped_first || negb (sv_context s)) then Some (set_watch WatchDone s)
      else if sv_context s then Some (set_watch WatchStopping (begin_shutdown ByContext s))
      else None
  | WatchStopping => if returned ByContext s then Some (set_watch WatchDone s) else None
  | WatchDone => None
  end.

Definition worker_step (k : nat) (r : option LibError) (s : Serving) : option Serving :=
  match sv_listeners s !! k with
  | None => None
  | Some l =>
      match sl_worker l with
      | WStart => match sl_net l with
                  | None => Some (alter_listener k (set_worker WDone) s)
                  | Some _ => Some (alter_listener k (set_worker WCall) s)
                  end
      | WCall => Some (alter_listener k (fun l => mkSListener (sl_cfg l) (sl_net l) (sl_open l) true (sl_stopped l) WServing) s)
      | WServing =>
          let s := alter_listener k (set_worker WDone) s in
          Some (match failure r with
                | Some e => set_first ("smtpsrv: listener " +:+ sl_cfg l +:+ ": " +:+ e) s
                | None => s
                end)
      | WNone | WDone => None
      end
  end.

(** The rest of [Shutdown]; the library closes the sockets it was given. *)
Definition stop_step (r : option LibError) (s : Serving) : option Serving :=
  match sv_stop s with
  | StopCancel who => Some (set_stop (StopReady who) (set_canceled s))
  | StopReady who => Some (set_stop (StopLoop who 0) (markReady s))
  | StopLoop who k =>
      match sv_listeners s !! k with
      | None => Some (set_stop (StopDone who) s)
      | Some l =>
          match sl_net l with
          | None => Some (set_stop (StopLoop who (S k)) s)
          | Some _ =>
              let s := alter_listener k (fun l => mkSListener (sl_cfg l) (sl_net l) (sl_open l && negb (sl_given l)) (sl_given l) true (sl_worker l)) s in
              let s := set_stop (StopLoop who (S k)) s in
              Some (match failure r with Some e => set_stop_error e s | None => s end)
          end
      end
  | StopIdle | StopDone _ => None
  end.

Inductive Action :=
| DoServe (listen : result string string) (wrap : result string unit)
| DoWatch (stopped_first : bool)
| DoWorker (k : nat) (r : option LibError)
| DoStop (r : option LibError)
| CancelContext                 (* somebody cancels the context of [Serve] *)
| CallShutdown.                 (* somebody calls [Shutdown] *)

Definition serving_step (a : Action) (s : Serving) : option Serving :=
  match a with
  | DoServe listen wrap => serve_step listen wrap s
  | DoWatch b => watch_step b s
  | DoWorker k r => worker_step k r s
  | DoStop r => stop_step r s
  | CancelContext => Some (set_context s)
  | CallShutdown => Some (begin_shutdown ByOther s)
  end.

Fixpoint serving_run (acts : list Action) (s : Serving) : option Serving :=
  match acts with
  | [] => Some s
  | a :: acts => match serving_step a s with None => None | Some s => serving_run acts s end
  end.

(** [Addresses] *)
Definition Addresses (s : Serving) : list string := omap sl_net (sv_listeners s).

Open Scope nat_scope.

(** ** Definitions *)

Definition all_listeners (P : nat -> SListener -> Prop) (s : Serving) : Prop :=
  forall j l, sv_listeners s !! j = Some l -> P j l.

(** Every listener has its socket. *)
Definition bound : Serving -> Prop := all_listeners (fun _ l => is_Some (sl_net l)).

(** Which sockets [Serve] has at each of its points. *)
Definition serve_bound (p : ServePc) (s : Serving) : Prop :=
  match p with
  | ServeBind k | ServePublish k _ => all_listeners (fun j l => (j < k)%nat -> is_Some (sl_net l)) s
  | ServeMark | ServeSpawn _ | ServeWait => bound s
  | ServeCleaning _ | ServeGiveUp _ => sv_shutdown s = true
  | ServeCleanup _ | ServeReturned _ => True
  end.

(** Which goroutines it has not started. *)
Definition unspawned (p : ServePc) (j : nat) : Prop :=
  match p with
  | ServeSpawn k => (k <= j)%nat
  | ServeWait | ServeReturned _ => False
  | _ => True
  end.

Record serving_ok (s : Serving) : Prop := mkServingOk {
  so_flag : sv_shutdown s = false <-> sv_stop s = StopIdle;
  so_bound : serve_bound (sv_serve s) s;
  so_unspawned : all_listeners (fun j l => unspawned (sv_serve s) j -> sl_worker l = WNone) s;
  so_workers : all_listeners (fun _ l => sl_worker l <> WNone -> bound s) s;
  so_given : all_listeners (fun _ l => sl_given l = true -> sl_worker l <> WNone) s;
  so_ready : sv_ready s = true -> sv_shutdown s = true \/ bound s;
  so_watch : match sv_watch s with
             | WatchSelect => True
             | WatchStopping => sv_shutdown s = true
             | WatchDone => sv_shutdown s = true \/ exists e, sv_serve s = ServeReturned e
             end
}.

(** ** Lemmas *)

Lemma alter_Some {A} (f : A -> A) k (L : list A) j x :
  alter f k L !! j = Some x -> exists y, L !! j = Some y /\ ((j = k /\ x = f y) \/ (j <> k /\ x = y)).
Proof.
  destruct (decide (j = k)) as [->|Hn].
  - rewrite list_lookup_alter_eq. destruct (L !! k) as [y|]; [|done]. intros [= <-]. eauto.
  - rewrite list_lookup_alter_ne by done. eauto.
Qed.

(** ** The steps as a relation *)

Definition open_socket (l : SListener) : SListener := mkSListener (sl_cfg l) (sl_net l) true (sl_given l) (sl_stopped l) (sl_worker l).
Definition publish (addr : string) (l : SListener) : SListener := mkSListener (sl_cfg l) (Some addr) (sl_open l) (sl_given l) (sl_stopped l) (sl_worker l).
Definition give (l : SListener) : SListener := mkSListener (sl_cfg l) (sl_net l) (sl_open l) true (sl_stopped l) WServing.
Definition stop_listener (l : SListener) : SListener :=
  mkSListener (sl_cfg l) (sl_net l) (sl_open l && negb (sl_given l)) (sl_given l) true (sl_worker l).

(** A library call may report a failure, which is kept if it is the first. *)
Definition note (f : string -> Serving -> Serving) (e : option string) (s : Serving) : Serving :=
  match e with Some e => f e s | None => s end.

Inductive moves (s : Serving) : Serving -> Prop :=
| mv_bind k l addr : sv_serve s = ServeBind k -> sv_listeners s !! k = Some l ->
    moves s (set_serve (ServePublish k addr) (alter_listener k open_socket s))
| mv_bind_fails k l e : sv_serve s = ServeBind k -> sv_listeners s !! k = Some l -> moves s (set_serve (ServeCleanup e) s)
| mv_all_bound k : sv_serve s = ServeBind k -> sv_listeners s !! k = None -> moves s (set_serve ServeMark s)
| mv_publish k addr : sv_serve s = ServePublish k addr -> moves s (set_serve (ServeBind (S k)) (alter_listener k (publish addr) s))
| mv_cleanup e : sv_serve s = ServeCleanup e -> moves s (set_serve (ServeCleaning e) (begin_shutdown ByServe s))
| mv_cleaned e : sv_serve s = ServeCleaning e -> returned ByServe s = true -> moves s (set_serve (ServeGiveUp e) s)
| mv_give_up e : sv_serve s = ServeGiveUp e -> moves s (set_serve (ServeReturned (Some e)) (markReady s))
| mv_mark : sv_serve s = ServeMark -> moves s (set_serve (ServeSpawn 0) (markReady s))
| mv_spawn k l : sv_serve s = ServeSpawn k -> sv_listeners s !! k = Some l ->
    moves s (set_serve (ServeSpawn (S k)) (alter_listener k (set_worker WStart) s))
| mv_spawned k : sv_serve s = ServeSpawn k -> sv_listeners s !! k = None -> moves s (set_serve ServeWait s)
| mv_return : sv_serve s = ServeWait -> all_listeners (fun _ l => sl_worker l = WDone) s -> moves s (set_serve (ServeReturned (sv_first s)) s)
| mv_watch_done e : sv_watch s = WatchSelect -> sv_serve s = ServeReturned e -> moves s (set_watch WatchDone s)
| mv_watch_stop : sv_watch s = WatchSelect -> sv_context s = true -> moves s (set_watch WatchStopping (begin_shutdown ByContext s))
| mv_watch_end : sv_watch s = WatchStopping -> returned ByContext s = true -> moves s (set_watch WatchDone s)
| mv_worker_unbound k l : sv_listeners s !! k = Some l -> sl_worker l = WStart -> sl_net l = None ->
    moves s (alter_listener k (set_worker WDone) s)
| mv_worker_bound k l addr : sv_listeners s !! k = Some l -> sl_worker l = WStart -> sl_net l = Some addr ->
    moves s (alter_listener k (set_worker WCall) s)
| mv_worker_serve k l : sv_listeners s !! k = Some l -> sl_worker l = WCall -> moves s (alter_listener k give s)
| mv_worker_done k l e : sv_listeners s !! k = Some l -> sl_worker l = WServing ->
    moves s (note set_first e (alter_listener k (set_worker WDone) s))
| mv_stop_cancel who : sv_stop s = StopCancel who -> moves s (set_stop (StopReady who) (set_canceled s))
| mv_stop_ready who : sv_stop s = StopReady who -> moves s (set_stop (StopLoop who 0) (markReady s))
| mv_stop_end who k : sv_stop s = StopLoop who k -> sv_listeners s !! k = None -> moves s (set_stop (StopDone who) s)
| mv_stop_skip who k l : sv_stop s = StopLoop who k -> sv_listeners s !! k = Some l -> sl_net l = None ->
    moves s (set_stop (StopLoop who (S k)) s)
| mv_stop_call who k l addr e : sv_stop s = StopLoop who k -> sv_listeners s !! k = Some l -> sl_net l = Some addr ->
    moves s (note set_stop_error e (set_stop (StopLoop who (S k)) (alter_listener k stop_listener s)))
| mv_context : moves s (set_context s)
| mv_shutdown : moves s (begin_shutdown ByOther s).

Lemma serving_step_moves a s s' : serving_step a s = Some s' -> moves s s'.
Proof.
  destruct a; simpl.
  - unfold serve_step. destruct (sv_serve s) as [k|k addr|e|e|e| |k| |e] eqn:Hp; try (intros [= <-]; by econstructor).
    + destruct (_ !! k) as [l|] eqn:Hl; [destruct (bind _ _ _)|]; intros [= <-]; by econstructor.
    + destruct (returned ByServe s) eqn:Hr; [|done]. intros [= <-]. by econstructor.
    + destruct (_ !! k) as [l|] eqn:Hl; intros [= <-]; by econstructor.
    + destruct (forallb _ _) eqn:Hf; [|done]. intros [= <-]. constructor; [done|]. intros j l Hl.
      eapply forallb_forall in Hf; [|by eapply list_elem_of_In, list_elem_of_lookup_2]. by destruct (sl_worker l).
  - unfold watch_step. destruct (sv_watch s) eqn:Hw; [|destruct (returned ByContext s) eqn:Hr; [|done]; intros [= <-]; by econstructor|done].
    destruct (_ && _) eqn:Hr; [|destruct (sv_context s) eqn:Hc; [|done]; intros [= <-]; by econstructor].
    intros [= <-]. destruct (sv_serve s) eqn:Hp; try done. by econstructor.
  - unfold worker_step. destruct (_ !! k) as [l|] eqn:Hl; [|done]. destruct (sl_worker l) eqn:Hw; try done.
    + destruct (sl_net l) eqn:Hn; intros [= <-]; by econstructor.
    + intros [= <-]. by econstructor.
    + intros [= <-]. destruct (failure r) as [e|].
      * by apply (mv_worker_done s k l (Some _)).
      * by apply (mv_worker_done s k l None).
  - unfold stop_step. destruct (sv_stop s) as [|who|who|who k|who] eqn:Hp; try done; try (intros [= <-]; by econstructor).
    destruct (_ !! k) as [l|] eqn:Hl; [destruct (sl_net l) eqn:Hn|]; intros [= <-]; [by eapply (mv_stop_call s who k l)|by econstructor..].
  - intros [= <-]. constructor.
  - intros [= <-]. constructor.
Qed.

(** What one step may do to listener [j]. *)
Inductive listener_change (s s' : Serving) (j : nat) (l : SListener) : SListener -> Prop :=
| lc_same : listener_change s s' j l l
| lc_open : sv_serve s = ServeBind j -> listener_change s s' j l (open_socket l)
| lc_publish addr : sv_serve s = ServePublish j addr -> listener_change s s' j l (publish addr l)
| lc_spawn : sv_serve s = ServeSpawn j -> sv_serve s' = ServeSpawn (S j) -> listener_change s s' j l (set_worker WStart l)
| lc_unbound : sl_worker l = WStart -> sl_net l = None -> listener_change s s' j l (set_worker WDone l)
| lc_done : sl_worker l = WServing -> listener_change s s' j l (set_worker WDone l)
| lc_call : sl_worker l = WStart -> listener_change s s' j l (set_worker WCall l)
| lc_give : sl_worker l = WCall -> listener_change s s' j l (give l)
| lc_stop who : is_Some (sl_net l) -> sv_stop s = StopLoop who j -> sv_stop s' = StopLoop who (S j) ->
    listener_change s s' j l (stop_listener l).

Lemma moves_listener s s' j l' :
  moves s s' -> sv_listeners s' !! j = Some l' -> exists l, sv_listeners s !! j = Some l /\ listener_change s s' j l l'.
Proof.
  intros Hm Hl. destruct Hm; unfold note, begin_shutdown in *;
    try (destruct (sv_shutdown s)); try match goal with e : option string |- _ => destruct e end; simpl in Hl;
    try (exists l'; by split; [|constructor]);
    (apply alter_Some in Hl as (y & Hy & [[-> ->]|[? ->]]); [exists y; split; [done|]|exists y; by split; [|constructor]]); simplify_eq.
  all: first [by eapply lc_open|by eapply lc_publish|by eapply lc_spawn|by eapply lc_unbound|by eapply lc_done|by eapply lc_call|by eapply lc_give|idtac].
  all: eapply lc_stop; simpl; eauto.
Qed.

(** ** The invariant *)

Section Preserved.
Context (s s' : Serving) (Hm : moves s s').

Lemma moves_net (P : nat -> Prop) :
  all_listeners (fun j l => P j -> is_Some (sl_net l)) s -> all_listeners (fun j l => P j -> is_Some (sl_net l)) s'.
Proof.
  intros Hb j l' Hl Hj. destruct (moves_listener s s' j l' Hm Hl) as (l & Hl0 & Hc). specialize (Hb j l Hl0 Hj). destruct Hc; simpl; eauto.
Qed.

Lemma moves_bound : bound s -> bound s'.
Proof. intros Hb j l Hl. by eapply (moves_net (fun _ => True)); [intros ????; eapply Hb|..]. Qed.

Lemma moves_shutdown : sv_shutdown s = true -> sv_shutdown s' = true.
Proof. intros Hs. destruct Hm; unfold begin_shutdown; rewrite ?Hs; simpl; try done; by destruct e. Qed.

Lemma moves_flag : (sv_shutdown s = false <-> sv_stop s = StopIdle) -> (sv_shutdown s' = false <-> sv_stop s' = StopIdle).
Proof. intros Hf. destruct Hm; unfold begin_shutdown, note; simpl; repeat case_match; simpl; intuition congruence. Qed.

Lemma serve_bound_keeps p : serve_bound p s -> serve_bound p s'.
Proof.
  destruct p; simpl; auto using moves_bound, moves_shutdown; apply moves_net.
Qed.

Context (Hok : serving_ok s).

Lemma begin_shutdown_serve who : sv_serve (begin_shutdown who s) = sv_serve s /\ sv_shutdown (begin_shutdown who s) = true.
Proof. unfold begin_shutdown. by destruct (sv_shutdown s) eqn:E. Qed.

Lemma moves_serve_bound : serve_bound (sv_serve s') s'.
Proof.
  pose proof (so_bound _ Hok) as Hb. pose proof (serve_bound_keeps (sv_serve s) Hb) as Hk.
  destruct Hm; try exact Hk; rewrite ?H in *; simpl in *; try done.
  - intros j x Hx. apply (Hb j x Hx). apply lookup_lt_Some in Hx. apply lookup_ge_None in H0. simpl in Hx. lia.
  - intros j x Hx Hj. apply alter_Some in Hx as (y & Hy & [[-> ->]|[? ->]]); [by eexists|]. apply (Hb j y Hy). lia.
  - apply begin_shutdown_serve.
  - by rewrite (proj1 (begin_shutdown_serve ByContext)).
  - by destruct e.
  - by destruct e.
  - by rewrite (proj1 (begin_shutdown_serve ByOther)).
Qed.

Lemma moves_unspawned j : unspawned (sv_serve s') j -> unspawned (sv_serve s) j.
Proof.
  destruct Hm; rewrite ?H; simpl; try done; try lia; rewrite ?(proj1 (begin_shutdown_serve _)); try done; by destruct e.
Qed.

Lemma moves_ready : sv_ready s' = true -> sv_shutdown s' = true \/ bound s'.
Proof.
  pose proof (so_ready _ Hok) as Hr. pose proof (so_bound _ Hok) as Hb. pose proof (so_flag _ Hok) as Hf.
  assert (sv_ready s = true -> sv_shutdown s' = true \/ bound s') as Hk.
  { intros H. destruct (Hr H); auto using moves_shutdown, moves_bound. }
  destruct Hm; rewrite ?H in *; simpl in *; try exact Hk; auto.
  - intros _. left. apply begin_shutdown_serve.
  - intros _. left. apply begin_shutdown_serve.
  - by destruct e.
  - intros _. left. destruct (sv_shutdown s); [done|]. by discriminate (proj1 Hf eq_refl).
  - by destruct e.
  - intros _. left. apply begin_shutdown_serve.
Qed.

Lemma moves_watch :
  match sv_watch s' with
  | WatchSelect => True
  | WatchStopping => sv_shutdown s' = true
  | WatchDone => sv_shutdown s' = true \/ exists e, sv_serve s' = ServeReturned e
  end.
Proof.
  pose proof (so_watch _ Hok) as Hw. pose proof moves_shutdown as Hs.
  assert (forall e, sv_serve s = ServeReturned e -> sv_serve s' = ServeReturned e) as Hret.
  { intros e He. destruct Hm; rewrite ?He in *; try done; try congruence; simpl; rewrite ?(proj1 (begin_shutdown_serve _)); try done; by destruct e0. }
  assert (sv_watch s' = sv_watch s -> match sv_watch s' with
    | WatchSelect => True
    | WatchStopping => sv_shutdown s' = true
    | WatchDone => sv_shutdown s' = true \/ exists e, sv_serve s' = ServeReturned e
    end) as Hkeep.
  { intros ->. destruct (sv_watch s); [done|auto|]. destruct Hw as [Hw|[e He]]; eauto. }
  destruct Hm; try (apply Hkeep; simpl; unfold begin_shutdown, note; by repeat case_match); simpl.
  - eauto.
  - apply begin_shutdown_serve.
  - rewrite H in Hw. auto.
Qed.

Lemma serving_ok_moves : serving_ok s'.
Proof.
  split.
  - apply moves_flag, Hok.
  - apply moves_serve_bound.
  - intros j l' Hl Hu'. pose proof (moves_unspawned j Hu') as Hu. destruct (moves_listener s s' j l' Hm Hl) as (l & Hl0 & Hc).
    pose proof (so_unspawned _ Hok j l Hl0 Hu) as Hn. destruct Hc as [| | |Hs Hs'| | | | |]; simpl; try congruence.
    rewrite Hs' in Hu'. simpl in Hu'. lia.
  - intros j l' Hl Hw. apply moves_bound. destruct (moves_listener s s' j l' Hm Hl) as (l & Hl0 & Hc).
    pose proof (so_workers _ Hok j l Hl0) as Hb. destruct Hc as [| | |Hs Hs'| | | | |]; simpl in *; try (by apply Hb); try (apply Hb; congruence).
    pose proof (so_bound _ Hok) as Hbb. by rewrite Hs in Hbb.
  - intros j l' Hl. destruct (moves_listener s s' j l' Hm Hl) as (l & Hl0 & Hc). pose proof (so_given _ Hok j l Hl0) as Hg. by destruct Hc.
  - apply moves_ready.
  - apply moves_watch.
Qed.
End Preserved.

Lemma serving_ok_run acts s s' : serving_ok s -> serving_run acts s = Some s' -> serving_ok s'.
Proof.
  revert s. induction acts as [|a acts IH]; intros s Hok; simpl; [by intros [= <-]|].
  destruct (serving_step a s) as [s1|] eqn:Hs; [|done]. apply IH. by eapply serving_ok_moves; [eapply serving_step_moves|].
Qed.

Lemma serving_ok_start addresses : serving_ok (serving_start addresses).
Proof.
  split; simpl; try done.
  - intros j l _ ?. lia.
  - intros j l. simpl. rewrite list_lookup_fmap, fmap_Some. by intros (a & _ & ->).
  - intros j l. simpl. rewrite list_lookup_fmap, fmap_Some. by intros (a & _ & ->).
  - intros j l. simpl. rewrite list_lookup_fmap, fmap_Some. by intros (a & _ & ->).
Qed.

Lemma moves_length s s' : moves s s' -> length (sv_listeners s') = length (sv_listeners s).
Proof. intros Hm. destruct Hm; unfold begin_shutdown, note; repeat case_match; simpl; by rewrite ?length_alter. Qed.

Lemma run_length acts s s' : serving_run acts s = Some s' -> length (sv_listeners s') = length (sv_listeners s).
Proof.
  revert s. induction acts as [|a acts IH]; intros s; simpl; [by intros [= <-]|].
  destruct (serving_step a s) as [s1|] eqn:Hs; [|done]. intros Hr. rewrite (IH _ Hr). by eapply moves_length, serving_step_moves.
Qed.

(** ** Coming to rest *)

Definition worker_rank (p : WorkerPc) : nat :=
  match p with WNone => 4 | WStart => 3 | WCall => 2 | WServing => 1 | WDone => 0 end.

Definition watch_rank (p : WatchPc) : nat := match p with WatchSelect => 2 | WatchStopping => 1 | WatchDone => 0 end.

Definition stop_rank (n : nat) (p : StopPc) : nat :=
  match p with StopIdle => n + 4 | StopCancel _ => n + 3 | StopReady _ => n + 2 | StopLoop _ k => 1 + (n - k) | StopDone _ => 0 end.

Definition serve_rank (n : nat) (p : ServePc) : nat :=
  match p with
  | ServeBind k => 5 * n + 4 + 2 * (n - k)
  | ServePublish k _ => 5 * n + 5 + 2 * (n - S k)
  | ServeMark => 5 * n + 3
  | ServeSpawn k => 2 + 5 * (n - k)
  | ServeCleanup _ => 3
  | ServeCleaning _ => 2
  | ServeGiveUp _ | ServeWait => 1
  | ServeReturned _ => 0
  end.

Definition workers_rank (L : list SListener) : nat := sum_list_with (fun l => worker_rank (sl_worker l)) L.

(** How many steps the goroutines can still take. *)
Definition steps_left (s : Serving) : nat :=
  let n := length (sv_listeners s) in
  serve_rank n (sv_serve s) + watch_rank (sv_watch s) + stop_rank n (sv_stop s) + workers_rank (sv_listeners s).

(** Steps of the server itself, as opposed to what others ask of it. *)
Definition internal (a : Action) : bool := match a with CancelContext | CallShutdown => false | _ => true end.

Lemma workers_rank_alter k f L l :
  L !! k = Some l -> workers_rank (alter f k L) + worker_rank (sl_worker l) = workers_rank L + worker_rank (sl_worker (f l)).
Proof.
  unfold workers_rank. revert k. induction L as [|x L IH]; intros [|k]; simpl; [done..| |].
  - intros [= ->]. lia.
  - intros Hk. specialize (IH k Hk). unfold alter in *. cbn [list_alter sum_list_with]. lia.
Qed.

Lemma workers_rank_same k f L : (forall l, sl_worker (f l) = sl_worker l) -> workers_rank (alter f k L) = workers_rank L.
Proof.
  intros Hf. destruct (L !! k) as [l|] eqn:Hl; [|f_equal; apply list_eq; intros i; destruct (decide (i = k)) as [->|]; [by rewrite list_lookup_alter_eq, Hl|by rewrite list_lookup_alter_ne]].
  pose proof (workers_rank_alter k f L l Hl). rewrite Hf in *. lia.
Qed.

Lemma steps_left_stop s who : serving_ok s ->
  stop_rank (length (sv_listeners s)) (sv_stop (begin_shutdown who s)) <= stop_rank (length (sv_listeners s)) (sv_stop s)
  /\ sv_listeners (begin_shutdown who s) = sv_listeners s /\ sv_serve (begin_shutdown who s) = sv_serve s
  /\ sv_watch (begin_shutdown who s) = sv_watch s.
Proof.
  intros Hok. pose proof (so_flag _ Hok) as Hf. unfold begin_shutdown. destruct (sv_shutdown s); [done|]. rewrite (proj1 Hf eq_refl). simpl. split_and!; [lia|done..].
Qed.

Lemma serve_step_rank listen wrap s s' : serving_ok s -> serve_step listen wrap s = Some s' -> steps_left s' < steps_left s.
Proof.
  intros Hok. unfold serve_step, steps_left. destruct (sv_serve s) as [k|k addr|e|e|e| |k| |e] eqn:Hp.
  - destruct (_ !! k) as [l|] eqn:Hl.
    + apply lookup_lt_Some in Hl as Hlt. destruct (bind _ _ _); intros [= <-]; simpl; rewrite ?length_alter, ?workers_rank_same by done; lia.
    + intros [= <-]. simpl. lia.
  - intros [= <-]. simpl. rewrite length_alter, workers_rank_same by done. lia.
  - intros [= <-]. simpl. destruct (steps_left_stop s ByServe Hok) as (H1 & -> & _ & ->). lia.
  - destruct (returned ByServe s); [|done]. intros [= <-]. simpl. lia.
  - intros [= <-]. simpl. lia.
  - intros [= <-]. simpl. lia.
  - destruct (_ !! k) as [l|] eqn:Hl; intros [= <-]; simpl; [|lia]. apply lookup_lt_Some in Hl as Hlt. rewrite length_alter.
    pose proof (workers_rank_alter k (set_worker WStart) _ l Hl) as Hr. simpl in Hr. lia.
  - destruct (forallb _ _); [|done]. intros [= <-]. simpl. lia.
  - done.
Qed.

Lemma internal_step_rank a s s' : serving_ok s -> internal a = true -> serving_step a s = Some s' -> steps_left s' < steps_left s.
Proof.
  intros Hok Hi. destruct a; simpl; [by apply serve_step_rank| | | |done..].
  - unfold watch_step, steps_left. destruct (sv_watch s) eqn:Hw.
    + destruct (_ && _); [intros [= <-]; simpl; lia|]. destruct (sv_context s); [|done]. intros [= <-]. simpl.
      destruct (steps_left_stop s ByContext Hok) as (H1 & -> & -> & _). lia.
    + destruct (returned ByContext s); [|done]. intros [= <-]. simpl. lia.
    + done.
  - unfold worker_step, steps_left. destruct (_ !! k) as [l|] eqn:Hl; [|done].
    assert (forall p f, worker_rank p < worker_rank (sl_worker l) -> (forall l, sl_worker (f l) = p) ->
      workers_rank (alter f k (sv_listeners s)) < workers_rank (sv_listeners s)) as Hdec.
    { intros p f Hp Hf. pose proof (workers_rank_alter k f _ l Hl) as Hr. rewrite Hf in Hr. lia. }
    destruct (sl_worker l) eqn:Hw; try done.
    + destruct (sl_net l); intros [= <-]; simpl; rewrite length_alter;
        [pose proof (Hdec WCall (set_worker WCall) ltac:(simpl; lia) ltac:(done))|pose proof (Hdec WDone (set_worker WDone) ltac:(simpl; lia) ltac:(done))]; lia.
    + intros [= <-]. simpl. rewrite length_alter. pose proof (Hdec WServing give ltac:(simpl; lia) ltac:(done)) as Hd. unfold give in Hd. lia.
    + intros [= <-]. pose proof (Hdec WDone (set_worker WDone) ltac:(simpl; lia) ltac:(done)) as Hd.
      destruct (failure r); simpl; rewrite length_alter; lia.
  - unfold stop_step, steps_left. destruct (sv_stop s) as [|who|who|who k|who] eqn:Hp; try done; try (intros [= <-]; simpl; lia).
    destruct (_ !! k) as [l|] eqn:Hl; [|intros [= <-]; simpl; lia]. apply lookup_lt_Some in Hl.
    destruct (sl_net l); [|intros [= <-]; simpl; lia]. intros [= <-].
    destruct (failure r); simpl; rewrite length_alter, workers_rank_same by done; lia.
Qed.

Lemma external_step_rank a s s' : serving_ok s -> internal a = false -> serving_step a s = Some s' -> steps_left s' <= steps_left s.
Proof.
  intros Hok Hi. destruct a; simpl; try done; intros [= <-]; unfold steps_left; [done|].
  destruct (steps_left_stop s ByOther Hok) as (H1 & -> & -> & ->). lia.
Qed.

Lemma run_rank acts s s' : serving_ok s -> serving_run acts s = Some s' ->
  length (base.filter (fun a => internal a = true) acts) + steps_left s' <= steps_left s.
Proof.
  revert s. induction acts as [|a acts IH]; intros s Hok; simpl; [by intros [= <-]|].
  destruct (serving_step a s) as [s1|] eqn:Hs; [|done]. intros Hr.
  specialize (IH s1 (serving_ok_moves _ _ (serving_step_moves _ _ _ Hs) Hok) Hr). rewrite filter_cons. destruct (internal a) eqn:Hi; simpl.
  - pose proof (internal_step_rank a s s1 Hok Hi Hs). lia.
  - pose proof (external_step_rank a s s1 Hok Hi Hs). lia.
Qed.

Lemma steps_left_start addresses : steps_left (serving_start addresses) = 12 * length addresses + 10.
Proof.
  unfold steps_left. simpl. rewrite length_fmap. assert (workers_rank (new_listener <$> addresses) = 4 * length addresses) as ->; [|lia].
  unfold workers_rank. induction addresses as [|a l IH]; [done|]. rewrite fmap_cons. cbn [sum_list_with length]. rewrite IH. simpl. lia.
Qed.

(** ** An orderly shutdown *)

(** The server is up: the library serves every socket, or did. *)
Definition up (l : SListener) : Prop :=
  is_Some (sl_net l) /\ sl_given l = true /\ (sl_worker l = WServing \/ sl_worker l = WDone).

Definition stopped_closed (l : SListener) : Prop := sl_stopped l = true /\ sl_open l = false.

(** How far a shutdown that began when the server was up has come. *)
Record orderly (s : Serving) : Prop := mkOrderly {
  od_ok : serving_ok s;
  od_up : all_listeners (fun _ l => up l) s;
  od_serve : match sv_serve s with ServeSpawn k => length (sv_listeners s) <= k | ServeWait | ServeReturned _ => True | _ => False end;
  od_stop : match sv_stop s with
            | StopLoop _ k => all_listeners (fun j l => j < k -> stopped_closed l) s
            | StopDone _ => all_listeners (fun _ l => stopped_closed l) s
            | _ => True
            end
}.

(** No goroutine can go on; the library's [Serve] returns once its server was
    shut down. *)
Record at_rest (s : Serving) : Prop := mkAtRest {
  ar_serve : forall listen wrap, serve_step listen wrap s = None;
  ar_watch : forall b, watch_step b s = None;
  ar_stop : forall r, stop_step r s = None;
  ar_workers : all_listeners (fun k l => (forall r, worker_step k r s = None) \/ (sl_worker l = WServing /\ sl_stopped l = false)) s
}.

Lemma up_moves s s' : orderly s -> moves s s' -> all_listeners (fun _ l => up l) s'.
Proof.
  intros [Hok Hup Hp _] Hm j l' Hl. destruct (moves_listener s s' j l' Hm Hl) as (l & Hl0 & Hc). apply lookup_lt_Some in Hl0 as Hlt.
  pose proof (Hup j l Hl0) as (Hn & Hg & Hw). destruct Hc as [|H|addr H|H H'|H|H|H|H|who H]; try (unfold up; simpl; by auto); try (rewrite H in Hp; simpl in Hp; try done; lia); exfalso;
    destruct Hw; congruence.
Qed.

Lemma stop_moves s s' : orderly s -> moves s s' ->
  match sv_stop s' with
  | StopLoop _ k => all_listeners (fun j l => j < k -> stopped_closed l) s'
  | StopDone _ => all_listeners (fun _ l => stopped_closed l) s'
  | _ => True
  end.
Proof.
  intros Hod Hm. assert (forall (P : nat -> Prop), all_listeners (fun j l => P j -> stopped_closed l) s -> all_listeners (fun j l => P j -> stopped_closed l) s') as Hkeep.
  { intros P Hs j l' Hl Hj. destruct (moves_listener s s' j l' Hm Hl) as (l & Hl0 & Hc). destruct (Hs j l Hl0 Hj) as [H1 H2].
    pose proof (od_serve _ Hod) as Hp.
    destruct Hc as [|H|addr H|H H'|H|H|H|H|who H]; try done; [by rewrite H in Hp|]. split; simpl; [done|]. by rewrite H2. }
  pose proof (od_stop _ Hod) as Hs.
  assert (sv_stop s' = sv_stop s -> match sv_stop s' with
    | StopLoop _ k => all_listeners (fun j l => j < k -> stopped_closed l) s'
    | StopDone _ => all_listeners (fun _ l => stopped_closed l) s'
    | _ => True
    end) as Hsame.
  { intros ->. destruct (sv_stop s); try done; [by apply Hkeep|]. intros j l Hl. exact (Hkeep (fun _ => True) (fun j l Hl _ => Hs j l Hl) j l Hl I). }
  assert (forall who, sv_stop (begin_shutdown who s) = sv_stop s \/ sv_stop (begin_shutdown who s) = StopCancel who) as Hb
    by (intros who; unfold begin_shutdown; destruct (sv_shutdown s); auto).
  destruct Hm as [| | | | | | | | | | | | | | | | |k l e|who Hw|who Hw|who k Hw Hn|who k l Hw Hl Hn|who k l addr e Hw Hl Hn| |]; try (by apply Hsame).
  - destruct (Hb ByServe) as [H'|H']; [by apply Hsame|]. cbn [set_serve sv_stop]. by rewrite H'.
  - destruct (Hb ByContext) as [H'|H']; [by apply Hsame|]. cbn [set_watch sv_stop]. by rewrite H'.
  - destruct e; by apply Hsame.
  - done.
  - intros j x _ ?. lia.
  - rewrite Hw in Hs. intros j x Hx. apply (Hs j x Hx). apply lookup_lt_Some in Hx. apply lookup_ge_None in Hn. simpl in Hx. lia.
  - destruct (od_up _ Hod k l Hl) as ([? ?] & _). congruence.
  - rewrite Hw in Hs. assert (sv_stop (note set_stop_error e (set_stop (StopLoop who (S k)) (alter_listener k stop_listener s))) = StopLoop who (S k)) as -> by (by destruct e).
    intros j x Hx Hj. destruct (decide (j = k)) as [->|Hne]; [|apply (Hkeep _ Hs j x Hx); lia].
    assert (x = stop_listener l) as ->.
    { assert (alter stop_listener k (sv_listeners s) !! k = Some x) as Hx' by (by destruct e). rewrite list_lookup_alter_eq, Hl in Hx'. by injection Hx'. }
    destruct (od_up _ Hod k l Hl) as (_ & Hg & _). split; simpl; [done|]. rewrite Hg. apply andb_false_r.
  - destruct (Hb ByOther) as [H'|H']; [by apply Hsame|]. by rewrite H'.
Qed.

Lemma serve_moves s s' : orderly s -> moves s s' ->
  match sv_serve s' with ServeSpawn k => length (sv_listeners s') <= k | ServeWait | ServeReturned _ => True | _ => False end.
Proof.
  intros Hod Hm. rewrite (moves_length s s' Hm). pose proof (od_serve _ Hod) as Hp.
  destruct Hm; try exact Hp; try (by rewrite H in Hp); try done; unfold begin_shutdown, note; try (by destruct (sv_shutdown s)); try (by destruct e).
  - rewrite H in Hp. simpl. lia.
Qed.

Lemma orderly_run acts s s' : orderly s -> serving_run acts s = Some s' -> orderly s'.
Proof.
  revert s. induction acts as [|a acts IH]; intros s Hod; simpl; [by intros [= <-]|].
  destruct (serving_step a s) as [s1|] eqn:Hs; [|done]. apply serving_step_moves in Hs. apply IH.
  split; [by eapply serving_ok_moves; [|apply Hod]|by eapply up_moves|by eapply serve_moves|by eapply stop_moves].
Qed.

(** An orderly shutdown at rest is complete. *)
Lemma orderly_rest s :
  orderly s -> at_rest s -> sv_shutdown s = true \/ sv_context s = true ->
  (exists e, sv_serve s = ServeReturned e) /\ (sv_shutdown s = true -> all_listeners (fun _ l => stopped_closed l) s).
Proof.
  intros [Hok Hup Hp Hst] [Hrs Hrw Hrt Hrk] Hdown.
  assert (sv_shutdown s = true -> all_listeners (fun _ l => stopped_closed l) s) as Hall.
  { intros Hsd. specialize (Hrt None). unfold stop_step in Hrt. destruct (sv_stop s) as [| | |? k|] eqn:Hstop; try done.
    - by rewrite (proj2 (so_flag _ Hok) Hstop) in Hsd.
    - destruct (_ !! k) as [l|]; [by destruct (sl_net l)|done]. }
  split; [|done].
  assert (sv_shutdown s = true -> exists e, sv_serve s = ServeReturned e) as Hret.
  { intros Hsd. specialize (Hrs (Err "") (Err "")). unfold serve_step in Hrs. destruct (sv_serve s) as [| | | | | |k| |e] eqn:Hserve; try done; [| |by eauto].
    - by destruct (_ !! k).
    - destruct (forallb _ _) eqn:Hf; [done|]. exfalso. apply not_true_iff_false in Hf. apply Hf, forallb_forall.
      intros l (k & Hk)%list_elem_of_In%list_elem_of_lookup. destruct (Hall Hsd k l Hk) as [Hstopped _].
      destruct (Hup k l Hk) as (_ & _ & [Hw| ->]); [|done]. destruct (Hrk k l Hk) as [Hn|[_ Hns]]; [|congruence].
      specialize (Hn None). unfold worker_step in Hn. by rewrite Hk, Hw in Hn. }
  destruct Hdown as [Hsd|Hctx]; [by apply Hret|]. pose proof (so_watch _ Hok) as Hw. pose proof (Hrw false) as Hn. unfold watch_step in Hn.
  destruct (sv_watch s); [|by apply Hret|by destruct Hw; auto].
  destruct (_ && _); [done|]. by rewrite Hctx in Hn.
Qed.

(** ** Properties *)

(** C21: the server never serves half of its ports, and its goroutines always
    come to rest. Whatever order they run in, whatever the kernel and the SMTP
    library answer and whenever somebody cancels or calls [Shutdown]: the
    library is given a socket only once every listener is bound; when [Ready]
    is signalled and nobody has shut the server down, [Addresses] has an
    address per listener; and together the goroutines take at most twelve
    steps per listener and ten more. *)
Theorem serving_is_all_or_nothing addresses acts s :
  serving_run acts (serving_start addresses) = Some s ->
  (forall j l, sv_listeners s !! j = Some l -> sl_given l = true -> bound s)
  /\ (sv_ready s = true -> sv_shutdown s = false -> length (Addresses s) = length addresses)
  /\ length (base.filter (fun a => internal a = true) acts) <= 12 * length addresses + 10.
Proof.
  intros Hr. pose proof (serving_ok_run acts _ s (serving_ok_start addresses) Hr) as Hok. split_and!.
  - intros j l Hl Hg. by eapply (so_workers _ Hok), (so_given _ Hok).
  - intros Hready Hns. destruct (so_ready _ Hok Hready) as [|Hb]; [congruence|]. rewrite <-(length_fmap new_listener addresses).
    change (new_listener <$> addresses) with (sv_listeners (serving_start addresses)). rewrite <-(run_length _ _ _ Hr).
    unfold Addresses, bound, all_listeners in *. induction (sv_listeners s) as [|l L IH]; [done|]. simpl.
    destruct (Hb 0 l eq_refl) as [addr ->]. simpl. f_equal. apply IH. intros j x Hx. exact (Hb (S j) x Hx).
  - pose proof (run_rank acts _ s (serving_ok_start addresses) Hr) as H. rewrite steps_left_start in H. lia.
Qed.

(** C22: an orderly shutdown completes. When the library serves every listener
    and then, in whatever order things happen, somebody calls [Shutdown] or the
    context of [Serve] is canceled, then once no goroutine can go on, [Serve]
    has returned, and if the server was shut down, the library's server of
    every listener was shut down with its socket closed. The library's [Serve]
    is taken to return, as documented, once its server was shut down. *)
Theorem orderly_shutdown_completes addresses before acts s s' :
  addresses <> [] -> serving_run before (serving_start addresses) = Some s -> all_listeners (fun _ l => up l) s -> sv_shutdown s = false ->
  serving_run acts s = Some s' -> at_rest s' -> sv_shutdown s' = true \/ sv_context s' = true ->
  (exists e, sv_serve s' = ServeReturned e) /\ (sv_shutdown s' = true -> all_listeners (fun _ l => stopped_closed l) s').
Proof.
  intros Hne Hb Hup Hns Hr Hrest Hdown. pose proof (serving_ok_run before _ s (serving_ok_start addresses) Hb) as Hok.
  assert (forall p l, sv_serve s = p -> sv_listeners s !! 0 = Some l -> ~ unspawned p 0) as Hp.
  { intros p l <- Hl Hu. pose proof (so_unspawned _ Hok 0 l Hl Hu) as Hw. destruct (Hup 0 l Hl) as (_ & _ & [?|?]); congruence. }
  destruct (sv_listeners s !! 0) as [l0|] eqn:Hl0; [specialize (Hp _ l0 eq_refl eq_refl)|].
  2: { apply lookup_ge_None in Hl0. rewrite (run_length _ _ _ Hb) in Hl0. simpl in Hl0. rewrite length_fmap in Hl0. destruct addresses; simpl in Hl0; [done|lia]. }
  apply orderly_rest; [|done|done]. eapply orderly_run; [|exact Hr]. split; [done|done| |].
  - pose proof (so_unspawned _ Hok) as Hu. destruct (sv_serve s) as [| | | | | |k| |]; try done; try (by destruct Hp).
    apply lookup_ge_None, eq_None_not_Some. intros [l Hl]. destruct (Hup k l Hl) as (_ & _ & Hw). rewrite (Hu k l Hl) in Hw by (simpl; lia). by destruct Hw.
  - by rewrite (proj1 (so_flag _ Hok) Hns).
Qed.

(** *** Listeners that a shutdown does not reach *)

(** The loop of [Shutdown] has passed listener [k] without stopping it. *)
Definition passed (k : nat) (s : Serving) : Prop :=
  sv_shutdown s = true
  /\ match sv_stop s with StopLoop _ i => k < i | StopDone _ => True | _ => False end
  /\ exists l, sv_listeners s !! k = Some l /\ sl_stopped l = false.

Lemma passed_moves k s s' : passed k s -> moves s s' -> passed k s'.
Proof.
  intros (Hsd & Hstop & l & Hl & Hns) Hm. split_and!.
  - by eapply moves_shutdown.
  - destruct Hm; try exact Hstop; unfold begin_shutdown, note; rewrite ?Hsd; try exact Hstop; try (by rewrite H in Hstop); try (by destruct e).
    + rewrite H in Hstop. simpl. lia.
    + rewrite H in Hstop. destruct e; simpl; lia.
  - destruct (sv_listeners s' !! k) as [l'|] eqn:Hl'.
    + exists l'. split; [done|]. destruct (moves_listener s s' k l' Hm Hl') as (l0 & Hl0 & Hc). assert (l0 = l) as -> by congruence.
      destruct Hc as [|H|addr H|H H'|H|H|H|H|who Hn H]; try done. rewrite H in Hstop. lia.
    + apply lookup_lt_Some in Hl. apply lookup_ge_None in Hl'. rewrite (moves_length _ _ Hm) in Hl'. lia.
Qed.

Lemma passed_run k acts s s' : passed k s -> serving_run acts s = Some s' -> passed k s'.
Proof.
  revert s. induction acts as [|a acts IH]; intros s Hp; simpl; [by intros [= <-]|].
  destruct (serving_step a s) as [s1|] eqn:Hs; [|done]. apply IH. by eapply passed_moves, serving_step_moves.
Qed.

(** The context is canceled before the only listener is bound. *)
Definition early_cancel : list Action :=
  [CancelContext; DoWatch false; DoStop None; DoStop None; DoStop None; DoStop None; DoWatch false]
  ++ [DoServe (Ok "127.0.0.1:587") (Ok tt); DoServe (Ok "") (Ok tt); DoServe (Ok "") (Ok tt); DoServe (Ok "") (Ok tt);
      DoServe (Ok "") (Ok tt); DoServe (Ok "") (Ok tt); DoWorker 0 None; DoWorker 0 None].

(** A shutdown that comes while [Serve] is binding misses the listeners bound
    after it: everything is at rest, [Serve] waits for a library server that
    serves an open socket, and whatever happens then, nothing shuts it down. *)
Theorem shutdown_can_miss_a_listener :
  exists s, serving_run early_cancel (serving_start ["127.0.0.1:587"]) = Some s
    /\ sv_stop s = StopDone ByContext /\ sv_serve s = ServeWait
    /\ sv_listeners s = [mkSListener "127.0.0.1:587" (Some "127.0.0.1:587") true true false WServing]
    /\ forall acts s', serving_run acts s = Some s' -> exists l, sv_listeners s' !! 0 = Some l /\ sl_stopped l = false.
Proof.
  eexists. split; [vm_compute; reflexivity|]. split; [done|]. split; [done|]. split; [done|]. intros acts s' Hr.
  eapply (passed_run 0) in Hr as (_ & _ & Hl); [exact Hl|]. split_and!; [done|done|]. by eexists.
Qed.

(** When a bind fails, the sockets bound before it stay open: [Serve] returns
    having shut down library servers that were never given a socket. *)
Definition second_bind_fails : list Action :=
  [DoServe (Ok "127.0.0.1:587") (Ok tt); DoServe (Ok "") (Ok tt); DoServe (Err "address in use") (Ok tt); DoServe (Ok "") (Ok tt);
   DoStop None; DoStop None; DoStop None; DoStop None; DoStop None; DoServe (Ok "") (Ok tt); DoServe (Ok "") (Ok tt)].

Lemma failed_bind_leaves_socket_open :
  match serving_run second_bind_fails (serving_start ["127.0.0.1:587"; "127.0.0.1:465"]) with
  | Some s => sv_serve s = ServeReturned (Some "smtpsrv: binding 127.0.0.1:465: address in use") /\ sv_stop s = StopDone ByServe
      /\ sv_listeners s = [mkSListener "127.0.0.1:587" (Some "127.0.0.1:587") true false true WNone; mkSListener "127.0.0.1:465" None false false false WNone]
  | None => False
  end.
Proof. vm_compute. by split_and!. Qed.

(** *** Witnesses *)

Definition start_up : list Action :=
  [DoServe (Ok "127.0.0.1:587") (Ok tt); DoServe (Ok "") (Ok tt); DoServe (Ok "") (Ok tt); DoServe (Ok "") (Ok tt);
   DoServe (Ok "") (Ok tt); DoServe (Ok "") (Ok tt); DoWorker 0 None; DoWorker 0 None].

Definition wind_down : list Action :=
  [CancelContext; DoWatch false; DoStop None; DoStop None; DoStop None; DoStop None; DoWatch false; DoWorker 0 (Some LibClosed); DoServe (Ok "") (Ok tt)].

Definition served : Serving := default (serving_start []) (serving_run start_up (serving_start ["127.0.0.1:587"])).
Definition stopped : Serving := default (serving_start []) (serving_run wind_down served).

Lemma serving_is_all_or_nothing_witness : sv_ready served = true /\ length (Addresses served) = 1.
Proof.
  split; [vm_compute; reflexivity|].
  refine (proj1 (proj2 (serving_is_all_or_nothing ["127.0.0.1:587"] start_up served _)) _ _); vm_compute; reflexivity.
Defined.

Lemma orderly_shutdown_completes_witness : sv_shutdown stopped = true /\ exists e, sv_serve stopped = ServeReturned e.
Proof.
  split; [vm_compute; reflexivity|].
  refine (proj1 (orderly_shutdown_completes ["127.0.0.1:587"] start_up wind_down served stopped _ _ _ _ _ _ _)).
  - done.
  - vm_compute. reflexivity.
  - intros [|[|j]] l Hl; [|done..]. vm_compute in Hl. injection Hl as <-. split_and!; [by eexists|done|by left].
  - vm_compute. reflexivity.
  - vm_compute. reflexivity.
  - split; [by intros|by intros []|by intros|]. intros [|[|j]] l Hl; [|done..]. left. by intros.
  - left. vm_compute. reflexivity.
Defined.
