(* ===== verification/AdminStore.v ===== *)
(** * Administrators and their sessions in the database

    [internal/store/{users,sessions}.go], with the constraints of the tables
    [admin_users] and [admin_sessions]. The two tables refer to no other one and
    are a database of their own here. [io] is the failure the driver reports for
    a statement; [HashSessionToken], SHA-256 in hexadecimal, is a parameter. *)

From stdpp Require Import base gmap strings list sorting.
From Stdlib Require Import ZArith Lia.
From S2P Require Import Prelude GoStrings StoreModels MessageStore Directory.

Open Scope Z_scope.

(** ** Rows *)

Inductive Role := RoleAdmin | RoleOperator | RoleViewer | RoleOther (name : string).

#[export] Instance Role_eq_dec : EqDecision Role.
Proof. solve_decision. Defined.

Record AdminUser := mkAdminUser {
  u_ID : string;
  u_Username : string;
  u_Email : string;
  u_DisplayName : string;
  u_PasswordHash : option string;
  u_Role : Role;
  u_Source : string;
  u_Subject : option string;
  u_TOTPSecretEnc : string;
  u_TOTPEnrolledAt : option Z;
  u_Disabled : bool;
  u_FailedLogins : Z;
  u_LockedUntil : option Z;
  u_LastLoginAt : option Z;
  u_CreatedAt : Z;
  u_UpdatedAt : Z
}.

Record Session := mkAdminSession {
  s_ID : string;
  s_UserID : string;
  s_TokenHash : string;
  s_CSRFToken : string;
  s_IP : string;
  s_UserAgent : string;
  s_CreatedAt : Z;
  s_LastSeenAt : Z;
  s_ExpiresAt : Z
}.

Record AdminDB := mkAdminDB {
  admin_users : gmap string AdminUser;
  admin_sessions : gmap string Session
}.

Definition empty_AdminDB : AdminDB := mkAdminDB ∅ ∅.

Definition SourceLocal : string := "local".
Definition SourceOIDC : string := "oidc".

(** [LockedAt], [CanSignIn] *)
Definition LockedAt (u : AdminUser) (now : Z) : bool :=
  match u_LockedUntil u with Some t => After t now | None => false end.

Definition CanSignIn (u : AdminUser) (now : Z) : bool := negb (u_Disabled u) && negb (LockedAt u now).

(** [t.Sub(u)]: a duration saturates. *)
Definition Sub (t u : Z) : Z := Z.max min_int64 (Z.min max_int64 (t - u)).

(** ** Users *)

Definition user_defaults (now : Z) (newID : string) (u : AdminUser) : AdminUser :=
  mkAdminUser (if bool_decide (u_ID u = "") then newID else u_ID u)
    (u_Username u) (u_Email u) (u_DisplayName u) (u_PasswordHash u) (u_Role u)
    (if bool_decide (u_Source u = "") then SourceLocal else u_Source u) (u_Subject u)
    (u_TOTPSecretEnc u) (u_TOTPEnrolledAt u) (u_Disabled u) (u_FailedLogins u)
    (u_LockedUntil u) (u_LastLoginAt u) now now.

Definition known_role (r : Role) : bool := match r with RoleOther _ => false | _ => true end.
Definition known_source (s : string) : bool := bool_decide (s = SourceLocal) || bool_decide (s = SourceOIDC).

(** What the partial unique index on [(source, subject)] compares. *)
Definition same_subject (u r : AdminUser) : bool :=
  bool_decide (is_Some (u_Subject u)) && bool_decide (u_Source r = u_Source u) && bool_decide (u_Subject r = u_Subject u).

(** The constraints on a row that is to be stored under its ID. *)
Definition user_error (u : AdminUser) (db : AdminDB) : option DriverError :=
  if negb (known_role (u_Role u) && known_source (u_Source u)) then Some check_failed
  else if exists_row (fun r => bool_decide (u_Username r = u_Username u) && negb (bool_decide (u_ID r = u_ID u))) (admin_users db)
          || exists_row (fun r => same_subject u r && negb (bool_decide (u_ID r = u_ID u))) (admin_users db)
  then Some SqlUniqueViolation
  else None.

Definition set_users (t : gmap string AdminUser) (db : AdminDB) : AdminDB := mkAdminDB t (admin_sessions db).
Definition set_sessions (t : gmap string Session) (db : AdminDB) : AdminDB := mkAdminDB (admin_users db) t.

Definition Users_Create (io : option string) (now : Z) (newID : string) (u : AdminUser) (db : AdminDB)
  : result StoreError AdminUser * AdminDB :=
  exec io (fun db =>
    let u := user_defaults now newID u in
    let err := insert_error (user_error u db) (bool_decide (is_Some (admin_users db !! u_ID u))) in
    match translateError err ("user " +:+ u_Username u) with
    | Some e => (Err e, db)
    | None => (Ok u, set_users (<[u_ID u := u]> (admin_users db)) db)
    end) db.

Definition Users_Get (io : option string) (id : string) (db : AdminDB) : result StoreError AdminUser :=
  match io with
  | Some e => Err (ErrDriver e)
  | None => match admin_users db !! id with Some u => Ok u | None => Err (ErrNotFound ("user " +:+ id)) end
  end.

Definition Users_GetByUsername (io : option string) (username : string) (db : AdminDB) : result StoreError AdminUser :=
  match io with
  | Some e => Err (ErrDriver e)
  | None => match find_row (fun u => bool_decide (u_Username u = username)) (admin_users db) with
            | Some u => Ok u
            | None => Err (ErrNotFound ("user " +:+ username))
            end
  end.

Definition GetBySubject (io : option string) (source subject : string) (db : AdminDB) : result StoreError AdminUser :=
  match io with
  | Some e => Err (ErrDriver e)
  | None => match find_row (fun u => bool_decide (u_Source u = source) && bool_decide (u_Subject u = Some subject))
                    (admin_users db) with
            | Some u => Ok u
            | None => Err (ErrNotFound ("user with subject " +:+ subject))
            end
  end.

Definition Users_List `{Collation} (io : option string) (db : AdminDB) : result StoreError (list AdminUser) :=
  listing io "store: listing users: " (list_rows (fun _ => true) u_Username (admin_users db)).

(** The SET clause of the update: the login counters are not written. *)
Definition user_set (now : Z) (u r : AdminUser) : AdminUser :=
  mkAdminUser (u_ID r) (u_Username u) (u_Email u) (u_DisplayName u) (u_PasswordHash u) (u_Role u)
    (u_Source u) (u_Subject u) (u_TOTPSecretEnc u) (u_TOTPEnrolledAt u) (u_Disabled u)
    (u_FailedLogins r) (u_LockedUntil r) (u_LastLoginAt r) (u_CreatedAt r) now.

Definition Users_Update (io : option string) (now : Z) (u : AdminUser) (db : AdminDB) : result StoreError unit * AdminDB :=
  write_row u_ID io (u_ID u) (admin_users db) (user_error u db) ("user " +:+ u_Username u) ("user " +:+ u_ID u)
    (set_users (sql_update (fun r => bool_decide (u_ID r = u_ID u)) (user_set now u) (admin_users db)) db) db.

(** The user's sessions go with the row: [ON DELETE CASCADE]. *)
Definition delete_user (id : string) (db : AdminDB) : AdminDB :=
  mkAdminDB (sql_delete (fun r => bool_decide (u_ID r = id)) (admin_users db))
    (sql_delete (fun s => bool_decide (s_UserID s = id)) (admin_sessions db)).

Definition Users_Delete (io : option string) (id : string) (db : AdminDB) : result StoreError unit * AdminDB :=
  write_row u_ID io id (admin_users db) None ("user " +:+ id) ("user " +:+ id) (delete_user id db) db.

(** [CountByRole]: the enabled users with a role. *)
Definition CountByRole (role : Role) (db : AdminDB) : Z :=
  rows_affected (fun u => negb (u_Disabled u) && bool_decide (u_Role u = role)) (admin_users db).

Definition set_counters (failures : Z) (lockedUntil : option Z) (now : Z) (u : AdminUser) : AdminUser :=
  mkAdminUser (u_ID u) (u_Username u) (u_Email u) (u_DisplayName u) (u_PasswordHash u) (u_Role u)
    (u_Source u) (u_Subject u) (u_TOTPSecretEnc u) (u_TOTPEnrolledAt u) (u_Disabled u)
    failures lockedUntil (u_LastLoginAt u) (u_CreatedAt u) now.

(** [RecordFailedLogin]; [io] and [io'] are the failures of the two statements. *)
Definition RecordFailedLogin (io io' : option string) (now : Z) (id : string) (threshold lockFor : Z) (db : AdminDB)
  : result StoreError unit * AdminDB :=
  InTx (fun db =>
    match io, admin_users db !! id with
    | Some e, _ => (Err (ErrDriver e), db)
    | None, None => (Err (ErrNotFound ("user " +:+ id)), db)
    | None, Some u =>
        let failures := u_FailedLogins u + 1 in
        let lockedUntil := if (threshold >? 0) && (failures >=? threshold) then NullTime (now + lockFor) else None in
        exec io' (fun db =>
          (Ok tt, set_users (sql_update (fun r => bool_decide (u_ID r = id)) (set_counters failures lockedUntil now)
                    (admin_users db)) db)) db
    end) db.

Definition set_login (now : Z) (u : AdminUser) : AdminUser :=
  mkAdminUser (u_ID u) (u_Username u) (u_Email u) (u_DisplayName u) (u_PasswordHash u) (u_Role u)
    (u_Source u) (u_Subject u) (u_TOTPSecretEnc u) (u_TOTPEnrolledAt u) (u_Disabled u)
    0 None (Some now) (u_CreatedAt u) now.

Definition RecordSuccessfulLogin (io : option string) (now : Z) (id : string) (db : AdminDB)
  : result StoreError unit * AdminDB :=
  exec io (fun db =>
    (Ok tt, set_users (sql_update (fun r => bool_decide (u_ID r = id)) (set_login now) (admin_users db)) db)) db.

(** ** Sessions *)

Definition session_defaults (now : Z) (newID : string) (s : Session) : Session :=
  mkAdminSession (if bool_decide (s_ID s = "") then newID else s_ID s) (s_UserID s) (s_TokenHash s) (s_CSRFToken s)
    (s_IP s) (s_UserAgent s) (if IsZero (s_CreatedAt s) then now else s_CreatedAt s) now (s_ExpiresAt s).

Definition insert_session_error (s : Session) (db : AdminDB) : option DriverError :=
  if bool_decide (is_Some (admin_sessions db !! s_ID s))
     || exists_row (fun r => bool_decide (s_TokenHash r = s_TokenHash s)) (admin_sessions db)
  then Some SqlUniqueViolation
  else if bool_decide (is_Some (admin_users db !! s_UserID s)) then None else Some SqlForeignKeyViolation.

Definition Sessions_Create (io : option string) (now : Z) (newID : string) (s : Session) (db : AdminDB)
  : result StoreError Session * AdminDB :=
  exec io (fun db =>
    let s := session_defaults now newID s in
    match translateError (insert_session_error s db) "session" with
    | Some e => (Err e, db)
    | None => (Ok s, set_sessions (<[s_ID s := s]> (admin_sessions db)) db)
    end) db.

Definition Touch (io : option string) (now : Z) (id : string) (db : AdminDB) : result StoreError unit * AdminDB :=
  exec io (fun db =>
    (Ok tt, set_sessions (sql_update (fun s => bool_decide (s_ID s = id))
              (fun s => mkAdminSession (s_ID s) (s_UserID s) (s_TokenHash s) (s_CSRFToken s) (s_IP s) (s_UserAgent s)
                          (s_CreatedAt s) now (s_ExpiresAt s)) (admin_sessions db)) db)) db.

Definition delete_sessions (p : Session -> bool) (db : AdminDB) : AdminDB :=
  set_sessions (sql_delete p (admin_sessions db)) db.

Definition Sessions_Delete (io : option string) (id : string) (db : AdminDB) : result StoreError unit * AdminDB :=
  exec io (fun db => (Ok tt, delete_sessions (fun s => bool_decide (s_ID s = id)) db)) db.

Definition DeleteForUser (io : option string) (userID : string) (db : AdminDB) : result StoreError Z * AdminDB :=
  exec io (fun db =>
    (Ok (rows_affected (fun s => bool_decide (s_UserID s = userID)) (admin_sessions db)),
     delete_sessions (fun s => bool_decide (s_UserID s = userID)) db)) db.

(** [ListForUser]: newest first. *)
Definition by_last_seen (a b : Session) : Prop := s_LastSeenAt b <= s_LastSeenAt a.

#[export] Instance by_last_seen_dec : RelDecision by_last_seen.
Proof. intros a b. unfold by_last_seen. apply _. Defined.

Definition ListForUser (io : option string) (now : Z) (userID : string) (db : AdminDB) : result StoreError (list Session) :=
  listing io "store: listing sessions: "
    (merge_sort by_last_seen ((map_to_list
       (rows_where (fun s => bool_decide (s_UserID s = userID) && (now <? s_ExpiresAt s)) (admin_sessions db))).*2)).

Definition PurgeExpired (io : option string) (now : Z) (db : AdminDB) : result StoreError Z * AdminDB :=
  exec io (fun db =>
    (Ok (rows_affected (fun s => s_ExpiresAt s <? now) (admin_sessions db)),
     delete_sessions (fun s => s_ExpiresAt s <? now) db)) db.

Section Lookup.
Context (HashSessionToken : string -> string).

(** [store.Authenticated] *)
Record Authenticated := mkAuthenticated { au_Session : Session; au_User : AdminUser }.

(** The join of the two tables on the token's hash. *)
Definition find_session (token : string) (db : AdminDB) : option (Session * AdminUser) :=
  match find_row (fun s => bool_decide (s_TokenHash s = HashSessionToken token)) (admin_sessions db) with
  | Some s => match admin_users db !! s_UserID s with Some u => Some (s, u) | None => None end
  | None => None
  end.

(** [Lookup]; [io'] is the failure of the clean-up, which is ignored. *)
Definition Lookup (io io' : option string) (now : Z) (token : string) (idleTimeout : Z) (db : AdminDB)
  : result StoreError Authenticated * AdminDB :=
  match io with
  | Some e => (Err (ErrDriver e), db)
  | None =>
      match find_session token db with
      | None => (Err (ErrNotFound "session"), db)
      | Some (s, u) =>
          if negb (After (s_ExpiresAt s) now)
          then (Err (ErrNotFound "the session has expired"), (Sessions_Delete io' (s_ID s) db).2)
          else if (idleTimeout >? 0) && (Sub now (s_LastSeenAt s) >? idleTimeout)
          then (Err (ErrNotFound "the session was idle too long"), (Sessions_Delete io' (s_ID s) db).2)
          else if u_Disabled u then (Err (ErrNotFound "the account is disabled"), db)
          else (Ok (mkAuthenticated s u), db)
      end
  end.
End Lookup.
