(* ===== verification/AdminStoreProps.v ===== *)
(** * Integrity of the administrators' tables *)

From stdpp Require Import base gmap strings list.
From Stdlib Require Import ZArith Lia.
From S2P Require Import Prelude GoStrings StoreModels MessageStore Directory DirectoryProps AdminStore.

Open Scope Z_scope.

(** ** The invariant and the statements *)

(** What the partial index makes unique; a row without a subject only clashes
    with itself. *)
Definition subject_key (u : AdminUser) : (string * string) + string :=
  match u_Subject u with Some s => inl (u_Source u, s) | None => inr (u_ID u) end.

Definition user_ok (u : AdminUser) : Prop := known_role (u_Role u) = true /\ known_source (u_Source u) = true.

Definition session_row_ok (users : gmap string AdminUser) (s : Session) : Prop := is_Some (users !! s_UserID s).

Record admin_ok (db : AdminDB) : Prop := {
  ao_users : table_ok u_ID u_Username user_ok (admin_users db);
  ao_subjects : table_ok u_ID subject_key (fun _ => True) (admin_users db);
  ao_sessions : table_ok s_ID s_TokenHash (session_row_ok (admin_users db)) (admin_sessions db)
}.

(** The statements that write. *)
Inductive AdminOp :=
| ACreateUser (io : option string) (now : Z) (newID : string) (u : AdminUser)
| AUpdateUser (io : option string) (now : Z) (u : AdminUser)
| ADeleteUser (io : option string) (id : string)
| AFailedLogin (io io' : option string) (now : Z) (id : string) (threshold lockFor : Z)
| ASuccessfulLogin (io : option string) (now : Z) (id : string)
| ACreateSession (io : option string) (now : Z) (newID : string) (s : Session)
| ATouch (io : option string) (now : Z) (id : string)
| ADeleteSession (io : option string) (id : string)
| ADeleteForUser (io : option string) (userID : string)
| APurgeExpired (io : option string) (now : Z)
| ALookup (hash : string -> string) (io io' : option string) (now : Z) (token : string) (idleTimeout : Z).

Definition step_admin (op : AdminOp) (db : AdminDB) : AdminDB :=
  match op with
  | ACreateUser io now newID u => (Users_Create io now newID u db).2
  | AUpdateUser io now u => (Users_Update io now u db).2
  | ADeleteUser io id => (Users_Delete io id db).2
  | AFailedLogin io io' now id threshold lockFor => (RecordFailedLogin io io' now id threshold lockFor db).2
  | ASuccessfulLogin io now id => (RecordSuccessfulLogin io now id db).2
  | ACreateSession io now newID s => (Sessions_Create io now newID s db).2
  | ATouch io now id => (Touch io now id db).2
  | ADeleteSession io id => (Sessions_Delete io id db).2
  | ADeleteForUser io userID => (DeleteForUser io userID db).2
  | APurgeExpired io now => (PurgeExpired io now db).2
  | ALookup hash io io' now token idleTimeout => (Lookup hash io io' now token idleTimeout db).2
  end.

Definition run_admin (ops : list AdminOp) (db : AdminDB) : AdminDB := fold_left (fun db op => step_admin op db) ops db.

(** ** Lemmas *)

Lemma table_ok_sql_update {R N} (id : R -> string) (name : R -> N) P t p f :
  (forall r, id (f r) = id r) -> (forall r, name (f r) = name r) -> (forall r, P r -> P (f r)) ->
  table_ok id name P t -> table_ok id name P (sql_update p f t).
Proof.
  intros Hi Hn HP. apply table_ok_fmap; intros r; destruct (p r); auto.
Qed.

(** An update by ID changes that row alone. *)
Lemma lookup_update_id {R N} (id : R -> string) (name : R -> N) P t i f k :
  table_ok id name P t ->
  sql_update (fun r => bool_decide (id r = i)) f t !! k = if decide (k = i) then f <$> t !! k else t !! k.
Proof.
  intros Ht. rewrite lookup_sql_update. destruct (t !! k) as [r|] eqn:Hk; simpl; [|by destruct (decide _)].
  rewrite (to_id _ _ _ _ Ht _ _ Hk). case_decide; by case_bool_decide.
Qed.

Lemma user_error_None u db :
  user_error u db = None ->
  user_ok u /\ (forall k r, admin_users db !! k = Some r ->
    (u_Username r = u_Username u -> u_ID r = u_ID u) /\ (subject_key r = subject_key u -> u_ID r = u_ID u)).
Proof.
  unfold user_error. destruct (negb _) eqn:Hk; [done|]. bools. destruct (_ || _) eqn:He; [done|]. intros _.
  apply orb_false_iff in He as [Hn Hs]. split; [done|]. intros k r Hr. split.
  - by apply (no_clash u_ID u_Username (admin_users db) u Hn k).
  - intros Hkey. apply dec_stable. intros Hne. apply not_true_iff_false in Hs. apply Hs, exists_row_spec.
    exists k, r. split; [done|]. unfold subject_key in Hkey. unfold same_subject.
    destruct (u_Subject r) as [s|] eqn:Hsr, (u_Subject u) as [s'|] eqn:Hsu; simplify_eq.
    rewrite (bool_decide_eq_false_2 _ Hne), !bool_decide_eq_true_2 by (done || by eexists). done.
Qed.

(** The users change in a way that keeps the sessions' owners. *)
Lemma set_users_ok db t :
  admin_ok db -> table_ok u_ID u_Username user_ok t -> table_ok u_ID subject_key (fun _ => True) t ->
  (forall k, is_Some (admin_users db !! k) -> is_Some (t !! k)) -> admin_ok (set_users t db).
Proof.
  intros [H1 H2 H3] Ht Hs Hd. split; [done|done|]. eapply table_ok_impl; [|exact H3]. intros k s _. apply Hd.
Qed.

Lemma update_users_ok db p f :
  (forall u, u_ID (f u) = u_ID u /\ u_Username (f u) = u_Username u /\ subject_key (f u) = subject_key u
     /\ u_Role (f u) = u_Role u /\ u_Source (f u) = u_Source u) ->
  admin_ok db -> admin_ok (set_users (sql_update p f (admin_users db)) db).
Proof.
  intros Hf Hdb. apply set_users_ok; [done| | |].
  - apply table_ok_sql_update; try apply Hf; [|apply Hdb]. intros u. unfold user_ok.
    destruct (Hf u) as (_ & _ & _ & -> & ->). done.
  - apply table_ok_sql_update; try apply Hf; [done|apply Hdb].
  - intros k. apply is_Some_sql_update.
Qed.

Lemma set_sessions_ok db t :
  admin_ok db -> table_ok s_ID s_TokenHash (session_row_ok (admin_users db)) t -> admin_ok (set_sessions t db).
Proof. intros [H1 H2 H3] Ht. by split. Qed.

Lemma delete_sessions_ok db p : admin_ok db -> admin_ok (delete_sessions p db).
Proof. intros Hdb. apply set_sessions_ok; [done|]. apply table_ok_delete, Hdb. Qed.

Lemma exec_snd_ok {T A} (Q : T -> Prop) io (fn : T -> result StoreError A * T) db :
  Q db -> Q (fn db).2 -> Q (exec io fn db).2.
Proof. by destruct io. Qed.

Lemma insert_user_ok v db :
  admin_ok db -> user_error v db = None -> admin_ok (set_users (<[u_ID v := v]> (admin_users db)) db).
Proof.
  intros Hdb [Hok Hu]%user_error_None. apply set_users_ok; [done| | |].
  - apply table_ok_insert; [apply Hdb|done|]. intros k r Hk. exact (proj1 (Hu k r Hk)).
  - apply table_ok_insert; [apply Hdb|done|]. intros k r Hk. exact (proj2 (Hu k r Hk)).
  - intros k. apply is_Some_insert.
Qed.

Lemma create_user_ok io now newID u db : admin_ok db -> admin_ok (Users_Create io now newID u db).2.
Proof.
  intros Hdb. unfold Users_Create. apply (exec_snd_ok admin_ok); [done|].
  destruct (insert_error _ _) as [[]|] eqn:He; try done. apply insert_error_None in He as [Hu _]. by apply insert_user_ok.
Qed.

Lemma subject_key_set now u r : u_ID r = u_ID u -> subject_key (user_set now u r) = subject_key u.
Proof. unfold subject_key. simpl. by intros ->. Qed.

Lemma update_user_ok io now u db : admin_ok db -> admin_ok (Users_Update io now u db).2.
Proof.
  intros Hdb. unfold Users_Update. write_cases Hw.
  destruct Hw as [[-> _]|(-> & _ & He & _)]; [done|]. apply user_error_None in He as [Hok Hu].
  apply set_users_ok; [done| | |].
  - apply table_ok_update; [apply Hdb|done|done|]. intros ? ? k' r' _ _ Hk' Hne Hn. apply Hne. exact (proj1 (Hu k' r' Hk') Hn).
  - apply table_ok_update; [apply Hdb|done|done|]. intros ? x k' r' _ Hr Hk' Hne Hn. apply Hne.
    rewrite subject_key_set in Hn by done. exact (proj2 (Hu k' r' Hk') Hn).
  - intros k. apply is_Some_sql_update.
Qed.

Lemma delete_user_ok io id db : admin_ok db -> admin_ok (Users_Delete io id db).2.
Proof.
  intros Hdb. unfold Users_Delete. write_cases Hw.
  destruct Hw as [[-> _]|(-> & _)]; [done|]. destruct Hdb as [H1 H2 H3]. split; simpl.
  - by apply table_ok_delete.
  - by apply table_ok_delete.
  - eapply table_ok_impl; [|by apply table_ok_delete]. intros k s Hs [u Hu]. exists u.
    apply lookup_sql_delete in Hs as [_ Hs]. bools. apply lookup_sql_delete. split; [done|].
    apply bool_decide_eq_false_2. rewrite (to_id _ _ _ _ H1 _ _ Hu). done.
Qed.

Lemma create_session_ok io now newID s db : admin_ok db -> admin_ok (Sessions_Create io now newID s db).2.
Proof.
  intros Hdb. unfold Sessions_Create. apply (exec_snd_ok admin_ok); [done|]. set (v := session_defaults now newID s).
  unfold insert_session_error. destruct (_ || _) eqn:Hc; [done|].
  apply orb_false_iff in Hc as [_ Hc].
  destruct (bool_decide (is_Some _)) eqn:Hu; [|done]. bools. simpl. apply set_sessions_ok; [done|].
  apply table_ok_insert; [apply Hdb|done|]. intros k r Hk Hn.
  assert (exists_row (fun r => bool_decide (s_TokenHash r = s_TokenHash v)) (admin_sessions db) = true) as He; [|congruence].
  apply exists_row_spec. exists k, r. split; [done|]. by apply bool_decide_eq_true_2.
Qed.

Lemma touch_ok io now id db : admin_ok db -> admin_ok (Touch io now id db).2.
Proof.
  intros Hdb. unfold Touch. apply (exec_snd_ok admin_ok); [done|]. simpl. apply set_sessions_ok; [done|].
  apply table_ok_sql_update; [done|done|done|apply Hdb].
Qed.

Lemma failed_login_ok io io' now id threshold lockFor db :
  admin_ok db -> admin_ok (RecordFailedLogin io io' now id threshold lockFor db).2.
Proof.
  intros Hdb. unfold RecordFailedLogin, InTx. destruct io, (admin_users db !! id); simpl; try done.
  destruct io'; simpl; [done|]. by apply update_users_ok.
Qed.

Lemma lookup_ok hash io io' now token idle db : admin_ok db -> admin_ok (Lookup hash io io' now token idle db).2.
Proof.
  intros Hdb. unfold Lookup. destruct io; [done|]. destruct (find_session _ _ _) as [[s u]|]; [|done].
  assert (admin_ok (Sessions_Delete io' (s_ID s) db).2) as Hd by (apply (exec_snd_ok admin_ok); [done|by apply delete_sessions_ok]).
  destruct (negb _); [done|]. destruct (_ && _); [done|]. by destruct (u_Disabled u).
Qed.

#[export] Hint Resolve create_user_ok update_user_ok delete_user_ok create_session_ok touch_ok failed_login_ok
  lookup_ok delete_sessions_ok : store.

Lemma step_admin_ok op db : admin_ok db -> admin_ok (step_admin op db).
Proof.
  intros Hdb. destruct op; simpl; auto with store; apply (exec_snd_ok admin_ok); simpl; auto with store.
  by apply update_users_ok.
Qed.

Lemma empty_admin_ok : admin_ok empty_AdminDB.
Proof. split; apply table_ok_empty. Qed.

Lemma run_admin_ok ops db : admin_ok db -> admin_ok (run_admin ops db).
Proof. revert db. induction ops as [|op ops IH]; intros db Hdb; simpl; [done|]. by apply IH, step_admin_ok. Qed.

(** ** Properties *)

(** The administrators' tables stay consistent under every interleaving of the
    statements the API, sign-in and the housekeeping run, failing ones
    included: usernames, identity-provider subjects and session tokens are
    unique, roles and sources are known ones, and every session belongs to a
    user that exists, so deleting a user ends their sessions. *)
Theorem admin_integrity ops db : admin_ok db -> admin_ok (run_admin ops db).
Proof. apply run_admin_ok. Qed.

(** *** A small database, for the witnesses *)

Definition root_user : AdminUser :=
  mkAdminUser "" "root" "" "" (Some "correct horse battery") RoleAdmin "" None "" None false 0 None None 0 0.
Definition sso_user : AdminUser :=
  mkAdminUser "" "ann" "" "" None RoleViewer SourceOIDC (Some "sub-1") "" None false 0 None None 0 0.
Definition root_session : Session := mkAdminSession "" "u1" "hash of cookie" "csrf" "" "" 0 0 1000.

Definition admin_ops : list AdminOp :=
  [ACreateUser None 1 "u1" root_user; ACreateUser None 2 "u2" sso_user; ACreateSession None 3 "s1" root_session].
Definition sample_admins : AdminDB := run_admin admin_ops empty_AdminDB.

Lemma sample_admins_ok : admin_ok sample_admins.
Proof. apply run_admin_ok, empty_admin_ok. Qed.

Lemma admin_integrity_witness :
  admin_ok (run_admin (admin_ops ++ [ADeleteUser None "u1"]) empty_AdminDB)
  /\ admin_sessions (run_admin (admin_ops ++ [ADeleteUser None "u1"]) empty_AdminDB) = ∅.
Proof. split; [apply admin_integrity, empty_admin_ok|vm_compute; reflexivity]. Defined.
