(* ===== verification/AdminAuth.v ===== *)
(** * Signing in to the management interface

    [internal/adminauth]: roles and permissions ([rbac.go]), passwords
    ([local.go]), sessions and CSRF ([session.go]), single sign-on ([oidc.go]),
    and the middleware of [internal/adminapi/middleware.go] that puts them in
    front of every route. The identity provider's library (the exchange of the
    code and the verification of the ID token), the HTTP request's parsing and
    package net are parameters. Logging is left out. *)

From stdpp Require Import base gmap strings list.
From Stdlib Require Import ZArith Lia.
From S2P Require Import Prelude GoStrings StoreModels MessageStore Directory Policy Password AdminStore.

Open Scope Z_scope.

(** ** Roles *)

Inductive Permission :=
| PermRunDiagnostics | PermViewStatus | PermViewConfig | PermViewAudit
| PermManageQueue | PermReadMessageBody
| PermManageAccounts | PermManageMailboxes | PermManageCredentials | PermManageUsers | PermManageSettings.

#[export] Instance Permission_eq_dec : EqDecision Permission.
Proof. solve_decision. Defined.

(** [rolePermissions]; [None] is a role the map does not have. *)
Definition rolePermissions (r : Role) : option (list Permission) :=
  match r with
  | RoleViewer => Some [PermViewStatus; PermViewConfig]
  | RoleOperator => Some [PermRunDiagnostics; PermViewStatus; PermViewConfig; PermViewAudit; PermManageQueue]
  | RoleAdmin =>
      Some [PermRunDiagnostics; PermViewStatus; PermViewConfig; PermViewAudit; PermManageQueue; PermReadMessageBody;
            PermManageAccounts; PermManageMailboxes; PermManageCredentials; PermManageUsers; PermManageSettings]
  | RoleOther _ => None
  end.

Definition AllPermissions : list Permission :=
  [PermRunDiagnostics; PermViewStatus; PermViewConfig; PermViewAudit; PermManageQueue; PermReadMessageBody;
   PermManageAccounts; PermManageMailboxes; PermManageCredentials; PermManageUsers; PermManageSettings].

Definition AllRoles : list Role := [RoleAdmin; RoleOperator; RoleViewer].

Definition Can (r : Role) (p : Permission) : bool := bool_decide (p ∈ default [] (rolePermissions r)).

Definition PermissionsFor (r : Role) : list Permission := base.filter (fun p => Can r p = true) AllPermissions.

(** [store.Role(s)] *)
Definition role_of_string (s : string) : Role :=
  if bool_decide (s = "admin") then RoleAdmin
  else if bool_decide (s = "operator") then RoleOperator
  else if bool_decide (s = "viewer") then RoleViewer
  else RoleOther s.

Definition role_string (r : Role) : string :=
  match r with RoleAdmin => "admin" | RoleOperator => "operator" | RoleViewer => "viewer" | RoleOther s => s end.

Section Roles.
Context `{GF : GoFmt}.

Definition ParseRole (s : string) : result string Role :=
  match rolePermissions (role_of_string s) with
  | Some _ => Ok (role_of_string s)
  | None => Err ("adminauth: " +:+ Quote s +:+ " is not a valid role (expected admin, operator or viewer)")
  end.
End Roles.

(** ** Passwords *)

Inductive SignInError :=
| ErrInvalidCredentials | ErrLockedOut | ErrLocalDisabled
| ErrNoRole | ErrSignupDisabled | ErrBadState
| ErrStore (e : StoreError)
| ErrOther (msg : string).

#[export] Instance SignInError_inhabited : Inhabited SignInError := populate ErrInvalidCredentials.

Record LocalConfig := mkLocalConfig { lc_Enabled : bool; lc_LockoutThreshold : Z; lc_LockoutDuration : Z }.

(** The failures the driver reports along a sign-in, and the clock its writes
    read. *)
Record LoginIO := mkLoginIO {
  li_read : option string; li_count : option string; li_count' : option string;
  li_rehash : option string; li_success : option string; li_now : Z
}.

Definition calm_io (now : Z) : LoginIO := mkLoginIO None None None None None now.

(** The outcome, the verifications made and the database afterwards. *)
Record SignIn := mkSignIn {
  si_result : result SignInError AdminUser;
  si_verified : list (string * string);
  si_db : AdminDB
}.

Definition set_u_PasswordHash (h : option string) (u : AdminUser) : AdminUser :=
  mkAdminUser (u_ID u) (u_Username u) (u_Email u) (u_DisplayName u) h (u_Role u)
    (u_Source u) (u_Subject u) (u_TOTPSecretEnc u) (u_TOTPEnrolledAt u) (u_Disabled u)
    (u_FailedLogins u) (u_LockedUntil u) (u_LastLoginAt u) (u_CreatedAt u) (u_UpdatedAt u).

(** [Update] stamps the user it is given, whether the statement succeeds or
    not. *)
Definition stamped (now : Z) (u : AdminUser) : AdminUser :=
  mkAdminUser (u_ID u) (u_Username u) (u_Email u) (u_DisplayName u) (u_PasswordHash u) (u_Role u)
    (u_Source u) (u_Subject u) (u_TOTPSecretEnc u) (u_TOTPEnrolledAt u) (u_Disabled u)
    (u_FailedLogins u) (u_LockedUntil u) (u_LastLoginAt u) (u_CreatedAt u) now.

Section Local.
Context `{PH : PasswordHasher}.
Context (decoyHash : string).

Definition local_recordFailure (cfg : LocalConfig) (io : LoginIO) (u : AdminUser) (db : AdminDB) : AdminDB :=
  (RecordFailedLogin (li_count io) (li_count' io) (li_now io) (u_ID u) (lc_LockoutThreshold cfg) (lc_LockoutDuration cfg) db).2.

(** [rehash] changes the user it is given too. *)
Definition local_rehash (io : LoginIO) (u : AdminUser) (password : string) (db : AdminDB) : AdminUser * AdminDB :=
  match ph_hash password with
  | Err _ => (u, db)
  | Ok updated =>
      let user := set_u_PasswordHash (NullString updated) u in
      (stamped (li_now io) user, (Users_Update (li_rehash io) (li_now io) user db).2)
  end.

(** [LocalAuthenticator.Authenticate]: [read] is the database the user is read
    from, [db] the one the outcome is written to. *)
Definition local_Authenticate (cfg : LocalConfig) (io : LoginIO) (now : Z) (username password : string)
    (read db : AdminDB) : SignIn :=
  if negb (lc_Enabled cfg) then mkSignIn (Err ErrLocalDisabled) [] db
  else match Users_GetByUsername (li_read io) username read with
  | Err (ErrNotFound _) => mkSignIn (Err ErrInvalidCredentials) [(decoyHash, password)] db
  | Err e => mkSignIn (Err (ErrStore e)) [] db
  | Ok user =>
      if LockedAt user now then mkSignIn (Err ErrLockedOut) [] db
      else
        let stored := default "" (u_PasswordHash user) in
        if bool_decide (stored = "") then mkSignIn (Err ErrInvalidCredentials) [(decoyHash, password)] db
        else match ph_verify stored password with
        | Err _ => mkSignIn (Err ErrInvalidCredentials) [(stored, password)] db
        | Ok (false, _) =>
            mkSignIn (Err ErrInvalidCredentials) [(stored, password)] (local_recordFailure cfg io user db)
        | Ok (true, needsRehash) =>
            if u_Disabled user then mkSignIn (Err ErrInvalidCredentials) [(stored, password)] db
            else
              let '(user, db) := if needsRehash : bool then local_rehash io user password db else (user, db) in
              mkSignIn (Ok user) [(stored, password)] (RecordSuccessfulLogin (li_success io) (li_now io) (u_ID user) db).2
        end
  end.

(** [SetPassword]; an error that is not the store's own is [ErrDriver]. *)
Definition SetPassword (io io' : option string) (now : Z) (u : AdminUser) (password : string) (db : AdminDB)
  : result StoreError unit * AdminDB :=
  match ph_hash password with
  | Err _ => (Err (ErrDriver "adminauth: hashing the password"), db)
  | Ok hash =>
      match Users_Update io now (set_u_PasswordHash (NullString hash) u) db with
      | (Err e, db) => (Err e, db)
      | (Ok _, db) =>
          match DeleteForUser io' (u_ID u) db with
          | (Err e, db) => (Err e, db)
          | (Ok _, db) => (Ok tt, db)
          end
      end
  end.
End Local.

(** ** Requests *)

(** What is read of an [http.Request]. *)
Record Request := mkRequest {
  rq_Method : string;
  rq_cookie : option string;        (* the session cookie's value *)
  rq_csrf : string;                 (* the X-CSRF-Token header *)
  rq_RemoteAddr : string;
  rq_forwarded : string;            (* the X-Forwarded-For header *)
  rq_UserAgent : string
}.

(** ** Where a request came from *)

Section Origin.
Context `{NI : NetIP} `{GF : GoFmt}.
Context (SplitHost : string -> option string) (ParseIP : string -> option IP).

(** [remoteIP]; [SplitHost] is [net.SplitHostPort] without the port. *)
Definition request_ip (addr : string) : option IP := ParseIP (default addr (SplitHost addr)).

(** [ip.String()]; a nil address prints as such. *)
Definition ip_text (ip : option IP) : string := match ip with Some a => IP_String a | None => "<nil>" end.

Definition containsIP (networks : list IPNet) (ip : IP) : bool := existsb (fun n => IPNet_Contains n ip) networks.

Definition ClientIP (r : Request) (trusted : list IPNet) : string :=
  let remote := request_ip (rq_RemoteAddr r) in
  match trusted, remote with
  | [], _ | _, None => ip_text remote
  | _, Some a =>
      if negb (containsIP trusted a) then ip_text remote
      else if bool_decide (rq_forwarded r = "") then ip_text remote
      else
        let first := TrimSpace (default "" (head (split_byte COMMA (rq_forwarded r)))) in
        match ParseIP first with Some ip => IP_String ip | None => ip_text remote end
  end.

Fixpoint ParseTrustedProxies (cidrs : list string) : result string (list IPNet) :=
  match cidrs with
  | [] => Ok []
  | c :: rest =>
      match ParseCIDR c with
      | Err e => Err ("adminauth: invalid trusted proxy " +:+ Quote c +:+ ": " +:+ e)
      | Ok network => match ParseTrustedProxies rest with Ok l => Ok (network :: l) | Err e => Err e end
      end
  end.
End Origin.

(** ** Issuing and checking sessions *)

Record SessionConfig := mkSessionConfig { sc_Lifetime : Z; sc_IdleTimeout : Z }.

Inductive SessionErr := ErrNoSession | ErrCSRF | ErrSessionStore (e : StoreError) | ErrRandomSource.

Definition isSafeMethod (m : string) : bool :=
  bool_decide (m = "GET") || bool_decide (m = "HEAD") || bool_decide (m = "OPTIONS").

Definition ConstantTimeEqual (a b : string) : bool := bool_decide (a = b).

Definition CheckCSRF (auth : Authenticated) (r : Request) : result SessionErr unit :=
  if isSafeMethod (rq_Method r) then Ok tt
  else if bool_decide (rq_csrf r = "") || negb (ConstantTimeEqual (rq_csrf r) (s_CSRFToken (au_Session auth)))
  then Err ErrCSRF else Ok tt.

(** [NewSessionManager]: a lifetime that is not positive is twelve hours. *)
Definition NewSessionManager (cfg : SessionConfig) : SessionConfig :=
  mkSessionConfig (if sc_Lifetime cfg <=? 0 then 12 * 60 * Minute else sc_Lifetime cfg) (sc_IdleTimeout cfg).

Section Issue.
Context `{NI : NetIP}.
Context (SplitHost : string -> option string) (ParseIP : string -> option IP) (HashSessionToken : string -> string).

(** [Issue]; [token] and [csrf] are what the random source returned, [created]
    and [now] the clock it and [Create] read. *)
Definition Issue (io : option string) (cfg : SessionConfig) (token csrf : result string string) (created now : Z)
    (newID : string) (u : AdminUser) (r : Request) (db : AdminDB) : result SessionErr (Session * string * string) * AdminDB :=
  match token, csrf with
  | Ok token, Ok csrf =>
      let s := mkAdminSession "" (u_ID u) (HashSessionToken token) csrf
                 (ClientIP SplitHost ParseIP r [])
                 (take_bytes 512 (rq_UserAgent r)) created 0 (created + sc_Lifetime cfg) in
      match Sessions_Create io now newID s db with
      | (Ok s, db) => (Ok (s, token, csrf), db)
      | (Err e, db) => (Err (ErrSessionStore e), db)
      end
  | _, _ => (Err ErrRandomSource, db)
  end.
End Issue.

(** [writeStoreError] *)
Definition status_of_store (e : StoreError) : Z :=
  match e with
  | ErrStateConflict | ErrConflict _ | ErrReferenced _ | ErrImmutable _ => 409
  | ErrNotFound _ => 404
  | ErrDriver _ => 500
  end.

Section Sessions.
Context (HashSessionToken : string -> string).

(** [SessionManager.Authenticate]; [now'] is the clock of [Touch]. *)
Definition session_Authenticate (io io' io'' : option string) (cfg : SessionConfig) (now now' : Z) (r : Request) (db : AdminDB)
  : result SessionErr Authenticated * AdminDB :=
  match rq_cookie r with
  | None => (Err ErrNoSession, db)
  | Some token =>
      if bool_decide (token = "") then (Err ErrNoSession, db)
      else match Lookup HashSessionToken io io' now token (sc_IdleTimeout cfg) db with
      | (Err (ErrNotFound _), db) => (Err ErrNoSession, db)
      | (Err e, db) => (Err (ErrSessionStore e), db)
      | (Ok auth, db) => (Ok auth, (Touch io'' now' (s_ID (au_Session auth)) db).2)
      end
  end.

(** The middleware in front of a route that needs a permission: the status
    the client gets, or the session the handler runs with. *)
Inductive Admission := Refused (status : Z) | Passed (auth : Authenticated).

Definition requireSession (io io' io'' : option string) (cfg : SessionConfig) (now now' : Z) (r : Request) (db : AdminDB)
  : Admission * AdminDB :=
  match session_Authenticate io io' io'' cfg now now' r db with
  | (Err ErrNoSession, db) => (Refused 401, db)
  | (Err (ErrSessionStore e), db) => (Refused (status_of_store e), db)
  | (Err _, db) => (Refused 500, db)
  | (Ok auth, db) =>
      match CheckCSRF auth r with
      | Err _ => (Refused 403, db)
      | Ok _ => (Passed auth, db)
      end
  end.

Definition require (perm : Permission) (a : Admission) : Admission :=
  match a with
  | Refused s => Refused s
  | Passed auth => if Can (u_Role (au_User auth)) perm then Passed auth else Refused 403
  end.
End Sessions.

(** ** Single sign-on *)

(** A claim's value, as the JSON decoder gives it. *)
Inductive ClaimValue :=
| CString (s : string)
| CNumber (text : string)                 (* json.Number *)
| CArray (items : list (option string))   (* a string item, or another one *)
| CStrings (items : list string)
| COther.

Record Claims := mkClaims {
  c_Subject : string; c_Email : string; c_PreferredUsername : string; c_Name : string;
  c_raw : gmap string ClaimValue
}.

Definition claim_value (raw : gmap string ClaimValue) (name : string) : string :=
  if bool_decide (name = "") then ""
  else match raw !! name with
       | Some (CString v) => v
       | Some (CNumber v) => v
       | _ => ""
       end.

Definition claim_values (raw : gmap string ClaimValue) (name : string) : list string :=
  if bool_decide (name = "") then []
  else match raw !! name with
       | Some (CString v) => [v]
       | Some (CArray items) => omap id items
       | Some (CStrings items) => items
       | _ => []
       end.

(** [readClaims] *)
Definition readClaims (subject : string) (raw : gmap string ClaimValue) : Claims :=
  mkClaims subject (claim_value raw "email") (claim_value raw "preferred_username") (claim_value raw "name") raw.

Record OIDCConfig := mkOIDCConfig {
  oc_UsernameClaim : string;
  oc_RoleClaim : string;
  oc_RoleMappings : gmap string string;
  oc_DefaultRole : string;
  oc_AllowSignup : bool
}.

Definition rank (r : Role) : Z :=
  match r with RoleAdmin => 3 | RoleOperator => 2 | RoleViewer => 1 | RoleOther _ => 0 end.

Definition morePrivileged (a b : Role) : bool := rank a >? rank b.

Definition usernameFor (cfg : OIDCConfig) (c : Claims) : string :=
  let named := claim_value (c_raw c) (oc_UsernameClaim cfg) in
  if negb (bool_decide (named = "")) then named
  else default "" (List.find (fun s => negb (bool_decide (s = ""))) [c_PreferredUsername c; c_Email c; c_Subject c]).

(** What the provider's library makes of the callback: the ID token's nonce,
    subject and claims, or an error. *)
Record IDToken := mkIDToken { it_Nonce : string; it_Subject : string; it_claims : result string (gmap string ClaimValue) }.

Record OidcIO := mkOidcIO {
  oi_read : option string; oi_write : option string; oi_revoke : option string; oi_success : option string
}.

Section Oidc.
Context `{GF : GoFmt}.

(** The loop of [roleFor]; [None] is the empty role. *)
Fixpoint best_role (mappings : gmap string string) (values : list string) (best : option Role) : option Role :=
  match values with
  | [] => best
  | v :: rest =>
      match mappings !! v with
      | None => best_role mappings rest best
      | Some mapped =>
          match ParseRole mapped with
          | Err _ => best_role mappings rest best
          | Ok role =>
              best_role mappings rest
                (match best with
                 | None => Some role
                 | Some b => if morePrivileged role b then Some role else Some b
                 end)
          end
      end
  end.

Definition roleFor (cfg : OIDCConfig) (c : Claims) : result SignInError Role :=
  match best_role (oc_RoleMappings cfg) (claim_values (c_raw c) (oc_RoleClaim cfg)) None with
  | Some r => Ok r
  | None =>
      if bool_decide (oc_DefaultRole cfg = "") then Err ErrNoRole
      else match ParseRole (oc_DefaultRole cfg) with Ok r => Ok r | Err e => Err (ErrOther e) end
  end.

Definition synced (cfg : OIDCConfig) (c : Claims) (role : Role) (u : AdminUser) : AdminUser :=
  mkAdminUser (u_ID u)
    (let name := usernameFor cfg c in if bool_decide (name = "") then u_Username u else name)
    (c_Email c) (c_Name c) (u_PasswordHash u) role (u_Source u) (u_Subject u) (u_TOTPSecretEnc u)
    (u_TOTPEnrolledAt u) (u_Disabled u) (u_FailedLogins u) (u_LockedUntil u) (u_LastLoginAt u) (u_CreatedAt u) (u_UpdatedAt u).

Definition syncExisting (cfg : OIDCConfig) (io : OidcIO) (now : Z) (u : AdminUser) (c : Claims) (role : Role) (db : AdminDB)
  : result SignInError AdminUser * AdminDB :=
  if u_Disabled u then (Err ErrInvalidCredentials, db)
  else
    let user := synced cfg c role u in
    match Users_Update (oi_write io) now user db with
    | (Err e, db) => (Err (ErrStore e), db)
    | (Ok _, db) =>
        let db := if bool_decide (u_Role u = role) then db else (DeleteForUser (oi_revoke io) (u_ID user) db).2 in
        (Ok (stamped now user), (RecordSuccessfulLogin (oi_success io) now (u_ID user) db).2)
    end.

Definition provision (cfg : OIDCConfig) (io : OidcIO) (now : Z) (newID : string) (c : Claims) (role : Role) (db : AdminDB)
  : result SignInError AdminUser * AdminDB :=
  let username := usernameFor cfg c in
  if bool_decide (username = "")
  then (Err (ErrOther ("adminauth: the identity provider returned no " +:+ Quote (oc_UsernameClaim cfg)
                       +:+ " claim to use as a username")), db)
  else
    let user := mkAdminUser "" username (c_Email c) (c_Name c) None role SourceOIDC (NullString (c_Subject c))
                  "" None false 0 None None 0 0 in
    match Users_Create (oi_write io) now newID user db with
    | (Err e, db) => (Err (ErrStore e), db)
    | (Ok user, db) => (Ok user, (RecordSuccessfulLogin (oi_success io) now (u_ID user) db).2)
    end.

(** [resolveUser]: [read] is the database the user is looked up in. *)
Definition resolveUser (cfg : OIDCConfig) (io : OidcIO) (now : Z) (newID : string) (c : Claims) (read db : AdminDB)
  : result SignInError AdminUser * AdminDB :=
  match roleFor cfg c with
  | Err e => (Err e, db)
  | Ok role =>
      match GetBySubject (oi_read io) SourceOIDC (c_Subject c) read with
      | Ok existing => syncExisting cfg io now existing c role db
      | Err (ErrNotFound _) =>
          if negb (oc_AllowSignup cfg) then (Err ErrSignupDisabled, db) else provision cfg io now newID c role db
      | Err e => (Err (ErrStore e), db)
      end
  end.

(** [Complete]: [callback] is what the exchange of the code and the
    verification of the ID token give. *)
Definition Complete (cfg : OIDCConfig) (io : OidcIO) (now : Z) (newID state nonce returnedState : string)
    (callback : result string IDToken) (read db : AdminDB) : result SignInError AdminUser * AdminDB :=
  if bool_decide (returnedState = "") || negb (ConstantTimeEqual returnedState state) then (Err ErrBadState, db)
  else match callback with
  | Err e => (Err (ErrOther e), db)
  | Ok token =>
      if negb (ConstantTimeEqual (it_Nonce token) nonce) then (Err ErrBadState, db)
      else match it_claims token with
           | Err e => (Err (ErrOther ("adminauth: reading the ID token claims: " +:+ e)), db)
           | Ok raw => resolveUser cfg io now newID (readClaims (it_Subject token) raw) read db
           end
  end.
End Oidc.
