(* ===== verification/AdminAuthProps.v ===== *)
(** * Who gets into the management interface

    Password sign-in and its lockout, sessions, CSRF and permissions, and single
    sign-on. *)

From stdpp Require Import base gmap strings list.
From Stdlib Require Import ZArith Lia.
From S2P Require Import Prelude GoStrings GoStringsFacts StoreModels MessageStore Directory DirectoryProps Policy Password.
From S2P Require Import AdminStore AdminStoreProps AdminAuth.

Open Scope Z_scope.

(** ** Users *)

Lemma Users_GetByUsername_Ok io name db u :
  Users_GetByUsername io name db = Ok u -> u_Username u = name /\ exists k, admin_users db !! k = Some u.
Proof.
  unfold Users_GetByUsername. destruct io; [done|]. destruct (find_row _ _) as [x|] eqn:Hf; [|done]. intros [= <-].
  apply find_row_Some in Hf as [Hu Hk]. by bools.
Qed.

(** Usernames are unique, so the lookup finds the user that has it. *)
Lemma Users_GetByUsername_known db k u :
  admin_ok db -> admin_users db !! k = Some u -> Users_GetByUsername None (u_Username u) db = Ok u.
Proof.
  intros Hdb Hk. unfold Users_GetByUsername. destruct (find_row _ _) as [x|] eqn:Hf.
  - apply find_row_Some in Hf as [Hu (k' & Hk')]. bools.
    pose proof (to_unique _ _ _ _ (ao_users _ Hdb) _ _ _ _ Hk' Hk Hu). by simplify_eq.
  - pose proof (find_row_None _ _ _ _ Hf Hk) as Hn. simpl in Hn. by bools.
Qed.

Lemma user_id db k u : admin_ok db -> admin_users db !! k = Some u -> u_ID u = k.
Proof. intros Hdb. apply (to_id _ _ _ _ (ao_users _ Hdb)). Qed.

(** The statements that write one user's row write no other. *)
Lemma update_user_other io now u db k :
  admin_ok db -> k <> u_ID u -> admin_users (Users_Update io now u db).2 !! k = admin_users db !! k.
Proof.
  intros Hdb Hk. unfold Users_Update. write_cases Hw. destruct Hw as [[-> _]|(-> & _)]; [done|]. simpl.
  rewrite (lookup_update_id _ _ _ _ _ _ _ (ao_users _ Hdb)). by rewrite decide_False.
Qed.

Lemma successful_login_other io now id db k :
  admin_ok db -> k <> id -> admin_users (RecordSuccessfulLogin io now id db).2 !! k = admin_users db !! k.
Proof.
  intros Hdb Hk. destruct io; [done|]. simpl. rewrite (lookup_update_id _ _ _ _ _ _ _ (ao_users _ Hdb)).
  by rewrite decide_False.
Qed.

Lemma failed_login_other io io' now id threshold lockFor db k :
  admin_ok db -> k <> id ->
  admin_users (RecordFailedLogin io io' now id threshold lockFor db).2 !! k = admin_users db !! k.
Proof.
  intros Hdb Hk. unfold RecordFailedLogin, InTx. destruct io, (admin_users db !! id); try done. destruct io'; [done|].
  simpl. rewrite (lookup_update_id _ _ _ _ _ _ _ (ao_users _ Hdb)). by rewrite decide_False.
Qed.

(** The update of the row itself, once its constraints hold. *)
Lemma update_user_row now u db k r :
  admin_ok db -> admin_users db !! k = Some r -> u_ID u = k -> user_error u db = None ->
  Users_Update None now u db
  = (Ok tt, set_users (sql_update (fun r => bool_decide (u_ID r = k)) (user_set now u) (admin_users db)) db)
  /\ admin_users (Users_Update None now u db).2 !! k = Some (user_set now u r).
Proof.
  intros Hdb Hk Hi He. unfold Users_Update. rewrite He, (write_row_ok _ _ _ _ _ _ _ k r) by (try done; by rewrite (user_id _ _ _ Hdb Hk)).
  rewrite Hi. split; [done|]. simpl. rewrite (lookup_update_id _ _ _ _ _ _ _ (ao_users _ Hdb)), decide_True by done.
  by rewrite Hk.
Qed.

(** What an update that was reported done found and left. *)
Lemma Users_Update_Ok io now u db x db' :
  admin_ok db -> Users_Update io now u db = (Ok x, db') ->
  user_error u db = None /\ admin_sessions db' = admin_sessions db
  /\ exists r, admin_users db !! u_ID u = Some r /\ admin_users db' !! u_ID u = Some (user_set now u r).
Proof.
  intros Hdb. unfold Users_Update. write_cases Hw. intros [= -> ->]. destruct Hw as [[_ ?]|(-> & _ & He & _ & k & r & Hk & Hr)]; [done|].
  split; [done|]. split; [done|]. exists r. rewrite <- Hr, (user_id _ _ _ Hdb Hk). split; [done|]. simpl.
  rewrite (lookup_update_id _ _ _ _ _ _ _ (ao_users _ Hdb)), decide_True by done. by rewrite Hk.
Qed.

(** The constraints that hold of a row of the table hold of what an update
    makes of it, as long as the name, the role, the source and the subject stay. *)
Lemma user_error_keeps db k r u :
  admin_ok db -> admin_users db !! k = Some r ->
  u_ID u = u_ID r -> u_Username u = u_Username r -> u_Subject u = u_Subject r -> u_Source u = u_Source r ->
  known_role (u_Role u) = true -> user_error u db = None.
Proof.
  intros Hdb Hk Hi Hn Hs Hsrc Hrole. unfold user_error, same_subject. rewrite Hrole, Hsrc, Hi, Hn, Hs.
  destruct (to_row _ _ _ _ (ao_users _ Hdb) _ _ Hk) as [_ Hsource]. rewrite Hsource. simpl.
  destruct (_ || _) eqn:He; [|done]. exfalso. apply orb_true_iff in He as [He|He].
  - apply exists_row_spec in He as (k' & x & Hx & He). bools.
    pose proof (to_unique _ _ _ _ (ao_users _ Hdb) _ _ _ _ Hx Hk ltac:(done)). by simplify_eq.
  - apply exists_row_spec in He as (k' & x & Hx & He). bools.
    assert (subject_key x = subject_key r) as Hkey.
    { unfold subject_key. destruct (u_Subject r) as [y|] eqn:Hy; [|by destruct H]. by destruct (u_Subject x); simplify_eq; congruence. }
    pose proof (to_unique _ _ _ _ (ao_subjects _ Hdb) _ _ _ _ Hx Hk Hkey). by simplify_eq.
Qed.

(** ** Password sign-in *)

Section Local.
Context `{PH : PasswordHasher}.
Context (decoyHash : string).

Lemma local_rehash_ok io u password db : admin_ok db -> admin_ok (local_rehash io u password db).2.
Proof. intros Hdb. unfold local_rehash. destruct (ph_hash _); simpl; auto with store. Qed.

Lemma successful_login_ok io now id db : admin_ok db -> admin_ok (RecordSuccessfulLogin io now id db).2.
Proof. intros Hdb. apply (exec_snd_ok admin_ok); [done|]. by apply update_users_ok. Qed.

Lemma local_Authenticate_ok cfg io now name password read db :
  admin_ok db -> admin_ok (si_db (local_Authenticate decoyHash cfg io now name password read db)).
Proof.
  intros Hdb. unfold local_Authenticate. destruct (negb _); [done|].
  destruct (Users_GetByUsername _ _ _) as [user|[]]; try done. destruct (LockedAt _ _); [done|].
  destruct (bool_decide _); [done|]. destruct (ph_verify _ _) as [[[] due]|]; try done; [|by apply failed_login_ok].
  destruct (u_Disabled user); [done|]. destruct due; simpl; [|by apply successful_login_ok].
  destruct (local_rehash io user password db) as [user' db'] eqn:Hr. simpl. apply successful_login_ok.
  pose proof (local_rehash_ok io user password db Hdb) as H. by rewrite Hr in H.
Qed.

(** An attempt at one name leaves the other users' rows as they are. *)
Lemma local_other_user cfg io now name password db k u :
  admin_ok db -> admin_users db !! k = Some u -> u_Username u <> name ->
  admin_users (si_db (local_Authenticate decoyHash cfg io now name password db db)) !! k = Some u.
Proof.
  intros Hdb Hk Hne. unfold local_Authenticate. destruct (negb _); [done|].
  destruct (Users_GetByUsername _ _ _) as [user|[]] eqn:Hu; try done.
  apply Users_GetByUsername_Ok in Hu as (Hname & k' & Hk').
  assert (k <> u_ID user) as Hid by (rewrite (user_id _ _ _ Hdb Hk'); intros ->; simplify_eq).
  destruct (LockedAt _ _); [done|]. destruct (bool_decide _); [done|].
  destruct (ph_verify _ _) as [[[] due]|]; try done; simpl.
  - destruct (u_Disabled user); [done|]. destruct due; simpl; [|by rewrite successful_login_other].
    unfold local_rehash. destruct (ph_hash _); simpl; [|by rewrite successful_login_other].
    rewrite successful_login_other by auto with store. by rewrite update_user_other.
  - unfold local_recordFailure. by rewrite failed_login_other.
Qed.

(** The failure of an attempt could not be recorded. *)
Definition uncounted (io : LoginIO) : bool := negb (bool_decide (li_count io = None)) || negb (bool_decide (li_count' io = None)).

(** A wrong password: nothing happens while the account is locked, and
    otherwise the failure is counted, if it can be. *)
Lemma wrong_guess cfg io now password db k u h due :
  admin_ok db -> admin_users db !! k = Some u -> u_PasswordHash u = Some h -> h <> "" ->
  ph_verify h password = Ok (false, due) ->
  let run := local_Authenticate decoyHash cfg io now (u_Username u) password db db in
  (si_verified run = [] /\ si_db run = db)
  \/ (si_verified run = [(h, password)] /\ LockedAt u now = false
      /\ let failures := u_FailedLogins u + 1 in
         admin_users (si_db run) !! k
         = if uncounted io then Some u else Some (set_counters failures
             (if (lc_LockoutThreshold cfg >? 0) && (failures >=? lc_LockoutThreshold cfg)
              then NullTime (li_now io + lc_LockoutDuration cfg) else None) (li_now io) u)).
Proof.
  intros Hdb Hk Hh Hne Hv. simpl. unfold local_Authenticate. destruct (negb _); [by left|].
  destruct (li_read io); [by left|]. rewrite (Users_GetByUsername_known _ _ _ Hdb Hk), Hh.
  destruct (LockedAt u now) eqn:Hl; [by left|]. right. simpl. rewrite bool_decide_eq_false_2, Hv by done. simpl.
  split_and!; [done..|]. unfold local_recordFailure, RecordFailedLogin, InTx, uncounted. rewrite (user_id _ _ _ Hdb Hk), Hk.
  destruct (li_count io), (li_count' io); [done..|]. simpl. rewrite (lookup_update_id _ _ _ _ _ _ _ (ao_users _ Hdb)), decide_True by done. by rewrite Hk.
Qed.
(** ** A run of attempts *)

(** One attempt: when it is checked, with what, and how its writes go. *)
Record Guess := mkGuess { g_username : string; g_password : string; g_now : Z; g_io : LoginIO }.

Definition guess (cfg : LocalConfig) (g : Guess) (db : AdminDB) : SignIn :=
  local_Authenticate decoyHash cfg (g_io g) (g_now g) (g_username g) (g_password g) db db.

(** How many passwords are checked for a name along a run. *)
Fixpoint guesses_checked (cfg : LocalConfig) (name : string) (gs : list Guess) (db : AdminDB) : Z :=
  match gs with
  | [] => 0
  | g :: rest =>
      (if bool_decide (g_username g = name) then Z.of_nat (length (si_verified (guess cfg g db))) else 0)
      + guesses_checked cfg name rest (si_db (guess cfg g db))
  end.

(** The attempts are made one after the other, between [t] and [until]. *)
Fixpoint in_window (t until : Z) (gs : list Guess) : Prop :=
  match gs with
  | [] => t <= until
  | g :: rest => t <= g_now g /\ g_now g <= li_now (g_io g) /\ in_window (li_now (g_io g)) until rest
  end.

(** A wrong password for the stored hash. *)
Definition wrong (h : string) (g : Guess) : Prop := exists due, ph_verify h (g_password g) = Ok (false, due).

(** The attempts at a name whose failure could not be recorded. *)
Fixpoint lost_counts (name : string) (gs : list Guess) : Z :=
  match gs with
  | [] => 0
  | g :: rest => (if bool_decide (g_username g = name) && uncounted (g_io g) then 1 else 0) + lost_counts name rest
  end.

(** What the lockout leaves to try until a moment. *)
Definition budget (cfg : LocalConfig) (u : AdminUser) (t until : Z) : Z :=
  Z.max 1 (lc_LockoutThreshold cfg - u_FailedLogins u)
  + (until - Z.max t (default t (u_LockedUntil u))) `div` lc_LockoutDuration cfg.

Lemma in_window_le t until gs : in_window t until gs -> t <= until.
Proof.
  revert t. induction gs as [|g gs IH]; simpl; intros t; [done|]. intros (? & ? & H%IH). lia.
Qed.

Lemma budget_mono cfg u t t' until :
  0 < lc_LockoutDuration cfg -> t <= t' -> budget cfg u t' until <= budget cfg u t until.
Proof.
  intros Hd Ht. unfold budget. apply Z.add_le_mono_l, Z.div_le_mono; [done|]. destruct (u_LockedUntil u); simpl; lia.
Qed.

(** Counting a failure uses up one guess. *)
Lemma budget_counted cfg u t now t' until :
  0 < lc_LockoutThreshold cfg -> 0 < lc_LockoutDuration cfg -> 0 < t' -> t <= now <= t' -> t' <= until ->
  LockedAt u now = false ->
  let failures := u_FailedLogins u + 1 in
  let u' := set_counters failures
    (if (lc_LockoutThreshold cfg >? 0) && (failures >=? lc_LockoutThreshold cfg)
     then NullTime (t' + lc_LockoutDuration cfg) else None) t' u in
  1 + Z.max 0 (budget cfg u' t' until) <= budget cfg u t until.
Proof.
  intros Hth Hd H0 Ht Hu Hl failures u'. subst u'. unfold budget. simpl.
  assert (Z.max t (default t (u_LockedUntil u)) <= t') as Hm.
  { unfold LockedAt, After in Hl. destruct (u_LockedUntil u); simpl; bools; lia. }
  pose proof (Z.div_le_mono (until - t') (until - Z.max t (default t (u_LockedUntil u))) _ Hd ltac:(lia)) as Hdiv.
  pose proof (Z.div_pos (until - t') _ ltac:(lia) Hd).
  rewrite Z.gtb_ltb, (proj2 (Z.ltb_lt _ _)) by done. simpl. destruct (failures >=? _) eqn:Hf; bools.
  - unfold NullTime, IsZero, time_zero. rewrite (proj2 (Z.eqb_neq _ _)) by lia. simpl.
    rewrite (Z.max_r t') by lia.
    replace (until - (t' + lc_LockoutDuration cfg)) with ((until - t') + (-1) * lc_LockoutDuration cfg) by lia.
    rewrite Z.div_add by lia. lia.
  - simpl. rewrite Z.max_id. lia.
Qed.

Lemma guesses_within_budget cfg name gs k h until :
  0 < lc_LockoutThreshold cfg -> 0 < lc_LockoutDuration cfg -> h <> "" ->
  (forall g, g ∈ gs -> g_username g = name -> wrong h g) ->
  forall db u t, 0 < t -> in_window t until gs -> admin_ok db -> admin_users db !! k = Some u ->
  u_Username u = name -> u_PasswordHash u = Some h ->
  guesses_checked cfg name gs db <= Z.max 0 (budget cfg u t until) + lost_counts name gs.
Proof.
  intros Hth Hd Hne. induction gs as [|g gs IH]; intros Hw db u t Ht Hin Hdb Hk Hn Hh; [simpl; lia|].
  simpl in Hin. destruct Hin as (Hin1 & Hin2 & Hin3). pose proof (in_window_le _ _ _ Hin3) as Hle.
  pose proof (local_Authenticate_ok cfg (g_io g) (g_now g) (g_username g) (g_password g) db db Hdb) as Hdb'.
  assert (forall g, g ∈ gs -> g_username g = name -> wrong h g) as Hw' by (intros; apply Hw; [by right|done]).
  pose proof (budget_mono cfg u t (li_now (g_io g)) until Hd ltac:(lia)) as Hmono.
  simpl. unfold guess in *. case_bool_decide as Hg.
  - destruct (Hw g ltac:(left) Hg) as (due & Hv).
    pose proof (wrong_guess cfg (g_io g) (g_now g) (g_password g) db k u h due Hdb Hk Hh Hne Hv) as Hcase.
    simpl in Hcase. rewrite Hn, <- Hg in Hcase. cbn [andb]. destruct Hcase as [[-> ->]|(-> & Hl & Hk')].
    + simpl. specialize (IH Hw' db u (li_now (g_io g)) ltac:(lia) Hin3 Hdb Hk Hn Hh). destruct (uncounted _); lia.
    + destruct (uncounted (g_io g)).
      { specialize (IH Hw' _ u (li_now (g_io g)) ltac:(lia) Hin3 Hdb' Hk' Hn Hh). simpl in IH |- *. lia. }
      specialize (IH Hw' _ _ (li_now (g_io g)) ltac:(lia) Hin3 Hdb' Hk' Hn Hh).
      pose proof (budget_counted cfg u t (g_now g) (li_now (g_io g)) until Hth Hd ltac:(lia) ltac:(lia) Hle Hl) as Hb.
      simpl in Hb, IH |- *. lia.
  - assert (u_Username u <> g_username g) as Hother by congruence.
    pose proof (local_other_user cfg (g_io g) (g_now g) (g_username g) (g_password g) db k u Hdb Hk Hother) as Hk'.
    specialize (IH Hw' _ u (li_now (g_io g)) ltac:(lia) Hin3 Hdb' Hk' Hn Hh). cbn [andb]. lia.
Qed.

(** C38: The lockout bounds online guessing. When passwords are tried one after
    the other, any at other accounts and wrong ones at this account, then
    between two moments at most as many are checked against it as the threshold
    leaves, plus one for every lockout period that passes, plus one for every
    failure that could not be recorded; the counter is not reset when a lock runs
    out, so a single failure locks again. A correct password at this account
    ends the run the bound is about, since it resets the counter. *)
Theorem lockout_bounds_guesses cfg gs db k u h t until :
  admin_ok db -> admin_users db !! k = Some u -> u_PasswordHash u = Some h -> h <> "" ->
  0 < lc_LockoutThreshold cfg -> 0 < lc_LockoutDuration cfg -> 0 < t -> in_window t until gs ->
  (forall g, g ∈ gs -> g_username g = u_Username u -> wrong h g) ->
  guesses_checked cfg (u_Username u) gs db
  <= Z.max 1 (lc_LockoutThreshold cfg - u_FailedLogins u) + (until - t) `div` lc_LockoutDuration cfg + lost_counts (u_Username u) gs.
Proof.
  intros Hdb Hk Hh Hne Hth Hd Ht Hin Hw. pose proof (in_window_le _ _ _ Hin).
  pose proof (guesses_within_budget cfg _ gs k h until Hth Hd Hne Hw db u t Ht Hin Hdb Hk eq_refl Hh) as Hb.
  pose proof (Z.div_pos (until - t) _ ltac:(lia) Hd).
  assert (budget cfg u t until <= Z.max 1 (lc_LockoutThreshold cfg - u_FailedLogins u) + (until - t) `div` lc_LockoutDuration cfg).
  { unfold budget. apply Z.add_le_mono_l, Z.div_le_mono; lia. }
  lia.
Qed.
(** A password sign-in is sound: whoever is let in is a user of the table, of
    the name that was given, enabled, not locked out, with a password, and that
    password is the one given; they are handed out with the role of the row. *)
Theorem local_sign_in_sound cfg io now username password read db user :
  si_result (local_Authenticate decoyHash cfg io now username password read db) = Ok user ->
  lc_Enabled cfg = true
  /\ exists u k h due, admin_users read !! k = Some u /\ u_Username u = username
       /\ CanSignIn u now = true /\ u_PasswordHash u = Some h /\ h <> "" /\ ph_verify h password = Ok (true, due)
       /\ u_ID user = u_ID u /\ u_Role user = u_Role u /\ u_Source user = u_Source u.
Proof.
  unfold local_Authenticate, CanSignIn. destruct (lc_Enabled cfg); [|done]. simpl.
  destruct (Users_GetByUsername _ _ _) as [u|[]] eqn:Hu; try done. apply Users_GetByUsername_Ok in Hu as (Hn & k & Hk).
  destruct (LockedAt u now) eqn:Hl; [done|]. destruct (u_PasswordHash u) as [h|] eqn:Hh; simpl; [|done].
  case_bool_decide as Hne; [done|]. destruct (ph_verify h password) as [[[] due]|] eqn:Hv; try done.
  destruct (u_Disabled u) eqn:Hd; [done|]. intros Hr. split; [done|]. exists u, k, h, due. rewrite Hd, Hl, Hh.
  destruct due; simpl in Hr; [|by injection Hr as <-]. unfold local_rehash in Hr.
  destruct (ph_hash password); simpl in Hr; by injection Hr as <-.
Qed.

(** What a sign-in leaves in the user's row when its writes succeed. *)
Lemma signed_in_row io u password db k due :
  admin_ok db -> admin_users db !! k = Some u -> li_success io = None ->
  let '(user, db') := if due : bool then local_rehash io u password db else (u, db) in
  u_ID user = k /\ exists u', admin_users (RecordSuccessfulLogin (li_success io) (li_now io) (u_ID user) db').2 !! k = Some u'
    /\ u_FailedLogins u' = 0 /\ u_LockedUntil u' = None /\ u_Role u' = u_Role u /\ u_Disabled u' = u_Disabled u.
Proof.
  intros Hdb Hk Hs. pose proof (user_id _ _ _ Hdb Hk) as Hid. rewrite Hs.
  assert (forall db' u', admin_ok db' -> admin_users db' !! k = Some u' ->
    admin_users (RecordSuccessfulLogin None (li_now io) k db').2 !! k = Some (set_login (li_now io) u')) as Hset.
  { intros db' u' Hdb' Hk'. simpl. rewrite (lookup_update_id _ _ _ _ _ _ _ (ao_users _ Hdb')), decide_True by done. by rewrite Hk'. }
  destruct due; [|split; [done|]; rewrite Hid, (Hset _ _ Hdb Hk); by eexists].
  unfold local_rehash. destruct (ph_hash password) as [h|]; [|split; [done|]; rewrite Hid, (Hset _ _ Hdb Hk); by eexists].
  simpl. split; [done|]. rewrite Hid.
  assert (exists u', admin_users (Users_Update (li_rehash io) (li_now io) (set_u_PasswordHash (NullString h) u) db).2 !! k = Some u'
    /\ u_Role u' = u_Role u /\ u_Disabled u' = u_Disabled u) as (u' & Hk' & Hr & Hd).
  { unfold Users_Update. write_cases Hw. destruct Hw as [[-> _]|(-> & _)]; [by exists u|]. simpl.
    rewrite Hid, (lookup_update_id _ _ _ _ _ _ _ (ao_users _ Hdb)), decide_True by done. rewrite Hk. by eexists. }
  eapply Hset in Hk'; [|by auto with store]. eexists. split; [exact Hk'|]. done.
Qed.

(** A password sign-in is complete: with a hasher that keeps its law, an
    enabled user who is not locked out gets in with the password their hash was
    made from, and when the outcome can be written, the failures counted so far
    and an old lock are cleared, and nothing else about who they are changes. *)
Theorem local_sign_in_complete `{!PasswordHasherLaws PH} cfg io now password db k u h :
  admin_ok db -> lc_Enabled cfg = true -> admin_users db !! k = Some u -> CanSignIn u now = true ->
  u_PasswordHash u = Some h -> h <> "" -> ph_hash password = Ok h -> li_read io = None -> li_success io = None ->
  let run := local_Authenticate decoyHash cfg io now (u_Username u) password db db in
  exists user, si_result run = Ok user /\ u_ID user = k
    /\ exists u', admin_users (si_db run) !! k = Some u' /\ u_FailedLogins u' = 0 /\ u_LockedUntil u' = None
         /\ u_Role u' = u_Role u /\ u_Disabled u' = false.
Proof.
  intros Hdb He Hk Hc Hh Hne Hhash Hr Hs. unfold CanSignIn in Hc. bools. simpl. unfold local_Authenticate.
  rewrite He, Hr, (Users_GetByUsername_known _ _ _ Hdb Hk), Hh. simpl. rewrite bool_decide_eq_false_2 by done.
  rewrite H0. destruct (ph_verify_hash _ _ Hhash) as [due ->]. rewrite H.
  pose proof (signed_in_row io u password db k due Hdb Hk Hs) as Hrow.
  destruct (if due then _ else _) as [user db']. destruct Hrow as [Hid (u' & Hk' & ? & ? & ? & Hd)].
  exists user. split; [done|]. split; [done|]. exists u'. rewrite Hd. done.
Qed.
End Local.

(** ** Sessions *)

Section Sessions.
Context (HashSessionToken : string -> string).

(** The session a token stands for, with its user, while it is good. *)
Record live (idleTimeout now : Z) (token : string) (auth : Authenticated) (db : AdminDB) : Prop := {
  lv_row : exists k, admin_sessions db !! k = Some (au_Session auth);
  lv_token : s_TokenHash (au_Session auth) = HashSessionToken token;
  lv_user : admin_users db !! s_UserID (au_Session auth) = Some (au_User auth);
  lv_enabled : u_Disabled (au_User auth) = false;
  lv_expires : now < s_ExpiresAt (au_Session auth);
  lv_idle : 0 < idleTimeout -> Sub now (s_LastSeenAt (au_Session auth)) <= idleTimeout
}.

Lemma find_session_Some token db s u :
  find_session HashSessionToken token db = Some (s, u) ->
  s_TokenHash s = HashSessionToken token /\ (exists k, admin_sessions db !! k = Some s)
  /\ admin_users db !! s_UserID s = Some u.
Proof.
  unfold find_session. destruct (find_row _ _) as [s'|] eqn:Hf; [|done].
  destruct (admin_users db !! s_UserID s') as [u'|] eqn:Hu; [|done]. intros [= -> ->].
  apply find_row_Some in Hf as [Ht Hk]. by bools.
Qed.

Lemma find_session_known token db k s u :
  admin_ok db -> admin_sessions db !! k = Some s -> s_TokenHash s = HashSessionToken token ->
  admin_users db !! s_UserID s = Some u -> find_session HashSessionToken token db = Some (s, u).
Proof.
  intros Hdb Hk Ht Hu. unfold find_session. destruct (find_row _ _) as [x|] eqn:Hf.
  - apply find_row_Some in Hf as [Hx (k' & Hk')]. bools.
    pose proof (to_unique _ _ _ _ (ao_sessions _ Hdb) _ _ _ _ Hk' Hk ltac:(congruence)). simplify_eq. by rewrite Hu.
  - pose proof (find_row_None _ _ _ _ Hf Hk) as Hn. simpl in Hn. by bools.
Qed.

Lemma Lookup_live io io' now token idle db auth db' :
  Lookup HashSessionToken io io' now token idle db = (Ok auth, db') -> live idle now token auth db /\ db' = db.
Proof.
  unfold Lookup. destruct io; [done|]. destruct (find_session _ _ _) as [[s u]|] eqn:Hf; [|done].
  apply find_session_Some in Hf as (Ht & Hs & Hu). unfold After. destruct (negb _) eqn:He; [done|].
  destruct (_ && _) eqn:Hi; [done|]. destruct (u_Disabled u) eqn:Hd; [done|]. intros [= <- <-]. bools.
  split; [|done]. split; simpl; try done. intros H0. apply andb_false_iff in Hi as [Hi|Hi]; bools; lia.
Qed.

Lemma live_Lookup io' now token idle db auth :
  admin_ok db -> live idle now token auth db -> Lookup HashSessionToken None io' now token idle db = (Ok auth, db).
Proof.
  intros Hdb [[k Hk] Ht Hu He Hx Hi]. unfold Lookup. rewrite (find_session_known _ _ _ _ _ Hdb Hk Ht Hu).
  unfold After. rewrite (proj2 (Z.ltb_lt _ _)) by done. simpl. destruct (_ && _) eqn:Hc.
  { bools. specialize (Hi ltac:(done)). lia. }
  rewrite He. by destruct auth.
Qed.

Lemma session_Authenticate_live io io' io'' cfg now now' r db auth db' :
  session_Authenticate HashSessionToken io io' io'' cfg now now' r db = (Ok auth, db') ->
  exists token, rq_cookie r = Some token /\ token <> "" /\ live (sc_IdleTimeout cfg) now token auth db.
Proof.
  unfold session_Authenticate. destruct (rq_cookie r) as [token|]; [|done]. case_bool_decide as Ht; [done|].
  destruct (Lookup _ _ _ _ _ _ _) as [[a|[]] db2] eqn:Hl; intros H; simplify_eq. apply Lookup_live in Hl as [Hl _]. eauto.
Qed.

(** What a request needs to get past the middleware of a route. *)
Definition admitted (cfg : SessionConfig) (now : Z) (perm : Permission) (r : Request) (auth : Authenticated) (db : AdminDB) : Prop :=
  exists token, rq_cookie r = Some token /\ token <> "" /\ live (sc_IdleTimeout cfg) now token auth db
    /\ (isSafeMethod (rq_Method r) = true \/ rq_csrf r <> "" /\ rq_csrf r = s_CSRFToken (au_Session auth))
    /\ Can (u_Role (au_User auth)) perm = true.

Lemma CheckCSRF_Ok auth r :
  is_ok (CheckCSRF auth r) = true
  <-> isSafeMethod (rq_Method r) = true \/ rq_csrf r <> "" /\ rq_csrf r = s_CSRFToken (au_Session auth).
Proof.
  unfold CheckCSRF, ConstantTimeEqual. destruct (isSafeMethod _); simpl; [tauto|].
  case_bool_decide; simpl; [naive_solver|]. case_bool_decide; simpl; naive_solver.
Qed.

Lemma passed_admitted io io' io'' cfg now now' perm r auth db :
  require perm (requireSession HashSessionToken io io' io'' cfg now now' r db).1 = Passed auth ->
  admitted cfg now perm r auth db.
Proof.
  unfold requireSession. destruct (session_Authenticate _ _ _ _ _ _ _ _ _) as [[a|[]] db'] eqn:Hs; simpl; try done.
  destruct (CheckCSRF a r) as [[]|] eqn:Hc; simpl; [|done]. destruct (Can _ _) eqn:Hp; [|done]. intros [= ->].
  apply session_Authenticate_live in Hs as (token & H1 & H2 & H3). exists token. split_and!; try done.
  apply CheckCSRF_Ok. by rewrite Hc.
Qed.

Lemma admitted_passes io' io'' cfg now now' perm r auth db :
  admin_ok db -> admitted cfg now perm r auth db ->
  require perm (requireSession HashSessionToken None io' io'' cfg now now' r db).1 = Passed auth.
Proof.
  intros Hdb (token & Hr & Ht & Hl & Hc & Hp). unfold requireSession, session_Authenticate. rewrite Hr.
  rewrite bool_decide_eq_false_2, (live_Lookup _ _ _ _ _ _ Hdb Hl) by done. apply CheckCSRF_Ok in Hc.
  destruct (CheckCSRF auth r); [|done]. simpl. by rewrite Hp.
Qed.

(** C16: A route that needs a permission is reached exactly with the cookie of a
    session that has not expired and was not idle too long, of a user who is
    still enabled and whose role, as the database has it now, holds the
    permission, and on a request that changes state only with that session's
    own CSRF token; whatever the failures of the driver, nobody else gets in. *)
Theorem admission_is_exact io' io'' cfg now now' perm r auth db :
  admin_ok db ->
  (forall io, require perm (requireSession HashSessionToken io io' io'' cfg now now' r db).1 = Passed auth ->
     admitted cfg now perm r auth db)
  /\ (admitted cfg now perm r auth db ->
      require perm (requireSession HashSessionToken None io' io'' cfg now now' r db).1 = Passed auth).
Proof. intros Hdb. split; [intros io; apply passed_admitted|by apply admitted_passes]. Qed.

(** Nobody is signed in as a user. *)
Definition signed_out (id : string) (db : AdminDB) : Prop :=
  forall io io' io'' cfg now now' r auth db',
    session_Authenticate HashSessionToken io io' io'' cfg now now' r db = (Ok auth, db') -> u_ID (au_User auth) <> id.

Lemma no_sessions_signed_out id db :
  admin_ok db -> (forall k s, admin_sessions db !! k = Some s -> s_UserID s <> id) -> signed_out id db.
Proof.
  intros Hdb Hs io io' io'' cfg now now' r auth db' Ha.
  apply session_Authenticate_live in Ha as (token & _ & _ & [[k Hk] _ Hu _ _ _]).
  rewrite (user_id _ _ _ Hdb Hu). eauto.
Qed.

Lemma DeleteForUser_signed_out id db : admin_ok db -> signed_out id (DeleteForUser None id db).2.
Proof.
  intros Hdb. simpl. apply no_sessions_signed_out; [by apply delete_sessions_ok|].
  intros k s [_ Hk]%lookup_sql_delete. by bools.
Qed.

(** *** From sign-in to the first request *)

Section Issued.
Context `{NI : NetIP}.
Context (SplitHost : string -> option string) (ParseIP : string -> option IP).

Lemma Issue_Ok io cfg token csrf created now newID u r db s token' csrf' db' :
  Issue SplitHost ParseIP HashSessionToken io cfg token csrf created now newID u r db = (Ok (s, token', csrf'), db') ->
  token = Ok token' /\ csrf = Ok csrf' /\ admin_users db' = admin_users db /\ admin_sessions db' !! s_ID s = Some s
  /\ s_UserID s = u_ID u /\ s_TokenHash s = HashSessionToken token' /\ s_CSRFToken s = csrf'
  /\ s_LastSeenAt s = now /\ s_ExpiresAt s = created + sc_Lifetime cfg.
Proof.
  unfold Issue. destruct token as [token|], csrf as [csrf|]; try done. unfold Sessions_Create, exec.
  destruct io; [done|]. set (v := session_defaults _ _ _).
  destruct (insert_session_error v db) as [[]|]; simpl; try done. intros [= <- <- <- <-]. simpl.
  split_and!; try done. apply lookup_insert_eq.
Qed.

(** Signing in works: the cookie and the CSRF token that a new session comes
    with open every route the user's role allows, from then until the session
    expires or is idle for too long. *)
Theorem issued_session_is_admitted io io' io'' cfg token csrf created now newID u v r db s token' csrf' db' perm now1 now2 r' :
  admin_ok db ->
  Issue SplitHost ParseIP HashSessionToken io cfg token csrf created now newID u r db = (Ok (s, token', csrf'), db') ->
  admin_users db !! u_ID u = Some v -> u_Disabled v = false -> Can (u_Role v) perm = true ->
  rq_cookie r' = Some token' -> token' <> "" -> rq_csrf r' = csrf' -> csrf' <> "" ->
  now1 < created + sc_Lifetime cfg -> (0 < sc_IdleTimeout cfg -> Sub now1 now <= sc_IdleTimeout cfg) ->
  require perm (requireSession HashSessionToken None io' io'' cfg now1 now2 r' db').1 = Passed (mkAuthenticated s v).
Proof.
  intros Hdb Hi Hv He Hc Hr Ht Hcs Hne Hx Hidle.
  assert (admin_ok db') as Hdb'.
  { revert Hi. unfold Issue. destruct token as [t|], csrf as [c|]; try by intros [= <-].
    match goal with |- context [Sessions_Create ?a ?b ?c ?d ?e] =>
      pose proof (create_session_ok a b c d e Hdb) as H; destruct (Sessions_Create a b c d e) as [[] ?] end;
    intros [=]; by subst. }
  apply Issue_Ok in Hi as (-> & -> & Hus & Hs & Hsu & Hst & Hcsrf & Hls & Hex).
  apply admitted_passes; [done|]. exists token'. split_and!; try done.
  - split; simpl; try done; [by eexists|by rewrite Hus, Hsu|lia|by rewrite Hls].
  - right. split; [congruence|]. simpl. congruence.
Qed.
End Issued.

(** *** Changing a password *)

Context `{PH : PasswordHasher}.

(** A password change takes hold at once: when it is reported done, no session
    of the user is left, so whoever was signed in as them, with whatever
    cookie, is signed out; the row holds a hash the new password verifies
    against, and no other user's row is touched. *)
Theorem password_change_takes_hold `{!PasswordHasherLaws PH} io io' now u password db db' :
  admin_ok db -> SetPassword io io' now u password db = (Ok tt, db') ->
  signed_out (u_ID u) db'
  /\ (exists u' h due, admin_users db' !! u_ID u = Some u' /\ ph_hash password = Ok h
        /\ u_PasswordHash u' = NullString h /\ ph_verify h password = Ok (true, due))
  /\ (forall k, k <> u_ID u -> admin_users db' !! k = admin_users db !! k).
Proof.
  intros Hdb. unfold SetPassword. destruct (ph_hash password) as [h|] eqn:Hh; [|done].
  destruct (ph_verify_hash _ _ Hh) as [due Hv]. set (v := set_u_PasswordHash (NullString h) u).
  pose proof (update_user_ok io now v db Hdb) as Hdb1. pose proof (fun k => update_user_other io now v db k Hdb) as Hother.
  destruct (Users_Update io now v db) as [[[]|] db1] eqn:Hup; [|done].
  pose proof (DeleteForUser_signed_out (u_ID u) db1 Hdb1) as Hout.
  destruct io'; [done|]. simpl in Hout |- *. intros [= <-]. split; [done|]. split; [|done].
  apply Users_Update_Ok in Hup as (_ & _ & r & _ & Hr); [|done]. by exists (user_set now v r), h, due.
Qed.

(** The change goes through for a user as the table has them, when the
    statements do. *)
Lemma password_change_succeeds now u password h db k :
  admin_ok db -> admin_users db !! k = Some u -> ph_hash password = Ok h ->
  is_ok (SetPassword None None now u password db).1 = true.
Proof.
  intros Hdb Hk Hh. unfold SetPassword. rewrite Hh. set (v := set_u_PasswordHash (NullString h) u).
  destruct (to_row _ _ _ _ (ao_users _ Hdb) _ _ Hk) as [Hrole _].
  destruct (update_user_row now v db k u Hdb Hk (user_id _ _ _ Hdb Hk)) as [-> _]; [|done].
  by apply (user_error_keeps db k u).
Qed.
End Sessions.

(** ** Single sign-on *)

Section Oidc.
Context `{GF : GoFmt}.

(** One of the values stands for a role. *)
Definition grants_role (mappings : gmap string string) (values : list string) (r : Role) : Prop :=
  exists v s, v ∈ values /\ mappings !! v = Some s /\ ParseRole s = Ok r.

Lemma grants_role_cons mappings v values r :
  grants_role mappings (v :: values) r <->
  (exists s, mappings !! v = Some s /\ ParseRole s = Ok r) \/ grants_role mappings values r.
Proof. unfold grants_role. setoid_rewrite elem_of_cons. naive_solver. Qed.

Lemma best_role_spec mappings values best :
  match best_role mappings values best with
  | None => best = None /\ forall r, ~ grants_role mappings values r
  | Some r => (best = Some r \/ grants_role mappings values r)
              /\ forall r', best = Some r' \/ grants_role mappings values r' -> rank r' <= rank r
  end.
Proof.
  revert best. induction values as [|v values IH]; intros best; simpl.
  { destruct best; [split; [by left|]; intros r' [[= ->]|(? & ? & ?%elem_of_nil & _)]; done|].
    split; [done|]. intros r (? & ? & ?%elem_of_nil & _). done. }
  assert (forall best', (forall r, best = Some r -> best' = Some r) ->
    (forall r, best' = Some r -> best = Some r) -> (forall r, ~ exists s, mappings !! v = Some s /\ ParseRole s = Ok r) ->
    match best_role mappings values best' with
    | None => best = None /\ forall r, ~ grants_role mappings (v :: values) r
    | Some r => (best = Some r \/ grants_role mappings (v :: values) r)
                /\ forall r', best = Some r' \/ grants_role mappings (v :: values) r' -> rank r' <= rank r
    end) as Hskip.
  { intros best' H1 H2 H3. specialize (IH best'). destruct (best_role _ _ _) as [r|]; setoid_rewrite grants_role_cons.
    - naive_solver.
    - destruct best as [r|]; naive_solver. }
  destruct (mappings !! v) as [mapped|] eqn:Hm; [|apply Hskip; try done; intros r (? & [=] & _)].
  destruct (ParseRole mapped) as [role|] eqn:Hp; [|apply Hskip; try done; intros r (? & [= <-] & ?); congruence].
  set (best' := match best with Some _ => _ | None => _ end). specialize (IH best').
  assert (exists b, best' = Some b /\ (b = role \/ best = Some b) /\ rank role <= rank b
    /\ forall r, best = Some r -> rank r <= rank b) as (b & Hb & Hfrom & Hge & Hold).
  { subst best'. destruct best as [b|]; [|exists role; split_and!; [done|by left|lia|done]].
    unfold morePrivileged. destruct (rank role >? rank b) eqn:Hr; bools.
    - exists role. split_and!; [done|by left|lia|]. intros r [= <-]. lia.
    - exists b. split_and!; [done|by right|lia|]. intros r [= <-]. lia. }
  rewrite Hb in IH |- *. destruct (best_role _ _ _) as [r|]; [|naive_solver]. destruct IH as [Hr Hmax].
  split.
  - rewrite grants_role_cons. naive_solver.
  - intros r'. rewrite grants_role_cons. specialize (Hmax b ltac:(by left)) as Hrb.
    intros [Hr'|[(x & ? & ?)|Hg]]; [specialize (Hold _ Hr'); lia| |by apply Hmax; right].
    assert (r' = role) as -> by congruence. lia.
Qed.

(** A role with a higher rank can do what a lower one can. *)
Lemma Can_mono r r' p : rank r' <= rank r -> Can r' p = true -> Can r p = true.
Proof. destruct r, r', p; simpl; try lia; vm_compute; done. Qed.

(** The role of a single sign-on is the most privileged one the groups of the
    identity provider stand for, whatever their order: every permission one of
    them gives is given. The default role is only for someone none of whose
    groups stands for a role, and without one they are refused. *)
Theorem sso_role_is_best cfg c :
  let granted := grants_role (oc_RoleMappings cfg) (claim_values (c_raw c) (oc_RoleClaim cfg)) in
  match roleFor cfg c with
  | Ok r => (granted r /\ forall r' p, granted r' -> Can r' p = true -> Can r p = true)
            \/ ((forall r', ~ granted r') /\ ParseRole (oc_DefaultRole cfg) = Ok r)
  | Err e => (forall r', ~ granted r') /\ is_ok (ParseRole (oc_DefaultRole cfg)) = false
  end.
Proof.
  simpl. unfold roleFor.
  pose proof (best_role_spec (oc_RoleMappings cfg) (claim_values (c_raw c) (oc_RoleClaim cfg)) None) as Hs.
  destruct (best_role _ _ _) as [b|].
  - left. destruct Hs as [[|Hb] Hmax]; [done|]. split; [done|]. intros r' p Hg. apply Can_mono, Hmax. by right.
  - destruct Hs as [_ Hs]. case_bool_decide as Hd; [by rewrite Hd|].
    destruct (ParseRole _) eqn:Hp; [by right|done].
Qed.
(** Only the row of one user is written. *)
Definition only_user (id : string) (db db' : AdminDB) : Prop :=
  forall k, k <> id -> admin_users db' !! k = admin_users db !! k.

(** What is left of a sign-in: the row with its role, and no session of a user
    whose role changed. *)
Definition signed_in_as (hash : string -> string) (id : string) (role : Role) (changed : bool) (db db' : AdminDB) : Prop :=
  only_user id db db' /\ (exists u', admin_users db' !! id = Some u' /\ u_Role u' = role)
  /\ (changed = true -> signed_out hash id db').

Lemma successful_login_row io now id db u :
  admin_ok db -> admin_users db !! id = Some u ->
  exists u', admin_users (RecordSuccessfulLogin io now id db).2 !! id = Some u' /\ u_Role u' = u_Role u.
Proof.
  intros Hdb Hu. destruct io; simpl; [by exists u|].
  rewrite (lookup_update_id _ _ _ _ _ _ _ (ao_users _ Hdb)), decide_True by done. rewrite Hu. by eexists.
Qed.

Lemma successful_login_sessions io now id db :
  admin_sessions (RecordSuccessfulLogin io now id db).2 = admin_sessions db.
Proof. by destruct io. Qed.

Lemma revoke_ok io id db : admin_ok db -> admin_ok (DeleteForUser io id db).2.
Proof. intros Hdb. destruct io; simpl; auto with store. Qed.

Lemma revoke_users io id db : admin_users (DeleteForUser io id db).2 = admin_users db.
Proof. by destruct io. Qed.

Lemma syncExisting_Ok hash cfg io now u c role db user db' :
  admin_ok db -> syncExisting cfg io now u c role db = (Ok user, db') ->
  u_Disabled u = false /\ u_ID user = u_ID u /\ u_Role user = role /\ u_Source user = u_Source u
  /\ signed_in_as hash (u_ID u) role (negb (bool_decide (u_Role u = role)) && bool_decide (oi_revoke io = None)) db db'.
Proof.
  intros Hdb. unfold syncExisting. destruct (u_Disabled u) eqn:Hd; [done|]. set (v := synced cfg c role u).
  pose proof (update_user_ok (oi_write io) now v db Hdb) as Hdb1.
  pose proof (fun k => update_user_other (oi_write io) now v db k Hdb) as Hother.
  destruct (Users_Update _ _ _ _) as [[x|] db1] eqn:Hup; [|done].
  apply Users_Update_Ok in Hup as (_ & _ & r & _ & Hr); [|done]. simpl in Hdb1, Hother.
  set (db2 := if bool_decide (u_Role u = role) then db1 else _).
  assert (admin_ok db2 /\ admin_users db2 = admin_users db1) as [Hdb2 Hus].
  { subst db2. case_bool_decide; [done|]. split; [by apply revoke_ok|apply revoke_users]. }
  intros [= <- <-]. split_and!; try done. split.
  { intros k Hk. rewrite successful_login_other by done. rewrite Hus. by apply Hother. }
  split.
  - destruct (successful_login_row (oi_success io) now (u_ID v) db2 (user_set now v r) Hdb2) as (u' & Hu' & Hrole); [by rewrite Hus|].
    exists u'. split; [done|]. by rewrite Hrole.
  - intros Hch. bools. apply no_sessions_signed_out; [by apply successful_login_ok|].
    rewrite successful_login_sessions. subst db2. rewrite bool_decide_eq_false_2, H0 by done. simpl.
    intros k s' [_ Hs]%lookup_sql_delete. by bools.
Qed.

Lemma provision_Ok hash cfg io now newID c role db user db' :
  admin_ok db -> provision cfg io now newID c role db = (Ok user, db') ->
  admin_users db !! u_ID user = None /\ u_Role user = role /\ u_Source user = SourceOIDC /\ u_Disabled user = false
  /\ u_Subject user = NullString (c_Subject c) /\ signed_in_as hash (u_ID user) role false db db'.
Proof.
  intros Hdb. unfold provision. destruct (bool_decide _); [done|]. unfold Users_Create, exec.
  destruct (oi_write io); [done|]. set (v := user_defaults _ _ _).
  destruct (insert_error _ _) as [[]|] eqn:He; simpl; try done. apply insert_error_None in He as [He Hf]. bools.
  intros [= <- <-]. assert (admin_users db !! u_ID v = None) as Hnone by (by apply eq_None_not_Some).
  assert (admin_ok (set_users (<[u_ID v := v]> (admin_users db)) db)) as Hdb1. by (by apply insert_user_ok).
  split_and!; try done. split.
  { intros k Hk. rewrite successful_login_other by done. simpl. by rewrite lookup_insert_ne. }
  split; [|done].
  destruct (successful_login_row (oi_success io) now (u_ID v) _ v Hdb1) as (u' & Hu' & Hrole); [apply lookup_insert_eq|].
  by exists u'.
Qed.

Lemma GetBySubject_Ok io source subject db u :
  GetBySubject io source subject db = Ok u ->
  u_Source u = source /\ u_Subject u = Some subject /\ exists k, admin_users db !! k = Some u.
Proof.
  unfold GetBySubject. destruct io; [done|]. destruct (find_row _ _) as [x|] eqn:Hf; [|done]. intros [= <-].
  apply find_row_Some in Hf as [Hu Hk]. by bools.
Qed.

(** What [resolveUser] makes of the claims: the role, and the account. *)
Definition resolved (hash : string -> string) (cfg : OIDCConfig) (io : OidcIO) (subject : string) (read db : AdminDB)
    (user : AdminUser) (db' : AdminDB) : Prop :=
  (exists old k, admin_users read !! k = Some old /\ u_Subject old = Some subject
     /\ u_Source old = SourceOIDC /\ u_Disabled old = false /\ u_ID old = u_ID user
     /\ signed_in_as hash (u_ID user) (u_Role user)
          (negb (bool_decide (u_Role old = u_Role user)) && bool_decide (oi_revoke io = None)) db db')
  \/ (oc_AllowSignup cfg = true /\ admin_users db !! u_ID user = None /\ u_Subject user = NullString subject
     /\ signed_in_as hash (u_ID user) (u_Role user) false db db').

Lemma resolveUser_Ok hash cfg io now newID c read db user db' :
  admin_ok db -> resolveUser cfg io now newID c read db = (Ok user, db') ->
  roleFor cfg c = Ok (u_Role user) /\ u_Source user = SourceOIDC /\ resolved hash cfg io (c_Subject c) read db user db'.
Proof.
  intros Hdb. unfold resolveUser. destruct (roleFor cfg c) as [role|] eqn:Hr; [|done].
  destruct (GetBySubject _ _ _ _) as [old|[]] eqn:Hg; try done.
  - apply GetBySubject_Ok in Hg as (Hsrc & Hsub & k & Hk).
    intros (Hd & Hid & Hrole & Hs & Hdone)%(syncExisting_Ok hash); [|done]. rewrite Hrole, Hs. split_and!; try done.
    left. exists old, k. rewrite Hid, Hrole. done.
  - destruct (oc_AllowSignup cfg) eqn:Ha; [|done].
    intros (Hnone & Hrole & Hs & _ & Hsub & Hdone)%(provision_Ok hash); [|done]. rewrite Hrole, Hs. split_and!; try done.
    right. by rewrite Hrole.
Qed.

(** A single sign-on is sound. It only goes through for the browser that
    started it, with an ID token for that attempt, and with the role the
    token's groups stand for now. It signs in the enabled account that the
    provider's subject belongs to or, where sign-up is allowed, makes a new one;
    it never takes over another account, a local one least of all: no other
    row is written. A change of role ends the sessions from before. *)
Theorem sso_sign_in_sound hash cfg io now newID state nonce returnedState callback read db user db' :
  admin_ok db ->
  Complete cfg io now newID state nonce returnedState callback read db = (Ok user, db') ->
  returnedState = state /\ state <> ""
  /\ exists token raw, callback = Ok token /\ it_Nonce token = nonce /\ it_claims token = Ok raw
       /\ roleFor cfg (readClaims (it_Subject token) raw) = Ok (u_Role user) /\ u_Source user = SourceOIDC
       /\ resolved hash cfg io (it_Subject token) read db user db'.
Proof.
  intros Hdb. unfold Complete, ConstantTimeEqual. case_bool_decide; [done|]. case_bool_decide as Hst; [|done]. simpl.
  destruct callback as [token|]; [|done]. case_bool_decide as Hn; [|done]. simpl.
  destruct (it_claims token) as [raw|] eqn:Hc; [|done]. intros (Hr & Hs & Hres)%(resolveUser_Ok hash); [|done].
  split; [done|]. split; [congruence|]. by exists token, raw.
Qed.
End Oidc.

(** The UI is told exactly what the role may do, and every role the database
    can hold is listed. *)
Lemma PermissionsFor_spec r p : p ∈ PermissionsFor r <-> Can r p = true.
Proof.
  unfold PermissionsFor. rewrite list_elem_of_filter. split; [by intros [? _]|]. intros Hc. split; [done|].
  destruct p; vm_compute; set_solver.
Qed.

Lemma AllRoles_known r : r ∈ AllRoles <-> known_role r = true.
Proof. unfold AllRoles. destruct r; simpl; set_solver. Qed.

(** ** Where a request came from *)

Section Origin.
Context `{NI : NetIP}.
Context (SplitHost : string -> option string) (ParseIP : string -> option IP).

(** A forwarded address is only believed of a trusted proxy. *)
Lemma forwarded_needs_trust r trusted :
  (forall ip, request_ip SplitHost ParseIP (rq_RemoteAddr r) = Some ip -> containsIP trusted ip = false) ->
  ClientIP SplitHost ParseIP r trusted = ip_text (request_ip SplitHost ParseIP (rq_RemoteAddr r)).
Proof.
  unfold ClientIP. destruct trusted as [|n l], (request_ip _ _ _) as [a|]; try done. intros H. by rewrite H.
Qed.

(** Behind a trusted proxy that appends to the header, the address recorded is
    whatever the client put at its front. *)
Lemma client_chooses_forwarded_address r trusted claimed appended proxy ip :
  request_ip SplitHost ParseIP (rq_RemoteAddr r) = Some proxy -> containsIP trusted proxy = true ->
  rq_forwarded r = claimed +:+ "," +:+ appended -> contains_byte claimed COMMA = false -> ParseIP (TrimSpace claimed) = Some ip ->
  ClientIP SplitHost ParseIP r trusted = IP_String ip.
Proof.
  intros Hr Ht Hf Hc Hp. unfold ClientIP. rewrite Hr, Ht, Hf. destruct trusted; [done|]. simpl.
  rewrite bool_decide_eq_false_2 by (by destruct claimed).
  change ("," +:+ appended) with (String COMMA appended). rewrite split_byte_app by done. simpl. by rewrite Hp.
Qed.
End Origin.

(** ** Witnesses *)

(** A hasher whose hash is the password. *)
Definition echo_hasher : PasswordHasher :=
  Build_PasswordHasher (fun h p => Ok (bool_decide (h = p), false)) (fun p => Ok p).

#[export] Instance echo_hasher_laws : PasswordHasherLaws echo_hasher.
Proof. constructor. intros password hash [= <-]. exists false. simpl. by rewrite bool_decide_eq_true_2. Qed.

Definition token_hash (t : string) : string := "hash of " +:+ t.
Definition strict : LocalConfig := mkLocalConfig true 3 100.
Definition root_row : AdminUser := user_defaults 1 "u1" root_user.
Definition sso_row : AdminUser := user_defaults 2 "u2" sso_user.

(** Six wrong passwords in six seconds. *)
Definition six_guesses : list Guess :=
  (fun t => mkGuess "root" "wrong" t (calm_io t)) <$> [10; 11; 12; 13; 14; 15].

Lemma lockout_bounds_guesses_witness :
  guesses_checked (PH := echo_hasher) "decoy" strict "root" six_guesses sample_admins <= 3.
Proof.
  refine (lockout_bounds_guesses (PH := echo_hasher) "decoy" strict six_guesses sample_admins "u1" root_row
    "correct horse battery" 10 15 sample_admins_ok _ _ _ _ _ _ _ _); try (vm_compute; reflexivity).
  - discriminate.
  - simpl. lia.
  - intros g Hg _. repeat (apply elem_of_cons in Hg as [->|Hg]; [by eexists|]). by apply elem_of_nil in Hg.
Defined.

Lemma local_sign_in_sound_witness :
  exists u k h due, admin_users sample_admins !! k = Some u /\ u_Username u = "root"
    /\ u_PasswordHash u = Some h /\ ph_verify (PasswordHasher := echo_hasher) h "correct horse battery" = Ok (true, due).
Proof.
  destruct (local_sign_in_sound (PH := echo_hasher) "decoy" strict (calm_io 10) 10 "root" "correct horse battery"
    sample_admins sample_admins root_row) as (_ & u & k & h & due & H1 & H2 & _ & H4 & _ & H6 & _).
  - vm_compute. reflexivity.
  - exists u, k, h, due. split; [exact H1|]. split; [exact H2|]. split; [exact H4|exact H6].
Defined.

Lemma local_sign_in_complete_witness :
  exists user, si_result (local_Authenticate (PH := echo_hasher) "decoy" strict (calm_io 10) 10 "root" "correct horse battery"
    sample_admins sample_admins) = Ok user /\ u_ID user = "u1".
Proof.
  destruct (local_sign_in_complete (PH := echo_hasher) "decoy" strict (calm_io 10) 10 "correct horse battery" sample_admins "u1"
    root_row "correct horse battery" sample_admins_ok) as (user & H1 & H2 & _); try (vm_compute; reflexivity).
  - discriminate.
  - exists user. split; [exact H1|exact H2].
Defined.

Definition post : Request := mkRequest "POST" (Some "cookie") "csrf" "" "" "".
Definition root_auth : Authenticated := mkAuthenticated (session_defaults 3 "s1" root_session) root_row.
Definition short : SessionConfig := mkSessionConfig 900 100.

Lemma admission_is_exact_witness :
  require PermManageUsers (requireSession token_hash None None None short 50 50 post sample_admins).1 = Passed root_auth.
Proof.
  apply (proj2 (admission_is_exact token_hash None None short 50 50 PermManageUsers post root_auth sample_admins sample_admins_ok)).
  exists "cookie". split; [done|]. split; [discriminate|]. split; [|split; [right; split; [discriminate|reflexivity]|reflexivity]].
  split; [exists "s1"; vm_compute; reflexivity|vm_compute; reflexivity..|intros _; vm_compute; discriminate].
Defined.

Definition one_ip : NetIP := Build_NetIP string string id (fun s => Ok s) (fun n a => bool_decide (n = a)).

Definition issued : result SessionErr (Session * string * string) * AdminDB :=
  Issue (NI := one_ip) (fun _ => None) (fun _ => None) token_hash None short (Ok "tok") (Ok "csrf2") 60 61 "s2" root_row
    post sample_admins.
Definition issued_session : Session := mkAdminSession "s2" "u1" "hash of tok" "csrf2" "<nil>" "" 60 61 960.

Lemma issued_session_is_admitted_witness :
  require PermManageUsers (requireSession token_hash None None None short 100 100
    (mkRequest "POST" (Some "tok") "csrf2" "" "" "") issued.2).1 = Passed (mkAuthenticated issued_session root_row).
Proof.
  apply (issued_session_is_admitted token_hash (NI := one_ip) (fun _ => None) (fun _ => None) None None None short (Ok "tok")
    (Ok "csrf2") 60 61 "s2" root_row root_row post sample_admins issued_session "tok" "csrf2" issued.2 PermManageUsers
    100 100 _ sample_admins_ok); try (vm_compute; reflexivity); try discriminate.
Defined.

Lemma password_change_takes_hold_witness :
  signed_out token_hash "u1"
    (SetPassword (PH := echo_hasher) None None 70 root_row "a new passphrase" sample_admins).2.
Proof.
  apply (password_change_takes_hold token_hash (PH := echo_hasher) None None 70 root_row "a new passphrase" sample_admins).
  - exact sample_admins_ok.
  - vm_compute. reflexivity.
Defined.

(** The provider says that Ann is an operator now. *)
Definition admin_fmt : GoFmt := {| Quote := id |}.
Definition sso : OIDCConfig :=
  mkOIDCConfig "preferred_username" "groups" {[ "ops" := "operator"; "staff" := "viewer" ]} "" false.
Definition ann_token : IDToken :=
  mkIDToken "nonce" "sub-1" (Ok {[ "preferred_username" := CString "ann"; "groups" := CArray [Some "staff"; None; Some "ops"] ]}).
Definition sso_run : result SignInError AdminUser * AdminDB :=
  Complete (GF := admin_fmt) sso (mkOidcIO None None None None) 80 "" "state" "nonce" "state" (Ok ann_token) sample_admins sample_admins.

Lemma sso_sign_in_sound_witness :
  exists user, sso_run.1 = Ok user /\ u_Role user = RoleOperator
    /\ resolved token_hash sso (mkOidcIO None None None None) "sub-1" sample_admins sample_admins user sso_run.2.
Proof.
  eexists. split; [vm_compute; reflexivity|]. split; [reflexivity|].
  match goal with |- resolved _ _ _ _ _ _ ?u _ =>
    destruct (sso_sign_in_sound (GF := admin_fmt) token_hash sso (mkOidcIO None None None None) 80 "" "state" "nonce" "state"
      (Ok ann_token) sample_admins sample_admins u sso_run.2 sample_admins_ok ltac:(vm_compute; reflexivity))
      as (_ & _ & token & raw & H1 & _ & _ & _ & _ & H) end.
  injection H1 as <-. exact H.
Defined.
