(* ===== verification/AdminApi.v ===== *)
(** * The management API: people and sign-in

    [internal/adminapi/{users,auth}.go]: the handlers that manage
    administrators and sign them in and out, behind the middleware of
    [AdminAuth]. A handler is given the decoded request body; it returns the
    HTTP status, the audit entries it appended and the database. Where a
    handler reads and then writes, other requests can come in between: each
    read has its own database argument. Response bodies and cookies are left
    out. *)

From stdpp Require Import base gmap strings list.
From Stdlib Require Import ZArith Lia.
From S2P Require Import Prelude GoStrings StoreModels MessageStore Directory Policy Password AdminStore AdminAuth.

Open Scope Z_scope.

(** What a handler writes to the audit log: the actor, the action, the target
    and whether it succeeded. *)
Record AuditNote := mkAuditNote {
  an_actor : option string; an_action : string; an_targetID : string; an_targetName : string; an_success : bool
}.

Record ApiResult := mkApiResult { ap_status : Z; ap_audit : list AuditNote; ap_db : AdminDB }.

Definition minPasswordLength : Z := 12.

Definition note (actor : AdminUser) (action id name : string) : AuditNote :=
  mkAuditNote (Some (u_ID actor)) action id name true.

(** [losingAdmin] *)
Definition losingAdmin (u : AdminUser) (previousRole : Role) : bool :=
  bool_decide (previousRole = RoleAdmin) && (negb (bool_decide (u_Role u = RoleAdmin)) || u_Disabled u).

Definition is_admin (u : AdminUser) : bool := bool_decide (u_Role u = RoleAdmin) && negb (u_Disabled u).

(** [requireAnotherAdmin] *)
Definition requireAnotherAdmin (io : option string) (excludingID : string) (db : AdminDB) : result string unit :=
  match io with
  | Some _ => Err "could not check whether another administrator remains"
  | None =>
      if exists_row (fun u => negb (bool_decide (u_ID u = excludingID)) && is_admin u) (admin_users db) then Ok tt
      else Err "this is the only administrator; promote someone else first"
  end.

Record updateUserRequest := mkUpdateUser {
  uu_Email : option string; uu_DisplayName : option string; uu_Role : option string; uu_Disabled : option bool
}.

Section Handlers.
Context `{GF : GoFmt} `{NI : NetIP} `{PH : PasswordHasher}.
Context (SplitHost : string -> option string) (ParseIP : string -> option IP).
Context (decoyHash : string) (HashSessionToken : string -> string).

Definition handleCreateUser (io : option string) (now : Z) (newID : string) (actor : AdminUser)
    (username email displayName role password : string) (db : AdminDB) : ApiResult :=
  let name := TrimSpace username in
  match ParseRole role with
  | Err _ => mkApiResult 422 [] db
  | Ok r =>
      if bool_decide (name = "") || (len password <? minPasswordLength) then mkApiResult 422 [] db
      else match ph_hash password with
      | Err _ => mkApiResult 500 [] db
      | Ok hash =>
          let user := mkAdminUser "" name (TrimSpace email) (TrimSpace displayName) (NullString hash) r SourceLocal
                        None "" None false 0 None None 0 0 in
          match Users_Create io now newID user db with
          | (Err e, db) => mkApiResult (status_of_store e) [] db
          | (Ok user, db) => mkApiResult 201 [note actor "user.create" (u_ID user) (u_Username user)] db
          end
      end
  end.

(** The user with the request's changes, unless the role is not one. *)
Definition apply_update (req : updateUserRequest) (u : AdminUser) : result string AdminUser :=
  match match uu_Role req with None => Ok (u_Role u) | Some s => ParseRole s end with
  | Err e => Err e
  | Ok role =>
      Ok (mkAdminUser (u_ID u) (u_Username u) (default (u_Email u) (TrimSpace <$> uu_Email req))
            (default (u_DisplayName u) (TrimSpace <$> uu_DisplayName req)) (u_PasswordHash u) role
            (u_Source u) (u_Subject u) (u_TOTPSecretEnc u) (u_TOTPEnrolledAt u) (default (u_Disabled u) (uu_Disabled req))
            (u_FailedLogins u) (u_LockedUntil u) (u_LastLoginAt u) (u_CreatedAt u) (u_UpdatedAt u))
  end.

(** [handleUpdateUser]: [read] is what [Get] sees, [check] what the search for
    another administrator sees. *)
Definition handleUpdateUser (io_get io_list io_update io_revoke : option string) (now : Z) (actor : AdminUser) (id : string)
    (req : updateUserRequest) (read check db : AdminDB) : ApiResult :=
  match Users_Get io_get id read with
  | Err e => mkApiResult (status_of_store e) [] db
  | Ok old =>
      match apply_update req old with
      | Err _ => mkApiResult 422 [] db
      | Ok user =>
          if losingAdmin user (u_Role old) && negb (is_ok (requireAnotherAdmin io_list (u_ID user) check))
          then mkApiResult 409 [] db
          else match Users_Update io_update now user db with
          | (Err e, db) => mkApiResult (status_of_store e) [] db
          | (Ok _, db) =>
              let db := if negb (bool_decide (u_Role user = u_Role old)) || u_Disabled user
                        then (DeleteForUser io_revoke (u_ID user) db).2 else db in
              mkApiResult 200 [note actor "user.update" (u_ID user) (u_Username user)] db
          end
      end
  end.

Definition handleDeleteUser (io_get io_list io_delete : option string) (actor : AdminUser) (id : string)
    (read check db : AdminDB) : ApiResult :=
  match Users_Get io_get id read with
  | Err e => mkApiResult (status_of_store e) [] db
  | Ok user =>
      if bool_decide (u_ID user = u_ID actor) then mkApiResult 409 [] db
      else if is_admin user && negb (is_ok (requireAnotherAdmin io_list (u_ID user) check)) then mkApiResult 409 [] db
      else match Users_Delete io_delete id db with
      | (Err e, db) => mkApiResult (status_of_store e) [] db
      | (Ok _, db) => mkApiResult 204 [note actor "user.delete" (u_ID user) (u_Username user)] db
      end
  end.

Definition handleSetUserPassword (local : bool) (io_get io io' : option string) (now : Z) (actor : AdminUser)
    (id password : string) (read db : AdminDB) : ApiResult :=
  if negb local then mkApiResult 403 [] db
  else if len password <? minPasswordLength then mkApiResult 422 [] db
  else match Users_Get io_get id read with
  | Err e => mkApiResult (status_of_store e) [] db
  | Ok user =>
      if negb (bool_decide (u_Source user = SourceLocal)) then mkApiResult 409 [] db
      else match SetPassword io io' now user password db with
      | (Err e, db) => mkApiResult (status_of_store e) [] db
      | (Ok _, db) => mkApiResult 204 [note actor "user.set_password" (u_ID user) (u_Username user)] db
      end
  end.

(** ** Signing in and out *)

Definition status_of_signin (e : SignInError) : Z :=
  match e with
  | ErrLockedOut => 429
  | ErrLocalDisabled => 403
  | ErrInvalidCredentials => 401
  | ErrStore e => status_of_store e
  | _ => 500
  end.

(** [handleLogin] and [completeSignIn]; [read] is what the authenticator reads.
    The session that was issued is returned beside the answer. *)
Definition handleLogin (local : option LocalConfig) (io : LoginIO) (io_issue : option string) (scfg : SessionConfig)
    (token csrf : result string string) (now : Z) (newID username password : string) (r : Request) (read db : AdminDB)
  : ApiResult * option (Session * string * string) :=
  match local with
  | None => (mkApiResult 403 [] db, None)
  | Some cfg =>
      if bool_decide (username = "") || bool_decide (password = "") then (mkApiResult 422 [] db, None)
      else
        let run := local_Authenticate decoyHash cfg io now username password read db in
        match si_result run with
        | Err e => (mkApiResult (status_of_signin e) [mkAuditNote None "auth.sign_in" "" username false] (si_db run), None)
        | Ok user =>
            match Issue SplitHost ParseIP HashSessionToken io_issue scfg token csrf (li_now io) (li_now io) newID user r
                    (si_db run) with
            | (Err (ErrSessionStore e), db) => (mkApiResult (status_of_store e) [] db, None)
            | (Err _, db) => (mkApiResult 500 [] db, None)
            | (Ok issued, db) =>
                (mkApiResult 200 [note user "auth.sign_in" (u_ID user) (u_Username user)] db, Some issued)
            end
        end
  end.

Definition handleLogout (io : option string) (auth : Authenticated) (db : AdminDB) : ApiResult :=
  mkApiResult 204 [note (au_User auth) "auth.sign_out" (u_ID (au_User auth)) (u_Username (au_User auth))]
    (Sessions_Delete io (s_ID (au_Session auth)) db).2.

Definition handleChangeOwnPassword (local : option LocalConfig) (io : LoginIO) (io_update io_revoke : option string) (now : Z)
    (auth : Authenticated) (current new : string) (read db : AdminDB) : ApiResult :=
  match local with
  | None => mkApiResult 403 [] db
  | Some cfg =>
      let user := au_User auth in
      if negb (bool_decide (u_Source user = SourceLocal)) then mkApiResult 403 [] db
      else if len new <? minPasswordLength then mkApiResult 422 [] db
      else
        let run := local_Authenticate decoyHash cfg io now (u_Username user) current read db in
        match si_result run with
        | Err _ => mkApiResult 401 [] (si_db run)
        | Ok _ =>
            match SetPassword io_update io_revoke now user new (si_db run) with
            | (Err e, db) => mkApiResult (status_of_store e) [] db
            | (Ok _, db) => mkApiResult 204 [note user "user.change_password" (u_ID user) (u_Username user)] db
            end
        end
  end.
(** What the browser is told at the end of single sign-on: the sign-in page with
    a reason, the application with a session, or an error status. *)
Inductive SsoAnswer := SsoStatus (status : Z) | SsoSignIn (reason : string) | SsoDone (issued : Session * string * string).

Record SsoResult := mkSsoResult { sso_answer : SsoAnswer; sso_audit : list AuditNote; sso_db : AdminDB }.

(** [handleOIDCCallback]: [errCode] is the provider's [error] parameter, [pending]
    the state and nonce of the cookie, when it has them. *)
Definition handleOIDCCallback (oidc : option OIDCConfig) (io : OidcIO) (io_issue : option string) (scfg : SessionConfig)
    (token csrf : result string string) (now : Z) (newUserID newID errCode : string) (pending : option (string * string))
    (returnedState : string) (callback : result string IDToken) (r : Request) (read db : AdminDB) : SsoResult :=
  match oidc with
  | None => mkSsoResult (SsoStatus 404) [] db
  | Some cfg =>
      if negb (bool_decide (errCode = "")) then mkSsoResult (SsoSignIn "sso_failed") [] db
      else match pending with
      | None => mkSsoResult (SsoSignIn "sso_expired") [] db
      | Some (state, nonce) =>
          match Complete cfg io now newUserID state nonce returnedState callback read db with
          | (Err e, db) =>
              mkSsoResult (SsoSignIn (match e with
                                      | ErrNoRole => "sso_no_role"
                                      | ErrSignupDisabled => "sso_unknown_user"
                                      | _ => "sso_failed"
                                      end)) [mkAuditNote None "auth.sign_in" "" "(single sign-on)" false] db
          | (Ok user, db) =>
              match Issue SplitHost ParseIP HashSessionToken io_issue scfg token csrf now now newID user r db with
              | (Err (ErrSessionStore e), db) => mkSsoResult (SsoStatus (status_of_store e)) [] db
              | (Err _, db) => mkSsoResult (SsoStatus 500) [] db
              | (Ok issued, db) =>
                  mkSsoResult (SsoDone issued) [note user "auth.sign_in" (u_ID user) (u_Username user)] db
              end
          end
      end
  end.
End Handlers.
