(* ===== verification/AdminApiProps.v ===== *)
(** * The handlers that manage administrators

    Revocation, and the rule that an administrator is always left. *)

From stdpp Require Import base gmap strings list.
From Stdlib Require Import ZArith Lia.
From S2P Require Import Prelude GoStrings StoreModels MessageStore Directory DirectoryProps Policy Password.
From S2P Require Import AdminStore AdminStoreProps AdminAuth AdminAuthProps AdminApi.

Open Scope Z_scope.

(** ** Definitions *)

(** Every user is still there, with the same role, enabled as before. *)
Definition keeps_roles (db db' : AdminDB) : Prop :=
  forall k u, admin_users db !! k = Some u ->
    exists u', admin_users db' !! k = Some u' /\ u_Role u' = u_Role u /\ u_Disabled u' = u_Disabled u.

#[export] Instance keeps_roles_preorder : PreOrder keeps_roles.
Proof.
  split.
  - intros db k u Hk. eauto.
  - intros a b c Hab Hbc k u (u1 & Hk1 & ? & ?)%Hab. apply Hbc in Hk1 as (u2 & ? & ? & ?).
    exists u2. split_and!; congruence.
Qed.

(** Someone can administer the proxy. *)
Definition has_admin (db : AdminDB) : Prop := exists k u, admin_users db !! k = Some u /\ is_admin u = true.

(** ** Lemmas *)

Lemma keeps_roles_admin db db' : keeps_roles db db' -> has_admin db -> has_admin db'.
Proof.
  intros Hk (k & u & Hu & Ha). apply Hk in Hu as (u' & Hu' & Hr & Hd). exists k, u'. split; [done|].
  unfold is_admin in *. by rewrite Hr, Hd.
Qed.

(** A change of one row that is not needed keeps an administrator. *)
Lemma other_admin_kept id db db' :
  only_user id db db' -> (exists k u, admin_users db !! k = Some u /\ is_admin u = true /\ k <> id) -> has_admin db'.
Proof. intros Ho (k & u & Hu & Ha & Hne). exists k, u. split; [|done]. by rewrite Ho. Qed.

Lemma same_users_keeps db db' : admin_users db' = admin_users db -> keeps_roles db db'.
Proof. intros Hus k u Hk. rewrite Hus. eauto. Qed.

Lemma update_keeps_roles p f db :
  (forall u, u_Role (f u) = u_Role u /\ u_Disabled (f u) = u_Disabled u) ->
  keeps_roles db (set_users (sql_update p f (admin_users db)) db).
Proof.
  intros Hf k u Hk. simpl. rewrite lookup_sql_update, Hk. simpl. eexists. split; [done|]. destruct (p u); [apply Hf|done].
Qed.

Lemma failed_login_keeps io io' now id threshold lockFor db :
  keeps_roles db (RecordFailedLogin io io' now id threshold lockFor db).2.
Proof.
  unfold RecordFailedLogin, InTx. destruct io, (admin_users db !! id); simpl; try done.
  destruct io'; simpl; [done|]. by apply update_keeps_roles.
Qed.

Lemma successful_login_keeps io now id db : keeps_roles db (RecordSuccessfulLogin io now id db).2.
Proof. destruct io; simpl; [done|]. by apply update_keeps_roles. Qed.

(** Writing a row back with its role, as a password change does. *)
Lemma write_back_keeps io now u db :
  admin_ok db ->
  (forall r, admin_users db !! u_ID u = Some r -> u_Role u = u_Role r /\ u_Disabled u = u_Disabled r) ->
  keeps_roles db (Users_Update io now u db).2.
Proof.
  intros Hdb Hsame. unfold Users_Update. write_cases Hw. destruct Hw as [[-> _]|(-> & _)]; [done|].
  intros k x Hk. simpl. rewrite (lookup_update_id _ _ _ _ _ _ _ (ao_users _ Hdb)), Hk.
  case_decide as Hd; [|by eexists]. subst k. eexists. split; [done|]. apply Hsame in Hk as [? ?]. done.
Qed.

Section Local.
Context `{PH : PasswordHasher}.
Context (decoyHash : string).

Lemma local_keeps_roles cfg io now name password db :
  admin_ok db -> keeps_roles db (si_db (local_Authenticate decoyHash cfg io now name password db db)).
Proof.
  intros Hdb. unfold local_Authenticate. destruct (negb _); [done|].
  destruct (Users_GetByUsername _ _ _) as [user|[]] eqn:Hu; try done.
  apply Users_GetByUsername_Ok in Hu as (Hname & k & Hk). destruct (LockedAt _ _); [done|].
  destruct (bool_decide _); [done|]. destruct (ph_verify _ _) as [[[] due]|]; try done; simpl.
  - destruct (u_Disabled user) eqn:Hd; [done|]. destruct due; simpl; [|apply successful_login_keeps].
    unfold local_rehash. destruct (ph_hash _); simpl; [|apply successful_login_keeps].
    etrans; [|apply successful_login_keeps]. apply write_back_keeps; [done|]. simpl.
    rewrite (user_id _ _ _ Hdb Hk), Hk. intros r [= <-]. done.
  - apply failed_login_keeps.
Qed.

Lemma SetPassword_ok io io' now u password db : admin_ok db -> admin_ok (SetPassword io io' now u password db).2.
Proof.
  intros Hdb. unfold SetPassword. destruct (ph_hash _) as [h|]; [|done].
  pose proof (update_user_ok io now (set_u_PasswordHash (NullString h) u) db Hdb) as H.
  destruct (Users_Update _ _ _ _) as [[]]; [|done]. pose proof (revoke_ok io' (u_ID u) a0 H) as H'.
  by destruct (DeleteForUser _ _ _) as [[]].
Qed.

Lemma SetPassword_keeps io io' now u password db :
  admin_ok db ->
  (forall r, admin_users db !! u_ID u = Some r -> u_Role u = u_Role r /\ u_Disabled u = u_Disabled r) ->
  keeps_roles db (SetPassword io io' now u password db).2.
Proof.
  intros Hdb Hsame. unfold SetPassword. destruct (ph_hash _) as [h|]; [|done].
  pose proof (write_back_keeps io now (set_u_PasswordHash (NullString h) u) db Hdb Hsame) as H.
  destruct (Users_Update _ _ _ _) as [[]]; [|done]. simpl in H. etrans; [exact H|].
  pose proof (revoke_users io' (u_ID u) a0) as H'. destruct (DeleteForUser _ _ _) as [[]]; by apply same_users_keeps.
Qed.
End Local.

(** ** A run of requests *)

Section Requests.
Context `{GF : GoFmt} `{NI : NetIP} `{PH : PasswordHasher}.
Context (SplitHost : string -> option string) (ParseIP : string -> option IP).
Context (decoyHash : string) (HashSessionToken : string -> string).

(** A request to one of the handlers, with what the driver, the clock and the
    random source do meanwhile. *)
Inductive ApiOp :=
| OpCreate (io : option string) (now : Z) (newID : string) (actor : AdminUser)
    (username email displayName role password : string)
| OpUpdate (io_get io_list io_update io_revoke : option string) (now : Z) (actor : AdminUser) (id : string)
    (req : updateUserRequest)
| OpDelete (io_get io_list io_delete : option string) (actor : AdminUser) (id : string)
| OpSetPassword (local : bool) (io_get io io' : option string) (now : Z) (actor : AdminUser) (id password : string)
| OpLogin (local : option LocalConfig) (io : LoginIO) (io_issue : option string) (scfg : SessionConfig)
    (token csrf : result string string) (now : Z) (newID username password : string) (r : Request)
| OpLogout (io : option string) (auth : Authenticated)
| OpOwnPassword (io_s io_s' io_s'' : option string) (scfg : SessionConfig) (now now' : Z) (r : Request)
    (local : option LocalConfig) (io : LoginIO) (io_update io_revoke : option string) (current new : string).

(** The requests are handled one after the other; a password change runs with
    the session that the middleware found. *)
Definition step_api (op : ApiOp) (db : AdminDB) : AdminDB :=
  match op with
  | OpCreate io now newID actor username email displayName role password =>
      ap_db (handleCreateUser io now newID actor username email displayName role password db)
  | OpUpdate io_get io_list io_update io_revoke now actor id req =>
      ap_db (handleUpdateUser io_get io_list io_update io_revoke now actor id req db db db)
  | OpDelete io_get io_list io_delete actor id => ap_db (handleDeleteUser io_get io_list io_delete actor id db db db)
  | OpSetPassword local io_get io io' now actor id password =>
      ap_db (handleSetUserPassword local io_get io io' now actor id password db db)
  | OpLogin local io io_issue scfg token csrf now newID username password r =>
      ap_db (handleLogin SplitHost ParseIP decoyHash HashSessionToken local io io_issue scfg token csrf now newID
               username password r db db).1
  | OpLogout io auth => ap_db (handleLogout io auth db)
  | OpOwnPassword io_s io_s' io_s'' scfg now now' r local io io_update io_revoke current new =>
      match session_Authenticate HashSessionToken io_s io_s' io_s'' scfg now now' r db with
      | (Ok auth, db) => ap_db (handleChangeOwnPassword decoyHash local io io_update io_revoke now auth current new db db)
      | (Err _, db) => db
      end
  end.

Definition run_api (ops : list ApiOp) (db : AdminDB) : AdminDB := fold_left (fun db op => step_api op db) ops db.

(** What holds between requests, and what a request has to keep. *)
Definition administrable (db : AdminDB) : Prop := admin_ok db /\ has_admin db.

Lemma keeps_administrable db db' : keeps_roles db db' -> admin_ok db' -> administrable db -> administrable db'.
Proof. intros Hk Hok [_ Ha]. split; [done|]. by eapply keeps_roles_admin. Qed.

Lemma create_administrable io now newID actor username email displayName role password db :
  administrable db -> administrable (ap_db (handleCreateUser io now newID actor username email displayName role password db)).
Proof.
  intros Hdb. unfold handleCreateUser. destruct (ParseRole role) as [r|]; [|done]. destruct (_ || _); [done|].
  destruct (ph_hash password); [|done]. set (u := mkAdminUser _ _ _ _ _ _ _ _ _ _ _ _ _ _ _ _).
  pose proof (create_user_ok io now newID u db (proj1 Hdb)) as Hok.
  assert (keeps_roles db (Users_Create io now newID u db).2) as Hk.
  { unfold Users_Create, exec. destruct io; [done|]. destruct (insert_error _ _) as [[]|] eqn:He; try done.
    apply insert_error_None in He as [_ He]. bools. intros k x Hx. simpl. exists x.
    rewrite lookup_insert_ne; [done|]. intros <-. apply He. by eexists. }
  destruct (Users_Create _ _ _ _ _) as [[] db']; by eapply keeps_administrable.
Qed.

(** The search for another administrator finds one. *)
Lemma requireAnotherAdmin_Ok io id db :
  admin_ok db -> is_ok (requireAnotherAdmin io id db) = true ->
  exists k u, admin_users db !! k = Some u /\ is_admin u = true /\ k <> id.
Proof.
  intros Hdb. unfold requireAnotherAdmin. destruct io; [done|]. destruct (exists_row _ _) eqn:He; [|done]. intros _.
  apply exists_row_spec in He as (k & u & Hk & Hu). bools. exists k, u.
  split_and!; [done..|]. by rewrite <- (user_id _ _ _ Hdb Hk).
Qed.

(** Everybody but one is an administrator or not as before. *)
Lemma admin_elsewhere id u db :
  has_admin db -> admin_users db !! id = Some u -> is_admin u = false ->
  exists k u, admin_users db !! k = Some u /\ is_admin u = true /\ k <> id.
Proof.
  intros (k & x & Hk & Hx) Hu Ha. exists k, x. split_and!; try done. intros ->. congruence.
Qed.

Lemma Users_Get_Ok io id db u : Users_Get io id db = Ok u -> admin_users db !! id = Some u.
Proof. unfold Users_Get. destruct io; [done|]. destruct (admin_users db !! id); [|done]. by intros [= ->]. Qed.

Lemma apply_update_Ok req u v :
  apply_update req u = Ok v -> u_ID v = u_ID u /\ u_Disabled v = default (u_Disabled u) (uu_Disabled req).
Proof. unfold apply_update. destruct (match uu_Role req with None => _ | Some _ => _ end); [|done]. by intros [= <-]. Qed.

Lemma update_administrable io_get io_list io_update io_revoke now actor id req db :
  administrable db -> administrable (ap_db (handleUpdateUser io_get io_list io_update io_revoke now actor id req db db db)).
Proof.
  intros [Hdb Ha]. unfold handleUpdateUser. destruct (Users_Get _ _ _) as [old|] eqn:Hg; [|done].
  apply Users_Get_Ok in Hg. pose proof (user_id _ _ _ Hdb Hg) as Hid.
  destruct (apply_update req old) as [v|] eqn:Hv; [|done]. apply apply_update_Ok in Hv as [Hvid _].
  destruct (losingAdmin v (u_Role old) && _) eqn:Hl; [done|].
  pose proof (update_user_ok io_update now v db Hdb) as Hok.
  pose proof (fun k => update_user_other io_update now v db k Hdb) as Hother.
  destruct (Users_Update _ _ _ _) as [[x|] db1] eqn:Hup; simpl in *.
  2: { split; [done|]. revert Hup. unfold Users_Update. write_cases Hw. intros [= -> ->]. by destruct Hw as [[-> _]|(_ & ? & _)]. }
  apply Users_Update_Ok in Hup as (_ & _ & r & _ & Hr); [|done].
  assert (has_admin db1) as Ha1.
  { destruct (losingAdmin v (u_Role old)) eqn:Hlose; simpl in Hl.
    - bools. apply (other_admin_kept (u_ID v) db db1 Hother). by eapply requireAnotherAdmin_Ok.
    - unfold losingAdmin in Hlose. destruct (bool_decide (u_Role old = RoleAdmin)) eqn:Hwas; simpl in Hlose; bools.
      + exists (u_ID v), (user_set now v r). split; [done|]. unfold is_admin. simpl. by rewrite bool_decide_eq_true_2, H0.
      + apply (other_admin_kept (u_ID v) db db1 Hother). rewrite Hvid, Hid. eapply admin_elsewhere; [done..|].
        unfold is_admin. by rewrite bool_decide_eq_false_2. }
  destruct (_ || _); [|done]. split; [by apply revoke_ok|]. eapply keeps_roles_admin; [|exact Ha1].
  apply same_users_keeps, revoke_users.
Qed.

Lemma delete_only_user io id db :
  admin_ok db -> only_user id db (Users_Delete io id db).2.
Proof.
  intros Hdb k Hne. unfold Users_Delete. write_cases Hw. destruct Hw as [[-> _]|(-> & _)]; [done|]. simpl.
  apply option_eq. intros u. rewrite lookup_sql_delete. split; [by intros [? _]|]. intros Hk. split; [done|].
  apply bool_decide_eq_false_2. by rewrite (user_id _ _ _ Hdb Hk).
Qed.

Lemma delete_administrable io_get io_list io_delete actor id db :
  administrable db -> administrable (ap_db (handleDeleteUser io_get io_list io_delete actor id db db db)).
Proof.
  intros [Hdb Ha]. unfold handleDeleteUser. destruct (Users_Get _ _ _) as [u|] eqn:Hg; [|done].
  apply Users_Get_Ok in Hg. pose proof (user_id _ _ _ Hdb Hg) as Hid. destruct (bool_decide _); [done|].
  destruct (is_admin u && _) eqn:Hc; [done|].
  assert (administrable (Users_Delete io_delete id db).2) as Hdone.
  { split; [by apply delete_user_ok|]. apply (other_admin_kept id db); [by apply delete_only_user|].
    destruct (is_admin u) eqn:Hu; simpl in Hc; [|by eapply admin_elsewhere]. bools. rewrite <- Hid. by eapply requireAnotherAdmin_Ok. }
  by destruct (Users_Delete _ _ _) as [[] ?].
Qed.

Lemma set_password_administrable local io_get io io' now actor id password db :
  administrable db -> administrable (ap_db (handleSetUserPassword local io_get io io' now actor id password db db)).
Proof.
  intros Hdb. unfold handleSetUserPassword. destruct (negb local); [done|]. destruct (_ <? _); [done|].
  destruct (Users_Get _ _ _) as [u|] eqn:Hg; [|done]. apply Users_Get_Ok in Hg. destruct (negb _); [done|].
  pose proof (SetPassword_ok io io' now u password db (proj1 Hdb)) as Hok.
  assert (keeps_roles db (SetPassword io io' now u password db).2) as Hk.
  { apply SetPassword_keeps; [apply Hdb|]. rewrite (user_id _ _ _ (proj1 Hdb) Hg), Hg. by intros r [= <-]. }
  destruct (SetPassword _ _ _ _ _ _) as [[] ?]; by eapply keeps_administrable.
Qed.

Lemma Issue_administrable io cfg token csrf created now newID u r db :
  administrable db ->
  administrable (Issue SplitHost ParseIP HashSessionToken io cfg token csrf created now newID u r db).2.
Proof.
  intros Hdb. unfold Issue. destruct token as [t|], csrf as [c|]; try done.
  match goal with |- context [Sessions_Create ?a ?b ?c ?d ?e] =>
    pose proof (create_session_ok a b c d e (proj1 Hdb)) as Hok;
    assert (admin_users (Sessions_Create a b c d e).2 = admin_users e) as Hus;
      [unfold Sessions_Create, exec; destruct a; [done|]; by destruct (insert_session_error _ _) as [[]|]|];
    destruct (Sessions_Create a b c d e) as [[] ?] end;
    (eapply keeps_administrable; [by apply same_users_keeps|done|done]).
Qed.

Lemma login_administrable local io io_issue scfg token csrf now newID username password r db :
  administrable db ->
  administrable (ap_db (handleLogin SplitHost ParseIP decoyHash HashSessionToken local io io_issue scfg token csrf now newID
    username password r db db).1).
Proof.
  intros Hdb. unfold handleLogin. destruct local as [cfg|]; [|done]. destruct (_ || _); [done|]. simpl.
  assert (administrable (si_db (local_Authenticate decoyHash cfg io now username password db db))) as Hrun.
  { eapply keeps_administrable; [apply local_keeps_roles, Hdb|apply local_Authenticate_ok, Hdb|done]. }
  destruct (si_result _) as [u|]; [|done].
  match goal with |- context [Issue ?a ?b ?c ?d ?e ?f ?g ?h ?i ?j ?k ?l ?m] =>
    pose proof (Issue_administrable d e f g h i j k l m Hrun) as Hi; destruct (Issue a b c d e f g h i j k l m) as [[[[]]|[]] ?] end; done.
Qed.

(** The middleware touches sessions only. *)
Lemma session_Authenticate_users io io' io'' cfg now now' r db :
  admin_ok db ->
  let '(_, db') := session_Authenticate HashSessionToken io io' io'' cfg now now' r db in
  admin_ok db' /\ admin_users db' = admin_users db.
Proof.
  intros Hdb. unfold session_Authenticate. destruct (rq_cookie r) as [token|]; [|done]. destruct (bool_decide _); [done|].
  pose proof (lookup_ok HashSessionToken io io' now token (sc_IdleTimeout cfg) db Hdb) as Hok.
  assert (admin_users (Lookup HashSessionToken io io' now token (sc_IdleTimeout cfg) db).2 = admin_users db) as Hus.
  { unfold Lookup, Sessions_Delete. destruct io; [done|]. destruct (find_session _ _ _) as [[s u]|]; [|done].
    destruct (negb _); [by destruct io'|]. destruct (_ && _); [by destruct io'|]. by destruct (u_Disabled u). }
  destruct (Lookup _ _ _ _ _ _ _) as [[a|[]] db1]; try done. simpl in Hok, Hus.
  split; [by apply touch_ok|]. by destruct io''.
Qed.

Lemma own_password_administrable local io io_update io_revoke now auth current new db k :
  administrable db -> admin_users db !! k = Some (au_User auth) ->
  administrable (ap_db (handleChangeOwnPassword decoyHash local io io_update io_revoke now auth current new db db)).
Proof.
  intros Hdb Hk. unfold handleChangeOwnPassword. destruct local as [cfg|]; [|done].
  destruct (negb _); [done|]. destruct (_ <? _); [done|]. set (u := au_User auth) in *.
  pose proof (local_keeps_roles decoyHash cfg io now (u_Username u) current db (proj1 Hdb)) as Hroles.
  pose proof (local_Authenticate_ok decoyHash cfg io now (u_Username u) current db db (proj1 Hdb)) as Hok.
  simpl. set (db1 := si_db _) in *. destruct (si_result _); [|by eapply keeps_administrable].
  pose proof (SetPassword_ok io_update io_revoke now u new db1 Hok) as Hok'.
  assert (keeps_roles db1 (SetPassword io_update io_revoke now u new db1).2) as Hset.
  { apply SetPassword_keeps; [done|]. rewrite (user_id _ _ _ (proj1 Hdb) Hk). intros r Hr.
    destruct (Hroles _ _ Hk) as (u' & Hu' & ? & ?). by simplify_eq. }
  destruct (SetPassword _ _ _ _ _ _) as [[] ?]; (apply (keeps_administrable db); [by etrans|done|done]).
Qed.

Lemma step_api_administrable op db : administrable db -> administrable (step_api op db).
Proof.
  intros Hdb. destruct op; simpl.
  - by apply create_administrable.
  - by apply update_administrable.
  - by apply delete_administrable.
  - by apply set_password_administrable.
  - by apply login_administrable.
  - eapply keeps_administrable; [|apply (exec_snd_ok admin_ok); [apply Hdb|apply delete_sessions_ok, Hdb]|done].
    apply same_users_keeps. by destruct io.
  - pose proof (session_Authenticate_users io_s io_s' io_s'' scfg now now' r db (proj1 Hdb)) as Hs.
    destruct (session_Authenticate _ _ _ _ _ _ _ _ _) as [[auth|] db'] eqn:Ha; destruct Hs as [Hok Hus];
      (assert (administrable db') as Hdb' by (eapply keeps_administrable; [by apply same_users_keeps|done|done])); [|done].
    apply session_Authenticate_live in Ha as (token & _ & _ & Hl). eapply own_password_administrable; [done|].
    rewrite Hus. apply Hl.
Qed.

Lemma run_api_administrable ops db : admin_ok db -> has_admin db -> administrable (run_api ops db).
Proof.
  intros H1 H2. assert (administrable db) as Hdb by (by split). clear H1 H2. revert db Hdb.
  induction ops as [|op ops IH]; intros db Hdb; simpl; [done|]. by apply IH, step_api_administrable.
Qed.

(** ** Properties *)

(** C17: Nobody can lock everyone out of the proxy through the user routes of the
    API: as long as an enabled administrator is left, one is left after any
    number of requests to create, change, disable, demote or delete
    administrators, to set passwords, to sign in with a password and to sign
    out, handled one after the other, whatever statements fail meanwhile.
    Signing in through the identity provider is not among these requests: it
    takes the role the provider gives, and can take it from the last
    administrator, see [sso_can_remove_last_admin]. *)
Theorem an_administrator_is_left ops db :
  admin_ok db -> has_admin db -> admin_ok (run_api ops db) /\ has_admin (run_api ops db).
Proof. apply run_api_administrable. Qed.

(** Taking rights away takes effect at once: when the API reports that a user
    was disabled or given another role, and the sessions could be revoked, or
    that the user was deleted, nobody is signed in as that user any more, with
    whatever cookie, even when other requests came in between. *)
Theorem removal_signs_out io_get io_list io_update io_revoke io_delete now actor id req read check db :
  admin_ok read -> admin_ok db ->
  let updated := handleUpdateUser io_get io_list io_update io_revoke now actor id req read check db in
  let deleted := handleDeleteUser io_get io_list io_delete actor id read check db in
  (forall old v, admin_users read !! id = Some old -> apply_update req old = Ok v ->
     u_Disabled v = true \/ u_Role v <> u_Role old -> io_revoke = None -> ap_status updated = 200 ->
     signed_out HashSessionToken id (ap_db updated))
  /\ (ap_status deleted = 204 -> admin_users (ap_db deleted) !! id = None /\ signed_out HashSessionToken id (ap_db deleted)).
Proof.
  intros Hread Hdb. simpl. split.
  - intros old v Hold Hv Hch Hio. unfold handleUpdateUser, Users_Get. destruct io_get; [done|]. rewrite Hold, Hv.
    apply apply_update_Ok in Hv as [Hvid _]. destruct (_ && _); [done|].
    pose proof (update_user_ok io_update now v db Hdb) as Hok.
    destruct (Users_Update _ _ _ _) as [[[]|e] db1]; [|by destruct e]. intros _. rewrite Hio.
    rewrite Hvid, (user_id _ _ _ Hread Hold). simpl.
    assert (negb (bool_decide (u_Role v = u_Role old)) || u_Disabled v = true) as ->.
    { destruct Hch as [->|Hch]; [apply orb_true_r|]. by rewrite bool_decide_eq_false_2. }
    by apply (DeleteForUser_signed_out HashSessionToken id).
  - unfold handleDeleteUser. destruct (Users_Get _ _ _) as [u|e]; [|by destruct e]. destruct (bool_decide _); [done|].
    destruct (_ && _); [done|]. pose proof (delete_user_ok io_delete id db Hdb) as Hok. revert Hok.
    unfold Users_Delete. write_cases Hw. destruct r as [[]|e]; [|by destruct e]. intros Hok _.
    destruct Hw as [[_ ?]|(-> & _)]; [done|]. simpl. split.
    + apply eq_None_not_Some. intros [x [Hx Hne]%lookup_sql_delete]. bools. by rewrite (user_id _ _ _ Hdb Hx) in Hne.
    + apply no_sessions_signed_out; [done|]. intros k s [_ Hs]%lookup_sql_delete. by bools.
Qed.
End Requests.

(** ** Witnesses *)

Definition demote : updateUserRequest := mkUpdateUser None None (Some "viewer") None.
Definition promote : updateUserRequest := mkUpdateUser None None (Some "admin") None.

(** The only administrator cannot be demoted until someone else is promoted. *)
Definition handover : list ApiOp :=
  [OpUpdate None None None None 10 root_row "u1" demote; OpUpdate None None None None 11 root_row "u2" promote;
   OpUpdate None None None None 12 root_row "u1" demote; OpDelete None None None root_row "u2"].

Definition api_run (ops : list ApiOp) : AdminDB :=
  run_api (GF := admin_fmt) (NI := one_ip) (PH := echo_hasher) (fun _ => None) (fun _ => None) "decoy" token_hash ops sample_admins.

Lemma an_administrator_is_left_witness :
  (u_Role <$> admin_users (api_run handover) !! "u1") = Some RoleViewer /\ has_admin (api_run handover).
Proof.
  split; [vm_compute; reflexivity|].
  apply (an_administrator_is_left (GF := admin_fmt) (NI := one_ip) (PH := echo_hasher) (fun _ => None) (fun _ => None) "decoy"
    token_hash handover sample_admins sample_admins_ok).
  exists "u1", root_row. split; vm_compute; reflexivity.
Defined.

Lemma removal_signs_out_witness :
  signed_out token_hash "u1" (ap_db (handleUpdateUser (GF := admin_fmt) None None None None 12 root_row "u1" demote
    (api_run (take 2 handover)) (api_run (take 2 handover)) (api_run (take 2 handover)))).
Proof.
  assert (admin_ok (api_run (take 2 handover))) as Hok.
  { apply run_api_administrable; [apply sample_admins_ok|]. exists "u1", root_row. split; vm_compute; reflexivity. }
  apply (proj1 (removal_signs_out (GF := admin_fmt) token_hash None None None None None 12 root_row "u1" demote _ _ _ Hok Hok)
    root_row (match apply_update (GF := admin_fmt) demote root_row with Ok v => v | Err _ => root_row end));
    try (vm_compute; reflexivity).
  right. vm_compute. discriminate.
Defined.

(** ** Where the rule ends *)

(** Two administrators demote each other at the same time: both searches run
    before either update, and nobody is left. *)
Definition two_admins : AdminDB := api_run (take 2 handover).

Lemma crossed_demotions_leave_nobody :
  let first := ap_db (handleUpdateUser (GF := admin_fmt) None None None None 12 root_row "u1" demote two_admins two_admins two_admins) in
  let second := ap_db (handleUpdateUser (GF := admin_fmt) None None None None 12 root_row "u2" demote two_admins two_admins first) in
  has_admin two_admins /\ ~ has_admin second.
Proof.
  split; [exists "u1", root_row; split; vm_compute; reflexivity|].
  intros (k & u & Hk & Hu). set (db := ap_db _) in Hk.
  assert (exists_row is_admin (admin_users db) = true) as H by (apply exists_row_spec; eauto). by vm_compute in H.
Qed.

(** Single sign-on does not ask whether another administrator is left: Ann, the
    only one here, becomes an operator by signing in. *)
Definition ann_alone : AdminDB := api_run (take 3 handover).

Lemma sso_can_remove_last_admin :
  has_admin ann_alone
  /\ ~ has_admin (Complete (GF := admin_fmt) sso (mkOidcIO None None None None) 80 "" "state" "nonce" "state" (Ok ann_token)
         ann_alone ann_alone).2.
Proof.
  split.
  - assert (exists_row is_admin (admin_users ann_alone) = true) as H by (vm_compute; reflexivity).
    by apply exists_row_spec in H.
  - intros (k & u & Hk & Hu). set (db := (Complete _ _ _ _ _ _ _ _ _ _).2) in Hk.
    assert (exists_row is_admin (admin_users db) = true) as H by (apply exists_row_spec; eauto). by vm_compute in H.
Qed.
