(* ===== verification/Keyring.v ===== *)
(** * Secrets at rest, and random secrets

    [internal/crypto/keyring.go] and [random.go]. AES-GCM is a parameter,
    [NewGCM], from a key to an [AEAD]; [rand] is what the random source returns
    for a number of bytes. *)

From stdpp Require Import base gmap strings list.
From Stdlib Require Import ZArith Lia Ascii.
From S2P Require Import Prelude GoStrings GoStringsFacts Base64 Policy.

Open Scope Z_scope.

Inductive KeyringError :=
| ErrNoKeys
| ErrUnknownKey (detail : string)
| ErrMalformed (detail : string)
| ErrDecryptFailed
| ErrKeySpec (detail : string)
| ErrRandRead (detail : string).

Definition sealedVersion : string := "v1".
Definition keyLen : Z := 32.
Definition maxKeyIDLen : Z := 32.

Definition DOT : ascii := "."%char.
Definition COLON : ascii := ":"%char.

(** [cipher.AEAD]: [Seal] without the prefix it appends to, [Open] with [None]
    for a message that does not authenticate. *)
Record AEAD := mkAEAD {
  NonceSize : Z;
  Seal : string -> string -> string -> string;
  Open : string -> string -> string -> option string
}.

(** What is documented of it: nonces are not empty, and what was sealed opens,
    with the same nonce and context. *)
Definition aead_ok (a : AEAD) : Prop :=
  0 < NonceSize a /\ forall nonce plaintext context, len nonce = NonceSize a ->
    Open a nonce (Seal a nonce plaintext context) context = Some plaintext.

Record Keyring := mkKeyring { kr_primaryID : string; kr_keys : gmap string AEAD }.

(** [store.OAuthCredential.SecretContext] and its sibling: what a sealed value is bound to,
    given the credential's ID. *)
Definition SecretContext (id : string) : string := "oauth_credentials/client_secret/" +:+ id.
Definition CertificateKeyContext (id : string) : string := "oauth_credentials/certificate_key/" +:+ id.

(** [b64] *)
Definition b64_url : string -> string := b64_encode URLAlphabet.

Section Keyring.
Context `{GF : GoFmt}.
Context (NewGCM : string -> result string AEAD).
Context (rand : Z -> result string string).

Definition decodeKey (encoded : string) : result KeyringError string :=
  let trimmed := TrimRight encoded "=" in
  match (match b64_decode URLAlphabet false trimmed with
         | Some key => Some key
         | None => b64_decode StdAlphabet false trimmed
         end) with
  | None => Err (ErrKeySpec "key is not valid base64")
  | Some key =>
      if negb (len key =? keyLen)
      then Err (ErrKeySpec ("key must decode to " +:+ Itoa keyLen +:+ " bytes, got " +:+ Itoa (len key)))
      else Ok key
  end.

Definition valid_key_id (id : string) : bool :=
  negb (bool_decide (id = "")) && (len id <=? maxKeyIDLen) && negb (ContainsAny id ".:").

Definition parseKeySpec (spec : string) : result KeyringError (string * AEAD) :=
  match cut_byte COLON spec with
  | None => Err (ErrKeySpec "expected <id>:<base64-key>")
  | Some (id, encoded) =>
      if bool_decide (id = "") || (len id >? maxKeyIDLen)
      then Err (ErrKeySpec ("key id must be 1-" +:+ Itoa maxKeyIDLen +:+ " characters"))
      else if ContainsAny id ".:" then Err (ErrKeySpec "key id must not contain '.' or ':'")
      else match decodeKey encoded with
      | Err e => Err e
      | Ok key => match NewGCM key with Err e => Err (ErrKeySpec e) | Ok aead => Ok (id, aead) end
      end
  end.

(** The loop of [NewKeyring]; [i] is the index of the next specification. *)
Fixpoint add_keys (i : Z) (specs : list string) (kr : Keyring) : result KeyringError Keyring :=
  match specs with
  | [] => Ok kr
  | spec :: rest =>
      match parseKeySpec spec with
      | Err (ErrKeySpec e) => Err (ErrKeySpec ("key " +:+ Itoa i +:+ ": " +:+ e))
      | Err e => Err e
      | Ok (id, aead) =>
          if bool_decide (is_Some (kr_keys kr !! id))
          then Err (ErrKeySpec ("crypto: duplicate key id " +:+ Quote id))
          else add_keys (i + 1) rest (mkKeyring (if i =? 0 then id else kr_primaryID kr) (<[id := aead]> (kr_keys kr)))
      end
  end.

Definition NewKeyring (specs : list string) : result KeyringError Keyring :=
  if bool_decide (length specs = 0%nat) then Err ErrNoKeys else add_keys 0 specs (mkKeyring "" ∅).

Definition Encrypt (k : Keyring) (plaintext context : string) : result KeyringError string :=
  match kr_keys k !! kr_primaryID k with
  | None => Err ErrNoKeys
  | Some aead =>
      match rand (NonceSize aead) with
      | Err e => Err (ErrRandRead ("crypto: read random nonce: " +:+ e))
      | Ok nonce =>
          let sealed := nonce +:+ Seal aead nonce plaintext context in
          Ok (sealedVersion +:+ "." +:+ kr_primaryID k +:+ "." +:+ b64_url sealed)
      end
  end.

(** The version, the key's ID and the payload of a sealed value. *)
Definition sealed_fields (sealed : string) : result KeyringError (string * string) :=
  match cut_byte DOT sealed with
  | None => Err (ErrMalformed "unrecognized format")
  | Some (version, rest) =>
      if negb (bool_decide (version = sealedVersion)) then Err (ErrMalformed "unrecognized format")
      else match cut_byte DOT rest with
      | None => Err (ErrMalformed "missing key id or payload")
      | Some (keyID, payload) =>
          if bool_decide (keyID = "") || bool_decide (payload = "")
          then Err (ErrMalformed "missing key id or payload") else Ok (keyID, payload)
      end
  end.

Definition Decrypt (k : Keyring) (sealed context : string) : result KeyringError string :=
  match sealed_fields sealed with
  | Err e => Err e
  | Ok (keyID, payload) =>
      match kr_keys k !! keyID with
      | None => Err (ErrUnknownKey (Quote keyID))
      | Some aead =>
          match b64_decode URLAlphabet true payload with
          | None => Err (ErrMalformed "payload is not valid base64")
          | Some raw =>
              if len raw <? NonceSize aead then Err (ErrMalformed "payload shorter than nonce")
              else
                let n := Z.to_nat (NonceSize aead) in
                match Open aead (take_bytes n raw) (drop_bytes n raw) context with
                | None => Err ErrDecryptFailed
                | Some plaintext => Ok plaintext
                end
          end
      end
  end.

Definition KeyIDOf (sealed : string) : result KeyringError string :=
  match sealed_fields sealed with Ok (keyID, _) => Ok keyID | Err e => Err e end.

Definition NeedsRotation (k : Keyring) (sealed : string) : bool :=
  match KeyIDOf sealed with Ok id => negb (bool_decide (id = kr_primaryID k)) | Err _ => false end.

Definition GenerateKey (id : string) : result KeyringError string :=
  if negb (valid_key_id id) then Err (ErrKeySpec ("crypto: invalid key id " +:+ Quote id))
  else match rand keyLen with
  | Err e => Err (ErrRandRead ("crypto: read random key: " +:+ e))
  | Ok key => Ok (id +:+ ":" +:+ b64_url key)
  end.

(** ** random.go *)

Definition passwordEntropyBytes : Z := 24.
Definition tokenEntropyBytes : Z := 32.

Definition randomString (n : Z) : result KeyringError string :=
  match rand n with
  | Err e => Err (ErrRandRead ("crypto: read random bytes: " +:+ e))
  | Ok b => Ok (b64_url b)
  end.

Definition GeneratePassword : result KeyringError string := randomString passwordEntropyBytes.
Definition GenerateToken : result KeyringError string := randomString tokenEntropyBytes.
End Keyring.

Section Props.
Context `{GF : GoFmt}.
Context (NewGCM : string -> result string AEAD).

(** ** Building a key ring *)

Lemma parseKeySpec_Ok spec id a :
  parseKeySpec NewGCM spec = Ok (id, a) ->
  valid_key_id id = true
  /\ exists encoded key, cut_byte COLON spec = Some (id, encoded) /\ decodeKey encoded = Ok key /\ NewGCM key = Ok a.
Proof.
  unfold parseKeySpec, valid_key_id. destruct (cut_byte COLON spec) as [[x encoded]|]; [|done].
  destruct (_ || _) eqn:He; [done|]. destruct (ContainsAny x ".:") eqn:Hc; [done|].
  destruct (decodeKey encoded) as [key|] eqn:Hk; [|done]. destruct (NewGCM key) as [g|] eqn:Hg; [|done].
  intros [= <- <-]. bools. split; [|eauto]. rewrite bool_decide_eq_false_2, Hc by done. simpl.
  rewrite andb_true_r. apply Z.leb_le. lia.
Qed.

Lemma add_keys_Ok i specs kr kr' :
  0 <= i -> add_keys NewGCM i specs kr = Ok kr' ->
  kr_keys kr ⊆ kr_keys kr'
  /\ (forall spec, spec ∈ specs -> exists id a, parseKeySpec NewGCM spec = Ok (id, a) /\ kr_keys kr' !! id = Some a)
  /\ (0 < i -> kr_primaryID kr' = kr_primaryID kr)
  /\ (i = 0 -> forall spec rest, specs = spec :: rest ->
        exists a, parseKeySpec NewGCM spec = Ok (kr_primaryID kr', a) /\ kr_keys kr' !! kr_primaryID kr' = Some a).
Proof.
  revert i kr. induction specs as [|spec specs IH]; intros i kr Hi; simpl.
  { intros [= <-]. split_and!; try done. intros spec H. by apply elem_of_nil in H. }
  destruct (parseKeySpec NewGCM spec) as [[id a]|[]] eqn:Hp; try done.
  case_bool_decide as Hdup; [done|]. intros Hrun. apply IH in Hrun as (Hsub & Hall & Hprim & _); [|lia].
  simpl in Hsub, Hprim. assert (kr_keys kr' !! id = Some a) as Hid.
  { eapply lookup_weaken; [apply lookup_insert_eq|exact Hsub]. }
  split_and!.
  - etrans; [|exact Hsub]. apply insert_subseteq. by apply eq_None_not_Some.
  - intros s [->|Hs]%elem_of_cons; eauto.
  - intros H. rewrite Hprim by lia. by rewrite (proj2 (Z.eqb_neq i 0)) by lia.
  - intros -> s rest [= <- _]. rewrite Hprim by lia. simpl. eauto.
Qed.

Lemma NewKeyring_Ok specs kr :
  NewKeyring NewGCM specs = Ok kr ->
  (forall spec, spec ∈ specs -> exists id a, parseKeySpec NewGCM spec = Ok (id, a) /\ kr_keys kr !! id = Some a)
  /\ exists spec rest a, specs = spec :: rest /\ parseKeySpec NewGCM spec = Ok (kr_primaryID kr, a)
       /\ kr_keys kr !! kr_primaryID kr = Some a.
Proof.
  unfold NewKeyring. destruct specs as [|spec rest]; [done|]. rewrite bool_decide_eq_false_2 by done. intros H.
  destruct (add_keys_Ok 0 (spec :: rest) (mkKeyring "" ∅) kr ltac:(lia) H) as (_ & Hall & _ & Hp).
  split; [done|]. destruct (Hp eq_refl spec rest eq_refl) as (a & ? & ?). eauto 10.
Qed.

(** ** The format *)

Lemma sealed_fields_app id payload :
  valid_key_id id = true -> payload <> "" -> sealed_fields (sealedVersion +:+ "." +:+ id +:+ "." +:+ payload) = Ok (id, payload).
Proof.
  unfold valid_key_id. intros Hid Hp. bools. unfold sealed_fields, sealedVersion.
  change ("v1" +:+ "." +:+ id +:+ "." +:+ payload) with ("v1" +:+ String DOT (id +:+ String DOT payload)).
  rewrite cut_byte_app by done. rewrite bool_decide_eq_true_2 by done. simpl.
  rewrite cut_byte_app by (eapply ContainsAny_false; [exact H0|done]).
  by rewrite !bool_decide_eq_false_2.
Qed.

Lemma sealed_fields_Ok sealed id payload :
  sealed_fields sealed = Ok (id, payload) -> sealed = sealedVersion +:+ "." +:+ id +:+ "." +:+ payload /\ payload <> "".
Proof.
  unfold sealed_fields. destruct (cut_byte DOT sealed) as [[v rest]|] eqn:H1; [|done].
  case_bool_decide as Hv; [|done]. simpl. destruct (cut_byte DOT rest) as [[x y]|] eqn:H2; [|done].
  destruct (_ || _) eqn:He; [done|]. intros [= <- <-]. bools. split; [|done].
  apply cut_byte_Some in H1 as [-> _]. apply cut_byte_Some in H2 as [-> _]. by subst.
Qed.

Lemma app_nonempty s t : s <> "" -> s +:+ t <> "".
Proof. by destruct s. Qed.

Lemma len_pos_nonempty s : 0 < len s -> s <> "".
Proof. by intros H ->. Qed.

(** ** Opening what was sealed *)

Context (rand : Z -> result string string).

(** Encryption does not fail but for the random source, and what it returns is
    a version, the primary key's ID and the encoded nonce and ciphertext. *)
Lemma Encrypt_Ok specs kr plaintext context nonce a :
  NewKeyring NewGCM specs = Ok kr -> kr_keys kr !! kr_primaryID kr = Some a -> rand (NonceSize a) = Ok nonce ->
  Encrypt rand kr plaintext context
  = Ok (sealedVersion +:+ "." +:+ kr_primaryID kr +:+ "." +:+ b64_url (nonce +:+ Seal a nonce plaintext context)).
Proof. intros _ Ha Hr. unfold Encrypt. by rewrite Ha, Hr. Qed.

Lemma Decrypt_sealed kr id a nonce plaintext context :
  valid_key_id id = true -> kr_keys kr !! id = Some a -> aead_ok a -> len nonce = NonceSize a ->
  Decrypt kr (sealedVersion +:+ "." +:+ id +:+ "." +:+ b64_url (nonce +:+ Seal a nonce plaintext context)) context = Ok plaintext.
Proof.
  intros Hid Ha [Hpos Hopen] Hn. unfold Decrypt. assert (nonce <> "") as Hne by (apply len_pos_nonempty; lia).
  rewrite sealed_fields_app by (done || apply (b64_encode_nonempty _ URLAlphabet_ok), app_nonempty, Hne).
  rewrite Ha. unfold b64_url. rewrite (b64_decode_encode _ URLAlphabet_ok).
  assert ((len (nonce +:+ Seal a nonce plaintext context) <? NonceSize a) = false) as ->.
  { apply Z.ltb_ge. unfold len in *. rewrite String_length_app. lia. }
  assert (Z.to_nat (NonceSize a) = String.length nonce) as -> by (unfold len in Hn; lia).
  by rewrite take_bytes_app, drop_bytes_app, Hopen.
Qed.

(** The parameters behave as documented. *)
Definition gcm_ok : Prop := forall key a, NewGCM key = Ok a -> aead_ok a.
Definition rand_ok : Prop := forall n b, rand n = Ok b -> len b = n.

(** C34: Keys can be rotated. A value sealed under one key ring opens, with the
    context it was sealed for, under every key ring whose configuration still
    has that key anywhere, and says which key that is; a rotation is due exactly
    where another key became the first. *)
Theorem sealed_value_survives_rotation spec rest specs' kr kr' plaintext context sealed :
  gcm_ok -> rand_ok ->
  NewKeyring NewGCM (spec :: rest) = Ok kr -> NewKeyring NewGCM specs' = Ok kr' -> spec ∈ specs' ->
  Encrypt rand kr plaintext context = Ok sealed ->
  Decrypt kr' sealed context = Ok plaintext
  /\ KeyIDOf sealed = Ok (kr_primaryID kr)
  /\ NeedsRotation kr' sealed = negb (bool_decide (kr_primaryID kr = kr_primaryID kr')).
Proof.
  intros Hg Hr (_ & s & l & a & [= <- <-] & Hp & Ha)%NewKeyring_Ok (Hall & _)%NewKeyring_Ok Hin.
  destruct (Hall _ Hin) as (id & a' & Hp' & Ha'). rewrite Hp in Hp'. injection Hp' as <- <-.
  apply parseKeySpec_Ok in Hp as (Hid & _ & key & _ & _ & Hkey). specialize (Hg _ _ Hkey).
  unfold Encrypt. rewrite Ha. destruct (rand (NonceSize a)) as [nonce|] eqn:Hn; [|done]. apply Hr in Hn.
  intros [= <-]. split; [by apply Decrypt_sealed|].
  assert (nonce <> "") as Hne by (apply len_pos_nonempty; destruct Hg; lia). unfold NeedsRotation, KeyIDOf.
  rewrite sealed_fields_app by (done || apply (b64_encode_nonempty _ URLAlphabet_ok), app_nonempty, Hne). done.
Qed.

(** Without line breaks. *)
Definition unbroken (s : string) : string := unbytes (base.filter (fun c => c <> CR /\ c <> LF) (bytes s)).

(** What opens is authentic and has one spelling: a value is only decrypted
    with a configured key that its own ID names, when the whole of its payload
    authenticates with exactly that context; and the payload is the encoding of
    the nonce and the ciphertext, line breaks apart. *)
Theorem decrypted_value_is_authentic kr sealed context plaintext :
  Decrypt kr sealed context = Ok plaintext ->
  exists id a payload nonce ciphertext,
    sealed = sealedVersion +:+ "." +:+ id +:+ "." +:+ payload /\ kr_keys kr !! id = Some a
    /\ unbroken payload = b64_url (nonce +:+ ciphertext) /\ (0 <= NonceSize a -> len nonce = NonceSize a)
    /\ Open a nonce ciphertext context = Some plaintext.
Proof.
  unfold Decrypt. destruct (sealed_fields sealed) as [[id payload]|] eqn:Hf; [|done].
  destruct (kr_keys kr !! id) as [a|] eqn:Ha; [|done].
  destruct (b64_decode URLAlphabet true payload) as [raw|] eqn:Hd; [|done].
  destruct (len raw <? NonceSize a) eqn:Hl; [done|]. bools. set (n := Z.to_nat (NonceSize a)).
  destruct (Open a _ _ _) as [p|] eqn:Ho; [|done]. intros [= <-]. apply sealed_fields_Ok in Hf as [Hs _].
  exists id, a, payload, (take_bytes n raw), (drop_bytes n raw). split_and!; try done.
  - apply (b64_strict_canonical _ URLAlphabet_ok) in Hd. unfold unbroken, b64_url. rewrite <- Hd. f_equal.
    symmetry. apply take_drop_bytes.
  - intros H. unfold len in *. rewrite length_take_bytes by lia. lia.
Qed.

(** ** Keys of the operator *)

(** A character both alphabets have stands for the same digit. *)
Lemma url_digit_std c d : b64_digit URLAlphabet c = Some d -> c ∈ bytes StdAlphabet -> b64_digit StdAlphabet c = Some d.
Proof.
  intros Hd Hc. assert (forallb (fun c => match b64_digit URLAlphabet c with
    | Some d => bool_decide (b64_digit StdAlphabet c = Some d) | None => true end) (bytes StdAlphabet) = true) as Hall
    by (vm_compute; reflexivity).
  rewrite forallb_forall in Hall. apply list_elem_of_In, Hall in Hc. rewrite Hd in Hc. by bools.
Qed.

Lemma url_decode_std s key :
  b64_decode URLAlphabet false (b64_encode StdAlphabet s) = Some key -> key = s.
Proof.
  intros Hu. pose proof (b64_decode_encode _ StdAlphabet_ok false s) as Hd. revert Hu Hd. unfold b64_decode.
  rewrite filter_all by apply (b64_encode_no_breaks _ StdAlphabet_ok).
  destruct (mapM (b64_digit URLAlphabet) _) as [ds|] eqn:Hm; [|done]. intros Hu Hd.
  assert (mapM (b64_digit StdAlphabet) (bytes (b64_encode StdAlphabet s)) = Some ds) as Hs.
  { apply mapM_Some in Hm. apply mapM_Some. pose proof (b64_encode_chars _ StdAlphabet_ok s) as Hc. clear Hu Hd. revert Hc.
    induction Hm as [|c d cs ds' Hcd _ IH]; intros Hc; constructor.
    - apply url_digit_std; [done|]. apply Hc. by left.
    - apply IH. intros x Hx. apply Hc. by right. }
  rewrite Hs in Hd. congruence.
Qed.

Lemma TrimRight_pads s k : ContainsAny s "=" = false -> TrimRight (s +:+ unbytes (replicate k "="%char)) "=" = s.
Proof.
  intros Hs. unfold TrimRight. rewrite bytes_app, bytes_unbytes, rev_app_distr.
  assert (rev (replicate k "="%char) = replicate k "="%char) as ->
    by (induction k as [|k IH]; [done|]; simpl; rewrite IH; symmetry; apply replicate_S_end).
  assert (drop_while (contains_byte "=") (replicate k "="%char ++ rev (bytes s)) = drop_while (contains_byte "=") (rev (bytes s))) as ->
    by (induction k; done).
  pose proof (TrimRight_none s "=" Hs) as H. exact H.
Qed.

Lemma b64_encode_unpadded alphabet s :
  alphabet_ok alphabet = true -> contains_byte alphabet "=" = false -> ContainsAny (b64_encode alphabet s) "=" = false.
Proof.
  intros Ha Hc. unfold ContainsAny. apply not_true_iff_false. rewrite string_exists_iff. intros (c & Hin & He).
  apply (b64_encode_chars _ Ha) in Hin. apply contains_byte_iff in He. apply list_elem_of_singleton in He as ->.
  apply contains_byte_false in Hc. done.
Qed.

Lemma decodeKey_encoded key k :
  len key = keyLen ->
  decodeKey (b64_url key +:+ unbytes (replicate k "="%char)) = Ok key
  /\ decodeKey (b64_encode StdAlphabet key +:+ unbytes (replicate k "="%char)) = Ok key.
Proof.
  intros Hk. unfold decodeKey, b64_url. split.
  - rewrite TrimRight_pads by (apply b64_encode_unpadded; done). rewrite (b64_decode_encode _ URLAlphabet_ok).
    by rewrite Hk.
  - rewrite TrimRight_pads by (apply b64_encode_unpadded; done).
    destruct (b64_decode URLAlphabet false _) as [key'|] eqn:Hu.
    + apply url_decode_std in Hu as ->. by rewrite Hk.
    + rewrite (b64_decode_encode _ StdAlphabet_ok). by rewrite Hk.
Qed.

(** A key can be given in either alphabet, with or without padding, and the one
    the program generates is accepted as it is printed: it makes a key ring
    whose primary key is that one. *)
Theorem generated_key_is_accepted id key k a :
  valid_key_id id = true -> len key = keyLen -> NewGCM key = Ok a ->
  (rand keyLen = Ok key -> GenerateKey rand id = Ok (id +:+ ":" +:+ b64_url key))
  /\ forall spec, spec = id +:+ ":" +:+ b64_url key +:+ unbytes (replicate k "="%char)
       \/ spec = id +:+ ":" +:+ b64_encode StdAlphabet key +:+ unbytes (replicate k "="%char) ->
     NewKeyring NewGCM [spec] = Ok (mkKeyring id {[ id := a ]}).
Proof.
  intros Hid Hk Hg. split; [intros Hr; unfold GenerateKey; by rewrite Hid, Hr|]. intros spec Hspec.
  assert (exists encoded, spec = id +:+ String COLON encoded /\ decodeKey encoded = Ok key) as (e & -> & He).
  { destruct (decodeKey_encoded key k Hk) as [H1 H2]. destruct Hspec as [->| ->]; eexists; (split; [reflexivity|done]). }
  unfold valid_key_id in Hid. bools. unfold NewKeyring. simpl. unfold parseKeySpec.
  rewrite cut_byte_app by (eapply ContainsAny_false; [exact H0|done]). rewrite bool_decide_eq_false_2 by done. simpl.
  rewrite Z.gtb_ltb, (proj2 (Z.ltb_ge _ _)), H0, He, Hg by done. simpl. rewrite bool_decide_eq_false_2; [done|].
  rewrite lookup_empty. by intros [].
Qed.
End Props.

(** ** Witnesses *)

(** A stand-in for AES-GCM that puts the key, the nonce and the context in
    front of the plaintext. *)
Definition toy_gcm (key : string) : AEAD :=
  mkAEAD 4 (fun nonce p context => (key +:+ nonce +:+ context +:+ "|") +:+ p)
    (fun nonce c context => CutPrefix c (key +:+ nonce +:+ context +:+ "|")).
Definition toy_new (key : string) : result string AEAD := Ok (toy_gcm key).
Definition toy_rand (n : Z) : result string string := Ok (unbytes (replicate (Z.to_nat n) "r"%char)).

Lemma toy_gcm_ok : gcm_ok toy_new.
Proof. intros key a [= <-]. split; [done|]. intros nonce p context _. simpl. apply CutPrefix_app. Qed.

Lemma toy_rand_ok n b : 0 <= n -> toy_rand n = Ok b -> len b = n.
Proof.
  intros Hn [= <-]. unfold len.
  assert (forall l, String.length (unbytes l) = length l) as ->.
  { intros l. induction l as [|c l IH]; [done|]. simpl. by rewrite <- IH. }
  rewrite length_replicate. lia.
Qed.

(** Two keys, the older one second. *)
Definition old_key : string := "k1:" +:+ b64_url "0123456789abcdef0123456789abcdef".
Definition new_key : string := "k2:" +:+ b64_url "fedcba9876543210fedcba9876543210".
Definition key_fmt : GoFmt := {| Quote := id |}.
Definition old_ring : Keyring := mkKeyring "k1" {[ "k1" := toy_gcm "0123456789abcdef0123456789abcdef" ]}.
Definition new_ring : Keyring :=
  mkKeyring "k2" (<["k1" := toy_gcm "0123456789abcdef0123456789abcdef"]> {[ "k2" := toy_gcm "fedcba9876543210fedcba9876543210" ]}).

(** The random source of the witness refuses a negative length. *)
Definition safe_rand (n : Z) : result string string := if n <? 0 then Err "negative" else toy_rand n.

Lemma safe_rand_ok : rand_ok safe_rand.
Proof. intros n b. unfold safe_rand. destruct (n <? 0) eqn:H; [done|]. bools. by apply toy_rand_ok. Qed.

Definition old_sealed : string := match Encrypt safe_rand old_ring "secret" "ctx" with Ok s => s | Err _ => "" end.

Lemma sealed_value_survives_rotation_witness :
  Decrypt (GF := key_fmt) new_ring old_sealed "ctx" = Ok "secret" /\ NeedsRotation new_ring old_sealed = true.
Proof.
  destruct (sealed_value_survives_rotation (GF := key_fmt) toy_new safe_rand old_key [] [new_key; old_key] old_ring new_ring
    "secret" "ctx" old_sealed toy_gcm_ok safe_rand_ok) as (H1 & _ & H3).
  - vm_compute. reflexivity.
  - vm_compute. reflexivity.
  - right. left.
  - vm_compute. reflexivity.
  - split; [exact H1|]. rewrite H3. reflexivity.
Defined.

Lemma decrypted_value_is_authentic_witness :
  exists payload, old_sealed = sealedVersion +:+ "." +:+ "k1" +:+ "." +:+ payload.
Proof.
  destruct (decrypted_value_is_authentic (GF := key_fmt) old_ring old_sealed "ctx" "secret") as (id & a & payload & _ & _ & H1 & H2 & _).
  - vm_compute. reflexivity.
  - exists payload. rewrite H1. unfold old_ring in H2. simpl in H2. apply lookup_singleton_Some in H2 as [<- _]. reflexivity.
Defined.

Lemma generated_key_is_accepted_witness :
  GenerateKey (GF := key_fmt) safe_rand "k9" = Ok ("k9:" +:+ b64_url (unbytes (replicate 32 "r"%char)))
  /\ NewKeyring (GF := key_fmt) toy_new ["k9:" +:+ b64_url (unbytes (replicate 32 "r"%char)) +:+ "="]
     = Ok (mkKeyring "k9" {[ "k9" := toy_gcm (unbytes (replicate 32 "r"%char)) ]}).
Proof.
  destruct (generated_key_is_accepted (GF := key_fmt) toy_new safe_rand "k9" (unbytes (replicate 32 "r"%char)) 1
    (toy_gcm (unbytes (replicate 32 "r"%char)))) as [H1 H2]; [vm_compute; reflexivity..|].
  split; [apply H1; vm_compute; reflexivity|]. apply H2. left. reflexivity.
Defined.

(** The strict decoder still skips line breaks, so a stored value that was
    changed by one still opens. *)
Lemma line_break_still_opens :
  Decrypt (GF := key_fmt) new_ring (old_sealed +:+ String LF "") "ctx" = Ok "secret".
Proof. vm_compute. reflexivity. Qed.
