(* ===== verification/Expand.v ===== *)
(** * References in configuration files

    [internal/config/expand.go]: [${VAR}], [${VAR:-default}], [${file:/path}] and
    [$$], outside comments. The environment and the file system are parameters.
    [expand]'s loop is bounded by the length of the document; [None] would be a
    loop that was cut short. *)

From stdpp Require Import base gmap strings list.
From Stdlib Require Import ZArith Lia Ascii.
From S2P Require Import Prelude GoStrings GoStringsFacts.

Open Scope Z_scope.

Definition DOLLAR_SIGN : ascii := "$"%char.
Definition HASH : ascii := "#"%char.
Definition BACKSLASH : ascii := chr 92.
Definition SQUOTE : ascii := "'"%char.
Definition DQ : ascii := chr 34.
Definition LBRACE : ascii := "{"%char.
Definition RBRACE : ascii := "}"%char.

Inductive ExpandError :=
| ErrUnsetVariable (name : string)
| ErrExpand (msg : string).

Definition maxFileSecretSize : Z := 2 ^ 20.

(** [strings.Cut] *)
Definition Cut (s sep : string) : option (string * string) :=
  match Index sep s with
  | Some n => Some (take_bytes n s, drop_bytes (n + String.length sep) s)
  | None => None
  end.

Definition next_byte (s : string) : option ascii := match s with String c _ => Some c | EmptyString => None end.

(** What the switch at the head of the loop does with a byte: an escape that is
    copied as it is, two bytes at once, or the state in which the byte is looked
    at further. *)
Inductive LexStep :=
| Escaped (second : ascii)
| Lexed (inComment : bool) (quote : option ascii).

Definition starts_comment (prev : option ascii) : bool :=
  match prev with
  | None => true
  | Some p => bool_decide (p = SP) || bool_decide (p = TAB) || bool_decide (p = LF)
  end.

Definition lex (prev : option ascii) (inComment : bool) (quote : option ascii) (c : ascii) (rest : string) : LexStep :=
  if bool_decide (c = LF) then Lexed false None
  else if inComment then Lexed true quote
  else match quote with
  | Some q =>
      match next_byte rest with
      | Some d =>
          if bool_decide (c = q) && bool_decide (q = SQUOTE) && bool_decide (d = SQUOTE) then Escaped d
          else if bool_decide (c = BACKSLASH) && bool_decide (q = DQ) then Escaped d
          else if bool_decide (c = q) then Lexed false None else Lexed false (Some q)
      | None => if bool_decide (c = q) then Lexed false None else Lexed false (Some q)
      end
  | None =>
      if bool_decide (c = SQUOTE) || bool_decide (c = DQ) then Lexed false (Some c)
      else if bool_decide (c = HASH) && starts_comment prev then Lexed true None
      else Lexed false None
  end.

Section Expander.
Context (lookup : string -> option string).                   (* os.LookupEnv *)
Context (stat : string -> result string Z) (readFile : string -> result string string).

Definition IsAbs (path : string) : bool := HasPrefix path "/".

Definition resolveFile (path : string) : result ExpandError string :=
  let path := TrimSpace path in
  if bool_decide (path = "") then Err (ErrExpand "config: ${file:} reference has an empty path")
  else if negb (IsAbs path) then Err (ErrExpand ("config: ${file:" +:+ path +:+ "} must be an absolute path"))
  else
    let read := match readFile path with
                | Err e => Err (ErrExpand ("config: reading ${file:" +:+ path +:+ "}: " +:+ e))
                | Ok b => Ok (TrimSpace b)
                end in
    match stat path with
    | Ok size =>
        if size >? maxFileSecretSize
        then Err (ErrExpand ("config: ${file:" +:+ path +:+ "} is " +:+ Itoa size +:+ " bytes, larger than the "
                             +:+ Itoa maxFileSecretSize +:+ " byte limit"))
        else read
    | Err _ => read
    end.

Definition resolve (ref : string) : result ExpandError string :=
  if bool_decide (ref = "") then Err (ErrExpand "config: empty ${} reference")
  else match CutPrefix ref "file:" with
  | Some path => resolveFile path
  | None =>
      let '(name, fallback) := match Cut ref ":-" with
                               | Some (name, fallback) => (name, Some fallback)
                               | None => (ref, None)
                               end in
      let value := default "" (lookup name) in
      if negb (bool_decide (value = "")) then Ok value
      else match fallback with
      | Some f => Ok f
      | None => Err (ErrUnsetVariable name)
      end
  end.

(** Where the loop is: the offset, the byte before it, the lexical state. *)
Record Pos := mkPos { ps_i : Z; ps_prev : option ascii; ps_inComment : bool; ps_quote : option ascii }.

(** One round of the loop at a byte: what it writes and where it goes on, or
    the error it returns. *)
Inductive Round :=
| Wrote (text : string) (p : Pos) (rest : string)
| Failed (e : ExpandError).

Definition round (p : Pos) (c : ascii) (rest : string) : Round :=
  let i := ps_i p in
  match lex (ps_prev p) (ps_inComment p) (ps_quote p) c rest with
  | Escaped d => Wrote (String c (String d "")) (mkPos (i + 2) (Some d) (ps_inComment p) (ps_quote p)) (drop_bytes 1 rest)
  | Lexed inComment quote =>
      let copy := Wrote (String c "") (mkPos (i + 1) (Some c) inComment quote) rest in
      if inComment then copy
      else if negb (bool_decide (c = DOLLAR_SIGN)) then copy
      else if bool_decide (next_byte rest = Some DOLLAR_SIGN)
      then Wrote (String c "") (mkPos (i + 2) (Some DOLLAR_SIGN) inComment quote) (drop_bytes 1 rest)
      else if negb (bool_decide (next_byte rest = Some LBRACE)) then copy
      else match cut_byte RBRACE rest with
      | None => Failed (ErrExpand ("config: unterminated ${...} reference at offset " +:+ Itoa i))
      | Some (before, after) =>
          match resolve (drop_bytes 1 before) with
          | Err e => Failed e
          | Ok value => Wrote value (mkPos (i + len before + 2) (Some RBRACE) inComment quote) after
          end
      end
  end.

(** What was written in front of the rest. *)
Definition emit (s : string) (r : option (result ExpandError string)) : option (result ExpandError string) :=
  match r with
  | Some (Ok out) => Some (Ok (s +:+ out))
  | _ => r
  end.

Fixpoint expand_loop (fuel : nat) (p : Pos) (raw : string) : option (result ExpandError string) :=
  match raw, fuel with
  | EmptyString, _ => Some (Ok "")
  | _, O => None
  | String c rest, S fuel =>
      match round p c rest with
      | Wrote text p rest => emit text (expand_loop fuel p rest)
      | Failed e => Some (Err e)
      end
  end.

Definition expand (raw : string) : option (result ExpandError string) :=
  expand_loop (String.length raw) (mkPos 0 None false None) raw.
End Expander.
