(* ===== verification/ExpandProps.v ===== *)
(** * What expansion does to a document *)

From stdpp Require Import base gmap strings list.
From Stdlib Require Import ZArith Lia Ascii.
From S2P Require Import Prelude GoStrings GoStringsFacts Expand.

Open Scope Z_scope.

(** ** Strings *)

Fixpoint ends_with_backslash (s : string) : bool :=
  match s with
  | EmptyString => false
  | String c EmptyString => bool_decide (c = BACKSLASH)
  | String _ s' => ends_with_backslash s'
  end.

(** Every [$] doubled. *)
Fixpoint double_dollars (s : string) : string :=
  match s with
  | EmptyString => EmptyString
  | String c s' => if bool_decide (c = DOLLAR_SIGN) then String c (String c (double_dollars s')) else String c (double_dollars s')
  end.

Lemma ends_tail c s : ends_with_backslash (String c s) = false -> ends_with_backslash s = false.
Proof. by destruct s. Qed.

Lemma ends_app s t : ends_with_backslash (s +:+ t) = false -> ends_with_backslash t = false.
Proof. induction s as [|c s IH]; [done|]. intros H%ends_tail. by apply IH. Qed.

Lemma cut_byte_weaken c s t x y : cut_byte c s = Some (x, y) -> cut_byte c (s +:+ t) = Some (x, y +:+ t).
Proof.
  revert x y. induction s as [|a s IH]; intros x y; [done|].
  change (String a s +:+ t) with (String a (s +:+ t)). simpl. case_bool_decide; [by intros [= <- <-]|].
  destruct (cut_byte c s) as [[p q]|]; [|done]. intros [= <- <-]. by rewrite (IH p q).
Qed.

Lemma next_byte_app s t : s <> "" -> next_byte (s +:+ t) = next_byte s.
Proof. by destruct s. Qed.

(** ** The lexer *)

(** The byte after decides little: with one that is no quote, only a backslash
    at the end is read differently. *)
Lemma lex_app prev inComment quote c rest b t :
  b <> SQUOTE -> ends_with_backslash (String c rest) = false ->
  lex prev inComment quote c (rest +:+ String b t) = lex prev inComment quote c rest.
Proof.
  intros Hb He. destruct rest as [|d rest]; [|done]. simpl in He. bools. unfold lex. simpl.
  destruct (bool_decide (c = LF)); [done|]. destruct inComment; [done|]. destruct quote as [q|]; [|done].
  rewrite (bool_decide_eq_false_2 (b = SQUOTE)), (bool_decide_eq_false_2 (c = BACKSLASH)) by done.
  by rewrite andb_false_r.
Qed.

Lemma lex_escaped prev inComment quote c rest d :
  lex prev inComment quote c rest = Escaped d -> exists rest', rest = String d rest'.
Proof.
  unfold lex. destruct (bool_decide (c = LF)); [done|]. destruct inComment; [done|]. destruct quote as [q|].
  - destruct rest as [|x rest]; simpl; [by destruct (bool_decide _)|].
    destruct (_ && _ && _); [intros [= ->]; eauto|]. destruct (_ && _); [intros [= ->]; eauto|]. by destruct (bool_decide _).
  - destruct (_ || _); [done|]. by destruct (_ && _).
Qed.

Lemma lex_dollar prev quote rest :
  quote <> Some DOLLAR_SIGN -> lex prev false quote DOLLAR_SIGN rest = Lexed false quote.
Proof.
  intros Hq. unfold lex. simpl. destruct quote as [q|]; [|done].
  rewrite !(bool_decide_eq_false_2 (DOLLAR_SIGN = q)) by (intros <-; done). by destruct (next_byte rest).
Qed.

Lemma lex_no_escaped_dollar prev quote c rest : c <> BACKSLASH -> lex prev false quote c rest <> Escaped DOLLAR_SIGN.
Proof.
  intros Hc. unfold lex. destruct (bool_decide (c = LF)); [done|]. destruct quote as [q|].
  - destruct (next_byte rest) as [d|]; [|by destruct (bool_decide _)].
    rewrite (bool_decide_eq_false_2 (c = BACKSLASH)) by done. simpl.
    destruct (_ && _ && _) eqn:He; [|by destruct (bool_decide _)]. bools. by subst.
  - destruct (_ || _); [done|]. by destruct (_ && _).
Qed.

Lemma lex_no_comment prev quote c rest inC q :
  c <> HASH -> c <> DOLLAR_SIGN -> quote <> Some DOLLAR_SIGN -> lex prev false quote c rest = Lexed inC q ->
  inC = false /\ q <> Some DOLLAR_SIGN.
Proof.
  intros Hc Hd Hq. unfold lex. destruct (bool_decide (c = LF)); [by intros [= <- <-]|]. destruct quote as [k|].
  - destruct (next_byte rest) as [d|]; repeat (destruct (_ && _) || destruct (bool_decide _)); naive_solver.
  - destruct (_ || _); [intros [= <- <-]; naive_solver|]. rewrite bool_decide_eq_false_2 by done. by intros [= <- <-].
Qed.

(** A byte that is neither a quote nor a comment sign leaves plain text plain. *)
Definition plain (c : ascii) : bool := negb (bool_decide (c = SQUOTE) || bool_decide (c = DQ) || bool_decide (c = HASH)).

Lemma lex_plain prev c rest : plain c = true -> lex prev false None c rest = Lexed false None.
Proof.
  unfold plain, lex. intros H. bools. rewrite (bool_decide_eq_false_2 (c = SQUOTE)), (bool_decide_eq_false_2 (c = DQ)),
    (bool_decide_eq_false_2 (c = HASH)) by done. by destruct (bool_decide (c = LF)).
Qed.

Lemma emit_emit s t r : emit s (emit t r) = emit (s +:+ t) r.
Proof. destruct r as [[o|]|]; simpl; try done. by rewrite string_app_assoc. Qed.

Lemma emit_Ok s r o : emit s r = Some (Ok o) -> exists o', r = Some (Ok o') /\ o = s +:+ o'.
Proof. destruct r as [[x|]|]; simpl; try done. intros [= <-]. eauto. Qed.

Section Props.
Context (lookup : string -> option string) (stat : string -> result string Z) (readFile : string -> result string string).
Abbreviation loop := (expand_loop lookup stat readFile).
Abbreviation round := (Expand.round lookup stat readFile).

(** ** One round *)

(** A round consumes at least its byte. *)
Lemma round_shorter p c rest text p' rest' :
  round p c rest = Wrote text p' rest' -> (String.length rest' <= String.length rest)%nat.
Proof.
  assert (forall s, (String.length (drop_bytes 1 s) <= String.length s)%nat) as Hd by (intros [|x s]; simpl; [|destruct s]; simpl; lia).
  unfold Expand.round. destruct (lex _ _ _ _ _) as [d|inC q].
  - intros [= <- <- <-]. apply Hd.
  - destruct inC; [by intros [= <- <- <-]|]. destruct (negb _); [by intros [= <- <- <-]|].
    destruct (bool_decide _); [intros [= <- <- <-]; apply Hd|]. destruct (negb _); [by intros [= <- <- <-]|].
    destruct (cut_byte RBRACE rest) as [[x y]|] eqn:Hc; [|done]. destruct (resolve _ _ _ _); [|done]. intros [= <- <- <-].
    apply cut_byte_Some in Hc as [-> _]. rewrite String_length_app. simpl. lia.
Qed.

(** Bytes that the end of a part does not read ahead for. *)
Definition neutral (b : ascii) : Prop := b <> SQUOTE /\ b <> DOLLAR_SIGN /\ b <> LBRACE.

Lemma app_String c s t : String c s +:+ t = String c (s +:+ t).
Proof. done. Qed.

Lemma drop_1_String c s : drop_bytes 1 (String c s) = s.
Proof. by destruct s. Qed.

Lemma drop_1_app s t : s <> "" -> drop_bytes 1 (s +:+ t) = drop_bytes 1 s +:+ t.
Proof. destruct s as [|c s]; [done|]. intros _. rewrite app_String. simpl. by destruct s, t. Qed.

Lemma ends_drop s : ends_with_backslash s = false -> ends_with_backslash (drop_bytes 1 s) = false.
Proof. destruct s as [|c s]; [done|]. intros H%ends_tail. simpl. by destruct s. Qed.

(** A round that stays within its part does the same with more text behind. *)
Lemma round_app p c rest b t text p' rest' :
  neutral b -> ends_with_backslash (String c rest) = false -> round p c rest = Wrote text p' rest' ->
  round p c (rest +:+ String b t) = Wrote text p' (rest' +:+ String b t) /\ ends_with_backslash rest' = false.
Proof.
  intros (Hb1 & Hb2 & Hb3) He. pose proof (ends_tail _ _ He) as Her. unfold Expand.round. rewrite lex_app by done.
  assert (forall x, x = DOLLAR_SIGN \/ x = LBRACE ->
    bool_decide (next_byte (rest +:+ String b t) = Some x) = bool_decide (next_byte rest = Some x)) as Hnext.
  { intros x Hx. destruct rest; [|done]. change ("" +:+ String b t) with (String b t). simpl.
    rewrite !bool_decide_eq_false_2; [done|]. intros [= ->]. naive_solver. }
  destruct (lex _ _ _ _ rest) as [d|inC q] eqn:Hlex.
  - apply lex_escaped in Hlex as [r ->]. intros [= <- <- <-]. rewrite drop_1_app by done. split; [done|]. by apply (ends_drop (String d r)).
  - destruct inC; [by intros [= <- <- <-]|]. destruct (negb (bool_decide (c = _))); [by intros [= <- <- <-]|].
    rewrite !Hnext by auto. destruct (bool_decide (next_byte rest = _)) eqn:Hd.
    { bools. intros [= <- <- <-]. rewrite drop_1_app by (by intros ->). split; [done|]. by apply ends_drop. }
    destruct (negb _); [by intros [= <- <- <-]|].
    destruct (cut_byte RBRACE rest) as [[x y]|] eqn:Hc; [|done]. rewrite (cut_byte_weaken _ _ _ _ _ Hc).
    destruct (resolve _ _ _ _); [|done]. intros [= <- <- <-]. split; [done|].
    apply cut_byte_Some in Hc as [-> _]. apply ends_app, ends_tail in Her. done.
Qed.

Definition all_plain (s : string) : bool := negb (string_exists (fun c => negb (plain c)) s).

Lemma all_plain_cons c s : all_plain (String c s) = true -> plain c = true /\ all_plain s = true.
Proof. unfold all_plain. simpl. intros H. bools. split; [done|]. by apply negb_true_iff. Qed.

Lemma all_plain_app s t : all_plain (s +:+ t) = true -> all_plain t = true.
Proof. induction s as [|c s IH]; [done|]. rewrite app_String. intros [_ H]%all_plain_cons. auto. Qed.

(** Plain text leaves the state plain. *)
Lemma round_plain p c rest text p' rest' :
  all_plain (String c rest) = true -> ps_inComment p = false -> ps_quote p = None ->
  round p c rest = Wrote text p' rest' ->
  ps_inComment p' = false /\ ps_quote p' = None /\ all_plain rest' = true.
Proof.
  intros [Hc Hr]%all_plain_cons Hp Hq. unfold Expand.round. rewrite Hp, Hq, lex_plain by done.
  assert (all_plain (drop_bytes 1 rest) = true) as Hdrop.
  { destruct rest as [|d r]; [done|]. apply all_plain_cons in Hr as [_ Hr]. by destruct r. }
  destruct (negb _); [by intros [= <- <- <-]|]. destruct (bool_decide _); [by intros [= <- <- <-]|].
  destruct (negb _); [by intros [= <- <- <-]|]. destruct (cut_byte RBRACE rest) as [[x y]|] eqn:Hcut; [|done].
  destruct (resolve _ _ _ _); [|done]. intros [= <- <- <-]. split_and!; try done.
  apply cut_byte_Some in Hcut as [-> _]. by apply all_plain_app, all_plain_cons in Hr as [_ ?].
Qed.

(** ** Termination *)

(** The loop never runs longer than the document: any bound above its length
    gives the same answer, and an answer there is. *)
Lemma loop_total fuel fuel' p raw :
  (String.length raw <= fuel)%nat -> (String.length raw <= fuel')%nat ->
  loop fuel p raw = loop fuel' p raw /\ loop fuel p raw <> None.
Proof.
  revert fuel' p raw. induction fuel as [|fuel IH]; intros fuel' p [|c rest]; destruct fuel' as [|fuel']; simpl; try done; try lia.
  intros Hf Hf'. destruct (round p c rest) as [text p' rest'|] eqn:Hr; [|done]. apply round_shorter in Hr.
  destruct (IH fuel' p' rest') as [-> Hn]; [lia|lia|]. split; [done|]. by destruct (loop fuel' p' rest') as [[]|].
Qed.

(** ** Composition *)

(** What comes after a part that expands by itself is expanded from the state
    the part ends in. *)
Lemma loop_app fuel p l out :
  (String.length l <= fuel)%nat -> ends_with_backslash l = false -> loop fuel p l = Some (Ok out) ->
  exists p',
    (forall b t fuel1 fuel2, neutral b -> (String.length (l +:+ String b t) <= fuel1)%nat ->
       (String.length (String b t) <= fuel2)%nat ->
       loop fuel1 p (l +:+ String b t) = emit out (loop fuel2 p' (String b t)))
    /\ (all_plain l = true -> ps_inComment p = false -> ps_quote p = None -> ps_inComment p' = false /\ ps_quote p' = None).
Proof.
  revert p l out. induction fuel as [|fuel IH]; intros p [|c rest] out Hf He; try (simpl in Hf; lia).
  1,2: (intros [= <-]; exists p; split; [|done]; intros b t fuel1 fuel2 _ H1 H2;
        change ("" +:+ String b t) with (String b t) in *; rewrite (proj1 (loop_total fuel1 fuel2 p _ H1 H2));
        by destruct (loop fuel2 p _) as [[]|]).
  simpl in Hf. simpl. destruct (round p c rest) as [text p' rest'|] eqn:Hr; [|done].
  pose proof (round_shorter _ _ _ _ _ _ Hr) as Hs. intros (o & Ho & ->)%emit_Ok.
  assert (ends_with_backslash rest' = false) as He'.
  { apply (round_app p c rest LF "" text p' rest'); done. }
  destruct (IH p' rest' o ltac:(lia) He' Ho) as (p2 & Hgo & Hplain). exists p2. split.
  - intros b t fuel1 fuel2 Hb H1 H2. rewrite app_String in *. destruct fuel1 as [|fuel1]; simpl in H1; [lia|]. simpl.
    destruct (round_app _ _ _ b t _ _ _ Hb He Hr) as [-> _]. rewrite (Hgo b t fuel1 fuel2); [apply emit_emit|done| |done].
    rewrite String_length_app in *. simpl in *. lia.
  - intros Hpl Hp Hq. destruct (round_plain _ _ _ _ _ _ Hpl Hp Hq Hr) as (? & ? & ?). by apply Hplain.
Qed.
(** Where in the document the text stands shows only in an error's wording. *)
Definition alike (r1 r2 : option (result ExpandError string)) : Prop :=
  match r1, r2 with
  | Some (Ok a), Some (Ok b) => a = b
  | Some (Err _), Some (Err _) => True
  | None, None => True
  | _, _ => False
  end.

Lemma alike_emit s r1 r2 : alike r1 r2 -> alike (emit s r1) (emit s r2).
Proof. destruct r1 as [[]|], r2 as [[]|]; simpl; try done. by intros ->. Qed.

Lemma loop_position fuel p q raw :
  starts_comment (ps_prev p) = starts_comment (ps_prev q) -> ps_inComment p = ps_inComment q -> ps_quote p = ps_quote q ->
  alike (loop fuel p raw) (loop fuel q raw).
Proof.
  revert p q raw. induction fuel as [|fuel IH]; intros p q [|c rest] Hs Hc Hq; simpl; try done.
  assert (lex (ps_prev p) (ps_inComment p) (ps_quote p) c rest = lex (ps_prev q) (ps_inComment q) (ps_quote q) c rest) as Hl
    by (unfold lex; by rewrite Hs, Hc, Hq).
  assert (forall text p' q' rest', ps_prev p' = ps_prev q' -> ps_inComment p' = ps_inComment q' -> ps_quote p' = ps_quote q' ->
    alike (emit text (loop fuel p' rest')) (emit text (loop fuel q' rest'))) as Hgo
    by (intros; apply alike_emit, IH; congruence).
  unfold Expand.round. rewrite Hl. clear Hl. destruct (lex _ _ _ _ _) as [d|inC k]; [by apply Hgo|].
  destruct inC; [by apply Hgo|]. destruct (negb _); [by apply Hgo|]. destruct (bool_decide _); [by apply Hgo|].
  destruct (negb _); [by apply Hgo|]. destruct (cut_byte _ _) as [[x y]|]; [|done].
  destruct (resolve _ _ _ _); [by apply Hgo|done].
Qed.

(** Inside a comment everything up to the end of the line is copied. *)
Lemma loop_comment fuel p t :
  (String.length t <= fuel)%nat -> ps_inComment p = true -> contains_byte t LF = false ->
  loop fuel p t = Some (Ok t).
Proof.
  revert p t. induction fuel as [|fuel IH]; intros p [|c t] Hf Hp Hn; try done; [simpl in Hf; lia|].
  simpl in Hn, Hf. apply orb_false_iff in Hn as [Hc Hn]. simpl. unfold Expand.round, lex. rewrite Hc, Hp.
  by rewrite (IH _ t) by (done || lia).
Qed.

(** Without a dollar sign everything is copied. *)
Lemma loop_no_dollar fuel p t :
  (String.length t <= fuel)%nat -> contains_byte t DOLLAR_SIGN = false ->
  loop fuel p t = Some (Ok t).
Proof.
  revert p t. induction fuel as [|fuel IH]; intros p [|c t] Hf Hn; try done; [simpl in Hf; lia|].
  simpl in Hn, Hf. apply orb_false_iff in Hn as [Hc Hn]. simpl. unfold Expand.round. rewrite Hc.
  destruct (lex _ _ _ _ _) as [d|inC k] eqn:Hl.
  - apply lex_escaped in Hl as [r ->]. simpl in Hn, Hf. apply orb_false_iff in Hn as [_ Hn].
    rewrite drop_1_String. by rewrite (IH _ r) by (done || lia).
  - destruct inC; simpl; by rewrite (IH _ t) by (done || lia).
Qed.

Lemma next_byte_doubled s : next_byte (double_dollars s) = next_byte s.
Proof. destruct s as [|c s]; [done|]. simpl. by destruct (bool_decide _). Qed.

(** Outside comments, doubled dollar signs are halved and the rest is copied. *)
Lemma loop_doubled fuel p s :
  (String.length (double_dollars s) <= fuel)%nat -> ps_inComment p = false -> ps_quote p <> Some DOLLAR_SIGN ->
  string_exists (fun c => bool_decide (c = HASH) || bool_decide (c = BACKSLASH)) s = false ->
  loop fuel p (double_dollars s) = Some (Ok s).
Proof.
  revert p s. induction fuel as [fuel IH] using lt_wf_ind. intros p [|c s] Hf Hp Hq Hn; [by destruct fuel|].
  simpl in Hn. apply orb_false_iff in Hn as [[Hc Hb]%orb_false_iff Hn].
  apply bool_decide_eq_false in Hc, Hb. simpl in *. case_bool_decide as Hd; simpl in Hf; (destruct fuel as [|fuel]; [lia|]); simpl.
  - subst. unfold Expand.round. rewrite Hp, lex_dollar, drop_1_String by done. simpl. by rewrite (IH fuel) by (simpl; first [done | lia | by intros ?]).
  - unfold Expand.round. destruct (lex _ _ _ _ _) as [d|inC q] eqn:Hl.
    + pose proof (lex_escaped _ _ _ _ _ _ Hl) as [r Hr]. destruct s as [|d' s]; [done|].
      assert (d' = d) as ->. { pose proof (next_byte_doubled (String d' s)) as H1. rewrite Hr in H1. by simplify_eq/=. }
      assert (d <> DOLLAR_SIGN) as Hdd. { intros ->. rewrite Hp in Hl. by apply lex_no_escaped_dollar in Hl. }
      rewrite Hr, drop_1_String. simpl in Hr, Hf, Hn |- *. apply orb_false_iff in Hn as [_ Hn].
      rewrite bool_decide_eq_false_2 in Hr, Hf by done. injection Hr as <-. simpl in Hf.
      by rewrite (IH fuel) by (simpl in *; first [done | lia | by intros ?]).
    + rewrite Hp in Hl. destruct (lex_no_comment _ _ _ _ _ _ Hc Hd Hq Hl) as [-> Hq']. rewrite bool_decide_eq_false_2 by done. simpl.
      by rewrite (IH fuel) by (simpl; first [done | lia | by intros ?]).
Qed.

(** ** The properties *)

(** expansion always ends, with the text or with an error: the loop's
    bound, the length of the document, is never what stops it, and a document
    without a dollar sign comes back byte for byte. *)
Theorem expansion_terminates raw :
  exists r, expand lookup stat readFile raw = Some r /\
    (contains_byte raw DOLLAR_SIGN = false -> r = Ok raw).
Proof.
  unfold expand. destruct (loop_total (String.length raw) (String.length raw) (mkPos 0 None false None) raw) as [_ H]; try done.
  destruct (loop _ _ raw) as [r|] eqn:Hr; [|done]. exists r. split; [done|]. intros Hn. rewrite (loop_no_dollar _ _ raw) in Hr; [by simplify_eq|done..].
Qed.

(** lines are expanded independently of each other. After a line that
    expands by itself and does not end in a backslash, the rest of the document
    expands as it would standing alone: to the same text, or to an error when
    it is one there. An open quote or a comment never reaches the next line. *)
Theorem lines_expand_independently l1 l2 out1 :
  ends_with_backslash l1 = false -> expand lookup stat readFile l1 = Some (Ok out1) ->
  alike (expand lookup stat readFile (l1 +:+ String LF l2)) (emit (out1 +:+ String LF "") (expand lookup stat readFile l2)).
Proof.
  intros He H1. destruct (loop_app _ _ _ _ (le_n _) He H1) as (p' & Hgo & _). unfold expand.
  rewrite (Hgo LF l2 _ (S (String.length l2))); [|done|done|simpl; lia]. rewrite <-emit_emit. apply alike_emit.
  simpl. apply (alike_emit (String LF "")). by apply loop_position.
Qed.

(** a comment is left alone. In a line whose text before the comment has
    no quotes and no comment sign, what follows [#] after a blank is copied as
    it stands, whatever references it holds. *)
Theorem comments_are_left_alone pre out t :
  all_plain pre = true -> ends_with_backslash pre = false -> expand lookup stat readFile pre = Some (Ok out) ->
  contains_byte t LF = false ->
  expand lookup stat readFile (pre +:+ " #" +:+ t) = Some (Ok (out +:+ " #" +:+ t)).
Proof.
  intros Hpl He Ho Hn. destruct (loop_app _ _ _ _ (le_n _) He Ho) as (p' & Hgo & Hp). unfold expand.
  destruct (Hp Hpl eq_refl eq_refl) as [Hc Hq]. change (" #" +:+ t) with (String SP (String HASH t)).
  rewrite (Hgo SP _ _ (S (S (String.length t)))); [|done|done|simpl; lia].
  simpl. unfold Expand.round, lex. rewrite Hc, Hq. simpl. by rewrite loop_comment by done.
Qed.
(** a reference is replaced by exactly the value it resolves to, or its
    error is the document's error. The value is never looked at again: a dollar
    sign, a quote or a comment sign in a secret is text. *)
Theorem reference_replaced_once pre out ref :
  all_plain pre = true -> ends_with_backslash pre = false -> expand lookup stat readFile pre = Some (Ok out) ->
  contains_byte ref RBRACE = false ->
  expand lookup stat readFile (pre +:+ " ${" +:+ ref +:+ "}") =
    Some (match resolve lookup stat readFile ref with Ok value => Ok (out +:+ " " +:+ value) | Err e => Err e end).
Proof.
  intros Hpl He Ho Hn. destruct (loop_app _ _ _ _ (le_n _) He Ho) as (p' & Hgo & Hp). unfold expand.
  destruct (Hp Hpl eq_refl eq_refl) as [Hc Hq].
  change (" ${" +:+ ref +:+ "}") with (String SP (String DOLLAR_SIGN (String LBRACE (ref +:+ "}")))).
  rewrite (Hgo SP _ _ (S (S (S (S (String.length ref)))))); [|done|done|simpl; rewrite String_length_app; simpl; lia].
  simpl. unfold Expand.round, lex. rewrite Hc, Hq. simpl. rewrite cut_byte_app by done.
  destruct (resolve _ _ _ ref); simpl; [|done]. by rewrite string_app_nil.
Qed.

(** any text without comment signs and backslashes can be written: with
    its dollar signs doubled it expands to itself. *)
Theorem escaped_text_roundtrip s :
  string_exists (fun c => bool_decide (c = HASH) || bool_decide (c = BACKSLASH)) s = false ->
  expand lookup stat readFile (double_dollars s) = Some (Ok s).
Proof. intros H. by apply loop_doubled. Qed.
End Props.

(** ** Witnesses *)

Definition sample_env (name : string) : option string := if bool_decide (name = "DB_PASSWORD") then Some "a$$b # ${X}" else None.
Definition no_file (_ : string) : result string Z := Err "no such file".
Definition no_content (_ : string) : result string string := Err "no such file".
Abbreviation expand_sample := (expand sample_env no_file no_content).

Lemma lines_expand_independently_witness :
  alike (expand_sample ("password: ${DB_PASSWORD}" +:+ String LF "dsn: ${DSN}")) (Some (Err (ErrUnsetVariable "DSN"))).
Proof.
  apply (lines_expand_independently sample_env no_file no_content "password: ${DB_PASSWORD}" "dsn: ${DSN}"
           "password: a$$b # ${X}"); vm_compute; reflexivity.
Defined.

Lemma comments_are_left_alone_witness :
  expand_sample "password: ${DB_PASSWORD} # from ${DSN}" = Some (Ok "password: a$$b # ${X} # from ${DSN}").
Proof.
  apply (comments_are_left_alone sample_env no_file no_content "password: ${DB_PASSWORD}" "password: a$$b # ${X}"
           " from ${DSN}"); vm_compute; reflexivity.
Defined.

Lemma reference_replaced_once_witness :
  expand_sample "a: $$1 ${LEVEL:-info}" = Some (Ok "a: $1 info").
Proof.
  apply (reference_replaced_once sample_env no_file no_content "a: $$1" "a: $1" "LEVEL:-info"); vm_compute; reflexivity.
Defined.

Lemma escaped_text_roundtrip_witness :
  expand_sample "a: '$${not a reference}'" = Some (Ok "a: '${not a reference}'").
Proof. apply (escaped_text_roundtrip sample_env no_file no_content "a: '${not a reference}'"). vm_compute. reflexivity. Defined.
