(* ===== verification/Sql.v ===== *)
(** * SQL dialects and connections

    [internal/store/dialect.go], [dialect_sqlite.go], [dialect_postgres.go],
    [open.go] and [columns.go]: what the two engines disagree about, the
    rewriting of [?] placeholders, and the data source name with SQLite's
    pragmas. Of package [net/url] the file holds what [sqliteDSN] uses: query
    strings and their escaping. A driver error is the chain [errors.As] walks. *)

From stdpp Require Import base gmap strings list sorting.
From Stdlib Require Import ZArith Lia Ascii.
From S2P Require Import Prelude GoStrings GoStringsFacts.

Open Scope Z_scope.

Definition QUESTION : ascii := "?"%char.
Definition QUOTE1 : ascii := "'"%char.
Definition QUOTE2 : ascii := chr 34.

(** ** Placeholders *)

(** The loop of [itoa]: [room] is what is left of [buf [8]byte]; indexing
    before its start is a panic. *)
Fixpoint itoa_loop (room : nat) (n : Z) (acc : string) : option string :=
  if n >? 0 then
    match room with
    | O => None
    | S room => itoa_loop room (n / 10) (String (chr (48 + n mod 10)) acc)
    end
  else Some acc.

(** For a count of placeholders, which is never negative. *)
Definition itoa (n : Z) : option string :=
  if n <? 10 then Some (String (chr (48 + n)) "") else itoa_loop 8 n "".

Inductive Quoting := Outside | InSingle | InDouble.

(** From a byte on; [n] counts the placeholders so far. [None] is the panic of
    [itoa]. In a literal a doubled quote is consumed as one step. *)
Fixpoint rebind_from (q : Quoting) (n : Z) (query : string) : option string :=
  match query with
  | EmptyString => Some ""
  | String c rest =>
      let write q := option_map (String c) (rebind_from q n rest) in
      match q with
      | InSingle =>
          if bool_decide (c = QUOTE1) then
            match rest with
            | String d rest' =>
                if bool_decide (d = QUOTE1)
                then option_map (fun out => String c (String QUOTE1 out)) (rebind_from InSingle n rest')
                else write Outside
            | EmptyString => write Outside
            end
          else write InSingle
      | InDouble => write (if bool_decide (c = QUOTE2) then Outside else InDouble)
      | Outside =>
          if bool_decide (c = QUOTE1) then write InSingle
          else if bool_decide (c = QUOTE2) then write InDouble
          else if bool_decide (c = QUESTION) then
            match itoa (n + 1) with
            | Some digits => option_map (fun out => String "$" (digits +:+ out)) (rebind_from Outside (n + 1) rest)
            | None => None
            end
          else write Outside
      end
  end.

Definition rebindDollar (query : string) : option string := rebind_from Outside 0 query.

(** ** Dialects *)

Definition DriverSQLite : string := "sqlite".
Definition DriverPostgres : string := "postgres".

Inductive Dialect := sqliteDialect | postgresDialect.

Definition DialectFor (driver : string) : result string Dialect :=
  if bool_decide (driver = DriverSQLite) then Ok sqliteDialect
  else if bool_decide (driver = DriverPostgres) then Ok postgresDialect
  else Err ("store: unknown driver " +:+ driver).

Definition Dialect_Name (d : Dialect) : string :=
  match d with sqliteDialect => DriverSQLite | postgresDialect => DriverPostgres end.

Definition Rebind (d : Dialect) (query : string) : option string :=
  match d with sqliteDialect => Some query | postgresDialect => rebindDollar query end.

Definition LockClause (d : Dialect) : string :=
  match d with sqliteDialect => "" | postgresDialect => " FOR UPDATE SKIP LOCKED" end.

Definition Dialect_Now (d : Dialect) : string :=
  match d with sqliteDialect => "CURRENT_TIMESTAMP" | postgresDialect => "NOW()" end.

(** An error as [errors.As] sees it: a driver's own error, possibly wrapped. *)
Inductive EngineError :=
| SqliteErr (code : Z)
| PgErr (code : string)
| PlainErr (msg : string)
| WrappedErr (msg : string) (inner : EngineError).

(** SQLite's extended result codes. *)
Definition SQLITE_CONSTRAINT_UNIQUE : Z := 2067.
Definition SQLITE_CONSTRAINT_PRIMARYKEY : Z := 1555.
Definition SQLITE_CONSTRAINT_FOREIGNKEY : Z := 787.
Definition SQLITE_CONSTRAINT_TRIGGER : Z := 1811.

Definition pgUniqueViolation : string := "23505".
Definition pgForeignKeyViolation : string := "23503".

Fixpoint sqliteErrorCode (err : EngineError) : Z :=
  match err with
  | SqliteErr c => c
  | WrappedErr _ e => sqliteErrorCode e
  | _ => 0
  end.

Fixpoint pgErrorCode (err : EngineError) : string :=
  match err with
  | PgErr c => c
  | WrappedErr _ e => pgErrorCode e
  | _ => ""
  end.

Definition IsUniqueViolation (d : Dialect) (err : EngineError) : bool :=
  match d with
  | sqliteDialect => (sqliteErrorCode err =? SQLITE_CONSTRAINT_UNIQUE) || (sqliteErrorCode err =? SQLITE_CONSTRAINT_PRIMARYKEY)
  | postgresDialect => bool_decide (pgErrorCode err = pgUniqueViolation)
  end.

Definition IsForeignKeyViolation (d : Dialect) (err : EngineError) : bool :=
  match d with
  | sqliteDialect => (sqliteErrorCode err =? SQLITE_CONSTRAINT_FOREIGNKEY) || (sqliteErrorCode err =? SQLITE_CONSTRAINT_TRIGGER)
  | postgresDialect => bool_decide (pgErrorCode err = pgForeignKeyViolation)
  end.

(** ** Columns *)

Definition splitColumns (columns : string) : list string :=
  List.filter (fun p => negb (bool_decide (p = ""))) (List.map TrimSpace (split_byte ","%char columns)).

(** ** Package net/url *)

Definition hex_digit (n : Z) : ascii := if n <? 10 then chr (48 + n) else chr (55 + n).

Definition unhex (c : ascii) : option Z :=
  let n := code c in
  if (48 <=? n) && (n <=? 57) then Some (n - 48)
  else if (97 <=? n) && (n <=? 102) then Some (n - 87)
  else if (65 <=? n) && (n <=? 70) then Some (n - 55)
  else None.

(** [shouldEscape] in a query component. *)
Definition unreserved (c : ascii) : bool :=
  is_upper c || is_lower c || is_digit c || contains_byte "-_.~" c.

Fixpoint QueryEscape (s : string) : string :=
  match s with
  | EmptyString => ""
  | String c s =>
      if bool_decide (c = SP) then String "+" (QueryEscape s)
      else if unreserved c then String c (QueryEscape s)
      else String "%" (String (hex_digit (code c / 16)) (String (hex_digit (code c mod 16)) (QueryEscape s)))
  end.

Fixpoint QueryUnescape (s : string) : option string :=
  match s with
  | EmptyString => Some ""
  | String c s =>
      if bool_decide (c = "%"%char) then
        match s with
        | String a (String b s) =>
            match unhex a, unhex b with
            | Some x, Some y => option_map (String (chr (16 * x + y))) (QueryUnescape s)
            | _, _ => None
            end
        | _ => None
        end
      else if bool_decide (c = "+"%char) then option_map (String SP) (QueryUnescape s)
      else option_map (String c) (QueryUnescape s)
  end.

(** [url.Values] *)
Abbreviation Values := (gmap string (list string)).

Definition Values_Add (m : Values) (key value : string) : Values := <[key := default [] (m !! key) ++ [value]]> m.

Definition AMP : ascii := "&"%char.
Definition EQ_SIGN : ascii := "="%char.

(** One element of the query: the map and the error it leaves. *)
Definition parse_element (st : Values * option string) (piece : string) : Values * option string :=
  let '(m, err) := st in
  if contains_byte piece ";"%char then (m, Some "invalid semicolon separator in query")
  else if bool_decide (piece = "") then (m, err)
  else
    let '(key, value) := default (piece, "") (cut_byte EQ_SIGN piece) in
    match QueryUnescape key, QueryUnescape value with
    | Some key, Some value => (Values_Add m key value, err)
    | _, _ => (m, Some (default "invalid URL escape" err))
    end.

Definition ParseQuery (query : string) : result string Values :=
  match foldl parse_element (∅, None) (split_byte AMP query) with
  | (m, None) => Ok m
  | (_, Some e) => Err e
  end.

Definition encode_pair (kv : string * string) : string := QueryEscape (fst kv) +:+ String EQ_SIGN (QueryEscape (snd kv)).

Definition encode_pairs (m : Values) : list (string * string) :=
  concat (List.map (fun k => List.map (pair k) (default [] (m !! k))) (merge_sort string_le (List.map fst (map_to_list m)))).

Definition Values_Encode (m : Values) : string := Join (List.map encode_pair (encode_pairs m)) (String AMP "").

(** ** Opening *)

Definition sqlitePragmas : list string :=
  ["foreign_keys(1)"; "journal_mode(wal)"; "busy_timeout(5000)"; "synchronous(normal)"].

Definition pragma_name (p : string) : string := match cut_byte "("%char p with Some (name, _) => name | None => p end.

Definition PRAGMA_KEY : string := "_pragma".

(** The pragmas the operator did not mention are added. *)
Definition add_pragma (existing : string) (values : Values) (p : string) : Values :=
  if Contains existing (pragma_name p) then values else Values_Add values PRAGMA_KEY p.

Definition sqliteDSN (raw : string) : result string string :=
  if bool_decide (raw = "") then Err "store: sqlite dsn must not be empty"
  else
    let '(base, query) := default (raw, "") (cut_byte QUESTION raw) in
    match ParseQuery query with
    | Err e => Err ("store: parsing sqlite dsn parameters: " +:+ e)
    | Ok values =>
        let existing := Join (default [] (values !! PRAGMA_KEY)) " " in
        Ok (base +:+ String QUESTION (Values_Encode (foldl (add_pragma existing) values sqlitePragmas)))
    end.

Record Options := mkOptions {
  op_Driver : string;
  op_DSN : string;
  op_MaxOpenConns : Z;
  op_MaxIdleConns : Z;
  op_ConnMaxLifetime : Z
}.

Definition driverDSN (opts : Options) : result string (string * string) :=
  if bool_decide (op_Driver opts = DriverSQLite) then
    match sqliteDSN (op_DSN opts) with Ok dsn => Ok ("sqlite", dsn) | Err e => Err e end
  else if bool_decide (op_Driver opts = DriverPostgres) then Ok ("pgx", op_DSN opts)
  else Err ("store: unknown driver " +:+ op_Driver opts).

(** What the pool is told; [None] leaves package [sql]'s default. *)
Record PoolSettings := mkPool { pl_maxOpen : Z; pl_maxIdle : option Z; pl_maxLifetime : Z }.

Definition applyPoolSettings (opts : Options) : PoolSettings :=
  if bool_decide (op_Driver opts = DriverSQLite) then
    let maxOpen := if (op_MaxOpenConns opts <=? 0) || (op_MaxOpenConns opts >? 8) then 4 else op_MaxOpenConns opts in
    mkPool maxOpen (Some maxOpen) 0
  else
    mkPool (op_MaxOpenConns opts) (if op_MaxIdleConns opts >? 0 then Some (op_MaxIdleConns opts) else None)
      (op_ConnMaxLifetime opts).

(** [sql.Open] and [PingContext] are the drivers': the errors they return are
    parameters. *)
Definition Open (sqlOpen ping : string -> string -> option string) (opts : Options) : result string (Dialect * string * PoolSettings) :=
  match DialectFor (op_Driver opts) with
  | Err e => Err e
  | Ok dialect =>
      match driverDSN opts with
      | Err e => Err e
      | Ok (driverName, dsn) =>
          match sqlOpen driverName dsn with
          | Some e => Err ("store: opening " +:+ op_Driver opts +:+ " database: " +:+ e)
          | None =>
              match ping driverName dsn with
              | Some e => Err ("store: connecting to the " +:+ op_Driver opts +:+ " database: " +:+ e)
              | None => Ok (dialect, dsn, applyPoolSettings opts)
              end
          end
      end
  end.

(** ** Numbers *)

Lemma itoa_loop_digits room fuel n acc :
  0 < n < 10 ^ Z.of_nat room -> (room <= fuel)%nat -> itoa_loop room n acc = Some (digits_of fuel n acc).
Proof.
  revert fuel n acc. induction room as [|room IH]; intros fuel n acc Hn Hf; [change (10 ^ Z.of_nat 0) with 1 in Hn; lia|].
  rewrite Nat2Z.inj_succ, Z.pow_succ_r in Hn by lia. destruct fuel as [|fuel]; [lia|].
  cbn [itoa_loop digits_of]. rewrite (proj2 (Z.gtb_lt n 0)) by lia. destruct (n <? 10) eqn:Hlt; bools.
  - rewrite Z.div_small, Z.mod_small by lia. by destruct room.
  - rewrite (IH fuel); [done| |lia]. split; [apply Z.div_str_pos; lia|apply Z.div_lt_upper_bound; lia].
Qed.

Lemma itoa_is_Itoa n : 0 <= n < 10 ^ 8 -> itoa n = Some (Itoa n).
Proof.
  intros Hn. unfold itoa, Itoa. rewrite (proj2 (Z.ltb_ge n 0)) by lia. destruct (n <? 10) eqn:Hlt.
  - cbn [digits_of]. by rewrite Hlt.
  - bools. apply itoa_loop_digits; [simpl; lia|lia].
Qed.

(** ** Queries as sequences of tokens *)

(** A literal (its text, with quotes not yet doubled), a quoted identifier, a
    placeholder, or a byte of anything else. *)
Inductive SqlToken :=
| Lit (s : string)
| Ident (s : string)
| Placeholder
| Byte (c : ascii).

Fixpoint double_quotes (s : string) : string :=
  match s with
  | EmptyString => ""
  | String c s => if bool_decide (c = QUOTE1) then String QUOTE1 (String QUOTE1 (double_quotes s)) else String c (double_quotes s)
  end.

(** The query, with placeholders as [place] numbers them. *)
Fixpoint show_tokens (place : Z -> string) (n : Z) (toks : list SqlToken) : string :=
  match toks with
  | [] => ""
  | Lit s :: toks => String QUOTE1 (double_quotes s +:+ String QUOTE1 (show_tokens place n toks))
  | Ident s :: toks => String QUOTE2 (s +:+ String QUOTE2 (show_tokens place n toks))
  | Placeholder :: toks => place (n + 1) +:+ show_tokens place (n + 1) toks
  | Byte c :: toks => String c (show_tokens place n toks)
  end.

Definition question (_ : Z) : string := "?".
Definition dollar (n : Z) : string := String "$" (Itoa n).

Definition placeholders (toks : list SqlToken) : Z :=
  Z.of_nat (length (List.filter (fun t => match t with Placeholder => true | _ => false end) toks)).

Definition wf_token (t : SqlToken) : bool :=
  match t with
  | Ident s => negb (contains_byte s QUOTE2)
  | Byte c => negb (bool_decide (c = QUOTE1) || bool_decide (c = QUOTE2) || bool_decide (c = QUESTION))
  | _ => true
  end.

(** Two literals are never written next to each other: that is one literal. *)
Fixpoint wf_tokens (toks : list SqlToken) : bool :=
  match toks with
  | [] => true
  | t :: rest =>
      wf_token t && negb (match t, rest with Lit _, Lit _ :: _ => true | _, _ => false end) && wf_tokens rest
  end.

Lemma placeholders_cons t toks :
  placeholders (t :: toks) = (match t with Placeholder => 1 | _ => 0 end) + placeholders toks.
Proof. unfold placeholders. destruct t; simpl List.filter; simpl length; lia. Qed.

(** A literal is copied to its closing quote, when no quote follows. *)
Lemma rebind_literal n s rest :
  match rest with String c _ => c <> QUOTE1 | EmptyString => True end ->
  rebind_from InSingle n (double_quotes s +:+ String QUOTE1 rest) =
    option_map (fun out => double_quotes s +:+ String QUOTE1 out) (rebind_from Outside n rest).
Proof.
  intros Hrest. induction s as [|c s IH].
  - simpl. destruct rest as [|d rest]; [done|]. by rewrite (bool_decide_eq_false_2 (d = QUOTE1)) by done.
  - simpl. case_bool_decide as Hc.
    + subst c. change (String QUOTE1 (String QUOTE1 (double_quotes s)) +:+ String QUOTE1 rest)
        with (String QUOTE1 (String QUOTE1 (double_quotes s +:+ String QUOTE1 rest))).
      cbn [rebind_from]. rewrite bool_decide_eq_true_2, IH by done. by destruct (rebind_from Outside n rest).
    + change (String c (double_quotes s) +:+ String QUOTE1 rest) with (String c (double_quotes s +:+ String QUOTE1 rest)).
      cbn [rebind_from]. rewrite bool_decide_eq_false_2, IH by done. by destruct (rebind_from Outside n rest).
Qed.

Lemma rebind_ident n s rest :
  contains_byte s QUOTE2 = false ->
  rebind_from InDouble n (s +:+ String QUOTE2 rest) =
    option_map (fun out => s +:+ String QUOTE2 out) (rebind_from Outside n rest).
Proof.
  intros Hs. induction s as [|c s IH]; [done|]. unfold contains_byte in Hs. simpl in Hs. apply orb_false_iff in Hs as [Hc Hs].
  change (String c s +:+ String QUOTE2 rest) with (String c (s +:+ String QUOTE2 rest)). cbn [rebind_from].
  rewrite Hc, IH by done. by destruct (rebind_from Outside n rest).
Qed.

Lemma show_after_literal n toks :
  wf_tokens (Lit "" :: toks) = true ->
  match show_tokens question n toks with String c _ => c <> QUOTE1 | EmptyString => True end.
Proof. destruct toks as [|[s|s| |c] toks]; simpl; try done. intros H. by bools. Qed.

Lemma rebind_tokens toks n :
  wf_tokens toks = true -> 0 <= n -> n + placeholders toks < 10 ^ 8 ->
  rebind_from Outside n (show_tokens question n toks) = Some (show_tokens dollar n toks).
Proof.
  revert n. induction toks as [|t toks IH]; intros n Hwf Hn Hb; [done|]. rewrite placeholders_cons in Hb.
  assert (wf_tokens toks = true) as Hwf' by (simpl in Hwf; by bools).
  assert (0 <= placeholders toks) by (unfold placeholders; lia).
  destruct t as [s|s| |c]; cbn [show_tokens].
  - cbn [rebind_from]. rewrite rebind_literal by (apply show_after_literal; by destruct toks as [|[] ?]).
    rewrite IH by (done || lia). done.
  - simpl in Hwf. bools. cbn [rebind_from]. rewrite rebind_ident, IH by (done || lia). done.
  - change (question (n + 1) +:+ show_tokens question (n + 1) toks) with (String QUESTION (show_tokens question (n + 1) toks)).
    cbn [rebind_from]. rewrite itoa_is_Itoa by lia. rewrite IH by (done || lia). done.
  - simpl in Hwf. bools. cbn [rebind_from]. rewrite !bool_decide_eq_false_2 by done. rewrite IH by (done || lia). done.
Qed.

(** rebinding for PostgreSQL is the reference reading of a query as a
    sequence of literals, quoted identifiers, placeholders and other bytes: the
    k-th placeholder becomes [$k], and quoted text, question marks included, is
    kept byte for byte. *)
Theorem rebind_numbers_placeholders toks :
  wf_tokens toks = true -> placeholders toks < 10 ^ 8 ->
  Rebind postgresDialect (show_tokens question 0 toks) = Some (show_tokens dollar 0 toks) /\
  Rebind sqliteDialect (show_tokens question 0 toks) = Some (show_tokens question 0 toks).
Proof. intros Hwf Hp. split; [|done]. apply rebind_tokens; [done|lia|lia]. Qed.

Lemma rebind_numbers_placeholders_witness :
  Rebind postgresDialect "UPDATE t SET a=?, b='it''s?' WHERE c=?" = Some "UPDATE t SET a=$1, b='it''s?' WHERE c=$2".
Proof.
  apply (rebind_numbers_placeholders
    (List.map Byte (bytes "UPDATE t SET a=") ++ [Placeholder] ++ List.map Byte (bytes ", b=") ++ [Lit "it's?"]
     ++ List.map Byte (bytes " WHERE c=") ++ [Placeholder])); [reflexivity|vm_compute; reflexivity].
Defined.

(** ** Query strings *)

Lemma hex_digit_ok n : 0 <= n < 16 -> unhex (hex_digit n) = Some n.
Proof.
  intros H. assert (forallb (fun k => bool_decide (unhex (hex_digit k) = Some k)) (seqZ 0 16) = true) as Hall by (vm_compute; reflexivity).
  rewrite forallb_forall in Hall. specialize (Hall n). apply bool_decide_eq_true in Hall; [done|]. apply list_elem_of_In, elem_of_seqZ. lia.
Qed.

Lemma unreserved_plain c : unreserved c = true -> c <> "%"%char /\ c <> "+"%char /\ c <> AMP /\ c <> EQ_SIGN /\ c <> ";"%char.
Proof. intros H. split_and!; intros ->; by vm_compute in H. Qed.

Lemma QueryUnescape_escape s : QueryUnescape (QueryEscape s) = Some s.
Proof.
  induction s as [|c s IH]; [done|]. cbn [QueryEscape]. case_bool_decide as Hsp; [|destruct (unreserved c) eqn:Hu].
  - subst. cbn [QueryUnescape]. by rewrite IH.
  - apply unreserved_plain in Hu as (? & ? & _). cbn [QueryUnescape]. by rewrite !bool_decide_eq_false_2, IH.
  - pose proof (code_bounds c). cbn [QueryUnescape]. simpl.
    rewrite !hex_digit_ok by (split; [apply Z.div_pos || apply Z.mod_pos_bound|apply Z.div_lt_upper_bound || apply Z.mod_pos_bound]; lia).
    rewrite IH. simpl. by rewrite <-Z.div_mod, chr_code by lia.
Qed.

Lemma hex_digit_plain n c : 0 <= n < 16 -> is_digit c = false -> is_upper c = false -> hex_digit n <> c.
Proof.
  intros H Hd Hu ->%eq_sym. unfold hex_digit in *. destruct (n <? 10) eqn:?; bools.
  - assert (is_digit (chr (48 + n)) = true); [|congruence]. unfold is_digit. rewrite code_chr by lia. apply andb_true_iff. lia.
  - assert (is_upper (chr (55 + n)) = true); [|congruence]. unfold is_upper. rewrite code_chr by lia. apply andb_true_iff. lia.
Qed.

Lemma QueryEscape_plain s c :
  c = AMP \/ c = EQ_SIGN \/ c = ";"%char -> contains_byte (QueryEscape s) c = false.
Proof.
  intros Hc. unfold contains_byte. induction s as [|a s IH]; [done|]. cbn [QueryEscape].
  case_bool_decide as Hsp; [|destruct (unreserved a) eqn:Hu]; simpl; rewrite IH, ?orb_false_r.
  - by destruct Hc as [->|[->| ->]].
  - apply unreserved_plain in Hu. apply bool_decide_eq_false_2. naive_solver.
  - pose proof (code_bounds a). rewrite !bool_decide_eq_false_2; [done|..].
    + apply hex_digit_plain; [apply Z.mod_pos_bound; lia|by destruct Hc as [->|[->| ->]]..].
    + apply hex_digit_plain; [split; [apply Z.div_pos|apply Z.div_lt_upper_bound]; lia|by destruct Hc as [->|[->| ->]]..].
    + by destruct Hc as [->|[->| ->]].
Qed.

Lemma encode_pair_plain kv c : c = AMP \/ c = ";"%char -> contains_byte (encode_pair kv) c = false.
Proof.
  intros Hc. unfold encode_pair. rewrite contains_byte_app. rewrite QueryEscape_plain by tauto.
  change (String EQ_SIGN (QueryEscape (snd kv))) with (String EQ_SIGN "" +:+ QueryEscape (snd kv)).
  rewrite contains_byte_app, QueryEscape_plain by tauto. by destruct Hc as [->| ->].
Qed.

Lemma parse_encoded m err kv : parse_element (m, err) (encode_pair kv) = (Values_Add m (fst kv) (snd kv), err).
Proof.
  unfold parse_element. rewrite encode_pair_plain by auto. rewrite bool_decide_eq_false_2.
  - unfold encode_pair. rewrite cut_byte_app by (apply QueryEscape_plain; auto). simpl. by rewrite !QueryUnescape_escape.
  - unfold encode_pair. by destruct (QueryEscape (fst kv)).
Qed.

Definition add_pair (m : Values) (kv : string * string) : Values := Values_Add m (fst kv) (snd kv).

Lemma parse_encoded_all pairs m : foldl parse_element (m, None) (List.map encode_pair pairs) = (foldl add_pair m pairs, None).
Proof. revert m. induction pairs as [|kv pairs IH]; intros m; [done|]. cbn [List.map foldl]. by rewrite parse_encoded, IH. Qed.

(** The values a list of pairs gives a key, in order. *)
Definition values_of (k : string) (pairs : list (string * string)) : list string :=
  List.map snd (List.filter (fun kv => bool_decide (fst kv = k)) pairs).

Lemma lookup_add_pairs pairs m k :
  foldl add_pair m pairs !! k =
    match values_of k pairs with [] => m !! k | vs => Some (default [] (m !! k) ++ vs) end.
Proof.
  revert m. induction pairs as [|[k' v] pairs IH]; intros m; [done|]. cbn [foldl]. rewrite IH. unfold values_of, add_pair, Values_Add.
  cbn [List.filter fst snd]. case_bool_decide as Hk.
  - subst. rewrite lookup_insert_eq. cbn [List.map]. destruct (List.map _ _) as [|w ws]; [done|].
    cbn [default]. unfold id. by rewrite <-app_assoc.
  - by rewrite lookup_insert_ne.
Qed.

Lemma values_of_app k l1 l2 : values_of k (l1 ++ l2) = values_of k l1 ++ values_of k l2.
Proof. unfold values_of. by rewrite List.filter_app, List.map_app. Qed.

Lemma values_of_block k k' vs : values_of k (List.map (pair k') vs) = if bool_decide (k' = k) then vs else [].
Proof.
  unfold values_of. induction vs as [|v vs IH]; [by case_bool_decide|]. cbn [List.map List.filter fst].
  case_bool_decide; cbn [List.map snd]; by rewrite IH.
Qed.

Lemma values_of_blocks (m : Values) k ks :
  NoDup ks ->
  values_of k (concat (List.map (fun k => List.map (pair k) (default [] (m !! k))) ks)) =
    if bool_decide (k ∈ ks) then default [] (m !! k) else [].
Proof.
  induction ks as [|k' ks IH]; [done|]. intros [Hn Hd]%NoDup_cons. cbn [List.map concat].
  rewrite values_of_app, values_of_block, IH by done. destruct (decide (k' = k)) as [->|Hk].
  - rewrite (bool_decide_eq_true_2 (k = k)), (bool_decide_eq_false_2 (k ∈ ks)), bool_decide_eq_true_2 by (done || left).
    by rewrite app_nil_r.
  - rewrite (bool_decide_eq_false_2 (k' = k)) by done.
    rewrite (bool_decide_ext (k ∈ k' :: ks) (k ∈ ks)); [done|]. set_solver.
Qed.

(** Every key of a parsed query has a value. *)
Definition no_empty (m : Values) : Prop := forall k, m !! k <> Some [].

Lemma Encode_Parse m : no_empty m -> ParseQuery (Values_Encode m) = Ok m.
Proof.
  intros Hne. unfold ParseQuery, Values_Encode. set (pairs := encode_pairs m).
  assert (foldl add_pair ∅ pairs = m) as Hm.
  { apply map_eq. intros k. rewrite lookup_add_pairs. unfold pairs, encode_pairs.
    rewrite values_of_blocks by (rewrite merge_sort_Permutation; apply NoDup_fst_map_to_list).
    rewrite (bool_decide_ext _ (is_Some (m !! k))).
    - rewrite lookup_empty. specialize (Hne k). case_bool_decide as H; destruct (m !! k) as [[|v vs]|]; try done; by destruct H.
    - rewrite merge_sort_Permutation. rewrite list_elem_of_In, in_map_iff. split.
      + intros ([k' vs] & <- & H%list_elem_of_In%elem_of_map_to_list). by eexists.
      + intros [vs H]. exists (k, vs). split; [done|]. by apply list_elem_of_In, elem_of_map_to_list. }
  destruct (decide (pairs = [])) as [He|He].
  - rewrite He in *. simpl in *. by rewrite <-Hm.
  - rewrite split_Join; [by rewrite parse_encoded_all, Hm| |].
    + by destruct pairs.
    + apply Forall_forall. intros p (kv & -> & _)%list_elem_of_fmap. apply encode_pair_plain. auto.
Qed.

Lemma Values_Add_no_empty m k v : no_empty m -> no_empty (Values_Add m k v).
Proof.
  intros H k'. unfold Values_Add. destruct (decide (k = k')) as [->|].
  - rewrite lookup_insert_eq. by destruct (default [] _).
  - rewrite lookup_insert_ne by done. apply H.
Qed.

Lemma ParseQuery_no_empty q m : ParseQuery q = Ok m -> no_empty m.
Proof.
  unfold ParseQuery. assert (forall pieces st, no_empty (fst st) -> no_empty (fst (foldl parse_element st pieces))) as Hgo.
  { induction pieces as [|p pieces IH]; intros [m0 e] H; [done|]. cbn [foldl]. apply IH. unfold parse_element.
    destruct (contains_byte p _); [done|]. case_bool_decide; [done|]. destruct (default _ _) as [k v].
    destruct (QueryUnescape k), (QueryUnescape v); try done. by apply Values_Add_no_empty. }
  specialize (Hgo (split_byte AMP q) (∅, None)). destruct (foldl _ _ _) as [m' [e|]]; [done|].
  intros [= <-]. apply Hgo. intros k. simpl. by rewrite lookup_empty.
Qed.

(** ** The data source name *)

Definition pragmas_of (m : Values) : list string := default [] (m !! PRAGMA_KEY).

Lemma add_pragmas existing ps values :
  foldl (add_pragma existing) values ps !! PRAGMA_KEY =
    match List.filter (fun p => negb (Contains existing (pragma_name p))) ps with
    | [] => values !! PRAGMA_KEY
    | added => Some (pragmas_of values ++ added)
    end /\
  (forall k, k <> PRAGMA_KEY -> foldl (add_pragma existing) values ps !! k = values !! k) /\
  (no_empty values -> no_empty (foldl (add_pragma existing) values ps)).
Proof.
  revert values. induction ps as [|p ps IH]; intros values; [done|]. cbn [foldl List.filter].
  destruct (IH (add_pragma existing values p)) as (H1 & H2 & H3). rewrite H1. unfold add_pragma, pragmas_of in *.
  destruct (Contains existing (pragma_name p)) eqn:Hc; cbn [negb]; [done|]. split_and!.
  - unfold Values_Add. rewrite lookup_insert_eq. destruct (List.filter _ ps); [done|]. cbn [default]. unfold id. by rewrite <-app_assoc.
  - intros k Hk. rewrite H2 by done. unfold Values_Add. by rewrite lookup_insert_ne.
  - intros Hv. by apply H3, Values_Add_no_empty.
Qed.

(** the DSN a connection is opened with carries the operator's own
    parameters, in their order and with nothing lost, and after them every
    pragma the proxy relies on whose name the operator's pragmas do not
    mention. A plain path gets all four, foreign keys first. *)
Theorem sqlite_dsn_carries_pragmas raw dsn :
  sqliteDSN raw = Ok dsn ->
  exists base query given values,
    (base, query) = default (raw, "") (cut_byte QUESTION raw) /\ ParseQuery query = Ok given /\
    dsn = base +:+ String QUESTION (Values_Encode values) /\ ParseQuery (Values_Encode values) = Ok values /\
    pragmas_of values = pragmas_of given ++ List.filter (fun p => negb (Contains (Join (pragmas_of given) " ") (pragma_name p))) sqlitePragmas /\
    (forall k, k <> PRAGMA_KEY -> values !! k = given !! k) /\
    (contains_byte raw QUESTION = false -> pragmas_of values = sqlitePragmas).
Proof.
  unfold sqliteDSN. case_bool_decide; [done|]. destruct (default _ _) as [base query] eqn:Hcut.
  destruct (ParseQuery query) as [given|] eqn:Hq; [|done]. intros [= <-].
  pose proof (add_pragmas (Join (pragmas_of given) " ") sqlitePragmas given) as (H1 & H2 & H3).
  exists base, query, given, (foldl (add_pragma (Join (pragmas_of given) " ")) given sqlitePragmas).
  split_and!; try done.
  - by apply Encode_Parse, H3, (ParseQuery_no_empty query).
  - unfold pragmas_of at 1. rewrite H1. destruct (List.filter _ _); [by rewrite app_nil_r|done].
  - intros Hn. rewrite (cut_byte_none _ _ Hn) in Hcut. simpl in Hcut. injection Hcut as <- <-. assert (ParseQuery "" = Ok ∅) as Hnil by done.
    rewrite Hnil in Hq. injection Hq as <-. unfold pragmas_of at 1. rewrite H1. by vm_compute.
Qed.

Lemma sqlite_dsn_carries_pragmas_witness :
  exists values, ParseQuery (Values_Encode values) = Ok values /\ pragmas_of values = sqlitePragmas.
Proof.
  edestruct (sqlite_dsn_carries_pragmas "/data/proxy.db") as (? & ? & ? & values & _ & _ & _ & Hp & _ & _ & Hv).
  - vm_compute. reflexivity.
  - exists values. split; [exact Hp|]. apply Hv. vm_compute. reflexivity.
Defined.

(** The pragma's name is looked for anywhere in the operator's text: SQLite's
    [defer_foreign_keys] mentions [foreign_keys], and foreign keys stay off. *)
Lemma similar_pragma_keeps_foreign_keys_off :
  sqliteDSN "p.db?_pragma=defer_foreign_keys(1)" =
    Ok "p.db?_pragma=defer_foreign_keys%281%29&_pragma=journal_mode%28wal%29&_pragma=busy_timeout%285000%29&_pragma=synchronous%28normal%29".
Proof. vm_compute. reflexivity. Qed.

(** SQLite never gets a large pool, nor an unlimited one. *)
Lemma sqlite_pool_is_small opts :
  op_Driver opts = DriverSQLite -> 1 <= pl_maxOpen (applyPoolSettings opts) <= 8 /\
    pl_maxIdle (applyPoolSettings opts) = Some (pl_maxOpen (applyPoolSettings opts)).
Proof.
  intros H. unfold applyPoolSettings. rewrite bool_decide_eq_true_2 by done. simpl.
  destruct ((op_MaxOpenConns opts <=? 0) || (op_MaxOpenConns opts >? 8)) eqn:Hm; bools; split; try done; lia.
Qed.

(** The two violations are never confused, in either dialect. *)
Lemma violations_are_distinct d err : IsUniqueViolation d err && IsForeignKeyViolation d err = false.
Proof.
  unfold IsUniqueViolation, IsForeignKeyViolation. destruct d.
  - destruct (Z.eq_dec (sqliteErrorCode err) SQLITE_CONSTRAINT_UNIQUE) as [->|H1]; [done|].
    destruct (Z.eq_dec (sqliteErrorCode err) SQLITE_CONSTRAINT_PRIMARYKEY) as [->|H2]; [done|].
    by rewrite (proj2 (Z.eqb_neq _ _) H1), (proj2 (Z.eqb_neq _ _) H2).
  - by destruct (decide (pgErrorCode err = pgUniqueViolation)) as [->|Hu]; [|rewrite bool_decide_eq_false_2].
Qed.
