(* ===== verification/Migrate.v ===== *)
(** * Schema migrations

    [internal/store/migrate.go]. The embedded directory, the SHA-256 of a file
    and the engine that runs a statement are parameters. The database is the
    engine's own state, which the migration scripts change, and the rows of
    [schema_migrations], which only the migrator writes. Every call on the
    database may fail: a run is given the failures it meets, one entry per call.
    Errors are values; their wording is left out. *)

From stdpp Require Import base gmap strings list sorting.
From Stdlib Require Import ZArith Lia Ascii.
From S2P Require Import Prelude GoStrings GoStringsFacts Sql.

Open Scope Z_scope.

Record Migration := mkMigration {
  mg_Version : Z;
  mg_Name : string;
  mg_Up : string;
  mg_Down : string;
  mg_Checksum : string
}.

Record AppliedMigration := mkApplied {
  am_Version : Z;
  am_Name : string;
  am_Checksum : string;
  am_AppliedAt : Z
}.

Inductive MigrationError :=
| ErrDirtySchema (version : Z) (name : string) (recorded computed : string)
| ErrSchemaAhead (database : Z) (known : nat)
| ErrMigrationName (filename : string)
| ErrMigrationVersion (filename versionStr : string)
| ErrNoMigrations (dialect : string)
| ErrReading (filename : string)
| ErrConflictingNames (version : Z) (name1 name2 : string)
| ErrNoScript (version : Z) (name direction : string)
| ErrNotContiguous (version : Z) (position : nat)
| ErrRollBackTarget (target : Z) (current : nat)
| ErrDatabase (what : string) (cause : string).

(** ** Names of migration files *)

Inductive Direction := DirUp | DirDown.

Definition cutDirection (base filename : string) : result MigrationError (string * Direction) :=
  match CutSuffix base ".up" with
  | Some rest => Ok (rest, DirUp)
  | None =>
      match CutSuffix base ".down" with
      | Some rest => Ok (rest, DirDown)
      | None => Err (ErrMigrationName filename)
      end
  end.

Definition parseMigrationName (filename : string) : result MigrationError (Z * string * Direction) :=
  match CutSuffix filename ".sql" with
  | None => Err (ErrMigrationName filename)
  | Some base =>
      match cutDirection base filename with
      | Err e => Err e
      | Ok (base, direction) =>
          match cut_byte "_"%char base with
          | Some (versionStr, name) =>
              if bool_decide (name = "") then Err (ErrMigrationName filename)
              else match Atoi versionStr with
              | Some version => if version <=? 0 then Err (ErrMigrationVersion filename versionStr) else Ok (version, name, direction)
              | None => Err (ErrMigrationVersion filename versionStr)
              end
          | None => Err (ErrMigrationName filename)
          end
      end
  end.

(** ** Scripts *)

(** The quotes of a line: the loop over its bytes, from [inSingle] to
    [inSingle]. A doubled quote inside a literal is skipped. *)
Fixpoint track_quotes (inSingle : bool) (line : string) : bool :=
  match line with
  | EmptyString => inSingle
  | String c rest =>
      if bool_decide (c = QUOTE1) then
        match rest with
        | String d rest' => if inSingle && bool_decide (d = QUOTE1) then track_quotes inSingle rest' else track_quotes (negb inSingle) rest
        | EmptyString => negb inSingle
        end
      else track_quotes inSingle rest
  end.

(** What the loop of [splitStatements] keeps: the statement so far and whether
    a literal is open. *)
Record Splitter := mkSplitter { sp_out : list string; sp_current : string; sp_inSingle : bool }.

Definition skipped (inSingle : bool) (trimmed : string) : bool :=
  negb inSingle && (bool_decide (trimmed = "") || HasPrefix trimmed "--").

Definition flush (out : list string) (current : string) : list string :=
  let s := TrimSpace current in if bool_decide (s = "") then out else out ++ [s].

Definition split_line (st : Splitter) (line : string) : Splitter :=
  let trimmed := TrimSpace line in
  if skipped (sp_inSingle st) trimmed then st
  else
    let current := sp_current st +:+ line +:+ String LF "" in
    let inSingle := track_quotes (sp_inSingle st) line in
    if negb inSingle && HasSuffix trimmed ";" then mkSplitter (flush (sp_out st) current) "" inSingle
    else mkSplitter (sp_out st) current inSingle.

Definition splitStatements (script : string) : list string :=
  let st := foldl split_line (mkSplitter [] "" false) (split_byte LF script) in
  flush (sp_out st) (sp_current st).

Definition firstLine (s : string) : string := match cut_byte LF s with Some (l, _) => l | None => s end.

Definition short (sum : string) : string := if (12 <? len sum) then take_bytes 12 sum else sum.

(** ** Loading *)

Section Loading.
Context (sha256_hex : string -> string).
(** [fs.ReadDir] of [migrations/<dialect>]: the names that are not
    directories, or an error; [fs.ReadFile] of one of them. *)
Context (readDir : string -> option (list (string * bool))) (readFile : string -> string -> option string).
(** The order in which [range] visits a map. *)
Context (visit : gmap Z Migration -> list Migration).

Definition set_body (m : Migration) (direction : Direction) (body : string) : Migration :=
  match direction with
  | DirUp => mkMigration (mg_Version m) (mg_Name m) body (mg_Down m) (sha256_hex body)
  | DirDown => mkMigration (mg_Version m) (mg_Name m) (mg_Up m) body (mg_Checksum m)
  end.

Definition load_entry (dialect : string) (byVersion : gmap Z Migration) (e : string * bool) : result MigrationError (gmap Z Migration) :=
  let '(filename, isDir) := e in
  if (isDir : bool) then Ok byVersion
  else match parseMigrationName filename with
  | Err err => Err err
  | Ok (version, name, direction) =>
      match readFile dialect filename with
      | None => Err (ErrReading filename)
      | Some body =>
          let m := default (mkMigration version name "" "" "") (byVersion !! version) in
          if negb (bool_decide (mg_Name m = name)) then Err (ErrConflictingNames version (mg_Name m) name)
          else Ok (<[version := set_body m direction body]> byVersion)
      end
  end.

Fixpoint load_entries (dialect : string) (byVersion : gmap Z Migration) (entries : list (string * bool)) : result MigrationError (gmap Z Migration) :=
  match entries with
  | [] => Ok byVersion
  | e :: entries =>
      match load_entry dialect byVersion e with
      | Ok byVersion => load_entries dialect byVersion entries
      | Err err => Err err
      end
  end.

Fixpoint complete (ms : list Migration) : result MigrationError (list Migration) :=
  match ms with
  | [] => Ok []
  | m :: ms =>
      if bool_decide (mg_Up m = "") then Err (ErrNoScript (mg_Version m) (mg_Name m) ".up.sql")
      else if bool_decide (mg_Down m = "") then Err (ErrNoScript (mg_Version m) (mg_Name m) ".down.sql")
      else match complete ms with Ok ms => Ok (m :: ms) | Err e => Err e end
  end.

Definition version_le (a b : Migration) : Prop := mg_Version a <= mg_Version b.
#[global] Instance version_le_dec a b : Decision (version_le a b).
Proof. unfold version_le. apply _. Defined.

Fixpoint contiguous (i : nat) (ms : list Migration) : option MigrationError :=
  match ms with
  | [] => None
  | m :: ms => if mg_Version m =? Z.of_nat i + 1 then contiguous (S i) ms else Some (ErrNotContiguous (mg_Version m) (S i))
  end.

Definition LoadMigrations (dialect : string) : result MigrationError (list Migration) :=
  match readDir dialect with
  | None => Err (ErrNoMigrations dialect)
  | Some entries =>
      match load_entries dialect ∅ entries with
      | Err e => Err e
      | Ok byVersion =>
          match complete (visit byVersion) with
          | Err e => Err e
          | Ok out =>
              let out := merge_sort version_le out in
              match contiguous 0 out with
              | Some e => Err e
              | None => Ok out
              end
          end
      end
  end.
End Loading.

(** ** The database *)

(** [exec stmt] in the engine's state. *)
Class Engine (D : Type) := exec : string -> D -> result string D.

Record SchemaDB (D : Type) := mkSchemaDB { db_data : D; db_applied : list AppliedMigration }.
Arguments mkSchemaDB {D} _ _.
Arguments db_data {D} _.
Arguments db_applied {D} _.

(** The failures the calls of a run meet, in order; none once the list is used
    up. *)
Definition Faults := list (option string).

Definition next_fault (fs : Faults) : option string * Faults :=
  match fs with [] => (None, []) | f :: fs => (f, fs) end.

Section Migrator.
Context {D : Type} `{Engine D}.
Abbreviation Schema := (SchemaDB D).

(** Computations on the database, that consume failures. *)
Definition M (A : Type) : Type := Schema -> Faults -> result MigrationError A * Schema * Faults.

Definition mret {A} (a : A) : M A := fun db fs => (Ok a, db, fs).
Definition mfail {A} (e : MigrationError) : M A := fun db fs => (Err e, db, fs).
Definition mseq {A B} (m : M A) (k : A -> M B) : M B := fun db fs =>
  match m db fs with
  | (Ok a, db, fs) => k a db fs
  | (Err e, db, fs) => (Err e, db, fs)
  end.

(** One call: the failure that comes, or the change. *)
Definition call {A} (what : string) (f : Schema -> result string (A * Schema)) : M A := fun db fs =>
  let '(fault, fs) := next_fault fs in
  match fault with
  | Some e => (Err (ErrDatabase what e), db, fs)
  | None =>
      match f db with
      | Ok (a, db) => (Ok a, db, fs)
      | Err e => (Err (ErrDatabase what e), db, fs)
      end
  end.

(** [inTx]: a transaction that failed, or whose commit failed, leaves the
    database as it was. *)
Definition inTx {A} (fn : M A) : M A := fun db fs =>
  match call "begin" (fun db => Ok (tt, db)) db fs with
  | (Err e, db, fs) => (Err e, db, fs)
  | (Ok _, db, fs) =>
      match fn db fs with
      | (Err e, _, fs) => (Err e, db, fs)
      | (Ok a, db', fs) =>
          match call "commit" (fun db => Ok (tt, db)) db' fs with
          | (Err e, _, fs) => (Err e, db, fs)
          | (Ok _, db', fs) => (Ok a, db', fs)
          end
      end
  end.

Definition exec_stmt (stmt : string) : M unit :=
  call (firstLine stmt) (fun db =>
    match exec stmt (db_data db) with
    | Ok d => Ok (tt, mkSchemaDB d (db_applied db))
    | Err e => Err e
    end).

Fixpoint exec_all (stmts : list string) : M unit :=
  match stmts with
  | [] => mret tt
  | s :: stmts => mseq (exec_stmt s) (fun _ => exec_all stmts)
  end.

Definition execScript (script : string) : M unit := exec_all (splitStatements script).

Definition by_version (a b : AppliedMigration) : Prop := am_Version a <= am_Version b.
#[global] Instance by_version_dec a b : Decision (by_version a b).
Proof. unfold by_version. apply _. Defined.

(** [Applied]: the table is created when it is missing, then read in order of
    version. *)
Definition Applied : M (list AppliedMigration) :=
  mseq (call "creating schema_migrations" (fun db => Ok (tt, db))) (fun _ =>
    call "reading schema_migrations" (fun db => Ok (merge_sort by_version (db_applied db), db))).

(** The INSERT meets the primary key on [version]. *)
Definition record_migration (now : Z) (m : Migration) : M unit :=
  call "recording" (fun db =>
    if bool_decide (mg_Version m ∈ List.map am_Version (db_applied db)) then Err "UNIQUE constraint failed"
    else Ok (tt, mkSchemaDB (db_data db) (db_applied db ++ [mkApplied (mg_Version m) (mg_Name m) (mg_Checksum m) now]))).

Definition forget_migration (version : Z) : M unit :=
  call "forgetting" (fun db =>
    Ok (tt, mkSchemaDB (db_data db) (List.filter (fun a => negb (am_Version a =? version)) (db_applied db)))).

Fixpoint verify_rows (migrations : list Migration) (applied : list AppliedMigration) : option MigrationError :=
  match applied, migrations with
  | a :: applied, want :: migrations =>
      if negb (am_Version a =? mg_Version want) || negb (bool_decide (am_Name a = mg_Name want))
      then Some (ErrDirtySchema (am_Version a) (am_Name a) (am_Name a) (mg_Name want))
      else if negb (bool_decide (am_Checksum a = mg_Checksum want))
      then Some (ErrDirtySchema (am_Version a) (am_Name a) (short (am_Checksum a)) (short (mg_Checksum want)))
      else verify_rows migrations applied
  | _, _ => None
  end.

Definition verifyApplied (migrations : list Migration) (applied : list AppliedMigration) : option MigrationError :=
  if bool_decide (length migrations < length applied)%nat
  then Some (ErrSchemaAhead (from_option am_Version 0 (last applied)) (length migrations))
  else verify_rows migrations applied.

Definition runUp (now : Z) (m : Migration) : M unit :=
  inTx (mseq (execScript (mg_Up m)) (fun _ => record_migration now m)).

Definition revert (m : Migration) : M unit :=
  inTx (mseq (execScript (mg_Down m)) (fun _ => forget_migration (mg_Version m))).

(** The loop over the pending migrations: how many ran, and the error that
    stopped it. *)
Fixpoint run_each (step : Migration -> M unit) (ms : list Migration) (ran : nat) (db : Schema) (fs : Faults) : nat * option MigrationError * Schema * Faults :=
  match ms with
  | [] => (ran, None, db, fs)
  | m :: ms =>
      match step m db fs with
      | (Ok _, db, fs) => run_each step ms (S ran) db fs
      | (Err e, db, fs) => (ran, Some e, db, fs)
      end
  end.

(** [Up], on the migrations this binary carries; [now m] is when [m] ran. *)
Definition Up (loaded : result MigrationError (list Migration)) (now : Migration -> Z) (db : Schema) (fs : Faults) : nat * option MigrationError * Schema * Faults :=
  match loaded with
  | Err e => (0%nat, Some e, db, fs)
  | Ok migrations =>
      match Applied db fs with
      | (Err e, db, fs) => (0%nat, Some e, db, fs)
      | (Ok applied, db, fs) =>
          match verifyApplied migrations applied with
          | Some e => (0%nat, Some e, db, fs)
          | None => run_each (fun m => runUp (now m) m) (drop (length applied) migrations) 0 db fs
          end
      end
  end.

(** [Down], which goes from the last applied migration down to [target]. *)
Definition Down (loaded : result MigrationError (list Migration)) (target : Z) (db : Schema) (fs : Faults) : nat * option MigrationError * Schema * Faults :=
  match loaded with
  | Err e => (0%nat, Some e, db, fs)
  | Ok migrations =>
      match Applied db fs with
      | (Err e, db, fs) => (0%nat, Some e, db, fs)
      | (Ok applied, db, fs) =>
          match verifyApplied migrations applied with
          | Some e => (0%nat, Some e, db, fs)
          | None =>
              if (target <? 0) || (Z.of_nat (length applied) <? target)
              then (0%nat, Some (ErrRollBackTarget target (length applied)), db, fs)
              else run_each revert (rev (drop (Z.to_nat target) (take (length applied) migrations))) 0 db fs
          end
      end
  end.
End Migrator.
