(* ===== verification/MigrateProps.v ===== *)
(** * What migrations promise *)

From stdpp Require Import base gmap strings list sorting.
From Stdlib Require Import ZArith Lia Ascii.
From S2P Require Import Prelude GoStrings GoStringsFacts Sql Migrate.

Open Scope Z_scope.

(** ** Lists sorted by a key *)

Lemma perm_same_keys {A B} (f : A -> B) (l1 l2 : list A) :
  l1 ≡ₚ l2 -> f <$> l1 = f <$> l2 -> NoDup (f <$> l1) -> l1 = l2.
Proof.
  revert l2. induction l1 as [|x l1 IH]; intros l2 Hp Hm Hn; [by apply Permutation_nil_l in Hp|].
  destruct l2 as [|y l2]; [done|]. simpl in *. injection Hm as Hxy Hm. apply NoDup_cons in Hn as [Hx Hn].
  assert (x = y) as ->.
  { assert (y ∈ x :: l1) as Hy by (rewrite Hp; left). apply elem_of_cons in Hy as [->|Hy]; [done|].
    destruct Hx. rewrite Hxy. by apply list_elem_of_fmap_2. }
  f_equal. apply IH; [by apply Permutation_cons_inv in Hp|done|done].
Qed.

Lemma drop_cons_inv {A} (l : list A) k x l' : drop k l = x :: l' -> l !! k = Some x /\ l' = drop (S k) l.
Proof.
  revert l. induction k as [|k IH]; intros [|y l]; simpl; try done; [intros [= -> ->]; by rewrite drop_0|]. apply IH.
Qed.

Section Sorting.
Context {A : Type} (key : A -> Z).
Definition key_le (a b : A) : Prop := key a <= key b.
Context `{!RelDecision key_le}.

#[local] Instance key_le_total : Total key_le.
Proof. intros a b. unfold key_le. lia. Qed.

#[local] Instance key_le_trans : Transitive key_le.
Proof. intros a b c. unfold key_le. lia. Qed.

Lemma sorted_keys l : Sorted key_le l -> Sorted Z.le (key <$> l).
Proof. induction 1 as [|a l Hs IH Hd]; simpl; constructor; [done|]. destruct Hd; simpl; by constructor. Qed.

(** Sorting by distinct keys has one result. *)
Lemma sort_unique l1 l2 :
  l1 ≡ₚ l2 -> Sorted key_le l2 -> NoDup (key <$> l2) -> merge_sort key_le l1 = l2.
Proof.
  intros Hp Hs Hn. symmetry. apply (perm_same_keys key); [by rewrite merge_sort_Permutation| |done].
  apply (Sorted_unique Z.le); [by apply sorted_keys|apply sorted_keys, Sorted_merge_sort; apply _|].
  apply fmap_Permutation. by rewrite merge_sort_Permutation.
Qed.
End Sorting.

(** ** Loading *)

(** The versions a list of migrations must have. *)
Definition versions_from (i : nat) (ms : list Migration) : Prop :=
  forall k m, ms !! k = Some m -> mg_Version m = Z.of_nat (i + k) + 1.

Lemma contiguous_spec i ms : contiguous i ms = None <-> versions_from i ms.
Proof.
  unfold versions_from. revert i. induction ms as [|m ms IH]; intros i; simpl; [by split|].
  destruct (mg_Version m =? Z.of_nat i + 1) eqn:Hv; bools.
  - rewrite IH. split.
    + intros H [|k] m' Hk; simpl in Hk; [by simplify_eq; rewrite Nat.add_0_r|]. rewrite (H _ _ Hk). lia.
    + intros H k m' Hk. rewrite (H (S k) m' Hk). lia.
  - split; [done|]. intros H. rewrite (H 0%nat m eq_refl) in Hv. lia.
Qed.

Lemma versions_from_tail i m ms : versions_from i (m :: ms) -> mg_Version m = Z.of_nat i + 1 /\ versions_from (S i) ms.
Proof.
  intros H. split; [rewrite (H 0%nat m eq_refl); lia|]. intros k m' Hk. rewrite (H (S k) m' Hk). lia.
Qed.

Lemma versions_keys i ms : versions_from i ms -> (mg_Version <$> ms) = (fun k => Z.of_nat k + 1) <$> seq i (length ms).
Proof.
  revert i. induction ms as [|m ms IH]; intros i; [done|]. intros [Hm Hv]%versions_from_tail. cbn [length seq]. rewrite !fmap_cons. by rewrite Hm, (IH (S i)).
Qed.

Lemma seq_keys_NoDup i n : NoDup ((fun k => Z.of_nat k + 1) <$> seq i n).
Proof. apply NoDup_fmap_2; [intros a b; lia|apply NoDup_seq]. Qed.

Lemma seq_keys_sorted i n : Sorted Z.le ((fun k => Z.of_nat k + 1) <$> seq i n).
Proof.
  revert i. induction n as [|n IH]; intros i; simpl; [done|]. constructor; [apply IH|]. destruct n; simpl; constructor; lia.
Qed.

Section Loading.
Context (sha256_hex : string -> string).
Context (readDir : string -> option (list (string * bool))) (readFile : string -> string -> option string).

(** What holds of the map while the directory is read. *)
Definition entry_ok (byVersion : gmap Z Migration) : Prop :=
  forall v m, byVersion !! v = Some m -> mg_Version m = v /\ mg_Name m <> "" /\ (mg_Up m <> "" -> mg_Checksum m = sha256_hex (mg_Up m)).

Lemma CutSuffix_Some s suffix t : CutSuffix s suffix = Some t -> s = t +:+ suffix.
Proof.
  unfold CutSuffix, HasSuffix. destruct (_ && _) eqn:H; [|done]. bools. intros [= <-]. rewrite <-H0 at 2.
  symmetry. apply take_drop_bytes.
Qed.

Lemma parsed_name filename v name dir : parseMigrationName filename = Ok (v, name, dir) -> name <> "".
Proof.
  unfold parseMigrationName. destruct (CutSuffix _ _); [|done]. destruct (cutDirection _ _) as [[b d]|]; [|done].
  destruct (cut_byte _ b) as [[vs n]|]; [|done]. case_bool_decide; [done|]. destruct (Atoi vs); [|done].
  destruct (_ <=? 0); [done|]. by intros [= <- <- <-].
Qed.

Lemma load_entry_ok dialect byVersion e byVersion' :
  entry_ok byVersion -> load_entry sha256_hex readFile dialect byVersion e = Ok byVersion' -> entry_ok byVersion'.
Proof.
  intros Hok. destruct e as [filename isDir]. unfold load_entry. destruct isDir; [by intros [= <-]|].
  destruct (parseMigrationName filename) as [[[v name] dir]|] eqn:Hp; [|done]. apply parsed_name in Hp.
  destruct (readFile dialect filename) as [body|]; [|done].
  destruct (negb _) eqn:Hn; [done|]. intros [= <-] v' m Hm. bools.
  destruct (decide (v = v')) as [->|]; [|by rewrite lookup_insert_ne in Hm; [apply Hok|]].
  rewrite lookup_insert_eq in Hm. injection Hm as <-.
  destruct (byVersion !! v') as [m0|] eqn:Hv; simpl in *.
  - destruct (Hok v' m0 Hv) as (H1 & H2 & H3). by destruct dir.
  - by destruct dir; simpl; subst.
Qed.

Lemma load_entries_ok dialect entries byVersion byVersion' :
  entry_ok byVersion -> load_entries sha256_hex readFile dialect byVersion entries = Ok byVersion' -> entry_ok byVersion'.
Proof.
  revert byVersion. induction entries as [|e entries IH]; intros b Hok; simpl; [by intros [= <-]|].
  destruct (load_entry _ _ _ _ _) as [b'|] eqn:He; [|done]. apply IH. by eapply load_entry_ok.
Qed.

Definition has_scripts (m : Migration) : Prop := mg_Up m <> "" /\ mg_Down m <> "".

Lemma complete_ok ms out : complete ms = Ok out -> out = ms /\ Forall has_scripts ms.
Proof.
  revert out. induction ms as [|m ms IH]; intros out; simpl; [by intros [= <-]|].
  case_bool_decide; [done|]. case_bool_decide; [done|]. destruct (complete ms) as [o|]; [|done]. intros [= <-].
  destruct (IH o eq_refl) as [-> Hf]. split; [done|]. by constructor.
Qed.

Lemma complete_total ms : Forall has_scripts ms -> complete ms = Ok ms.
Proof. induction 1 as [|m ms [Hu Hd] _ IH]; simpl; [done|]. by rewrite !bool_decide_eq_false_2, IH. Qed.

(** the migrations a binary carries are loaded whole or not at all. What
    [LoadMigrations] returns is numbered 1, 2, 3, ... without gaps, each with a
    name, both scripts and the checksum of its up script; and the random order
    in which Go visits a map never shows: any other order loads the same list. *)
Theorem loaded_migrations_are_complete visit dialect ms :
  (forall m, visit m ≡ₚ (map_to_list m).*2) -> LoadMigrations sha256_hex readDir readFile visit dialect = Ok ms ->
  (forall k m, ms !! k = Some m ->
     mg_Version m = Z.of_nat k + 1 /\ mg_Name m <> "" /\ mg_Up m <> "" /\ mg_Down m <> "" /\ mg_Checksum m = sha256_hex (mg_Up m)) /\
  (forall visit', (forall m, visit' m ≡ₚ (map_to_list m).*2) -> LoadMigrations sha256_hex readDir readFile visit' dialect = Ok ms).
Proof.
  intros Hvisit. unfold LoadMigrations. destruct (readDir dialect) as [entries|]; [|done].
  destruct (load_entries _ _ _ _ _) as [b|] eqn:Hl; [|done].
  assert (entry_ok b) as Hok by (eapply load_entries_ok; [|exact Hl]; by intros v m).
  destruct (complete (visit b)) as [out|] eqn:Hc; [|done]. apply complete_ok in Hc as [-> Hs].
  destruct (contiguous _ _) eqn:Hcon; [done|]. intros [= Hms].
  assert (ms ≡ₚ (map_to_list b).*2) as Hp by (rewrite <-Hms, merge_sort_Permutation; apply Hvisit).
  rewrite Hms in Hcon. apply contiguous_spec in Hcon as Hv.
  assert (Forall has_scripts (map_to_list b).*2) as Hs' by (by rewrite <-Hvisit). split.
  - intros k m Hk. assert (m ∈ ms) as Hin by (by eapply list_elem_of_lookup_2). pose proof (Hv _ _ Hk) as Hver. rewrite Hp in Hin.
    pose proof (proj1 (Forall_forall _ _) Hs' m Hin) as [Hu Hd].
    apply list_elem_of_fmap in Hin as ([v m'] & -> & Hin). apply elem_of_map_to_list in Hin.
    destruct (Hok _ _ Hin) as (H1 & H2 & H3). split_and!; auto.
  - intros visit' Hvisit'. rewrite complete_total by (by rewrite Hvisit').
    assert (merge_sort version_le (visit' b) = ms) as ->; [|by rewrite Hcon].
    apply (sort_unique mg_Version); [by rewrite Hvisit'| |rewrite (versions_keys 0) by done; apply seq_keys_NoDup].
    rewrite <-Hms. apply Sorted_merge_sort. intros x y. unfold version_le. lia.
Qed.
End Loading.

Definition sample_dir (dialect : string) : option (list (string * bool)) :=
  Some [("0001_initial.down.sql", false); ("0001_initial.up.sql", false); ("0002_more.down.sql", false);
        ("0002_more.up.sql", false); ("archive", true)].

Definition sample_file (_ filename : string) : option string := Some ("-- " +:+ filename).

Lemma loaded_migrations_are_complete_witness :
  exists ms, LoadMigrations id sample_dir sample_file (fun m => (map_to_list m).*2) "sqlite" = Ok ms /\ length ms = 2%nat /\
    (forall k m, ms !! k = Some m ->
       mg_Version m = Z.of_nat k + 1 /\ mg_Name m <> "" /\ mg_Up m <> "" /\ mg_Down m <> "" /\ mg_Checksum m = id (mg_Up m)).
Proof.
  eexists. split; [vm_compute; reflexivity|]. split; [reflexivity|].
  eapply (loaded_migrations_are_complete id sample_dir sample_file (fun m => (map_to_list m).*2) "sqlite"); [reflexivity|].
  vm_compute. reflexivity.
Defined.

(** ** Running *)

Section Running.
Context {D : Type} `{Engine D}.

(** A script on the engine alone, with nothing else going wrong. *)
Fixpoint run_statements (stmts : list string) (d : D) : result string D :=
  match stmts with
  | [] => Ok d
  | s :: stmts => match exec s d with Ok d => run_statements stmts d | Err e => Err e end
  end.

Definition run_script (script : string) (d : D) : result string D := run_statements (splitStatements script) d.

Fixpoint run_ups (ms : list Migration) (d : D) : result string D :=
  match ms with
  | [] => Ok d
  | m :: ms => match run_script (mg_Up m) d with Ok d => run_ups ms d | Err e => Err e end
  end.

Lemma run_ups_app ms1 ms2 d : run_ups (ms1 ++ ms2) d = match run_ups ms1 d with Ok d => run_ups ms2 d | Err e => Err e end.
Proof. revert d. induction ms1 as [|m ms1 IH]; intros d; simpl; [done|]. by destruct (run_script _ d). Qed.

(** What a row of [schema_migrations] says of a migration. *)
Definition row_of (a : AppliedMigration) : Z * string * string := (am_Version a, am_Name a, am_Checksum a).
Definition row_for (m : Migration) : Z * string * string := (mg_Version m, mg_Name m, mg_Checksum m).

(** The database is exactly at version [k]: the schema is what the first [k]
    scripts make of the empty one, and their rows are the ones recorded. *)
Definition at_version (ms : list Migration) (d0 : D) (k : nat) (db : SchemaDB D) : Prop :=
  (k <= length ms)%nat /\ run_ups (take k ms) d0 = Ok (db_data db) /\ (row_of <$> db_applied db) = row_for <$> take k ms.

(** *** Calls *)

Lemma call_spec {A} what (f : SchemaDB D -> result string (A * SchemaDB D)) db fs r db' fs' :
  call what f db fs = (r, db', fs') -> (exists e, r = Err e /\ db' = db) \/ (exists a, r = Ok a /\ f db = Ok (a, db')).
Proof.
  unfold call. destruct (next_fault fs) as [[e|] fs1]; [intros [= <- <- <-]; eauto|].
  destruct (f db) as [[a db1]|e]; intros [= <- <- <-]; eauto.
Qed.

Lemma call_nofault {A} what (f : SchemaDB D -> result string (A * SchemaDB D)) db a db' :
  f db = Ok (a, db') -> call what f db [] = (Ok a, db', []).
Proof. unfold call. simpl. by intros ->. Qed.

Lemma exec_all_spec stmts db fs db' fs' :
  exec_all stmts db fs = (Ok tt, db', fs') ->
  run_statements stmts (db_data db) = Ok (db_data db') /\ db_applied db' = db_applied db.
Proof.
  revert db fs. induction stmts as [|s stmts IH]; intros db fs; simpl; [by intros [= <- <-]|].
  unfold mseq, exec_stmt. destruct (call _ _ db fs) as [[r db1] fs1] eqn:Hc.
  apply call_spec in Hc as [(e & -> & ->)|(a & -> & Hc)]; [done|]. intros [H1 H2]%IH.
  destruct (exec s (db_data db)) as [d|]; [|done]. injection Hc as <- <-. done.
Qed.

Lemma exec_all_nofault stmts db d :
  run_statements stmts (db_data db) = Ok d -> exec_all stmts db [] = (Ok tt, mkSchemaDB d (db_applied db), []).
Proof.
  revert db. induction stmts as [|s stmts IH]; intros db; simpl.
  { intros [= <-]. unfold mret. by destruct db. }
  destruct (exec s (db_data db)) as [d1|] eqn:He; [|done]. intros Hr. unfold mseq, exec_stmt.
  rewrite (call_nofault _ _ db tt (mkSchemaDB d1 (db_applied db))) by (by rewrite He).
  apply (IH (mkSchemaDB d1 (db_applied db))), Hr.
Qed.

(** A transaction changes everything it does or nothing. *)
Lemma inTx_spec {A} (fn : @M D A) db fs r db' fs' :
  inTx fn db fs = (r, db', fs') ->
  (exists e, r = Err e /\ db' = db) \/ (exists a fs1 fs2, r = Ok a /\ fn db fs1 = (Ok a, db', fs2)).
Proof.
  unfold inTx. destruct (call "begin" _ db fs) as [[r1 db1] fs1] eqn:Hb.
  apply call_spec in Hb as [(e & -> & ->)|(a & -> & [= _ <-])]; [intros [= <- <- <-]; eauto|].
  destruct (fn db fs1) as [[[x|e] db2] fs2] eqn:Hf; [|intros [= <- <- <-]; eauto].
  destruct (call "commit" _ db2 fs2) as [[r3 db3] fs3] eqn:Hc.
  apply call_spec in Hc as [(e & -> & ->)|(b & -> & [= _ <-])]; intros [= <- <- <-]; eauto 8.
Qed.

Lemma inTx_nofault {A} (fn : @M D A) db a db' : fn db [] = (Ok a, db', []) -> inTx fn db [] = (Ok a, db', []).
Proof. intros Hf. unfold inTx. simpl. unfold call. simpl. by rewrite Hf. Qed.

(** *** One migration *)

Definition row (now : Z) (m : Migration) : AppliedMigration := mkApplied (mg_Version m) (mg_Name m) (mg_Checksum m) now.

Lemma runUp_spec now m db fs r db' fs' :
  runUp now m db fs = (r, db', fs') ->
  (exists e, r = Err e /\ db' = db) \/
  (r = Ok tt /\ run_script (mg_Up m) (db_data db) = Ok (db_data db') /\ db_applied db' = db_applied db ++ [row now m]).
Proof.
  intros [?|(a & fs1 & fs2 & -> & Hf)]%inTx_spec; [by left|]. right. destruct a. split; [done|]. unfold mseq in Hf.
  destruct (execScript (mg_Up m) db fs1) as [[[[]|e] db1] fs3] eqn:He; [|done]. apply exec_all_spec in He as [H1 H2].
  apply call_spec in Hf as [(e & ? & _)|(a & _ & Hr)]; [done|]. case_bool_decide; [done|]. injection Hr as _ <-. simpl.
  by rewrite H2.
Qed.

Lemma runUp_nofault now m db d :
  run_script (mg_Up m) (db_data db) = Ok d -> mg_Version m ∉ List.map am_Version (db_applied db) ->
  runUp now m db [] = (Ok tt, mkSchemaDB d (db_applied db ++ [row now m]), []).
Proof.
  intros Hr Hv. apply inTx_nofault. unfold mseq, execScript. rewrite (exec_all_nofault _ db d) by done.
  apply call_nofault. simpl. by rewrite bool_decide_eq_false_2.
Qed.

Definition without (version : Z) (rows : list AppliedMigration) : list AppliedMigration :=
  List.filter (fun a => negb (am_Version a =? version)) rows.

Lemma revert_spec m db fs r db' fs' :
  revert m db fs = (r, db', fs') ->
  (exists e, r = Err e /\ db' = db) \/
  (r = Ok tt /\ run_script (mg_Down m) (db_data db) = Ok (db_data db') /\ db_applied db' = without (mg_Version m) (db_applied db)).
Proof.
  intros [?|(a & fs1 & fs2 & -> & Hf)]%inTx_spec; [by left|]. right. destruct a. split; [done|]. unfold mseq in Hf.
  destruct (execScript (mg_Down m) db fs1) as [[[[]|e] db1] fs3] eqn:He; [|done]. apply exec_all_spec in He as [H1 H2].
  apply call_spec in Hf as [(e & ? & _)|(a & _ & Hr)]; [done|]. injection Hr as _ <-. simpl. by rewrite H2.
Qed.

Lemma revert_nofault m db d :
  run_script (mg_Down m) (db_data db) = Ok d ->
  revert m db [] = (Ok tt, mkSchemaDB d (without (mg_Version m) (db_applied db)), []).
Proof.
  intros Hr. apply inTx_nofault. unfold mseq, execScript. rewrite (exec_all_nofault _ db d) by done. by apply call_nofault.
Qed.

(** *** The rows *)

Section Rows.
Context (ms : list Migration) (d0 : D).
Hypothesis Hversions : versions_from 0 ms.

Lemma recorded_versions k db :
  at_version ms d0 k db -> (am_Version <$> db_applied db) = (fun k => Z.of_nat k + 1) <$> seq 0 k.
Proof.
  intros (Hk & _ & Hr). assert ((am_Version <$> db_applied db) = mg_Version <$> take k ms) as ->.
  { change (am_Version <$> db_applied db) with ((fst ∘ fst ∘ row_of) <$> db_applied db).
    change (mg_Version <$> take k ms) with ((fst ∘ fst ∘ row_for) <$> take k ms).
    by rewrite !list_fmap_compose, Hr. }
  rewrite (versions_keys 0); [by rewrite length_take, Nat.min_l|].
  intros i m Hi. apply Hversions. by apply lookup_take_Some in Hi as [? _].
Qed.

Lemma recorded_length k db : at_version ms d0 k db -> length (db_applied db) = k.
Proof. intros Hat%recorded_versions. apply (f_equal length) in Hat. by rewrite !length_fmap, length_seq in Hat. Qed.

Lemma keys_sorted {A} (key : A -> Z) l : Sorted Z.le (key <$> l) -> Sorted (key_le key) l.
Proof.
  induction l as [|a l IH]; [done|]. rewrite fmap_cons. intros [Hs Hd]%Sorted_inv. constructor; [auto|].
  destruct l; [done|]. rewrite fmap_cons in Hd. apply HdRel_inv in Hd. by constructor.
Qed.

(** The rows are read as they were written. *)
Lemma read_recorded k db : at_version ms d0 k db -> merge_sort by_version (db_applied db) = db_applied db.
Proof.
  intros Hat%recorded_versions. apply (sort_unique am_Version); [done| |rewrite Hat; apply seq_keys_NoDup].
  apply keys_sorted. rewrite Hat. apply seq_keys_sorted.
Qed.

Lemma verify_matching l rows : (row_of <$> rows) = row_for <$> l -> forall l', verify_rows (l ++ l') rows = None.
Proof.
  revert rows. induction l as [|m l IH]; intros rows Hr l'; destruct rows as [|a rows]; try done; [by destruct l'|].
  rewrite !fmap_cons in Hr. injection Hr as H1 H2 H3 Hr. simpl. rewrite H1, H2, H3, Z.eqb_refl, !bool_decide_eq_true_2 by done. simpl. auto.
Qed.

Lemma verify_recorded k db : at_version ms d0 k db -> verifyApplied ms (db_applied db) = None.
Proof.
  intros Hat. pose proof (recorded_length _ _ Hat). destruct Hat as (Hk & _ & Hr). unfold verifyApplied.
  rewrite bool_decide_eq_false_2 by lia. rewrite <-(take_drop k ms) at 1. by apply verify_matching.
Qed.

Lemma fresh_version k db m : at_version ms d0 k db -> ms !! k = Some m -> mg_Version m ∉ List.map am_Version (db_applied db).
Proof.
  intros Hat Hm. change (List.map am_Version (db_applied db)) with (am_Version <$> db_applied db).
  rewrite (recorded_versions _ _ Hat), (Hversions _ _ Hm). intros (i & Hi & [_ Hlt]%elem_of_seq)%list_elem_of_fmap. lia.
Qed.

(** One migration more. *)
Lemma at_version_up k db db' m now :
  at_version ms d0 k db -> ms !! k = Some m -> run_script (mg_Up m) (db_data db) = Ok (db_data db') ->
  db_applied db' = db_applied db ++ [row now m] -> at_version ms d0 (S k) db'.
Proof.
  intros (Hk & Hu & Hr) Hm Hs Ha. pose proof (lookup_lt_Some _ _ _ Hm). unfold at_version. rewrite (take_S_r ms k m) by done.
  rewrite run_ups_app, Hu, Ha, !fmap_app, Hr. simpl. by rewrite Hs.
Qed.

(** One migration less, when its down script undoes its up script. *)
Lemma at_version_down k db db' m :
  at_version ms d0 (S k) db -> ms !! k = Some m ->
  (forall d d', run_script (mg_Up m) d = Ok d' -> run_script (mg_Down m) d' = Ok d) ->
  run_script (mg_Down m) (db_data db) = Ok (db_data db') ->
  db_applied db' = without (mg_Version m) (db_applied db) -> at_version ms d0 k db'.
Proof.
  intros Hat Hm Hinv Hs Ha. pose proof (recorded_versions _ _ Hat) as Hv. destruct Hat as (Hk & Hu & Hr).
  rewrite (take_S_r ms k m) in Hu, Hr by done. rewrite run_ups_app in Hu.
  destruct (run_ups (take k ms) d0) as [d|] eqn:Hd; [|done]. simpl in Hu.
  destruct (run_script (mg_Up m) d) as [d'|] eqn:Hup; [|done]. injection Hu as ->. rewrite (Hinv _ _ Hup) in Hs. injection Hs as Hs.
  split; [lia|]. split; [by rewrite Hd, Hs|]. rewrite Ha. clear Ha. rewrite fmap_app in Hr.
  destruct (db_applied db) as [|a rows _] using rev_ind; [by destruct (take k ms)|]. rewrite fmap_app in Hr. simpl in Hr.
  apply app_inj_tail in Hr as [Hr Hlast]. rewrite seq_S, !fmap_app in Hv. simpl in Hv. apply app_inj_tail in Hv as [Hv Hva].
  unfold without. rewrite List.filter_app. simpl. rewrite (Hversions _ _ Hm), Hva, Z.eqb_refl. simpl. rewrite app_nil_r.
  rewrite <-Hr. f_equal. apply List.forallb_filter_id, List.forallb_forall. intros b Hb. apply negb_true_iff, Z.eqb_neq.
  assert (am_Version b ∈ (fun k => Z.of_nat k + 1) <$> seq 0 k) as (i & Hi & [_ Hlt]%elem_of_seq)%list_elem_of_fmap; [|lia].
  rewrite <-Hv. apply list_elem_of_fmap_2. by apply list_elem_of_In.
Qed.
(** *** The loops *)

Lemma run_up_loop now l ran db fs k ran' err db' fs' :
  at_version ms d0 k db -> l = drop k ms ->
  run_each (fun m => runUp (now m) m) l ran db fs = (ran', err, db', fs') ->
  exists j, ran' = (ran + j)%nat /\ at_version ms d0 (k + j) db' /\ (err = None -> (k + j)%nat = length ms).
Proof.
  revert ran db fs k. induction l as [|m l IH]; intros ran db fs k Hat Hl; simpl.
  - intros [= <- <- <- <-]. exists 0%nat. rewrite !Nat.add_0_r. split_and!; [done|done|]. intros _.
    destruct Hat as [Hk _]. apply (f_equal length) in Hl. rewrite length_drop in Hl. simpl in Hl. lia.
  - destruct (drop_cons_inv _ _ _ _ (eq_sym Hl)) as [Hm Hl'].
    destruct (runUp (now m) m db fs) as [[r db1] fs1] eqn:Hr. apply runUp_spec in Hr as [(e & -> & ->)|(-> & Hs & Ha)].
    + intros [= <- <- <- <-]. exists 0%nat. by rewrite !Nat.add_0_r.
    + pose proof (at_version_up _ _ _ _ _ Hat Hm Hs Ha) as Hat1. intros (j & -> & Hat' & Hn)%(IH _ _ _ (S k)); [|done|done].
      exists (S j). rewrite !Nat.add_succ_r. split_and!; done.
Qed.

Lemma run_up_nofault now l ran db k d :
  at_version ms d0 k db -> l = drop k ms -> run_ups ms d0 = Ok d ->
  exists db', run_each (fun m => runUp (now m) m) l ran db [] = ((ran + length l)%nat, None, db', []).
Proof.
  intros Hat Hl Hall. revert ran db k Hat Hl. induction l as [|m l IH]; intros ran db k Hat Hl; simpl.
  { exists db. by rewrite Nat.add_0_r. }
  destruct (drop_cons_inv _ _ _ _ (eq_sym Hl)) as [Hm Hl'].
  assert (exists d1, run_script (mg_Up m) (db_data db) = Ok d1) as [d1 Hd1].
  { destruct Hat as (_ & Hu & _). rewrite <-(take_drop k ms), run_ups_app, Hu, <-Hl in Hall. simpl in Hall.
    destruct (run_script _ _); [by eexists|done]. }
  rewrite (runUp_nofault _ _ _ _ Hd1) by (by eapply fresh_version).
  destruct (IH (S ran) (mkSchemaDB d1 (db_applied db ++ [row (now m) m])) (S k)) as [db' Hdb']; [|done|].
  { by eapply at_version_up. }
  exists db'. rewrite Hdb'. do 3 f_equal. lia.
Qed.

(** The migrations [target .. k-1], last first. *)
Lemma revert_order target k : (target < k)%nat -> (k <= length ms)%nat ->
  exists m, ms !! (k - 1)%nat = Some m /\ rev (drop target (take k ms)) = m :: rev (drop target (take (k - 1) ms)).
Proof.
  intros Ht Hk. destruct (lookup_lt_is_Some_2 ms (k - 1)) as [m Hm]; [lia|]. exists m. split; [done|].
  replace k with (S (k - 1)) at 1 by lia. rewrite (take_S_r ms (k - 1) m) by done.
  rewrite drop_app_le by (rewrite length_take; lia). by rewrite rev_app_distr.
Qed.

Hypothesis Hinv : forall m d d', m ∈ ms -> run_script (mg_Up m) d = Ok d' -> run_script (mg_Down m) d' = Ok d.

Lemma down_runs k db m :
  at_version ms d0 (S k) db -> ms !! k = Some m -> exists d, run_script (mg_Down m) (db_data db) = Ok d.
Proof.
  intros (_ & Hu & _) Hm. rewrite (take_S_r ms k m), run_ups_app in Hu by done.
  destruct (run_ups _ d0) as [d|]; [|done]. simpl in Hu. destruct (run_script (mg_Up m) d) as [d'|] eqn:Hup; [|done].
  injection Hu as ->. exists d. by apply (Hinv m d _ (list_elem_of_lookup_2 _ _ _ Hm)).
Qed.

Lemma run_down_loop target ran db fs k ran' err db' fs' :
  at_version ms d0 k db -> (target <= k)%nat ->
  run_each revert (rev (drop target (take k ms))) ran db fs = (ran', err, db', fs') ->
  exists j, ran' = (ran + j)%nat /\ (target + j <= k)%nat /\ at_version ms d0 (k - j) db' /\
    (err = None -> (target + j)%nat = k) /\ (fs = [] -> err = None).
Proof.
  remember (k - target)%nat as n eqn:Hn. revert ran db fs k Hn. induction n as [|n IH]; intros ran db fs k Hn Hat Ht.
  - replace k with target by lia. rewrite (drop_ge (take target ms)) by (rewrite length_take; lia). simpl.
    intros [= <- <- <- <-]. exists 0%nat. rewrite !Nat.add_0_r, Nat.sub_0_r. replace target with k by lia. split_and!; [done|lia|done..].
  - destruct (revert_order target k) as (m & Hm & ->); [lia|by destruct Hat|]. simpl.
    assert (at_version ms d0 (S (k - 1)) db) as Hat1 by (by replace (S (k - 1)) with k by lia).
    pose proof (fun d d' => Hinv m d d' (list_elem_of_lookup_2 _ _ _ Hm)) as Hm'.
    destruct (revert m db fs) as [[r db1] fs1] eqn:Hr. pose proof Hr as Hr0. apply revert_spec in Hr as [(e & -> & ->)|(-> & Hs & Ha)].
    + intros [= <- <- <- <-]. exists 0%nat. rewrite !Nat.add_0_r, Nat.sub_0_r. split_and!; [done|lia|done|done|].
      intros ->. destruct (down_runs _ _ _ Hat1 Hm) as [d Hd]. by rewrite (revert_nofault _ _ _ Hd) in Hr0.
    + pose proof (at_version_down _ _ _ _ Hat1 Hm Hm' Hs Ha) as Hat2.
      intros (j & -> & Hj & Hat' & He & Hf)%(IH _ _ _ (k - 1)%nat); [|lia|done|lia].
      exists (S j). replace (k - S j)%nat with (k - 1 - j)%nat by lia. split_and!; [lia|lia|done|intros; specialize (He ltac:(done)); lia|].
      intros ->. apply Hf. destruct (down_runs _ _ _ Hat1 Hm) as [d Hd]. rewrite (revert_nofault _ _ _ Hd) in Hr0. by simplify_eq.
Qed.
Lemma Applied_spec k db fs r db' fs' :
  at_version ms d0 k db -> Applied db fs = (r, db', fs') -> db' = db /\ (forall rows, r = Ok rows -> rows = db_applied db) /\
    (fs = [] -> r = Ok (db_applied db) /\ fs' = []).
Proof.
  intros Hat. unfold Applied, mseq, call. destruct (next_fault fs) as [[e|] fs1] eqn:H1.
  { intros [= <- <- <-]. split_and!; [done..|]. by intros ->. }
  destruct (next_fault fs1) as [[e|] fs2] eqn:H2; intros [= <- <- <-]; rewrite ?(read_recorded k db) by done.
  - split_and!; [done..|]. intros ->. by simplify_eq/=.
  - split_and!; [done|by intros rows [= <-]|]. intros ->. by simplify_eq/=.
Qed.

(** C35: whatever call fails, and at whatever point, [Up] leaves the database
    at a complete version: from version [k] it is then exactly at [k] plus the
    number of migrations it reports, schema and rows together, and at the last
    version when it reports no error. *)
Theorem up_leaves_complete_version now db fs k ran err db' fs' :
  at_version ms d0 k db -> Up (Ok ms) now db fs = (ran, err, db', fs') ->
  at_version ms d0 (k + ran) db' /\ (err = None -> (k + ran)%nat = length ms).
Proof using Hversions.
  intros Hat. unfold Up. destruct (Applied db fs) as [[r db1] fs1] eqn:Ha.
  destruct (Applied_spec _ _ _ _ _ _ Hat Ha) as (-> & Hrows & _).
  destruct r as [rows|e]; [|intros [= <- <- <- <-]; by rewrite Nat.add_0_r].
  rewrite (Hrows rows eq_refl), (verify_recorded _ _ Hat), (recorded_length _ _ Hat).
  by intros (j & -> & ? & ?)%(run_up_loop _ _ _ _ _ k).
Qed.

(** when nothing fails, [Up] runs every pending migration, the schema is
    then what all the scripts make of the empty one, and a second [Up] finds
    nothing to do. *)
Theorem up_completes now db k d :
  at_version ms d0 k db -> run_ups ms d0 = Ok d ->
  exists db', Up (Ok ms) now db [] = ((length ms - k)%nat, None, db', []) /\ db_data db' = d /\
    Up (Ok ms) now db' [] = (0%nat, None, db', []).
Proof using Hversions.
  assert (forall db k, at_version ms d0 k db -> Up (Ok ms) now db [] = run_each (fun m => runUp (now m) m) (drop k ms) 0 db []) as Hup.
  { intros db1 k1 Hat. unfold Up. destruct (Applied db1 []) as [[r db2] fs2] eqn:Ha.
    destruct (Applied_spec _ _ _ _ _ _ Hat Ha) as (-> & _ & [-> ->]%(fun f => f eq_refl)).
    by rewrite (verify_recorded _ _ Hat), (recorded_length _ _ Hat). }
  intros Hat Hall. destruct (run_up_nofault now (drop k ms) 0 db k d) as [db' Hrun]; [done..|]. exists db'.
  destruct (run_up_loop _ _ _ _ _ k _ _ _ _ Hat eq_refl Hrun) as (j & Hj & Hat' & Hn). specialize (Hn eq_refl).
  rewrite (Hup _ _ Hat), Hrun. rewrite Hn in Hat'. split_and!.
  - by rewrite length_drop.
  - destruct Hat' as (_ & Hu & _). rewrite take_ge in Hu by done. by rewrite Hall in Hu; injection Hu.
  - by rewrite (Hup _ _ Hat'), drop_ge by done.
Qed.

(** rolling back is exact. When every down script undoes its up script,
    [Down] from version [k] to [target] leaves the database at [k] minus what
    it reports, whatever fails; when nothing fails it reports [k - target] and
    the schema is again what the first [target] scripts made. *)
Theorem down_undoes_up target db fs k ran err db' fs' :
  at_version ms d0 k db -> (target <= k)%nat -> Down (Ok ms) (Z.of_nat target) db fs = (ran, err, db', fs') ->
  (target + ran <= k)%nat /\ at_version ms d0 (k - ran) db' /\ (err = None -> ran = (k - target)%nat) /\ (fs = [] -> err = None).
Proof using Hversions Hinv.
  intros Hat Ht. unfold Down. destruct (Applied db fs) as [[r db1] fs1] eqn:Ha.
  destruct (Applied_spec _ _ _ _ _ _ Hat Ha) as (-> & Hrows & Hnf).
  destruct r as [rows|e]; [|intros [= <- <- <- <-]; rewrite Nat.sub_0_r; split_and!; [lia|done|done|by intros [? _]%Hnf]].
  rewrite (Hrows rows eq_refl), (verify_recorded _ _ Hat), (recorded_length _ _ Hat).
  rewrite (proj2 (Z.ltb_ge _ _)), (proj2 (Z.ltb_ge _ _)) by lia. cbn [orb]. rewrite Nat2Z.id.
  intros (j & -> & Hj & Hat' & He & Hf)%(run_down_loop _ _ _ _ k); [|done|done].
  split_and!; [done|done|intros E; specialize (He E); lia|]. intros E. apply Hf. by apply Hnf in E as [_ E].
Qed.
End Rows.

Lemma verify_rows_matching ms rows :
  (length rows <= length ms)%nat -> verify_rows ms rows = None -> (row_of <$> rows) = row_for <$> take (length rows) ms.
Proof.
  revert ms. induction rows as [|a rows IH]; intros [|m ms] Hl; simpl in *; try done; [lia|].
  destruct (am_Version a =? mg_Version m) eqn:Hv; [|done]. simpl. case_bool_decide as Hn; [|done]. simpl.
  case_bool_decide as Hc; [|done]. simpl. intros Hr. bools. unfold row_of at 1, row_for at 1. rewrite Hv, Hn, Hc. f_equal. apply IH; [lia|done].
Qed.

(** a database this binary did not write is refused and left alone. When
    the recorded rows are not the first rows of this binary's migrations
    (one more, one edited, one renamed), neither [Up] nor [Down] runs a
    statement of a script: the database is what it was and an error says so. *)
Theorem foreign_schema_untouched ms now target db fs :
  (forall k, (row_of <$> merge_sort by_version (db_applied db)) <> row_for <$> take k ms) ->
  (exists e fs', Up (Ok ms) now db fs = (0%nat, Some e, db, fs')) /\
  (exists e fs', Down (Ok ms) target db fs = (0%nat, Some e, db, fs')).
Proof.
  intros Hno. set (rows := merge_sort by_version (db_applied db)) in *.
  assert (exists e, verifyApplied ms rows = Some e) as [e He].
  { unfold verifyApplied. case_bool_decide as Hl; [by eexists|]. destruct (verify_rows ms rows) eqn:Hv; [by eexists|].
    apply verify_rows_matching in Hv; [|lia]. by destruct (Hno (length rows)). }
  assert (exists r fs', Applied db fs = (r, db, fs') /\ (r = Ok rows \/ exists e, r = Err e)) as (r & fs' & Ha & Hr).
  { unfold Applied, mseq, call. destruct (next_fault fs) as [[x|] fs1]; [by eauto 6|].
    destruct (next_fault fs1) as [[x|] fs2]; by eauto 6. }
  unfold Up, Down. rewrite Ha. destruct Hr as [->|[e' ->]]; [rewrite He|]; split; by eauto.
Qed.
End Running.

(** ** Scripts *)

Definition unlines (ls : list string) : string := String.concat "" (List.map (fun l => l +:+ String LF "") ls).

(** The lines of one statement: none of them skipped, and only the last ends
    it, which is a semicolon at the end of a line outside a literal. *)
Fixpoint statement_lines (inSingle : bool) (ls : list string) : bool :=
  match ls with
  | [] => false
  | l :: rest =>
      let q := track_quotes inSingle l in
      let ends := negb q && HasSuffix (TrimSpace l) ";" in
      negb (skipped inSingle (TrimSpace l)) &&
      match rest with [] => ends | _ => negb ends && statement_lines q rest end
  end.

Definition statement_text (ls : list string) : string := TrimSpace (unlines ls).

Definition wf_block (b : list string * list string) : bool :=
  forallb (fun l => skipped false (TrimSpace l)) (fst b) && statement_lines false (snd b)
  && negb (bool_decide (statement_text (snd b) = "")).

Lemma concat_empty_cons x xs : String.concat "" (x :: xs) = x +:+ String.concat "" xs.
Proof. destruct xs; [by rewrite string_app_nil|done]. Qed.

Lemma split_statement ls out cur inSingle :
  statement_lines inSingle ls = true ->
  foldl split_line (mkSplitter out cur inSingle) ls = mkSplitter (flush out (cur +:+ unlines ls)) "" false.
Proof.
  revert cur inSingle. induction ls as [|l ls IH]; intros cur inSingle; [done|]. cbn [statement_lines foldl].
  intros [Hs%negb_true_iff H]%andb_true_iff. unfold split_line at 2. cbn [sp_inSingle sp_out sp_current]. rewrite Hs.
  unfold unlines. cbn [List.map]. rewrite concat_empty_cons. destruct ls as [|l2 ls].
  - rewrite H. apply andb_true_iff in H as [Hq _]. apply negb_true_iff in Hq. by rewrite Hq; simpl; rewrite string_app_nil.
  - apply andb_true_iff in H as [H1%negb_true_iff H2]. rewrite H1. rewrite IH by done. by rewrite !string_app_assoc.
Qed.

Lemma split_skipped ls out : forallb (fun l => skipped false (TrimSpace l)) ls = true ->
  foldl split_line (mkSplitter out "" false) ls = mkSplitter out "" false.
Proof.
  induction ls as [|l ls IH]; [done|]. cbn [forallb foldl]. intros [Hs H]%andb_true_iff. unfold split_line at 2.
  cbn [sp_inSingle]. rewrite Hs. auto.
Qed.

Lemma split_blocks blocks out :
  forallb wf_block blocks = true ->
  foldl split_line (mkSplitter out "" false) (concat (List.map (fun b => fst b ++ snd b) blocks)) =
    mkSplitter (out ++ List.map (statement_text ∘ snd) blocks) "" false.
Proof.
  revert out. induction blocks as [|[cs ls] blocks IH]; intros out; [by rewrite app_nil_r|]. cbn [forallb List.map concat fst snd].
  intros [Hb H]%andb_true_iff. unfold wf_block in Hb. cbn [fst snd] in Hb. bools.
  rewrite !foldl_app, split_skipped, split_statement, IH by done. f_equal. unfold flush.
  change ("" +:+ unlines ls) with (unlines ls). fold (statement_text ls). rewrite bool_decide_eq_false_2 by done.
  by rewrite <-app_assoc.
Qed.

Lemma split_lines_Join ls : Forall (fun l => contains_byte l LF = false) ls -> ls <> [] -> split_byte LF (Join ls (String LF "")) = ls.
Proof.
  induction 1 as [|l ls Hl Hls IH]; [done|]. intros _. destruct ls as [|l2 ls]; [by apply split_byte_no_sep|].
  change (Join (l :: l2 :: ls) (String LF "")) with (l +:+ String LF (Join (l2 :: ls) (String LF ""))).
  by rewrite split_byte_app, IH.
Qed.

(** a migration file is read back as the statements it was written from.
    A script of statements, each ended by a semicolon at the end of a line
    outside a literal, with any blank lines and comment lines before, between
    and after them, is split into exactly those statements, in order. *)
Theorem script_splits_into_statements blocks trailing :
  forallb wf_block blocks = true -> forallb (fun l => skipped false (TrimSpace l)) trailing = true ->
  let lines := concat (List.map (fun b => fst b ++ snd b) blocks) ++ trailing in
  Forall (fun l => contains_byte l LF = false) lines ->
  splitStatements (Join lines (String LF "")) = List.map (statement_text ∘ snd) blocks.
Proof.
  intros Hb Ht lines Hl. unfold splitStatements. destruct (decide (lines = [])) as [He|He].
  - unfold lines in *. apply app_eq_nil in He as [He1 ->]. rewrite He1. destruct blocks as [|[cs ls] blocks]; [done|].
    simpl in He1. apply app_eq_nil in He1 as [He1 _]. apply app_eq_nil in He1 as [_ ->].
    simpl in Hb. unfold wf_block in Hb. simpl in Hb. by rewrite andb_false_r in Hb.
  - rewrite split_lines_Join by done. unfold lines. rewrite foldl_app, split_blocks, split_skipped by done. done.
Qed.

Definition sample_blocks : list (list string * list string) :=
  [(["-- accounts"; ""], ["CREATE TABLE a ("; "  id TEXT -- it is the key"; ");"]);
   ([], ["INSERT INTO a VALUES ('x;"; "-- not a comment"; "');"])].

Lemma script_splits_into_statements_witness :
  length (splitStatements (Join (concat (List.map (fun b => fst b ++ snd b) sample_blocks) ++ [""]) (String LF ""))) = 2%nat.
Proof.
  rewrite (script_splits_into_statements sample_blocks [""]); [reflexivity|vm_compute; reflexivity..|].
  repeat constructor.
Defined.

(** ** Witnesses *)

(** An engine that only keeps the names of the tables. *)
#[local] Instance sample_engine : Engine (list string) := fun stmt d =>
  match CutPrefix stmt "CREATE " with
  | Some t => Ok (t :: d)
  | None => match d with _ :: d => Ok d | [] => Err "no such table" end
  end.

Definition sample_ms : list Migration :=
  [mkMigration 1 "initial" "CREATE a;" "DROP;" "1"; mkMigration 2 "more" "CREATE b;" "DROP;" "2"].

Definition sample_schema : SchemaDB (list string) := mkSchemaDB [] [].

Lemma sample_versions : versions_from 0 sample_ms.
Proof. by apply contiguous_spec. Qed.

Lemma up_leaves_complete_version_witness :
  exists ran err db' fs', Up (Ok sample_ms) (fun _ => 7) sample_schema [None; None; None; None; None; None; Some "gone"] = (ran, err, db', fs')
    /\ ran = 1%nat /\ err <> None /\ at_version sample_ms [] 1 db'.
Proof.
  do 4 eexists. split; [vm_compute; reflexivity|]. split; [reflexivity|]. split; [discriminate|].
  eapply (up_leaves_complete_version sample_ms [] sample_versions (fun _ => 7) sample_schema
            [None; None; None; None; None; None; Some "gone"] 0).
  - split; [simpl; lia|]. split; reflexivity.
  - vm_compute. reflexivity.
Defined.

Lemma up_completes_witness :
  exists db', Up (Ok sample_ms) (fun _ => 7) sample_schema [] = (2%nat, None, db', []) /\ db_data db' = ["b;"; "a;"] /\
    Up (Ok sample_ms) (fun _ => 7) db' [] = (0%nat, None, db', []).
Proof.
  apply (up_completes sample_ms [] sample_versions (fun _ => 7) sample_schema 0).
  - split; [simpl; lia|]. split; reflexivity.
  - vm_compute. reflexivity.
Defined.

Definition sample_current : SchemaDB (list string) := mkSchemaDB ["b;"; "a;"] [mkApplied 1 "initial" "1" 5; mkApplied 2 "more" "2" 6].

Lemma down_undoes_up_witness :
  exists db', Down (Ok sample_ms) 0 sample_current [] = (2%nat, None, db', []) /\ at_version sample_ms [] 0 db'.
Proof.
  destruct (Down (Ok sample_ms) 0 sample_current []) as [[[ran err] db'] fs'] eqn:Hd. exists db'.
  destruct (fun Hinv => down_undoes_up sample_ms [] sample_versions Hinv 0 sample_current [] 2 ran err db' fs') as (_ & Hat & _).
  - intros m d d' Hm Hu. unfold sample_ms in Hm. rewrite !elem_of_cons, elem_of_nil in Hm.
    destruct Hm as [->|[->|[]]]; vm_compute in Hu; injection Hu as <-; reflexivity.
  - split; [simpl; lia|]. split; reflexivity.
  - lia.
  - exact Hd.
  - vm_compute in Hd. injection Hd as <- <- <- <-. split; [reflexivity|exact Hat].
Defined.

Lemma foreign_schema_untouched_witness :
  exists e fs', Up (Ok (take 1 sample_ms)) (fun _ => 7) sample_current [] = (0%nat, Some e, sample_current, fs').
Proof.
  apply (foreign_schema_untouched (take 1 sample_ms) (fun _ => 7) 0 sample_current []).
  intros k Hk. apply (f_equal length) in Hk. rewrite !length_fmap, length_take in Hk. vm_compute in Hk. destruct k as [|[|k]]; discriminate.
Defined.
