(* ===== verification/AuditLog.v ===== *)
(** * The audit log

    [internal/store/audit.go] and the writer in [internal/adminapi/audit.go]:
    what is recorded of a change, with the secrets taken out, and how the log is
    read. The details of an entry are a Go value of type [any]; of
    [encoding/json] the file holds the encoding of such values. Strings are
    taken to be valid UTF-8. *)

From stdpp Require Import base gmap strings list sorting.
From Stdlib Require Import ZArith Lia Ascii.
From S2P Require Import Prelude GoStrings GoStringsFacts StoreModels MessageStore Directory AdminStore.

Open Scope Z_scope.

(** ** Values and their encoding *)

(** [nil], a string, a [map\[string\]any], a [\[\]any], any other value with its
    encoding, or one that cannot be encoded. *)
Inductive Json :=
| JNull
| JString (s : string)
| JOther (encoded : string)
| JUnsupported
| JArray (l : list Json)
| JObject (m : list (string * Json)).

Definition JQUOTE : ascii := chr 34.
Definition JBACKSLASH : ascii := chr 92.

Definition hex_lower (n : Z) : ascii := if n <? 10 then chr (48 + n) else chr (87 + n).

Definition unicode_escape (hi : string) (n : Z) : string :=
  String JBACKSLASH ("u" +:+ hi +:+ String (hex_lower (n / 16)) (String (hex_lower (n mod 16)) "")).

Definition escape_byte (c : ascii) : string :=
  let n := code c in
  if bool_decide (c = JQUOTE) || bool_decide (c = JBACKSLASH) then String JBACKSLASH (String c "")
  else if n =? 8 then String JBACKSLASH "b"
  else if n =? 12 then String JBACKSLASH "f"
  else if n =? 10 then String JBACKSLASH "n"
  else if n =? 13 then String JBACKSLASH "r"
  else if n =? 9 then String JBACKSLASH "t"
  else if (n <? 32) || contains_byte "<>&" c then unicode_escape "00" n
  else String c "".

(** U+2028 and U+2029 are escaped as well. *)
Definition line_separator (a b c : ascii) : bool :=
  (code a =? 226) && (code b =? 128) && ((code c =? 168) || (code c =? 169)).

Fixpoint escape_json (s : string) : string :=
  match s with
  | EmptyString => ""
  | String a s' =>
      match s' with
      | String b (String c s'') =>
          if line_separator a b c then unicode_escape "20" (code c - 128) +:+ escape_json s''
          else escape_byte a +:+ escape_json s'
      | _ => escape_byte a +:+ escape_json s'
      end
  end.

Definition json_string (s : string) : string := String JQUOTE (escape_json s +:+ String JQUOTE "").

Definition key_order (a b : string * string) : Prop := string_le (fst a) (fst b).
#[global] Instance key_order_dec a b : Decision (key_order a b).
Proof. unfold key_order. apply _. Defined.

Definition json_list (parts : list string) : string := "[" +:+ Join parts "," +:+ "]".

Definition json_object (fields : list (string * string)) : string :=
  "{" +:+ Join (List.map (fun kv => json_string (fst kv) +:+ ":" +:+ snd kv) (merge_sort key_order fields)) "," +:+ "}".

(** [json.Marshal]: the keys of a map are sorted. *)
Fixpoint Marshal (v : Json) : option string :=
  match v with
  | JNull => Some "null"
  | JString s => Some (json_string s)
  | JOther e => Some e
  | JUnsupported => None
  | JArray l => json_list <$> mapM Marshal l
  | JObject m => json_object <$> mapM (fun kv => pair (fst kv) <$> Marshal (snd kv)) m
  end.

(** ** Secrets *)

Definition secretFields : list string :=
  ["password"; "passwordhash"; "password_hash"; "secret"; "clientsecret"; "client_secret"; "client_secret_enc";
   "certificatekey"; "certificate_key"; "certificate_key_enc"; "totp"; "totpsecret"; "totp_secret"; "totp_secret_enc";
   "token"; "accesstoken"; "access_token"; "refreshtoken"; "refresh_token"; "apikey"; "api_key"].

Definition compoundFields : list string := ["password"; "secret"; "token"; "apikey"; "api_key"].

Section Masking.
Context `{UC : UnicodeCase}.

Definition isSecretField (name : string) : bool :=
  let lowered := ToLower (string_map (fun c => if bool_decide (c = "-"%char) then "_"%char else c) name) in
  existsb (fun f => bool_decide (lowered = f) || HasSuffix lowered ("_" +:+ f)) secretFields
  || existsb (Contains lowered) compoundFields.

Definition redactedValue (v : Json) : string :=
  match v with
  | JNull => "(unset)"
  | JString s => if bool_decide (s = "") then "(unset)" else "(redacted)"
  | _ => "(redacted)"
  end.

(** The switch on a value, with [maskMap] and [maskSlice] in it. *)
Fixpoint mask_value (v : Json) : Json :=
  match v with
  | JObject m =>
      JObject (List.map (fun kv => (fst kv, if isSecretField (fst kv) then JString (redactedValue (snd kv)) else mask_value (snd kv))) m)
  | JArray l => JArray (List.map mask_value l)
  | _ => v
  end.

Definition maskMap (m : list (string * Json)) : list (string * Json) :=
  List.map (fun kv => (fst kv, if isSecretField (fst kv) then JString (redactedValue (snd kv)) else mask_value (snd kv))) m.

Definition maskSlice (l : list Json) : list Json := List.map mask_value l.

Definition not_encoded : string :=
  "{" +:+ json_string "error" +:+ ":" +:+ json_string "details could not be encoded" +:+ "}".

Definition MaskSecrets (details : list (string * Json)) : string :=
  default not_encoded (Marshal (JObject (maskMap details))).
End Masking.

(** ** The log *)

Record AuditEntry := mkAuditEntry {
  ae_ID : string;
  ae_At : Z;
  ae_ActorType : string;
  ae_ActorID : string;
  ae_ActorName : string;
  ae_Action : string;
  ae_TargetType : string;
  ae_TargetID : string;
  ae_TargetName : string;
  ae_Details : string;
  ae_Result : string;
  ae_IP : string;
  ae_UserAgent : string
}.

Definition ActorUser : string := "user".
Definition ActorSystem : string := "system".
Definition ActorBootstrap : string := "bootstrap".
Definition ResultSuccess : string := "success".
Definition ResultFailure : string := "failure".

(** The table [audit_logs], by [id]. *)
Abbreviation AuditLog := (gmap string AuditEntry).

Definition entry_defaults (now : Z) (newID : string) (e : AuditEntry) : AuditEntry :=
  mkAuditEntry (if bool_decide (ae_ID e = "") then newID else ae_ID e) (if IsZero (ae_At e) then now else ae_At e)
    (ae_ActorType e) (ae_ActorID e) (ae_ActorName e) (ae_Action e) (ae_TargetType e) (ae_TargetID e) (ae_TargetName e)
    (if bool_decide (ae_Details e = "") then "{}" else ae_Details e)
    (if bool_decide (ae_Result e = "") then ResultSuccess else ae_Result e) (ae_IP e) (ae_UserAgent e).

(** The CHECK clauses of the table. *)
Definition known_actor (s : string) : bool := bool_decide (s ∈ [ActorUser; ActorSystem; ActorBootstrap]).
Definition known_result (s : string) : bool := bool_decide (s ∈ [ResultSuccess; ResultFailure]).

Definition insert_entry (e : AuditEntry) (log : AuditLog) : result StoreError unit * AuditLog :=
  if negb (known_actor (ae_ActorType e) && known_result (ae_Result e))
  then (Err (ErrDriver "store: appending an audit entry: CHECK constraint failed"), log)
  else if bool_decide (is_Some (log !! ae_ID e)) then (Err (ErrDriver "store: appending an audit entry: UNIQUE constraint failed"), log)
  else (Ok tt, <[ae_ID e := e]> log).

Definition Audit_Append (io : option string) (now : Z) (newID : string) (e : AuditEntry) (log : AuditLog)
  : result StoreError unit * AuditLog :=
  exec io (insert_entry (entry_defaults now newID e)) log.

Record AuditFilter := mkAuditFilter {
  af_ActorID : string; af_Action : string; af_TargetType : string; af_TargetID : string;
  af_Since : Z; af_Until : Z; af_Limit : Z; af_Offset : Z
}.

(** [build]: the WHERE clause as the test it makes of a row. *)
Definition build (f : AuditFilter) (e : AuditEntry) : bool :=
  (bool_decide (af_ActorID f = "") || bool_decide (ae_ActorID e = af_ActorID f))
  && (bool_decide (af_Action f = "") || bool_decide (ae_Action e = af_Action f))
  && (bool_decide (af_TargetType f = "") || bool_decide (ae_TargetType e = af_TargetType f))
  && (bool_decide (af_TargetID f = "") || bool_decide (ae_TargetID e = af_TargetID f))
  && (IsZero (af_Since f) || (af_Since f <=? ae_At e))
  && (IsZero (af_Until f) || (ae_At e <=? af_Until f)).

Section Reading.
Context `{C : Collation}.

(** [ORDER BY at DESC, id DESC] *)
Definition newest_first (a b : AuditEntry) : Prop := ae_At b < ae_At a \/ (ae_At a = ae_At b /\ collate (ae_ID b) (ae_ID a)).

#[global] Instance newest_first_dec a b : Decision (newest_first a b).
Proof. unfold newest_first. apply _. Defined.

Definition matching (f : AuditFilter) (log : AuditLog) : list AuditEntry :=
  merge_sort newest_first ((map_to_list (rows_where (build f) log)).*2).

Definition page_limit (f : AuditFilter) : Z := if (af_Limit f <=? 0) || (af_Limit f >? 500) then 100 else af_Limit f.

(** A negative offset is none, as in SQLite; PostgreSQL refuses it. *)
Definition Audit_List (io : option string) (f : AuditFilter) (log : AuditLog) : result StoreError (list AuditEntry) :=
  match io with
  | Some e => Err (ErrDriver e)
  | None => Ok (take (Z.to_nat (page_limit f)) (drop (Z.to_nat (af_Offset f)) (matching f log)))
  end.

Definition Audit_Count (io : option string) (f : AuditFilter) (log : AuditLog) : result StoreError Z :=
  match io with
  | Some e => Err (ErrDriver e)
  | None => Ok (rows_affected (build f) log)
  end.
End Reading.

(** ** The writer of the management API *)

(** [auditEntry]: what a handler describes. *)
Record auditEntry := mkNote {
  nt_Actor : option AdminUser;
  nt_Action : string;
  nt_TargetType : string;
  nt_TargetID : string;
  nt_TargetName : string;
  nt_Details : list (string * Json);
  nt_Result : string
}.

Definition truncate (s : string) (limit : Z) : string := if len s <=? limit then s else take_bytes (Z.to_nat limit) s.

Definition describe `{UnicodeCase} (clientIP userAgent : string) (e : auditEntry) : AuditEntry :=
  mkAuditEntry "" time_zero
    (match nt_Actor e with Some _ => ActorUser | None => ActorSystem end)
    (from_option u_ID "" (nt_Actor e)) (from_option u_Username "" (nt_Actor e))
    (nt_Action e) (nt_TargetType e) (nt_TargetID e) (nt_TargetName e)
    (match nt_Details e with [] => "" | d => MaskSecrets d end)
    (nt_Result e) clientIP (truncate userAgent 512).

(** [audit]: a failure to write is logged and otherwise ignored. *)
Definition audit `{UnicodeCase} (io : option string) (now : Z) (newID clientIP userAgent : string) (e : auditEntry) (log : AuditLog) : AuditLog :=
  (Audit_Append io now newID (describe clientIP userAgent e) log).2.

(** ** Secrets *)

Section Masking.
Context `{UC : UnicodeCase}.

(** Details that differ at most in the values of secret fields, and not in
    whether those are set. *)
Inductive same_public : Json -> Json -> Prop :=
| same_null : same_public JNull JNull
| same_string s : same_public (JString s) (JString s)
| same_other e : same_public (JOther e) (JOther e)
| same_unsupported : same_public JUnsupported JUnsupported
| same_array l1 l2 : same_list l1 l2 -> same_public (JArray l1) (JArray l2)
| same_object m1 m2 : same_fields m1 m2 -> same_public (JObject m1) (JObject m2)
with same_list : list Json -> list Json -> Prop :=
| same_list_nil : same_list [] []
| same_list_cons v w l1 l2 : same_public v w -> same_list l1 l2 -> same_list (v :: l1) (w :: l2)
with same_fields : list (string * Json) -> list (string * Json) -> Prop :=
| same_fields_nil : same_fields [] []
| same_fields_secret k v w m1 m2 :
    isSecretField k = true -> redactedValue v = redactedValue w -> same_fields m1 m2 ->
    same_fields ((k, v) :: m1) ((k, w) :: m2)
| same_fields_public k v w m1 m2 : isSecretField k = false -> same_public v w -> same_fields m1 m2 -> same_fields ((k, v) :: m1) ((k, w) :: m2).

Scheme same_public_mut := Induction for same_public Sort Prop
  with same_list_mut := Induction for same_list Sort Prop
  with same_fields_mut := Induction for same_fields Sort Prop.

Lemma mask_same_fields m1 m2 : same_fields m1 m2 -> maskMap m1 = maskMap m2.
Proof.
  apply (same_fields_mut (fun v w _ => mask_value v = mask_value w) (fun l1 l2 _ => List.map mask_value l1 = List.map mask_value l2)
           (fun m1 m2 _ => maskMap m1 = maskMap m2)); try done; simpl.
  - intros ??? ->. done.
  - intros m1' m2' _ H. unfold maskMap in H. by rewrite H.
  - intros ????? -> _ ->. done.
  - intros k v w m1' m2' Hs Hr _ IH. unfold maskMap in *. simpl. by rewrite Hs, Hr, IH.
  - intros k v w m1' m2' Hs _ Hv _ IH. unfold maskMap in *. simpl. by rewrite Hs, Hv, IH.
Qed.

(** nothing of a secret reaches the audit log. Two sets of details that
    differ only in the values of fields named like secrets, at any depth, are
    written as the same text, byte for byte; at most whether a secret was set
    can be told from it. *)
Theorem masked_details_hide_secrets d1 d2 : same_fields d1 d2 -> MaskSecrets d1 = MaskSecrets d2.
Proof. intros H. unfold MaskSecrets. by rewrite (mask_same_fields d1 d2). Qed.

(** *** What masking keeps *)

Fixpoint no_secrets (v : Json) : bool :=
  match v with
  | JObject m => forallb (fun kv => negb (isSecretField (fst kv)) && no_secrets (snd kv)) m
  | JArray l => forallb no_secrets l
  | _ => true
  end.

Fixpoint mask_public (v : Json) : no_secrets v = true -> mask_value v = v.
Proof.
  destruct v as [| | | |l|m]; try done; simpl.
  - intros H. f_equal. induction l as [|x l IH]; [done|]. simpl in *. apply andb_true_iff in H as [H1 H2].
    rewrite mask_public by done. by rewrite IH.
  - intros H. f_equal. induction m as [|[k x] m IH]; [done|]. simpl in *. apply andb_true_iff in H as [H1 H2].
    apply andb_true_iff in H1 as [H1 H3]. apply negb_true_iff in H1. rewrite H1, mask_public by done. by rewrite IH.
Qed.

(** Field names are recognised whatever their case and whatever is around
    the word. *)
Lemma secret_names :
  Forall (fun name => isSecretField name = true)
    ["password"; "newPassword"; "client-secret"; "OldClientSecret"; "X-API-KEY"; "refresh_token"; "certificateKey"; "totp"].
Proof. repeat constructor. Qed.
End Masking.

(** ** Appending *)

Definition holds_on_to (log log' : AuditLog) : Prop := log ⊆ log'.

Lemma append_spec io now newID e log r log' :
  Audit_Append io now newID e log = (r, log') ->
  log ⊆ log' /\ (r = Ok tt -> log' !! ae_ID (entry_defaults now newID e) = Some (entry_defaults now newID e)) /\
  (r <> Ok tt -> log' = log) /\
  (io = None -> log !! ae_ID (entry_defaults now newID e) = None -> known_actor (ae_ActorType e) = true ->
   ae_Result e ∈ [""; ResultSuccess; ResultFailure] -> r = Ok tt).
Proof.
  unfold Audit_Append, exec. destruct io as [x|]; [by intros [= <- <-]|]. unfold insert_entry.
  destruct (known_actor _ && known_result _) eqn:Hk; simpl.
  - case_bool_decide as Hin.
    + intros [= <- <-]. split_and!; try done. intros _ Hn. simpl in Hn. rewrite Hn in Hin. by destruct Hin.
    + intros [= <- <-]. split_and!; try done.
      * apply insert_subseteq. by apply eq_None_not_Some.
      * intros _. by rewrite lookup_insert_eq.
  - intros [= <- <-]. split_and!; try done. intros _ _ Ha Hr. simpl in Hk. rewrite Ha in Hk. simpl in Hk. unfold known_result in Hk.
    rewrite !elem_of_cons, elem_of_nil in Hr. destruct Hr as [Hr|[Hr|[Hr|[]]]]; rewrite Hr in Hk; by vm_compute in Hk.
Qed.

(** A run of appends, each with its own clock, identifier and failure. *)
Fixpoint append_all (l : list (option string * Z * string * AuditEntry)) (log : AuditLog) : AuditLog :=
  match l with
  | [] => log
  | (io, now, newID, e) :: l => append_all l (Audit_Append io now newID e log).2
  end.

(** the audit log only grows. Whatever is appended after it, with
    whatever failures and colliding identifiers, an entry that is in the log
    stays in it unchanged; and an append that reports success is there, with
    the time, the result and the details it defaults to. *)
Theorem audit_log_only_grows before after log io now newID e :
  let log1 := append_all before log in
  let run := Audit_Append io now newID e log1 in
  let log2 := append_all after run.2 in
  log ⊆ log2 /\ (run.1 = Ok tt -> log2 !! ae_ID (entry_defaults now newID e) = Some (entry_defaults now newID e)).
Proof.
  assert (forall l log, log ⊆ append_all l log) as Hgrow.
  { induction l as [|[[[io' now'] id'] e'] l IH]; intros log'; simpl; [done|].
    destruct (Audit_Append io' now' id' e' log') as [r log1] eqn:Ha. apply append_spec in Ha as [Ha _]. etrans; [exact Ha|apply IH]. }
  cbv zeta. destruct (Audit_Append io now newID e (append_all before log)) as [r log'] eqn:Ha. simpl.
  apply append_spec in Ha as (H1 & H2 & _). split.
  - etrans; [apply (Hgrow before)|]. etrans; [exact H1|apply Hgrow].
  - intros Hr. eapply lookup_weaken; [by apply H2|apply Hgrow].
Qed.

(** ** Reading *)

Section Reading.
Context `{C : Collation}.

Definition with_page (limit offset : Z) (f : AuditFilter) : AuditFilter :=
  mkAuditFilter (af_ActorID f) (af_Action f) (af_TargetType f) (af_TargetID f) (af_Since f) (af_Until f) limit offset.

(** The pages of [limit] entries, one after the other. *)
Definition pages (n : nat) (limit : Z) (f : AuditFilter) (log : AuditLog) : list (result StoreError (list AuditEntry)) :=
  (fun k => Audit_List None (with_page limit (Z.of_nat k * limit) f) log) <$> seq 0 n.

Lemma take_pages {A} (l : list A) L n :
  concat ((fun k => take L (drop (k * L) l)) <$> seq 0 n) = take (n * L) l.
Proof.
  induction n as [|n IH]; [done|]. rewrite seq_S, fmap_app, concat_app, IH. simpl. rewrite app_nil_r.
  rewrite (Nat.add_comm L). symmetry. rewrite <-(take_drop (n * L) (take (n * L + L) l)).
  rewrite take_take, Nat.min_l by lia. f_equal.
  rewrite skipn_firstn_comm. f_equal. lia.
Qed.

Lemma matching_page f limit offset log : matching (with_page limit offset f) log = matching f log.
Proof. done. Qed.

(** reading the log page by page shows every matching entry exactly
    once, newest first, and [Count] is how many there are: the pages up to the
    one that reaches the count are together the whole ordered list. *)
Theorem audit_pages_cover_log f limit n log :
  0 < limit <= 500 -> Z.of_nat n * limit >= rows_affected (build f) log ->
  exists entries, pages n limit f log = Ok <$> entries /\ concat entries = matching f log /\
    matching f log ≡ₚ (map_to_list (rows_where (build f) log)).*2 /\
    Audit_Count None f log = Ok (Z.of_nat (length (concat entries))).
Proof.
  intros Hl Hn. exists ((fun k => take (Z.to_nat limit) (drop (k * Z.to_nat limit) (matching f log))) <$> seq 0 n).
  assert (length (matching f log) = Z.to_nat (rows_affected (build f) log)) as Hlen.
  { unfold matching, rows_affected. rewrite (Permutation_length (merge_sort_Permutation _ _)), length_fmap. rewrite Nat2Z.id. apply length_map_to_list. }
  rewrite take_pages. assert (take (n * Z.to_nat limit) (matching f log) = matching f log) as ->.
  { apply take_ge. rewrite Hlen. rewrite <-(Nat2Z.id n), <-Z2Nat.inj_mul by lia. lia. }
  split_and!.
  - unfold pages. rewrite <-list_fmap_compose. apply list_fmap_ext. intros _ k _. unfold Audit_List, page_limit. simpl.
    rewrite matching_page. rewrite (proj2 (Z.leb_gt limit 0)) by lia. rewrite Z.gtb_ltb, (proj2 (Z.ltb_ge 500 limit)) by lia. simpl.
    do 2 f_equal. f_equal. lia.
  - done.
  - apply merge_sort_Permutation.
  - unfold Audit_Count. rewrite Hlen. f_equal. unfold rows_affected. lia.
Qed.
End Reading.

(** ** Witnesses *)

#[local] Instance ascii_case : UnicodeCase := {| unicode_to_lower := id; unicode_to_upper := id; unicode_equal_fold := fun a b => bool_decide (a = b) |}.
#[local] Instance byte_collation : Collation := {| collate := string_le; collate_dec := string_le_dec |}.

Lemma masked_details_hide_secrets_witness :
  MaskSecrets [("name", JString "relay"); ("credential", JObject [("clientSecret", JString "s3cr3t")])]
  = MaskSecrets [("name", JString "relay"); ("credential", JObject [("clientSecret", JString "another")])].
Proof.
  apply masked_details_hide_secrets. apply same_fields_public; [vm_compute; reflexivity|constructor|].
  apply same_fields_public; [vm_compute; reflexivity| |constructor].
  constructor. apply same_fields_secret; [vm_compute; reflexivity|vm_compute; reflexivity|constructor].
Defined.

Definition sample_filter : AuditFilter := mkAuditFilter "" "user.create" "" "" 0 0 0 0.
Definition sample_log : AuditLog :=
  append_all [(None, 5, "e1", mkAuditEntry "" 0 ActorUser "u1" "ann" "user.create" "user" "u2" "bob" "" "" "" "");
              (None, 6, "e2", mkAuditEntry "" 0 ActorUser "u1" "ann" "auth.sign_in" "user" "u1" "ann" "" "" "" "");
              (None, 7, "e3", mkAuditEntry "" 0 ActorUser "u1" "ann" "user.create" "user" "u3" "eve" "" "" "" "")] ∅.

Lemma audit_pages_cover_log_witness :
  exists entries, pages 2 1 sample_filter sample_log = Ok <$> entries /\ concat entries = matching sample_filter sample_log /\
    matching sample_filter sample_log ≡ₚ (map_to_list (rows_where (build sample_filter) sample_log)).*2 /\
    Audit_Count None sample_filter sample_log = Ok (Z.of_nat (length (concat entries))).
Proof. apply (audit_pages_cover_log sample_filter 1 2 sample_log); [lia|]. vm_compute. discriminate. Defined.
