(* ===== verification/Diagnostics.v ===== *)
(** * Diagnostic messages

    [internal/store/diagnostics.go] and the handler that sends a test message in
    [internal/adminapi/diagnostics.go]. A test message is reserved under a key
    the browser chose, queued and audited in one transaction over the queue, the
    directory, the administrators and the audit log. Each statement of it may
    fail: [ios k] is what the driver says of the k-th. *)

From stdpp Require Import base gmap strings list.
From Stdlib Require Import ZArith Lia Ascii.
From S2P Require Import Prelude GoStrings GoStringsFacts StoreModels MessageStore Directory DirectoryProps Policy AdminStore AdminAuth AuditLog.

Open Scope Z_scope.

(** A row of [diagnostic_requests]; [message_id] is set to NULL when the
    message is deleted. *)
Record DiagnosticRequest := mkDiagnosticRequest {
  dr_mailbox : string; dr_recipient : string; dr_message : option string; dr_created : Z
}.

Record ProxyDB := mkProxyDB {
  px_store : DB;
  px_admin : AdminDB;
  px_audit : AuditLog;
  px_requests : gmap (string * string) DiagnosticRequest
}.

Definition set_px_store (s : DB) (db : ProxyDB) : ProxyDB := mkProxyDB s (px_admin db) (px_audit db) (px_requests db).
Definition set_px_audit (l : AuditLog) (db : ProxyDB) : ProxyDB := mkProxyDB (px_store db) (px_admin db) l (px_requests db).
Definition set_px_requests (r : gmap (string * string) DiagnosticRequest) (db : ProxyDB) : ProxyDB :=
  mkProxyDB (px_store db) (px_admin db) (px_audit db) r.

(** Messages leave the queue through any change of its tables; the foreign key
    of the reservations follows. *)
Definition forget_message (msgs : gmap string Message) (r : DiagnosticRequest) : DiagnosticRequest :=
  mkDiagnosticRequest (dr_mailbox r) (dr_recipient r)
    (match dr_message r with Some id => if bool_decide (is_Some (msgs !! id)) then Some id else None | None => None end)
    (dr_created r).

Definition queue_change (s : DB) (db : ProxyDB) : ProxyDB :=
  set_px_requests (forget_message (messages s) <$> px_requests db) (set_px_store s db).

(** ** The transaction *)

Definition enabled_credential (c : OAuthCredential) : bool :=
  negb ((bool_decide (cred_AuthType c = AuthTypeSecret) && bool_decide (cred_ClientSecretEnc c = ""))
        || (bool_decide (cred_AuthType c = AuthTypeCertificate)
            && (bool_decide (cred_CertificatePEM c = "") || bool_decide (cred_CertificateKeyEnc c = "")))).

(** The JOIN of a mailbox with its credential. *)
Definition diagnostic_mailbox (id : string) (s : DB) : option (Mailbox * OAuthCredential) :=
  match mailboxes s !! id with
  | Some m => match oauth_credentials s !! mb_OAuthCredentialID m with Some c => Some (m, c) | None => None end
  | None => None
  end.

Definition sendable (address : string) (m : Mailbox) (c : OAuthCredential) : bool :=
  mb_Enabled m && bool_decide (mb_Address m = address)
  && (bool_decide (mb_Transport m = TransportSMTP) || bool_decide (mb_Transport m = TransportGraph))
  && enabled_credential c.

Definition diagnostic_message (mailboxID : string) (m : Message) : Message :=
  set_m_MailboxID (NullString mailboxID) (set_m_AccountUsername "" (set_m_SMTPAccountID None (set_m_Origin "diagnostic" m))).

Section Enqueue.
Context `{UC : UnicodeCase}.
Context (ios : nat -> option string) (now : Z) (newID auditID : string).

(** When the key is taken: the message it stands for, if the request is the
    same one and the message still exists. *)
Definition repeated (mailboxID recipient : string) (saved : DiagnosticRequest) : result StoreError string :=
  match ios 1%nat with
  | Some e => Err (ErrDriver e)
  | None =>
      if negb (bool_decide (dr_mailbox saved = mailboxID)) || negb (bool_decide (dr_recipient saved = recipient))
      then Err ErrStateConflict
      else match dr_message saved with
      | None => Err ErrStateConflict
      | Some id => Ok id
      end
  end.

Definition actor_name (actorID : string) (db : ProxyDB) : string :=
  from_option u_Username actorID (admin_users (px_admin db) !! actorID).

Definition diagnostic_entry (actorID requestID mailboxID recipient address : string) (m : Message) (db : ProxyDB) : AuditEntry :=
  mkAuditEntry auditID now ActorUser actorID (actor_name actorID db) "mailbox.test_send" "mailbox" mailboxID address
    (MaskSecrets [("messageId", JString (m_ID m)); ("requestId", JString requestID); ("recipient", JString recipient)])
    ResultSuccess "" "".

(** The body of the transaction: the message's ID and whether it is new. *)
Definition diagnosticTx (actorID requestID mailboxID recipient : string) (m : Message) (body : string) (db : ProxyDB)
  : result StoreError (string * bool) * ProxyDB :=
  match ios 0%nat with
  | Some e => (Err (ErrDriver e), db)
  | None =>
      match px_requests db !! (actorID, requestID) with
      | Some saved =>
          (match repeated mailboxID recipient saved with Ok id => Ok (id, false) | Err e => Err e end, db)
      | None =>
          let db := set_px_requests (<[(actorID, requestID) := mkDiagnosticRequest mailboxID recipient None now]> (px_requests db)) db in
          match ios 2%nat with
          | Some e => (Err (ErrDriver e), db)
          | None =>
              match diagnostic_mailbox mailboxID (px_store db) with
              | None => (Err (ErrNotFound "diagnostic mailbox"), db)
              | Some (mb, c) =>
                  if negb (sendable (m_MailboxAddress m) mb c) then (Err ErrStateConflict, db)
                  else match exec (ios 3%nat) (enqueueTx now newID (diagnostic_message mailboxID m) (Some body)) (px_store db) with
                  | (Err e, _) => (Err e, db)
                  | (Ok queued, s) =>
                      let db := set_px_store s db in
                      match ios 4%nat with
                      | Some e => (Err (ErrDriver e), db)
                      | None =>
                          let db := set_px_requests (<[(actorID, requestID) :=
                                      mkDiagnosticRequest mailboxID recipient (Some (m_ID queued)) now]> (px_requests db)) db in
                          match ios 5%nat with
                          | Some e => (Err (ErrDriver e), db)
                          | None =>
                              match exec (ios 6%nat) (insert_entry (diagnostic_entry actorID requestID mailboxID recipient (mb_Address mb) queued db))
                                      (px_audit db) with
                              | (Err e, _) => (Err e, db)
                              | (Ok _, log) =>
                                  match ios 7%nat with
                                  | Some e => (Err (ErrDriver ("store: commit: " +:+ e)), db)
                                  | None => (Ok (m_ID queued, true), set_px_audit log db)
                                  end
                              end
                          end
                      end
                  end
              end
          end
      end
  end.

Definition EnqueueDiagnostic (actorID requestID mailboxID recipient : string) (m : Message) (body : string) (db : ProxyDB)
  : result StoreError (string * bool) * ProxyDB :=
  InTx (diagnosticTx actorID requestID mailboxID recipient m body) db.
End Enqueue.

(** ** The handler *)

Definition diagnostic_subject : string := "smtp-auth-proxy diagnostic test".

Definition diagnostic_body `{NetMail} (from to date messageID : string) : string :=
  "From: " +:+ mail_Address_String ("", from) +:+ CRLF +:+ "To: " +:+ mail_Address_String ("", to) +:+ CRLF +:+ "Date: " +:+ date +:+ CRLF
  +:+ "Message-ID: " +:+ messageID +:+ CRLF +:+ "Subject: " +:+ diagnostic_subject +:+ CRLF
  +:+ "MIME-Version: 1.0" +:+ CRLF +:+ "Content-Type: text/plain; charset=utf-8" +:+ CRLF +:+ CRLF
  +:+ "This is a diagnostic test sent through the normal smtp-auth-proxy delivery queue." +:+ CRLF
  +:+ "Microsoft 365 acceptance does not prove inbox arrival or device SMTP login." +:+ CRLF.

(** The message the handler builds. *)
Definition test_message (id : string) (m : Mailbox) (from to : Address) (size : Z) : Message :=
  mkMessage "" id None None "" (mb_Address m) (Normalized from) (Normalized from) [Normalized to] 0 size
    diagnostic_subject ("<" +:+ id +:+ "@smtp-auth-proxy.invalid>") StatusUnset 0 0 None None "" "" false "" "" 0 None 0.

Section Handler.
Context `{UC : UnicodeCase} `{NM : NetMail} `{GF : GoFmt}.
(** [uuid.Parse], then the canonical text of what it read. *)
Context (uuidParse : string -> option string).

(** [handleSendMailboxTest]; the body of the request is decoded. The answer is
    the status and, when the message is queued, its ID and whether it is new. *)
Definition handleSendMailboxTest (io_get : option string) (ios : nat -> option string) (now : Z) (date newID auditID : string)
    (actor : AdminUser) (mailboxID requestID recipient : string) (db : ProxyDB) : Z * option (string * bool) * ProxyDB :=
  match uuidParse requestID with
  | None => (422, None, db)
  | Some request =>
      match ParseAddress recipient with
      | Err _ => (422, None, db)
      | Ok to =>
          if bool_decide (Normalized to = "") || ContainsAny recipient (String CR (String LF "")) then (422, None, db)
          else match Mailboxes_Get io_get mailboxID (px_store db) with
          | Err e => (status_of_store e, None, db)
          | Ok m =>
              match ParseAddress (mb_Address m) with
              | Err _ => (409, None, db)
              | Ok from =>
                  if bool_decide (Normalized from = "") then (409, None, db)
                  else
                    let body := diagnostic_body (Normalized from) (Normalized to) date ("<" +:+ newID +:+ "@smtp-auth-proxy.invalid>") in
                    match EnqueueDiagnostic ios now newID auditID (u_ID actor) request (mb_ID m) (Normalized to)
                            (test_message newID m from to (len body)) body db with
                    | (Err e, db) => (status_of_store e, None, db)
                    | (Ok queued, db) => (202, Some queued, db)
                    end
              end
          end
      end
  end.
End Handler.

Section Props.
Context `{UC : UnicodeCase}.

(** A credential with which a token can be asked for: a secret where it
    authenticates with one, a certificate and its key where with that. *)
Definition usable (c : OAuthCredential) : Prop :=
  (cred_AuthType c = AuthTypeSecret -> cred_ClientSecretEnc c <> "")
  /\ (cred_AuthType c = AuthTypeCertificate -> cred_CertificatePEM c <> "" /\ cred_CertificateKeyEnc c <> "").

Lemma enabled_usable c : enabled_credential c = true -> usable c.
Proof. unfold enabled_credential, usable. intros H. repeat case_bool_decide; simpl in H; naive_solver. Qed.

(** What a transaction that queued the message [row] leaves: the message and
    its body, the reservation and the audit entry, and everything there was. *)
Record sent (now : Z) (auditID actorID requestID mailboxID recipient body : string) (row : Message) (db db' : ProxyDB) : Prop := mkSent {
  sent_fresh : px_requests db !! (actorID, requestID) = None;
  sent_new : messages (px_store db) !! m_ID row = None;
  sent_store : px_store db' = set_message_blobs (<[m_ID row := body]> (message_blobs (px_store db)))
                                (set_messages (<[m_ID row := row]> (messages (px_store db))) (px_store db));
  sent_reserved : px_requests db' = <[(actorID, requestID) := mkDiagnosticRequest mailboxID recipient (Some (m_ID row)) now]> (px_requests db);
  sent_audited : exists e, px_audit db' = <[auditID := e]> (px_audit db) /\ px_audit db !! auditID = None /\
    ae_Action e = "mailbox.test_send" /\ ae_ActorType e = ActorUser /\ ae_ActorID e = actorID /\ ae_TargetType e = "mailbox" /\
    ae_TargetID e = mailboxID /\ ae_Result e = ResultSuccess;
  sent_admin : px_admin db' = px_admin db;
  sent_from : exists mb c, mailboxes (px_store db) !! mailboxID = Some mb /\ oauth_credentials (px_store db) !! mb_OAuthCredentialID mb = Some c /\
    mb_Enabled mb = true /\ mb_Address mb = m_MailboxAddress row /\ (mb_Transport mb = TransportSMTP \/ mb_Transport mb = TransportGraph) /\ usable c
}.

Lemma enqueueTx_new now newID m body s queued s' :
  enqueueTx now newID m (Some body) s = (Ok queued, s') ->
  queued = enqueue_defaults now newID m /\ messages s !! m_ID queued = None /\
  s' = set_message_blobs (<[m_ID queued := body]> (message_blobs s)) (set_messages (<[m_ID queued := queued]> (messages s)) s).
Proof.
  unfold enqueueTx. set (q := enqueue_defaults now newID m). destruct (translateError _ _) eqn:Ht; [done|].
  case_bool_decide; [done|]. intros [= <- <-]. split_and!; try done.
  unfold insert_message_error in Ht. destruct (negb _); [done|]. case_bool_decide as Hid; [done|]. by apply eq_None_not_Some.
Qed.

Lemma diagnostic_address now newID mailboxID m :
  m_MailboxAddress (enqueue_defaults now newID (diagnostic_message mailboxID m)) = m_MailboxAddress m.
Proof.
  unfold enqueue_defaults, diagnostic_message. simpl.
  repeat (case_bool_decide || match goal with |- context [if IsZero ?x then _ else _] => destruct (IsZero x) end); done.
Qed.

(** A statement failed: nothing happened. *)
Ltac undone := intros [= <- <-]; left; eexists; split; reflexivity.

(** Whatever fails, the transaction ends in one of three ways. *)
Lemma EnqueueDiagnostic_cases ios now newID auditID actorID requestID mailboxID recipient m body db r db' :
  EnqueueDiagnostic ios now newID auditID actorID requestID mailboxID recipient m body db = (r, db') ->
  (exists e, r = Err e /\ db' = db) \/
  (exists id saved, r = Ok (id, false) /\ db' = db /\ px_requests db !! (actorID, requestID) = Some saved /\
     dr_mailbox saved = mailboxID /\ dr_recipient saved = recipient /\ dr_message saved = Some id) \/
  (exists row, r = Ok (m_ID row, true) /\ row = enqueue_defaults now newID (diagnostic_message mailboxID m) /\
     sent now auditID actorID requestID mailboxID recipient body row db db').
Proof.
  unfold EnqueueDiagnostic, InTx, diagnosticTx. destruct (ios 0%nat); [undone|].
  destruct (px_requests db !! (actorID, requestID)) as [saved|] eqn:Hreq.
  { unfold repeated. destruct (ios 1%nat); [undone|].
    repeat (case_bool_decide; simpl; [|undone]).
    destruct (dr_message saved) as [id|] eqn:Hm; [|undone]. intros [= <- <-]. right. left. by exists id, saved. }
  destruct (ios 2%nat); [undone|]. cbn [px_store set_px_requests].
  unfold diagnostic_mailbox. destruct (mailboxes (px_store db) !! mailboxID) as [mb|] eqn:Hmb; [|undone].
  destruct (oauth_credentials (px_store db) !! mb_OAuthCredentialID mb) as [c|] eqn:Hc; [|undone].
  destruct (sendable _ mb c) eqn:Hs; simpl negb; cbv iota; [|undone].
  unfold exec at 1. destruct (ios 3%nat); [undone|].
  destruct (enqueueTx _ _ _ _ _) as [[queued|e] s'] eqn:He; [|undone].
  destruct (ios 4%nat); [undone|]. destruct (ios 5%nat); [undone|].
  unfold exec. destruct (ios 6%nat); [undone|].
  unfold insert_entry. cbn [ae_ID ae_ActorType ae_Result diagnostic_entry]. destruct (negb _); [undone|].
  case_bool_decide as Ha; [undone|]. destruct (ios 7%nat); [undone|].
  intros [= <- <-]. right. right. exists queued. split; [done|].
  apply enqueueTx_new in He as (Hq & Hnew & Hst). split; [done|]. rewrite Hst. cbn [px_store set_px_requests] in *.
  unfold sendable in Hs. bools.
  constructor; cbn [px_store px_requests px_audit px_admin set_px_store set_px_audit set_px_requests]; try done.
  - by rewrite insert_insert_eq.
  - eexists. split; [reflexivity|]. split; [by apply eq_None_not_Some|]. cbn. by split_and!.
  - exists mb, c. rewrite Hq, diagnostic_address. split_and!; try done; [|by apply enabled_usable].
    match goal with H : _ || _ = true |- _ => apply orb_true_iff in H as [H|H]; bools; auto end.
Qed.

(** ** The life of a reservation *)

(** What can happen to the database between two requests: other diagnostic
    requests, and any change of the queue and the directory, deliveries,
    deletions and purges included. *)
Inductive step (db : ProxyDB) : ProxyDB -> Prop :=
| step_send ios now newID auditID actorID requestID mailboxID recipient m body :
    step db (EnqueueDiagnostic ios now newID auditID actorID requestID mailboxID recipient m body db).2
| step_queue s : step db (queue_change s db).

Inductive steps (db : ProxyDB) : ProxyDB -> Prop :=
| steps_refl : steps db db
| steps_next db1 db2 : steps db db1 -> step db1 db2 -> steps db db2.

Definition reserved (actorID requestID mailboxID recipient : string) (db : ProxyDB) : Prop :=
  exists r, px_requests db !! (actorID, requestID) = Some r /\ dr_mailbox r = mailboxID /\ dr_recipient r = recipient.

Lemma step_reserved actorID requestID mailboxID recipient db db' :
  step db db' -> reserved actorID requestID mailboxID recipient db -> reserved actorID requestID mailboxID recipient db'.
Proof.
  intros Hstep (r & Hr & Hm & Hrec). destruct Hstep as [ios now newID auditID a q mb rc m body|s].
  - destruct (EnqueueDiagnostic _ _ _ _ _ _ _ _ _ _ _) as [res db'] eqn:He. simpl.
    destruct (EnqueueDiagnostic_cases _ _ _ _ _ _ _ _ _ _ _ _ _ He) as [(e & -> & ->)|[(id & saved & -> & -> & _)|(row & -> & _ & Hs)]];
      [by exists r..|].
    exists r. split; [|done]. destruct Hs as [Hfresh _ _ Hreq _ _ _]. rewrite Hreq, lookup_insert_ne; [done|]. intros [= -> ->]. congruence.
  - exists (forget_message (messages s) r). simpl. by rewrite lookup_fmap, Hr.
Qed.

Lemma steps_reserved actorID requestID mailboxID recipient db db' :
  steps db db' -> reserved actorID requestID mailboxID recipient db -> reserved actorID requestID mailboxID recipient db'.
Proof. induction 1 as [|db1 db2 _ IH Hs]; [done|]. intros H. eapply step_reserved; [exact Hs|auto]. Qed.

(** a request is sent at most once. Once a key has sent its message, then
    whatever happens to the database, retention deleting the message included,
    the same key never queues anything again: the database stays as it is, and
    the answer is the message's ID, not new, or an error. *)
Theorem diagnostic_sent_at_most_once ios now newID auditID actorID requestID mailboxID recipient m body db id db1 db2
    ios' now' newID' auditID' mailboxID' recipient' m' body' r db3 :
  EnqueueDiagnostic ios now newID auditID actorID requestID mailboxID recipient m body db = (Ok (id, true), db1) ->
  steps db1 db2 ->
  EnqueueDiagnostic ios' now' newID' auditID' actorID requestID mailboxID' recipient' m' body' db2 = (r, db3) ->
  db3 = db2 /\ (forall id' created, r = Ok (id', created) -> created = false /\ mailboxID' = mailboxID /\ recipient' = recipient).
Proof.
  intros H1 Hsteps H2.
  destruct (EnqueueDiagnostic_cases _ _ _ _ _ _ _ _ _ _ _ _ _ H1) as [(e & ? & _)|[(? & ? & ? & _)|(row0 & [= ->] & _ & [_ _ _ Hreq _ _ _])]]; [done..|].
  assert (reserved actorID requestID mailboxID recipient db1) as Hr1.
  { eexists. rewrite Hreq, lookup_insert_eq. by split_and!. }
  destruct (steps_reserved _ _ _ _ _ _ Hsteps Hr1) as (row & Hrow & Hmb & Hrc).
  destruct (EnqueueDiagnostic_cases _ _ _ _ _ _ _ _ _ _ _ _ _ H2) as [(e & -> & ->)|[(id' & saved & -> & -> & Hs & Hm & Hc & _)|(row' & -> & _ & [Hf _ _ _ _ _ _])]].
  - by split.
  - split; [done|]. intros ? ? [= <- <-]. rewrite Hs in Hrow. injection Hrow as ->. by subst.
  - congruence.
Qed.
End Props.

Section TestMessage.
Context `{UC : UnicodeCase} `{NM : NetMail} `{GF : GoFmt} (uuidParse : string -> option string).

(** The row of a test message from a mailbox to an address. *)
Definition test_row (now : Z) (id : string) (mb : Mailbox) (from to : string) (size : Z) : Message :=
  mkMessage "diagnostic" id None (NullString (mb_ID mb)) "" (mb_Address mb) from from [to] 1 size "smtp-auth-proxy diagnostic test"
    ("<" +:+ id +:+ "@smtp-auth-proxy.invalid>") StatusQueued 0 now None None "" "" false "" "" now None now.

Lemma test_row_queued now newID mb from to size :
  enqueue_defaults now newID (diagnostic_message (mb_ID mb) (test_message newID mb from to size))
  = test_row now newID mb (Normalized from) (Normalized to) size.
Proof.
  unfold enqueue_defaults, diagnostic_message, test_message. cbn [m_Origin m_ID set_m_Origin set_m_SMTPAccountID set_m_AccountUsername set_m_MailboxID].
  destruct (decide (newID = "")) as [->|Hn]; [reflexivity|]. by rewrite (bool_decide_eq_false_2 (newID = "")).
Qed.

(** C37: sending a test is all or nothing. A request that is not answered with
    202, because it is malformed or because whichever statement fails, leaves
    the database untouched. Otherwise either the key was already used for this
    mailbox and recipient, and nothing changes; or exactly one message is queued,
    from the mailbox's address to the given recipient and nobody else, with the
    test's text, together with the reservation of the key and the audit entry
    that names the actor, and nothing else changes: the mailbox is enabled, and
    its credential has the secret, or the certificate and key, it needs. *)
Theorem diagnostic_all_or_nothing io_get ios now date newID auditID actor mailboxID requestID recipient db :
  dir_ok (px_store db) ->
  let '(status, answer, db') := handleSendMailboxTest uuidParse io_get ios now date newID auditID actor mailboxID requestID recipient db in
  match answer with
  | None => db' = db /\ status <> 202
  | Some (id, created) =>
      status = 202 /\
      exists key to, uuidParse requestID = Some key /\ ParseAddress recipient = Ok to /\ Normalized to <> "" /\
        ContainsAny recipient CRLF = false /\
        if created : bool then
          id = newID /\
          exists mb from, mailboxes (px_store db) !! mailboxID = Some mb /\ ParseAddress (mb_Address mb) = Ok from /\
            let body := diagnostic_body (Normalized from) (Normalized to) date ("<" +:+ id +:+ "@smtp-auth-proxy.invalid>") in
            sent now auditID (u_ID actor) key mailboxID (Normalized to) body
              (test_row now id mb (Normalized from) (Normalized to) (len body)) db db'
        else db' = db /\ exists created_at, px_requests db !! (u_ID actor, key) = Some (mkDiagnosticRequest mailboxID (Normalized to) (Some id) created_at)
  end.
Proof.
  intros Hd. unfold handleSendMailboxTest. destruct (uuidParse requestID) as [key|]; [|done].
  destruct (ParseAddress recipient) as [to|] eqn:Hto; [|done]. destruct (bool_decide (Normalized to = "") || _) eqn:Hbad; [done|].
  destruct (Mailboxes_Get _ _ _) as [mb|e] eqn:Hmb; [|split; [done|by destruct e]].
  destruct (ParseAddress (mb_Address mb)) as [from|] eqn:Hfrom; [|done]. destruct (bool_decide (Normalized from = "")); [done|].
  assert (mailboxes (px_store db) !! mailboxID = Some mb) as Hrow.
  { unfold Mailboxes_Get in Hmb. destruct io_get; [done|]. by destruct (mailboxes _ !! mailboxID); simplify_eq. }
  assert (mb_ID mb = mailboxID) as Hid by exact (to_id _ _ _ _ (do_mailboxes _ Hd) _ _ Hrow).
  set (body := diagnostic_body _ _ _ _). apply orb_false_iff in Hbad as [Hne Hcr]. apply bool_decide_eq_false in Hne.
  destruct (EnqueueDiagnostic _ _ _ _ _ _ _ _ _ _ db) as [r db'] eqn:He.
  destruct (EnqueueDiagnostic_cases _ _ _ _ _ _ _ _ _ _ _ _ _ He) as [(e & -> & ->)|[(id & saved & -> & -> & Hs & Hm & Hr & Hmsg)|(row & -> & -> & Hs)]].
  - split; [done|]. by destruct e.
  - split; [done|]. exists key, to. split_and!; try done. exists (dr_created saved). rewrite Hs. destruct saved. simpl in *. by subst.
  - rewrite test_row_queued, Hid in Hs. rewrite test_row_queued. split; [done|]. exists key, to. split_and!; try done. by exists mb, from.
Qed.
End TestMessage.

(** ** Witness *)

#[local] Instance ascii_case : UnicodeCase := {| unicode_to_lower := id; unicode_to_upper := id; unicode_equal_fold := fun a b => bool_decide (a = b) |}.

Definition sample_store : DB :=
  mkDB {["c1" := mkOAuthCredential "c1" "main" "t" "app" AuthTypeSecret "sealed" "" "" "" "" None ManagedByUI 0 0]}
    {["m1" := mkMailbox "m1" "relay@example.com" "" "c1" TransportSMTP None None true ManagedByUI 0 0]} ∅ ∅ ∅ ∅ ∅.

Definition sample_px : ProxyDB := mkProxyDB sample_store empty_AdminDB ∅ ∅.
Definition sample_test : Message := test_message "id1" (mkMailbox "m1" "relay@example.com" "" "c1" TransportSMTP None None true ManagedByUI 0 0)
  (mkAddress "" "relay@example.com" "relay@example.com" "example.com") (mkAddress "" "a@b.c" "a@b.c" "b.c") 10.

Definition send_sample (db : ProxyDB) := EnqueueDiagnostic (fun _ => None) 5 "id1" "audit1" "u1" "req1" "m1" "a@b.c" sample_test "body" db.

Lemma sample_store_ok : dir_ok sample_store.
Proof.
  split; simpl.
  - split; [by intros k r [<- <-]%lookup_singleton_Some|by intros k r [<- <-]%lookup_singleton_Some|].
    by intros ? ? ? ? [<- <-]%lookup_singleton_Some [<- <-]%lookup_singleton_Some _.
  - split; [by intros k r [<- <-]%lookup_singleton_Some| |].
    + intros k r [<- <-]%lookup_singleton_Some. by split_and!.
    + by intros ? ? ? ? [<- <-]%lookup_singleton_Some [<- <-]%lookup_singleton_Some _.
  - apply table_ok_empty.
  - intros a b H. by apply elem_of_empty in H.
  - apply table_ok_empty.
  - by intros k m H%lookup_empty_Some.
Qed.

#[local] Instance sample_mail : NetMail := {| mail_ParseAddress := fun s => Ok ("", s); mail_ParseAddressList := fun s => Ok [("", s)]; mail_Address_String := snd |}.
#[local] Instance sample_fmt : GoFmt := {| Quote := id |}.

Definition sample_actor : AdminUser := mkAdminUser "u1" "root" "" "" None RoleAdmin SourceLocal None "" None false 0 None None 0 0.

Definition asked : Z * option (string * bool) * ProxyDB :=
  handleSendMailboxTest (fun s => Some s) None (fun _ => None) 5 "today" "id1" "audit1" sample_actor "m1" "req1" "a@b.c" sample_px.

(** The test is queued, for the one recipient. *)
Lemma diagnostic_all_or_nothing_witness :
  asked.1 = (202, Some ("id1", true)) /\ m_Recipients <$> messages (px_store asked.2) !! "id1" = Some ["a@b.c"].
Proof.
  assert (asked.1 = (202, Some ("id1", true))) as Ha by (vm_compute; reflexivity). split; [exact Ha|].
  pose proof (diagnostic_all_or_nothing (fun s => Some s) None (fun _ => None) 5 "today" "id1" "audit1" sample_actor "m1" "req1" "a@b.c" sample_px sample_store_ok) as H.
  fold asked in H. destruct asked as [[status answer] db']. injection Ha as -> ->.
  destruct H as (_ & key & to & _ & Hto & _ & _ & _ & mb & from & _ & _ & Hs). simpl. rewrite (sent_store _ _ _ _ _ _ _ _ _ _ Hs). simpl.
  rewrite lookup_insert_eq. simpl. vm_compute in Hto. injection Hto as <-. reflexivity.
Defined.

(** The message is deleted, and the request comes again. *)
Lemma diagnostic_sent_at_most_once_witness :
  let db1 := (send_sample sample_px).2 in
  (send_sample sample_px).1 = Ok ("id1", true) /\ (send_sample (queue_change sample_store db1)).2 = queue_change sample_store db1.
Proof.
  cbv zeta. split; [vm_compute; reflexivity|].
  edestruct (diagnostic_sent_at_most_once (fun _ => None) 5 "id1" "audit1" "u1" "req1" "m1" "a@b.c" sample_test "body" sample_px "id1"
              (send_sample sample_px).2 (queue_change sample_store (send_sample sample_px).2)
              (fun _ => None) 5 "id1" "audit1" "m1" "a@b.c" sample_test "body") as [H _].
  - unfold send_sample. vm_compute. reflexivity.
  - eapply steps_next; [apply steps_refl|]. apply step_queue.
  - unfold send_sample at 1. apply surjective_pairing.
  - exact H.
Defined.
