(* ===== verification/Config.v ===== *)
(** * Configuration

    [internal/config/config.go], [scalar.go] and [validate.go]: the
    configuration file as data, its defaults, the two scalar types with a
    textual form, validation and warnings. A problem is the field and what is
    wrong with it; the values that the messages quote are left out. Durations
    are nanoseconds. A [float64] read from the file may be no number at all.

    Parsers of package [net], [net/url], [time] and [strconv] that other inputs
    than the program's own go through are parameters, as is the YAML decoder. *)

From stdpp Require Import base gmap strings list.
From Stdlib Require Import ZArith QArith Lia Ascii.
From S2P Require Import Prelude GoStrings GoStringsFacts GoFloat Policy Expand.

Open Scope Z_scope.

(** ** Numbers from a YAML file *)

Inductive FloatValue := FNum (q : Q) | FNaN | FInf (negative : bool).

(** Comparisons are false on NaN. *)
Definition float_lt (x y : FloatValue) : bool :=
  match x, y with
  | FNum a, FNum b => Qlt_b a b
  | FInf true, FInf true | FInf false, _ | FNaN, _ | _, FNaN | FNum _, FInf true => false
  | FInf true, _ | FNum _, FInf false => true
  end.

(** [int64(f)]: truncated when it fits; otherwise amd64 gives the least integer. *)
Definition float_to_int64 (f : FloatValue) : Z :=
  match f with
  | FNum q => if (min_int64 <=? trunc q) && (trunc q <=? max_int64) then trunc q else min_int64
  | _ => min_int64
  end.

Definition float_mul `{Float64} (f : FloatValue) (n : Z) : FloatValue :=
  match f with FNum q => FNum (rnd (q * inject_Z n)) | _ => f end.

(** A scalar as the decoder hands it to [UnmarshalYAML]. *)
Inductive YamlScalar := YString (s : string) | YInt (n : Z) | YFloat (f : FloatValue) | YOther.

(** ** Scalars *)

Section Scalars.
Context `{F : Float64} `{UC : UnicodeCase}.
Context (ParseDuration : string -> option Z) (ParseFloat : string -> option FloatValue).

(** [Duration.UnmarshalYAML] *)
Definition unmarshal_Duration (raw : YamlScalar) : result string Z :=
  match raw with
  | YString v => match ParseDuration v with Some d => Ok d | None => Err "invalid duration: use a form like 30s, 5m or 1h30m" end
  | YInt v => Ok (wrap64 (v * Second))
  | YFloat v => Ok (float_to_int64 (float_mul v Second))
  | YOther => Err "invalid duration: expected a string"
  end.

Definition byteUnits : list (string * Z) :=
  [("KIB", 2 ^ 10); ("MIB", 2 ^ 20); ("GIB", 2 ^ 30); ("KB", 1000); ("MB", 1000 * 1000); ("GB", 1000 * 1000 * 1000);
   ("K", 2 ^ 10); ("M", 2 ^ 20); ("G", 2 ^ 30); ("B", 1)].

(** The first unit whose suffix the text has. *)
Fixpoint cut_unit (upper : string) (units : list (string * Z)) : option (string * Z) :=
  match units with
  | [] => None
  | (suffix, factor) :: units =>
      match CutSuffix upper suffix with Some digits => Some (digits, factor) | None => cut_unit upper units end
  end.

Definition parseByteSize (s : string) : result string Z :=
  let trimmed := TrimSpace s in
  if bool_decide (trimmed = "") then Err "invalid size: empty"
  else match cut_unit (ToUpper trimmed) byteUnits with
  | Some (digits, factor) =>
      match ParseFloat (TrimSpace digits) with
      | None => Err "invalid size: not a number"
      | Some n => if float_lt n (FNum 0) then Err "invalid size: must not be negative"
                  else Ok (float_to_int64 (float_mul n factor))
      end
  | None =>
      match Atoi trimmed with
      | None => Err "invalid size: use a plain number or a suffix such as KB, MB, MiB"
      | Some n => if n <? 0 then Err "invalid size: must not be negative" else Ok n
      end
  end.

(** [ByteSize.UnmarshalYAML] *)
Definition unmarshal_ByteSize (raw : YamlScalar) : result string Z :=
  match raw with
  | YInt v => if v <? 0 then Err "invalid size: must not be negative" else Ok v
  | YString v => parseByteSize v
  | _ => Err "invalid size: expected a number or a string"
  end.
End Scalars.

(** [ByteSize.String] *)
Definition ByteSize_String (n : Z) : string :=
  if (n >=? 2 ^ 30) && (Z.rem n (2 ^ 30) =? 0) then Itoa (Z.quot n (2 ^ 30)) +:+ "GiB"
  else if (n >=? 2 ^ 20) && (Z.rem n (2 ^ 20) =? 0) then Itoa (Z.quot n (2 ^ 20)) +:+ "MiB"
  else if (n >=? 2 ^ 10) && (Z.rem n (2 ^ 10) =? 0) then Itoa (Z.quot n (2 ^ 10)) +:+ "KiB"
  else Itoa n +:+ "B".

(** ** The file *)

Record Log := mkLog { lg_Level : string; lg_Format : string; lg_IncludeSubjects : bool }.

Record Database := mkDatabase {
  db_Driver : string; db_DSN : string; db_MaxOpenConns : Z; db_MaxIdleConns : Z; db_ConnMaxLifetime : Z; db_AutoMigrate : bool
}.

Record Encryption := mkEncryption { en_Keys : list string }.

Record Storage := mkStorage { st_Blob : string; st_SpoolDir : string; st_MaxMessageSize : Z }.

Record Listener := mkListener { ls_Address : string; ls_TLS : string; ls_RequireTLS : bool; ls_RequireAuth : bool }.

Record TLS := mkTLS { tl_CertFile : string; tl_KeyFile : string; tl_SelfSigned : bool; tl_MinVersion : string }.

Record ProxyProtocol := mkProxyProtocol { pp_Enabled : bool; pp_TrustedNetworks : list string }.

Record SMTP := mkSMTP {
  sm_Hostname : string; sm_Listeners : list Listener; sm_TLS : TLS; sm_AllowInsecureAuth : bool;
  sm_MaxRecipients : Z; sm_MaxConnections : Z; sm_MaxConnectionsPerIP : Z; sm_MaxAuthFailures : Z;
  sm_ReadTimeout : Z; sm_WriteTimeout : Z; sm_ProxyProtocol : ProxyProtocol
}.

Record Retry := mkRetry { rt_MaxAttempts : Z; rt_MaxAge : Z; rt_Backoff : list Z; rt_Jitter : FloatValue }.

Record Retention := mkRetention { rn_Sent : Z; rn_Failed : Z; rn_PurgeInterval : Z }.

Record Queue := mkQueue {
  qu_Workers : Z; qu_Retry : Retry; qu_LeaseDuration : Z; qu_PollInterval : Z;
  qu_DefaultRateLimitPerMin : Z; qu_DefaultMaxConcurrent : Z; qu_Retention : Retention
}.

Record UpstreamSMTP := mkUpstreamSMTP { us_Host : string; us_Port : Z }.
Record UpstreamGraph := mkUpstreamGraph { ug_Endpoint : string }.
Record UpstreamOAuth := mkUpstreamOAuth { uo_Authority : string; uo_SMTPScope : string; uo_GraphScope : string }.
Record UpstreamTLS := mkUpstreamTLS { ut_CAFile : string; ut_InsecureSkipVerify : bool }.

Record Upstream := mkUpstream {
  up_SMTP : UpstreamSMTP; up_Graph : UpstreamGraph; up_OAuth : UpstreamOAuth; up_TLS : UpstreamTLS; up_Timeout : Z
}.

Record AdminTLS := mkAdminTLS { at_CertFile : string; at_KeyFile : string }.

Record Session := mkSession { ss_Lifetime : Z; ss_IdleTimeout : Z; ss_CookieSecure : string; ss_CookieName : string }.

Record Lockout := mkLockout { lk_Threshold : Z; lk_Duration : Z }.

Record LocalAuth := mkLocalAuth { la_Enabled : bool; la_Lockout : Lockout; la_RequireTOTP : bool }.

Record OIDC := mkOIDC {
  oi_Enabled : bool; oi_Issuer : string; oi_ClientID : string; oi_ClientSecret : string; oi_Scopes : list string;
  oi_RoleClaim : string; oi_RoleMappings : gmap string string; oi_DefaultRole : string; oi_UsernameClaim : string; oi_AllowSignup : bool
}.

Record Metrics := mkMetrics { me_Enabled : bool; me_Path : string }.

Record Admin := mkAdmin {
  ad_Address : string; ad_BaseURL : string; ad_TLS : AdminTLS; ad_Session : Session; ad_Local : LocalAuth;
  ad_OIDC : OIDC; ad_Metrics : Metrics; ad_TrustedProxies : list string
}.

Record Bootstrap := mkBootstrap { bs_Mode : string; bs_Path : string }.

Record Config := mkConfig {
  c_Log : Log; c_Database : Database; c_Encryption : Encryption; c_Storage : Storage; c_SMTP : SMTP;
  c_Queue : Queue; c_Upstream : Upstream; c_Admin : Admin; c_Bootstrap : Bootstrap
}.

Definition TLSNone : string := "none".
Definition TLSStartTLS : string := "starttls".
Definition TLSImplicit : string := "implicit".
Definition BlobDB : string := "db".
Definition BlobFS : string := "fs".
Definition BootstrapOff : string := "off".
Definition BootstrapApplyOnce : string := "apply-once".
Definition BootstrapReconcile : string := "reconcile".

Definition Defaults : Config :=
  mkConfig (mkLog "info" "json" false)
    (mkDatabase "sqlite" "/var/lib/smtp-auth-proxy/data.db" 0 2 Hour true)
    (mkEncryption [])
    (mkStorage BlobDB "/var/lib/smtp-auth-proxy/spool" (35 * 2 ^ 20))
    (mkSMTP "smtp-auth-proxy" [mkListener ":587" TLSStartTLS true true] (mkTLS "" "" false "1.2") false
       100 100 10 5 (5 * Minute) (5 * Minute) (mkProxyProtocol false []))
    (mkQueue 4 (mkRetry 12 (72 * Hour) [Minute; 5 * Minute; 15 * Minute; Hour; 4 * Hour; 12 * Hour] (FNum (1 # 5)))
       (5 * Minute) (5 * Second) 30 2 (mkRetention (30 * 24 * Hour) (30 * 24 * Hour) Hour))
    (mkUpstream (mkUpstreamSMTP "smtp.office365.com" 587) (mkUpstreamGraph "https://graph.microsoft.com")
       (mkUpstreamOAuth "https://login.microsoftonline.com" "https://outlook.office365.com/.default" "https://graph.microsoft.com/.default")
       (mkUpstreamTLS "" false) (2 * Minute))
    (mkAdmin ":8080" "" (mkAdminTLS "" "") (mkSession (12 * Hour) Hour "auto" "sap_session")
       (mkLocalAuth true (mkLockout 5 (15 * Minute)) false)
       (mkOIDC false "" "" "" ["openid"; "profile"; "email"] "groups" ∅ "" "preferred_username" false)
       (mkMetrics true "/metrics") [])
    (mkBootstrap BootstrapOff "").

(** ** Validation *)

Record Problem := mkProblem { pb_field : string; pb_what : string }.

(** [add] when the condition holds. *)
Definition when (b : bool) (field what : string) : list Problem := if b then [mkProblem field what] else [].

Definition oneOf (field value : string) (allowed : list string) : list Problem :=
  when (negb (bool_decide (value ∈ allowed))) field "is not valid".

Definition positive (field : string) (value : Z) : list Problem := when (value <=? 0) field "must be greater than 0".

Definition positiveDuration (field : string) (value : Z) : list Problem := when (value <=? 0) field "must be greater than 0".

Definition validLogLevels : list string := ["debug"; "info"; "warn"; "error"].
Definition validLogFormats : list string := ["json"; "text"].
Definition validDrivers : list string := ["sqlite"; "postgres"].
Definition validBlobModes : list string := [BlobDB; BlobFS].
Definition validListenerTLS : list string := [TLSNone; TLSStartTLS; TLSImplicit].
Definition validTLSVersions : list string := ["1.2"; "1.3"].
Definition validBootstrapMode : list string := [BootstrapOff; BootstrapApplyOnce; BootstrapReconcile].
Definition validCookieSecure : list string := ["auto"; "true"; "false"].
Definition validRoles : list string := ["admin"; "operator"; "viewer"].

(** [net.SplitHostPort] *)
Definition SplitHostPort (hostport : string) : option (string * string) :=
  match last_cut_byte ":"%char hostport with
  | None => None
  | Some (before, port) =>
      match hostport with
      | String "["%char rest =>
          match cut_byte "]"%char rest with
          | Some (host, after) =>
              if bool_decide (after = String ":"%char port)
                 && negb (contains_byte rest "["%char) && negb (contains_byte after "]"%char)
              then Some (host, port) else None
          | None => None
          end
      | _ =>
          if contains_byte before ":"%char || contains_byte hostport "["%char || contains_byte hostport "]"%char then None
          else Some (before, port)
      end
  end.

Record URL := mkURL { url_Scheme : string; url_Host : string }.

(** [url.Parse], as far as the scheme and the host go. *)
Class NetURL := { url_Parse : string -> option URL }.

Definition filled (s : string) : bool := negb (bool_decide (s = "")).

Definition validateLog (c : Config) : list Problem :=
  oneOf "log.level" (lg_Level (c_Log c)) validLogLevels ++ oneOf "log.format" (lg_Format (c_Log c)) validLogFormats.

Definition validateEncryption (c : Config) : list Problem :=
  match en_Keys (c_Encryption c) with
  | [] => [mkProblem "encryption.keys" "at least one key is required"]
  | keys => concat (List.map (fun spec =>
      if bool_decide (TrimSpace spec = "") then [mkProblem "encryption.keys" "is empty"]
      else when (negb (Contains spec ":")) "encryption.keys" "expected the form <id>:<base64 key>") keys)
  end.

Definition validateStorage (c : Config) : list Problem :=
  let s := c_Storage c in
  oneOf "storage.blob" (st_Blob s) validBlobModes
  ++ when (bool_decide (st_Blob s = BlobFS) && negb (filled (st_SpoolDir s))) "storage.spool_dir" "required when storage.blob is fs"
  ++ when (st_MaxMessageSize s <=? 0) "storage.max_message_size" "must be greater than 0".

Section Validate.
Context `{NI : NetIP} `{NU : NetURL}.

Definition validateDatabase (c : Config) : list Problem :=
  let d := c_Database c in
  oneOf "database.driver" (db_Driver d) validDrivers
  ++ if bool_decide (db_DSN d = "") then [mkProblem "database.dsn" "must not be empty"]
     else
       (if bool_decide (db_Driver d = "postgres") then
          when (match url_Parse (db_DSN d) with
                | Some u => negb (bool_decide (url_Scheme u = "postgres")) && negb (bool_decide (url_Scheme u = "postgresql"))
                | None => true
                end) "database.dsn" "expected a postgres:// URL for driver postgres"
        else if bool_decide (db_Driver d = "sqlite") then
          when (negb (Contains (db_DSN d) ":memory:") && negb (IsAbs (db_DSN d)) && negb (HasPrefix (db_DSN d) "file:")
                && negb (HasPrefix (db_DSN d) "./")) "database.dsn" "should be an absolute path"
        else [])
       ++ when (db_MaxOpenConns d <? 0) "database.max_open_conns" "must not be negative"
       ++ when (db_MaxIdleConns d <? 0) "database.max_idle_conns" "must not be negative".

Definition validateCIDRs (field : string) (cidrs : list string) : list Problem :=
  concat (List.map (fun c => when (negb (is_ok (ParseCIDR c))) field "is not a CIDR") cidrs).

Definition validateHTTPSURL (field raw : string) (requireHTTPS : bool) : list Problem :=
  if bool_decide (raw = "") then [mkProblem field "must not be empty"]
  else match url_Parse raw with
  | None => [mkProblem field "is not a valid URL"]
  | Some u =>
      if bool_decide (url_Host u = "") then [mkProblem field "has no host"]
      else if requireHTTPS && negb (bool_decide (url_Scheme u = "https")) then [mkProblem field "must use https"]
      else if negb requireHTTPS && negb (bool_decide (url_Scheme u = "http")) && negb (bool_decide (url_Scheme u = "https"))
      then [mkProblem field "must use http or https"]
      else []
  end.

(** One listener, after the addresses in [seen]. *)
Definition validate_listener (seen : list string) (l : Listener) : list Problem :=
  (if bool_decide (ls_Address l = "") then [mkProblem "smtp.listeners.address" "must not be empty"]
   else when (bool_decide (SplitHostPort (ls_Address l) = None)) "smtp.listeners.address" "is not host:port"
        ++ when (bool_decide (ls_Address l ∈ seen)) "smtp.listeners.address" "is already used")
  ++ oneOf "smtp.listeners.tls" (ls_TLS l) validListenerTLS
  ++ when (ls_RequireTLS l && bool_decide (ls_TLS l = TLSNone)) "smtp.listeners" "require_tls is set but tls is none"
  ++ when (negb (ls_RequireAuth l)) "smtp.listeners" "require_auth is false".

Fixpoint validate_listeners (seen : list string) (ls : list Listener) : list Problem :=
  match ls with
  | [] => []
  | l :: ls =>
      validate_listener seen l
      ++ validate_listeners (if bool_decide (ls_Address l = "") then seen else ls_Address l :: seen) ls
  end.

Definition needsCert (ls : list Listener) : bool := existsb (fun l => negb (bool_decide (ls_TLS l = TLSNone))) ls.

Definition validateSMTPTLS (t : TLS) (needs : bool) : list Problem :=
  let hasFiles := filled (tl_CertFile t) || filled (tl_KeyFile t) in
  oneOf "smtp.tls.min_version" (tl_MinVersion t) validTLSVersions
  ++ if hasFiles && tl_SelfSigned t then [mkProblem "smtp.tls" "set either cert_file/key_file or self_signed, not both"]
     else if negb (Bool.eqb (filled (tl_CertFile t)) (filled (tl_KeyFile t))) then [mkProblem "smtp.tls" "cert_file and key_file must be set together"]
     else when (needs && negb hasFiles && negb (tl_SelfSigned t)) "smtp.tls" "a listener uses TLS but no cert_file/key_file is configured".

Definition validateSMTP (c : Config) : list Problem :=
  let s := c_SMTP c in
  when (negb (filled (sm_Hostname s))) "smtp.hostname" "must not be empty"
  ++ when (bool_decide (length (sm_Listeners s) = 0%nat)) "smtp.listeners" "at least one listener is required"
  ++ validate_listeners [] (sm_Listeners s)
  ++ validateSMTPTLS (sm_TLS s) (needsCert (sm_Listeners s))
  ++ positive "smtp.max_recipients" (sm_MaxRecipients s)
  ++ positive "smtp.max_connections" (sm_MaxConnections s)
  ++ positive "smtp.max_connections_per_ip" (sm_MaxConnectionsPerIP s)
  ++ positive "smtp.max_auth_failures" (sm_MaxAuthFailures s)
  ++ positiveDuration "smtp.read_timeout" (sm_ReadTimeout s)
  ++ positiveDuration "smtp.write_timeout" (sm_WriteTimeout s)
  ++ if pp_Enabled (sm_ProxyProtocol s)
     then when (bool_decide (length (pp_TrustedNetworks (sm_ProxyProtocol s)) = 0%nat)) "smtp.proxy_protocol.trusted_networks"
            "required when proxy_protocol is enabled"
          ++ validateCIDRs "smtp.proxy_protocol.trusted_networks" (pp_TrustedNetworks (sm_ProxyProtocol s))
     else [].

Definition validateQueue (c : Config) : list Problem :=
  let q := c_Queue c in
  positive "queue.workers" (qu_Workers q)
  ++ positive "queue.retry.max_attempts" (rt_MaxAttempts (qu_Retry q))
  ++ positiveDuration "queue.retry.max_age" (rt_MaxAge (qu_Retry q))
  ++ positiveDuration "queue.lease_duration" (qu_LeaseDuration q)
  ++ positiveDuration "queue.poll_interval" (qu_PollInterval q)
  ++ positive "queue.default_rate_limit_per_min" (qu_DefaultRateLimitPerMin q)
  ++ positive "queue.default_max_concurrent" (qu_DefaultMaxConcurrent q)
  ++ positiveDuration "queue.retention.purge_interval" (rn_PurgeInterval (qu_Retention q))
  ++ when (bool_decide (length (rt_Backoff (qu_Retry q)) = 0%nat)) "queue.retry.backoff" "at least one delay is required"
  ++ concat (List.map (positiveDuration "queue.retry.backoff") (rt_Backoff (qu_Retry q)))
  ++ when (float_lt (rt_Jitter (qu_Retry q)) (FNum 0) || float_lt (FNum 1) (rt_Jitter (qu_Retry q))) "queue.retry.jitter"
       "must be between 0 and 1"
  ++ when (qu_DefaultMaxConcurrent q >? 3) "queue.default_max_concurrent" "exceeds the 3 concurrent connections Exchange Online allows"
  ++ when (qu_DefaultRateLimitPerMin q >? 30) "queue.default_rate_limit_per_min" "exceeds the 30 messages/minute Exchange Online allows"
  ++ when (qu_LeaseDuration q <=? up_Timeout (c_Upstream c)) "queue.lease_duration" "must exceed upstream.timeout".

Definition validateUpstream (c : Config) : list Problem :=
  let u := c_Upstream c in
  when (negb (filled (us_Host (up_SMTP u)))) "upstream.smtp.host" "must not be empty"
  ++ when ((us_Port (up_SMTP u) <=? 0) || (us_Port (up_SMTP u) >? 65535)) "upstream.smtp.port" "is not a valid port"
  ++ validateHTTPSURL "upstream.graph.endpoint" (ug_Endpoint (up_Graph u)) true
  ++ validateHTTPSURL "upstream.oauth.authority" (uo_Authority (up_OAuth u)) true
  ++ when (negb (filled (uo_SMTPScope (up_OAuth u)))) "upstream.oauth.smtp_scope" "must not be empty"
  ++ when (negb (filled (uo_GraphScope (up_OAuth u)))) "upstream.oauth.graph_scope" "must not be empty"
  ++ positiveDuration "upstream.timeout" (up_Timeout u).

Definition validateOIDC (c : Config) : list Problem :=
  let o := ad_OIDC (c_Admin c) in
  if negb (oi_Enabled o) then []
  else
    validateHTTPSURL "admin.oidc.issuer" (oi_Issuer o) true
    ++ when (negb (filled (oi_ClientID o))) "admin.oidc.client_id" "required when oidc is enabled"
    ++ when (negb (filled (oi_ClientSecret o))) "admin.oidc.client_secret" "required when oidc is enabled"
    ++ when (negb (filled (ad_BaseURL (c_Admin c)))) "admin.base_url" "required when oidc is enabled"
    ++ when (negb (bool_decide ("openid" ∈ oi_Scopes o))) "admin.oidc.scopes" "must include openid"
    ++ when (negb (filled (oi_UsernameClaim o))) "admin.oidc.username_claim" "must not be empty"
    ++ (if filled (oi_DefaultRole o) then oneOf "admin.oidc.default_role" (oi_DefaultRole o) validRoles else [])
    ++ concat (List.map (fun kv => when (negb (bool_decide (snd kv ∈ validRoles))) "admin.oidc.role_mappings" "is not a valid role")
                 (map_to_list (oi_RoleMappings o)))
    ++ when (negb (bool_decide (oi_RoleMappings o = ∅)) && negb (filled (oi_RoleClaim o))) "admin.oidc.role_claim" "required when role_mappings is set"
    ++ when (bool_decide (oi_RoleMappings o = ∅) && negb (filled (oi_DefaultRole o))) "admin.oidc" "every SSO login would be denied".

Definition validateAdmin (c : Config) : list Problem :=
  let a := c_Admin c in
  let s := ad_Session a in
  when (bool_decide (SplitHostPort (ad_Address a) = None)) "admin.address" "is not host:port"
  ++ (if filled (ad_BaseURL a) then validateHTTPSURL "admin.base_url" (ad_BaseURL a) false else [])
  ++ when (negb (Bool.eqb (filled (at_CertFile (ad_TLS a))) (filled (at_KeyFile (ad_TLS a))))) "admin.tls" "cert_file and key_file must be set together"
  ++ positiveDuration "admin.session.lifetime" (ss_Lifetime s)
  ++ positiveDuration "admin.session.idle_timeout" (ss_IdleTimeout s)
  ++ when (ss_IdleTimeout s >? ss_Lifetime s) "admin.session.idle_timeout" "must not exceed admin.session.lifetime"
  ++ oneOf "admin.session.cookie_secure" (ss_CookieSecure s) validCookieSecure
  ++ when (negb (filled (ss_CookieName s))) "admin.session.cookie_name" "must not be empty"
  ++ (if la_Enabled (ad_Local a)
      then positive "admin.local_auth.lockout.threshold" (lk_Threshold (la_Lockout (ad_Local a)))
           ++ positiveDuration "admin.local_auth.lockout.duration" (lk_Duration (la_Lockout (ad_Local a)))
      else [])
  ++ when (negb (la_Enabled (ad_Local a)) && negb (oi_Enabled (ad_OIDC a))) "admin" "both local_auth and oidc are disabled"
  ++ validateOIDC c
  ++ when (me_Enabled (ad_Metrics a) && negb (HasPrefix (me_Path (ad_Metrics a)) "/")) "admin.metrics.path" "must start with '/'"
  ++ validateCIDRs "admin.trusted_proxies" (ad_TrustedProxies a).

Definition validateBootstrap (c : Config) : list Problem :=
  oneOf "bootstrap.mode" (bs_Mode (c_Bootstrap c)) validBootstrapMode
  ++ when (negb (bool_decide (bs_Mode (c_Bootstrap c) = BootstrapOff)) && negb (filled (bs_Path (c_Bootstrap c)))) "bootstrap.path"
       "required when bootstrap.mode is set".

(** [Validate]: every problem, in the order of the file. *)
Definition Validate (c : Config) : list Problem :=
  validateLog c ++ validateDatabase c ++ validateEncryption c ++ validateStorage c ++ validateSMTP c
  ++ validateQueue c ++ validateUpstream c ++ validateAdmin c ++ validateBootstrap c.

(** [Parse]: the document is expanded, decoded over the defaults and validated.
    [decode] is the YAML decoder; [None] is the expansion's fuel. *)
Inductive ParseError := ParseExpand (e : ExpandError) | ParseYAML (e : string) | ParseInvalid (ps : list Problem).

Definition Parse (lookup : string -> option string) (stat : string -> result string Z) (readFile : string -> result string string)
    (decode : string -> Config -> result string Config) (raw : string) : option (result ParseError Config) :=
  match expand lookup stat readFile raw with
  | None => None
  | Some (Err e) => Some (Err (ParseExpand e))
  | Some (Ok expanded) =>
      match decode expanded Defaults with
      | Err e => Some (Err (ParseYAML e))
      | Ok cfg =>
          match Validate cfg with
          | [] => Some (Ok cfg)
          | ps => Some (Err (ParseInvalid ps))
          end
      end
  end.
End Validate.

(** ** Warnings *)

Inductive Warning :=
| WarnInsecureAuth | WarnOptionalTLS (listener : nat) (address : string) | WarnSelfSigned | WarnLocalSpool
| WarnAdminSignup | WarnInsecureCookie | WarnSubjects | WarnSkipVerify.

Definition warn (b : bool) (w : Warning) : list Warning := if b then [w] else [].

Definition Warnings (c : Config) : list Warning :=
  let o := ad_OIDC (c_Admin c) in
  warn (sm_AllowInsecureAuth (c_SMTP c)) WarnInsecureAuth
  ++ concat (imap (fun i l => warn (negb (bool_decide (ls_TLS l = TLSNone)) && negb (ls_RequireTLS l)) (WarnOptionalTLS i (ls_Address l)))
               (sm_Listeners (c_SMTP c)))
  ++ warn (tl_SelfSigned (sm_TLS (c_SMTP c))) WarnSelfSigned
  ++ warn (bool_decide (db_Driver (c_Database c) = "sqlite") && bool_decide (st_Blob (c_Storage c) = BlobFS)) WarnLocalSpool
  ++ warn (oi_Enabled o && oi_AllowSignup o && bool_decide (oi_DefaultRole o = "admin")) WarnAdminSignup
  ++ warn (filled (ad_BaseURL (c_Admin c)) && HasPrefix (ad_BaseURL (c_Admin c)) "http://"
           && negb (bool_decide (ss_CookieSecure (ad_Session (c_Admin c)) = "true"))) WarnInsecureCookie
  ++ warn (lg_IncludeSubjects (c_Log c)) WarnSubjects
  ++ warn (ut_InsecureSkipVerify (up_TLS (c_Upstream c))) WarnSkipVerify.
