(* ===== verification/ConfigProps.v ===== *)
(** * What a validated configuration guarantees *)

From stdpp Require Import base gmap strings list.
From Stdlib Require Import ZArith QArith Lia Ascii.
From S2P Require Import Prelude GoStrings GoStringsFacts GoFloat Policy Expand Config.

Open Scope Z_scope.

(** ** No problems *)

Lemma when_nil b f w : when b f w = [] <-> b = false.
Proof. by destruct b. Qed.

Lemma oneOf_nil f v l : oneOf f v l = [] <-> v ∈ l.
Proof. unfold oneOf. rewrite when_nil, negb_false_iff. apply bool_decide_eq_true. Qed.

Lemma positive_nil f v : positive f v = [] <-> 0 < v.
Proof. unfold positive. rewrite when_nil. apply Z.leb_gt. Qed.

Lemma positiveDuration_nil f v : positiveDuration f v = [] <-> 0 < v.
Proof. apply positive_nil. Qed.

Lemma concat_map_nil {A B} (f : A -> list B) l : concat (List.map f l) = [] <-> Forall (fun x => f x = []) l.
Proof.
  induction l as [|x l IH]; simpl; [by split|]. rewrite app_nil, IH, Forall_cons. done.
Qed.

(** Splits [Validate c = \[\]] and the like into facts. *)
Ltac no_problems :=
  repeat match goal with
  | H : _ ++ _ = [] |- _ => apply app_nil in H as [? ?]
  | H : when _ _ _ = [] |- _ => apply when_nil in H
  | H : oneOf _ _ _ = [] |- _ => apply oneOf_nil in H
  | H : positive _ _ = [] |- _ => apply positive_nil in H
  | H : positiveDuration _ _ = [] |- _ => apply positiveDuration_nil in H
  | H : concat (List.map _ _) = [] |- _ => apply concat_map_nil in H
  end.

(** ** Listeners *)

Section Listeners.

Lemma validate_listeners_spec seen ls :
  validate_listeners seen ls = [] ->
  Forall (fun l => ls_Address l <> "" /\ is_Some (SplitHostPort (ls_Address l)) /\ (ls_Address l ∉ seen) /\
    (ls_TLS l ∈ validListenerTLS) /\ ls_RequireAuth l = true /\ (ls_RequireTLS l = true -> ls_TLS l <> TLSNone)) ls /\
  NoDup (ls_Address <$> ls).
Proof.
  revert seen. induction ls as [|l ls IH]; intros seen; simpl; [by split; constructor|].
  intros [Hl Hrest]%app_nil. unfold validate_listener in Hl. apply app_nil in Hl as [Ha Hl].
  destruct (decide (ls_Address l = "")) as [He|He]; [by rewrite bool_decide_eq_true_2 in Ha|].
  rewrite bool_decide_eq_false_2 in Ha, Hrest by done. destruct (IH _ Hrest) as [Hall Hnd]. no_problems. bools.
  split.
  - constructor.
    + split_and!; try done; [by apply not_eq_None_Some|]. intros Hr Ht.
      match goal with H : ls_RequireTLS l && _ = false |- _ => by rewrite Hr, Ht in H end.
    + eapply Forall_impl; [exact Hall|]. intros x (? & ? & Hx & ?). split_and!; try done; [|tauto..]. set_solver.
  - apply NoDup_cons. split; [|done]. intros (x & Hx & Hin)%list_elem_of_fmap.
    pose proof (proj1 (Forall_forall _ _) Hall x Hin) as (_ & _ & Hn & _). rewrite <-Hx in Hn. set_solver.
Qed.
End Listeners.

Section Validated.
Context `{NI : NetIP} `{NU : NetURL}.

Lemma https_ok f raw : validateHTTPSURL f raw true = [] -> exists u, url_Parse raw = Some u /\ url_Scheme u = "https" /\ url_Host u <> "".
Proof.
  unfold validateHTTPSURL. case_bool_decide; [done|]. destruct (url_Parse raw) as [u|]; [|done]. case_bool_decide; [done|].
  simpl. case_bool_decide; simpl; [|done]. intros _. eauto.
Qed.

(** What the delivery side relies on. *)
Record queue_ok (c : Config) : Prop := mkQueueOk {
  qk_workers : 0 < qu_Workers (c_Queue c);
  qk_poll : 0 < qu_PollInterval (c_Queue c);
  qk_purge : 0 < rn_PurgeInterval (qu_Retention (c_Queue c));
  qk_lease : 0 < up_Timeout (c_Upstream c) < qu_LeaseDuration (c_Queue c);
  qk_rate : 1 <= qu_DefaultRateLimitPerMin (c_Queue c) <= 30;
  qk_conc : 1 <= qu_DefaultMaxConcurrent (c_Queue c) <= 3;
  qk_attempts : 0 < rt_MaxAttempts (qu_Retry (c_Queue c)) /\ 0 < rt_MaxAge (qu_Retry (c_Queue c));
  qk_delays : rt_Backoff (qu_Retry (c_Queue c)) <> [] /\ Forall (fun d => 0 < d) (rt_Backoff (qu_Retry (c_Queue c)));
  qk_jitter : match rt_Jitter (qu_Retry (c_Queue c)) with FNum q => (0 <= q <= 1)%Q | FNaN => True | FInf _ => False end
}.

(** What keeps the front end from being an open relay, or unreachable. *)
Record smtp_ok (c : Config) : Prop := mkSmtpOk {
  sk_listeners : sm_Listeners (c_SMTP c) <> [];
  sk_distinct : NoDup (ls_Address <$> sm_Listeners (c_SMTP c));
  sk_auth : Forall (fun l => ls_RequireAuth l = true) (sm_Listeners (c_SMTP c));
  sk_tls : Forall (fun l => ls_RequireTLS l = true -> ls_TLS l <> TLSNone) (sm_Listeners (c_SMTP c));
  sk_cert : needsCert (sm_Listeners (c_SMTP c)) = true ->
    (tl_CertFile (sm_TLS (c_SMTP c)) <> "" /\ tl_KeyFile (sm_TLS (c_SMTP c)) <> "") \/ tl_SelfSigned (sm_TLS (c_SMTP c)) = true;
  sk_version : tl_MinVersion (sm_TLS (c_SMTP c)) ∈ validTLSVersions;
  sk_limits : 0 < sm_MaxRecipients (c_SMTP c) /\ 0 < sm_MaxConnections (c_SMTP c) /\ 0 < sm_MaxConnectionsPerIP (c_SMTP c)
    /\ 0 < sm_MaxAuthFailures (c_SMTP c) /\ 0 < st_MaxMessageSize (c_Storage c);
  sk_proxy : pp_Enabled (sm_ProxyProtocol (c_SMTP c)) = true -> pp_TrustedNetworks (sm_ProxyProtocol (c_SMTP c)) <> []
    /\ Forall (fun n => is_ok (ParseCIDR n) = true) (pp_TrustedNetworks (sm_ProxyProtocol (c_SMTP c)))
}.

(** What keeps somebody, and nobody else, able to sign in. *)
Record admin_ok (c : Config) : Prop := mkAdminOk {
  ak_signin : la_Enabled (ad_Local (c_Admin c)) = true \/ oi_Enabled (ad_OIDC (c_Admin c)) = true;
  ak_session : 0 < ss_IdleTimeout (ad_Session (c_Admin c)) <= ss_Lifetime (ad_Session (c_Admin c));
  ak_lockout : la_Enabled (ad_Local (c_Admin c)) = true ->
    0 < lk_Threshold (la_Lockout (ad_Local (c_Admin c))) /\ 0 < lk_Duration (la_Lockout (ad_Local (c_Admin c)));
  ak_roles : oi_Enabled (ad_OIDC (c_Admin c)) = true ->
    (oi_DefaultRole (ad_OIDC (c_Admin c)) = "" \/ oi_DefaultRole (ad_OIDC (c_Admin c)) ∈ validRoles) /\
    (forall k r, oi_RoleMappings (ad_OIDC (c_Admin c)) !! k = Some r -> r ∈ validRoles) /\
    (oi_DefaultRole (ad_OIDC (c_Admin c)) <> "" \/ oi_RoleMappings (ad_OIDC (c_Admin c)) <> ∅);
  ak_https : exists u v, url_Parse (ug_Endpoint (up_Graph (c_Upstream c))) = Some u /\ url_Scheme u = "https" /\
    url_Parse (uo_Authority (up_OAuth (c_Upstream c))) = Some v /\ url_Scheme v = "https"
}.

Lemma validateQueue_ok c : validateQueue c = [] -> validateUpstream c = [] -> queue_ok c.
Proof.
  unfold validateQueue, validateUpstream. intros Hq Hu. cbv zeta in *. no_problems. bools. constructor; try lia; try done.
  - split; [by intros E; rewrite E in *|]. eapply Forall_impl; [eassumption|]. intros d Hd. by apply positiveDuration_nil in Hd.
  - destruct (rt_Jitter (qu_Retry (c_Queue c))) as [q| |[]]; simpl in *; try done. split; apply Qnot_lt_le; intros Hlt%Qlt_b_spec; congruence.
Qed.

Lemma filled_true s : filled s = true <-> s <> "".
Proof. unfold filled. rewrite negb_true_iff. apply bool_decide_eq_false. Qed.

Lemma validateSMTPTLS_ok t needs : validateSMTPTLS t needs = [] -> needs = true ->
  (tl_CertFile t <> "" /\ tl_KeyFile t <> "") \/ tl_SelfSigned t = true.
Proof.
  unfold validateSMTPTLS. cbv zeta. intros H Hn. no_problems.
  destruct (filled (tl_CertFile t)) eqn:H1, (filled (tl_KeyFile t)) eqn:H2, (tl_SelfSigned t); simpl in *; no_problems; subst; try done; auto.
  left. by rewrite <-!filled_true.
Qed.

Lemma validateSMTP_ok c : validateSMTP c = [] -> validateStorage c = [] -> smtp_ok c.
Proof.
  unfold validateSMTP, validateStorage. cbv zeta. intros Hs Hst. no_problems. bools.
  match goal with H : validate_listeners _ _ = [] |- _ => apply validate_listeners_spec in H as [Hall Hnd] end.
  constructor; try done.
  - by intros E; rewrite E in *.
  - eapply Forall_impl; [exact Hall|]. by intros l (? & ? & ? & ? & ? & ?).
  - eapply Forall_impl; [exact Hall|]. by intros l (? & ? & ? & ? & ? & ?).
  - by apply validateSMTPTLS_ok.
  - match goal with H : validateSMTPTLS _ _ = [] |- _ => unfold validateSMTPTLS in H; cbv zeta in H end. no_problems. done.
  - intros Hp. rewrite Hp in *. no_problems. bools. split; [by intros E; rewrite E in *|].
    match goal with H : validateCIDRs _ _ = [] |- _ => unfold validateCIDRs in H end. no_problems.
    eapply Forall_impl; [eassumption|]. intros n Hn. cbv beta in Hn. no_problems. by bools.
Qed.

Lemma validateOIDC_ok c : validateOIDC c = [] -> oi_Enabled (ad_OIDC (c_Admin c)) = true ->
  (oi_DefaultRole (ad_OIDC (c_Admin c)) = "" \/ oi_DefaultRole (ad_OIDC (c_Admin c)) ∈ validRoles) /\
  (forall k r, oi_RoleMappings (ad_OIDC (c_Admin c)) !! k = Some r -> r ∈ validRoles) /\
  (oi_DefaultRole (ad_OIDC (c_Admin c)) <> "" \/ oi_RoleMappings (ad_OIDC (c_Admin c)) <> ∅).
Proof.
  unfold validateOIDC. intros H He. cbv zeta in H. rewrite He in H. simpl negb in H. cbv iota in H. no_problems.
  split_and!.
  - destruct (filled (oi_DefaultRole (ad_OIDC (c_Admin c)))) eqn:Hf; no_problems; [by right|]. left. unfold filled in Hf. by bools.
  - intros k r Hk. match goal with H : Forall _ (map_to_list _) |- _ => rename H into Hm end.
    rewrite Forall_forall in Hm. specialize (Hm (k, r)). rewrite elem_of_map_to_list in Hm. specialize (Hm Hk). cbv beta in Hm. no_problems. by bools.
  - match goal with H : bool_decide (_ = ∅) && negb (filled ?s) = false |- _ => rename H into Hn end.
    apply andb_false_iff in Hn as [Hn|Hn]; bools; [by right|]. left. by apply filled_true.
Qed.

Lemma validateAdmin_ok c : validateAdmin c = [] -> validateUpstream c = [] -> admin_ok c.
Proof.
  unfold validateAdmin, validateUpstream. cbv zeta. intros Ha Hu. no_problems.
  repeat match goal with H : validateHTTPSURL _ _ true = [] |- _ => apply https_ok in H as (? & ? & ? & _) end.
  constructor.
  - match goal with H : negb (la_Enabled _) && _ = false |- _ => apply andb_false_iff in H as [H|H] end; bools; auto.
  - bools. lia.
  - intros Hl. rewrite Hl in *. no_problems. done.
  - by apply validateOIDC_ok.
  - eauto 8.
Qed.

Lemma validated_ok c : Validate c = [] -> queue_ok c /\ smtp_ok c /\ admin_ok c.
Proof.
  unfold Validate. intros H. no_problems. split_and!; [by apply validateQueue_ok|by apply validateSMTP_ok|by apply validateAdmin_ok].
Qed.

(** C36: a configuration that passes validation is safe to run. The lease of a
    message outlives the upstream timeout, the budget stays within what
    Exchange allows, retries are positive delays; every listener requires
    authentication, has its own address, and has a certificate when it offers
    TLS; proxies are only trusted when named; somebody can sign in, and single
    sign-on only ever grants known roles. *)
Theorem validated_config_is_sound c : Validate c = [] -> queue_ok c /\ smtp_ok c /\ admin_ok c.
Proof. apply validated_ok. Qed.

(** the defaults lack exactly what cannot be guessed. With the Microsoft
    endpoints read as the URLs they are, an empty file is refused for the
    missing encryption key and the missing certificate, and for nothing else. *)
Theorem defaults_lack_key_and_certificate graph login :
  url_Host graph <> "" -> url_Host login <> "" -> url_Scheme graph = "https" -> url_Scheme login = "https" ->
  url_Parse "https://graph.microsoft.com" = Some graph -> url_Parse "https://login.microsoftonline.com" = Some login ->
  pb_field <$> Validate Defaults = ["encryption.keys"; "smtp.tls"].
Proof.
  intros Hg Hl Sg Sl H1 H2. unfold Validate, validateUpstream, validateAdmin, validateOIDC. simpl ug_Endpoint. simpl uo_Authority.
  unfold validateHTTPSURL at 1 2. rewrite H1, H2, Sg, Sl.
  rewrite (bool_decide_eq_false_2 (url_Host graph = "")), (bool_decide_eq_false_2 (url_Host login = "")) by done. reflexivity.
Qed.
End Validated.

(** ** Sizes *)

Lemma CutSuffix_app s t : CutSuffix (s +:+ t) t = Some s.
Proof.
  unfold CutSuffix, HasSuffix. rewrite String_length_app.
  replace (String.length s + String.length t - String.length t)%nat with (String.length s) by lia.
  rewrite drop_bytes_app, take_bytes_app. rewrite !bool_decide_eq_true_2; [done|done|lia].
Qed.

Lemma CutSuffix_foreign s c t : c ∉ bytes s -> CutSuffix s (String c t) = None.
Proof.
  intros Hc. unfold CutSuffix, HasSuffix. destruct (_ && _) eqn:H; [|done]. bools. destruct Hc.
  rewrite <-(take_drop_bytes (String.length s - String.length (String c t)) s), bytes_app, H0. simpl. set_solver.
Qed.

Lemma Itoa_bytes n c : 0 <= n -> c ∈ bytes (Itoa n) -> is_digit c = true.
Proof.
  intros Hn Hc. destruct (is_digit c) eqn:Hd; [done|]. pose proof (Itoa_only_digits n c Hn Hd) as H.
  by apply contains_byte_false in H.
Qed.

Lemma digit_range c : is_digit c = true -> 48 <= code c <= 57.
Proof. unfold is_digit. intros H. bools. lia. Qed.

Lemma digit_plain c : is_digit c = true -> ascii_space c = false /\ code c < 128 /\ upper_byte c = c.
Proof.
  intros H%digit_range. unfold ascii_space, upper_byte, is_lower. split_and!.
  - rewrite (proj2 (Z.leb_gt (code c) 13)), (proj2 (Z.eqb_neq (code c) 32)), andb_false_r by lia. done.
  - lia.
  - by rewrite (proj2 (Z.leb_gt 97 (code c))) by lia.
Qed.

Lemma string_map_id f s : (forall c, c ∈ bytes s -> f c = c) -> string_map f s = s.
Proof.
  induction s as [|c s IH]; [done|]. simpl. intros H. rewrite (H c) by left. rewrite IH; [done|]. intros c' Hc'. apply H. by right.
Qed.

Lemma trunc_int q z : (q == inject_Z z)%Q -> trunc q = z.
Proof.
  unfold trunc, Qeq, inject_Z. destruct q as [n d]. simpl. rewrite Z.mul_1_r. intros ->. apply Z.quot_mul. lia.
Qed.

Section Sizes.
Context `{F : Float64} `{UC : UnicodeCase}.
Context (ParseFloat : string -> option FloatValue).
(** [strconv.ParseFloat] reads an integer that a float64 holds exactly. *)
Hypothesis ParseFloat_int : forall n, 0 <= n <= 2 ^ 53 -> ParseFloat (Itoa n) = Some (FNum (inject_Z n)).

(** The units [String] writes, as [parseByteSize] finds them. *)
Definition written_units : list (string * string * Z) := [("B", "B", 1); ("KiB", "KIB", 2 ^ 10); ("MiB", "MIB", 2 ^ 20); ("GiB", "GIB", 2 ^ 30)].

Lemma cut_written n u up f : 0 <= n -> (u, up, f) ∈ written_units -> cut_unit (Itoa n +:+ up) byteUnits = Some (Itoa n, f).
Proof.
  intros Hn Hu. assert (forall c, is_digit c = false -> c ∉ bytes up -> c ∉ bytes (Itoa n +:+ up)) as Hno.
  { intros c Hd Hc. rewrite bytes_app. intros [H|H]%elem_of_app; [|done]. by rewrite (Itoa_bytes n c Hn H) in Hd. }
  unfold written_units in Hu. rewrite !elem_of_cons, elem_of_nil in Hu.
  destruct Hu as [[= -> -> ->]|[[= -> -> ->]|[[= -> -> ->]|[[= -> -> ->]|[]]]]]; cbn [cut_unit byteUnits];
    repeat (rewrite CutSuffix_app || (rewrite CutSuffix_foreign by (apply Hno; [done|by vm_compute; set_solver]))); done.
Qed.

Lemma parse_written n u up f : 0 <= n <= 2 ^ 53 -> n * f <= 2 ^ 53 -> (u, up, f) ∈ written_units -> parseByteSize ParseFloat (Itoa n +:+ u) = Ok (n * f).
Proof.
  intros Hn Hf Hu.
  assert (bytes u = [] -> False) as Hne by (unfold written_units in Hu; set_solver).
  assert (0 < f /\ string_map upper_byte u = up /\ (forall c, c ∈ bytes u -> ascii_space c = false /\ code c < 128)) as (Hf0 & Hup & Hplain).
  { unfold written_units in Hu. rewrite !elem_of_cons, elem_of_nil in Hu.
    destruct Hu as [[= -> -> ->]|[[= -> -> ->]|[[= -> -> ->]|[[= -> -> ->]|[]]]]]; (split; [lia|]; split; [done|]);
      intros c Hc; cbn in Hc; rewrite !elem_of_cons, elem_of_nil in Hc; destruct_or!; subst; done. }
  assert (forall c, c ∈ bytes (Itoa n +:+ u) -> ascii_space c = false /\ code c < 128) as Hall.
  { intros c. rewrite bytes_app. intros [H|H]%elem_of_app; [|by apply Hplain]. apply Itoa_bytes in H; [|lia]. by apply digit_plain in H as (? & ? & _). }
  unfold parseByteSize. rewrite TrimSpace_plain by done. rewrite bool_decide_eq_false_2.
  2: { intros He. apply Hne. destruct u; [done|]. by destruct (Itoa n). }
  assert (ToUpper (Itoa n +:+ u) = Itoa n +:+ up) as ->.
  { unfold ToUpper. replace (is_ascii _) with true.
    - rewrite string_map_app, Hup. f_equal. apply string_map_id. intros c Hc. apply Itoa_bytes in Hc; [|lia]. by apply digit_plain in Hc as (_ & _ & ?).
    - symmetry. unfold is_ascii. apply negb_true_iff, not_true_iff_false. intros (c & Hc & Hr)%string_exists_iff.
      apply Hall in Hc as [_ Hc]. unfold rune_self in Hr. bools. lia. }
  rewrite (cut_written n u up f) by (lia || done). rewrite TrimSpace_plain.
  2: { intros c Hc. apply Itoa_bytes in Hc; [|lia]. by apply digit_plain in Hc as (? & ? & _). }
  rewrite ParseFloat_int by lia. unfold float_lt. assert (Qlt_b (inject_Z n) 0 = false) as ->.
  { apply not_true_iff_false. rewrite Qlt_b_spec. apply Qle_not_lt. change 0%Q with (inject_Z 0). rewrite <-Zle_Qle. lia. }
  unfold float_mul, float_to_int64. assert (trunc (rnd (inject_Z n * inject_Z f)) = n * f) as ->.
  { apply trunc_int. rewrite <-inject_Z_mult. apply rnd_int. nia. }
  rewrite (proj2 (Z.leb_le min_int64 (n * f))), (proj2 (Z.leb_le (n * f) max_int64)); [done|unfold max_int64; lia|unfold min_int64; nia].
Qed.

(** a size that is printed is read back as the same number of bytes: for
    every size up to 2^53 bytes, whatever unit [String] picks. *)
Theorem bytesize_roundtrip n : 0 <= n <= 2 ^ 53 -> parseByteSize ParseFloat (ByteSize_String n) = Ok n.
Proof.
  intros Hn. unfold ByteSize_String.
  assert (forall f u up, (u, up, f) ∈ written_units -> 1 < f -> Z.rem n f = 0 -> parseByteSize ParseFloat (Itoa (Z.quot n f) +:+ u) = Ok n) as Hgo.
  { intros f u up Hu Hf Hr. rewrite Z.rem_mod_nonneg in Hr by lia. rewrite Z.quot_div_nonneg by lia.
    pose proof (Z.div_mod n f ltac:(lia)) as Hd. pose proof (Z.div_pos n f ltac:(lia) ltac:(lia)).
    rewrite (parse_written _ u up f); [f_equal; lia|nia|nia|done]. }
  repeat match goal with |- context [if ?b then _ else _] => destruct b eqn:? end; bools.
  - apply (Hgo _ "GiB" "GIB"); [unfold written_units; set_solver|lia|done].
  - apply (Hgo _ "MiB" "MIB"); [unfold written_units; set_solver|lia|done].
  - apply (Hgo _ "KiB" "KIB"); [unfold written_units; set_solver|lia|done].
  - rewrite (parse_written n "B" "B" 1); [f_equal; lia|lia|lia|]. unfold written_units. left.
Qed.
End Sizes.

(** ** Witnesses *)

#[local] Instance sample_net : NetIP := {| IP := string; IPNet := string; IP_String := id; ParseCIDR := fun s => if Contains s "/" then Ok s else Err "invalid CIDR address"; IPNet_Contains := fun _ _ => false |}.
#[local] Instance sample_url : NetURL := {| url_Parse := fun s => match Cut s "://" with Some (scheme, host) => Some (mkURL scheme host) | None => None end |}.
#[local] Instance sample_case : UnicodeCase := {| unicode_to_lower := id; unicode_to_upper := id; unicode_equal_fold := fun a b => bool_decide (a = b) |}.

(** The defaults with a key and a self-signed certificate. *)
Definition first_run : Config :=
  let s := c_SMTP Defaults in
  mkConfig (c_Log Defaults) (c_Database Defaults) (mkEncryption ["k1:AAAA"]) (c_Storage Defaults)
    (mkSMTP (sm_Hostname s) (sm_Listeners s) (mkTLS "" "" true "1.2") false 100 100 10 5 (5 * Minute) (5 * Minute) (sm_ProxyProtocol s))
    (c_Queue Defaults) (c_Upstream Defaults) (c_Admin Defaults) (c_Bootstrap Defaults).

Lemma validated_config_is_sound_witness : queue_ok first_run /\ smtp_ok first_run /\ admin_ok first_run.
Proof. apply validated_config_is_sound. vm_compute. reflexivity. Defined.

Lemma defaults_lack_key_and_certificate_witness : pb_field <$> Validate Defaults = ["encryption.keys"; "smtp.tls"].
Proof.
  apply (defaults_lack_key_and_certificate (mkURL "https" "graph.microsoft.com") (mkURL "https" "login.microsoftonline.com"));
    [discriminate|discriminate|reflexivity..].
Defined.

Definition int_float (s : string) : option FloatValue := match digits_value s 0 with Some n => Some (FNum (inject_Z n)) | None => None end.

Lemma bytesize_roundtrip_witness : @parseByteSize exact_float sample_case int_float (ByteSize_String (35 * 2 ^ 20)) = Ok (35 * 2 ^ 20).
Proof.
  apply (@bytesize_roundtrip exact_float sample_case int_float).
  - intros n Hn. unfold int_float. rewrite Itoa_value by lia. reflexivity.
  - lia.
Defined.

Definition with_jitter (j : FloatValue) (c : Config) : Config :=
  let q := c_Queue c in
  mkConfig (c_Log c) (c_Database c) (c_Encryption c) (c_Storage c) (c_SMTP c)
    (mkQueue (qu_Workers q) (mkRetry (rt_MaxAttempts (qu_Retry q)) (rt_MaxAge (qu_Retry q)) (rt_Backoff (qu_Retry q)) j)
       (qu_LeaseDuration q) (qu_PollInterval q) (qu_DefaultRateLimitPerMin q) (qu_DefaultMaxConcurrent q) (qu_Retention q))
    (c_Upstream c) (c_Admin c) (c_Bootstrap c).

(** A jitter that is no number is neither below 0 nor above 1. *)
Lemma nan_jitter_is_accepted : Validate (with_jitter FNaN first_run) = [].
Proof. vm_compute. reflexivity. Qed.
