(* ===== verification/SmtpServer.v ===== *)
(** * The SMTP front end: start-up and certificates

    [internal/smtpsrv/server.go] ([New]) and [internal/smtpsrv/tls.go]: what the
    server is built from, how its certificate is kept current and what a generated
    one names. Loading a key pair, reading a file's modification time, generating
    a key and the package [crypto/x509] are parameters: what they return at that
    moment is an argument. *)

From stdpp Require Import base gmap strings list.
From Stdlib Require Import ZArith Lia.
From S2P Require Import Prelude GoStrings StoreModels Policy Config SmtpAuth SmtpSession ConnLimit.

Open Scope Z_scope.

(** ** Certificates *)

Definition reloadInterval : Z := 30 * Second.
Definition VersionTLS12 : Z := 771.
Definition VersionTLS13 : Z := 772.

Definition tlsVersion (v : string) : result string Z :=
  if bool_decide (v = "") || bool_decide (v = "1.2") then Ok VersionTLS12
  else if bool_decide (v = "1.3") then Ok VersionTLS13
  else Err "smtpsrv: unsupported TLS version; use 1.2 or 1.3".

Section Certificates.
Context {Cert : Type}.

Record certReloader := mkReloader { cr_cert : option Cert; cr_loadedAt : Z; cr_modTime : Z }.

Definition new_reloader : certReloader := mkReloader None 0 0.

(** [load]; [stat] is the certificate file's modification time, [loaded] what
    reading both files gives. *)
Definition reloader_load (now : Z) (stat : option Z) (loaded : result string Cert) (r : certReloader)
  : result string Cert * certReloader :=
  match cr_cert r with
  | Some cert =>
      if bool_decide (stat = Some (cr_modTime r)) then (Ok cert, mkReloader (Some cert) now (cr_modTime r))
      else match loaded with
      | Err _ => (Ok cert, mkReloader (Some cert) now (cr_modTime r))
      | Ok fresh => (Ok fresh, mkReloader (Some fresh) now (default (cr_modTime r) stat))
      end
  | None =>
      match loaded with
      | Err e => (Err ("smtpsrv: loading the TLS certificate: " +:+ e), r)
      | Ok fresh => (Ok fresh, mkReloader (Some fresh) now (default (cr_modTime r) stat))
      end
  end.

(** [get], at every handshake. *)
Definition reloader_get (now : Z) (stat : option Z) (loaded : result string Cert) (r : certReloader)
  : result string Cert * certReloader :=
  match cr_cert r with
  | Some cert => if now - cr_loadedAt r <? reloadInterval then (Ok cert, r) else reloader_load now stat loaded r
  | None => reloader_load now stat loaded r
  end.

Inductive CertSource := FromFiles (r : certReloader) | Generated (c : Cert).

Record TLSConfig := mkTLSConfig { tc_MinVersion : Z; tc_source : CertSource }.

(** [BuildTLSConfig]: [None] is a configuration without TLS. *)
Definition BuildTLSConfig (now : Z) (stat : option Z) (loaded generated : result string Cert) (cfg : TLS)
  : result string (option TLSConfig) :=
  match tlsVersion (tl_MinVersion cfg) with
  | Err e => Err e
  | Ok minVersion =>
      if filled (tl_CertFile cfg) && filled (tl_KeyFile cfg) then
        match reloader_load now stat loaded new_reloader with
        | (Err e, _) => Err e
        | (Ok _, r) => Ok (Some (mkTLSConfig minVersion (FromFiles r)))
        end
      else if tl_SelfSigned cfg then
        match generated with
        | Err e => Err e
        | Ok cert => Ok (Some (mkTLSConfig minVersion (Generated cert)))
        end
      else Ok None
  end.

(** *** A generated certificate *)

Definition selfSignedValidity : Z := 365 * 24 * Hour.

(** Package [net]: an address is its four or sixteen bytes. *)
Definition IPAddr : Type := list Z.
Definition v4_in_v6 : list Z := [0; 0; 0; 0; 0; 0; 0; 0; 0; 0; 255; 255].
Definition To4 (ip : IPAddr) : option IPAddr :=
  if (length ip =? 4)%nat then Some ip
  else if (length ip =? 16)%nat && bool_decide (take 12 ip = v4_in_v6) then Some (drop 12 ip) else None.
Definition IPv6loopback : IPAddr := [0; 0; 0; 0; 0; 0; 0; 0; 0; 0; 0; 0; 0; 0; 0; 1].
Definition IsLoopback (ip : IPAddr) : bool :=
  match To4 ip with Some ip4 => bool_decide (head ip4 = Some 127) | None => bool_decide (ip = IPv6loopback) end.

(** What [InterfaceAddrs] lists: networks, and addresses of other kinds. *)
Inductive InterfaceAddr := IfaceNet (ip : IPAddr) | OtherAddr.

(** [addrs]: what the call returned, [None] when it failed. *)
Definition localAddresses (addrs : option (list InterfaceAddr)) : list IPAddr :=
  [v4_in_v6 ++ [127; 0; 0; 1]; IPv6loopback]
  ++ omap (fun a => match a with IfaceNet ip => if IsLoopback ip then None else Some ip | OtherAddr => None end) (default [] addrs).

Record CertTemplate := mkCertTemplate {
  ct_SerialNumber : Z; ct_CommonName : string; ct_Organization : list string; ct_NotBefore : Z; ct_NotAfter : Z;
  ct_DigitalSignature : bool; ct_KeyEncipherment : bool; ct_ServerAuth : bool; ct_DNSNames : list string; ct_IPAddresses : list IPAddr
}.

Record Generated_Certificate (Key Leaf : Type) := mkGenerated { gc_der : string; gc_key : Key; gc_leaf : Leaf }.
Arguments mkGenerated {Key Leaf}.
Arguments gc_der {Key Leaf}.
Arguments gc_key {Key Leaf}.
Arguments gc_leaf {Key Leaf}.

Definition certificate_names (hostname : string) : list string :=
  "localhost" :: (if filled hostname && negb (bool_decide (hostname = "localhost")) then [hostname] else []).

Definition self_signed_template (now serial : Z) (hostname : string) (addrs : option (list InterfaceAddr)) : CertTemplate :=
  mkCertTemplate serial "localhost" ["smtp-auth-proxy self-signed"] (now - Hour) (now + selfSignedValidity) true true true
    (certificate_names hostname) (localAddresses addrs).

(** [key], [serial], [hostname] and [addrs] are what the calls returned; the
    certificate is made and read by package [crypto/x509]. *)
Definition generateSelfSigned {Key Leaf} (CreateCertificate : CertTemplate -> Key -> result string string)
    (ParseCertificate : string -> result string Leaf) (now : Z) (key : result string Key) (serial : result string Z) (hostname : string)
    (addrs : option (list InterfaceAddr)) : result string (Generated_Certificate Key Leaf) :=
  match key with
  | Err e => Err ("smtpsrv: generating a key: " +:+ e)
  | Ok key =>
      match serial with
      | Err e => Err ("smtpsrv: generating a serial number: " +:+ e)
      | Ok serial =>
          match CreateCertificate (self_signed_template now serial hostname addrs) key with
          | Err e => Err ("smtpsrv: creating a self-signed certificate: " +:+ e)
          | Ok der =>
              match ParseCertificate der with
              | Err e => Err ("smtpsrv: parsing the generated certificate: " +:+ e)
              | Ok leaf => Ok (mkGenerated der key leaf)
              end
          end
      end
  end.

(** ** Building the server *)

Record ServerOptions := mkServerOptions {
  so_Hostname : string;
  so_Listeners : list Listener;
  so_TLSConfig : option TLSConfig;
  so_MaxMessageBytes : Z;
  so_MaxRecipients : Z;
  so_MaxConnections : Z;
  so_MaxConnectionsPerIP : Z;
  so_MaxAuthFailures : Z;
  so_ReadTimeout : Z;
  so_WriteTimeout : Z;
  so_AuthTimeout : Z;
  so_SubmitTimeout : Z;
  so_AllowInsecureAuth : bool;
  so_RecordSubjects : bool;
  so_ProxyProtocol : ProxyProtocol;
  so_Auth : bool;                  (* an Authenticator was given *)
  so_Submitter : bool              (* a Submitter was given *)
}.

Definition orDefault (v fallback : Z) : Z := if v <=? 0 then fallback else v.

(** A listener with the settings of its library server; [None] is no TLS. *)
Record BoundListener := mkBoundListener {
  bl_cfg : Listener; bl_TLS : option TLSConfig; bl_MaxMessageBytes : Z; bl_MaxRecipients : Z;
  bl_ReadTimeout : Z; bl_WriteTimeout : Z; bl_AllowInsecureAuth : bool
}.

Definition newSMTPServer (opts : ServerOptions) (cfg : Listener) : BoundListener :=
  mkBoundListener cfg (if negb (bool_decide (ls_TLS cfg = TLSNone)) then so_TLSConfig opts else None)
    (so_MaxMessageBytes opts) (so_MaxRecipients opts) (so_ReadTimeout opts) (so_WriteTimeout opts) (so_AllowInsecureAuth opts).

(** The listener loop of [New]: whether any requires TLS, or the listener that
    has no certificate. *)
Fixpoint check_listeners (hasTLS : bool) (requireTLS : bool) (ls : list Listener) : result string bool :=
  match ls with
  | [] => Ok requireTLS
  | l :: ls =>
      let requireTLS := requireTLS || ls_RequireTLS l in
      if negb (bool_decide (ls_TLS l = TLSNone)) && negb hasTLS
      then Err ("smtpsrv: listener " +:+ ls_Address l +:+ " uses TLS but no certificate was provided")
      else check_listeners hasTLS requireTLS ls
  end.

Record BuiltServer := mkBuilt {
  bd_server : Server;
  bd_authTimeout : Z;
  bd_submitTimeout : Z;
  bd_limiter : connLimiter;
  bd_proxyProtocol : ProxyProtocol;
  bd_listeners : list BoundListener
}.

Definition smtpsrv_New (userAgent : string) (opts : ServerOptions) : result string BuiltServer :=
  if negb (so_Auth opts) then Err "smtpsrv: an Authenticator is required"
  else if negb (so_Submitter opts) then Err "smtpsrv: a Submitter is required"
  else if bool_decide (length (so_Listeners opts) = 0%nat) then Err "smtpsrv: at least one listener is required"
  else match check_listeners (bool_decide (is_Some (so_TLSConfig opts))) false (so_Listeners opts) with
  | Err e => Err e
  | Ok requireTLS =>
      Ok (mkBuilt (mkServer (so_Hostname opts) userAgent (so_AllowInsecureAuth opts) requireTLS (so_MaxAuthFailures opts)
                     (so_MaxRecipients opts) (so_MaxMessageBytes opts) (so_RecordSubjects opts))
            (orDefault (so_AuthTimeout opts) (10 * Second)) (orDefault (so_SubmitTimeout opts) (30 * Second))
            (newConnLimiter (so_MaxConnectionsPerIP opts) (so_MaxConnections opts)) (so_ProxyProtocol opts)
            (List.map (newSMTPServer opts) (so_Listeners opts)))
  end.
End Certificates.
Arguments certReloader : clear implicits.
Arguments TLSConfig : clear implicits.
Arguments ServerOptions : clear implicits.
Arguments BuiltServer : clear implicits.

(** ** Lemmas *)

Lemma check_listeners_spec hasTLS req ls :
  match check_listeners hasTLS req ls with
  | Ok r => r = req || existsb ls_RequireTLS ls
  | Err _ => hasTLS = false /\ needsCert ls = true
  end.
Proof.
  revert req. induction ls as [|l ls IH]; intros req; simpl; [by rewrite orb_false_r|].
  destruct (negb (bool_decide (ls_TLS l = TLSNone)) && negb hasTLS) eqn:Hb.
  - apply andb_true_iff in Hb as [H1 H2]. rewrite H1. by destruct hasTLS.
  - specialize (IH (req || ls_RequireTLS l)). destruct (check_listeners _ _ ls); [by rewrite IH, orb_assoc|].
    destruct IH as [-> Hn]. split; [done|]. unfold needsCert in Hn |- *. simpl. by rewrite Hn, orb_true_r.
Qed.

(** ** Certificates are never lost *)

Section Reloading.
Context {Cert : Type}.

(** A handshake: when, and what the disk holds then. *)
Definition Handshake : Type := Z * option Z * result string Cert.

Definition handshake (h : Handshake) (r : certReloader Cert) : result string Cert * certReloader Cert :=
  let '(now, stat, loaded) := h in reloader_get now stat loaded r.

(** What the clients of a series of handshakes are served. *)
Fixpoint served (hs : list Handshake) (r : certReloader Cert) : list (result string Cert) * certReloader Cert :=
  match hs with
  | [] => ([], r)
  | h :: hs => let '(c, r) := handshake h r in let '(cs, r) := served hs r in (c :: cs, r)
  end.

Lemma reloader_get_spec now stat (loaded : result string Cert) (r : certReloader Cert) cert res r' :
  cr_cert r = Some cert -> reloader_get now stat loaded r = (res, r') ->
  exists c, res = Ok c /\ cr_cert r' = Some c /\ (c = cert \/ loaded = Ok c).
Proof.
  intros Hc. unfold reloader_get, reloader_load. rewrite Hc. destruct (_ <? _); [intros [= <- <-]; eauto|].
  case_bool_decide; [intros [= <- <-]; eauto|]. destruct loaded; intros [= <- <-]; eauto.
Qed.

(** a certificate that was loaded once is never lost. However the files
    change afterwards, be they missing, half written or mismatched, every
    handshake is served a certificate: the one served before or the pair on
    disk at that moment. *)
Theorem certificate_survives_renewal (hs : list Handshake) (r : certReloader Cert) cert :
  cr_cert r = Some cert ->
  Forall (fun res => exists c, res = Ok c /\ (c = cert \/ exists h, h ∈ hs /\ h.2 = Ok c)) (served hs r).1.
Proof.
  assert (forall (hs : list Handshake) (r : certReloader Cert) cert, cr_cert r = Some cert ->
    Forall (fun res => exists c, res = Ok c /\ (c = cert \/ exists h, h ∈ hs /\ h.2 = Ok c)) (served hs r).1) as Hgo; [|apply Hgo].
  clear. induction hs as [|[[now stat] loaded] hs IH]; intros r cert Hr; [constructor|]. simpl.
  destruct (reloader_get now stat loaded r) as [res r'] eqn:Hg.
  destruct (reloader_get_spec _ _ _ _ _ _ _ Hr Hg) as (c & -> & Hc & Hw). specialize (IH r' c Hc).
  destruct (served hs r') as [cs r'']. simpl in *. constructor.
  - exists c. split; [done|]. destruct Hw as [->|Hw]; [by left|]. right. exists (now, stat, loaded). split; [left|done].
  - eapply Forall_impl; [exact IH|]. intros res (c' & -> & [->|(h & Hh & Hp)]); eexists; (split; [done|]).
    + destruct Hw as [->|Hw]; [by left|]. right. exists (now, stat, loaded). split; [left|done].
    + right. exists h. split; [by right|done].
Qed.

(** A renewed pair is served once the interval is over; within it, the old
    certificate is served whatever is on disk. *)
Lemma renewed_certificate_served now mod_ (fresh : Cert) (r : certReloader Cert) cert :
  cr_cert r = Some cert -> mod_ <> cr_modTime r ->
  (reloader_get now (Some mod_) (Ok fresh) r).1 = Ok (if now - cr_loadedAt r <? reloadInterval then cert else fresh).
Proof.
  intros Hc Hm. unfold reloader_get, reloader_load. rewrite Hc. destruct (_ <? _); [done|].
  by rewrite bool_decide_eq_false_2 by congruence.
Qed.
End Reloading.

Lemma certificate_survives_renewal_witness :
  (served [(40 * Second, None, Err "no such file"); (80 * Second, Some 9, Ok "new")] (mkReloader (Some "old") 0 5)).1 = [Ok "old"; Ok "new"] /\
  Forall (fun res : result string string => exists c, res = Ok c /\ (c = "old" \/ exists h : Handshake, h ∈ [(40 * Second, None, Err "no such file"); (80 * Second, Some 9, Ok "new")] /\ h.2 = Ok c))
    (served [(40 * Second, None, Err "no such file"); (80 * Second, Some 9, Ok "new")] (mkReloader (Some "old") 0 5)).1.
Proof. split; [vm_compute; reflexivity|]. apply certificate_survives_renewal. reflexivity. Defined.

(** [RequireTLS] of one listener binds them all: next to a submission port that
    requires TLS, a plain listener refuses every sender. *)
Lemma require_tls_reaches_plain_listener {Cert} (opts : ServerOptions Cert) ua built l plain `{UnicodeCase} `{NetMail} `{GoFmt} from s id :
  smtpsrv_New ua opts = Ok built -> l ∈ so_Listeners opts -> ls_RequireTLS l = true ->
  plain ∈ so_Listeners opts -> ls_RequireTLS plain = false -> ss_identity s = Some id ->
  (Mail (bd_server built) false from s).1 = Err (SMTPError 530 (5, 7, 0) "Must issue a STARTTLS command first").
Proof.
  unfold smtpsrv_New. do 3 (destruct (negb _) || case_bool_decide; [done|]). intros Hb Hl Hr _ _ Hid.
  pose proof (check_listeners_spec (bool_decide (is_Some (so_TLSConfig opts))) false (so_Listeners opts)) as Hc.
  destruct (check_listeners _ _ _) as [req|]; [|done]. injection Hb as <-. unfold Mail. rewrite Hid. simpl.
  assert (existsb ls_RequireTLS (so_Listeners opts) = true) as He by (apply existsb_exists; exists l; by rewrite <-list_elem_of_In).
  by rewrite Hc, He.
Qed.

(** ** The generated certificate *)

(** A client that reaches the host by any of its names or addresses, the moment
    the certificate is made, finds them in it; and it names nothing else. *)
Theorem self_signed_covers_the_host now serial hostname addrs :
  let c := self_signed_template now serial hostname addrs in
  ct_NotBefore c <= now <= ct_NotAfter c
  /\ (forall n, n ∈ ct_DNSNames c <-> n = "localhost" \/ (n = hostname /\ n <> ""))
  /\ NoDup (ct_DNSNames c)
  /\ (forall ip, IfaceNet ip ∈ default [] addrs -> ip ∈ ct_IPAddresses c \/ IsLoopback ip = true)
  /\ (forall ip, ip ∈ ct_IPAddresses c -> IsLoopback ip = true \/ IfaceNet ip ∈ default [] addrs).
Proof.
  unfold self_signed_template, certificate_names, filled. cbn [ct_NotBefore ct_NotAfter ct_DNSNames ct_IPAddresses]. split_and!.
  - unfold Hour, Minute, Second. lia.
  - unfold selfSignedValidity, Hour, Minute, Second. lia.
  - intros n. repeat case_bool_decide; simpl; rewrite ?elem_of_cons, ?list_elem_of_singleton, ?elem_of_nil; naive_solver.
  - repeat case_bool_decide; simpl; repeat constructor; rewrite ?elem_of_cons, ?elem_of_nil; naive_solver.
  - intros ip Hip. destruct (IsLoopback ip) eqn:E; [by right|]. left. unfold localAddresses. rewrite elem_of_app. right.
    apply list_elem_of_omap. exists (IfaceNet ip). by rewrite E.
  - intros ip. unfold localAddresses. rewrite elem_of_app. intros [Hip|Hip].
    + left. apply elem_of_cons in Hip as [->|Hip]; [done|]. apply list_elem_of_singleton in Hip as ->. done.
    + apply list_elem_of_omap in Hip as ([ip'|] & Hin & He); [|done]. right. destruct (IsLoopback ip'); [done|]. by injection He as ->.
Qed.
