(* ===== verification/App.v ===== *)
(** * Assembling the proxy

    [internal/app/app.go] and [upstreamtls.go]: how the settings of a validated
    configuration become the settings of the components, in which order the
    parts are built, and how they run and stop together. What a part outside
    this development returns when it is built (the transports' constructors,
    the discovery of an identity provider, the admin server) is an argument. *)

From stdpp Require Import base gmap strings list.
From Stdlib Require Import ZArith QArith Lia.
From S2P Require Import Prelude GoStrings StoreModels GoFloat Backoff RateLimit Transport Worker Policy SmtpAuth SmtpSession ConnLimit AdminStore AdminAuth.
From S2P Require Import Keyring Sql Config ConfigProps SmtpServer.

Open Scope Z_scope.

(** ** Settings *)

Definition cookieSecure (c : Config) : bool :=
  let s := ss_CookieSecure (ad_Session (c_Admin c)) in
  if bool_decide (s = "true") then true
  else if bool_decide (s = "false") then false
  else HasPrefix (ad_BaseURL (c_Admin c)) "https://" || filled (at_CertFile (ad_TLS (c_Admin c))).

Definition session_config (c : Config) : SessionConfig :=
  NewSessionManager (mkSessionConfig (ss_Lifetime (ad_Session (c_Admin c))) (Config.ss_IdleTimeout (ad_Session (c_Admin c)))).

Definition local_config (c : Config) : option LocalConfig :=
  if la_Enabled (ad_Local (c_Admin c))
  then Some (mkLocalConfig true (lk_Threshold (la_Lockout (ad_Local (c_Admin c)))) (lk_Duration (la_Lockout (ad_Local (c_Admin c)))))
  else None.

Definition oidc_config (c : Config) : option OIDCConfig :=
  let o := ad_OIDC (c_Admin c) in
  if oi_Enabled o
  then Some (mkOIDCConfig (oi_UsernameClaim o) (oi_RoleClaim o) (oi_RoleMappings o) (oi_DefaultRole o) (oi_AllowSignup o))
  else None.

Definition store_options (c : Config) : Sql.Options :=
  let d := c_Database c in
  Sql.mkOptions (db_Driver d) (db_DSN d) (db_MaxOpenConns d) (db_MaxIdleConns d) (db_ConnMaxLifetime d).

(** [upstreamTLSConfig]: [None] when nothing is customised. [pem] is what the
    file holds, [usable] whether a certificate was found in it. *)
Record ClientTLS := mkClientTLS { ct_InsecureSkipVerify : bool; ct_RootCAs : option string }.

Definition upstreamTLSConfig (readFile : string -> result string string) (usable : string -> bool) (cfg : UpstreamTLS)
  : result string (option ClientTLS) :=
  if negb (filled (ut_CAFile cfg)) && negb (ut_InsecureSkipVerify cfg) then Ok None
  else if negb (filled (ut_CAFile cfg)) then Ok (Some (mkClientTLS (ut_InsecureSkipVerify cfg) None))
  else match readFile (ut_CAFile cfg) with
  | Err e => Err ("app: reading upstream.tls.ca_file: " +:+ e)
  | Ok pem =>
      if usable pem then Ok (Some (mkClientTLS (ut_InsecureSkipVerify cfg) (Some pem)))
      else Err ("app: upstream.tls.ca_file (" +:+ ut_CAFile cfg +:+ ") contains no usable certificates")
  end.

Section Building.
Context {Cert : Type}.

(** [buildSMTPServer], after its TLS settings. *)
Definition server_options (c : Config) (tls : option (TLSConfig Cert)) : ServerOptions Cert :=
  let s := c_SMTP c in
  mkServerOptions (sm_Hostname s) (sm_Listeners s) tls (st_MaxMessageSize (c_Storage c)) (sm_MaxRecipients s)
    (sm_MaxConnections s) (sm_MaxConnectionsPerIP s) (sm_MaxAuthFailures s) (sm_ReadTimeout s) (sm_WriteTimeout s)
    0 0 (sm_AllowInsecureAuth s) (lg_IncludeSubjects (c_Log c)) (sm_ProxyProtocol s) true true.

Definition buildSMTPServer (userAgent : string) (now : Z) (stat : option Z) (loaded generated : result string Cert) (c : Config)
  : result string (BuiltServer Cert) :=
  match BuildTLSConfig now stat loaded generated (sm_TLS (c_SMTP c)) with
  | Err e => Err e
  | Ok tls => smtpsrv_New userAgent (server_options c tls)
  end.
End Building.

(** The options of the delivery workers; a jitter that is no number has none. *)
Definition runner_options (c : Config) (relay graph : Backend) (workerID : string) : option Worker.Options :=
  let q := c_Queue c in
  match rt_Jitter (qu_Retry q) with
  | FNum jitter =>
      Some (Worker.mkOptions true [(TransportSMTP, relay); (TransportGraph, graph)] (qu_Workers q) (qu_PollInterval q) (qu_LeaseDuration q)
              (mkBackoff (rt_Backoff (qu_Retry q)) jitter (rt_MaxAttempts (qu_Retry q)) (rt_MaxAge (qu_Retry q)))
              (mkBudget (qu_DefaultRateLimitPerMin q) (qu_DefaultMaxConcurrent q))
              (rn_Sent (qu_Retention q)) (rn_Failed (qu_Retention q)) (rn_PurgeInterval (qu_Retention q)) workerID)
  | _ => None
  end.

(** [workerID] *)
Definition workerID (hostname : option string) (newID : string) : string :=
  let host := match hostname with Some h => if bool_decide (h = "") then "worker" else h | None => "worker" end in
  host +:+ "-" +:+ newID.

(** ** Starting *)

(** What happens to the database while the application is built. *)
Inductive StartEvent := Opened | MigrationsRan (n : nat) | BootstrapApplied | Built (part : string) | DatabaseClosed.

#[export] Instance StartEvent_eq_dec : EqDecision StartEvent.
Proof. solve_decision. Defined.

(** The outcome of every fallible step. *)
Record Steps := mkSteps {
  sp_keyring : option string;
  sp_open : option string;
  sp_migrate : result string nat;
  sp_bootstrap : option string;
  sp_tokens : option string;
  sp_smtp : option string;
  sp_queue : option string;
  sp_admin : option string
}.

Definition part (name : string) (outcome : option string) : result string StartEvent :=
  match outcome with None => Ok (Built name) | Some e => Err e end.

(** The steps after the database is open, in their order. *)
Definition start_steps (c : Config) (s : Steps) : list (result string StartEvent) :=
  (if db_AutoMigrate (c_Database c) then [match sp_migrate s with Ok n => Ok (MigrationsRan n) | Err e => Err e end] else [])
  ++ (if negb (bool_decide (bs_Mode (c_Bootstrap c) = BootstrapOff))
      then [match sp_bootstrap s with None => Ok BootstrapApplied | Some e => Err e end] else [])
  ++ [part "tokens" (sp_tokens s); part "smtp" (sp_smtp s); part "queue" (sp_queue s); part "admin" (sp_admin s)].

(** The first failure closes the database and is returned. *)
Fixpoint run_steps (steps : list (result string StartEvent)) : option string * list StartEvent :=
  match steps with
  | [] => (None, [])
  | Err e :: _ => (Some e, [DatabaseClosed])
  | Ok ev :: steps => let '(err, evs) := run_steps steps in (err, ev :: evs)
  end.

Definition app_New (c : Config) (s : Steps) : option string * list StartEvent :=
  match sp_keyring s with
  | Some e => (Some ("app: " +:+ e), [])
  | None =>
      match sp_open s with
      | Some e => (Some e, [])
      | None => let '(err, evs) := run_steps (start_steps c s) in (err, Opened :: evs)
      end
  end.

(** ** Running *)

Inductive Part := PartSMTP | PartQueue | PartAdmin.

#[export] Instance Part_eq_dec : EqDecision Part.
Proof. solve_decision. Defined.

(** The goroutines that still run, whether the context is cancelled, and the
    first error recorded. *)
Record RunState := mkRun { rs_running : list Part; rs_cancelled : bool; rs_first : option string }.

Definition run_start : RunState := mkRun [PartSMTP; PartQueue; PartAdmin] false None.

Definition record_error (first err : option string) : option string := match first with Some e => Some e | None => err end.

(** A part returns, by itself or because the context is done; or the caller's
    context ends. *)
Inductive run_step : RunState -> RunState -> Prop :=
| part_returns st p err :
    p ∈ rs_running st ->
    run_step st (mkRun (List.filter (fun x => negb (bool_decide (x = p))) (rs_running st)) true (record_error (rs_first st) err))
| caller_done st : run_step st (mkRun (rs_running st) true (rs_first st)).

Inductive run_steps_to (st : RunState) : RunState -> Prop :=
| run_refl : run_steps_to st st
| run_next st1 st2 : run_steps_to st st1 -> run_step st1 st2 -> run_steps_to st st2.

(** [Run] returns once the context is done and every part has returned. *)
Definition returned (st : RunState) : bool := rs_cancelled st && bool_decide (rs_running st = []).

Section Settings.
Context `{NI : NetIP} `{NU : NetURL} {Cert : Type}.

Lemma tlsVersion_ok v : v ∈ validTLSVersions -> exists n, tlsVersion v = Ok n.
Proof. unfold validTLSVersions. rewrite !elem_of_cons, elem_of_nil. intros [->|[->|[]]]; by eexists. Qed.

(** With readable certificates, the SMTP server of a validated configuration
    can be built. *)
Lemma server_builds c ua now stat (cert gen : Cert) :
  smtp_ok c -> exists built, buildSMTPServer ua now stat (Ok cert) (Ok gen) c = Ok built /\
    bd_limiter built = newConnLimiter (sm_MaxConnectionsPerIP (c_SMTP c)) (sm_MaxConnections (c_SMTP c)) /\
    sv_maxRecipients (bd_server built) = sm_MaxRecipients (c_SMTP c) /\
    sv_maxMessageBytes (bd_server built) = st_MaxMessageSize (c_Storage c) /\
    Forall (fun l => ls_TLS (bl_cfg l) <> TLSNone -> is_Some (bl_TLS l)) (bd_listeners built).
Proof.
  intros Hok. unfold buildSMTPServer, BuildTLSConfig. destruct (tlsVersion_ok _ (sk_version _ Hok)) as [v Hv]. rewrite Hv.
  set (t := sm_TLS (c_SMTP c)) in *.
  assert (exists tls, (if filled (tl_CertFile t) && filled (tl_KeyFile t)
     then match reloader_load now stat (Ok cert) new_reloader with (Ok _, r) => Ok (Some (mkTLSConfig v (FromFiles r))) | (Err e, _) => Err e end
     else if tl_SelfSigned t then Ok (Some (mkTLSConfig v (Generated gen))) else Ok None) = @Ok string _ tls /\
     (needsCert (sm_Listeners (c_SMTP c)) = true -> is_Some tls)) as (tls & -> & Htls).
  { destruct (filled (tl_CertFile t) && filled (tl_KeyFile t)) eqn:Hf; [simpl; eauto|].
    destruct (tl_SelfSigned t) eqn:Hs; [eauto|]. exists None. split; [done|]. intros Hn.
    destruct (sk_cert _ Hok Hn) as [[H1 H2]|H1]; fold t in H1; [|congruence]. fold t in H2.
    apply filled_true in H1, H2. by rewrite H1, H2 in Hf. }
  unfold smtpsrv_New. simpl. rewrite bool_decide_eq_false_2 by (intros H%length_zero_iff_nil; by apply (sk_listeners _ Hok)).
  pose proof (check_listeners_spec (bool_decide (is_Some tls)) false (sm_Listeners (c_SMTP c))) as Hc.
  destruct (check_listeners _ _ _) as [req|e].
  - eexists. split; [done|]. split_and!; try done. simpl. apply Forall_forall. intros l (x & <- & Hx%list_elem_of_In)%list_elem_of_In%in_map_iff Hl.
    simpl in *. rewrite bool_decide_eq_false_2 by done. simpl. apply Htls. apply existsb_exists. exists x.
    split; [by apply list_elem_of_In|]. by apply negb_true_iff, bool_decide_eq_false_2.
  - destruct Hc as [Hc1 Hc2]. apply bool_decide_eq_false in Hc1. by destruct Hc1; apply Htls.
Qed.

(** no setting is silently replaced. Every component has defaults of its
    own for values that make no sense to it; for a validated configuration none
    of them applies: the workers, the limiter, the sessions and the SMTP server
    run with exactly the values of the file, its connection limits are in force
    and every listener that offers TLS has a certificate. *)
Theorem validated_settings_take_effect c relay graph id newID ua now stat (cert gen : Cert) :
  Validate c = [] -> id <> "" ->
  (forall o, runner_options c relay graph id = Some o -> Worker.New newID o = Ok o /\
     o_LeaseDuration o > up_Timeout (c_Upstream c) /\ l_defaults (NewLimiter (o_Budget o)) = o_Budget o /\
     clampJitter (Jitter (o_Backoff o)) = Jitter (o_Backoff o)) /\
  session_config c = mkSessionConfig (ss_Lifetime (ad_Session (c_Admin c))) (ss_IdleTimeout (ad_Session (c_Admin c))) /\
  (exists built, buildSMTPServer ua now stat (Ok cert) (Ok gen) c = Ok built /\
     0 < cl_maxIP (bd_limiter built) /\ 0 < cl_maxAll (bd_limiter built) /\
     Forall (fun l => ls_TLS (bl_cfg l) <> TLSNone -> is_Some (bl_TLS l)) (bd_listeners built)).
Proof.
  intros (Hq & Hs & Ha)%validated_ok Hid. split_and!.
  - intros o Ho. unfold runner_options in Ho. destruct (rt_Jitter _) as [j| |] eqn:Hj in Ho; [|done..]. injection Ho as <-.
    destruct Hq as [Hw Hp Hpu Hl Hr Hc _ _ Hjit]. rewrite Hj in Hjit. unfold Worker.New. simpl.
    rewrite (proj2 (Z.leb_gt (qu_Workers _) 0)), (proj2 (Z.leb_gt (qu_PollInterval _) 0)), (proj2 (Z.leb_gt (qu_LeaseDuration _) 0)),
      (proj2 (Z.leb_gt (rn_PurgeInterval _) 0)) by lia. rewrite (bool_decide_eq_false_2 (id = "")) by done.
    split_and!; [done|lia| |].
    + unfold clamp. simpl. unfold ExchangeMessagesPerMinute, ExchangeConcurrentConnections. rewrite !Z.gtb_ltb.
      rewrite (proj2 (Z.leb_gt (qu_DefaultRateLimitPerMin _) 0)), (proj2 (Z.ltb_ge 30 _)), (proj2 (Z.leb_gt (qu_DefaultMaxConcurrent _) 0)),
        (proj2 (Z.ltb_ge 3 _)) by lia. done.
    + unfold clampJitter. assert (Qlt_b j 0 = false) as ->; [|assert (Qlt_b 1 j = false) as ->; [|done]];
        apply not_true_iff_false; rewrite Qlt_b_spec; apply Qle_not_lt; tauto.
  - unfold session_config, NewSessionManager. simpl. destruct (ak_session _ Ha). by rewrite (proj2 (Z.leb_gt _ 0)) by lia.
  - destruct (server_builds c ua now stat cert gen Hs) as (built & Hb & Hl & _ & _ & Hf). exists built.
    destruct (sk_limits _ Hs) as (_ & ? & ? & _). rewrite Hl. by split_and!.
Qed.
End Settings.

(** ** Starting *)

Lemma run_steps_spec steps err evs :
  Ok DatabaseClosed ∉ steps -> run_steps steps = (err, evs) ->
  (err = None /\ steps = Ok <$> evs /\ DatabaseClosed ∉ evs) \/
  (exists e mid rest, err = Some e /\ steps = (Ok <$> mid) ++ Err e :: rest /\ evs = mid ++ [DatabaseClosed] /\ DatabaseClosed ∉ mid).
Proof.
  revert err evs. induction steps as [|[ev|e] steps IH]; intros err evs Hno; simpl.
  - intros [= <- <-]. left. split_and!; [done..|]. apply not_elem_of_nil.
  - destruct (run_steps steps) as [err' evs'] eqn:Hr. intros [= <- <-]. rewrite not_elem_of_cons in Hno. destruct Hno as [Hne Hno].
    assert (DatabaseClosed <> ev) by (intros <-; done).
    destruct (IH _ _ Hno eq_refl) as [(-> & -> & Hn)|(e & mid & rest & -> & -> & -> & Hn)].
    + left. split_and!; [done..|]. by apply not_elem_of_cons.
    + right. exists e, (ev :: mid), rest. split_and!; [done..|]. by apply not_elem_of_cons.
  - intros [= <- <-]. right. exists e, [], steps. split_and!; [done..|]. apply not_elem_of_nil.
Qed.

Definition parts : list StartEvent := [Built "tokens"; Built "smtp"; Built "queue"; Built "admin"].

(** a proxy that fails to start leaves no database open, and one that
    starts has done everything in order. On success the database was migrated
    when that is configured, then the bootstrap file was applied, then all four
    parts were built, and the database is open; on failure either it was never
    opened or closing it is the last thing that happens. *)
Theorem startup_is_clean c s :
  let '(err, evs) := app_New c s in
  match err with
  | None => exists n, evs = Opened :: (if db_AutoMigrate (c_Database c) then [MigrationsRan n] else [])
      ++ (if bool_decide (bs_Mode (c_Bootstrap c) = BootstrapOff) then [] else [BootstrapApplied]) ++ parts
  | Some _ => evs = [] \/ exists mid, evs = Opened :: mid ++ [DatabaseClosed] /\ DatabaseClosed ∉ mid
  end.
Proof.
  unfold app_New. destruct (sp_keyring s); [by left|]. destruct (sp_open s); [by left|].
  destruct (run_steps (start_steps c s)) as [err evs] eqn:Hr. apply run_steps_spec in Hr as [(-> & Hs & _)|(e & mid & rest & -> & _ & -> & Hn)].
  - unfold start_steps, part in Hs. exists (match sp_migrate s with Ok n => n | Err _ => 0%nat end).
    destruct (db_AutoMigrate _), (sp_migrate s), (bool_decide _), (sp_bootstrap s), (sp_tokens s), (sp_smtp s), (sp_queue s), (sp_admin s);
      simpl in Hs; repeat (destruct evs as [|? evs]; simplify_eq/=; try done).
  - right. by exists mid.
  - unfold start_steps, part. destruct (db_AutoMigrate _), (sp_migrate s), (bool_decide _), (sp_bootstrap s), (sp_tokens s), (sp_smtp s), (sp_queue s), (sp_admin s);
      simpl; rewrite ?elem_of_cons, elem_of_nil; naive_solver.
Qed.

(** ** Running *)

Lemma run_step_inv st st' : run_step st st' -> rs_cancelled st' = true.
Proof. by destruct 1. Qed.

(** the parts stop together. As soon as one of the three parts of a
    running proxy has returned, with an error or without, the context of all is
    cancelled; the error of [Run] is that of the first part that failed, which
    later ones never replace. *)
Theorem parts_stop_together st st' :
  run_steps_to run_start st -> run_steps_to st st' ->
  (forall p, p ∉ rs_running st -> rs_cancelled st = true) /\
  (forall p, p ∈ rs_running st' -> p ∈ rs_running st) /\
  (forall e, rs_first st = Some e -> rs_first st' = Some e).
Proof.
  intros H1 H2. split_and!.
  - intros p Hp. destruct H1 as [|st1 st2 _ Hs]; [|by eapply run_step_inv]. destruct p; set_solver.
  - induction H2 as [|st1 st2 _ IH Hs]; [done|]. intros p Hp. apply IH. destruct Hs as [st1 q err _|st1]; simpl in Hp; [|done].
    apply list_elem_of_In, List.filter_In in Hp as [Hp _]. by apply list_elem_of_In.
  - induction H2 as [|st1 st2 _ IH Hs]; [done|]. intros e He. specialize (IH e He). destruct Hs as [st1 q err _|st1]; simpl; by rewrite IH.
Qed.

(** ** Witnesses *)

#[local] Instance any_net : NetIP := {| IP := string; IPNet := string; IP_String := id; ParseCIDR := fun s => Ok s; IPNet_Contains := fun _ _ => false |}.
#[local] Instance any_url : NetURL := {| url_Parse := fun s => Some (mkURL "https" s) |}.
Definition idle_backend : Backend := mkBackend "idle" (fun _ => None).

Lemma validated_settings_take_effect_witness :
  exists built, buildSMTPServer "ua" 0 None (Ok "cert") (Ok "generated") first_run = Ok built /\
    0 < cl_maxIP (bd_limiter built) /\ 0 < cl_maxAll (bd_limiter built) /\
    Forall (fun l => ls_TLS (bl_cfg l) <> TLSNone -> is_Some (bl_TLS l)) (bd_listeners built).
Proof.
  apply (validated_settings_take_effect first_run idle_backend idle_backend "w1" "w1" "ua" 0 None "cert" "generated").
  - vm_compute. reflexivity.
  - discriminate.
Defined.

Lemma parts_stop_together_witness :
  rs_cancelled (mkRun [PartSMTP; PartAdmin] true (Some "queue")) = true.
Proof.
  assert (run_steps_to run_start (mkRun [PartSMTP; PartAdmin] true (Some "queue"))) as H.
  { eapply run_next; [apply run_refl|]. apply (part_returns run_start PartQueue (Some "queue")). right. left. }
  apply (parts_stop_together (mkRun [PartSMTP; PartAdmin] true (Some "queue")) (mkRun [PartSMTP; PartAdmin] true (Some "queue")) H (run_refl _))
    with (p := PartQueue).
  simpl. intros Hin. rewrite !elem_of_cons, elem_of_nil in Hin. destruct Hin as [Hin|[Hin|[]]]; discriminate.
Defined.
