(* ===== verification/Bootstrap.v ===== *)
(** * The bootstrap file

    [internal/bootstrap/bootstrap.go]: the declarative file, its validation and
    its application to the store, one statement at a time. The k-th call on the
    store is given its failure [io k], its identifier [id k] and its clock
    [clock k]; a statement inside a transaction that fails makes the whole
    transaction fail. [seal] is [Keyring.EncryptString], [None] when no keys are
    configured. *)

From stdpp Require Import base gmap strings list.
From Stdlib Require Import ZArith Lia.
From S2P Require Import Prelude GoStrings StoreModels MessageStore Directory Policy AdminStore AuditLog Keyring.

Open Scope Z_scope.

(** ** The file *)

Record BCredential := mkBCredential {
  bc_Name : string; bc_TenantID : string; bc_ClientID : string; bc_AuthType : string; bc_ClientSecret : string;
  bc_CertificatePEM : string; bc_CertificateKeyPEM : string; bc_AuthorityHost : string
}.

Record BMailbox := mkBMailbox {
  bm_Address : string; bm_DisplayName : string; bm_Credential : string; bm_Transport : string;
  bm_RateLimitPerMin : Z; bm_MaxConcurrent : Z; bm_Disabled : bool
}.

Record BAccount := mkBAccount {
  ba_Username : string; ba_Description : string; ba_PasswordHash : string; ba_Mailboxes : list string;
  ba_DefaultMailbox : string; ba_AllowedSenders : list string; ba_FromPolicy : string; ba_AllowCIDRs : list string;
  ba_RateLimitPerMin : Z; ba_Disabled : bool
}.

Record File := mkFile { fl_Credentials : list BCredential; fl_Mailboxes : list BMailbox; fl_Accounts : list BAccount }.

Section Validation.
Context `{UC : UnicodeCase} `{NM : NetMail} `{GF : GoFmt}.

Definition problem_if (b : bool) (what : string) : list string := if b then [what] else [].

Definition empty_text (s : string) : bool := bool_decide (s = "").

Fixpoint validate_credentials (seen : list string) (cs : list BCredential) : list string :=
  match cs with
  | [] => []
  | c :: cs =>
      (if empty_text (bc_Name c) then ["name is required"]
       else problem_if (bool_decide (bc_Name c ∈ seen)) "the name is declared twice")
      ++ problem_if (empty_text (bc_TenantID c)) "tenant_id is required"
      ++ problem_if (empty_text (bc_ClientID c)) "client_id is required"
      ++ (if empty_text (bc_AuthType c) || bool_decide (bc_AuthType c = "secret")
          then problem_if (empty_text (bc_ClientSecret c)) "client_secret is required"
          else if bool_decide (bc_AuthType c = "certificate")
          then problem_if (empty_text (bc_CertificatePEM c) || empty_text (bc_CertificateKeyPEM c))
                 "certificate_pem and certificate_key_pem are required"
          else ["auth_type must be secret or certificate"])
      ++ validate_credentials (bc_Name c :: seen) cs
  end.

Fixpoint validate_mailboxes (seen : list string) (ms : list BMailbox) : list string :=
  match ms with
  | [] => []
  | m :: ms =>
      if empty_text (bm_Address m) then "address is required" :: validate_mailboxes seen ms
      else
        problem_if (bool_decide (ToLower (bm_Address m) ∈ seen)) "the address is declared twice"
        ++ problem_if (negb (is_ok (ParseAddress (bm_Address m)))) "is not a valid address"
        ++ problem_if (empty_text (bm_Credential m)) "credential is required"
        ++ problem_if (negb (bool_decide (bm_Transport m ∈ [""; "smtp"; "graph"]))) "transport must be smtp or graph"
        ++ problem_if (bm_RateLimitPerMin m >? 30) "rate_limit_per_min exceeds the 30/minute Exchange Online allows"
        ++ problem_if (bm_MaxConcurrent m >? 3) "max_concurrent exceeds the 3 connections Exchange Online allows"
        ++ validate_mailboxes (ToLower (bm_Address m) :: seen) ms
  end.

Fixpoint validate_accounts (seen : list string) (accs : list BAccount) : list string :=
  match accs with
  | [] => []
  | a :: accs =>
      if empty_text (ba_Username a) then "username is required" :: validate_accounts seen accs
      else
        problem_if (bool_decide (ba_Username a ∈ seen)) "the username is declared twice"
        ++ (if empty_text (ba_PasswordHash a) then ["password_hash is required"]
            else problem_if (negb (HasPrefix (ba_PasswordHash a) "$argon2id$")) "password_hash is not an Argon2id hash")
        ++ problem_if (negb (bool_decide (ba_FromPolicy a ∈ [""; "reject"; "rewrite"; "passthrough"])))
             "from_policy must be reject, rewrite or passthrough"
        ++ concat (List.map (fun p => problem_if (negb (is_ok (ValidatePattern p))) "pattern") (ba_AllowedSenders a))
        ++ problem_if (negb (empty_text (ba_DefaultMailbox a)) && negb (bool_decide (length (ba_Mailboxes a) = 0%nat))
                       && negb (existsb (fun m => EqualFold m (ba_DefaultMailbox a)) (ba_Mailboxes a)))
             "default_mailbox is not in this account's mailboxes list"
        ++ validate_accounts (ba_Username a :: seen) accs
  end.

(** [File.validate] *)
Definition validate (f : File) : list string :=
  validate_credentials [] (fl_Credentials f) ++ validate_mailboxes [] (fl_Mailboxes f) ++ validate_accounts [] (fl_Accounts f).
End Validation.

(** ** Applying *)

Inductive BootError := BootStore (e : StoreError) | BootMissing (what name : string) | BootSeal (what : string) | BootNoKeys.

Record Result := mkResult { rs_Created : Z; rs_Updated : Z; rs_Skipped : Z }.

(** The store, the identifiers found so far, the counts, and how many calls
    were made. *)
Record BState := mkBState {
  b_db : DB; b_log : AuditLog; b_credentialIDs : gmap string string; b_mailboxIDs : gmap string string;
  b_result : Result; b_calls : nat
}.

Definition set_b_db (db : DB) (s : BState) : BState :=
  mkBState db (b_log s) (b_credentialIDs s) (b_mailboxIDs s) (b_result s) (b_calls s).
Definition set_b_log (l : AuditLog) (s : BState) : BState :=
  mkBState (b_db s) l (b_credentialIDs s) (b_mailboxIDs s) (b_result s) (b_calls s).
Definition set_b_credentialIDs (m : gmap string string) (s : BState) : BState :=
  mkBState (b_db s) (b_log s) m (b_mailboxIDs s) (b_result s) (b_calls s).
Definition set_b_mailboxIDs (m : gmap string string) (s : BState) : BState :=
  mkBState (b_db s) (b_log s) (b_credentialIDs s) m (b_result s) (b_calls s).
Definition set_b_result (r : Result) (s : BState) : BState :=
  mkBState (b_db s) (b_log s) (b_credentialIDs s) (b_mailboxIDs s) r (b_calls s).
Definition count_call (s : BState) : BState :=
  mkBState (b_db s) (b_log s) (b_credentialIDs s) (b_mailboxIDs s) (b_result s) (S (b_calls s)).

Definition created (s : BState) : BState :=
  set_b_result (mkResult (rs_Created (b_result s) + 1) (rs_Updated (b_result s)) (rs_Skipped (b_result s))) s.
Definition updated (s : BState) : BState :=
  set_b_result (mkResult (rs_Created (b_result s)) (rs_Updated (b_result s) + 1) (rs_Skipped (b_result s))) s.
Definition skip (s : BState) : BState :=
  set_b_result (mkResult (rs_Created (b_result s)) (rs_Updated (b_result s)) (rs_Skipped (b_result s) + 1)) s.

(** Computations that may fail and keep what they did until then. *)
Definition B (A : Type) : Type := BState -> result BootError A * BState.

Definition bret {A} (a : A) : B A := fun s => (Ok a, s).
Definition bfail {A} (e : BootError) : B A := fun s => (Err e, s).
Definition bbind {A C} (m : B A) (k : A -> B C) : B C := fun s =>
  match m s with
  | (Ok a, s) => k a s
  | (Err e, s) => (Err e, s)
  end.
Definition bdo (f : BState -> BState) : B unit := fun s => (Ok tt, f s).

Notation "'let*' x ':=' m 'in' k" := (bbind m (fun x => k)) (at level 10, x name, m at level 100, k at level 200) : go_scope.
Notation "m ';;;' k" := (bbind m (fun _ => k)) (at level 95, right associativity) : go_scope.
Local Open Scope go_scope.

Section Apply.
Context `{UC : UnicodeCase}.
Context (io : nat -> option string) (newID : nat -> string) (clock : nat -> Z).
Context (seal : option (string -> string -> result string string)) (reconcile : bool).

(** A call that reads: its result, or that there is no such row. *)
Definition find {A} (f : option string -> DB -> result StoreError A) : B (option A) := fun s =>
  let n := b_calls s in
  match f (io n) (b_db s) with
  | Ok a => (Ok (Some a), count_call s)
  | Err (ErrNotFound _) => (Ok None, count_call s)
  | Err e => (Err (BootStore e), count_call s)
  end.

(** A call that writes. *)
Definition write {A} (f : option string -> Z -> string -> DB -> result StoreError A * DB) : B A := fun s =>
  let n := b_calls s in
  let '(r, db) := f (io n) (clock n) (newID n) (b_db s) in
  (match r with Ok a => Ok a | Err e => Err (BootStore e) end, set_b_db db (count_call s)).

(** [audit]: failures are ignored. *)
Definition boot_audit (action targetType targetID targetName : string) : B unit := fun s =>
  let n := b_calls s in
  let entry := mkAuditEntry "" 0 ActorBootstrap "" "bootstrap" action targetType targetID targetName "" "" "" "" in
  (Ok tt, set_b_log (Audit_Append (io n) (clock n) (newID n) entry (b_log s)).2 (count_call s)).

Definition managedBy : ManagedBy := if reconcile then ManagedByBootstrap else ManagedByUI.

(** *** Credentials *)

Definition credentialAuthType (c : BCredential) : AuthType :=
  if bool_decide (bc_AuthType c = "certificate") then AuthTypeCertificate else AuthTypeSecret.

(** The secrets of the file, sealed; a field that is empty there keeps what is
    stored. *)
Definition sealed_or (value context stored : string) (f : string -> string -> result string string) : result string string :=
  if empty_text value then Ok stored else f value context.

Definition sealInto (id : string) (c : BCredential) (secretEnc pem keyEnc : string) : result BootError (string * string * string) :=
  match seal with
  | None => Err BootNoKeys
  | Some f =>
      match sealed_or (bc_ClientSecret c) (SecretContext id) secretEnc f with
      | Err _ => Err (BootSeal (bc_Name c))
      | Ok secret =>
          match sealed_or (bc_CertificateKeyPEM c) (CertificateKeyContext id) keyEnc f with
          | Err _ => Err (BootSeal (bc_Name c))
          | Ok key => Ok (secret, if empty_text (bc_CertificatePEM c) then pem else bc_CertificatePEM c, key)
          end
      end
  end.

Definition lift {A} (r : result BootError A) : B A := fun s => (r, s).

Definition updateCredential (stored : OAuthCredential) (c : BCredential) : B unit :=
  let* sealed := lift (sealInto (cred_ID stored) c (cred_ClientSecretEnc stored) (cred_CertificatePEM stored) (cred_CertificateKeyEnc stored)) in
  let row := mkOAuthCredential (cred_ID stored) (cred_Name stored) (bc_TenantID c) (bc_ClientID c) (credentialAuthType c)
               sealed.1.1 sealed.1.2 sealed.2 (cred_CertificateThumbprint stored) (bc_AuthorityHost c) (cred_ExpiresAt stored)
               ManagedByBootstrap (cred_CreatedAt stored) (cred_UpdatedAt stored) in
  write (fun io now _ => Credentials_Update io now row) ;;; bdo updated ;;;
  boot_audit "credential.update" "credential" (cred_ID stored) (bc_Name c).

Definition createCredential (id : string) (c : BCredential) : B unit :=
  let* sealed := lift (sealInto id c "" "" "") in
  let row := mkOAuthCredential id (bc_Name c) (bc_TenantID c) (bc_ClientID c) (credentialAuthType c)
               sealed.1.1 sealed.1.2 sealed.2 "" (bc_AuthorityHost c) None managedBy 0 0 in
  let* stored := write (fun io now newID => Credentials_Create io now newID row) in
  bdo (fun s => set_b_credentialIDs (<[bc_Name c := cred_ID stored]> (b_credentialIDs s)) s) ;;; bdo created ;;;
  boot_audit "credential.create" "credential" (cred_ID stored) (bc_Name c).

(** [store.NewID()]. *)
Definition fresh : B string := fun s => (Ok (newID (b_calls s)), count_call s).

Definition applyCredential (c : BCredential) : B unit :=
  let* existing := find (fun io => Credentials_GetByName io (bc_Name c)) in
  match existing with
  | Some stored =>
      bdo (fun s => set_b_credentialIDs (<[bc_Name c := cred_ID stored]> (b_credentialIDs s)) s) ;;;
      (if negb reconcile then bdo skip else updateCredential stored c)
  | None => let* id := fresh in createCredential id c
  end.

(** *** Mailboxes *)

Definition mailboxTransport (m : BMailbox) : Transport := if bool_decide (bm_Transport m = "graph") then TransportGraph else TransportSMTP.

(** The credential's identifier: from this run, or from the database. *)
Definition credential_id (m : BMailbox) : B string := fun s =>
  match b_credentialIDs s !! bm_Credential m with
  | Some id => (Ok id, s)
  | None =>
      match Credentials_GetByName (io (b_calls s)) (bm_Credential m) (b_db s) with
      | Ok c => (Ok (cred_ID c), set_b_credentialIDs (<[bm_Credential m := cred_ID c]> (b_credentialIDs s)) (count_call s))
      | Err _ => (Err (BootMissing "credential" (bm_Credential m)), count_call s)
      end
  end.

Definition remember_mailbox (address id : string) : B unit :=
  bdo (fun s => set_b_mailboxIDs (<[address := id]> (b_mailboxIDs s)) s).

Definition applyMailbox (m : BMailbox) : B unit :=
  let address := ToLower (bm_Address m) in
  let* credentialID := credential_id m in
  let* existing := find (fun io => Mailboxes_GetByAddress io address) in
  match existing with
  | Some stored =>
      remember_mailbox address (mb_ID stored) ;;;
      if negb reconcile then bdo skip
      else
        let row := mkMailbox (mb_ID stored) (mb_Address stored) (bm_DisplayName m) credentialID (mailboxTransport m)
                     (NullInt (bm_RateLimitPerMin m)) (NullInt (bm_MaxConcurrent m)) (negb (bm_Disabled m)) ManagedByBootstrap
                     (mb_CreatedAt stored) (mb_UpdatedAt stored) in
        write (fun io now _ => Mailboxes_Update io now row) ;;; bdo updated ;;;
        boot_audit "mailbox.update" "mailbox" (mb_ID stored) address
  | None =>
      let* id := fresh in
      let row := mkMailbox id address (bm_DisplayName m) credentialID (mailboxTransport m) (NullInt (bm_RateLimitPerMin m))
                   (NullInt (bm_MaxConcurrent m)) (negb (bm_Disabled m)) managedBy 0 0 in
      let* stored := write (fun io now newID => Mailboxes_Create io now newID row) in
      remember_mailbox address (mb_ID stored) ;;; bdo created ;;;
      boot_audit "mailbox.create" "mailbox" (mb_ID stored) address
  end.

(** *** Accounts *)

Definition accountPolicy (a : BAccount) : FromPolicy :=
  if bool_decide (ba_FromPolicy a = "rewrite") then FromPolicyRewrite
  else if bool_decide (ba_FromPolicy a = "passthrough") then FromPolicyPassthrough else FromPolicyReject.

Definition mailbox_id (address : string) : B string := fun s =>
  let normalized := ToLower address in
  match b_mailboxIDs s !! normalized with
  | Some id => (Ok id, s)
  | None =>
      match Mailboxes_GetByAddress (io (b_calls s)) normalized (b_db s) with
      | Ok m => (Ok (mb_ID m), set_b_mailboxIDs (<[normalized := mb_ID m]> (b_mailboxIDs s)) (count_call s))
      | Err _ => (Err (BootMissing "mailbox" address), count_call s)
      end
  end.

Fixpoint mailbox_ids (addresses : list string) : B (list string) :=
  match addresses with
  | [] => bret []
  | a :: rest => let* id := mailbox_id a in let* ids := mailbox_ids rest in bret (id :: ids)
  end.

(** The default mailbox; a name that was not resolved above is the empty
    string. *)
Definition default_id (a : BAccount) (ids : list string) : B string := fun s =>
  (Ok (if negb (empty_text (ba_DefaultMailbox a)) then default "" (b_mailboxIDs s !! ToLower (ba_DefaultMailbox a))
       else default "" (head ids)), s).

(** [linkAccount]; [SetAllowedSenders] takes an identifier per pattern. *)
Definition linkAccount (accountID : string) (ids patterns : list string) : B unit :=
  write (fun io _ _ => SetMailboxes io (fun _ => None) accountID ids) ;;;
  (fun s => write (fun io now _ => SetAllowedSenders io (fun _ => None) (fun k => newID (b_calls s + k)) now accountID patterns) s).

Definition applyAccount (a : BAccount) : B unit :=
  let* ids := mailbox_ids (ba_Mailboxes a) in
  let* defaultID := default_id a ids in
  let* existing := find (fun io => GetByUsername io (ba_Username a)) in
  match existing with
  | Some stored =>
      if negb reconcile then bdo skip
      else
        let row := mkSMTPAccount (acc_ID stored) (acc_Username stored) (ba_PasswordHash a) (ba_Description a) (NullString defaultID)
                     (accountPolicy a) (ba_AllowCIDRs a) (NullInt (ba_RateLimitPerMin a)) (negb (ba_Disabled a)) (acc_LastUsedAt stored)
                     ManagedByBootstrap (acc_CreatedAt stored) (acc_UpdatedAt stored) in
        write (fun io now _ => Accounts_Update io now row) ;;; linkAccount (acc_ID stored) ids (ba_AllowedSenders a) ;;;
        bdo updated ;;; boot_audit "account.update" "smtp_account" (acc_ID stored) (ba_Username a)
  | None =>
      let* id := fresh in
      let row := mkSMTPAccount id (ba_Username a) (ba_PasswordHash a) (ba_Description a) (NullString defaultID) (accountPolicy a)
                   (ba_AllowCIDRs a) (NullInt (ba_RateLimitPerMin a)) (negb (ba_Disabled a)) None managedBy 0 0 in
      let* stored := write (fun io now newID => Accounts_Create io now newID row) in
      linkAccount (acc_ID stored) ids (ba_AllowedSenders a) ;;; bdo created ;;;
      boot_audit "account.create" "smtp_account" (acc_ID stored) (ba_Username a)
  end.

Fixpoint apply_each {A} (f : A -> B unit) (l : list A) : B unit :=
  match l with
  | [] => bret tt
  | x :: l => f x ;;; apply_each f l
  end.

(** [Apply]: credentials, then mailboxes, then accounts. *)
Definition Apply (f : File) : B unit :=
  apply_each applyCredential (fl_Credentials f) ;;;
  apply_each applyMailbox (fl_Mailboxes f) ;;;
  apply_each applyAccount (fl_Accounts f).
End Apply.

Definition start (db : DB) (log : AuditLog) : BState := mkBState db log ∅ ∅ (mkResult 0 0 0) 0.
