(* ===== verification/BootstrapProps.v ===== *)
(** * What applying the bootstrap file does *)

From stdpp Require Import base gmap strings list.
From Stdlib Require Import ZArith Lia.
From S2P Require Import Prelude GoStrings StoreModels MessageStore Directory DirectoryProps Policy AdminStore AuditLog Bootstrap.

Open Scope Z_scope.

(** ** A logic of runs *)

(** From [P], [m] either ends with a value and [Q], or fails and leaves [E]. *)
Definition hoare {A} (P : BState -> Prop) (m : B A) (Q : A -> BState -> Prop) (E : BState -> Prop) : Prop :=
  forall s, P s -> match m s with (Ok a, s') => Q a s' | (Err _, s') => E s' end.

Section Rules.
Context {E : BState -> Prop}.

Lemma hoare_bind {A C} P (m : B A) Q (k : A -> B C) R :
  hoare P m Q E -> (forall a, hoare (Q a) (k a) R E) -> hoare P (bbind m k) R E.
Proof.
  intros Hm Hk s Hs. unfold bbind. specialize (Hm s Hs). destruct (m s) as [[a|e] s']; [|done]. by apply Hk.
Qed.

Lemma hoare_ret {A} (a : A) (Q : A -> BState -> Prop) : hoare (Q a) (bret a) Q E.
Proof. by intros s. Qed.

Lemma hoare_do P f (Q : unit -> BState -> Prop) : (forall s, P s -> Q tt (f s)) -> hoare P (bdo f) Q E.
Proof. intros H s Hs. by apply H. Qed.

Lemma hoare_lift {A} P (r : result BootError A) (Q : A -> BState -> Prop) :
  (forall a s, r = Ok a -> P s -> Q a s) -> (forall s, P s -> E s) -> hoare P (lift r) Q E.
Proof. intros H1 H2 s Hs. unfold lift. destruct r; auto. Qed.

Lemma hoare_weaken {A} (P P' : BState -> Prop) (m : B A) (Q Q' : A -> BState -> Prop) :
  hoare P m Q E -> (forall s, P' s -> P s) -> (forall a s, Q a s -> Q' a s) -> hoare P' m Q' E.
Proof. intros Hm HP HQ s Hs. specialize (Hm s (HP s Hs)). destruct (m s) as [[a|e] s']; auto. Qed.

Lemma hoare_each {A} P (f : A -> B unit) l : (forall x, x ∈ l -> hoare P (f x) (fun _ => P) E) -> hoare P (apply_each f l) (fun _ => P) E.
Proof.
  induction l as [|x l IH]; intros H; [apply (hoare_ret tt (fun _ => P))|]. cbn [apply_each].
  apply (hoare_bind P _ (fun _ => P)); [apply H; left|]. intros _. apply IH. intros y Hy. apply H. by right.
Qed.
End Rules.

(** An assertion about the database only. *)
Definition on_db (P : DB -> Prop) (s : BState) : Prop := P (b_db s).

Section Calls.
Context (io : nat -> option string) (newID : nat -> string) (clock : nat -> Z) (I : DB -> Prop).

Lemma find_keeps {A} (f : option string -> DB -> result StoreError A) (Q : option A -> BState -> Prop) :
  (forall s n, I (b_db s) -> match f (io n) (b_db s) with Ok a => Q (Some a) (count_call s) | Err (ErrNotFound _) => Q None (count_call s) | Err _ => True end) ->
  hoare (on_db I) (find io f) Q (on_db I).
Proof.
  intros H s Hs. specialize (H s (b_calls s) Hs). unfold find. destruct (f _ (b_db s)) as [a|[]]; try done.
Qed.

(** What a statement does to the database. *)
Lemma write_does {A} (P : DB -> Prop) (f : option string -> Z -> string -> DB -> result StoreError A * DB) (Q : A -> DB -> Prop) :
  (forall i t id db, P db -> match f i t id db with (Ok a, db') => Q a db' | (Err _, db') => I db' end) ->
  hoare (on_db P) (write io newID clock f) (fun a => on_db (Q a)) (on_db I).
Proof.
  intros H s Hs. unfold write. specialize (H (io (b_calls s)) (clock (b_calls s)) (newID (b_calls s)) (b_db s) Hs).
  destruct (f _ _ _ (b_db s)) as [[a|e] db']; done.
Qed.

Lemma audit_keeps P a t id n : hoare (on_db P) (boot_audit io newID clock a t id n) (fun _ => on_db P) (on_db I).
Proof. by intros s Hs. Qed.

Lemma do_keeps P f : (forall s, b_db (f s) = b_db s) -> hoare (on_db P) (bdo f) (fun _ => on_db P) (on_db I).
Proof. intros H s Hs. unfold on_db. simpl. by rewrite H. Qed.

Lemma fresh_keeps P : hoare (on_db P) (fresh newID) (fun _ => on_db P) (on_db I).
Proof. by intros s Hs. Qed.

Lemma credential_id_keeps m : hoare (on_db I) (credential_id io m) (fun _ => on_db I) (on_db I).
Proof.
  intros s Hs. unfold credential_id. destruct (b_credentialIDs s !! _); [done|]. by destruct (Credentials_GetByName _ _ _).
Qed.

Context `{UC : UnicodeCase}.

Lemma mailbox_ids_keeps l : hoare (on_db I) (mailbox_ids io l) (fun _ => on_db I) (on_db I).
Proof.
  induction l as [|a l IH]; [by intros s|]. cbn [mailbox_ids]. apply (hoare_bind _ _ (fun _ => on_db I)).
  - intros s Hs. unfold mailbox_id. destruct (b_mailboxIDs s !! _); [done|]. by destruct (Mailboxes_GetByAddress _ _ _).
  - intros id. apply (hoare_bind _ _ (fun _ => on_db I)); [done|]. intros ids. by intros s.
Qed.

Lemma default_id_keeps a ids : hoare (on_db I) (default_id a ids) (fun _ => on_db I) (on_db I).
Proof. by intros s. Qed.
End Calls.

(** ** Nothing is lost *)

(** Every row of the first database is in the second, unchanged. *)
Record extends (db db' : DB) : Prop := mkExtends {
  ex_credentials : oauth_credentials db ⊆ oauth_credentials db';
  ex_mailboxes : mailboxes db ⊆ mailboxes db';
  ex_accounts : smtp_accounts db ⊆ smtp_accounts db';
  ex_links : smtp_account_mailboxes db ⊆ smtp_account_mailboxes db';
  ex_senders : allowed_senders db ⊆ allowed_senders db';
  ex_messages : messages db' = messages db /\ message_blobs db' = message_blobs db
}.

Lemma extends_refl db : extends db db.
Proof. by constructor. Qed.

Section Once.
Context (db0 : DB) (Hdb0 : dir_ok db0).

Definition grown (db : DB) : Prop := dir_ok db /\ extends db0 db.

Lemma credential_created i t id c db :
  grown db -> match Credentials_Create i t id c db with (Ok _, db') => grown db' | (Err _, db') => grown db' end.
Proof.
  intros [Hd He]. pose proof (Credentials_Create_ok i t id c db Hd) as Hok. unfold Credentials_Create, exec in *. destruct i; [done|].
  destruct (translateError _ _) eqn:Ht; [done|]. split; [exact Hok|]. destruct He as [H1 ?????]. split; try done. simpl.
  etrans; [exact H1|]. apply insert_subseteq. unfold insert_credential_error in Ht.
  destruct (insert_error _ _) as [[]|] eqn:Hi; try done. apply insert_error_None in Hi as [_ Hi]. apply bool_decide_eq_false in Hi. by apply eq_None_not_Some.
Qed.

Lemma mailbox_created i t id m db :
  grown db -> match Mailboxes_Create i t id m db with (Ok _, db') => grown db' | (Err _, db') => grown db' end.
Proof.
  intros [Hd He]. pose proof (Mailboxes_Create_ok i t id m db Hd) as Hok. unfold Mailboxes_Create, exec in *. destruct i; [done|].
  destruct (translateError _ _) eqn:Ht; [done|]. split; [exact Hok|]. destruct He as [? H1 ????]. split; try done. simpl.
  etrans; [exact H1|]. apply insert_subseteq. unfold insert_mailbox_error in Ht.
  destruct (insert_error _ _) as [[]|] eqn:Hi; try done. apply insert_error_None in Hi as [_ Hi]. apply bool_decide_eq_false in Hi. by apply eq_None_not_Some.
Qed.

(** A new account is none of the first database. *)
Definition new_account (id : string) (db : DB) : Prop := grown db /\ smtp_accounts db0 !! id = None.

Lemma account_created i t id a db :
  grown db -> match Accounts_Create i t id a db with (Ok stored, db') => new_account (acc_ID stored) db' | (Err _, db') => grown db' end.
Proof.
  intros [Hd He]. pose proof (Accounts_Create_ok i t id a db Hd) as Hok. unfold Accounts_Create, exec in *. destruct i; [done|].
  destruct (translateError _ _) eqn:Ht; [done|]. unfold insert_account_error in Ht.
  destruct (insert_error _ _) as [[]|] eqn:Hi; try done. apply insert_error_None in Hi as [_ Hi]. apply bool_decide_eq_false in Hi. apply eq_None_not_Some in Hi.
  destruct He as [?? H1 ???]. split; [split; [exact Hok|]|].
  - split; try done. simpl. etrans; [exact H1|]. by apply insert_subseteq.
  - eapply lookup_weaken_None; eauto.
Qed.

Lemma links_set i id ids db :
  new_account id db -> match SetMailboxes i (fun _ => None) id ids db with (Ok _, db') => new_account id db' | (Err _, db') => grown db' end.
Proof.
  intros [[Hd He] Hn]. pose proof (SetMailboxes_ok i (fun _ => None) id ids db Hd) as Hok.
  destruct (SetMailboxes_cases i (fun _ => None) id ids db) as [[e Hs]|(l & Hs & Hl & _)]; rewrite Hs in *; [done|].
  split; [|done]. split; [exact Hok|]. destruct He as [??? H1 ??]. split; try done. simpl.
  intros [a b] Hab. apply Hl. left. split; [|by apply H1]. intros ->. apply (do_links _ Hdb0) in Hab as [[x Hx] _]. congruence.
Qed.

Lemma senders_set i newIDs now id patterns db :
  new_account id db -> match SetAllowedSenders i (fun _ => None) newIDs now id patterns db with (Ok _, db') => grown db' | (Err _, db') => grown db' end.
Proof.
  intros [[Hd He] Hn]. pose proof (SetAllowedSenders_ok i (fun _ => None) newIDs now id patterns db Hd) as Hok.
  unfold SetAllowedSenders in *. match goal with |- context [InTx ?f db] => destruct (InTx_cases f db) as [[e Hs]|(a & db' & Hf & Hs)] end;
    rewrite Hs in *; [done|]. split; [exact Hok|]. destruct i; [done|].
  pose proof (insert_senders_extends (fun _ => None) newIDs now id patterns []
    (set_allowed_senders (sql_delete (fun s => bool_decide (as_SMTPAccountID s = id)) (allowed_senders db)) db)) as H.
  rewrite Hf in H. simpl in H. destruct H as (H1 & H2 & H3 & H4 & H5 & H6 & H7). destruct He as [E1 E2 E3 E4 E5 [E6 E7]].
  split; rewrite ?H2, ?H3, ?H4, ?H5, ?H6, ?H7; try done. etrans; [|exact H1]. intros k. specialize (E5 k). unfold option_relation in *.
  destruct (allowed_senders db0 !! k) as [r|] eqn:Hr; [|by destruct (sql_delete _ _ !! k)].
  destruct (allowed_senders db !! k) as [r'|] eqn:Hr'; [|done]. subst r'. unfold sql_delete.
  assert (base.filter (fun kv : string * AllowedSender => bool_decide (as_SMTPAccountID kv.2 = id) = false) (allowed_senders db) !! k = Some r) as ->; [|done].
  apply map_lookup_filter_Some. split; [done|]. simpl. apply bool_decide_eq_false_2. intros Hid.
  pose proof (to_row _ _ _ _ (do_senders _ Hdb0) k r Hr) as [x Hx]. rewrite Hid in Hx. congruence.
Qed.

Section Runs.
Context `{UC : UnicodeCase}.
Context (io : nat -> option string) (newID : nat -> string) (clock : nat -> Z) (seal : option (string -> string -> result string string)).

Lemma link_account_grown id ids patterns :
  hoare (on_db (new_account id)) (linkAccount io newID clock id ids patterns) (fun _ => on_db grown) (on_db grown).
Proof.
  unfold linkAccount. apply (hoare_bind _ _ (fun _ => on_db (new_account id))).
  - apply (write_does _ _ _ _ _ _ (fun _ => new_account id)). intros i t n db H. by apply links_set.
  - intros _ s Hs. unfold write. pose proof (senders_set (io (b_calls s)) (fun k => newID (b_calls s + k)%nat) (clock (b_calls s)) id patterns (b_db s) Hs) as H.
    destruct (SetAllowedSenders _ _ _ _ _ _ (b_db s)) as [[] db']; done.
Qed.

Lemma apply_credential_grown c : hoare (on_db grown) (applyCredential io newID clock seal false c) (fun _ => on_db grown) (on_db grown).
Proof.
  unfold applyCredential. apply (hoare_bind _ _ (fun _ => on_db grown)).
  - apply find_keeps. intros s n Hs. by destruct (Credentials_GetByName _ _ _) as [|[]].
  - intros [stored|].
    + apply (hoare_bind _ _ (fun _ => on_db grown)); [by apply do_keeps|]. intros _. by apply do_keeps.
    + apply (hoare_bind _ _ (fun _ => on_db grown)); [apply fresh_keeps|]. intros id. unfold createCredential.
      apply (hoare_bind _ _ (fun _ => on_db grown)); [by apply hoare_lift|]. intros sealed.
      apply (hoare_bind _ _ (fun _ => on_db grown)).
      { apply (write_does _ _ _ _ _ _ (fun _ => grown)). intros i t n db Hg. by apply credential_created. }
      intros row. repeat (apply (hoare_bind _ _ (fun _ => on_db grown)); [by apply do_keeps|intros _]). apply audit_keeps.
Qed.

Lemma apply_mailbox_grown m : hoare (on_db grown) (applyMailbox io newID clock false m) (fun _ => on_db grown) (on_db grown).
Proof.
  unfold applyMailbox. apply (hoare_bind _ _ (fun _ => on_db grown)); [apply credential_id_keeps|]. intros cid.
  apply (hoare_bind _ _ (fun _ => on_db grown)).
  - apply find_keeps. intros s n Hs. by destruct (Mailboxes_GetByAddress _ _ _) as [|[]].
  - intros [stored|].
    + apply (hoare_bind _ _ (fun _ => on_db grown)); [by apply do_keeps|]. intros _. by apply do_keeps.
    + apply (hoare_bind _ _ (fun _ => on_db grown)); [apply fresh_keeps|]. intros id.
      apply (hoare_bind _ _ (fun _ => on_db grown)).
      { apply (write_does _ _ _ _ _ _ (fun _ => grown)). intros i t n db Hg. by apply mailbox_created. }
      intros row. repeat (apply (hoare_bind _ _ (fun _ => on_db grown)); [by apply do_keeps|intros _]). apply audit_keeps.
Qed.

Lemma apply_account_grown a : hoare (on_db grown) (applyAccount io newID clock false a) (fun _ => on_db grown) (on_db grown).
Proof.
  unfold applyAccount. apply (hoare_bind _ _ (fun _ => on_db grown)); [apply mailbox_ids_keeps|]. intros ids.
  apply (hoare_bind _ _ (fun _ => on_db grown)); [apply default_id_keeps|]. intros def.
  apply (hoare_bind _ _ (fun _ => on_db grown)).
  - apply find_keeps. intros s n Hs. by destruct (GetByUsername _ _ _) as [|[]].
  - intros [stored|]; [by apply do_keeps|]. apply (hoare_bind _ _ (fun _ => on_db grown)); [apply fresh_keeps|]. intros id.
    apply (hoare_bind _ _ (fun row => on_db (new_account (acc_ID row)))).
    { apply (write_does _ _ _ _ _ _ (fun row => new_account (acc_ID row))). intros i t n db Hg. by apply account_created. }
    intros row. apply (hoare_bind _ _ (fun _ => on_db grown)); [apply link_account_grown|]. intros _.
    apply (hoare_bind _ _ (fun _ => on_db grown)); [by apply do_keeps|]. intros _. apply audit_keeps.
Qed.

Lemma apply_grown f : hoare (on_db grown) (Apply io newID clock seal false f) (fun _ => on_db grown) (on_db grown).
Proof.
  unfold Apply. apply (hoare_bind _ _ (fun _ => on_db grown)).
  { apply hoare_each. intros c _. apply apply_credential_grown. }
  intros _. apply (hoare_bind _ _ (fun _ => on_db grown)).
  { apply hoare_each. intros m _. apply apply_mailbox_grown. }
  intros _. apply hoare_each. intros a _. apply apply_account_grown.
Qed.
End Runs.
End Once.

(** apply-once never changes what is there. Whatever the file declares
    and whichever call fails, every credential, mailbox, account, link, allowed
    sender and message of the database is still there, unchanged, after
    [Apply], and the directory is still consistent. *)
Theorem apply_once_leaves_existing_rows `{UnicodeCase} io newID clock seal f db log :
  dir_ok db ->
  let s := (Apply io newID clock seal false f (start db log)).2 in extends db (b_db s) /\ dir_ok (b_db s).
Proof.
  intros Hd. pose proof (apply_grown db Hd io newID clock seal f (start db log) (conj Hd (extends_refl db))) as H'.
  cbv zeta. destruct (Apply _ _ _ _ _ _ _) as [[] s]; simpl; by destruct H' as [? ?].
Qed.

(** ** Witness and two observations *)

#[local] Instance boot_case : UnicodeCase := {| unicode_to_lower := id; unicode_to_upper := id; unicode_equal_fold := fun a b => bool_decide (a = b) |}.

Definition sample_account (username default_mailbox : string) (mailboxes : list string) : BAccount :=
  mkBAccount username "" "$argon2id$x" mailboxes default_mailbox [] "" [] 0 false.

Definition sample_boot (a : BAccount) : File := mkFile [] [] [a].

Definition sample_ids (n : nat) : string := "n" +:+ String (Ascii.ascii_of_nat (48 + n)) "".

Lemma apply_once_leaves_existing_rows_witness :
  let s := (Apply (fun _ => None) sample_ids (fun _ => 7) None false (sample_boot (sample_account "scanner" "" ["scan@x"])) (start dir_db ∅)).2 in
  rs_Created (b_result s) = 1 /\ extends dir_db (b_db s) /\ dir_ok (b_db s).
Proof.
  split; [vm_compute; reflexivity|].
  apply (apply_once_leaves_existing_rows (fun _ => None) sample_ids (fun _ => 7) None (sample_boot (sample_account "scanner" "" ["scan@x"])) dir_db ∅ dir_db_ok).
Defined.

(** A default mailbox that is only in the database is taken when the account
    lists its mailboxes, and silently becomes no default when it lists none. *)
Lemma default_mailbox_of_the_database_is_lost :
  let run a := Apply (fun _ => None) sample_ids (fun _ => 7) None false (sample_boot a) (start dir_db ∅) in
  let default_of a := acc_DefaultMailboxID <$> smtp_accounts (b_db (run a).2) !! "n2" in
  let default_of' a := acc_DefaultMailboxID <$> smtp_accounts (b_db (run a).2) !! "n1" in
  default_of (sample_account "scanner" "scan@x" ["scan@x"]) = Some (Some "b1") /\
  (run (sample_account "scanner" "scan@x" [])).1 = Ok tt /\
  default_of' (sample_account "scanner" "scan@x" []) = Some None.
Proof. split_and!; vm_compute; reflexivity. Qed.

(** An account whose mailboxes could not be linked stays: the next start
    finds it and skips it, so it never gets them. *)
Lemma interrupted_account_is_never_linked :
  let a := sample_account "scanner" "" ["scan@x"] in
  let first := Apply (fun n => if (n =? 4)%nat then Some "disk full" else None) sample_ids (fun _ => 7) None false (sample_boot a) (start dir_db ∅) in
  let second := Apply (fun _ => None) sample_ids (fun _ => 9) None false (sample_boot a) (start (b_db first.2) ∅) in
  is_ok first.1 = false /\ second.1 = Ok tt /\ rs_Skipped (b_result second.2) = 1 /\
  is_Some (smtp_accounts (b_db second.2) !! "n2") /\ (bool_decide (("n2", "b1") ∈ smtp_account_mailboxes (b_db second.2))) = false.
Proof. split_and!; try (vm_compute; reflexivity). vm_compute. by eexists. Qed.
