(* ===== verification/Reconcile.v ===== *)
(** * Reconciling the directory with the bootstrap file

    With [Reconcile] set, [Applier.Apply] makes the database agree with the
    file. The specification is declarative: which rows the file asks for
    ([credential_declared], [mailbox_declared], [account_declared]) and which
    rows it has nothing to say about ([frame]). *)

From stdpp Require Import base gmap strings list.
From Stdlib Require Import ZArith Lia.
From S2P Require Import Prelude GoStrings StoreModels MessageStore Directory DirectoryProps Policy AdminStore AuditLog Keyring Bootstrap BootstrapProps.

Open Scope Z_scope.
Local Open Scope go_scope.

(** ** Specification *)

Section Declared.
Context `{UC : UnicodeCase}.

(** [f] is the sealing function of the configured key ring. A secret the file
    leaves out is not part of the declaration. *)
Definition credential_declared (f : string -> string -> result string string) (c : BCredential) (db : DB) : Prop :=
  exists id row, oauth_credentials db !! id = Some row
    /\ cred_Name row = bc_Name c /\ cred_TenantID row = bc_TenantID c /\ cred_ClientID row = bc_ClientID c
    /\ cred_AuthType row = credentialAuthType c /\ cred_AuthorityHost row = bc_AuthorityHost c
    /\ cred_ManagedBy row = ManagedByBootstrap
    /\ (bc_ClientSecret c <> "" -> f (bc_ClientSecret c) (SecretContext id) = Ok (cred_ClientSecretEnc row))
    /\ (bc_CertificatePEM c <> "" -> cred_CertificatePEM row = bc_CertificatePEM c)
    /\ (bc_CertificateKeyPEM c <> "" -> f (bc_CertificateKeyPEM c) (CertificateKeyContext id) = Ok (cred_CertificateKeyEnc row)).

Definition mailbox_declared (m : BMailbox) (db : DB) : Prop :=
  exists id row cred, mailboxes db !! id = Some row
    /\ mb_Address row = ToLower (bm_Address m) /\ mb_DisplayName row = bm_DisplayName m
    /\ oauth_credentials db !! mb_OAuthCredentialID row = Some cred /\ cred_Name cred = bm_Credential m
    /\ mb_Transport row = mailboxTransport m /\ mb_RateLimitPerMin row = NullInt (bm_RateLimitPerMin m)
    /\ mb_MaxConcurrent row = NullInt (bm_MaxConcurrent m) /\ mb_Enabled row = negb (bm_Disabled m)
    /\ mb_ManagedBy row = ManagedByBootstrap.

(** The mailbox with this identifier has the address, in any case. *)
Definition mailbox_at (db : DB) (address id : string) : Prop :=
  exists row, mailboxes db !! id = Some row /\ mb_Address row = ToLower address.

(** The default mailbox. [N] are the addresses that were resolved by then: the
    file's own mailboxes, the lists of the accounts before this one, and its own
    list. A name among them is that mailbox; a name that is not leaves the
    account without a default, whatever the database holds; without a name it
    is the first of the list. *)
Definition default_declared (N : string -> Prop) (a : BAccount) (db : DB) (v : option string) : Prop :=
  (ba_DefaultMailbox a = "" -> match ba_Mailboxes a with
                               | [] => v = None
                               | address :: _ => exists id, mailbox_at db address id /\ v = NullString id
                               end)
  /\ (ba_DefaultMailbox a <> "" -> N (ToLower (ba_DefaultMailbox a)) -> exists id, mailbox_at db (ba_DefaultMailbox a) id /\ v = NullString id)
  /\ (ba_DefaultMailbox a <> "" -> ~ N (ToLower (ba_DefaultMailbox a)) -> v = None).

Definition account_declared (N : string -> Prop) (a : BAccount) (db : DB) : Prop :=
  exists id row, smtp_accounts db !! id = Some row
    /\ acc_Username row = ba_Username a /\ acc_PasswordHash row = ba_PasswordHash a
    /\ acc_Description row = ba_Description a /\ acc_FromPolicy row = accountPolicy a
    /\ acc_AllowCIDRs row = ba_AllowCIDRs a /\ acc_RateLimitPerMin row = NullInt (ba_RateLimitPerMin a)
    /\ acc_Enabled row = negb (ba_Disabled a) /\ acc_ManagedBy row = ManagedByBootstrap
    /\ default_declared N a db (acc_DefaultMailboxID row)
    /\ (forall address, address ∈ ba_Mailboxes a -> exists b, mailbox_at db address b)
    /\ (forall b, (id, b) ∈ smtp_account_mailboxes db <-> exists address, address ∈ ba_Mailboxes a /\ mailbox_at db address b)
    /\ (forall p, (exists k s, allowed_senders db !! k = Some s /\ as_SMTPAccountID s = id /\ as_Pattern s = p)
                  <-> p ∈ ba_AllowedSenders a).
End Declared.

(** Rows whose name is not in [D] are the same in both tables. *)
Definition same_but {R} (name : R -> string) (D : string -> Prop) (t t' : gmap string R) : Prop :=
  forall k r, ~ D (name r) -> (t !! k = Some r <-> t' !! k = Some r).

(** Everything but the credentials, mailboxes and accounts with names in
    [Dc], [Dm] and [Da] is as it was. *)
Record frame (Dc Dm Da : string -> Prop) (db db' : DB) : Prop := mkFrame {
  fr_credentials : same_but cred_Name Dc (oauth_credentials db) (oauth_credentials db');
  fr_mailboxes : same_but mb_Address Dm (mailboxes db) (mailboxes db');
  fr_accounts : same_but acc_Username Da (smtp_accounts db) (smtp_accounts db');
  fr_links : forall a r b, smtp_accounts db !! a = Some r -> ~ Da (acc_Username r) ->
    ((a, b) ∈ smtp_account_mailboxes db <-> (a, b) ∈ smtp_account_mailboxes db');
  fr_senders : forall k s r, smtp_accounts db !! as_SMTPAccountID s = Some r -> ~ Da (acc_Username r) ->
    (allowed_senders db !! k = Some s <-> allowed_senders db' !! k = Some s);
  fr_messages : messages db' = messages db /\ message_blobs db' = message_blobs db
}.

Definition none (_ : string) : Prop := False.

(** ** Frames *)

Section Frames.
Context {R : Type} (name : R -> string).
Implicit Types t : gmap string R.

Lemma same_but_refl D t : same_but name D t t.
Proof. done. Qed.

Lemma same_but_trans (D D' D'' : string -> Prop) t t' t'' :
  (forall n, D n \/ D' n -> D'' n) -> same_but name D t t' -> same_but name D' t' t'' -> same_but name D'' t t''.
Proof. intros Hs H1 H2 k r Hn. rewrite (H1 k r), (H2 k r); [done|intros ?; apply Hn; auto..]. Qed.

Lemma same_but_none t t' : same_but name none t t' -> t = t'.
Proof. intros H. apply map_eq. intros k. apply option_eq. intros r. apply H. by intros []. Qed.

(** A row is put under its key: a new key, or the key of the row that has
    the name. *)
Definition upserts (key : string) (row : R) t t' : Prop :=
  t' = <[key := row]> t
  /\ (forall k r, t !! k = Some r -> name r = name row -> k = key)
  /\ (forall r, t !! key = Some r -> name r = name row).

Lemma upserts_same key row t t' : upserts key row t t' -> same_but name (fun n => n = name row) t t'.
Proof.
  intros (-> & _ & H2) k r Hn. destruct (decide (k = key)) as [->|].
  - rewrite lookup_insert_eq. split; intros Hk; destruct Hn; [by apply H2|congruence].
  - by rewrite lookup_insert_ne.
Qed.

(** The identifiers found so far are those of rows with these names. *)
Definition ids_ok (ids : gmap string string) t : Prop :=
  forall n id, ids !! n = Some id -> exists r, t !! id = Some r /\ name r = n.

Lemma ids_ok_upserts ids key row t t' :
  ids_ok ids t -> upserts key row t t' -> ids_ok (<[name row := key]> ids) t' /\ ids_ok ids t'.
Proof.
  intros Hi (-> & H1 & H2).
  assert (ids_ok ids (<[key := row]> t)) as Hold.
  { intros n id Hn. destruct (Hi n id Hn) as (r & Hr & Hname). destruct (decide (id = key)) as [->|].
    - exists row. rewrite lookup_insert_eq. split; [done|]. by rewrite <- (H2 r Hr).
    - exists r. by rewrite lookup_insert_ne. }
  split; [|done]. intros n id. destruct (decide (n = name row)) as [->|].
  - rewrite lookup_insert_eq. intros [= ->]. exists row. by rewrite lookup_insert_eq.
  - rewrite lookup_insert_ne by done. apply Hold.
Qed.

Lemma ids_ok_insert ids t n id r :
  ids_ok ids t -> t !! id = Some r -> name r = n -> ids_ok (<[n := id]> ids) t.
Proof.
  intros Hi Hr Hn n' id'. destruct (decide (n' = n)) as [->|].
  - rewrite lookup_insert_eq. intros [= <-]. eauto.
  - rewrite lookup_insert_ne by done. apply Hi.
Qed.
End Frames.

Lemma frame_refl Dc Dm Da db : frame Dc Dm Da db db.
Proof. by constructor. Qed.

Lemma frame_trans (Dc Dm Da Dc' Dm' Da' Dc'' Dm'' Da'' : string -> Prop) db db' db'' :
  (forall n, Dc n \/ Dc' n -> Dc'' n) -> (forall n, Dm n \/ Dm' n -> Dm'' n) -> (forall n, Da n \/ Da' n -> Da'' n) ->
  frame Dc Dm Da db db' -> frame Dc' Dm' Da' db' db'' -> frame Dc'' Dm'' Da'' db db''.
Proof.
  intros Hc Hm Ha F1 F2.
  assert (forall a r, smtp_accounts db !! a = Some r -> ~ Da'' (acc_Username r) ->
    smtp_accounts db' !! a = Some r /\ ~ Da (acc_Username r) /\ ~ Da' (acc_Username r)) as Hacc.
  { intros a r Hr Hn. split_and!; [apply (fr_accounts _ _ _ _ _ F1); auto|auto..]. }
  split.
  - eapply same_but_trans; [exact Hc|by apply F1|by apply F2].
  - eapply same_but_trans; [exact Hm|by apply F1|by apply F2].
  - eapply same_but_trans; [exact Ha|by apply F1|by apply F2].
  - intros a r b Hr Hn. destruct (Hacc a r Hr Hn) as (Hr' & H1 & H2).
    rewrite (fr_links _ _ _ _ _ F1 a r b) by done. by apply (fr_links _ _ _ _ _ F2 a r b).
  - intros k s r Hr Hn. destruct (Hacc _ r Hr Hn) as (Hr' & H1 & H2).
    rewrite (fr_senders _ _ _ _ _ F1 k s r) by done. by apply (fr_senders _ _ _ _ _ F2 k s r).
  - destruct (fr_messages _ _ _ _ _ F1), (fr_messages _ _ _ _ _ F2). split; congruence.
Qed.

Lemma frame_mono (Dc Dm Da Dc' Dm' Da' : string -> Prop) db db' :
  (forall n, Dc n -> Dc' n) -> (forall n, Dm n -> Dm' n) -> (forall n, Da n -> Da' n) ->
  frame Dc Dm Da db db' -> frame Dc' Dm' Da' db db'.
Proof. intros Hc Hm Ha F. apply (frame_trans Dc Dm Da Dc' Dm' Da' _ _ _ db db'); [naive_solver..|exact F|apply frame_refl]. Qed.

(** ** What the statements do *)

Section UpdateRow.
Context {R : Type} (id name : R -> string) (P : R -> Prop) (t : gmap string R).

(** An update by identifier replaces one row. *)
Lemma sql_update_id k r f :
  table_ok id name P t -> t !! k = Some r ->
  sql_update (fun x => bool_decide (id x = k)) f t = <[k := f r]> t.
Proof.
  intros Ht Hr. apply map_eq. intros j. rewrite lookup_sql_update. destruct (decide (j = k)) as [->|Hn].
  - rewrite lookup_insert_eq, Hr. simpl. by rewrite bool_decide_eq_true_2 by (by eapply to_id).
  - rewrite lookup_insert_ne by done. destruct (t !! j) as [x|] eqn:Hj; [|done]. simpl.
    rewrite bool_decide_eq_false_2; [done|]. by rewrite (to_id _ _ _ _ Ht _ _ Hj).
Qed.

(** An insert or update that passes the unique constraint. *)
Lemma upserts_new row :
  table_ok id name P t -> t !! id row = None ->
  (forall k r, t !! k = Some r -> name r = name row -> id r = id row) -> upserts name (id row) row t (<[id row := row]> t).
Proof.
  intros Ht Hn Hu. split_and!; [done| |intros r Hr; congruence].
  intros k r Hk He. rewrite <- (Hu k r Hk He). symmetry. by eapply to_id.
Qed.

Lemma upserts_old k r row :
  table_ok id name P t -> t !! k = Some r -> name r = name row -> upserts name k row t (<[k := row]> t).
Proof.
  intros Ht Hr He. split_and!; [done| |congruence]. intros k' r' Hk' He'. apply (to_unique _ _ _ _ Ht k' k r' r); congruence.
Qed.
End UpdateRow.

(** One lemma per statement: when it fails nothing changed, when it succeeds a
    row was put into one table. *)
Section Statements.
Context (db : DB) (Hd : dir_ok db).

(** An INSERT whose constraints are [err], which [spec] describes. *)
Local Ltac insert_cases err spec :=
  let Ht := fresh "Ht" in let He := fresh "He" in let Hu := fresh "Hu" in let Hnew := fresh "Hnew" in
  destruct (translateError _ _) eqn:Ht; [done|]; split; [done|]; eexists; split; [done|];
  unfold err in Ht; destruct (insert_error _ _) as [[]|] eqn:He; try done;
  apply insert_error_None in He as [[_ Hu]%spec Hnew]; apply bool_decide_eq_false, eq_None_not_Some in Hnew;
  eapply upserts_new; [by apply Hd|done|done].

(** An UPDATE of the row [Ho] in the table [Ht] is about. *)
Local Ltac update_cases Ht Ho :=
  let Hw := fresh "Hw" in write_cases Hw; destruct Hw as [[-> Hf]|(-> & -> & _)]; [by case_match|];
  eexists; split; [done|]; rewrite (sql_update_id _ _ _ _ _ _ _ Ht Ho);
  eapply upserts_old; [exact Ht|exact Ho|done].

Lemma credential_create_upserts i t id c :
  match Credentials_Create i t id c db with
  | (Ok stored, db') => stored = credential_defaults t id c
      /\ exists tab, db' = set_oauth_credentials tab db /\ upserts cred_Name (cred_ID stored) stored (oauth_credentials db) tab
  | (Err _, db') => db' = db
  end.
Proof. unfold Credentials_Create, exec. destruct i; [done|]. insert_cases insert_credential_error credential_error_None. Qed.

Lemma mailbox_create_upserts i t id m :
  match Mailboxes_Create i t id m db with
  | (Ok stored, db') => stored = mailbox_defaults t id m
      /\ exists tab, db' = set_mailboxes tab db /\ upserts mb_Address (mb_ID stored) stored (mailboxes db) tab
  | (Err _, db') => db' = db
  end.
Proof. unfold Mailboxes_Create, exec. destruct i; [done|]. insert_cases insert_mailbox_error mailbox_error_None. Qed.

Lemma account_create_upserts i t id a :
  match Accounts_Create i t id a db with
  | (Ok stored, db') => stored = account_defaults t id a
      /\ exists tab, db' = set_smtp_accounts tab db /\ upserts acc_Username (acc_ID stored) stored (smtp_accounts db) tab
  | (Err _, db') => db' = db
  end.
Proof. unfold Accounts_Create, exec. destruct i; [done|]. insert_cases insert_account_error account_error_None. Qed.

Lemma credential_update_upserts i t c old :
  oauth_credentials db !! cred_ID c = Some old -> cred_Name c = cred_Name old ->
  match Credentials_Update i t c db with
  | (Ok _, db') => exists tab, db' = set_oauth_credentials tab db
      /\ upserts cred_Name (cred_ID c) (credential_set t c old) (oauth_credentials db) tab
  | (Err _, db') => db' = db
  end.
Proof. intros Ho Hn. unfold Credentials_Update. update_cases (do_credentials _ Hd) Ho. Qed.

Lemma mailbox_update_upserts i t m old :
  mailboxes db !! mb_ID m = Some old -> mb_Address m = mb_Address old ->
  match Mailboxes_Update i t m db with
  | (Ok _, db') => exists tab, db' = set_mailboxes tab db
      /\ upserts mb_Address (mb_ID m) (mailbox_set t m old) (mailboxes db) tab
  | (Err _, db') => db' = db
  end.
Proof. intros Ho Hn. unfold Mailboxes_Update. update_cases (do_mailboxes _ Hd) Ho. Qed.

Lemma account_update_upserts i t a old :
  smtp_accounts db !! acc_ID a = Some old -> acc_Username a = acc_Username old ->
  match Accounts_Update i t a db with
  | (Ok _, db') => exists tab, db' = set_smtp_accounts tab db
      /\ upserts acc_Username (acc_ID a) (account_set t a old) (smtp_accounts db) tab
  | (Err _, db') => db' = db
  end.
Proof. intros Ho Hn. unfold Accounts_Update. update_cases (do_accounts _ Hd) Ho. Qed.
End Statements.

(** The three frames of one written row. *)
Lemma frame_credential db tab key row :
  upserts cred_Name key row (oauth_credentials db) tab -> frame (fun n => n = cred_Name row) none none db (set_oauth_credentials tab db).
Proof. intros H. split; try done. by eapply upserts_same. Qed.

Lemma frame_mailbox db tab key row :
  upserts mb_Address key row (mailboxes db) tab -> frame none (fun n => n = mb_Address row) none db (set_mailboxes tab db).
Proof. intros H. split; try done. by eapply upserts_same. Qed.

Lemma frame_account db tab key row :
  upserts acc_Username key row (smtp_accounts db) tab -> frame none none (fun n => n = acc_Username row) db (set_smtp_accounts tab db).
Proof. intros H. split; try done. by eapply upserts_same. Qed.

(** *** The rows the lookups find *)

Section Lookups.
Context (db : DB) (Hd : dir_ok db).

Lemma credential_found i name c :
  Credentials_GetByName i name db = Ok c -> oauth_credentials db !! cred_ID c = Some c /\ cred_Name c = name.
Proof.
  unfold Credentials_GetByName. destruct i; [done|]. destruct (find_row _ _) as [x|] eqn:Hf; [|done]. intros [= ->].
  apply find_row_Some in Hf as [Hn (k & Hk)]. bools. by rewrite (to_id _ _ _ _ (do_credentials _ Hd) _ _ Hk).
Qed.

Lemma mailbox_found i address m :
  Mailboxes_GetByAddress i address db = Ok m -> mailboxes db !! mb_ID m = Some m /\ mb_Address m = address.
Proof.
  unfold Mailboxes_GetByAddress. destruct i; [done|]. destruct (find_row _ _) as [x|] eqn:Hf; [|done]. intros [= ->].
  apply find_row_Some in Hf as [Hn (k & Hk)]. bools. by rewrite (to_id _ _ _ _ (do_mailboxes _ Hd) _ _ Hk).
Qed.

Lemma account_found i username a :
  GetByUsername i username db = Ok a -> smtp_accounts db !! acc_ID a = Some a /\ acc_Username a = username.
Proof.
  unfold GetByUsername. destruct i; [done|]. destruct (find_row _ _) as [x|] eqn:Hf; [|done]. intros [= ->].
  apply find_row_Some in Hf as [Hn (k & Hk)]. bools. by rewrite (to_id _ _ _ _ (do_accounts _ Hd) _ _ Hk).
Qed.
End Lookups.

(** ** Credentials *)

(** What holds between two objects of the file; [N] are the addresses resolved
    so far. *)
Record known (N : string -> Prop) (s : BState) : Prop := mkKnown {
  kn_dir : dir_ok (b_db s);
  kn_credentials : ids_ok cred_Name (b_credentialIDs s) (oauth_credentials (b_db s));
  kn_mailboxes : ids_ok mb_Address (b_mailboxIDs s) (mailboxes (b_db s));
  kn_names : forall x, is_Some (b_mailboxIDs s !! x) <-> N x
}.

(** A run from [s] left everything outside the three sets alone and the
    directory consistent, and if it succeeded ended [known] with [Q]. *)
Definition settled {A} (Dc Dm Da N : string -> Prop) (Q : DB -> Prop) (s : BState) (r : result BootError A * BState) : Prop :=
  frame Dc Dm Da (b_db s) (b_db r.2) /\ dir_ok (b_db r.2) /\ (is_ok r.1 = true -> known N r.2 /\ Q (b_db r.2)).

Definition settles {A} (Dc Dm Da N N' : string -> Prop) (m : B A) (Q : DB -> Prop) : Prop :=
  forall s, known N s -> settled Dc Dm Da N' Q s (m s).

(** The patterns a completed run of the loop stored. *)
Lemma insert_senders_spec ios newIDs now id patterns seen db db' :
  insert_senders ios newIDs now id patterns seen db = (Ok tt, db') ->
  exists t, db' = set_allowed_senders t db
    /\ (forall k s, as_SMTPAccountID s <> id -> t !! k = Some s <-> allowed_senders db !! k = Some s)
    /\ (forall p, (exists k s, t !! k = Some s /\ as_SMTPAccountID s = id /\ as_Pattern s = p)
         <-> (exists k s, allowed_senders db !! k = Some s /\ as_SMTPAccountID s = id /\ as_Pattern s = p) \/ (p ∈ patterns /\ p ∉ seen)).
Proof.
  revert ios newIDs seen db. induction patterns as [|q patterns IH]; intros ios newIDs seen db; simpl.
  { intros [= <-]. exists (allowed_senders db). split; [by destruct db|]. set_solver. }
  case_bool_decide as Hseen.
  { intros (t & -> & Ht & Hp)%IH. exists t. split_and!; [done|done|]. intros p. rewrite Hp. set_solver. }
  destruct (ios 0%nat); [done|]. unfold insert_sender_error. simpl.
  destruct (bool_decide (is_Some (allowed_senders db !! newIDs 0%nat)) || _) eqn:Hu; [done|]. destruct (bool_decide (is_Some (smtp_accounts db !! id))); [|done]. simpl.
  apply orb_false_iff in Hu as [Hu _]. apply bool_decide_eq_false, eq_None_not_Some in Hu.
  set (new := mkAllowedSender _ _ _ _). intros (t & -> & Ht & Hp)%IH. exists t. simpl in *. split_and!; [done| |].
  - intros k s Hs. rewrite (Ht k s Hs), lookup_insert_Some. split; [intros [[? <-]|[? ?]]; done|]. intros Hk. right. split; [congruence|done].
  - intros p. rewrite Hp. split.
    + intros [(k & s & [[<- <-]|[? Hk]]%lookup_insert_Some & Ha & Hpat)|[? ?]]; [right; set_solver|left; eauto|right; set_solver].
    + intros [(k & s & Hk & Ha & Hpat)|[Hin Hns]].
      * left. exists k, s. rewrite lookup_insert_ne by congruence. done.
      * destruct (decide (p = q)) as [->|]; [left; exists (newIDs 0%nat), new; by rewrite lookup_insert_eq|right; set_solver].
Qed.

Lemma SetAllowedSenders_cases i ios newIDs now id patterns db :
  (exists e, SetAllowedSenders i ios newIDs now id patterns db = (Err e, db))
  \/ (exists t, SetAllowedSenders i ios newIDs now id patterns db = (Ok tt, set_allowed_senders t db)
        /\ (forall k s, as_SMTPAccountID s <> id -> t !! k = Some s <-> allowed_senders db !! k = Some s)
        /\ (forall p, (exists k s, t !! k = Some s /\ as_SMTPAccountID s = id /\ as_Pattern s = p) <-> p ∈ patterns)).
Proof.
  unfold SetAllowedSenders. match goal with |- context [InTx ?f db] => destruct (InTx_cases f db)
    as [?|([] & db' & Hf & ->)] end; [by left|]. right.
  destruct i; [done|]. apply insert_senders_spec in Hf as (t & -> & Ht & Hp). simpl in *. exists t. split_and!; [by destruct db| |].
  - intros k s Hs. rewrite (Ht k s Hs), lookup_sql_delete, bool_decide_eq_false_2 by done. naive_solver.
  - intros p. rewrite Hp. split; [|set_solver]. intros [(k & s & [_ Hb]%lookup_sql_delete & Ha & _)|[? _]]; [by bools|done].
Qed.

Section Objects.
Context `{UC : UnicodeCase}.
Context (io : nat -> option string) (newID : nat -> string) (clock : nat -> Z) (f : string -> string -> result string string).
Context (HnewID : forall n, newID n <> "").

Lemma settled_failure {A} Dc Dm Da N N' (e : BootError) s s' Q :
  known N s -> b_db s' = b_db s -> settled Dc Dm Da N' Q s (@Err BootError A e, s').
Proof. intros Hk He. unfold settled. simpl. rewrite He. split_and!; [apply frame_refl|by eapply kn_dir|done]. Qed.

Lemma settled_from {A} Dc Dm Da N Q s s0 (r : result BootError A * BState) :
  b_db s = b_db s0 -> settled Dc Dm Da N Q s r -> settled Dc Dm Da N Q s0 r.
Proof. unfold settled. by intros ->. Qed.

(** A lookup, and what the code does with the row or without one. *)
Lemma settled_find {A C} Dc Dm Da N N' (g : option string -> DB -> result StoreError A) (k : option A -> B C) s Q :
  known N s ->
  (forall i a, g i (b_db s) = Ok a -> settled Dc Dm Da N' Q s (k (Some a) (count_call s))) ->
  settled Dc Dm Da N' Q s (k None (count_call s)) ->
  settled Dc Dm Da N' Q s (bbind (find io g) k s).
Proof.
  intros Hk Hsome Hnone. unfold bbind, find. destruct (g _ (b_db s)) as [a|[]] eqn:Hg; [by eapply Hsome|..]; done || by eapply settled_failure.
Qed.

Lemma sealed_secrets id c secret pem key sealed :
  sealInto (Some f) id c secret pem key = Ok sealed ->
  (bc_ClientSecret c <> "" -> f (bc_ClientSecret c) (SecretContext id) = Ok sealed.1.1)
  /\ (bc_CertificatePEM c <> "" -> sealed.1.2 = bc_CertificatePEM c)
  /\ (bc_CertificateKeyPEM c <> "" -> f (bc_CertificateKeyPEM c) (CertificateKeyContext id) = Ok sealed.2).
Proof.
  unfold sealInto, sealed_or, empty_text. repeat case_bool_decide; repeat case_match; intros; simplify_eq; split_and!; simpl; done || congruence.
Qed.

Lemma update_credential_settles N stored c s :
  known N s -> oauth_credentials (b_db s) !! cred_ID stored = Some stored -> cred_Name stored = bc_Name c ->
  settled (eq (bc_Name c)) none none N (credential_declared f c) s (updateCredential io newID clock (Some f) stored c s).
Proof.
  intros Hk Ho Hn. unfold updateCredential, bbind, lift.
  destruct (sealInto _ _ _ _ _ _) as [sealed|e] eqn:Hs; [|by eapply settled_failure]. apply sealed_secrets in Hs as (H1 & H2 & H3).
  unfold write. set (row := mkOAuthCredential _ _ _ _ _ _ _ _ _ _ _ _ _ _).
  pose proof (credential_update_upserts (b_db s) (kn_dir _ _ Hk) (io (b_calls s)) (clock (b_calls s)) row stored Ho eq_refl) as Hu.
  pose proof (Credentials_Update_ok (io (b_calls s)) (clock (b_calls s)) row (b_db s) (kn_dir _ _ Hk)) as Hd.
  destruct (Credentials_Update _ _ row (b_db s)) as [[[]|e] db']; [|subst db'; by eapply settled_failure].
  destruct Hu as (tab & -> & Hu). simpl in *. split_and!; [|done|intros _; split].
  - eapply frame_mono; [| | |by eapply frame_credential]; [|done..]. intros n ->. simpl. congruence.
  - destruct Hk as [_ Hc Hm Hns]. split; [done| |done|done]. simpl. by eapply ids_ok_upserts.
  - exists (cred_ID stored), (credential_set (clock (b_calls s)) row stored). destruct Hu as (-> & _). simpl. by rewrite lookup_insert_eq.
Qed.

Lemma create_credential_settles N id c s :
  id <> "" -> known N s ->
  settled (eq (bc_Name c)) none none N (credential_declared f c) s (createCredential io newID clock (Some f) true id c s).
Proof.
  intros Hid Hk. unfold createCredential, bbind, lift.
  destruct (sealInto _ _ _ _ _ _) as [sealed|e] eqn:Hs; [|by eapply settled_failure]. apply sealed_secrets in Hs as (H1 & H2 & H3).
  unfold write. set (row := mkOAuthCredential _ _ _ _ _ _ _ _ _ _ _ _ _ _).
  pose proof (credential_create_upserts (b_db s) (kn_dir _ _ Hk) (io (b_calls s)) (clock (b_calls s)) (newID (b_calls s)) row) as Hu.
  pose proof (Credentials_Create_ok (io (b_calls s)) (clock (b_calls s)) (newID (b_calls s)) row (b_db s) (kn_dir _ _ Hk)) as Hd.
  destruct (Credentials_Create _ _ _ row (b_db s)) as [[stored|e] db']; [|subst db'; by eapply settled_failure].
  destruct Hu as (Hst & tab & -> & Hu). simpl in *.
  assert (cred_ID stored = id) as Hsid by (rewrite Hst; simpl; by rewrite bool_decide_eq_false_2).
  assert (cred_Name stored = bc_Name c) as Hsn by (by rewrite Hst).
  split_and!; [|done|intros _; split].
  - eapply frame_mono; [| | |by eapply frame_credential]; [|done..]. intros n ->. by rewrite Hsn.
  - destruct Hk as [_ Hc Hm Hns]. split; [done| |done|done]. simpl. rewrite <-Hsn. exact (proj1 (ids_ok_upserts _ _ _ _ _ _ Hc Hu)).
  - exists id, stored. destruct Hu as (-> & _). simpl. rewrite <-Hsid, lookup_insert_eq, Hsid, Hst. simpl. by split_and!.
Qed.

Lemma apply_credential_settles N c :
  settles (eq (bc_Name c)) none none N N (applyCredential io newID clock (Some f) true c) (credential_declared f c).
Proof.
  intros s Hk. eapply settled_find; [exact Hk| |].
  - intros i stored [Ho Hn]%credential_found; [|by eapply kn_dir].
    apply (update_credential_settles N stored c (set_b_credentialIDs (<[bc_Name c := cred_ID stored]> (b_credentialIDs s)) (count_call s)));
      [|done|done].
    destruct Hk as [? Hc ??]. split; [done| |done|done]. by eapply ids_ok_insert.
  - apply (create_credential_settles N _ c (count_call (count_call s))); [by apply HnewID|]. by destruct Hk.
Qed.

(** ** Mailboxes *)

Lemma credential_resolved N m s :
  known N s ->
  match credential_id io m s with
  | (Ok id, s') => known N s' /\ b_db s' = b_db s
      /\ exists c, oauth_credentials (b_db s) !! id = Some c /\ cred_Name c = bm_Credential m
  | (Err _, s') => b_db s' = b_db s
  end.
Proof.
  intros Hk. unfold credential_id. destruct (b_credentialIDs s !! bm_Credential m) as [id|] eqn:Hi.
  - split_and!; [done|done|]. by apply (kn_credentials _ _ Hk).
  - destruct (Credentials_GetByName _ _ (b_db s)) as [c|e] eqn:Hg; [|done].
    apply credential_found in Hg as [Ho Hn]; [|by eapply kn_dir]. split_and!; [|done|by eauto].
    destruct Hk as [? Hc ??]. split; [done| |done|done]. by eapply ids_ok_insert.
Qed.

(** The row of a mailbox is written with the identifier of its credential. *)
Definition with_address (x : string) (N : string -> Prop) : string -> Prop := fun y => y = x \/ N y.

Lemma mailbox_written N m s s' tab row key cred :
  known N s -> b_db s' = set_mailboxes tab (b_db s) -> b_credentialIDs s' = b_credentialIDs s ->
  b_mailboxIDs s' = <[mb_Address row := key]> (b_mailboxIDs s) ->
  dir_ok (b_db s') -> upserts mb_Address key row (mailboxes (b_db s)) tab ->
  oauth_credentials (b_db s) !! mb_OAuthCredentialID row = Some cred -> cred_Name cred = bm_Credential m ->
  mb_Address row = ToLower (bm_Address m) -> mb_DisplayName row = bm_DisplayName m -> mb_Transport row = mailboxTransport m ->
  mb_RateLimitPerMin row = NullInt (bm_RateLimitPerMin m) -> mb_MaxConcurrent row = NullInt (bm_MaxConcurrent m) ->
  mb_Enabled row = negb (bm_Disabled m) -> mb_ManagedBy row = ManagedByBootstrap ->
  settled none (eq (ToLower (bm_Address m))) none (with_address (ToLower (bm_Address m)) N) (mailbox_declared m) s (@Ok BootError unit tt, s').
Proof.
  intros Hk Hs' Hids Hmids Hd Hu Hc Hcn Ha **. unfold settled. simpl. rewrite Hs' in *. split_and!; [|done|intros _; split].
  - eapply frame_mono; [| | |by eapply frame_mailbox]; [done| |done]. intros n ->. congruence.
  - destruct Hk as [_ Hkc Hkm Hns]. destruct (ids_ok_upserts _ _ _ _ _ _ Hkm Hu). split; rewrite ?Hs'; simpl; [done|by rewrite Hids|by rewrite Hmids|].
    intros x. unfold with_address. rewrite Hmids, lookup_insert_is_Some, Hns, Ha. destruct (decide (x = ToLower (bm_Address m))); naive_solver.
  - exists key, row, cred. destruct Hu as (-> & _). simpl. rewrite lookup_insert_eq. by split_and!.
Qed.

Lemma apply_mailbox_settles N m :
  settles none (eq (ToLower (bm_Address m))) none N (with_address (ToLower (bm_Address m)) N) (applyMailbox io newID clock true m) (mailbox_declared m).
Proof.
  intros s0 Hk0. unfold applyMailbox. unfold bbind at 1. pose proof (credential_resolved N m s0 Hk0) as Hcr.
  destruct (credential_id io m s0) as [[cid|e] s]; [|by eapply settled_failure]. destruct Hcr as (Hk & Hdb & cred & Hc & Hcn).
  apply (settled_from _ _ _ _ _ s); [done|]. rewrite <-Hdb in Hc. eapply settled_find; [exact Hk| |].
  - intros i stored [Ho Hn]%mailbox_found; [|by eapply kn_dir]. cbn [negb]. unfold bbind, remember_mailbox, bdo, write. cbn [b_db b_calls set_b_mailboxIDs count_call].
    set (row := mkMailbox _ _ _ _ _ _ _ _ _ _ _). set (i' := io _). set (t := clock _).
    pose proof (mailbox_update_upserts (b_db s) (kn_dir _ _ Hk) i' t row stored Ho eq_refl) as Hu.
    pose proof (Mailboxes_Update_ok i' t row (b_db s) (kn_dir _ _ Hk)) as Hd.
    destruct (Mailboxes_Update i' t row (b_db s)) as [[[]|e] db']; [|subst db'; by eapply settled_failure].
    destruct Hu as (tab & -> & Hu). eapply mailbox_written; [exact Hk|done|done| |done|exact Hu|done..].
    simpl. by rewrite Hn.
  - unfold bbind, fresh, remember_mailbox, bdo, write. cbn [b_db b_calls count_call].
    set (row := mkMailbox _ _ _ _ _ _ _ _ _ _ _). set (i' := io _). set (t := clock _). set (n' := newID (S _)).
    pose proof (mailbox_create_upserts (b_db s) (kn_dir _ _ Hk) i' t n' row) as Hu.
    pose proof (Mailboxes_Create_ok i' t n' row (b_db s) (kn_dir _ _ Hk)) as Hd.
    destruct (Mailboxes_Create i' t n' row (b_db s)) as [[stored|e] db']; [|subst db'; by eapply settled_failure].
    destruct Hu as (Hst & tab & -> & Hu). eapply mailbox_written; [exact Hk|done|done| |done|exact Hu|..]; rewrite Hst; try done.
    unfold mailbox_defaults, mailboxTransport. simpl. unfold mailboxTransport. by destruct (bool_decide (bm_Transport m = _)).
Qed.

(** ** Accounts *)

Definition with_list (l : list string) (N : string -> Prop) : string -> Prop := fun y => y ∈ ToLower <$> l \/ N y.

Lemma known_iff (N N' : string -> Prop) s : (forall x, N x <-> N' x) -> known N s -> known N' s.
Proof. intros Hx [H1 H2 H3 H4]. split; try done. intros x. by rewrite H4. Qed.

Lemma mailboxes_resolved N l s :
  known N s ->
  match mailbox_ids io l s with
  | (Ok ids, s') => known (with_list l N) s' /\ b_db s' = b_db s /\ b_mailboxIDs s ⊆ b_mailboxIDs s'
      /\ Forall2 (fun a id => b_mailboxIDs s' !! ToLower a = Some id) l ids
  | (Err _, s') => b_db s' = b_db s
  end.
Proof.
  revert N s. induction l as [|a l IH]; intros N s Hk; cbn [mailbox_ids].
  { split_and!; [|done..]. eapply known_iff; [|exact Hk]. intros x. unfold with_list. set_solver. }
  unfold bbind at 1.
  assert (match mailbox_id io a s with
    | (Ok id, s') => known (with_address (ToLower a) N) s' /\ b_db s' = b_db s /\ b_mailboxIDs s ⊆ b_mailboxIDs s' /\ b_mailboxIDs s' !! ToLower a = Some id
    | (Err _, s') => b_db s' = b_db s end) as Ha.
  { unfold mailbox_id. destruct (b_mailboxIDs s !! ToLower a) as [id|] eqn:Hi.
    { split_and!; [|done..]. eapply known_iff; [|exact Hk]. intros x. unfold with_address. split; [by right|]. intros [->|?]; [|done].
      apply (kn_names _ _ Hk). by rewrite Hi. }
    destruct (Mailboxes_GetByAddress _ _ (b_db s)) as [m|e] eqn:Hg; [|done]. apply mailbox_found in Hg as [Ho Hn]; [|by eapply kn_dir].
    split_and!; [|done|by apply insert_subseteq|by apply lookup_insert_eq]. destruct Hk as [?? Hm Hns]. split; [done|done|by eapply ids_ok_insert|].
    intros x. unfold with_address. simpl. rewrite lookup_insert_is_Some, Hns. destruct (decide (x = ToLower a)); naive_solver. }
  destruct (mailbox_id io a s) as [[id|e] s1]; [|done]. destruct Ha as (Hk1 & Hdb1 & Hsub1 & Hid).
  unfold bbind. specialize (IH _ s1 Hk1). destruct (mailbox_ids io l s1) as [[ids|e] s2]; [|congruence].
  destruct IH as (Hk2 & Hdb2 & Hsub2 & Hall). cbn. split_and!; [|congruence|by etrans|].
  { eapply known_iff; [|exact Hk2]. intros x. unfold with_list, with_address. rewrite fmap_cons, elem_of_cons. tauto. }
  constructor; [|done].
  by eapply lookup_weaken.
Qed.

(** The account's row and, perhaps, its links and senders were written. *)
Lemma frame_linked db db' tab key row :
  upserts acc_Username key row (smtp_accounts db) tab ->
  oauth_credentials db' = oauth_credentials db -> mailboxes db' = mailboxes db -> smtp_accounts db' = tab ->
  messages db' = messages db -> message_blobs db' = message_blobs db ->
  (forall a b, a <> key -> (a, b) ∈ smtp_account_mailboxes db' <-> (a, b) ∈ smtp_account_mailboxes db) ->
  (forall k s, as_SMTPAccountID s <> key -> allowed_senders db' !! k = Some s <-> allowed_senders db !! k = Some s) ->
  frame none none (eq (acc_Username row)) db db'.
Proof.
  intros Hu Hc Hm Ha Hg Hb Hl Hs.
  assert (forall a r, smtp_accounts db !! a = Some r -> acc_Username row <> acc_Username r -> a <> key) as Hne.
  { intros a r Hr Hn ->. destruct Hu as (_ & _ & H2). by rewrite (H2 r Hr) in Hn. }
  split; rewrite ?Hc, ?Hm, ?Ha; try done.
  - intros k r Hn. apply (upserts_same _ _ _ _ _ Hu). congruence.
  - intros a r b Hr Hn. symmetry. apply Hl. by eapply Hne.
  - intros k x r Hr Hn. symmetry. apply Hs. by eapply Hne.
Qed.

Definition link_post (id : string) (ids patterns : list string) (db db' : DB) : Prop :=
  exists l t, db' = set_allowed_senders t (set_account_mailboxes l db)
    /\ (forall a b, (a, b) ∈ l <-> (a <> id /\ (a, b) ∈ smtp_account_mailboxes db) \/ (a = id /\ b ∈ ids))
    /\ (forall k s, as_SMTPAccountID s <> id -> t !! k = Some s <-> allowed_senders db !! k = Some s)
    /\ (forall p, (exists k s, t !! k = Some s /\ as_SMTPAccountID s = id /\ as_Pattern s = p) <-> p ∈ patterns).

(** [linkAccount] succeeds completely, or what it changed is the account's. *)
Lemma link_account_cases id ids patterns s1 :
  dir_ok (b_db s1) ->
  let r := linkAccount io newID clock id ids patterns s1 in
  dir_ok (b_db r.2)
  /\ (r.1 = Ok tt -> link_post id ids patterns (b_db s1) (b_db r.2) /\ b_credentialIDs r.2 = b_credentialIDs s1 /\ b_mailboxIDs r.2 = b_mailboxIDs s1)
  /\ (exists l t, b_db r.2 = set_allowed_senders t (set_account_mailboxes l (b_db s1))
      /\ (forall a b, a <> id -> (a, b) ∈ l <-> (a, b) ∈ smtp_account_mailboxes (b_db s1))
      /\ (forall k x, as_SMTPAccountID x <> id -> t !! k = Some x <-> allowed_senders (b_db s1) !! k = Some x)).
Proof.
  intros Hd. cbv zeta. unfold linkAccount, bbind, write. set (i := io _).
  pose proof (SetMailboxes_ok i (fun _ => None) id ids (b_db s1) Hd) as Hd1.
  destruct (SetMailboxes_cases i (fun _ => None) id ids (b_db s1)) as [[e Hs]|(l & Hs & Hl & _)]; rewrite Hs in *; cbn [fst snd set_b_db b_db b_calls count_call] in *.
  { split_and!; [done|done|]. exists (smtp_account_mailboxes (b_db s1)), (allowed_senders (b_db s1)). by destruct (b_db s1). }
  set (s2 := set_account_mailboxes l (b_db s1)) in *. set (i2 := io _). set (t2 := clock _). set (ns := fun k : nat => newID _).
  pose proof (SetAllowedSenders_ok i2 (fun _ => None) ns t2 id patterns s2 Hd1) as Hd2.
  destruct (SetAllowedSenders_cases i2 (fun _ => None) ns t2 id patterns s2) as [[e Hs2]|(t & Hs2 & Ht & Hp)]; rewrite Hs2 in *; cbn [fst snd b_db] in *.
  - split_and!; [done|done|]. exists l, (allowed_senders (b_db s1)). split_and!; [by destruct (b_db s1)| |done]. intros a b Hne. rewrite Hl. naive_solver.
  - split_and!; [done| |].
    + intros _. split_and!; [|done|done]. exists l, t. by split_and!.
    + exists l, t. split_and!; [done| |done]. intros a b Hne. rewrite Hl. naive_solver.
Qed.

(** The identifiers of the account's list are those of its mailboxes. *)
Definition resolved (a : BAccount) (ids : list string) (s : BState) : Prop :=
  Forall2 (fun address id => b_mailboxIDs s !! ToLower address = Some id) (ba_Mailboxes a) ids.

Lemma resolved_mailboxes N a ids s b :
  known N s -> resolved a ids s -> b ∈ ids <-> exists address, address ∈ ba_Mailboxes a /\ mailbox_at (b_db s) address b.
Proof.
  intros Hk Hr. assert (forall address id, b_mailboxIDs s !! ToLower address = Some id -> mailbox_at (b_db s) address id) as Hat.
  { intros address id Hi. by apply (kn_mailboxes _ _ Hk). }
  split.
  - intros (i & Hi)%list_elem_of_lookup. destruct (Forall2_lookup_r _ _ _ _ _ Hr Hi) as (address & Ha & Hm).
    exists address. split; [by eapply list_elem_of_lookup_2|by apply Hat].
  - intros (address & (i & Ha)%list_elem_of_lookup & row & Hrow & Hn). destruct (Forall2_lookup_l _ _ _ _ _ Hr Ha) as (id & Hi & Hm).
    destruct (Hat _ _ Hm) as (row' & Hrow' & Hn').
    rewrite (to_unique _ _ _ _ (do_mailboxes _ (kn_dir _ _ Hk)) b id row row'); [by eapply list_elem_of_lookup_2|done|done|congruence].
Qed.

Lemma default_resolved N a ids s :
  known N s -> resolved a ids s ->
  default_declared N a (b_db s) (NullString (if negb (empty_text (ba_DefaultMailbox a)) then default "" (b_mailboxIDs s !! ToLower (ba_DefaultMailbox a))
    else default "" (head ids))).
Proof.
  intros Hk Hr. unfold empty_text. split_and!; intros Hd.
  - rewrite bool_decide_eq_true_2 by done. simpl. inversion Hr as [|address id ? ? Hi]; subst; [done|]. exists id. split; [|done].
    by apply (kn_mailboxes _ _ Hk).
  - rewrite bool_decide_eq_false_2 by done. simpl. intros [id Hm]%(kn_names _ _ Hk). rewrite Hm. simpl. exists id. split; [|done].
    by apply (kn_mailboxes _ _ Hk).
  - rewrite bool_decide_eq_false_2 by done. simpl. intros Hn. destruct (b_mailboxIDs s !! _) as [id|] eqn:Hm; [|done].
    destruct Hn. apply (kn_names _ _ Hk). by rewrite Hm.
Qed.

Lemma account_written N a ids s s1 tab key row g action :
  known N s -> resolved a ids s -> b_db s1 = set_smtp_accounts tab (b_db s) ->
  b_credentialIDs s1 = b_credentialIDs s -> b_mailboxIDs s1 = b_mailboxIDs s ->
  dir_ok (b_db s1) -> upserts acc_Username key row (smtp_accounts (b_db s)) tab ->
  (forall s, b_db (g s) = b_db s /\ b_credentialIDs (g s) = b_credentialIDs s /\ b_mailboxIDs (g s) = b_mailboxIDs s) ->
  acc_Username row = ba_Username a -> acc_PasswordHash row = ba_PasswordHash a ->
  acc_Description row = ba_Description a -> acc_FromPolicy row = accountPolicy a ->
  acc_AllowCIDRs row = ba_AllowCIDRs a -> acc_RateLimitPerMin row = NullInt (ba_RateLimitPerMin a) ->
  acc_Enabled row = negb (ba_Disabled a) -> acc_ManagedBy row = ManagedByBootstrap ->
  default_declared N a (b_db s) (acc_DefaultMailboxID row) ->
  settled none none (eq (ba_Username a)) N (account_declared N a) s
    ((linkAccount io newID clock key ids (ba_AllowedSenders a) ;;; bdo g ;;; boot_audit io newID clock action "smtp_account" key (ba_Username a)) s1).
Proof.
  intros Hk Hr Hs1 Hc Hm Hd Hu Hg Hname Hf1 Hf2 Hf3 Hf4 Hf5 Hf6 Hf7 Hdef. unfold bbind at 1.
  pose proof (link_account_cases key ids (ba_AllowedSenders a) s1 Hd) as Hl.
  destruct (linkAccount _ _ _ _ _ _ s1) as [res s2]. cbv zeta in Hl. simpl in Hl. destruct Hl as (Hd2 & Hok & l & t & Hs2 & Hll & Htt).
  assert (frame none none (eq (ba_Username a)) (b_db s) (b_db s2)) as Hframe.
  { rewrite <-Hname. eapply frame_linked; [exact Hu|..]; rewrite Hs2, Hs1; simpl; try done; rewrite Hs1 in Hll, Htt; [exact Hll|exact Htt]. }
  destruct res as [[]|e]; [|by split_and!]. destruct (Hok eq_refl) as ((l' & t' & Hpost & Hl' & Ht' & Hp') & Hc2 & Hm2).
  unfold bbind, bdo, boot_audit, settled. cbn [fst snd]. destruct (Hg s2) as (Hg1 & Hg2 & Hg3). simpl. rewrite Hg1.
  split_and!; [done|done|intros _; split].
  - split; simpl; rewrite ?Hg1; [done| | |]; rewrite ?Hg2, ?Hg3, ?Hs2, ?Hs1, ?Hc2, ?Hm2, ?Hc, ?Hm; by apply Hk.
  - exists key, row. rewrite Hpost, Hs1 in *. destruct Hu as (-> & _). simpl. rewrite lookup_insert_eq. split_and!; try done.
    { intros address (i & Ha)%list_elem_of_lookup. destruct (Forall2_lookup_l _ _ _ _ _ Hr Ha) as (b & _ & Hi). exists b. by apply (kn_mailboxes _ _ Hk). }
    intros b. rewrite Hl'. pose proof (resolved_mailboxes N a ids s b Hk Hr) as Hb. simpl. unfold mailbox_at in *. simpl. rewrite <-Hb. naive_solver.
Qed.

Lemma apply_account_settles N a :
  settles none none (eq (ba_Username a)) N (with_list (ba_Mailboxes a) N) (applyAccount io newID clock true a)
    (account_declared (with_list (ba_Mailboxes a) N) a).
Proof.
  intros s0 Hk0. unfold applyAccount. unfold bbind at 1. pose proof (mailboxes_resolved N (ba_Mailboxes a) s0 Hk0) as Hres.
  destruct (mailbox_ids io (ba_Mailboxes a) s0) as [[ids|e] s]; [|by eapply settled_failure]. destruct Hres as (Hk & Hdb & _ & Hr).
  apply (settled_from _ _ _ _ _ s); [done|]. unfold bbind at 1. cbn [default_id]. set (def := if negb _ then _ else _).
  pose proof (default_resolved _ a ids s Hk Hr) as Hdef. fold def in Hdef. eapply settled_find; [exact Hk| |].
  - intros i stored [Ho Hn]%account_found; [|by eapply kn_dir]. cbn [negb]. unfold bbind at 1, write. cbn [b_db b_calls count_call].
    set (row := mkSMTPAccount _ _ _ _ _ _ _ _ _ _ _ _ _). set (i' := io _). set (t := clock _).
    pose proof (account_update_upserts (b_db s) (kn_dir _ _ Hk) i' t row stored Ho eq_refl) as Hu.
    pose proof (Accounts_Update_ok i' t row (b_db s) (kn_dir _ _ Hk)) as Hd.
    destruct (Accounts_Update i' t row (b_db s)) as [[[]|e] db']; [|subst db'; by eapply settled_failure].
    destruct Hu as (tab & -> & Hu). by eapply account_written.
  - unfold fresh. unfold bbind at 1. unfold bbind at 1, write. cbn [b_db b_calls count_call].
    set (row := mkSMTPAccount _ _ _ _ _ _ _ _ _ _ _ _ _). set (i' := io _). set (t := clock _). set (n' := newID (S _)).
    pose proof (account_create_upserts (b_db s) (kn_dir _ _ Hk) i' t n' row) as Hu.
    pose proof (Accounts_Create_ok i' t n' row (b_db s) (kn_dir _ _ Hk)) as Hd.
    destruct (Accounts_Create i' t n' row (b_db s)) as [[stored|e] db']; [|subst db'; by eapply settled_failure].
    destruct Hu as (Hst & tab & -> & Hu). eapply account_written; try done; rewrite Hst; try done.
    unfold account_defaults. simpl. unfold accountPolicy. by repeat destruct (bool_decide (ba_FromPolicy a = _)).
Qed.
End Objects.

(** ** Runs of several objects *)

Lemma settles_seq (Dc Dm Da Dc' Dm' Da' N N' N'' : string -> Prop) (m m' : B unit) (Q Q' : DB -> Prop) :
  settles Dc Dm Da N N' m Q -> settles Dc' Dm' Da' N' N'' m' Q' ->
  (forall db db', frame Dc' Dm' Da' db db' -> Q db -> Q db') ->
  settles (fun n => Dc n \/ Dc' n) (fun n => Dm n \/ Dm' n) (fun n => Da n \/ Da' n) N N'' (m ;;; m') (fun db => Q db /\ Q' db).
Proof.
  intros H1 H2 Hst s Hk. unfold bbind. destruct (H1 s Hk) as (F1 & Hd1 & Hok1). destruct (m s) as [[[]|e] s1]; simpl in *.
  - destruct (Hok1 eq_refl) as [Hk1 HQ]. destruct (H2 s1 Hk1) as (F2 & Hd2 & Hok2). split_and!; [by eapply frame_trans|done|].
    intros Hok. destruct (Hok2 Hok) as [Hk2 HQ']. split_and!; [done|by eapply Hst|done].
  - split_and!; [eapply frame_mono; [..|exact F1]; auto|done|done].
Qed.

Lemma settles_weaken {A} (Dc Dm Da Dc' Dm' Da' N N' N'' : string -> Prop) (m : B A) (Q Q' : DB -> Prop) :
  settles Dc Dm Da N N' m Q -> (forall n, Dc n -> Dc' n) -> (forall n, Dm n -> Dm' n) -> (forall n, Da n -> Da' n) ->
  (forall x, N' x <-> N'' x) -> (forall db, Q db -> Q' db) -> settles Dc' Dm' Da' N N'' m Q'.
Proof.
  intros H Hc Hm Ha HN HQ s Hk. destruct (H s Hk) as (F & Hd & Hok). split_and!; [by eapply frame_mono|done|]. intros He.
  destruct (Hok He). split; [by eapply known_iff|auto].
Qed.

(** The three kinds of object, and a set of names of one kind. *)
Inductive kind := KCredential | KMailbox | KAccount.

#[export] Instance kind_eq_dec : EqDecision kind.
Proof. solve_decision. Defined.

Definition only (k k' : kind) (D : string -> Prop) : string -> Prop := if decide (k = k') then D else none.

Definition frame_of (k : kind) (D : string -> Prop) : DB -> DB -> Prop :=
  frame (only k KCredential D) (only k KMailbox D) (only k KAccount D).

Definition settles_of {A} (k : kind) (D N N' : string -> Prop) : B A -> (DB -> Prop) -> Prop :=
  settles (only k KCredential D) (only k KMailbox D) (only k KAccount D) N N'.

(** The addresses resolved after a list of objects. *)
Fixpoint after_each {A} (grow : A -> (string -> Prop) -> string -> Prop) (l : list A) (N : string -> Prop) : string -> Prop :=
  match l with [] => N | x :: l => after_each grow l (grow x N) end.

Lemma known_start db log : dir_ok db -> known none (start db log).
Proof. intros Hd. split; [done..|]. intros x. simpl. rewrite lookup_empty. split; [by intros [? ?]|by intros []]. Qed.

(** Each object is as declared, given the addresses resolved when it was
    applied. *)
Fixpoint each_declared {A} (grow : A -> (string -> Prop) -> string -> Prop) (Q : (string -> Prop) -> A -> DB -> Prop)
    (l : list A) (N : string -> Prop) (db : DB) : Prop :=
  match l with [] => True | x :: l => Q (grow x N) x db /\ each_declared grow Q l (grow x N) db end.

Lemma each_declared_split {A} grow (Q : (string -> Prop) -> A -> DB -> Prop) before x after N db :
  each_declared grow Q (before ++ x :: after) N db -> Q (after_each grow (before ++ [x]) N) x db.
Proof. revert N. induction before as [|y before IH]; intros N; simpl; [by intros [H _]|]. intros [_ H]. by apply IH. Qed.

Lemma each_declared_Forall {A} grow (Q : A -> DB -> Prop) l N db : each_declared grow (fun _ => Q) l N db -> Forall (fun x => Q x db) l.
Proof. revert N. induction l as [|x l IH]; intros N; simpl; [by constructor|]. intros [H1 H2]. constructor; [done|]. by eapply IH. Qed.

Lemma each_declared_mono {A} grow (Q : (string -> Prop) -> A -> DB -> Prop) l N db db' :
  (forall N x, Q N x db -> Q N x db') -> each_declared grow Q l N db -> each_declared grow Q l N db'.
Proof. intros HQ. revert N. induction l as [|x l IH]; intros N; simpl; [done|]. intros [H1 H2]. split; [by apply HQ|by apply IH]. Qed.

(** Objects with distinct names do not disturb each other. *)
Lemma settles_each {A} k (apply : A -> B unit) (name : A -> string) grow (Q : (string -> Prop) -> A -> DB -> Prop) (l : list A) N :
  NoDup (name <$> l) ->
  (forall N x, settles_of k (eq (name x)) N (grow x N) (apply x) (Q (grow x N) x)) ->
  (forall N x D db db', ~ D (name x) -> frame_of k D db db' -> Q N x db -> Q N x db') ->
  settles_of k (fun n => n ∈ name <$> l) N (after_each grow l N) (apply_each apply l) (each_declared grow Q l N).
Proof.
  intros Hnd Happ Hst. revert N. induction l as [|x l IH]; intros N.
  - intros s Hk. split_and!; [apply frame_refl|by eapply kn_dir|done].
  - inversion Hnd as [|? ? Hx Hnd']. subst. cbn [apply_each after_each].
    eapply settles_weaken; [eapply settles_seq; [apply (Happ N x)|by apply IH|]| | | | |].
    + intros db db' Hf HQ. eapply (Hst _ x); [|exact Hf|exact HQ]. done.
    + unfold only. intros n. case_decide; [|by intros []]. set_solver.
    + unfold only. intros n. case_decide; [|by intros []]. set_solver.
    + unfold only. intros n. case_decide; [|by intros []]. set_solver.
    + done.
    + by intros db [H1 H2].
Qed.

(** ** A declared object is not disturbed by other names *)

Section Stable.
Context `{UC : UnicodeCase}.

Lemma frame_credential_rows Dm Da db db' : frame none Dm Da db db' -> oauth_credentials db' = oauth_credentials db.
Proof. intros F. symmetry. apply (same_but_none cred_Name), F. Qed.

Lemma frame_mailbox_rows Dc Da db db' : frame Dc none Da db db' -> mailboxes db' = mailboxes db.
Proof. intros F. symmetry. apply (same_but_none mb_Address), F. Qed.

Lemma credential_declared_stable f c Dc Dm Da db db' :
  ~ Dc (bc_Name c) -> frame Dc Dm Da db db' -> credential_declared f c db -> credential_declared f c db'.
Proof.
  intros Hn F (id & row & Hrow & Hname & H). exists id, row. split; [|by split].
  apply (fr_credentials _ _ _ _ _ F); [by rewrite Hname|done].
Qed.

Lemma mailbox_declared_stable m Dm Da db db' :
  ~ Dm (ToLower (bm_Address m)) -> frame none Dm Da db db' -> mailbox_declared m db -> mailbox_declared m db'.
Proof.
  intros Hn F (id & row & cred & Hrow & Hname & H). exists id, row, cred. rewrite (frame_credential_rows _ _ _ _ F). split; [|by split].
  apply (fr_mailboxes _ _ _ _ _ F); [by rewrite Hname|done].
Qed.

Lemma account_declared_stable N a Dc Da db db' :
  ~ Da (ba_Username a) -> frame Dc none Da db db' -> account_declared N a db -> account_declared N a db'.
Proof.
  intros Hn F (id & row & Hrow & Hname & H1 & H2 & H3 & H4 & H5 & H6 & H7 & Hdef & Hex & Hl & Hs). exists id, row.
  rewrite <-Hname in Hn. pose proof (frame_mailbox_rows _ _ _ _ F) as Hm. unfold default_declared, mailbox_at in *. rewrite Hm.
  split; [|repeat (split; [done|]); split].
  - by apply (fr_accounts _ _ _ _ _ F).
  - intros b. by rewrite <-(fr_links _ _ _ _ _ F id row b).
  - intros p. rewrite <-Hs. split; intros (k & x & Hk & Hid & Hp); exists k, x; split_and!; try done;
      (eapply (fr_senders _ _ _ _ _ F k x row); [by rewrite Hid|done|done]).
Qed.

(** ** What validation gives *)

Context `{NM : NetMail} `{GF : GoFmt}.

Lemma problem_if_nil b w : problem_if b w = [] -> b = false.
Proof. by destruct b. Qed.

Lemma valid_credentials seen cs :
  validate_credentials seen cs = [] -> NoDup (bc_Name <$> cs) /\ (forall n, n ∈ bc_Name <$> cs -> n ∉ seen).
Proof.
  revert seen. induction cs as [|c cs IH]; intros seen; simpl; [split; [constructor|set_solver]|]. rewrite !app_nil.
  intros (H1 & _ & _ & _ & [Hnd Hns]%IH). case_match; [done|]. apply problem_if_nil, bool_decide_eq_false in H1. split.
  - constructor; [|done]. intros Hin. apply (Hns _ Hin). left.
  - intros n [->|Hin]%elem_of_cons; [done|]. specialize (Hns n Hin). set_solver.
Qed.

Lemma valid_mailboxes seen ms :
  validate_mailboxes seen ms = [] ->
  NoDup ((fun m => ToLower (bm_Address m)) <$> ms) /\ (forall n, n ∈ (fun m => ToLower (bm_Address m)) <$> ms -> n ∉ seen).
Proof.
  revert seen. induction ms as [|m ms IH]; intros seen; simpl; [split; [constructor|set_solver]|]. case_match; [done|]. rewrite !app_nil.
  intros (H1 & _ & _ & _ & _ & _ & [Hnd Hns]%IH). apply problem_if_nil, bool_decide_eq_false in H1. split.
  - constructor; [|done]. intros Hin. apply (Hns _ Hin). left.
  - intros n [->|Hin]%elem_of_cons; [done|]. specialize (Hns n Hin). set_solver.
Qed.

Lemma valid_accounts seen accs :
  validate_accounts seen accs = [] -> NoDup (ba_Username <$> accs) /\ (forall n, n ∈ ba_Username <$> accs -> n ∉ seen).
Proof.
  revert seen. induction accs as [|a accs IH]; intros seen; simpl; [split; [constructor|set_solver]|]. case_match; [done|]. rewrite !app_nil.
  intros (H1 & _ & _ & _ & _ & [Hnd Hns]%IH). apply problem_if_nil, bool_decide_eq_false in H1. split.
  - constructor; [|done]. intros Hin. apply (Hns _ Hin). left.
  - intros n [->|Hin]%elem_of_cons; [done|]. specialize (Hns n Hin). set_solver.
Qed.

(** ** The whole file *)

(** The addresses resolved when the last of these accounts of the file is
    applied: those of the file's mailboxes and of the accounts' own lists. *)
Definition resolved_by (file : File) (accounts : list BAccount) (x : string) : Prop :=
  x ∈ (fun m => ToLower (bm_Address m)) <$> fl_Mailboxes file \/ exists a, a ∈ accounts /\ x ∈ ToLower <$> ba_Mailboxes a.

Definition declared (f : string -> string -> result string string) (file : File) (db : DB) : Prop :=
  Forall (fun c => credential_declared f c db) (fl_Credentials file)
  /\ Forall (fun m => mailbox_declared m db) (fl_Mailboxes file)
  /\ (forall before a after, fl_Accounts file = before ++ a :: after -> account_declared (resolved_by file (before ++ [a])) a db).

Lemma after_mailboxes ms N x :
  after_each (fun m => with_address (ToLower (bm_Address m))) ms N x <-> x ∈ (fun m => ToLower (bm_Address m)) <$> ms \/ N x.
Proof.
  revert N. induction ms as [|m ms IH]; intros N; simpl; [set_solver|]. rewrite IH. unfold with_address. rewrite elem_of_cons. tauto.
Qed.

Lemma after_accounts accs N x :
  after_each (fun a => with_list (ba_Mailboxes a)) accs N x <-> (exists a, a ∈ accs /\ x ∈ ToLower <$> ba_Mailboxes a) \/ N x.
Proof.
  revert N. induction accs as [|a accs IH]; intros N; simpl; [split; [by right|intros [(? & H & _)|?]; [by apply elem_of_nil in H|done]]|].
  rewrite IH. unfold with_list. setoid_rewrite elem_of_cons. naive_solver.
Qed.

Lemma after_credentials (cs : list BCredential) (N : string -> Prop) : after_each (fun _ N => N) cs N = N.
Proof. by induction cs. Qed.

Lemma resolved_iff file accs x :
  after_each (fun a => with_list (ba_Mailboxes a)) accs
    (after_each (fun m => with_address (ToLower (bm_Address m))) (fl_Mailboxes file) (after_each (fun _ N => N) (fl_Credentials file) none)) x
  <-> resolved_by file accs x.
Proof. rewrite after_accounts, after_mailboxes, after_credentials. unfold resolved_by, none. tauto. Qed.

Lemma account_declared_iff (N N' : string -> Prop) a db : (forall x, N x <-> N' x) -> account_declared N a db -> account_declared N' a db.
Proof.
  intros Hx (id & row & H). exists id, row. unfold default_declared in *. setoid_rewrite <-Hx. exact H.
Qed.

Lemma apply_settles io newID clock f file :
  (forall n, newID n <> "") -> validate file = [] ->
  settles (fun n => n ∈ bc_Name <$> fl_Credentials file) (fun n => n ∈ (fun m => ToLower (bm_Address m)) <$> fl_Mailboxes file)
    (fun n => n ∈ ba_Username <$> fl_Accounts file) none (resolved_by file (fl_Accounts file)) (Apply io newID clock (Some f) true file) (declared f file).
Proof.
  unfold validate. rewrite !app_nil. intros Hid ([Hc _]%valid_credentials & [Hm _]%valid_mailboxes & [Ha _]%valid_accounts).
  pose proof (settles_each KCredential (applyCredential io newID clock (Some f) true) bc_Name (fun _ N => N) (fun _ => credential_declared f) _ none Hc
    (fun N c => apply_credential_settles io newID clock f Hid N c) (fun _ c D db db' H => credential_declared_stable f c D none none db db' H)) as S1.
  pose proof (settles_each KMailbox (applyMailbox io newID clock true) (fun m => ToLower (bm_Address m))
    (fun m => with_address (ToLower (bm_Address m))) (fun _ => mailbox_declared) _ (after_each (fun _ N => N) (fl_Credentials file) none) Hm
    (fun N m => apply_mailbox_settles io newID clock f N m) (fun _ m D db db' H => mailbox_declared_stable m D none db db' H)) as S2.
  pose proof (settles_each KAccount (applyAccount io newID clock true) ba_Username (fun a => with_list (ba_Mailboxes a)) account_declared _
    (after_each (fun m => with_address (ToLower (bm_Address m))) (fl_Mailboxes file) (after_each (fun _ N => N) (fl_Credentials file) none)) Ha
    (fun N a => apply_account_settles io newID clock f Hid N a) (fun N a D db db' H => account_declared_stable N a none D db db' H)) as S3.
  eapply settles_weaken; [eapply settles_seq; [exact S1|eapply settles_seq; [exact S2|exact S3|]|]| | | | |].
  - intros db db' F Hall. eapply each_declared_mono; [|exact Hall]. intros _ m. eapply mailbox_declared_stable; [|exact F]. by intros [].
  - intros db db' F Hall. eapply each_declared_mono; [|exact Hall]. intros _ c. eapply credential_declared_stable; [|exact F]. by intros [[]|[]].
  - unfold only, none. intros n. repeat case_decide; done || tauto.
  - unfold only, none. intros n. repeat case_decide; done || tauto.
  - unfold only, none. intros n. repeat case_decide; done || tauto.
  - intros x. apply resolved_iff.
  - intros db (H1 & H2 & H3). split_and!; [by eapply each_declared_Forall..|]. intros before a after Hl. rewrite Hl in H3.
    apply each_declared_split in H3. eapply account_declared_iff; [|exact H3]. intros x. by rewrite resolved_iff.
Qed.
End Stable.

(** C19: reconciling makes the file true. For a validated file and a consistent
    database, whichever call fails, [Apply] leaves every credential, mailbox
    and account the file does not name exactly as it was, with its links and
    allowed senders, every message untouched and the directory consistent; and
    when it succeeds, every object of the file is in the database as declared:
    its fields, its secrets sealed for that row, the mailbox's credential by
    name, the account's mailboxes and sender patterns exactly those listed,
    and that it belongs to the file. The account's default mailbox is the one
    it names, or the first of its list when it names none; but a name is only
    understood if it is one of the file's mailboxes or in the list of this
    account or of one before it: otherwise, which validation lets pass for an
    account with an empty list, the account has no default mailbox at all. *)
Theorem reconcile_makes_the_file_true `{UnicodeCase} `{NetMail} `{GoFmt} io newID clock f file db log :
  dir_ok db -> (forall n, newID n <> "") -> validate file = [] ->
  let r := Apply io newID clock (Some f) true file (start db log) in
  frame (fun n => n ∈ bc_Name <$> fl_Credentials file) (fun n => n ∈ (fun m => ToLower (bm_Address m)) <$> fl_Mailboxes file)
    (fun n => n ∈ ba_Username <$> fl_Accounts file) db (b_db r.2)
  /\ dir_ok (b_db r.2)
  /\ (r.1 = Ok tt -> declared f file (b_db r.2)).
Proof.
  intros Hd Hid Hv. cbv zeta. destruct (apply_settles io newID clock f file Hid Hv (start db log)) as (F & Hd' & Hok).
  { by apply known_start. }
  split_and!; [done|done|]. intros Hr. by apply Hok; rewrite Hr.
Qed.

(** ** A file that is applied *)

#[local] Existing Instance boot_case.
#[local] Instance boot_mail : NetMail := {| mail_ParseAddress := fun s => Ok ("", s); mail_ParseAddressList := fun s => Ok [("", s)]; mail_Address_String := snd |}.
#[local] Instance boot_fmt : GoFmt := {| Quote := id |}.

Definition boot_seal (value context : string) : result string string := Ok (value +:+ "#" +:+ context).

(** The credential and the account exist, the mailbox is new. *)
Definition boot_file : File :=
  mkFile [mkBCredential "tenant" "t2" "c2" "secret" "s3cret" "" "" ""]
    [mkBMailbox "alerts@x" "Alerts" "tenant" "graph" 10 0 false]
    [mkBAccount "printer" "new" "$argon2id$y" ["alerts@x"; "scan@x"] "scan@x" ["*@x"] "rewrite" [] 5 false].

Definition boot_run (n : Z) (db : DB) : result BootError unit * BState :=
  Apply (fun _ => None) sample_ids (fun _ => n) (Some boot_seal) true boot_file (start db ∅).

Lemma sample_ids_nonempty n : sample_ids n <> "".
Proof. done. Qed.

Lemma reconcile_makes_the_file_true_witness :
  (boot_run 7 dir_db).1 = Ok tt /\ b_result (boot_run 7 dir_db).2 = mkResult 1 2 0 /\ validate boot_file = []
  /\ declared boot_seal boot_file (b_db (boot_run 7 dir_db).2).
Proof.
  split; [vm_compute; reflexivity|]. split; [vm_compute; reflexivity|]. split; [vm_compute; reflexivity|].
  refine (proj2 (proj2 (reconcile_makes_the_file_true (fun _ => None) sample_ids (fun _ => 7) boot_seal boot_file dir_db ∅ dir_db_ok sample_ids_nonempty _)) _);
    vm_compute; reflexivity.
Defined.
