(* ===== verification/Tokens.v ===== *)
(** * Access tokens

    [internal/oauth/provider.go]: the token source of the transports. It keeps
    one client of Microsoft's library per credential, under a fingerprint of the
    material the client was built from. The library (credentials from a secret
    or a certificate, clients, requests) and SHA-256 are parameters.

    The mutex is held for one access to the map at a time: other deliveries and
    the management API run between the look-up and the store of one request, so
    [clientFor] is given the map it looks into and the map it stores into. *)

From stdpp Require Import base gmap strings list.
From Stdlib Require Import ZArith Lia Ascii.
From S2P Require Import Prelude GoStrings GoStringsFacts Base64 StoreModels Directory Policy Keyring.

Open Scope Z_scope.

Inductive TokenError :=
| ErrCredentialUnusable (what : string)
| ErrTokenRequestFailed (what : string)
| ErrOAuth (what : string).

(** ** Tokens *)

Record Token := mkToken { AccessToken : string; ExpiresAt : Z }.

Definition RefreshMargin : Z := 5 * Minute.

Definition Expired (t : Token) (now margin : Z) : bool := negb (now + margin <? ExpiresAt t).

Definition Usable (t : Token) (now : Z) : bool := negb (bool_decide (AccessToken t = "")) && negb (Expired t now RefreshMargin).

(** ** Authorities *)

Definition DefaultAuthorityHost : string := "https://login.microsoftonline.com".

Definition AuthorityURL (host tenantID : string) : result TokenError string :=
  if bool_decide (tenantID = "") then Err (ErrOAuth "oauth: a tenant id is required")
  else Ok (TrimRight (if bool_decide (host = "") then DefaultAuthorityHost else host) "/" +:+ "/" +:+ tenantID).

(** ** Error texts *)

Definition describe `{GoFmt} (c : OAuthCredential) : string :=
  if negb (bool_decide (cred_Name c = "")) then "credential " +:+ Quote (cred_Name c) +:+ " (client " +:+ cred_ClientID c +:+ ")"
  else "client " +:+ cred_ClientID c.

Definition token_markers : list string := ["access_token"; "client_assertion"; "client_secret"; "refresh_token"].

(** The loop of [redactToken] over the markers. *)
Fixpoint redact_at (markers : list string) (msg : string) : string :=
  match markers with
  | [] => msg
  | marker :: markers =>
      match Index marker msg with
      | Some i => TrimSpace (take_bytes i msg) +:+ " [redacted: the response mentioned " +:+ marker +:+ "]"
      | None => redact_at markers msg
      end
  end.

Definition redactToken (msg : string) : string := redact_at token_markers msg.

(** ** The provider *)

(** What a fingerprint covers of a credential, in its order. *)
Definition authtype_text (a : AuthType) : string :=
  match a with AuthTypeSecret => "secret" | AuthTypeCertificate => "certificate" | AuthTypeOther s => s end.

Definition NUL : ascii := chr 0.

Section Provider.
Context `{GF : GoFmt}.
Context {MsalCred Client Cert Key : Type}.
Context (NewCredFromSecret : string -> result string MsalCred).
Context (CertFromPEM : string -> result string (list Cert * Key)).
Context (NewCredFromCert : list Cert -> Key -> result string MsalCred).
Context (confidential_New : string -> string -> MsalCred -> bool -> result string Client).
Context (sha256_hex : string -> string).

Record Provider := mkProvider { pv_keyring : Keyring; pv_instanceDiscovery : bool; pv_defaultAuthorityHost : string }.

(** [clients]: by credential, the client and its fingerprint. *)
Abbreviation Clients := (gmap string (Client * string)).

(** [NewProvider] with the two options the program uses. *)
Definition NewProvider (k : Keyring) (authorityHost : option string) (withoutDiscovery : bool) : Provider :=
  mkProvider k (negb withoutDiscovery)
    (match authorityHost with
     | Some host => if negb (bool_decide (host = "")) then host else DefaultAuthorityHost
     | None => DefaultAuthorityHost
     end).

Context (p : Provider).

Definition fingerprint_parts (c : OAuthCredential) : list string :=
  [cred_TenantID c; cred_ClientID c; authtype_text (cred_AuthType c); cred_AuthorityHost c;
   cred_ClientSecretEnc c; cred_CertificatePEM c; cred_CertificateKeyEnc c; pv_defaultAuthorityHost p].

(** What is hashed: every part, ended by a zero byte. *)
Fixpoint hashed (parts : list string) : string :=
  match parts with
  | [] => ""
  | part :: parts => part +:+ String NUL (hashed parts)
  end.

Definition fingerprintOf (c : OAuthCredential) : string := sha256_hex (hashed (fingerprint_parts c)).

Definition certificateFor (c : OAuthCredential) : result TokenError (list Cert * Key) :=
  match Decrypt (pv_keyring p) (cred_CertificateKeyEnc c) (CertificateKeyContext (cred_ID c)) with
  | Err _ => Err (ErrCredentialUnusable ("decrypting the certificate key for " +:+ describe c))
  | Ok keyPEM =>
      match CertFromPEM (cred_CertificatePEM c +:+ String LF keyPEM) with
      | Err e => Err (ErrCredentialUnusable ("parsing the certificate for " +:+ describe c +:+ ": " +:+ e))
      | Ok ([], _) => Err (ErrCredentialUnusable (describe c +:+ " has no certificate"))
      | Ok (certs, key) => Ok (certs, key)
      end
  end.

Definition unusable {A} (c : OAuthCredential) (r : result string A) : result TokenError A :=
  match r with Ok a => Ok a | Err e => Err (ErrCredentialUnusable (describe c +:+ ": " +:+ e)) end.

Definition credentialFor (c : OAuthCredential) : result TokenError MsalCred :=
  match cred_AuthType c with
  | AuthTypeSecret =>
      match Decrypt (pv_keyring p) (cred_ClientSecretEnc c) (SecretContext (cred_ID c)) with
      | Err _ => Err (ErrCredentialUnusable ("decrypting the client secret for " +:+ describe c))
      | Ok secret => unusable c (NewCredFromSecret secret)
      end
  | AuthTypeCertificate =>
      match certificateFor c with
      | Err e => Err e
      | Ok (certs, key) => unusable c (NewCredFromCert certs key)
      end
  | AuthTypeOther t => Err (ErrCredentialUnusable (describe c +:+ " has an unknown authentication type " +:+ Quote t))
  end.

Definition authority_host (c : OAuthCredential) : string :=
  if bool_decide (cred_AuthorityHost c = "") then pv_defaultAuthorityHost p else cred_AuthorityHost c.

Definition buildClient (c : OAuthCredential) : result TokenError Client :=
  match credentialFor c with
  | Err e => Err e
  | Ok msalCred =>
      match AuthorityURL (authority_host c) (cred_TenantID c) with
      | Err e => Err e
      | Ok authority =>
          match confidential_New authority (cred_ClientID c) msalCred (pv_instanceDiscovery p) with
          | Err e => Err (ErrCredentialUnusable ("building a client for " +:+ describe c +:+ ": " +:+ e))
          | Ok client => Ok client
          end
      end
  end.

(** [clientFor]: looks into [seen], stores into [clients]. *)
Definition clientFor (c : OAuthCredential) (seen clients : Clients) : result TokenError Client * Clients :=
  let build :=
    match buildClient c with
    | Err e => (Err e, clients)
    | Ok client => (Ok client, <[cred_ID c := (client, fingerprintOf c)]> clients)
    end in
  match seen !! cred_ID c with
  | Some (client, fingerprint) => if bool_decide (fingerprint = fingerprintOf c) then (Ok client, clients) else build
  | None => build
  end.

Definition Forget (credentialID : string) (clients : Clients) : Clients := delete credentialID clients.

(** [Token]: [acquire] is what the client answers. *)
Definition Provider_Token (acquire : Client -> string -> result string (string * Z)) (c : OAuthCredential) (scope : string)
    (seen clients : Clients) : result TokenError Token * Clients :=
  if bool_decide (scope = "") then (Err (ErrOAuth "oauth: a scope is required"), clients)
  else match clientFor c seen clients with
  | (Err e, clients) => (Err e, clients)
  | (Ok client, clients) =>
      (match acquire client scope with
       | Err e => Err (ErrTokenRequestFailed ("for " +:+ describe c +:+ ": " +:+ redactToken e))
       | Ok (token, expires) =>
           if bool_decide (token = "") then Err (ErrTokenRequestFailed ("for " +:+ describe c +:+ ": the response contained no access token"))
           else Ok (mkToken token expires)
       end, clients)
  end.
End Provider.

(** ** Fingerprints *)

Definition no_nul (s : string) : Prop := contains_byte s NUL = false.

(** What a fingerprint can tell apart: text without zero bytes, and an
    authentication type of the schema's. *)
Definition plain_credential (c : OAuthCredential) : Prop :=
  known_auth_type (cred_AuthType c) = true /\
  Forall no_nul [cred_TenantID c; cred_ClientID c; cred_AuthorityHost c; cred_ClientSecretEnc c; cred_CertificatePEM c; cred_CertificateKeyEnc c].

Lemma hashed_inj l1 l2 tail :
  length l1 = length l2 -> Forall no_nul l1 -> Forall no_nul l2 -> hashed (l1 ++ tail) = hashed (l2 ++ tail) -> l1 = l2.
Proof.
  revert l2. induction l1 as [|a l1 IH]; intros [|b l2]; try done. intros [= Hl] [Ha H1]%Forall_cons [Hb H2]%Forall_cons H. simpl in H.
  pose proof (cut_byte_app NUL a (hashed (l1 ++ tail)) Ha) as Hc. rewrite H, (cut_byte_app NUL b (hashed (l2 ++ tail)) Hb) in Hc. injection Hc as -> Hh.
  f_equal. by apply IH.
Qed.

(** Two credentials that ask for tokens in the same way. *)
Definition same_material (c d : OAuthCredential) : Prop :=
  cred_ID c = cred_ID d /\ cred_TenantID c = cred_TenantID d /\ cred_ClientID c = cred_ClientID d /\ cred_AuthType c = cred_AuthType d /\
  cred_AuthorityHost c = cred_AuthorityHost d /\ cred_ClientSecretEnc c = cred_ClientSecretEnc d /\
  cred_CertificatePEM c = cred_CertificatePEM d /\ cred_CertificateKeyEnc c = cred_CertificateKeyEnc d.

#[export] Instance same_material_dec c d : Decision (same_material c d).
Proof. unfold same_material. apply _. Defined.

Lemma authtype_text_inj a b : known_auth_type a = true -> known_auth_type b = true -> authtype_text a = authtype_text b -> a = b.
Proof. by destruct a, b. Qed.

Lemma authtype_no_nul a : known_auth_type a = true -> no_nul (authtype_text a).
Proof. by destruct a. Qed.

(** ** The cache *)

Section Cache.
Context `{GF : GoFmt}.
Context {MsalCred Client Cert Key : Type}.
Context (NewCredFromSecret : string -> result string MsalCred).
Context (CertFromPEM : string -> result string (list Cert * Key)).
Context (NewCredFromCert : list Cert -> Key -> result string MsalCred).
Context (confidential_New : string -> string -> MsalCred -> bool -> result string Client).
Context (sha256_hex : string -> string) (p : Provider).

Local Abbreviation build := (buildClient NewCredFromSecret CertFromPEM NewCredFromCert confidential_New p).
Local Abbreviation fingerprint := (fingerprintOf sha256_hex p).
Local Abbreviation client_for := (clientFor NewCredFromSecret CertFromPEM NewCredFromCert confidential_New sha256_hex p).

(** The same text is hashed for both. *)
Definition same_text (c d : OAuthCredential) : Prop := hashed (fingerprint_parts p c) = hashed (fingerprint_parts p d).

Lemma same_text_material c d :
  plain_credential c -> plain_credential d -> cred_ID c = cred_ID d -> same_text c d -> same_material c d.
Proof.
  intros [Hc Fc] [Hd Fd] Hid Hf. unfold same_text, fingerprint_parts in Hf.
  rewrite !Forall_cons in Fc, Fd. destruct Fc as (?&?&?&?&?&?&_), Fd as (?&?&?&?&?&?&_).
  apply (hashed_inj [_; _; _; _; _; _; _] [_; _; _; _; _; _; _] [_]) in Hf; [|done|by repeat constructor; try apply authtype_no_nul..].
  injection Hf as P1 P2 P3 P4 P5 P6 P7. apply authtype_text_inj in P3; [|done..]. by split_and!.
Qed.

(** What a fingerprint cannot tell apart: credentials of one ID whose material
    differs, by a collision of the hash between two texts, or by one text,
    where a field has a zero byte or the type is not the schema's. *)
Definition mistaken (c d : OAuthCredential) : Prop :=
  cred_ID c = cred_ID d /\ ~ same_material c d
  /\ (~ same_text c d /\ fingerprint c = fingerprint d \/ same_text c d /\ ~ (plain_credential c /\ plain_credential d)).

Lemma fingerprint_material c d :
  cred_ID c = cred_ID d -> fingerprint c = fingerprint d -> same_material c d \/ mistaken c d.
Proof.
  intros Hid Hf. destruct (decide (same_material c d)) as [?|Hm]; [by left|]. right. split_and!; [done..|].
  destruct (decide (hashed (fingerprint_parts p c) = hashed (fingerprint_parts p d))) as [Ht|Ht]; [right|by left].
  split; [done|]. intros [Hc Hd]. by apply Hm, same_text_material.
Qed.

(** The credential's name is only used in error texts. *)
Lemma build_material c d client : same_material c d -> build c = Ok client -> build d = Ok client.
Proof.
  intros (Hid & Ht & Hcl & Ha & Hh & Hs & Hpem & Hk). unfold buildClient, credentialFor, certificateFor, authority_host, unusable.
  rewrite <-Hid, <-Ht, <-Hcl, <-Ha, <-Hh, <-Hs, <-Hpem, <-Hk. intros H. by repeat (case_match; simplify_eq/=).
Qed.

(** What is done to the map, in the order in which the mutex was held: a
    client built from a credential is stored, or one is forgotten. *)
Inductive CacheEvent := Stored (c : OAuthCredential) | Forgotten (id : string).

Definition cache_event (m : gmap string (Client * string)) (e : CacheEvent) : gmap string (Client * string) :=
  match e with
  | Stored c => match build c with Ok client => <[cred_ID c := (client, fingerprint c)]> m | Err _ => m end
  | Forgotten id => Forget id m
  end.

Definition cache_after (events : list CacheEvent) : gmap string (Client * string) := foldl cache_event ∅ events.

(** Every entry was built from a credential of that ID and fingerprint. *)
Definition cache_ok (events : list CacheEvent) (m : gmap string (Client * string)) : Prop :=
  map_Forall (fun id e => exists c, Stored c ∈ events /\ cred_ID c = id /\ e.2 = fingerprint c /\ build c = Ok e.1) m.

Lemma cache_event_ok events m e : e ∈ events -> cache_ok events m -> cache_ok events (cache_event m e).
Proof.
  intros He Hm. destruct e as [c|id]; simpl; [|by apply map_Forall_delete].
  destruct (build c) as [client|] eqn:Hb; [|done]. apply map_Forall_insert_2; [by exists c|done].
Qed.

Lemma cache_after_ok events : cache_ok events (cache_after events).
Proof.
  unfold cache_after. enough (forall part m, part ⊆ events -> cache_ok events m -> cache_ok events (foldl cache_event m part)) as H
    by (apply H; [done|apply map_Forall_empty]).
  induction part as [|e part IH]; intros m Hin Hm; simpl; [done|]. apply IH; [set_solver|]. apply cache_event_ok; [set_solver|done].
Qed.

(** A request does one of these, or nothing, to the map it stores into. *)
Lemma client_for_event c seen m : (client_for c seen m).2 = m \/ (client_for c seen m).2 = cache_event m (Stored c).
Proof. unfold clientFor. simpl. destruct (build c), (seen !! _) as [[client f]|]; repeat case_bool_decide; auto. Qed.


(** After [Forget] the next request builds its client anew. *)
Lemma forgotten_is_rebuilt c m : (client_for c (Forget (cred_ID c) m) m).1 = build c.
Proof. unfold clientFor, Forget. rewrite lookup_delete_eq. by destruct (build c). Qed.
End Cache.

(** ** Redaction *)

(** Nothing that follows the first of the markers, in the order of the list,
    reaches the log. *)
Lemma redacted_tail_is_hidden marker rest pre x y :
  Index marker (pre +:+ marker +:+ x) = Some (String.length pre) -> Index marker (pre +:+ marker +:+ y) = Some (String.length pre) ->
  redact_at (marker :: rest) (pre +:+ marker +:+ x) = redact_at (marker :: rest) (pre +:+ marker +:+ y).
Proof. intros H1 H2. cbn [redact_at]. rewrite H1, H2. by rewrite !take_bytes_app. Qed.

(** A secret in front of an access token is not cut off: the message is cut at
    the first marker of the list, not at the first in the message. *)
Lemma earlier_secret_is_kept :
  redactToken "bad client_secret=hunter2, access_token=eyJ0" =
  "bad client_secret=hunter2, [redacted: the response mentioned access_token]".
Proof. vm_compute. reflexivity. Qed.

(** ** Witness *)

#[local] Instance bare_fmt : GoFmt := {| Quote := fun s => s |}.

(** A cipher that hides nothing, with one-byte nonces. *)
Definition clear_aead : AEAD := mkAEAD 1 (fun _ plaintext _ => plaintext) (fun _ ciphertext _ => Some ciphertext).

Definition sample_provider : Provider := NewProvider (mkKeyring "k" {[ "k" := clear_aead ]}) None false.

Definition sample_secret_credential : OAuthCredential :=
  mkOAuthCredential "c1" "tenant" "tid" "cid" AuthTypeSecret ("v1.k." +:+ b64_url "nhunter2") "" "" "" "" None ManagedByUI 0 0.

(** A client that shows what it was built from. *)
Definition shown_client (authority clientID secret : string) (_ : bool) : result string string :=
  Ok (authority +:+ " " +:+ clientID +:+ " " +:+ secret).

Abbreviation no_certificate := (fun _ => Err "no certificate") (only parsing).

Abbreviation no_chain := (fun (_ : list string) (_ : string) => Err "no certificate") (only parsing).

(** The secret was rotated after a client had been stored. *)
Definition rotated_credential : OAuthCredential :=
  mkOAuthCredential "c1" "tenant" "tid" "cid" AuthTypeSecret ("v1.k." +:+ b64_url "nhunter3") "" "" "" "" None ManagedByUI 0 0.

Definition sample_cache : gmap string (string * string) :=
  cache_after (fun s => Ok s) no_certificate no_chain shown_client id sample_provider [Stored sample_secret_credential].

