(* ===== verification/Api.v ===== *)
(** * Requests to the management API

    How a handler of [internal/adminapi] runs: a sequence of calls on the
    store, each of which may fail, with other requests, deliveries and
    housekeeping running between any two of them. The k-th call of a handler is
    given what the driver reports of it, the clock and a fresh identifier, and
    sees the database that [w_env k] makes of the one the handler left. A
    handler ends with an answer; [stop] is an early return. JSON, routing and
    logging are left out, as in [AdminApi]. *)

From stdpp Require Import base gmap strings list.
From Stdlib Require Import ZArith Lia.
From S2P Require Import Prelude GoStrings StoreModels MessageStore Directory AdminStore AdminAuth AuditLog Diagnostics.

Open Scope Z_scope.

Record World := mkWorld {
  w_io : nat -> option string;
  w_clock : nat -> Z;
  w_newID : nat -> string;
  w_env : nat -> ProxyDB -> ProxyDB
}.

(** Who asks, from where, with which browser. *)
Record Caller := mkCaller { ca_actor : AdminUser; ca_ip : string; ca_agent : string }.

(** *** Error codes of [errors.go] *)

Definition CodeValidation : string := "validation_failed".
Definition CodeNotFound : string := "not_found".
Definition CodeConflict : string := "conflict".
Definition CodeReferenced : string := "still_referenced".
Definition CodeImmutable : string := "managed_externally".
Definition CodeInternal : string := "internal_error".

(** [writeStoreError] *)
Definition code_of_store (e : StoreError) : string :=
  match e with
  | ErrStateConflict | ErrConflict _ => CodeConflict
  | ErrNotFound _ => CodeNotFound
  | ErrReferenced _ => CodeReferenced
  | ErrImmutable _ => CodeImmutable
  | ErrDriver _ => CodeInternal
  end.

Section Handlers.
Context {Body : Type}.

(** The status, and either the body or the code and fields of an [APIError]. *)
Inductive Answer :=
| Done (status : Z) (body : Body)
| Refusal (status : Z) (code : string) (fields : list string).

Definition ans_status (a : Answer) : Z := match a with Done s _ | Refusal s _ _ => s end.

Definition store_refusal (e : StoreError) : Answer := Refusal (status_of_store e) (code_of_store e) [].
Definition invalid (fields : list string) : Answer := Refusal 422 CodeValidation fields.

(** The calls made so far, the database, and the credentials whose client the
    token source was told to forget, the last one first. *)
Record HState := mkHState { h_calls : nat; h_db : ProxyDB; h_forgotten : list string }.

Definition at_call (s : HState) (db : ProxyDB) : HState := mkHState (S (h_calls s)) db (h_forgotten s).

Definition H (A : Type) : Type := HState -> (A + Answer) * HState.

Definition hret {A} (a : A) : H A := fun s => (inl a, s).
Definition stop {A} (a : Answer) : H A := fun s => (inr a, s).
Definition hbind {A B} (m : H A) (k : A -> H B) : H B := fun s =>
  match m s with
  | (inl a, s) => k a s
  | (inr r, s) => (inr r, s)
  end.

Context (w : World).

(** A query. *)
Definition api_read {A} (f : option string -> DB -> result StoreError A) : H A := fun s =>
  let n := h_calls s in
  let db := w_env w n (h_db s) in
  (match f (w_io w n) (px_store db) with Ok a => inl a | Err e => inr (store_refusal e) end, at_call s db).

(** A query whose failure the handler overlooks. *)
Definition api_try {A} (f : option string -> DB -> result StoreError A) : H (option A) := fun s =>
  let n := h_calls s in
  let db := w_env w n (h_db s) in
  (inl (match f (w_io w n) (px_store db) with Ok a => Some a | Err _ => None end), at_call s db).

(** A statement that writes; the reservations follow the queue. *)
Definition api_write {A} (f : option string -> Z -> string -> DB -> result StoreError A * DB) : H A := fun s =>
  let n := h_calls s in
  let db := w_env w n (h_db s) in
  let '(r, store) := f (w_io w n) (w_clock w n) (w_newID w n) (px_store db) in
  (match r with Ok a => inl a | Err e => inr (store_refusal e) end, at_call s (queue_change store db)).

(** [store.NewID()] *)
Definition api_fresh : H string := fun s => (inl (w_newID w (h_calls s)), at_call s (h_db s)).

(** [time.Now()] *)
Definition api_now : H Z := fun s => (inl (w_clock w (h_calls s)), at_call s (h_db s)).

(** [Server.audit] *)
Definition api_audit `{UnicodeCase} (who : Caller) (e : auditEntry) : H unit := fun s =>
  let n := h_calls s in
  let db := w_env w n (h_db s) in
  (inl tt, at_call s
     (set_px_audit (audit (w_io w n) (w_clock w n) (w_newID w n) (ca_ip who) (ca_agent who) e (px_audit db)) db)).

(** [s.tokens.Forget], when there is a token source. *)
Definition api_forget (hasTokens : bool) (id : string) : H unit := fun s =>
  (inl tt, if hasTokens then mkHState (h_calls s) (h_db s) (id :: h_forgotten s) else s).

(** The answer of a whole handler, and the database it leaves. *)
Definition serve (m : H Answer) (db : ProxyDB) : Answer * ProxyDB :=
  match m (mkHState 0 db []) with
  | (inl a, s) => (a, h_db s)
  | (inr a, s) => (a, h_db s)
  end.
End Handlers.
Arguments Answer : clear implicits.
Arguments H : clear implicits.

Declare Scope api_scope.
Notation "'let!' x ':=' m 'in' k" := (hbind m (fun x => k)) (at level 10, x name, m at level 100, k at level 200) : api_scope.
Notation "m ';;!' k" := (hbind m (fun _ => k)) (at level 95, right associativity) : api_scope.

(** ** Values of audit details *)

Definition JInt (n : Z) : Json := JOther (Itoa n).
Definition JBool (b : bool) : Json := JOther (if b then "true" else "false").

Definition resultFor (ok : bool) : string := if ok then ResultSuccess else ResultFailure.
