(* ===== verification/DirectoryApi.v ===== *)
(** * The management API: credentials, mailboxes and accounts

    [internal/adminapi/{credentials,mailboxes,accounts}.go]: the requests, the
    responses, validation, and every handler, run as [Api] says. [seal] is the
    key ring's [EncryptString], absent when no keys are configured; [rand] is
    the source of generated passwords; [token] is what the token source says of
    a credential and a scope, when there is one. *)

From stdpp Require Import base gmap strings list.
From Stdlib Require Import ZArith QArith Lia Ascii.
From S2P Require Import Prelude GoStrings GoFloat StoreModels MessageStore Directory Policy RateLimit Password Keyring AdminStore AdminAuth AuditLog Diagnostics Api.

Open Scope Z_scope.
Open Scope api_scope.

(** ** Enumerations as text *)

Definition auth_type_of (s : string) : AuthType :=
  if bool_decide (s = "secret") then AuthTypeSecret else if bool_decide (s = "certificate") then AuthTypeCertificate else AuthTypeOther s.
Definition auth_type_text (a : AuthType) : string :=
  match a with AuthTypeSecret => "secret" | AuthTypeCertificate => "certificate" | AuthTypeOther s => s end.

Definition transport_of (s : string) : Transport :=
  if bool_decide (s = "smtp") then TransportSMTP else if bool_decide (s = "graph") then TransportGraph else TransportOther s.
Definition transport_text (t : Transport) : string :=
  match t with TransportSMTP => "smtp" | TransportGraph => "graph" | TransportOther s => s end.

Definition from_policy_of (s : string) : FromPolicy :=
  if bool_decide (s = "reject") then FromPolicyReject else if bool_decide (s = "rewrite") then FromPolicyRewrite
  else if bool_decide (s = "passthrough") then FromPolicyPassthrough else FromPolicyOther s.
Definition from_policy_text (p : FromPolicy) : string :=
  match p with FromPolicyReject => "reject" | FromPolicyRewrite => "rewrite" | FromPolicyPassthrough => "passthrough" | FromPolicyOther s => s end.

Definition blank (s : string) : bool := bool_decide (TrimSpace s = "").

(** The value of a field that was sent and is not empty. *)
Definition sent (s : string) : bool := negb (bool_decide (s = "")).

(** ** Requests *)

Record credentialRequest := mkCredentialRequest {
  cq_Name : string; cq_TenantID : string; cq_ClientID : string; cq_AuthType : string; cq_ClientSecret : option string;
  cq_CertificatePEM : option string; cq_CertificateKeyPEM : option string; cq_AuthorityHost : string; cq_ExpiresAt : option Z
}.

Record mailboxRequest := mkMailboxRequest {
  mq_Address : string; mq_DisplayName : string; mq_OAuthCredentialID : string; mq_Transport : string;
  mq_RateLimitPerMin : option Z; mq_MaxConcurrent : option Z; mq_Enabled : option bool
}.

Record accountRequest := mkAccountRequest {
  aq_Username : string; aq_Description : string; aq_Password : option string; aq_DefaultMailboxID : option string;
  aq_MailboxIDs : option (list string); aq_AllowedSenders : option (list string); aq_FromPolicy : string;
  aq_AllowCIDRs : option (list string); aq_RateLimitPerMin : option Z; aq_Enabled : option bool
}.

(** ** Validation: the fields that are wrong *)

Definition bad (b : bool) (field : string) : list string := if b then [field] else [].

Definition missing (v : option string) : bool := match v with Some s => bool_decide (s = "") | None => true end.

Definition validateCredential (req : credentialRequest) (creating : bool) : list string :=
  (if creating then bad (blank (cq_Name req)) "name" ++ bad (blank (cq_TenantID req)) "tenantId" ++ bad (blank (cq_ClientID req)) "clientId"
   else [])
  ++ (if sent (cq_AuthType req) then bad (negb (known_auth_type (auth_type_of (cq_AuthType req)))) "authType" else bad creating "authType")
  ++ (if creating then
        match auth_type_of (cq_AuthType req) with
        | AuthTypeSecret => bad (missing (cq_ClientSecret req)) "clientSecret"
        | AuthTypeCertificate => bad (missing (cq_CertificatePEM req)) "certificatePem" ++ bad (missing (cq_CertificateKeyPEM req)) "certificateKeyPem"
        | AuthTypeOther _ => []
        end
      else [])
  ++ bad (sent (cq_AuthorityHost req) && negb (HasPrefix (cq_AuthorityHost req) "https://")) "authorityHost".

(** A limit that was sent: not negative, and not above Exchange's. *)
Definition bad_limit (v : option Z) (most : Z) (field : string) : list string :=
  match v with Some n => bad ((n <? 0) || (n >? most)) field | None => [] end.

Section Validation.
Context `{UC : UnicodeCase} `{NM : NetMail} `{NI : NetIP} `{GF : GoFmt}.

Definition validateMailbox (req : mailboxRequest) (creating : bool) : list string :=
  (if creating || sent (mq_Address req)
   then bad (blank (mq_Address req) || negb (is_ok (ParseAddress (TrimSpace (mq_Address req))))) "address" else [])
  ++ bad (creating && blank (mq_OAuthCredentialID req)) "oauthCredentialId"
  ++ (if sent (mq_Transport req) then bad (negb (known_transport (transport_of (mq_Transport req)))) "transport" else bad creating "transport")
  ++ bad_limit (mq_RateLimitPerMin req) ExchangeMessagesPerMinute "rateLimitPerMin"
  ++ bad_limit (mq_MaxConcurrent req) ExchangeConcurrentConnections "maxConcurrent".

Definition validateAccount (req : accountRequest) (creating : bool) : list string :=
  bad (creating && blank (aq_Username req)) "username"
  ++ bad (match aq_Password req with Some p => sent p && (len p <? 8) | None => false end) "password"
  ++ bad (sent (aq_FromPolicy req) && negb (known_from_policy (from_policy_of (aq_FromPolicy req)))) "fromPolicy"
  ++ bad (existsb (fun p => negb (is_ok (ValidatePattern p))) (default [] (aq_AllowedSenders req))) "allowedSenders"
  ++ bad (existsb (fun c => negb (is_ok (ParseCIDR c))) (default [] (aq_AllowCIDRs req))) "allowCidrs"
  ++ bad_limit (aq_RateLimitPerMin req) ExchangeMessagesPerMinute "rateLimitPerMin".
End Validation.

(** ** Responses *)

Record credentialResponse := mkCredentialResponse {
  cs_ID : string; cs_Name : string; cs_TenantID : string; cs_ClientID : string; cs_AuthType : AuthType; cs_HasSecret : bool;
  cs_CertificateThumbprint : string; cs_AuthorityHost : string; cs_ExpiresAt : option Z; cs_ExpiresInDays : option Z;
  cs_ManagedBy : ManagedBy; cs_MailboxCount : Z; cs_CreatedAt : Z; cs_UpdatedAt : Z
}.

Record mailboxResponse := mkMailboxResponse {
  ms_ID : string; ms_Address : string; ms_DisplayName : string; ms_OAuthCredentialID : string; ms_CredentialName : string;
  ms_Transport : Transport; ms_RateLimitPerMin : option Z; ms_MaxConcurrent : option Z; ms_Enabled : bool; ms_ManagedBy : ManagedBy;
  ms_CreatedAt : Z; ms_UpdatedAt : Z
}.

Record accountResponse := mkAccountResponse {
  ar_ID : string; ar_Username : string; ar_Description : string; ar_DefaultMailboxID : string; ar_MailboxIDs : list string;
  ar_MailboxAddresses : list string; ar_AllowedSenders : list string; ar_FromPolicy : FromPolicy; ar_AllowCIDRs : list string;
  ar_RateLimitPerMin : option Z; ar_Enabled : bool; ar_LastUsedAt : option Z; ar_ManagedBy : ManagedBy; ar_CreatedAt : Z; ar_UpdatedAt : Z
}.

Record testResponse := mkTestResponse { te_OK : bool; te_Stage : string; te_Message : string; te_Hint : string }.

Inductive DirBody :=
| NoBody
| OneCredential (c : credentialResponse)
| AllCredentials (l : list credentialResponse) (total : Z)
| OneMailbox (m : mailboxResponse)
| AllMailboxes (l : list mailboxResponse) (total : Z)
| OneAccount (a : accountResponse)
| CreatedAccount (a : accountResponse) (password : string)
| AllAccounts (l : list accountResponse) (total : Z)
| NewPassword (password : string)
| Tested (t : testResponse).

(** [int(time.Until(t).Hours() / 24)]: [Hours] adds the whole hours and the
    rest as a fraction, in floating point. *)
Definition days_until `{Float64} (t now : Z) : Z :=
  let d := t - now in
  let hours := rnd (inject_Z (Z.quot d Hour) + rnd (inject_Z (Z.rem d Hour) / inject_Z Hour)) in
  trunc (rnd (hours / 24)).

Definition toCredentialResponse `{Float64} (now : Z) (c : OAuthCredential) (mailboxes : Z) : credentialResponse :=
  mkCredentialResponse (cred_ID c) (cred_Name c) (cred_TenantID c) (cred_ClientID c) (cred_AuthType c)
    (sent (cred_ClientSecretEnc c) || sent (cred_CertificateKeyEnc c)) (cred_CertificateThumbprint c) (cred_AuthorityHost c)
    (cred_ExpiresAt c) ((fun t => days_until t now) <$> cred_ExpiresAt c) (cred_ManagedBy c) mailboxes (cred_CreatedAt c) (cred_UpdatedAt c).

Definition toMailboxResponse (m : Mailbox) (credentialName : string) : mailboxResponse :=
  mkMailboxResponse (mb_ID m) (mb_Address m) (mb_DisplayName m) (mb_OAuthCredentialID m) credentialName (mb_Transport m)
    (mb_RateLimitPerMin m) (mb_MaxConcurrent m) (mb_Enabled m) (mb_ManagedBy m) (mb_CreatedAt m) (mb_UpdatedAt m).

Definition account_response (a : SMTPAccount) (mailboxes : list Mailbox) (senders : list AllowedSender) : accountResponse :=
  mkAccountResponse (acc_ID a) (acc_Username a) (acc_Description a) (default "" (acc_DefaultMailboxID a)) (mb_ID <$> mailboxes)
    (mb_Address <$> mailboxes) (as_Pattern <$> senders) (acc_FromPolicy a) (acc_AllowCIDRs a) (acc_RateLimitPerMin a) (acc_Enabled a)
    (acc_LastUsedAt a) (acc_ManagedBy a) (acc_CreatedAt a) (acc_UpdatedAt a).

(** ** Error codes of Microsoft Entra *)

Definition word_byte (c : ascii) : bool := is_upper c || is_lower c || is_digit c || bool_decide (c = "_"%char).

(** The digits in front, and what follows them. *)
Fixpoint leading_digits (s : string) : string * string :=
  match s with
  | String c rest => if is_digit c then let '(ds, r) := leading_digits rest in (String c ds, r) else ("", s)
  | EmptyString => ("", "")
  end.

Definition word_follows (s : string) : bool := match s with String c _ => word_byte c | EmptyString => false end.

(** The leftmost match of the regular expression for AADSTS and 5 to 12 digits
    between word boundaries, or the empty string; [prev] is whether a word character comes
    before. *)
Fixpoint aadsts_from (prev : bool) (s : string) : string :=
  match s with
  | EmptyString => ""
  | String c rest =>
      let later := aadsts_from (word_byte c) rest in
      if prev then later
      else match CutPrefix s "AADSTS" with
      | None => later
      | Some tail =>
          let '(ds, after) := leading_digits tail in
          if (5 <=? len ds) && (len ds <=? 12) && negb (word_follows after) then "AADSTS" +:+ ds else later
      end
  end.

Definition aadsts_code (msg : string) : string := aadsts_from false msg.

(** ** Handlers *)

Section Handlers.
Context `{UC : UnicodeCase} `{NM : NetMail} `{NI : NetIP} `{GF : GoFmt} `{C : Collation} `{F : Float64} `{PH : PasswordHasher}.
Context (seal : option (string -> string -> result string string)) (rand : Z -> result string string).
Context (token : option (OAuthCredential -> string -> result string unit)) (smtpScope graphScope : string).
Context (w : World) (who : Caller).

Abbreviation Handler := (H DirBody (Answer DirBody)).

Definition has_tokens : bool := match token with Some _ => true | None => false end.

(** [writeError(w, http.StatusConflict, CodeImmutable, ...)] *)
Definition immutable : Answer DirBody := Refusal 409 CodeImmutable [].

(** An object of the bootstrap file is left alone. *)
Definition guard_managed (m : ManagedBy) : H DirBody unit :=
  if bool_decide (m = ManagedByBootstrap) then stop immutable else hret tt.

Definition guard_fields (fields : list string) : H DirBody unit :=
  match fields with [] => hret tt | _ => stop (invalid fields) end.

(** An error that is not the store's. *)
Definition internal : Answer DirBody := Refusal 500 CodeInternal [].

Definition note_of (action targetType id name : string) (details : list (string * Json)) (result : string) : auditEntry :=
  mkNote (Some (ca_actor who)) action targetType id name details result.

(** A store's [Update] sets the row's [UpdatedAt] to the time it used. *)
Definition stamped (f : option string -> Z -> DB -> result StoreError unit * DB) (io : option string) (now : Z) (_ : string) (db : DB)
  : result StoreError Z * DB :=
  match f io now db with
  | (Ok _, db) => (Ok now, db)
  | (Err e, db) => (Err e, db)
  end.

(** *** Credentials *)

Definition set_cred_UpdatedAt (t : Z) (c : OAuthCredential) : OAuthCredential :=
  mkOAuthCredential (cred_ID c) (cred_Name c) (cred_TenantID c) (cred_ClientID c) (cred_AuthType c) (cred_ClientSecretEnc c)
    (cred_CertificatePEM c) (cred_CertificateKeyEnc c) (cred_CertificateThumbprint c) (cred_AuthorityHost c) (cred_ExpiresAt c)
    (cred_ManagedBy c) (cred_CreatedAt c) t.

(** [sealCredential]; the three values of the row. *)
Definition sealCredential (req : credentialRequest) (c : OAuthCredential) : option OAuthCredential :=
  match seal with
  | None => None
  | Some f =>
      match (match cq_ClientSecret req with None => Ok (cred_ClientSecretEnc c) | Some s => f s (SecretContext (cred_ID c)) end) with
      | Err _ => None
      | Ok secret =>
          match (match cq_CertificateKeyPEM req with None => Ok (cred_CertificateKeyEnc c) | Some k => f k (CertificateKeyContext (cred_ID c)) end) with
          | Err _ => None
          | Ok key =>
              Some (mkOAuthCredential (cred_ID c) (cred_Name c) (cred_TenantID c) (cred_ClientID c) (cred_AuthType c) secret
                      (default (cred_CertificatePEM c) (cq_CertificatePEM req)) key (cred_CertificateThumbprint c) (cred_AuthorityHost c)
                      (cred_ExpiresAt c) (cred_ManagedBy c) (cred_CreatedAt c) (cred_UpdatedAt c))
          end
      end
  end.

Definition sealed_or_invalid (req : credentialRequest) (c : OAuthCredential) : H DirBody OAuthCredential :=
  match sealCredential req c with Some c => hret c | None => stop (invalid ["clientSecret"]) end.

(** Times of a JSON request are never the zero time unless sent as such. *)
Definition expiry (req : credentialRequest) (old : option Z) : option Z :=
  match cq_ExpiresAt req with Some t => NullTime t | None => old end.

Definition count_for (credentialID : string) (l : list Mailbox) : Z :=
  Z.of_nat (length (List.filter (fun m => bool_decide (mb_OAuthCredentialID m = credentialID)) l)).

Definition countMailboxes (credentialID : string) : H DirBody Z :=
  let! l := api_try w Mailboxes_List in
  hret (match l with Some l => count_for credentialID l | None => 0 end).

Definition credential_details (c : OAuthCredential) : list (string * Json) :=
  [("tenantId", JString (cred_TenantID c)); ("clientId", JString (cred_ClientID c)); ("authType", JString (auth_type_text (cred_AuthType c)))].

Definition handleListCredentials : Handler :=
  let! credentials := api_read w Credentials_List in
  let! mailboxes := api_read w Mailboxes_List in
  let! now := api_now w in
  hret (Done 200 (AllCredentials (List.map (fun c => toCredentialResponse now c (count_for (cred_ID c) mailboxes)) credentials)
                    (Z.of_nat (length credentials)))).

Definition handleGetCredential (id : string) : Handler :=
  let! c := api_read w (fun io => Credentials_Get io id) in
  let! n := countMailboxes (cred_ID c) in
  let! now := api_now w in
  hret (Done 200 (OneCredential (toCredentialResponse now c n))).

Definition handleCreateCredential (req : credentialRequest) : Handler :=
  guard_fields (validateCredential req true) ;;!
  let! id := api_fresh w in
  let! c := sealed_or_invalid req
              (mkOAuthCredential id (TrimSpace (cq_Name req)) (TrimSpace (cq_TenantID req)) (TrimSpace (cq_ClientID req))
                 (auth_type_of (cq_AuthType req)) "" "" "" "" (TrimSpace (cq_AuthorityHost req)) (expiry req None) (ManagedByOther "") 0 0) in
  let! c := api_write w (fun io now newID => Credentials_Create io now newID c) in
  api_audit w who (note_of "credential.create" "credential" (cred_ID c) (cred_Name c) (credential_details c) "") ;;!
  let! now := api_now w in
  hret (Done 201 (OneCredential (toCredentialResponse now c 0))).

(** A text that is replaced when the request has one. *)
Definition or_new (new old : string) : string := if sent new then TrimSpace new else old.

Definition update_credential (req : credentialRequest) (c : OAuthCredential) : OAuthCredential :=
  mkOAuthCredential (cred_ID c) (or_new (cq_Name req) (cred_Name c)) (or_new (cq_TenantID req) (cred_TenantID c))
    (or_new (cq_ClientID req) (cred_ClientID c)) (if sent (cq_AuthType req) then auth_type_of (cq_AuthType req) else cred_AuthType c)
    (cred_ClientSecretEnc c) (cred_CertificatePEM c) (cred_CertificateKeyEnc c) (cred_CertificateThumbprint c)
    (or_new (cq_AuthorityHost req) (cred_AuthorityHost c)) (expiry req (cred_ExpiresAt c)) (cred_ManagedBy c) (cred_CreatedAt c) (cred_UpdatedAt c).

Definition is_set {A} (o : option A) : bool := match o with Some _ => true | None => false end.

Definition handleUpdateCredential (id : string) (req : credentialRequest) : Handler :=
  let! old := api_read w (fun io => Credentials_Get io id) in
  guard_managed (cred_ManagedBy old) ;;!
  guard_fields (validateCredential req false) ;;!
  let! c := sealed_or_invalid req (update_credential req old) in
  let! updated := api_write w (stamped (fun io now => Credentials_Update io now c)) in
  api_forget has_tokens (cred_ID c) ;;!
  api_audit w who (note_of "credential.update" "credential" (cred_ID c) (cred_Name c)
    (credential_details c ++ [("secretChanged", JBool (is_set (cq_ClientSecret req) || is_set (cq_CertificateKeyPEM req)))]) "") ;;!
  let! n := countMailboxes (cred_ID c) in
  let! now := api_now w in
  hret (Done 200 (OneCredential (toCredentialResponse now (set_cred_UpdatedAt updated c) n))).

Definition handleDeleteCredential (id : string) : Handler :=
  let! c := api_read w (fun io => Credentials_Get io id) in
  guard_managed (cred_ManagedBy c) ;;!
  let! _u := api_write w (fun io _ _ => Credentials_Delete io id) in
  api_forget has_tokens id ;;!
  api_audit w who (note_of "credential.delete" "credential" (cred_ID c) (cred_Name c) [] "") ;;!
  hret (Done 204 NoBody).

(** *** Mailboxes *)

(** The name of a credential, empty when it cannot be read. *)
Definition credentialName (id : string) : H DirBody string :=
  let! l := api_try w Credentials_List in
  hret (match l with
        | Some l => match List.find (fun c => bool_decide (cred_ID c = id)) l with Some c => cred_Name c | None => "" end
        | None => ""
        end).

Definition set_mb_UpdatedAt (t : Z) (m : Mailbox) : Mailbox :=
  mkMailbox (mb_ID m) (mb_Address m) (mb_DisplayName m) (mb_OAuthCredentialID m) (mb_Transport m) (mb_RateLimitPerMin m)
    (mb_MaxConcurrent m) (mb_Enabled m) (mb_ManagedBy m) (mb_CreatedAt m) t.

Definition handleListMailboxes : Handler :=
  let! mailboxes := api_read w Mailboxes_List in
  let! credentials := api_try w Credentials_List in
  let name id := match List.find (fun c => bool_decide (cred_ID c = id)) (default [] credentials) with Some c => cred_Name c | None => "" end in
  hret (Done 200 (AllMailboxes (List.map (fun m => toMailboxResponse m (name (mb_OAuthCredentialID m))) mailboxes) (Z.of_nat (length mailboxes)))).

Definition handleGetMailbox (id : string) : Handler :=
  let! m := api_read w (fun io => Mailboxes_Get io id) in
  let! name := credentialName (mb_OAuthCredentialID m) in
  hret (Done 200 (OneMailbox (toMailboxResponse m name))).

(** A limit that was sent replaces the old one; zero and less is none. *)
Definition or_limit (v old : option Z) : option Z := match v with Some n => NullInt n | None => old end.

Definition new_mailbox (req : mailboxRequest) : Mailbox :=
  mkMailbox "" (ToLower (TrimSpace (mq_Address req))) (TrimSpace (mq_DisplayName req)) (mq_OAuthCredentialID req) (transport_of (mq_Transport req))
    (or_limit (mq_RateLimitPerMin req) None) (or_limit (mq_MaxConcurrent req) None) (default true (mq_Enabled req)) (ManagedByOther "") 0 0.

Definition handleCreateMailbox (req : mailboxRequest) : Handler :=
  guard_fields (validateMailbox req true) ;;!
  let! m := api_write w (fun io now newID => Mailboxes_Create io now newID (new_mailbox req)) in
  api_audit w who (note_of "mailbox.create" "mailbox" (mb_ID m) (mb_Address m)
    [("transport", JString (transport_text (mb_Transport m))); ("credentialId", JString (mb_OAuthCredentialID m))] "") ;;!
  let! name := credentialName (mb_OAuthCredentialID m) in
  hret (Done 201 (OneMailbox (toMailboxResponse m name))).

Definition update_mailbox (req : mailboxRequest) (m : Mailbox) : Mailbox :=
  mkMailbox (mb_ID m) (if sent (mq_Address req) then ToLower (TrimSpace (mq_Address req)) else mb_Address m)
    (or_new (mq_DisplayName req) (mb_DisplayName m))
    (if sent (mq_OAuthCredentialID req) then mq_OAuthCredentialID req else mb_OAuthCredentialID m)
    (if sent (mq_Transport req) then transport_of (mq_Transport req) else mb_Transport m)
    (or_limit (mq_RateLimitPerMin req) (mb_RateLimitPerMin m)) (or_limit (mq_MaxConcurrent req) (mb_MaxConcurrent m))
    (default (mb_Enabled m) (mq_Enabled req)) (mb_ManagedBy m) (mb_CreatedAt m) (mb_UpdatedAt m).

Definition noted {A} (o : option A) (key : string) (f : A -> Json) : list (string * Json) :=
  match o with Some a => [(key, f a)] | None => [] end.
Definition noted_text (b : bool) (key value : string) : list (string * Json) := if b then [(key, JString value)] else [].

Definition mailbox_changes (req : mailboxRequest) (m : Mailbox) : list (string * Json) :=
  noted_text (sent (mq_Address req)) "address" (mb_Address m)
  ++ noted_text (sent (mq_OAuthCredentialID req)) "credentialId" (mb_OAuthCredentialID m)
  ++ noted_text (sent (mq_Transport req)) "transport" (transport_text (mb_Transport m))
  ++ noted (mq_RateLimitPerMin req) "rateLimitPerMin" JInt ++ noted (mq_MaxConcurrent req) "maxConcurrent" JInt
  ++ noted (mq_Enabled req) "enabled" JBool.

Definition handleUpdateMailbox (id : string) (req : mailboxRequest) : Handler :=
  let! old := api_read w (fun io => Mailboxes_Get io id) in
  guard_managed (mb_ManagedBy old) ;;!
  guard_fields (validateMailbox req false) ;;!
  let! updated := api_write w (stamped (fun io now => Mailboxes_Update io now (update_mailbox req old))) in
  let m := set_mb_UpdatedAt updated (update_mailbox req old) in
  api_audit w who (note_of "mailbox.update" "mailbox" (mb_ID m) (mb_Address m) (mailbox_changes req m) "") ;;!
  let! name := credentialName (mb_OAuthCredentialID m) in
  hret (Done 200 (OneMailbox (toMailboxResponse m name))).

Definition handleDeleteMailbox (id : string) : Handler :=
  let! m := api_read w (fun io => Mailboxes_Get io id) in
  guard_managed (mb_ManagedBy m) ;;!
  let! _u := api_write w (fun io _ _ => Mailboxes_Delete io (mb_ID m)) in
  api_audit w who (note_of "mailbox.delete" "mailbox" (mb_ID m) (mb_Address m) [] "") ;;!
  hret (Done 204 NoBody).

Definition scopeFor (t : Transport) : string := if bool_decide (t = TransportGraph) then graphScope else smtpScope.

(** The test of a mailbox: whether the token source gives a token. *)
Definition test_result (answer : result string unit) : testResponse :=
  match answer with
  | Err e =>
      let code := aadsts_code e in
      mkTestResponse false "token"
        ("Token acquisition failed. Check the credential and tenant configuration." +:+ (if sent code then " (" +:+ code +:+ ")" else ""))
        ("Check that the client secret or certificate is current, and that the " +:+
         "tenant and client IDs match the application registration.")
  | Ok _ =>
      mkTestResponse true "token" "Microsoft Entra issued an access token for this credential."
        ("A token only proves the application registration works. If mail still " +:+
         "fails with 535, the missing piece is usually the Exchange side: admin consent for " +:+
         "SMTP.SendAsApp, New-ServicePrincipal, or Add-MailboxPermission for this mailbox.")
  end.

Definition handleTestMailbox (id : string) : Handler :=
  match token with
  | None => stop (Refusal 503 CodeInternal [])
  | Some token =>
      let! m := api_read w (fun io => Mailboxes_Get io id) in
      let! c := api_read w (fun io => Credentials_Get io (mb_OAuthCredentialID m)) in
      let scope := scopeFor (mb_Transport m) in
      let t := test_result (token c scope) in
      api_audit w who (note_of "mailbox.test" "mailbox" (mb_ID m) (mb_Address m)
        [("scope", JString scope); ("ok", JBool (te_OK t))] (resultFor (te_OK t))) ;;!
      hret (Done 200 (Tested t))
  end.

(** *** Accounts *)

Definition toAccountResponse (a : SMTPAccount) : H DirBody accountResponse :=
  let! mailboxes := api_read w (fun io => ListForAccount io (acc_ID a)) in
  let! senders := api_read w (fun io => AllowedSenders io (acc_ID a)) in
  hret (account_response a mailboxes senders).

Fixpoint account_responses (l : list SMTPAccount) : H DirBody (list accountResponse) :=
  match l with
  | [] => hret []
  | a :: l => let! r := toAccountResponse a in let! rs := account_responses l in hret (r :: rs)
  end.

Definition handleListAccounts : Handler :=
  let! accounts := api_read w Accounts_List in
  let! items := account_responses accounts in
  hret (Done 200 (AllAccounts items (Z.of_nat (length items)))).

Definition handleGetAccount (id : string) : Handler :=
  let! a := api_read w (fun io => Accounts_Get io id) in
  let! r := toAccountResponse a in
  hret (Done 200 (OneAccount r)).

(** [passwordFor]: the password and whether it was generated. *)
Definition passwordFor (password : option string) : H DirBody (string * bool) :=
  match password with
  | Some p => if sent p then hret (p, false)
              else match GeneratePassword rand with Ok g => hret (g, true) | Err _ => stop internal end
  | None => match GeneratePassword rand with Ok g => hret (g, true) | Err _ => stop internal end
  end.

Definition hashed_password (password : string) : H DirBody string :=
  match ph_hash password with Ok h => hret h | Err _ => stop internal end.

(** [applyAccountLinks] *)
Definition applyAccountLinks (accountID : string) (req : accountRequest) : H DirBody unit :=
  (match aq_MailboxIDs req with
   | Some ids => api_write w (fun io _ _ => SetMailboxes io (fun _ => None) accountID ids)
   | None => hret tt
   end) ;;!
  match aq_AllowedSenders req with
  | Some patterns => fun s => api_write w (fun io now _ => SetAllowedSenders io (fun _ => None) (fun k => w_newID w (h_calls s + k)) now accountID patterns) s
  | None => hret tt
  end.

Definition new_account (req : accountRequest) (hash : string) : SMTPAccount :=
  mkSMTPAccount "" (TrimSpace (aq_Username req)) hash (TrimSpace (aq_Description req))
    (match aq_DefaultMailboxID req with Some id => NullString id | None => None end)
    (if sent (aq_FromPolicy req) then from_policy_of (aq_FromPolicy req) else FromPolicyReject) (default [] (aq_AllowCIDRs req))
    (or_limit (aq_RateLimitPerMin req) None) (default true (aq_Enabled req)) None (ManagedByOther "") 0 0.

Definition handleCreateAccount (req : accountRequest) : Handler :=
  guard_fields (validateAccount req true) ;;!
  let! password := passwordFor (aq_Password req) in
  let! hash := hashed_password password.1 in
  let! a := api_write w (fun io now newID => Accounts_Create io now newID (new_account req hash)) in
  applyAccountLinks (acc_ID a) req ;;!
  api_audit w who (note_of "account.create" "smtp_account" (acc_ID a) (acc_Username a)
    [("fromPolicy", JString (from_policy_text (acc_FromPolicy a))); ("passwordGenerated", JBool password.2); ("password", JString password.1)] "") ;;!
  let! r := toAccountResponse a in
  hret (Done 201 (CreatedAccount r password.1)).

Definition update_account (req : accountRequest) (a : SMTPAccount) : SMTPAccount :=
  mkSMTPAccount (acc_ID a) (or_new (aq_Username req) (acc_Username a)) (acc_PasswordHash a) (or_new (aq_Description req) (acc_Description a))
    (match aq_DefaultMailboxID req with Some id => NullString id | None => acc_DefaultMailboxID a end)
    (if sent (aq_FromPolicy req) then from_policy_of (aq_FromPolicy req) else acc_FromPolicy a)
    (default (acc_AllowCIDRs a) (aq_AllowCIDRs req)) (or_limit (aq_RateLimitPerMin req) (acc_RateLimitPerMin a))
    (default (acc_Enabled a) (aq_Enabled req)) (acc_LastUsedAt a) (acc_ManagedBy a) (acc_CreatedAt a) (acc_UpdatedAt a).

Definition set_acc_UpdatedAt (t : Z) (a : SMTPAccount) : SMTPAccount :=
  mkSMTPAccount (acc_ID a) (acc_Username a) (acc_PasswordHash a) (acc_Description a) (acc_DefaultMailboxID a) (acc_FromPolicy a)
    (acc_AllowCIDRs a) (acc_RateLimitPerMin a) (acc_Enabled a) (acc_LastUsedAt a) (acc_ManagedBy a) (acc_CreatedAt a) t.

Definition account_changes (req : accountRequest) (a : SMTPAccount) : list (string * Json) :=
  noted_text (sent (aq_Username req)) "username" (acc_Username a) ++ noted (aq_DefaultMailboxID req) "defaultMailboxId" JString
  ++ noted_text (sent (aq_FromPolicy req)) "fromPolicy" (from_policy_text (acc_FromPolicy a))
  ++ noted (aq_AllowCIDRs req) "allowCidrs" (fun l => JArray (List.map JString l))
  ++ noted (aq_RateLimitPerMin req) "rateLimitPerMin" JInt ++ noted (aq_Enabled req) "enabled" JBool.

Definition handleUpdateAccount (id : string) (req : accountRequest) : Handler :=
  let! old := api_read w (fun io => Accounts_Get io id) in
  guard_managed (acc_ManagedBy old) ;;!
  guard_fields (validateAccount req false) ;;!
  let! updated := api_write w (stamped (fun io now => Accounts_Update io now (update_account req old))) in
  let a := set_acc_UpdatedAt updated (update_account req old) in
  applyAccountLinks (acc_ID a) req ;;!
  api_audit w who (note_of "account.update" "smtp_account" (acc_ID a) (acc_Username a) (account_changes req a) "") ;;!
  let! r := toAccountResponse a in
  hret (Done 200 (OneAccount r)).

Definition handleDeleteAccount (id : string) : Handler :=
  let! a := api_read w (fun io => Accounts_Get io id) in
  guard_managed (acc_ManagedBy a) ;;!
  let! _u := api_write w (fun io _ _ => Accounts_Delete io (acc_ID a)) in
  api_audit w who (note_of "account.delete" "smtp_account" (acc_ID a) (acc_Username a) [] "") ;;!
  hret (Done 204 NoBody).

(** [handleResetAccountPassword]: neither validated nor refused for an account
    of the bootstrap file. *)
Definition handleResetAccountPassword (id : string) (password : option string) : Handler :=
  let! a := api_read w (fun io => Accounts_Get io id) in
  let! password := passwordFor password in
  let! hash := hashed_password password.1 in
  let! _u := api_write w (fun io now _ => Accounts_Update io now (set_acc_PasswordHash hash a)) in
  api_audit w who (note_of "account.reset_password" "smtp_account" (acc_ID a) (acc_Username a) [("passwordGenerated", JBool password.2)] "") ;;!
  hret (Done 200 (NewPassword password.1)).

(** ** Routes *)

(** [mountCredentials], [mountMailboxes] and [mountAccounts]: a request, the
    permission its route states and its handler. *)
Inductive DirRequest :=
| ListCredentials | GetCredential (id : string) | CreateCredential (req : credentialRequest)
| UpdateCredential (id : string) (req : credentialRequest) | DeleteCredential (id : string)
| ListMailboxes | GetMailbox (id : string) | CreateMailbox (req : mailboxRequest)
| UpdateMailbox (id : string) (req : mailboxRequest) | DeleteMailbox (id : string) | TestMailbox (id : string)
| ListAccounts | GetAccount (id : string) | CreateAccount (req : accountRequest)
| UpdateAccount (id : string) (req : accountRequest) | DeleteAccount (id : string) | ResetPassword (id : string) (password : option string).

Definition permission_of (r : DirRequest) : Permission :=
  match r with
  | ListCredentials | GetCredential _ | ListMailboxes | GetMailbox _ | ListAccounts | GetAccount _ => PermViewConfig
  | CreateCredential _ | UpdateCredential _ _ | DeleteCredential _ => PermManageCredentials
  | CreateMailbox _ | UpdateMailbox _ _ | DeleteMailbox _ => PermManageMailboxes
  | TestMailbox _ => PermRunDiagnostics
  | CreateAccount _ | UpdateAccount _ _ | DeleteAccount _ | ResetPassword _ _ => PermManageAccounts
  end.

Definition handle (r : DirRequest) : Handler :=
  match r with
  | ListCredentials => handleListCredentials
  | GetCredential id => handleGetCredential id
  | CreateCredential req => handleCreateCredential req
  | UpdateCredential id req => handleUpdateCredential id req
  | DeleteCredential id => handleDeleteCredential id
  | ListMailboxes => handleListMailboxes
  | GetMailbox id => handleGetMailbox id
  | CreateMailbox req => handleCreateMailbox req
  | UpdateMailbox id req => handleUpdateMailbox id req
  | DeleteMailbox id => handleDeleteMailbox id
  | TestMailbox id => handleTestMailbox id
  | ListAccounts => handleListAccounts
  | GetAccount id => handleGetAccount id
  | CreateAccount req => handleCreateAccount req
  | UpdateAccount id req => handleUpdateAccount id req
  | DeleteAccount id => handleDeleteAccount id
  | ResetPassword id password => handleResetAccountPassword id password
  end.
End Handlers.

(** A request as the router lets it through: behind the session middleware,
    with the permission of its route, in the name of the session's user; or the
    status with which the middleware refuses it. *)
Definition dispatch `{UnicodeCase} `{NetMail} `{NetIP} `{GoFmt} `{Collation} `{Float64} `{PasswordHasher}
    (seal : option (string -> string -> result string string)) (rand : Z -> result string string)
    (token : option (OAuthCredential -> string -> result string unit)) (smtpScope graphScope : string)
    (w : World) (ip agent : string) (a : Admission) (r : DirRequest) (db : ProxyDB) : (Z + Answer DirBody) * ProxyDB :=
  match require (permission_of r) a with
  | Refused status => (inl status, db)
  | Passed auth =>
      let '(answer, db) := serve (handle seal rand token smtpScope graphScope w (mkCaller (au_User auth) ip agent) r) db in (inr answer, db)
  end.
