(* ===== verification/DirectoryApiProps.v ===== *)
(** * What the management API does to the directory *)

From stdpp Require Import base gmap strings list.
From Stdlib Require Import ZArith QArith Lia.
From S2P Require Import Prelude GoStrings GoFloat StoreModels MessageStore MessageQueue QueueProps Directory DirectoryProps Policy RateLimit Password.
From S2P Require Import Keyring AdminStore AdminAuth AuditLog Diagnostics Api DirectoryApi SmtpAuth.

Open Scope Z_scope.

Create HintDb api.

(** ** A logic of handlers *)

(** Started in [P], [m] yields a value and [Q], or answers early and leaves [E]. *)
Definition triple {Body A} (P : ProxyDB -> Prop) (m : H Body A) (Q : A -> ProxyDB -> Prop) (E : ProxyDB -> Prop) : Prop :=
  forall s, P (h_db s) -> match m s with (inl a, s') => Q a (h_db s') | (inr _, s') => E (h_db s') end.

Section Rules.
Context {Body : Type} {E : ProxyDB -> Prop}.

Lemma triple_bind {A B} P (m : H Body A) Q (k : A -> H Body B) R :
  triple P m Q E -> (forall a, triple (Q a) (k a) R E) -> triple P (hbind m k) R E.
Proof. intros Hm Hk s Hs. unfold hbind. specialize (Hm s Hs). destruct (m s) as [[a|r] s']; [by apply Hk|done]. Qed.

Lemma triple_ret {A} (a : A) (Q : A -> ProxyDB -> Prop) : triple (Q a) (@hret Body A a) Q E.
Proof. by intros s. Qed.

Lemma triple_weaken {A} (P P' : ProxyDB -> Prop) (m : H Body A) (Q Q' : A -> ProxyDB -> Prop) :
  triple P m Q E -> (forall db, P' db -> P db) -> (forall a db, Q a db -> Q' a db) -> triple P' m Q' E.
Proof. intros Hm HP HQ s Hs. specialize (Hm s (HP _ Hs)). destruct (m s) as [[a|r] s']; auto. Qed.

(** A fact that does not depend on the database. *)
Lemma triple_pure {A} (X : Prop) P (m : H Body A) Q : (X -> triple P m Q E) -> triple (fun db => X /\ P db) m Q E.
Proof. intros Hm s [Hx Hs]. by apply Hm. Qed.
End Rules.

(** [m] keeps [I]; others keep it as well, between any two calls. *)
Definition keeps {Body A} (I : ProxyDB -> Prop) (m : H Body A) : Prop := triple I m (fun _ => I) I.

Definition rely (w : World) (I : ProxyDB -> Prop) : Prop := forall n db, I db -> I (w_env w n db).

Section Keeps.
Context {Body : Type} (w : World) (I : ProxyDB -> Prop) (Hw : rely w I).

Lemma keeps_bind {A B} (m : H Body A) (k : A -> H Body B) : keeps I m -> (forall a, keeps I (k a)) -> keeps I (hbind m k).
Proof. intros Hm Hk. eapply triple_bind; [exact Hm|exact Hk]. Qed.

Lemma keeps_ret {A} (a : A) : keeps I (@hret Body A a).
Proof. by intros s. Qed.

Lemma keeps_stop {A} a : keeps I (@stop Body A a).
Proof. by intros s. Qed.

(** What was read is a row of a database in [I]. *)
Lemma triple_read {A} (f : option string -> DB -> result StoreError A) (X : A -> Prop) :
  (forall io db a, I db -> f io (px_store db) = Ok a -> X a) -> triple I (api_read (Body := Body) w f) (fun a db => X a /\ I db) I.
Proof using Hw.
  intros HX s Hs. unfold api_read. simpl. pose proof (Hw (h_calls s) _ Hs) as Hdb.
  destruct (f _ _) as [a|e] eqn:Hf; simpl; [|done]. split; [by eapply HX|done].
Qed.

Lemma keeps_read {A} (f : option string -> DB -> result StoreError A) : keeps I (api_read (Body := Body) w f).
Proof using Hw. eapply triple_weaken; [apply (triple_read f (fun _ => True))|..]; naive_solver. Qed.

Lemma keeps_try {A} (f : option string -> DB -> result StoreError A) : keeps I (api_try (Body := Body) w f).
Proof using Hw. intros s Hs. by apply Hw. Qed.

Lemma keeps_fresh : keeps I (api_fresh (Body := Body) w).
Proof. by intros s. Qed.

Lemma keeps_now : keeps I (api_now (Body := Body) w).
Proof. by intros s. Qed.

Lemma keeps_forget b id : keeps I (api_forget (Body := Body) b id).
Proof. intros s Hs. by destruct b. Qed.

Lemma triple_write {A} (f : option string -> Z -> string -> DB -> result StoreError A * DB) (Q : A -> ProxyDB -> Prop) :
  (forall io t id db, I db ->
     match f io t id (px_store db) with (Ok a, st) => Q a (queue_change st db) | (Err _, st) => I (queue_change st db) end) ->
  triple I (api_write (Body := Body) w f) Q I.
Proof using Hw.
  intros Hf s Hs. unfold api_write. specialize (Hf (w_io w (h_calls s)) (w_clock w (h_calls s)) (w_newID w (h_calls s)) _ (Hw (h_calls s) _ Hs)).
  by destruct (f _ _ _ _) as [[a|e] st].
Qed.

Lemma keeps_write {A} (f : option string -> Z -> string -> DB -> result StoreError A * DB) :
  (forall io t id db, I db -> I (queue_change (f io t id (px_store db)).2 db)) -> keeps I (api_write (Body := Body) w f).
Proof using Hw. intros Hf. apply triple_write. intros io t id db Hdb. specialize (Hf io t id db Hdb). by destruct (f _ _ _ _) as [[] st]. Qed.

Lemma keeps_audit `{UnicodeCase} who e :
  (forall io t id db, I db -> I (set_px_audit (audit io t id (ca_ip who) (ca_agent who) e (px_audit db)) db)) ->
  keeps I (api_audit (Body := Body) w who e).
Proof using Hw. intros HI s Hs. by apply HI, Hw. Qed.
End Keeps.

(** ** Every handler, for an invariant that every statement keeps *)

Section Handlers.
Context `{UC : UnicodeCase} `{NM : NetMail} `{NI : NetIP} `{GF : GoFmt} `{C : Collation} `{F : Float64} `{PH : PasswordHasher}.
Context (seal : option (string -> string -> result string string)) (rand : Z -> result string string).
Context (token : option (OAuthCredential -> string -> result string unit)) (smtpScope graphScope : string).
Context (w : World) (who : Caller).

Lemma stamped_snd f io t id db : (stamped f io t id db).2 = (f io t db).2.
Proof. unfold stamped. by destruct (f io t db) as [[] ?]. Qed.

Section Invariant.
Context (I : ProxyDB -> Prop) (Hw : rely w I) (Ha : forall io t id e db, I db -> I (set_px_audit (audit io t id (ca_ip who) (ca_agent who) e (px_audit db)) db)).

Lemma keeps_guard_fields fields : keeps I (guard_fields fields).
Proof. destruct fields; [apply keeps_ret|apply keeps_stop]. Qed.

Lemma keeps_guard_managed m : keeps I (guard_managed m).
Proof. unfold guard_managed. case_bool_decide; [apply keeps_stop|apply keeps_ret]. Qed.

Lemma keeps_sealed req c : keeps I (sealed_or_invalid seal req c).
Proof. unfold sealed_or_invalid. destruct (sealCredential seal req c); [apply keeps_ret|apply keeps_stop]. Qed.

Lemma keeps_password p : keeps I (passwordFor rand p).
Proof.
  assert (keeps I (match GeneratePassword rand with Ok g => hret (g, true) | Err _ => stop internal end)) as Hg
    by (destruct (GeneratePassword rand); [apply keeps_ret|apply keeps_stop]).
  destruct p as [p|]; simpl; [|done]. destruct (sent p); [apply keeps_ret|done].
Qed.

Lemma keeps_hashed p : keeps I (hashed_password p).
Proof. unfold hashed_password. destruct (ph_hash p); [apply keeps_ret|apply keeps_stop]. Qed.

Lemma keeps_count id : keeps I (countMailboxes w id).
Proof using Hw. apply keeps_bind; [by apply keeps_try|intros ?; apply keeps_ret]. Qed.

Lemma keeps_name id : keeps I (credentialName w id).
Proof using Hw. apply keeps_bind; [by apply keeps_try|intros ?; apply keeps_ret]. Qed.

Lemma keeps_account_response a : keeps I (toAccountResponse w a).
Proof using Hw. do 2 (apply keeps_bind; [by apply keeps_read|intros ?]). apply keeps_ret. Qed.

Lemma keeps_account_responses l : keeps I (account_responses w l).
Proof using Hw.
  induction l as [|a l IH]; simpl; [apply keeps_ret|]. apply keeps_bind; [apply keeps_account_response|]. intros r.
  apply keeps_bind; [done|]. intros rs. apply keeps_ret.
Qed.

#[local] Hint Resolve keeps_ret keeps_stop keeps_read keeps_try keeps_fresh keeps_now keeps_forget keeps_audit keeps_guard_fields
  keeps_guard_managed keeps_sealed keeps_password keeps_hashed keeps_count keeps_name keeps_account_response keeps_account_responses : api.

(** The calls of a handler one by one; the statements that write are left. *)
Ltac keeps_calls := repeat (apply keeps_bind; [solve [eauto with api] || idtac|intros ?]); try solve [eauto with api].

Lemma keeps_links id req :
  (forall io ids db, I db -> I (queue_change (SetMailboxes io (fun _ => None) id ids (px_store db)).2 db)) ->
  (forall io newIDs t ps db, I db -> I (queue_change (SetAllowedSenders io (fun _ => None) newIDs t id ps (px_store db)).2 db)) ->
  keeps I (applyAccountLinks w id req).
Proof using Hw.
  intros H1 H2. unfold applyAccountLinks. apply keeps_bind.
  - destruct (aq_MailboxIDs req); [|apply keeps_ret]. apply keeps_write; [done|]. intros io t i db. apply H1.
  - intros _. destruct (aq_AllowedSenders req) as [ps|]; [|apply keeps_ret]. intros s Hs.
    apply (keeps_write w I Hw (fun io now _ => SetAllowedSenders io (fun _ => None) (fun k => w_newID w (h_calls s + k)) now id ps)); [|done].
    intros io t i db. apply H2.
Qed.

#[local] Opaque applyAccountLinks.

(** The requests that only read. *)
Definition reads (r : DirRequest) : bool :=
  match r with
  | ListCredentials | GetCredential _ | ListMailboxes | GetMailbox _ | ListAccounts | GetAccount _ | TestMailbox _ => true
  | _ => false
  end.

Lemma viewers_keep r : permission_of r = PermViewConfig -> keeps I (handle seal rand token smtpScope graphScope w who r).
Proof using Hw.
  destruct r; try done; intros _; simpl;
    unfold handleListCredentials, handleGetCredential, handleListMailboxes, handleGetMailbox, handleListAccounts, handleGetAccount; keeps_calls.
Qed.

Lemma readers_keep r : reads r = true -> keeps I (handle seal rand token smtpScope graphScope w who r).
Proof using Hw Ha.
  destruct r; try done; intros _; try (by apply viewers_keep). simpl.
  unfold handleTestMailbox. destruct token; [|apply keeps_stop]. keeps_calls.
Qed.

Context (Hops : forall op db, dir_fresh op -> I db -> I (queue_change (step_dir op (px_store db)) db)).

Lemma handlers_keep r : keeps I (handle seal rand token smtpScope graphScope w who r).
Proof using Hw Ha Hops.
  destruct (reads r) eqn:Hr; [by apply readers_keep|]. destruct r; try done; simpl.
  - unfold handleCreateCredential. keeps_calls. apply keeps_write; [done|]. intros io t id db. by apply (Hops (DCreateCredential io t id _)).
  - unfold handleUpdateCredential. keeps_calls. apply keeps_write; [done|]. intros io t i db. rewrite stamped_snd. by apply (Hops (DUpdateCredential io t _)).
  - unfold handleDeleteCredential. keeps_calls. apply keeps_write; [done|]. intros io t i db. by apply (Hops (DDeleteCredential io _)).
  - unfold handleCreateMailbox. keeps_calls. apply keeps_write; [done|]. intros io t id db. by apply (Hops (DCreateMailbox io t id _)).
  - unfold handleUpdateMailbox. keeps_calls. apply keeps_write; [done|]. intros io t i db. rewrite stamped_snd. by apply (Hops (DUpdateMailbox io t _)).
  - unfold handleDeleteMailbox. keeps_calls. apply keeps_write; [done|]. intros io t i db. by apply (Hops (DDeleteMailbox io _)).
  - unfold handleCreateAccount. keeps_calls.
    + apply keeps_write; [done|]. intros io t id db. by apply (Hops (DCreateAccount io t id _)).
    + apply keeps_links; intros *; [by apply (Hops (DSetMailboxes _ _ _ _))|by apply (Hops (DSetSenders _ _ _ _ _ _))].
  - unfold handleUpdateAccount. keeps_calls.
    + apply keeps_write; [done|]. intros io t i db. rewrite stamped_snd. by apply (Hops (DUpdateAccount io t _)).
    + apply keeps_links; intros *; [by apply (Hops (DSetMailboxes _ _ _ _))|by apply (Hops (DSetSenders _ _ _ _ _ _))].
  - unfold handleDeleteAccount. keeps_calls. apply keeps_write; [done|]. intros io t i db. by apply (Hops (DDeleteAccount io _)).
  - unfold handleResetAccountPassword. keeps_calls. apply keeps_write; [done|]. intros io t i db. by apply (Hops (DUpdateAccount io t _)).
Qed.
End Invariant.

Local Abbreviation run a r ip agent := (dispatch seal rand token smtpScope graphScope w ip agent a r).

Lemma serve_keeps {Body} I (m : H Body (Answer Body)) db : keeps I m -> I db -> I (serve m db).2.
Proof. intros Hm Hdb. unfold serve. specialize (Hm (mkHState 0 db []) Hdb). by destruct (m _) as [[] ?]. Qed.
End Handlers.

(** ** Integrity *)

Definition store_ok (db : ProxyDB) : Prop := dir_ok (px_store db) /\ db_ok (px_store db).

Definition sound_beyond (log : AuditLog) (db : ProxyDB) : Prop := store_ok db /\ log ⊆ px_audit db.

Lemma audit_grows `{UnicodeCase} io t id ip agent e log : log ⊆ audit io t id ip agent e log.
Proof. unfold audit. destruct (Audit_Append _ _ _ _ _) as [r log'] eqn:Ha. apply append_spec in Ha as [Ha _]. exact Ha. Qed.

Section Integrity.
Context `{UC : UnicodeCase} `{NM : NetMail} `{NI : NetIP} `{GF : GoFmt} `{C : Collation} `{F : Float64} `{PH : PasswordHasher}.
Context (seal : option (string -> string -> result string string)) (rand : Z -> result string string).
Context (token : option (OAuthCredential -> string -> result string unit)) (smtpScope graphScope ip agent : string).

Lemma dispatch_sound w a r db log :
  rely w (sound_beyond log) -> sound_beyond log db ->
  sound_beyond log (dispatch seal rand token smtpScope graphScope w ip agent a r db).2.
Proof.
  intros Hw Hdb. unfold dispatch. destruct (require _ a) as [st|auth]; [done|].
  destruct (serve _ db) as [ans db'] eqn:Hs. simpl. apply (f_equal snd) in Hs. simpl in Hs. subst db'.
  apply serve_keeps; [|done]. apply handlers_keep; [done|..].
  - intros io t id e db' [H1 H2]. split; [exact H1|]. simpl. etrans; [exact H2|apply audit_grows].
  - intros op db' Hop [[H1 H2] H3]. split; [|exact H3]. split; simpl; [by apply step_dir_ok|by apply step_dir_db_ok].
Qed.

(** the directory's routes keep it consistent. Whatever is asked of them, with
    whatever failures, and whatever consistent changes others make between
    any two of its calls, every request leaves references intact, names unique
    and the queue's invariant in place, and takes nothing out of the audit log. *)
Theorem requests_keep_integrity w a r db log :
  rely w (sound_beyond log) -> sound_beyond log db ->
  sound_beyond log (dispatch seal rand token smtpScope graphScope w ip agent a r db).2.
Proof. apply dispatch_sound. Qed.

Lemma manage_is_admin r p : Can r p = true -> p ∈ [PermManageAccounts; PermManageMailboxes; PermManageCredentials] -> r = RoleAdmin.
Proof. intros Hc Hp. rewrite !elem_of_cons, elem_of_nil in Hp. destruct Hp as [->|[->|[->|[]]]]; by destruct r. Qed.

(** the directory's routes, by role. While nobody else writes, one of their
    requests that changes anything but the audit log was made in a session of an
    administrator; and what a session may only look at stays as it is, down to
    the audit log. *)
Theorem only_administrators_change_directory w a r db ans db' :
  (forall n x, w_env w n x = x) -> dispatch seal rand token smtpScope graphScope w ip agent a r db = (ans, db') ->
  (px_store db' = px_store db \/ exists auth, a = Passed auth /\ u_Role (au_User auth) = RoleAdmin) /\
  (permission_of r = PermViewConfig -> db' = db).
Proof.
  intros Hw. unfold dispatch. destruct (require (permission_of r) a) as [st|auth] eqn:Hr; [intros [= <- <-]; auto|].
  assert (a = Passed auth /\ Can (u_Role (au_User auth)) (permission_of r) = true) as [-> Hcan].
  { unfold require in Hr. destruct a as [|au]; [done|]. destruct (Can _ _) eqn:Hc; [|done]. by injection Hr as ->. }
  destruct (serve _ db) as [x y] eqn:Hs. intros [= <- <-]. apply (f_equal snd) in Hs. simpl in Hs. split.
  - destruct (reads r) eqn:Hread.
    + left. rewrite <-Hs. apply (serve_keeps (fun d => px_store d = px_store db)); [|done]. apply readers_keep; [|done|done].
      intros n d. by rewrite Hw.
    + right. exists auth. split; [done|]. apply (manage_is_admin _ _ Hcan). destruct r; try done; simpl; set_solver.
  - intros Hp. rewrite <-Hs. apply (serve_keeps (fun d => d = db)); [|done].
    apply viewers_keep; [|done]. intros n d. by rewrite Hw.
Qed.
End Integrity.

(** ** Witnesses *)

Section Sample.
#[local] Instance api_case : UnicodeCase := {| unicode_to_lower := id; unicode_to_upper := id; unicode_equal_fold := fun a b => bool_decide (a = b) |}.
#[local] Instance api_mail : NetMail := {| mail_ParseAddress := fun s => Ok ("", s); mail_ParseAddressList := fun s => Ok [("", s)]; mail_Address_String := snd |}.
#[local] Instance api_net : NetIP := {| IP := string; IPNet := string; IP_String := id; ParseCIDR := fun s => Ok s; IPNet_Contains := fun _ _ => true |}.
#[local] Instance api_fmt : GoFmt := {| Quote := id |}.
#[local] Instance api_collation : Collation := {| collate := fun _ _ => True; collate_dec := fun _ _ => left Logic.I |}.
#[local] Instance api_hasher : PasswordHasher := {| ph_verify := fun h p => Ok (bool_decide (h = p), false); ph_hash := fun p => Ok p |}.
#[local] Existing Instance exact_float.

(** Nobody else is there; the k-th identifier is "n" and a digit. *)
Definition calm : World := mkWorld (fun _ => None) (fun _ => 7) (fun n => "n" +:+ String (Ascii.ascii_of_nat (48 + n)) "") (fun _ db => db).

Definition api_db : ProxyDB := mkProxyDB dir_db empty_AdminDB ∅ ∅.

Definition admin_session : Admission :=
  Passed (mkAuthenticated (mkAdminSession "s" "u1" "" "" "" "" 0 0 0) (mkAdminUser "u1" "root" "" "" None RoleAdmin SourceLocal None "" None false 0 None None 0 0)).

Definition scanner_request : accountRequest :=
  mkAccountRequest "scanner" "" (Some "correct horse") (Some "b1") (Some ["b1"]) (Some ["*@x"]) "" None (Some 20) None.

Definition ask (r : DirRequest) : (Z + Answer DirBody) * ProxyDB :=
  dispatch None (fun _ => Err "no entropy") None "smtp" "graph" calm "10.0.0.1" "curl" admin_session r api_db.

Lemma api_db_ok : store_ok api_db.
Proof. apply run_dir_ok; [exact dir_ops_fresh|]. split; [exact empty_dir_ok|exact empty_db_ok]. Qed.

Lemma requests_keep_integrity_witness :
  from_option ans_status 0 (match (ask (CreateAccount scanner_request)).1 with inr a => Some a | inl _ => None end) = 201 /\
  sound_beyond ∅ (ask (CreateAccount scanner_request)).2.
Proof.
  split; [vm_compute; reflexivity|].
  apply (requests_keep_integrity None (fun _ => Err "no entropy") None "smtp" "graph" "10.0.0.1" "curl" calm admin_session (CreateAccount scanner_request) api_db ∅).
  - intros n db H. exact H.
  - split; [exact api_db_ok|apply map_empty_subseteq].
Defined.

Lemma only_administrators_change_directory_witness : (ask (GetMailbox "b1")).2 = api_db.
Proof.
  refine (proj2 (only_administrators_change_directory None (fun _ => Err "no entropy") None "smtp" "graph" "10.0.0.1" "curl" calm admin_session (GetMailbox "b1") api_db
    (ask (GetMailbox "b1")).1 (ask (GetMailbox "b1")).2 _ _) eq_refl).
  - intros n x. reflexivity.
  - unfold ask. match goal with |- ?x = _ => by destruct x end.
Defined.
End Sample.
