(* ===== verification/DeclaredObjects.v ===== *)
(** * Declared objects and limits under the management API

    An object of the bootstrap file is changed there and nowhere else, and what
    is written through the API stays within Exchange's limits, also when other
    requests come in between. *)

From stdpp Require Import base gmap strings list.
From Stdlib Require Import ZArith Lia.
From S2P Require Import Reconcile.
From S2P Require Import Prelude GoStrings GoFloat StoreModels MessageStore MessageQueue QueueProps Directory DirectoryProps Policy RateLimit Password.
From S2P Require Import Keyring AdminStore AdminAuth AuditLog Diagnostics Api DirectoryApi DirectoryApiProps.

Open Scope Z_scope.

(** ** Declared rows *)

Definition declared (m : ManagedBy) : bool := bool_decide (m = ManagedByBootstrap).

(** What the file declares of an account in its own row, but for its password
    and its default mailbox, which goes when the mailbox does. *)
Definition account_core (a : SMTPAccount) : string * string * FromPolicy * list string * option Z * bool :=
  (acc_Username a, acc_Description a, acc_FromPolicy a, acc_AllowCIDRs a, acc_RateLimitPerMin a, acc_Enabled a).

Abbreviation AccountCore := (string * string * FromPolicy * list string * option Z * bool)%type.

Record Declared := mkDeclared {
  dc_credentials : gmap string OAuthCredential; dc_mailboxes : gmap string Mailbox; dc_accounts : gmap string AccountCore
}.

Definition declared_in (db : DB) : Declared :=
  mkDeclared (rows_where (fun c => declared (cred_ManagedBy c)) (oauth_credentials db))
    (rows_where (fun m => declared (mb_ManagedBy m)) (mailboxes db))
    (account_core <$> rows_where (fun a => declared (acc_ManagedBy a)) (smtp_accounts db)).

(** ** Limits *)

Definition limit_ok (v : option Z) (most : Z) : Prop := forall n, v = Some n -> 0 < n <= most.

Definition mailbox_limits (m : Mailbox) : Prop :=
  limit_ok (mb_RateLimitPerMin m) ExchangeMessagesPerMinute /\ limit_ok (mb_MaxConcurrent m) ExchangeConcurrentConnections.

Definition account_limits `{NetIP} (a : SMTPAccount) : Prop :=
  limit_ok (acc_RateLimitPerMin a) ExchangeMessagesPerMinute /\ Forall (fun c => is_ok (ParseCIDR c) = true) (acc_AllowCIDRs a).

Record managed `{NetIP} (d : Declared) (db : DB) : Prop := mkManaged {
  mg_store : dir_ok db;
  mg_declared : declared_in db = d;
  mg_mailboxes : map_Forall (fun _ => mailbox_limits) (mailboxes db);
  mg_accounts : map_Forall (fun _ => account_limits) (smtp_accounts db)
}.

(** ** Lemmas on filtered tables *)

Section Filtered.
Context {R : Type} (p : R -> bool).
Implicit Types t : gmap string R.

Lemma lookup_rows_where t k r : rows_where p t !! k = Some r <-> t !! k = Some r /\ p r = true.
Proof. unfold rows_where. by rewrite map_lookup_filter_Some. Qed.

Lemma rows_where_None t k r : rows_where p t !! k = None -> t !! k = Some r -> p r = false.
Proof. intros Hn Hk. apply not_true_iff_false. intros Hp. apply eq_None_not_Some in Hn. apply Hn. exists r. by apply lookup_rows_where. Qed.

Lemma rows_where_insert_other t k r : t !! k = None -> p r = false -> rows_where p (<[k := r]> t) = rows_where p t.
Proof.
  intros Hk Hr. apply map_eq. intros i. apply option_eq. intros x. rewrite !lookup_rows_where.
  destruct (decide (i = k)) as [->|Hne]; [rewrite lookup_insert_eq, Hk|by rewrite lookup_insert_ne]. naive_solver congruence.
Qed.

Lemma rows_where_update_other t q f :
  (forall k r, t !! k = Some r -> q r = true -> p r = false /\ p (f r) = false) -> rows_where p (sql_update q f t) = rows_where p t.
Proof.
  intros Hq. apply map_eq. intros i. apply option_eq. intros x. rewrite !lookup_rows_where, lookup_sql_update.
  destruct (t !! i) as [r|] eqn:Hi; simpl; [|naive_solver]. destruct (q r) eqn:Hr; [|done]. destruct (Hq _ _ Hi Hr). naive_solver congruence.
Qed.

Lemma rows_where_delete_other t q : (forall k r, t !! k = Some r -> q r = true -> p r = false) -> rows_where p (sql_delete q t) = rows_where p t.
Proof.
  intros Hq. apply map_eq. intros i. apply option_eq. intros x. rewrite !lookup_rows_where, lookup_sql_delete.
  split; [naive_solver|]. intros [Hi Hx]. split_and!; [done| |done]. apply not_true_iff_false. intros Ht. rewrite (Hq _ _ Hi Ht) in Hx. done.
Qed.

(** A change of rows that keeps what is projected. *)
Lemma rows_where_fmap {B} (core : R -> B) t f :
  (forall r, p (f r) = p r /\ core (f r) = core r) -> core <$> rows_where p (f <$> t) = core <$> rows_where p t.
Proof.
  intros Hf. apply map_eq. intros i. rewrite !lookup_fmap. apply option_eq. intros b. rewrite !fmap_Some.
  setoid_rewrite lookup_rows_where. setoid_rewrite lookup_fmap. setoid_rewrite fmap_Some. split.
  - intros (x & [(r & Hr & ->) Hp] & ->). exists r. simpl in *. destruct (Hf r) as [H1 H2]. rewrite <-H1. auto.
  - intros (r & [Hr Hp] & ->). exists (f r). destruct (Hf r) as [H1 H2]. simpl in *. rewrite H1. eauto.
Qed.

Lemma Forall_sql_update t q f (P : R -> Prop) :
  map_Forall (fun _ => P) t -> (forall r, P r -> P (f r)) -> map_Forall (fun _ => P) (sql_update q f t).
Proof.
  intros Ht Hf k r. rewrite lookup_sql_update, fmap_Some. intros (x & Hx & ->). destruct (q x); [apply Hf|]; by eapply Ht.
Qed.

Lemma Forall_sql_delete t q (P : R -> Prop) : map_Forall (fun _ => P) t -> map_Forall (fun _ => P) (sql_delete q t).
Proof. intros Ht k r. rewrite lookup_sql_delete. intros [Hr _]. by eapply Ht. Qed.
End Filtered.

(** ** Statements *)

Section Statements.
Context `{NI : NetIP}.
Implicit Types d : Declared.

(** *** What a read shows *)

Lemma read_credential d io id db c :
  managed d db -> Credentials_Get io id db = Ok c -> cred_ID c = id /\ (declared (cred_ManagedBy c) = false -> dc_credentials d !! id = None).
Proof.
  intros [Hd <- _ _]. unfold Credentials_Get. destruct io; [done|]. destruct (oauth_credentials db !! id) as [x|] eqn:Hx; [|done]. intros [= <-].
  split; [by eapply (to_id _ _ _ _ (do_credentials _ Hd))|]. intros Hm. simpl. apply eq_None_not_Some. intros [y Hy].
  apply lookup_rows_where in Hy as [Hy Hp]. congruence.
Qed.

Lemma read_mailbox d io id db m :
  managed d db -> Mailboxes_Get io id db = Ok m ->
  mb_ID m = id /\ mailbox_limits m /\ (declared (mb_ManagedBy m) = false -> dc_mailboxes d !! id = None).
Proof.
  intros [Hd <- Hl _]. unfold Mailboxes_Get. destruct io; [done|]. destruct (mailboxes db !! id) as [x|] eqn:Hx; [|done]. intros [= <-].
  split_and!; [by eapply (to_id _ _ _ _ (do_mailboxes _ Hd))|by eapply Hl|]. intros Hm. simpl. apply eq_None_not_Some. intros [y Hy].
  apply lookup_rows_where in Hy as [Hy Hp]. congruence.
Qed.

(** The row is what the file declares, or the file declares none. *)
Definition agrees d (a : SMTPAccount) : Prop :=
  dc_accounts d !! acc_ID a = if declared (acc_ManagedBy a) then Some (account_core a) else None.

Lemma declared_account d db k a : dir_ok db -> smtp_accounts db !! k = Some a -> declared_in db = d -> agrees d a.
Proof.
  intros Hd Hk <-. unfold agrees. rewrite (to_id _ _ _ _ (do_accounts _ Hd) _ _ Hk). unfold declared_in. cbn [dc_accounts]. rewrite lookup_fmap.
  destruct (declared (acc_ManagedBy a)) eqn:Hm.
  - assert (rows_where (fun a => declared (acc_ManagedBy a)) (smtp_accounts db) !! k = Some a) as -> by by apply lookup_rows_where. done.
  - apply fmap_None, eq_None_not_Some. intros [y Hy]. apply lookup_rows_where in Hy as [Hy Hp]. congruence.
Qed.

Lemma read_account d io id db a : managed d db -> Accounts_Get io id db = Ok a -> acc_ID a = id /\ account_limits a /\ agrees d a.
Proof.
  intros [Hd Hdc _ Hl]. unfold Accounts_Get. destruct io; [done|]. destruct (smtp_accounts db !! id) as [x|] eqn:Hx; [|done]. intros [= <-].
  split_and!; [by eapply (to_id _ _ _ _ (do_accounts _ Hd))|by eapply Hl|by eapply declared_account].
Qed.

(** *** Credentials *)

Lemma credential_create_managed d io t id c db :
  managed d db -> cred_ManagedBy c = ManagedByOther "" -> managed d (Credentials_Create io t id c db).2.
Proof.
  intros [Hd Hdc Hm Ha] Hc. pose proof (Credentials_Create_ok io t id c db Hd) as Hok. unfold Credentials_Create, exec in *. destruct io; [done|].
  set (c' := credential_defaults t id c) in *. destruct (insert_credential_error c' db) as [[]|] eqn:He; simpl in *; try done.
  apply insert_error_None in He as [_ Hn]. bools. split; try done. rewrite <-Hdc. unfold declared_in. simpl. f_equal.
  apply rows_where_insert_other; [by apply eq_None_not_Some|]. simpl. by rewrite Hc.
Qed.

Lemma credential_update_managed d io t c db :
  managed d db -> dc_credentials d !! cred_ID c = None -> declared (cred_ManagedBy c) = false -> managed d (Credentials_Update io t c db).2.
Proof.
  intros [Hd Hdc Hm Ha] Hn Hc. pose proof (Credentials_Update_ok io t c db Hd) as Hok. revert Hok. unfold Credentials_Update. write_cases Hw.
  destruct Hw as [[-> _]|(-> & _)]; [done|]. intros Hok. split; try done. rewrite <-Hdc. unfold declared_in. simpl. f_equal.
  apply rows_where_update_other. intros k x Hk Hi. bools. split; [|done].
  rewrite (to_id _ _ _ _ (do_credentials _ Hd) _ _ Hk) in Hi. subst k. rewrite <-Hdc in Hn. exact (rows_where_None _ _ _ _ Hn Hk).
Qed.

Lemma credential_delete_managed d io id db :
  managed d db -> dc_credentials d !! id = None -> managed d (Credentials_Delete io id db).2.
Proof.
  intros [Hd Hdc Hm Ha] Hn. pose proof (Credentials_Delete_ok io id db Hd) as Hok. revert Hok. unfold Credentials_Delete. write_cases Hw.
  destruct Hw as [[-> _]|(-> & _)]; [done|]. intros Hok. split; try done. rewrite <-Hdc. unfold declared_in. simpl. f_equal.
  apply rows_where_delete_other. intros k x Hk Hi. bools.
  rewrite (to_id _ _ _ _ (do_credentials _ Hd) _ _ Hk) in *. subst k. rewrite <-Hdc in Hn. exact (rows_where_None _ _ _ _ Hn Hk).
Qed.

(** *** Mailboxes *)

Lemma mailbox_create_managed d io t id m db :
  managed d db -> mb_ManagedBy m = ManagedByOther "" -> mailbox_limits m -> managed d (Mailboxes_Create io t id m db).2.
Proof.
  intros [Hd Hdc Hm Ha] Hc Hl. pose proof (Mailboxes_Create_ok io t id m db Hd) as Hok. unfold Mailboxes_Create, exec in *. destruct io; [done|].
  set (m' := mailbox_defaults t id m) in *. destruct (insert_mailbox_error m' db) as [[]|] eqn:He; simpl in *; try done.
  apply insert_error_None in He as [_ Hn]. bools. split; try done.
  - rewrite <-Hdc. unfold declared_in. simpl. f_equal. apply rows_where_insert_other; [by apply eq_None_not_Some|]. simpl. by rewrite Hc.
  - by apply map_Forall_insert_2.
Qed.

Lemma mailbox_update_managed d io t m db :
  managed d db -> dc_mailboxes d !! mb_ID m = None -> declared (mb_ManagedBy m) = false -> mailbox_limits m ->
  managed d (Mailboxes_Update io t m db).2.
Proof.
  intros [Hd Hdc Hm Ha] Hn Hc Hl. pose proof (Mailboxes_Update_ok io t m db Hd) as Hok. revert Hok. unfold Mailboxes_Update. write_cases Hw.
  destruct Hw as [[-> _]|(-> & _)]; [done|]. intros Hok. split; try done.
  - rewrite <-Hdc. unfold declared_in. simpl. f_equal. apply rows_where_update_other. intros k x Hk Hi. bools. split; [|done].
    rewrite (to_id _ _ _ _ (do_mailboxes _ Hd) _ _ Hk) in Hi. subst k. rewrite <-Hdc in Hn. exact (rows_where_None _ _ _ _ Hn Hk).
  - by apply Forall_sql_update.
Qed.

Lemma mailbox_delete_managed d io id db :
  managed d db -> dc_mailboxes d !! id = None -> managed d (Mailboxes_Delete io id db).2.
Proof.
  intros [Hd Hdc Hm Ha] Hn. unfold Mailboxes_Delete. write_cases Hw. destruct Hw as [[-> _]|(-> & _)]; [done|].
  split; [by apply delete_mailbox_ok| |by apply Forall_sql_delete|].
  - rewrite <-Hdc. unfold declared_in. simpl. f_equal.
    + apply rows_where_delete_other. intros k x Hk Hi. bools.
      rewrite (to_id _ _ _ _ (do_mailboxes _ Hd) _ _ Hk) in *. subst k. rewrite <-Hdc in Hn. exact (rows_where_None _ _ _ _ Hn Hk).
    + by apply rows_where_fmap.
  - intros k x. simpl. rewrite lookup_fmap, fmap_Some. intros (y & Hy & ->). by apply Ha in Hy.
Qed.

(** *** Accounts *)

Lemma account_create_managed d io t id a db :
  managed d db -> acc_ManagedBy a = ManagedByOther "" -> account_limits a -> managed d (Accounts_Create io t id a db).2.
Proof.
  intros [Hd Hdc Hm Ha] Hc Hl. pose proof (Accounts_Create_ok io t id a db Hd) as Hok. unfold Accounts_Create, exec in *. destruct io; [done|].
  set (a' := account_defaults t id a) in *. destruct (insert_account_error a' db) as [[]|] eqn:He; simpl in *; try done.
  apply insert_error_None in He as [_ Hn]. bools. split; try done.
  - rewrite <-Hdc. unfold declared_in. simpl. do 2 f_equal. apply rows_where_insert_other; [by apply eq_None_not_Some|]. simpl. by rewrite Hc.
  - by apply map_Forall_insert_2.
Qed.

Lemma account_update_managed d io t a db :
  managed d db -> agrees d a -> account_limits a -> managed d (Accounts_Update io t a db).2.
Proof.
  intros [Hd Hdc Hm Ha] Hag Hl. pose proof (Accounts_Update_ok io t a db Hd) as Hok. revert Hok. unfold Accounts_Update. write_cases Hw.
  destruct Hw as [[-> _]|(-> & _)]; [done|]. intros Hok. split; try done; [|by apply Forall_sql_update].
  rewrite <-Hdc. unfold declared_in. simpl. f_equal. apply map_eq. intros k. rewrite !lookup_fmap. unfold rows_where.
  destruct (smtp_accounts db !! k) as [x|] eqn:Hk.
  2: { rewrite !(proj2 (map_lookup_filter_None _ _ _)); [done|by left|]. left. by rewrite lookup_sql_update, Hk. }
  destruct (bool_decide (acc_ID x = acc_ID a)) eqn:Hi; bools.
  2: { f_equal. apply option_eq. intros y. rewrite !map_lookup_filter_Some, lookup_sql_update, Hk. simpl. by rewrite bool_decide_eq_false_2. }
  pose proof (declared_account d db k x Hd Hk Hdc) as Hx. unfold agrees in Hx, Hag. rewrite Hi, Hag in Hx.
  assert (forall y, account_core <$> (if declared (acc_ManagedBy y) then Some y else None) = if declared (acc_ManagedBy y) then Some (account_core y) else None) as Hc
    by (intros y; by destruct (declared (acc_ManagedBy y))).
  transitivity (account_core <$> (if declared (acc_ManagedBy x) then Some x else None)).
  - rewrite Hc, <-Hx. transitivity (account_core <$> (if declared (acc_ManagedBy a) then Some (account_set t a x) else None)); [|by destruct (declared (acc_ManagedBy a))].
    f_equal. apply option_eq. intros y. rewrite map_lookup_filter_Some, lookup_sql_update, Hk. simpl. rewrite bool_decide_eq_true_2 by done.
    split; [intros [[= <-] Hp]; simpl in Hp; by rewrite Hp|]. destruct (declared (acc_ManagedBy a)) eqn:Hda; [|done]. intros [= <-]. done.
  - f_equal. apply option_eq. intros y. rewrite map_lookup_filter_Some, Hk. simpl.
    split; [|intros [[= <-] Hp]; by rewrite Hp]. destruct (declared (acc_ManagedBy x)) eqn:Hdx; [|done]. by intros [= <-].
Qed.

Lemma account_delete_managed d io id db : managed d db -> dc_accounts d !! id = None -> managed d (Accounts_Delete io id db).2.
Proof.
  intros [Hd Hdc Hm Ha] Hn. unfold Accounts_Delete. write_cases Hw. destruct Hw as [[-> _]|(-> & _)]; [done|].
  split; [by apply delete_account_ok| |done|by apply Forall_sql_delete].
  rewrite <-Hdc. unfold declared_in. simpl. do 2 f_equal. apply rows_where_delete_other. intros k x Hk Hi. bools.
  rewrite (to_id _ _ _ _ (do_accounts _ Hd) _ _ Hk) in *. subst k. rewrite <-Hdc in Hn. unfold declared_in in Hn. cbn [dc_accounts] in Hn.
  rewrite lookup_fmap in Hn. apply fmap_None in Hn. exact (rows_where_None _ _ _ _ Hn Hk).
Qed.

(** A statement that leaves the three tables alone. *)
Lemma tables_managed d db db' :
  managed d db -> dir_ok db' -> oauth_credentials db' = oauth_credentials db -> mailboxes db' = mailboxes db ->
  smtp_accounts db' = smtp_accounts db -> managed d db'.
Proof. intros [Hd <- Hm Ha] Hd' H1 H2 H3. split; [done| |by rewrite H2|by rewrite H3]. unfold declared_in. by rewrite H1, H2, H3. Qed.

Lemma links_managed d io id ids db : managed d db -> managed d (SetMailboxes io (fun _ => None) id ids db).2.
Proof.
  intros Hm. pose proof (SetMailboxes_ok io (fun _ => None) id ids db (mg_store _ _ Hm)) as Hok.
  destruct (SetMailboxes_cases io (fun _ => None) id ids db) as [[e Hs]|(l & Hs & _)]; rewrite Hs in *; [done|]. by eapply tables_managed.
Qed.

Lemma senders_managed d io newIDs t id ps db : managed d db -> managed d (SetAllowedSenders io (fun _ => None) newIDs t id ps db).2.
Proof.
  intros Hm. pose proof (SetAllowedSenders_ok io (fun _ => None) newIDs t id ps db (mg_store _ _ Hm)) as Hok.
  destruct (SetAllowedSenders_tables io (fun _ => None) newIDs t id ps db) as (H1 & H2 & H3 & _). by eapply tables_managed.
Qed.
End Statements.

(** ** What hangs on a declared account *)

(** The default mailboxes of the accounts, the links and the allowed senders of
    a moment, beside the declared rows. *)
Record Snapshot := mkSnapshot {
  sn_rows : Declared; sn_defaults : gmap string (option string); sn_links : gset (string * string); sn_senders : gmap string AllowedSender
}.

Definition snapshot_of (db : DB) : Snapshot :=
  mkSnapshot (declared_in db) (acc_DefaultMailboxID <$> smtp_accounts db) (smtp_account_mailboxes db) (allowed_senders db).

(** The account is declared, the mailbox is not. *)
Definition fixed (sn : Snapshot) (id : string) : Prop := is_Some (dc_accounts (sn_rows sn) !! id).
Definition loose (sn : Snapshot) (mailbox : string) : Prop := dc_mailboxes (sn_rows sn) !! mailbox = None.

(** The default mailbox and the links of a declared account are those of the
    snapshot; where mailboxes may be deleted, [strict] being false, one that is
    not declared may be missing. *)
Definition default_kept (strict : bool) (sn : Snapshot) (id : string) (v : option string) : Prop :=
  sn_defaults sn !! id = Some v \/ (strict = false /\ v = None /\ exists b, sn_defaults sn !! id = Some (Some b) /\ loose sn b).

Record attached (strict : bool) (sn : Snapshot) (db : DB) : Prop := mkAttached {
  at_defaults : forall k a, smtp_accounts db !! k = Some a -> declared (acc_ManagedBy a) = true -> default_kept strict sn k (acc_DefaultMailboxID a);
  at_added : forall a b, fixed sn a -> (a, b) ∈ smtp_account_mailboxes db -> (a, b) ∈ sn_links sn;
  at_kept : forall a b, fixed sn a -> (a, b) ∈ sn_links sn -> (a, b) ∈ smtp_account_mailboxes db \/ (strict = false /\ loose sn b);
  at_senders : forall k s, fixed sn (as_SMTPAccountID s) -> allowed_senders db !! k = Some s <-> sn_senders sn !! k = Some s
}.

(** Everything the file declares is in place. *)
Definition respected `{NetIP} (strict : bool) (sn : Snapshot) (db : DB) : Prop := managed (sn_rows sn) db /\ attached strict sn db.

Section Attached.
Context `{NI : NetIP} (strict : bool) (sn : Snapshot).
Implicit Types db : DB.

Lemma attached_same db db' :
  attached strict sn db -> smtp_accounts db' = smtp_accounts db -> smtp_account_mailboxes db' = smtp_account_mailboxes db ->
  allowed_senders db' = allowed_senders db -> attached strict sn db'.
Proof. intros [H1 H2 H3 H4] Ha Hl Hs. split; by rewrite ?Ha, ?Hl, ?Hs. Qed.

Lemma undeclared_not_fixed id : dc_accounts (sn_rows sn) !! id = None -> forall a, fixed sn a -> a <> id.
Proof. intros Hn a [x Hx] ->. congruence. Qed.

(** The accounts of a consistent database with these declarations. *)
Lemma declared_fixed db k a : managed (sn_rows sn) db -> smtp_accounts db !! k = Some a -> declared (acc_ManagedBy a) = true -> fixed sn k.
Proof.
  intros [Hd Hdc _ _] Hk Ha. unfold fixed. rewrite <-Hdc. unfold declared_in. cbn [dc_accounts]. rewrite lookup_fmap.
  assert (rows_where (fun a => declared (acc_ManagedBy a)) (smtp_accounts db) !! k = Some a) as -> by by apply lookup_rows_where. by eexists.
Qed.

Lemma absent_not_fixed db k : managed (sn_rows sn) db -> smtp_accounts db !! k = None -> dc_accounts (sn_rows sn) !! k = None.
Proof.
  intros [Hd Hdc _ _] Hk. rewrite <-Hdc. unfold declared_in. cbn [dc_accounts]. rewrite lookup_fmap. apply fmap_None, eq_None_not_Some.
  intros [y [Hy _]%lookup_rows_where]. congruence.
Qed.

(** A statement on credentials or mailboxes leaves what hangs on accounts. *)
Lemma credential_create_attached io t id c db : attached strict sn db -> attached strict sn (Credentials_Create io t id c db).2.
Proof. intros H. unfold Credentials_Create, exec. destruct io; [done|]. destruct (translateError _ _); [done|]. by eapply attached_same. Qed.

Lemma credential_update_attached io t c db : attached strict sn db -> attached strict sn (Credentials_Update io t c db).2.
Proof. intros H. unfold Credentials_Update. write_cases Hc. destruct Hc as [[-> _]|(-> & _)]; [done|]. by eapply attached_same. Qed.

Lemma credential_delete_attached io id db : attached strict sn db -> attached strict sn (Credentials_Delete io id db).2.
Proof. intros H. unfold Credentials_Delete. write_cases Hc. destruct Hc as [[-> _]|(-> & _)]; [done|]. by eapply attached_same. Qed.

Lemma mailbox_create_attached io t id m db : attached strict sn db -> attached strict sn (Mailboxes_Create io t id m db).2.
Proof. intros H. unfold Mailboxes_Create, exec. destruct io; [done|]. destruct (translateError _ _); [done|]. by eapply attached_same. Qed.

Lemma mailbox_update_attached io t m db : attached strict sn db -> attached strict sn (Mailboxes_Update io t m db).2.
Proof. intros H. unfold Mailboxes_Update. write_cases Hc. destruct Hc as [[-> _]|(-> & _)]; [done|]. by eapply attached_same. Qed.

Lemma mailbox_delete_attached io id db :
  strict = false -> loose sn id -> attached strict sn db -> attached strict sn (Mailboxes_Delete io id db).2.
Proof.
  intros Hst Hid [H1 H2 H3 H4]. unfold Mailboxes_Delete. write_cases Hw. destruct Hw as [[-> _]|(-> & _)]; [done|]. split; simpl.
  - intros k a. rewrite lookup_fmap, fmap_Some. intros (x & Hx & ->) Ha. simpl in *. specialize (H1 k x Hx Ha). unfold clear_fk.
    case_bool_decide as Hc; [|done]. right. split_and!; [done|done|]. destruct H1 as [H1|(_ & H1 & b & Hb & Hl)]; [|by exists b].
    exists id. by rewrite H1, Hc.
  - intros a b Ha [_ Hin]%elem_of_filter. by apply H2.
  - intros a b Ha Hin. destruct (decide (b = id)) as [->|Hne]; [by right|]. destruct (H3 a b Ha Hin) as [Hl|?]; [left|by right].
    by apply elem_of_filter.
  - done.
Qed.

Lemma account_create_attached io t id a db :
  acc_ManagedBy a = ManagedByOther "" -> attached strict sn db -> attached strict sn (Accounts_Create io t id a db).2.
Proof.
  intros Hm [H1 H2 H3 H4]. unfold Accounts_Create, exec. destruct io; [done|]. destruct (translateError _ _); [done|]. split; simpl; try done.
  intros k x [[<- <-]|[_ Hk]]%lookup_insert_Some Ha; [|by apply H1]. unfold account_defaults in Ha. simpl in Ha. by rewrite Hm in Ha.
Qed.

Lemma account_update_attached io t a db :
  managed (sn_rows sn) db -> (declared (acc_ManagedBy a) = true -> default_kept strict sn (acc_ID a) (acc_DefaultMailboxID a)) ->
  attached strict sn db -> attached strict sn (Accounts_Update io t a db).2.
Proof.
  intros [Hd _ _ _] Hdef [H1 H2 H3 H4]. unfold Accounts_Update. write_cases Hw. destruct Hw as [[-> _]|(-> & _)]; [done|]. split; simpl; try done.
  intros k x. rewrite lookup_sql_update, fmap_Some. intros (y & Hy & ->). case_bool_decide as Hi; [|by apply H1].
  intros Ha. simpl in *. rewrite <-(to_id _ _ _ _ (do_accounts _ Hd) _ _ Hy), Hi. auto.
Qed.

Lemma account_delete_attached io id db :
  dc_accounts (sn_rows sn) !! id = None -> attached strict sn db -> attached strict sn (Accounts_Delete io id db).2.
Proof.
  intros Hn [H1 H2 H3 H4]. pose proof (undeclared_not_fixed id Hn) as Hne.
  unfold Accounts_Delete. write_cases Hw. destruct Hw as [[-> _]|(-> & _)]; [done|]. split; simpl.
  - intros k a [Hk _]%lookup_sql_delete. by apply H1.
  - intros a b Ha [_ Hin]%elem_of_filter. by apply H2.
  - intros a b Ha Hin. destruct (H3 a b Ha Hin) as [Hl|?]; [left|by right]. apply elem_of_filter. split; [by apply Hne|done].
  - intros k s Hs. rewrite <-(H4 k s Hs), lookup_sql_delete, bool_decide_eq_false_2 by (by apply Hne). naive_solver.
Qed.

Lemma links_attached io id ids db :
  dc_accounts (sn_rows sn) !! id = None -> attached strict sn db -> attached strict sn (SetMailboxes io (fun _ => None) id ids db).2.
Proof.
  intros Hn [H1 H2 H3 H4]. pose proof (undeclared_not_fixed id Hn) as Hne.
  destruct (SetMailboxes_cases io (fun _ => None) id ids db) as [[e Hs]|(l & Hs & Hl & _)]; rewrite Hs; [done|]. split; simpl; try done.
  - intros a b Ha [[_ Hin]|[He _]]%Hl; [by apply H2|]. by destruct (Hne a Ha).
  - intros a b Ha Hin. destruct (H3 a b Ha Hin) as [Hk|?]; [left|by right]. apply Hl. left. split; [by apply Hne|done].
Qed.

Lemma senders_attached io newIDs t id ps db :
  dc_accounts (sn_rows sn) !! id = None -> attached strict sn db -> attached strict sn (SetAllowedSenders io (fun _ => None) newIDs t id ps db).2.
Proof.
  intros Hn [H1 H2 H3 H4]. pose proof (undeclared_not_fixed id Hn) as Hne.
  destruct (SetAllowedSenders_cases io (fun _ => None) newIDs t id ps db) as [[e Hs]|(l & Hs & Hl & _)]; rewrite Hs; [done|]. split; simpl; try done.
  intros k s Hk. rewrite <-(H4 k s Hk). apply Hl. by apply Hne.
Qed.
End Attached.

(** ** Requests *)

Section Requests.
Context `{UC : UnicodeCase} `{NM : NetMail} `{NI : NetIP} `{GF : GoFmt} `{C : Collation} `{F : Float64} `{PH : PasswordHasher}.
Context (seal : option (string -> string -> result string string)) (rand : Z -> result string string).
Context (token : option (OAuthCredential -> string -> result string unit)) (smtpScope graphScope : string).

(** *** What validation gives *)

Lemma bad_nil b f : bad b f = [] -> b = false.
Proof. by destruct b. Qed.

Lemma limit_kept v most f old : bad_limit v most f = [] -> limit_ok old most -> limit_ok (or_limit v old) most.
Proof.
  destruct v as [n|]; simpl; [|done]. intros Hb%bad_nil _ x. unfold NullInt. bools. destruct (n >? 0) eqn:Hn; [|done]. intros [= <-]. lia.
Qed.

Lemma no_limit most : limit_ok None most.
Proof. by intros n. Qed.

Lemma mailbox_validated req creating old :
  validateMailbox req creating = [] -> limit_ok (mb_RateLimitPerMin old) ExchangeMessagesPerMinute ->
  limit_ok (mb_MaxConcurrent old) ExchangeConcurrentConnections ->
  limit_ok (or_limit (mq_RateLimitPerMin req) (mb_RateLimitPerMin old)) ExchangeMessagesPerMinute /\
  limit_ok (or_limit (mq_MaxConcurrent req) (mb_MaxConcurrent old)) ExchangeConcurrentConnections.
Proof.
  unfold validateMailbox. intros Hv H1 H2. repeat (apply app_eq_nil in Hv as [? Hv]). split; eapply limit_kept; eauto.
Qed.

Lemma cidrs_validated l : bad (existsb (fun c => negb (is_ok (ParseCIDR c))) l) "allowCidrs" = [] -> Forall (fun c => is_ok (ParseCIDR c) = true) l.
Proof.
  intros Hb%bad_nil. apply Forall_forall. intros c Hc. apply not_false_iff_true. intros Hf. apply not_true_iff_false in Hb. apply Hb.
  apply existsb_exists. exists c. split; [by apply list_elem_of_In|]. by rewrite Hf.
Qed.

Lemma account_validated req creating old cidrs :
  validateAccount req creating = [] -> limit_ok old ExchangeMessagesPerMinute -> Forall (fun c => is_ok (ParseCIDR c) = true) cidrs ->
  limit_ok (or_limit (aq_RateLimitPerMin req) old) ExchangeMessagesPerMinute /\
  Forall (fun c => is_ok (ParseCIDR c) = true) (default cidrs (aq_AllowCIDRs req)).
Proof.
  unfold validateAccount. intros Hv H1 H2. repeat (apply app_eq_nil in Hv as [? Hv]). split; [by eapply limit_kept|].
  destruct (aq_AllowCIDRs req); simpl in *; [by apply cidrs_validated|done].
Qed.

Section Run.
Context (strict : bool) (sn : Snapshot) (w : World) (who : Caller).
Local Abbreviation d := (sn_rows sn).
Local Abbreviation I := (fun db : ProxyDB => respected strict sn (px_store db)).
Context (Hw : rely w I).

Lemma triple_guard_fields l (R : ProxyDB -> Prop) : triple R (guard_fields l) (fun _ db => l = [] /\ R db) R.
Proof. intros s Hs. by destruct l. Qed.

Lemma triple_guard_managed m (R : ProxyDB -> Prop) : triple R (guard_managed m) (fun _ db => declared m = false /\ R db) R.
Proof. intros s Hs. unfold guard_managed, declared. by case_bool_decide. Qed.

(** After a guard, the fact is at hand. *)
Lemma keeps_guarded {A} fields (k : unit -> H DirBody A) :
  (fields = [] -> keeps I (k tt)) -> keeps I (hbind (guard_fields fields) k).
Proof. intros Hk. eapply triple_bind; [apply triple_guard_fields|]. intros []. by apply triple_pure. Qed.

Lemma keeps_undeclared {A} m (k : unit -> H DirBody A) :
  (declared m = false -> keeps I (k tt)) -> keeps I (hbind (guard_managed m) k).
Proof. intros Hk. eapply triple_bind; [apply triple_guard_managed|]. intros []. by apply triple_pure. Qed.

Lemma keeps_read_fact {A B} (f : option string -> DB -> result StoreError A) (X : A -> Prop) (k : A -> H DirBody B) :
  (forall io db a, respected strict sn db -> f io db = Ok a -> X a) -> (forall a, X a -> keeps I (k a)) -> keeps I (hbind (api_read w f) k).
Proof using Hw.
  intros HX Hk. eapply triple_bind; [apply (triple_read w I Hw f X); intros io db a; apply HX|]. intros a. apply triple_pure. apply Hk.
Qed.

Lemma keeps_statement {A B} (f : option string -> Z -> string -> DB -> result StoreError A * DB) (k : A -> H DirBody B) :
  (forall io t id db, managed d db -> managed d (f io t id db).2) ->
  (forall io t id db, managed d db -> attached strict sn db -> attached strict sn (f io t id db).2) ->
  (forall a, keeps I (k a)) -> keeps I (hbind (api_write w f) k).
Proof using Hw.
  intros Hf Hg Hk. apply keeps_bind; [|done]. apply keeps_write; [done|]. intros io t id db [H1 H2]. split; [by apply Hf|by apply Hg].
Qed.

Lemma keeps_links_respected id req : dc_accounts d !! id = None -> keeps I (applyAccountLinks w id req).
Proof using Hw.
  intros Hn. apply keeps_links; [done|..]; intros io *; intros [H1 H2]; split;
    [by apply links_managed|by apply links_attached|by apply senders_managed|by apply senders_attached].
Qed.

Lemma keeps_note e : keeps I (api_audit (Body := DirBody) w who e).
Proof using Hw. by apply keeps_audit. Qed.

#[local] Hint Resolve keeps_ret keeps_stop keeps_read keeps_try keeps_fresh keeps_now keeps_forget keeps_note keeps_sealed keeps_password
  keeps_hashed keeps_count keeps_name keeps_account_response keeps_links_respected : api.

Ltac calls := repeat (apply keeps_bind; [solve [eauto with api]|intros ?]); try solve [eauto with api].

Lemma sealed_keeps req c c' : sealCredential seal req c = Some c' -> cred_ID c' = cred_ID c /\ cred_ManagedBy c' = cred_ManagedBy c.
Proof. unfold sealCredential. intros H. by repeat (case_match; simplify_eq/=). Qed.

Lemma keeps_sealed_fact {A} req c (k : OAuthCredential -> H DirBody A) :
  (forall c', cred_ID c' = cred_ID c -> cred_ManagedBy c' = cred_ManagedBy c -> keeps I (k c')) -> keeps I (hbind (sealed_or_invalid seal req c) k).
Proof.
  intros Hk. unfold sealed_or_invalid. destruct (sealCredential seal req c) as [c'|] eqn:Hs; [|by intros s].
  apply sealed_keeps in Hs as [H1 H2]. intros s Hst. by apply (Hk c' H1 H2).
Qed.

(** What reading an account shows of it. *)
Lemma read_account_kept io id db a :
  respected strict sn db -> Accounts_Get io id db = Ok a ->
  acc_ID a = id /\ account_limits a /\ agrees d a /\ (declared (acc_ManagedBy a) = true -> default_kept strict sn (acc_ID a) (acc_DefaultMailboxID a)).
Proof.
  intros [Hm Ha] Hg. destruct (read_account d io id db a Hm Hg) as (Hid & Hl & Hag). split_and!; try done.
  intros Hdec. rewrite Hid. unfold Accounts_Get in Hg. destruct io; [done|]. destruct (smtp_accounts db !! id) as [x|] eqn:Hx; [|done].
  injection Hg as ->. by apply (at_defaults _ _ _ Ha id a).
Qed.

(** A new account's identifier is no declared one's. *)
Lemma keeps_created {B} req hash (k : SMTPAccount -> H DirBody B) :
  account_limits (new_account req hash) -> (forall a, dc_accounts d !! acc_ID a = None -> keeps I (k a)) ->
  keeps I (hbind (api_write w (fun io now newID => Accounts_Create io now newID (new_account req hash))) k).
Proof using Hw.
  intros Hl Hk. eapply (triple_bind _ _ (fun a db => dc_accounts d !! acc_ID a = None /\ I db)); [|intros a; apply triple_pure; exact (Hk a)].
  apply triple_write; [done|]. intros io t id db [H1 H2].
  pose proof (account_create_managed d io t id (new_account req hash) (px_store db) H1 eq_refl Hl) as Hm.
  pose proof (account_create_attached strict sn io t id (new_account req hash) (px_store db) eq_refl H2) as Ha.
  destruct (Accounts_Create io t id _ (px_store db)) as [[a|e] st] eqn:Hc; [|by split]. split; [|by split].
  unfold Accounts_Create, exec in Hc. destruct io; [done|].
  destruct (insert_account_error (account_defaults t id (new_account req hash)) (px_store db)) as [[]|] eqn:He; try done.
  apply insert_error_None in He as [_ Hn]. bools. simpl in Hc. injection Hc as <- _. eapply absent_not_fixed; [exact H1|]. by apply eq_None_not_Some.
Qed.

#[local] Opaque applyAccountLinks.

Lemma respected_requests r :
  (strict = true -> forall id, r <> DeleteMailbox id) -> keeps I (handle seal rand token smtpScope graphScope w who r).
Proof using Hw.
  intros Hstrict. destruct (reads r) eqn:Hr; [by apply readers_keep|]. destruct r; try done; simpl.
  - unfold handleCreateCredential. apply keeps_guarded. intros _. apply keeps_bind; [apply keeps_fresh|intros ?]. apply keeps_sealed_fact. intros c Hid Hm.
    apply keeps_statement; [intros io t i db Hdb; by apply credential_create_managed|intros io t i db _; apply credential_create_attached|intros ?; calls].
  - unfold handleUpdateCredential. eapply keeps_read_fact; [intros io db a [Hdb _]; by apply (read_credential d io _ db a)|]. intros c [Hid Hn].
    apply keeps_undeclared. intros Hm. apply keeps_guarded. intros _. apply keeps_sealed_fact. intros c' Hid' Hm'.
    apply keeps_statement; [|intros io t i db _; rewrite stamped_snd; apply credential_update_attached|intros ?; calls]. intros io t i db Hdb. rewrite stamped_snd.
    apply credential_update_managed; [done| |by rewrite Hm']. rewrite Hid'. simpl. rewrite Hid. auto.
  - unfold handleDeleteCredential. eapply keeps_read_fact; [intros io db a [Hdb _]; by apply (read_credential d io _ db a)|]. intros c [Hid Hn].
    apply keeps_undeclared. intros Hm. apply keeps_statement; [|intros io t i db _; apply credential_delete_attached|intros ?; calls].
    intros io t i db Hdb. apply credential_delete_managed; auto.
  - unfold handleCreateMailbox. apply keeps_guarded. intros Hv.
    apply keeps_statement; [|intros io t i db _; apply mailbox_create_attached|intros ?; calls]. intros io t i db Hdb.
    apply mailbox_create_managed; [done..|]. by apply (mailbox_validated req true (new_mailbox (mkMailboxRequest "" "" "" "" None None None))).
  - unfold handleUpdateMailbox. eapply keeps_read_fact; [intros io db a [Hdb _]; by apply (read_mailbox d io _ db a)|]. intros m (Hid & [Hl1 Hl2] & Hn).
    apply keeps_undeclared. intros Hm. apply keeps_guarded. intros Hv.
    apply keeps_statement; [|intros io t i db _; rewrite stamped_snd; apply mailbox_update_attached|intros ?; calls].
    intros io t i db Hdb. rewrite stamped_snd. apply mailbox_update_managed; [done| |done|by eapply mailbox_validated]. simpl. rewrite Hid. auto.
  - unfold handleDeleteMailbox. eapply keeps_read_fact; [intros io db a [Hdb _]; by apply (read_mailbox d io _ db a)|]. intros m (Hid & _ & Hn).
    apply keeps_undeclared. intros Hm. assert (loose sn (mb_ID m)) as Hloose by (unfold loose; rewrite Hid; auto).
    apply keeps_statement; [intros io t i db Hdb; by apply mailbox_delete_managed| |intros ?; calls].
    intros io t i db _. apply mailbox_delete_attached; [|done]. destruct strict; [|done]. by destruct (Hstrict eq_refl id).
  - unfold handleCreateAccount. apply keeps_guarded. intros Hv. repeat (apply keeps_bind; [solve [eauto with api]|intros ?]). apply keeps_created; [by apply (account_validated req true None [])|]. intros created Hcreated. calls.
  - unfold handleUpdateAccount. eapply keeps_read_fact; [intros io db a; apply read_account_kept|]. intros a (Hid & [Hl1 Hl2] & Hag & _).
    apply keeps_undeclared. intros Hm. apply keeps_guarded. intros Hv. unfold agrees in Hag. rewrite Hm in Hag.
    apply keeps_statement; [| |intros ?; calls; by apply keeps_links_respected]; intros io t i db Hdb; rewrite stamped_snd.
    + apply account_update_managed; [done| |by eapply account_validated]. unfold agrees. simpl. by rewrite Hm.
    + apply account_update_attached; [done|]. simpl. by rewrite Hm.
  - unfold handleDeleteAccount. eapply keeps_read_fact; [intros io db a; apply read_account_kept|]. intros a (Hid & _ & Hag & _).
    apply keeps_undeclared. intros Hm. unfold agrees in Hag. rewrite Hm in Hag.
    apply keeps_statement; [intros io t i db Hdb; by apply account_delete_managed|intros io t i db _; by apply account_delete_attached|intros ?; calls].
  - unfold handleResetAccountPassword. eapply keeps_read_fact; [intros io db a; apply read_account_kept|]. intros a (Hid & Hl & Hag & Hdef).
    calls. apply keeps_statement; [intros io t i db Hdb; by apply account_update_managed| |intros ?; calls].
    intros io t i db Hdb. by apply account_update_attached.
Qed.
End Run.

(** C28: what the bootstrap file declares is changed there and nowhere else, and
    nothing outside Exchange's limits is ever stored. As long as others keep to
    the same rule between any two calls of a request, no request to the
    directory's routes adds, changes or removes a declared credential or mailbox
    or the settings of a declared account, gives it a mailbox, takes a declared
    mailbox from it or touches its allowed senders; and every mailbox and
    account has limits within Exchange's and source networks that parse. What
    may change of a declared account is its password, when it was last used and
    updated, and that deleting a mailbox which is not declared takes it from the
    account's links and default: where no mailbox is deleted, [strict], both
    stay exactly as they are. *)
Theorem api_respects_declarations strict sn w ip agent a r db :
  rely w (fun x => respected strict sn (px_store x)) -> respected strict sn (px_store db) ->
  (strict = true -> forall id, r <> DeleteMailbox id) ->
  respected strict sn (px_store (dispatch seal rand token smtpScope graphScope w ip agent a r db).2).
Proof.
  intros Hw Hdb Hr. unfold dispatch. destruct (require _ a) as [st|auth]; [done|].
  destruct (serve _ db) as [ans db'] eqn:Hs. simpl. apply (f_equal snd) in Hs. simpl in Hs. subst db'.
  apply (serve_keeps (fun x => respected strict sn (px_store x))); [|done]. by apply respected_requests.
Qed.
End Requests.

(** ** Witness and observations *)

Section Sample.
#[local] Existing Instances api_case api_mail api_net api_fmt api_collation api_hasher exact_float.

(** The printer is declared; it has the mailbox as its default and is linked to it. *)
Definition declared_printer : SMTPAccount :=
  mkSMTPAccount "a1" "printer" "hash" "" (Some "b1") FromPolicyReject [] (Some 10) true None ManagedByBootstrap 3 3.
Definition declared_db : DB := (Accounts_Update None 40 declared_printer dir_db).2.

Lemma declared_db_managed : managed (declared_in declared_db) declared_db.
Proof.
  assert (map_Forall (fun _ m => mb_RateLimitPerMin m = None /\ mb_MaxConcurrent m = None) (mailboxes declared_db)) as Hm
    by (refine (bool_decide_eq_true_1 _ _); vm_compute; reflexivity).
  assert (map_Forall (fun _ a => acc_RateLimitPerMin a = Some 10 /\ acc_AllowCIDRs a = []) (smtp_accounts declared_db)) as Ha
    by (refine (bool_decide_eq_true_1 _ _); vm_compute; reflexivity).
  split; [exact (Accounts_Update_ok None 40 declared_printer dir_db dir_db_ok)|reflexivity|..]; intros k x Hk.
  - destruct (Hm k x Hk) as [H1 H2]. split; rewrite ?H1, ?H2; by intros n.
  - destruct (Ha k x Hk) as [H1 H2]. split; rewrite ?H1, ?H2; [by intros n [= <-]|constructor].
Qed.

Lemma snapshot_respected `{NetIP} strict db : managed (declared_in db) db -> respected strict (snapshot_of db) db.
Proof.
  intros Hm. split; [done|]. split; simpl; [|done|by left|done]. intros k a Hk _. left. simpl. by rewrite lookup_fmap, Hk.
Qed.

(** Somebody tries to take the printer's mailbox and to give it senders. *)
Definition tampering : DirRequest :=
  UpdateAccount "a1" (mkAccountRequest "scanner" "" None (Some "") (Some []) (Some ["*"]) "" None (Some 20) None).

Definition tampered : (Z + Answer DirBody) * ProxyDB :=
  dispatch None (fun _ => Err "no entropy") None "smtp" "graph" calm "10.0.0.1" "curl" admin_session tampering (mkProxyDB declared_db empty_AdminDB ∅ ∅).

Lemma api_respects_declarations_witness :
  from_option ans_status 0 (match tampered.1 with inr a => Some a | inl _ => None end) = 409
  /\ is_Some (dc_accounts (sn_rows (snapshot_of declared_db)) !! "a1") /\ bool_decide (("a1", "b1") ∈ sn_links (snapshot_of declared_db)) = true
  /\ respected true (snapshot_of declared_db) (px_store tampered.2).
Proof.
  split; [vm_compute; reflexivity|]. split; [eexists; vm_compute; reflexivity|]. split; [vm_compute; reflexivity|].
  apply (api_respects_declarations None (fun _ => Err "no entropy") None "smtp" "graph" true (snapshot_of declared_db) calm "10.0.0.1" "curl" admin_session
    tampering (mkProxyDB declared_db empty_AdminDB ∅ ∅)).
  - intros n db H. exact H.
  - cbn [px_store]. exact (snapshot_respected true declared_db declared_db_managed).
  - intros _ id. discriminate.
Defined.
End Sample.
