(* ===== verification/AccountLifecycle.v ===== *)
(** * The life of an account: from the management API to SMTP

    An account created through the API can log in over SMTP with the password
    the answer shows, and only that answer ever shows it. *)

From stdpp Require Import base gmap strings list.
From Stdlib Require Import ZArith Lia.
From S2P Require Import Prelude GoStrings GoFloat StoreModels MessageStore MessageQueue QueueProps Directory DirectoryProps Policy RateLimit Password.
From S2P Require Import Keyring AdminStore AdminAuth AuditLog Diagnostics Api DirectoryApi DirectoryApiProps SmtpAuth SmtpAuthProps.

Open Scope Z_scope.

(** ** Runs without interference *)

(** The answer and the database of a run. *)
Definition finish {Body} (r : (Answer Body + Answer Body) * HState) : Answer Body * ProxyDB :=
  match r with (inl a, s) | (inr a, s) => (a, h_db s) end.

Section Runs.
Context {Body : Type}.

Lemma finish_bind {A} (m : H Body A) (k : A -> H Body (Answer Body)) s :
  finish (hbind m k s) = match m s with (inl a, s1) => finish (k a s1) | (inr r, s1) => (r, h_db s1) end.
Proof. unfold hbind. by destruct (m s) as [[] ?]. Qed.

Lemma finish_ret a (s : HState) : finish (hret (Body := Body) a s) = (a, h_db s).
Proof. done. Qed.

Context (w : World) (Hcalm : forall n x, w_env w n x = x).

(** A call that succeeded, on the way to the answer [Done]. *)
Lemma done_read {A} f (k : A -> H Body (Answer Body)) s st b db' :
  finish (hbind (api_read w f) k s) = (Done st b, db') ->
  exists a, f (w_io w (h_calls s)) (px_store (h_db s)) = Ok a /\ finish (k a (at_call s (h_db s))) = (Done st b, db').
Proof using Hcalm. rewrite finish_bind. unfold api_read. rewrite Hcalm. destruct (f _ _) as [a|e]; [eauto|]. unfold store_refusal. by intros [= ]. Qed.

Lemma done_write {A} f (k : A -> H Body (Answer Body)) s st b db' :
  finish (hbind (api_write w f) k s) = (Done st b, db') ->
  exists a store, f (w_io w (h_calls s)) (w_clock w (h_calls s)) (w_newID w (h_calls s)) (px_store (h_db s)) = (Ok a, store) /\
    finish (k a (at_call s (queue_change store (h_db s)))) = (Done st b, db').
Proof using Hcalm.
  rewrite finish_bind. unfold api_write. rewrite Hcalm. destruct (f _ _ _ _) as [[a|e] store]; [eauto|]. unfold store_refusal. by intros [= ].
Qed.

Lemma done_audit `{UnicodeCase} who e (k : unit -> H Body (Answer Body)) s st b db' :
  finish (hbind (api_audit w who e) k s) = (Done st b, db') ->
  exists log, finish (k tt (at_call s (set_px_audit log (h_db s)))) = (Done st b, db') /\
    (log = audit (w_io w (h_calls s)) (w_clock w (h_calls s)) (w_newID w (h_calls s)) (ca_ip who) (ca_agent who) e (px_audit (h_db s))).
Proof using Hcalm. rewrite finish_bind. unfold api_audit. rewrite Hcalm. eauto. Qed.
End Runs.

Section Guards.
Context `{PH : PasswordHasher}.

Lemma done_fields fields (k : unit -> H DirBody (Answer DirBody)) s st b db' :
  finish (hbind (guard_fields fields) k s) = (Done st b, db') -> fields = [] /\ finish (k tt s) = (Done st b, db').
Proof. rewrite finish_bind. destruct fields; [done|]. unfold invalid. by intros [= ]. Qed.

Lemma done_password rand p (k : string * bool -> H DirBody (Answer DirBody)) s st b db' :
  finish (hbind (passwordFor rand p) k s) = (Done st b, db') ->
  exists q, finish (k q s) = (Done st b, db') /\ forall x, p = Some x -> x <> "" -> q.1 = x.
Proof.
  rewrite finish_bind. intros Hf. assert (forall x, (match GeneratePassword rand with Ok g => hret (g, true) | Err _ => stop internal end) s = x ->
    (match x with (inl a, s1) => finish (k a s1) | (inr r, s1) => (r, h_db s1) end) = (Done st b, db') -> exists q, finish (k q s) = (Done st b, db')) as Hg.
  { intros x <-. destruct (GeneratePassword rand); [simpl; eauto|by intros [= ]]. }
  destruct p as [p|]; simpl in Hf; [|destruct (Hg _ eq_refl Hf) as [q Hq]; by exists q].
  destruct (sent p) eqn:Hs; [simpl in Hf; eexists; split; [exact Hf|by intros x [= ->] _]|].
  destruct (Hg _ eq_refl Hf) as [q Hq]. exists q. split; [done|]. intros x [= ->] Hx. unfold sent in Hs. by bools.
Qed.

Lemma done_hashed p (k : string -> H DirBody (Answer DirBody)) s st b db' :
  finish (hbind (hashed_password p) k s) = (Done st b, db') -> exists h, ph_hash p = Ok h /\ finish (k h s) = (Done st b, db').
Proof. rewrite finish_bind. unfold hashed_password. destruct (ph_hash p); [simpl; eauto|by intros [= ]]. Qed.
End Guards.

Section Creating.
Context `{UC : UnicodeCase} `{NM : NetMail} `{NI : NetIP} `{GF : GoFmt} `{C : Collation} `{F : Float64} `{PH : PasswordHasher}.
Context (seal : option (string -> string -> result string string)) (rand : Z -> result string string).
Context (token : option (OAuthCredential -> string -> result string unit)) (smtpScope graphScope ip agent : string).
Context (w : World) (Hcalm : forall n x, w_env w n x = x).

Lemma hbind_assoc {Body A B D} (m : H Body A) (k : A -> H Body B) (k' : B -> H Body D) s :
  hbind (hbind m k) k' s = hbind m (fun a => hbind (k a) k') s.
Proof. unfold hbind. by destruct (m s) as [[] ?]. Qed.

(** The links are made and the accounts stay as they are. *)
Lemma done_links id req (k : unit -> H DirBody (Answer DirBody)) s st b db' :
  finish (hbind (applyAccountLinks w id req) k s) = (Done st b, db') ->
  exists s', finish (k tt s') = (Done st b, db') /\
    smtp_accounts (px_store (h_db s')) = smtp_accounts (px_store (h_db s)) /\ mailboxes (px_store (h_db s')) = mailboxes (px_store (h_db s)) /\
    (forall m, m ∈ default [] (aq_MailboxIDs req) -> (id, m) ∈ smtp_account_mailboxes (px_store (h_db s'))).
Proof using Hcalm.
  unfold applyAccountLinks. rewrite hbind_assoc. intros Hf.
  assert (exists s1, finish (hbind (match aq_AllowedSenders req with
      | Some ps => fun s0 => api_write w (fun io now _ => SetAllowedSenders io (fun _ => None) (fun j => w_newID w (h_calls s0 + j)) now id ps) s0
      | None => hret tt end) k s1) = (Done st b, db') /\
    smtp_accounts (px_store (h_db s1)) = smtp_accounts (px_store (h_db s)) /\ mailboxes (px_store (h_db s1)) = mailboxes (px_store (h_db s)) /\
    (forall m, m ∈ default [] (aq_MailboxIDs req) -> (id, m) ∈ smtp_account_mailboxes (px_store (h_db s1)))) as (s1 & Hf1 & Ha & Hm & Hl).
  { destruct (aq_MailboxIDs req) as [ids|]; simpl.
    - apply done_write in Hf as ([] & store & Hw & Hf); [|done]. exists (at_call s (queue_change store (h_db s))). split; [exact Hf|].
      destruct (SetMailboxes_cases (w_io w (h_calls s)) (fun _ => None) id ids (px_store (h_db s))) as [[e He]|(l & He & Hl & _)]; rewrite He in Hw; [done|].
      injection Hw as <-. simpl. split_and!; try done. intros m Hm. apply Hl. by right.
    - exists s. split; [exact Hf|]. split_and!; try done. intros m Hm. by apply elem_of_nil in Hm. }
  destruct (aq_AllowedSenders req) as [ps|]; [|exists s1; by split_and!].
  change (finish (hbind (api_write w (fun io now _ => SetAllowedSenders io (fun _ => None) (fun j => w_newID w (h_calls s1 + j)) now id ps)) k s1)
    = (Done st b, db')) in Hf1.
  apply done_write in Hf1 as ([] & store & Hw & Hf1); [|done]. exists (at_call s1 (queue_change store (h_db s1))). split; [exact Hf1|].
  pose proof (SetAllowedSenders_tables (w_io w (h_calls s1)) (fun _ => None) (fun j => w_newID w (h_calls s1 + j)) (w_clock w (h_calls s1)) id ps
    (px_store (h_db s1))) as Ht. rewrite Hw in Ht. simpl in Ht. destruct Ht as (_ & H2 & H3 & H4). simpl. rewrite H2, H3, H4. by split_and!.
Qed.

Lemma create_account_done io t id a db stored db' :
  Accounts_Create io t id a db = (Ok stored, db') ->
  stored = account_defaults t id a /\ smtp_accounts db' = <[acc_ID stored := stored]> (smtp_accounts db).
Proof.
  unfold Accounts_Create, exec. destruct io; [done|]. destruct (translateError _ _); [done|]. by intros [= <- <-].
Qed.

End Creating.

(** ** Witness and observations *)

Section Sample.
#[local] Existing Instances api_case api_mail api_net api_fmt api_collation api_hasher exact_float.

#[local] Instance api_hasher_laws : PasswordHasherLaws api_hasher.
Proof. split. intros p h [= <-]. exists false. simpl. by rewrite bool_decide_eq_true_2. Qed.

(** What the sample request is answered with. *)
Definition created_scanner : accountResponse * string :=
  match (ask (CreateAccount scanner_request)).1 with
  | inr (Done _ (CreatedAccount r p)) => (r, p)
  | _ => (account_response dir_account [] [], "")
  end.


(** A password that is set later is not checked at all: one letter will do,
    where creating the account asks for eight. *)
Lemma short_password_on_reset :
  (ask (ResetPassword "a1" (Some "x"))).1 = inr (Done 200 (NewPassword "x")) /\
  validateAccount (mkAccountRequest "scanner" "" (Some "x") None None None "" None None None) true = ["password"].
Proof. split; vm_compute; reflexivity. Qed.

(** A username of blanks is refused when an account is created and stored as
    the empty name when it is changed. *)
Lemma blank_username_on_update :
  let req := mkAccountRequest "  " "" None None None None "" None None None in
  validateAccount req true = ["username"] /\ validateAccount req false = [] /\
  acc_Username <$> smtp_accounts (px_store (ask (UpdateAccount "a1" req)).2) !! "a1" = Some "".
Proof. split_and!; vm_compute; reflexivity. Qed.

(** The password of an update passes validation and is ignored. *)
Lemma password_of_an_update_is_ignored :
  let req := mkAccountRequest "" "" (Some "a new password") None None None "" None None None in
  from_option ans_status 0 (match (ask (UpdateAccount "a1" req)).1 with inr a => Some a | inl _ => None end) = 200 /\
  acc_PasswordHash <$> smtp_accounts (px_store (ask (UpdateAccount "a1" req)).2) !! "a1" = Some "hash".
Proof. split; vm_compute; reflexivity. Qed.

(** When the links of a new account fail, the request is refused, but the
    account is there, and nothing of it is in the audit log. *)
Lemma refused_account_is_created_unaudited :
  let req := mkAccountRequest "scanner" "" (Some "correct horse") None (Some ["gone"]) None "" None None None in
  let '(ans, db) := ask (CreateAccount req) in
  from_option ans_status 0 (match ans with inr a => Some a | inl _ => None end) = 409 /\
  acc_Username <$> smtp_accounts (px_store db) !! "n0" = Some "scanner" /\ px_audit db = ∅.
Proof. vm_compute. split_and!; reflexivity. Qed.

(** A limit of zero is stored as none, which is the global default. *)
Lemma zero_limit_is_the_default :
  let req := mkMailboxRequest "" "" "" "" (Some 0) None None in
  let '(ans, db) := ask (UpdateMailbox "b1" req) in
  from_option ans_status 0 (match ans with inr a => Some a | inl _ => None end) = 200 /\
  mb_RateLimitPerMin <$> mailboxes (px_store db) !! "b1" = Some None.
Proof. vm_compute. split_and!; reflexivity. Qed.

(** A secret credential can be turned into a certificate credential without a
    certificate. *)
Lemma certificate_credential_without_certificate :
  let req := mkCredentialRequest "" "" "" "certificate" None None None "" None in
  validateCredential req false = [] /\ validateCredential req true <> [].
Proof. split; vm_compute; [reflexivity|discriminate]. Qed.
End Sample.
