(* ===== verification/ApiSecrecy.v ===== *)
(** * What the management API shows of secrets

    The answers of the requests that look at the directory are a function of
    the database without its secrets and without the bodies of messages: a
    relational logic for handlers, and non-interference. *)

From stdpp Require Import base gmap strings list sorting.
From Stdlib Require Import ZArith Lia.
From S2P Require Import Prelude GoStrings GoFloat StoreModels MessageStore Directory Policy Password.
From S2P Require Import Keyring AdminStore AdminAuth AuditLog Diagnostics Api DirectoryApi DirectoryApiProps AccountLifecycle.

Open Scope Z_scope.

(** ** The database without its secrets *)

(** Whether there is one is all that is left of a secret. *)
Definition masked (s : string) : string := if sent s then "*" else "".

Definition mask_credential (c : OAuthCredential) : OAuthCredential :=
  mkOAuthCredential (cred_ID c) (cred_Name c) (cred_TenantID c) (cred_ClientID c) (cred_AuthType c) (masked (cred_ClientSecretEnc c))
    "" (masked (cred_CertificateKeyEnc c)) (cred_CertificateThumbprint c) (cred_AuthorityHost c) (cred_ExpiresAt c) (cred_ManagedBy c)
    (cred_CreatedAt c) (cred_UpdatedAt c).

Definition mask_account (a : SMTPAccount) : SMTPAccount := set_acc_PasswordHash "" a.

Definition mask_store (db : DB) : DB :=
  mkDB (mask_credential <$> oauth_credentials db) (mailboxes db) (mask_account <$> smtp_accounts db) (smtp_account_mailboxes db)
    (allowed_senders db) (messages db) ∅.

Definition mask_px (db : ProxyDB) : ProxyDB := mkProxyDB (mask_store (px_store db)) (px_admin db) (px_audit db) (px_requests db).

Section Rows.
Context `{C : Collation} {R : Type} (f : R -> R) (p : R -> bool) (column : R -> string).
Context (Hp : forall r, p (f r) = p r) (Hc : forall r, column (f r) = column r).

Lemma list_rows_fmap t : list_rows p column (f <$> t) = f <$> list_rows p column t.
Proof using Hp Hc.
  unfold list_rows. rewrite (merge_sort_fmap f (by_column column) (by_column column)) by (intros x y; unfold by_column; by rewrite !Hc).
  f_equal. unfold rows_where. rewrite map_filter_fmap, map_to_list_fmap, <-!list_fmap_compose.
  do 2 f_equal. apply map_filter_ext. intros k r _. simpl. by rewrite Hp.
Qed.

Lemma list_rows_ext (q1 q2 : R -> bool) t : (forall r, q1 r = q2 r) -> list_rows q1 column t = list_rows q2 column t.
Proof using. clear. intros Hpq. unfold list_rows, rows_where. do 3 f_equal. apply map_filter_ext. intros k r _. simpl. by rewrite Hpq. Qed.
End Rows.

(** ** Looking at a secret or at its mask *)

Lemma sent_masked s : sent (masked s) = sent s.
Proof. unfold masked. by destruct (sent s) eqn:E. Qed.

Lemma response_of_masked_credential `{Float64} now c n : toCredentialResponse now (mask_credential c) n = toCredentialResponse now c n.
Proof. unfold toCredentialResponse. simpl. by rewrite !sent_masked. Qed.

Lemma credential_rows_masked `{Collation} db :
  list_rows (fun _ => true) cred_Name (oauth_credentials (mask_store db)) = mask_credential <$> list_rows (fun _ => true) cred_Name (oauth_credentials db).
Proof. by apply list_rows_fmap. Qed.

Lemma account_rows_masked `{Collation} db :
  list_rows (fun _ => true) acc_Username (smtp_accounts (mask_store db)) = mask_account <$> list_rows (fun _ => true) acc_Username (smtp_accounts db).
Proof. by apply list_rows_fmap. Qed.

Lemma may_send_as_masked accountID db m : may_send_as accountID (mask_store db) m = may_send_as accountID db m.
Proof. unfold may_send_as. simpl. rewrite lookup_fmap. by destruct (smtp_accounts db !! accountID). Qed.

(** ** Two runs side by side

    A relational logic: two runs of a handler on databases that agree but for
    their secrets make the same calls, end together, and in related values or
    in the same refusal. *)

Section Runs.
Context (w : World).

(** The requests in between do not turn secrets into anything else. *)
Definition secrets_stay : Prop :=
  forall n db1 db2, mask_px db1 = mask_px db2 -> mask_px (w_env w n db1) = mask_px (w_env w n db2).

Definition alike (s1 s2 : HState) : Prop := h_calls s1 = h_calls s2 /\ mask_px (h_db s1) = mask_px (h_db s2).

Definition paired {Body A} (rel : A -> A -> Prop) (m1 m2 : H Body A) : Prop :=
  forall s1 s2, alike s1 s2 ->
    alike (m1 s1).2 (m2 s2).2 /\
    match (m1 s1).1, (m2 s2).1 with
    | inl a1, inl a2 => rel a1 a2
    | inr r1, inr r2 => r1 = r2
    | _, _ => False
    end.

(** A query whose results are related on databases that agree but for secrets. *)
Definition discreet {A} (rel : A -> A -> Prop) (f : option string -> DB -> result StoreError A) : Prop :=
  forall io db1 db2, mask_store db1 = mask_store db2 ->
    match f io db1, f io db2 with
    | Ok a1, Ok a2 => rel a1 a2
    | Err e1, Err e2 => e1 = e2
    | _, _ => False
    end.

Context {Body : Type} (Henv : secrets_stay).

Lemma paired_ret {A} (rel : A -> A -> Prop) a1 a2 : rel a1 a2 -> paired (Body:=Body) rel (hret a1) (hret a2).
Proof. by intros ? s1 s2. Qed.

Lemma paired_bind {A B} (rel : A -> A -> Prop) (rel' : B -> B -> Prop) (m1 m2 : H Body A) k1 k2 :
  paired rel m1 m2 -> (forall a1 a2, rel a1 a2 -> paired rel' (k1 a1) (k2 a2)) -> paired rel' (hbind m1 k1) (hbind m2 k2).
Proof.
  intros Hm Hk s1 s2 Hs. specialize (Hm s1 s2 Hs) as [Hs' Hr]. unfold hbind.
  destruct (m1 s1) as [[a1|r1] s1'], (m2 s2) as [[a2|r2] s2']; simpl in *; try done. by apply Hk.
Qed.

Lemma alike_env s1 s2 : alike s1 s2 -> mask_px (w_env w (h_calls s1) (h_db s1)) = mask_px (w_env w (h_calls s2) (h_db s2)).
Proof using Henv. intros [-> Hdb]. by apply Henv. Qed.

Lemma paired_read {A} (rel : A -> A -> Prop) f : discreet rel f -> paired (Body:=Body) rel (api_read w f) (api_read w f).
Proof using Henv.
  intros Hf s1 s2 Hs. pose proof (alike_env _ _ Hs) as Hdb. destruct Hs as [Hn _]. unfold api_read. simpl. split; [by split; simpl; [f_equal|]|].
  rewrite Hn in *. specialize (Hf (w_io w (h_calls s2)) _ _ (f_equal px_store Hdb)). simpl in Hf.
  repeat case_match; simplify_eq/=; try done.
Qed.

Lemma paired_try {A} (rel : A -> A -> Prop) f : discreet rel f -> paired (Body:=Body) (option_Forall2 rel) (api_try w f) (api_try w f).
Proof using Henv.
  intros Hf s1 s2 Hs. pose proof (alike_env _ _ Hs) as Hdb. destruct Hs as [Hn _]. unfold api_try. simpl. split; [by split; simpl; [f_equal|]|].
  rewrite Hn in *. specialize (Hf (w_io w (h_calls s2)) _ _ (f_equal px_store Hdb)). simpl in Hf.
  repeat case_match; simplify_eq/=; try done; by constructor.
Qed.

Lemma paired_now : paired (Body:=Body) eq (api_now w) (api_now w).
Proof. intros s1 s2 [Hn Hdb]. unfold api_now, alike. simpl. by rewrite Hn. Qed.

Lemma paired_serve m1 m2 db1 db2 : paired eq m1 m2 -> mask_px db1 = mask_px db2 -> (serve (Body:=Body) m1 db1).1 = (serve m2 db2).1.
Proof.
  intros Hm Hdb. destruct (Hm (mkHState 0 db1 []) (mkHState 0 db2 [])) as [_ Hr]; [done|]. unfold serve.
  destruct (m1 _) as [[a1|r1] s1], (m2 _) as [[a2|r2] s2]; simpl in *; by simplify_eq.
Qed.
End Runs.

(** ** The queries of the handlers *)

Definition same_credential (c1 c2 : OAuthCredential) : Prop := mask_credential c1 = mask_credential c2.
Definition same_account (a1 a2 : SMTPAccount) : Prop := mask_account a1 = mask_account a2.

Lemma discreet_listing {A} (rel : A -> A -> Prop) what (rows : DB -> list A) :
  (forall db1 db2, mask_store db1 = mask_store db2 -> Forall2 rel (rows db1) (rows db2)) ->
  discreet (Forall2 rel) (fun io db => listing io what (rows db)).
Proof. intros Hr [e|] db1 db2 Hdb; simpl; [done|]. by apply Hr. Qed.

Lemma fmap_eq_Forall2 {A B} (f : A -> B) l1 l2 : f <$> l1 = f <$> l2 -> Forall2 (fun a b => f a = f b) l1 l2.
Proof. revert l2. induction l1 as [|a l1 IH]; intros [|b l2]; simpl; intros Hl; simplify_eq; constructor; auto. Qed.

Section Queries.
Context `{C : Collation}.

Lemma discreet_credentials : discreet (Forall2 same_credential) Credentials_List.
Proof.
  apply discreet_listing. intros db1 db2 Hdb. apply fmap_eq_Forall2.
  rewrite <-!credential_rows_masked. by rewrite Hdb.
Qed.

Lemma discreet_accounts : discreet (Forall2 same_account) Accounts_List.
Proof.
  apply discreet_listing. intros db1 db2 Hdb. apply fmap_eq_Forall2.
  rewrite <-!account_rows_masked. by rewrite Hdb.
Qed.

Lemma mask_store_mailboxes db1 db2 : mask_store db1 = mask_store db2 -> mailboxes db1 = mailboxes db2.
Proof. by inversion 1. Qed.

Lemma mask_store_senders db1 db2 : mask_store db1 = mask_store db2 -> allowed_senders db1 = allowed_senders db2.
Proof. by inversion 1. Qed.

Lemma discreet_mailboxes : discreet eq Mailboxes_List.
Proof. intros io db1 db2 Hdb%mask_store_mailboxes. unfold Mailboxes_List. rewrite Hdb. by destruct io. Qed.

Lemma discreet_mailbox id : discreet eq (fun io => Mailboxes_Get io id).
Proof. intros io db1 db2 Hdb%mask_store_mailboxes. unfold Mailboxes_Get. rewrite Hdb. by repeat case_match. Qed.

Lemma discreet_senders id : discreet eq (fun io => AllowedSenders io id).
Proof. intros io db1 db2 Hdb%mask_store_senders. unfold AllowedSenders. rewrite Hdb. by destruct io. Qed.

Lemma discreet_account_mailboxes id : discreet eq (fun io => ListForAccount io id).
Proof.
  intros io db1 db2 Hdb. unfold ListForAccount. rewrite (mask_store_mailboxes _ _ Hdb).
  rewrite (list_rows_ext mb_Address (may_send_as id db1) (may_send_as id db2)); [by destruct io|]. intros m.
  by rewrite <-(may_send_as_masked id db1), <-(may_send_as_masked id db2), Hdb.
Qed.

Lemma masked_lookup {R} (f : R -> R) (t1 t2 : gmap string R) id : f <$> t1 = f <$> t2 -> option_Forall2 (fun a b => f a = f b) (t1 !! id) (t2 !! id).
Proof.
  intros Ht%(f_equal (.!! id)). rewrite !lookup_fmap in Ht. destruct (t1 !! id), (t2 !! id); simplify_eq/=; by constructor.
Qed.

Lemma discreet_credential id : discreet same_credential (fun io => Credentials_Get io id).
Proof.
  intros io db1 db2 Hdb%(f_equal oauth_credentials). unfold Credentials_Get. destruct io; [done|].
  by destruct (masked_lookup mask_credential _ _ id Hdb).
Qed.

Lemma discreet_account id : discreet same_account (fun io => Accounts_Get io id).
Proof.
  intros io db1 db2 Hdb%(f_equal smtp_accounts). unfold Accounts_Get. destruct io; [done|].
  by destruct (masked_lookup mask_account _ _ id Hdb).
Qed.
End Queries.
Create HintDb discreet.
#[export] Hint Resolve discreet_credentials discreet_accounts discreet_mailboxes discreet_mailbox discreet_senders discreet_account_mailboxes
  discreet_credential discreet_account : discreet.

(** ** The handlers that look *)

Section Handlers.
Context `{Cl : Collation} `{FF : Float64} (w : World) (Henv : secrets_stay w).

Ltac look := eapply paired_bind; [by eauto using paired_read, paired_try, paired_now with discreet|]; intros ?? ?.

Lemma responses_alike now n c1 c2 : same_credential c1 c2 -> toCredentialResponse now c1 n = toCredentialResponse now c2 n.
Proof. intros Hc. rewrite <-(response_of_masked_credential now c1), <-(response_of_masked_credential now c2). by rewrite Hc. Qed.

Lemma same_credential_keys c1 c2 : same_credential c1 c2 -> cred_ID c1 = cred_ID c2 /\ cred_Name c1 = cred_Name c2.
Proof. intros Hc. split; [apply (f_equal cred_ID Hc)|apply (f_equal cred_Name Hc)]. Qed.

Lemma same_names id l1 l2 :
  Forall2 same_credential l1 l2 ->
  match List.find (fun c => bool_decide (cred_ID c = id)) l1 with Some c => cred_Name c | None => "" end =
  match List.find (fun c => bool_decide (cred_ID c = id)) l2 with Some c => cred_Name c | None => "" end.
Proof. induction 1 as [|c1 c2 l1 l2 [Hi Hn]%same_credential_keys Hl IH]; simpl; [done|]. rewrite Hi. by case_bool_decide. Qed.

Lemma list_credentials_alike : paired eq (handleListCredentials w) (handleListCredentials w).
Proof using Henv.
  do 3 look. subst. apply paired_ret. do 2 f_equal; [|f_equal; by eapply Forall2_length].
  induction H as [|c1 c2 l1 l2 Hc Hl IH]; simpl; [done|]. f_equal; [|done].
  destruct (same_credential_keys _ _ Hc) as [-> _]. by apply responses_alike.
Qed.

Lemma count_alike id : paired eq (countMailboxes w id) (countMailboxes w id).
Proof using Henv. look. apply paired_ret. by destruct H; subst. Qed.

Lemma get_credential_alike id : paired eq (handleGetCredential w id) (handleGetCredential w id).
Proof using Henv.
  look. rename H into Hc. destruct (same_credential_keys _ _ Hc) as [-> _].
  eapply paired_bind; [apply count_alike|]. intros n ? <-. look. subst. apply paired_ret. do 2 f_equal. by apply responses_alike.
Qed.

Lemma name_alike id : paired eq (credentialName w id) (credentialName w id).
Proof using Henv. look. apply paired_ret. destruct H; [|done]. by apply same_names. Qed.

Lemma list_mailboxes_alike : paired eq (handleListMailboxes w) (handleListMailboxes w).
Proof using Henv.
  do 2 look. subst. apply paired_ret. do 2 f_equal. apply List.map_ext. intros m. f_equal.
  apply same_names. destruct H0; simpl; [done|constructor].
Qed.

Lemma get_mailbox_alike id : paired eq (handleGetMailbox w id) (handleGetMailbox w id).
Proof using Henv. look. subst. eapply paired_bind; [apply name_alike|]. intros n ? <-. by apply paired_ret. Qed.

Lemma account_alike a1 a2 : same_account a1 a2 -> paired eq (toAccountResponse w a1) (toAccountResponse w a2).
Proof using Henv.
  intros Ha. unfold toAccountResponse. rewrite (f_equal acc_ID Ha : acc_ID a1 = acc_ID a2). do 2 look. subst. apply paired_ret.
  destruct a1, a2. unfold same_account, mask_account in Ha. simpl in Ha. by simplify_eq.
Qed.

Lemma accounts_alike l1 l2 : Forall2 same_account l1 l2 -> paired eq (account_responses w l1) (account_responses w l2).
Proof using Henv.
  induction 1 as [|a1 a2 l1 l2 Ha Hl IH]; simpl; [by apply paired_ret|].
  eapply paired_bind; [by apply account_alike|]. intros r ? <-. eapply paired_bind; [apply IH|]. intros rs ? <-. by apply paired_ret.
Qed.

Lemma list_accounts_alike : paired eq (handleListAccounts w) (handleListAccounts w).
Proof using Henv. look. eapply paired_bind; [by apply accounts_alike|]. intros items ? <-. by apply paired_ret. Qed.

Lemma get_account_alike id : paired eq (handleGetAccount w id) (handleGetAccount w id).
Proof using Henv. look. eapply paired_bind; [by apply account_alike|]. intros r ? <-. by apply paired_ret. Qed.
End Handlers.

Section Secrecy.
Context `{U : UnicodeCase} `{N : NetMail} `{NI : NetIP} `{G : GoFmt} `{Cl : Collation} `{FF : Float64} `{Ha : PasswordHasher}.
Context (seal : option (string -> string -> result string string)) (rand : Z -> result string string).
Context (token : option (OAuthCredential -> string -> result string unit)) (smtpScope graphScope ip agent : string).

(** C29: no request that looks at the directory reveals a secret. On two
    databases that differ only in client secrets, certificates, their keys,
    password hashes and the bodies of messages, whether there is a secret at all
    apart, every such request of every session gets the same answer, to the last
    field, whatever calls fail and whatever other requests do in between. *)
Theorem views_reveal_no_secret w a r db1 db2 :
  secrets_stay w -> permission_of r = PermViewConfig -> mask_px db1 = mask_px db2 ->
  (dispatch seal rand token smtpScope graphScope w ip agent a r db1).1 =
  (dispatch seal rand token smtpScope graphScope w ip agent a r db2).1.
Proof.
  intros Hw Hp Hdb. unfold dispatch. rewrite Hp. destruct (require _ a) as [st|auth]; [done|].
  set (m := handle _ _ _ _ _ _ _ r). assert (paired eq m m) as Hm.
  { subst m. destruct r; try discriminate; simpl;
      eauto using list_credentials_alike, get_credential_alike, list_mailboxes_alike, get_mailbox_alike, list_accounts_alike, get_account_alike. }
  pose proof (paired_serve m m db1 db2 Hm Hdb) as Hs.
  destruct (serve m db1), (serve m db2). simpl in *. by subst.
Qed.
End Secrecy.

(** ** Witness *)

Section Sample.
#[local] Existing Instances api_case api_mail api_net api_fmt api_collation api_hasher exact_float.

(** A directory with one credential and its sealed secret. *)
Definition with_secret (s : string) : ProxyDB :=
  let c := mkOAuthCredential "c1" "Contoso" "t" "i" AuthTypeSecret s "" "" "" "" None ManagedByUI 0 0 in
  set_px_store (mkDB {[ "c1" := c ]} ∅ ∅ ∅ ∅ ∅ ∅) api_db.

Definition ask_about (s : string) : (Z + Answer DirBody) * ProxyDB :=
  dispatch None (fun _ => Err "no entropy") None "smtp" "graph" calm "10.0.0.1" "curl" admin_session (GetCredential "c1") (with_secret s).

Lemma views_reveal_no_secret_witness :
  with_secret "k1:one" <> with_secret "k1:other" /\ (ask_about "k1:one").1 = (ask_about "k1:other").1 /\ (ask_about "k1:one").1 <> (ask_about "").1.
Proof.
  split; [|split].
  - intros H. apply (f_equal (fun d => cred_ClientSecretEnc <$> oauth_credentials (px_store d) !! "c1")) in H. vm_compute in H. discriminate.
  - apply (views_reveal_no_secret None (fun _ => Err "no entropy") None "smtp" "graph" "10.0.0.1" "curl" calm admin_session (GetCredential "c1")
      (with_secret "k1:one") (with_secret "k1:other")).
    + intros n db1 db2 H. exact H.
    + reflexivity.
    + vm_compute. reflexivity.
  - vm_compute. discriminate.
Defined.
End Sample.
