(* ===== verification/MessageList.v ===== *)
(** * Listing the queue

    The filters, pages and counts of [internal/store/messages.go] and the text
    form of string lists of [jsonlist.go], with what SQL's LIKE means to the two
    engines; what a search finds, and that the pages show everything once. *)

From stdpp Require Import base gmap strings list sorting.
From Stdlib Require Import ZArith Lia Ascii.
From S2P Require Import Prelude GoStrings GoStringsFacts StoreModels MessageStore Directory AuditLog Sql.

Open Scope Z_scope.

(** ** LIKE

    [%] is any text, [_] any one character. SQLite folds the case of ASCII
    letters; PostgreSQL takes a backslash as an escape. *)

Definition PERCENT : ascii := "%".
Definition UNDERSCORE : ascii := "_".
Definition BACKSLASH : ascii := "\".

(** A letter as the engine compares it. *)
Definition like_fold (d : Dialect) (c : ascii) : ascii :=
  match d with sqliteDialect => lower_byte c | postgresDialect => c end.

(** What is left behind one character: the continuation bytes of its encoding
    go with it. *)
Fixpoint skip_continuation (s : string) : string :=
  match s with
  | EmptyString => ""
  | String c s' => if (128 <=? code c) && (code c <? 192) then skip_continuation s' else s
  end.

(** Some suffix of the text satisfies [p]. *)
Fixpoint some_suffix (p : string -> bool) (s : string) : bool :=
  p s || match s with EmptyString => false | String _ s' => some_suffix p s' end.

Definition eat (d : Dialect) (c : ascii) (k : string -> bool) (s : string) : bool :=
  match s with
  | EmptyString => false
  | String a s' => bool_decide (like_fold d a = like_fold d c) && k s'
  end.

Fixpoint like (d : Dialect) (pattern : string) : string -> bool :=
  match pattern with
  | EmptyString => fun s => bool_decide (s = "")
  | String c rest =>
      if bool_decide (c = PERCENT) then some_suffix (like d rest)
      else if bool_decide (c = UNDERSCORE) then fun s => match s with EmptyString => false | String _ s' => like d rest (skip_continuation s') end
      else
        match d, rest with
        | postgresDialect, String e rest' => if bool_decide (c = BACKSLASH) then eat d e (like d rest') else eat d c (like d rest)
        | _, _ => eat d c (like d rest)
        end
  end.

(** ** Filters *)

(** [marshalList] *)
Definition marshalList (v : list string) : string := match v with [] => "[]" | _ => json_list (json_string <$> v) end.

Record MessageFilter := mkMessageFilter {
  mf_Status : list string;
  mf_MailboxID : string;
  mf_AccountID : string;
  mf_Search : string;
  mf_Since : Z;
  mf_Until : Z;
  mf_Limit : Z;
  mf_Offset : Z
}.

Definition status_text (s : MessageStatus) : string :=
  match s with
  | StatusQueued => "queued" | StatusSending => "sending" | StatusSent => "sent"
  | StatusDeferred => "deferred" | StatusFailed => "failed" | StatusHeld => "held" | StatusUnset => ""
  end.

(** [mailbox_id = ?], false on NULL. *)
Definition column_is (v : option string) (s : string) : bool := bool_decide (v = Some s).

Definition found (d : Dialect) (search : string) (m : Message) : bool :=
  let like := like d ("%" +:+ search +:+ "%") in
  like (m_EnvelopeFrom m) || like (m_HeaderFrom m) || like (marshalList (m_Recipients m)).

(** The WHERE clause of [build]: a condition per field that is set. *)
Definition MessageFilter_build (d : Dialect) (f : MessageFilter) (m : Message) : bool :=
  (match mf_Status f with [] => true | l => bool_decide (status_text (m_Status m) ∈ l) end)
  && (bool_decide (mf_MailboxID f = "") || column_is (m_MailboxID m) (mf_MailboxID f))
  && (bool_decide (mf_AccountID f = "") || column_is (m_SMTPAccountID m) (mf_AccountID f))
  && (bool_decide (mf_Search f = "") || found d (mf_Search f) m)
  && (IsZero (mf_Since f) || (mf_Since f <=? m_ReceivedAt m))
  && (IsZero (mf_Until f) || (m_ReceivedAt m <=? mf_Until f)).

Section Reading.
Context `{C : Collation} (d : Dialect).

(** [ORDER BY received_at DESC, id DESC] *)
Definition newest_received (a b : Message) : Prop :=
  m_ReceivedAt b < m_ReceivedAt a \/ (m_ReceivedAt a = m_ReceivedAt b /\ collate (m_ID b) (m_ID a)).

#[global] Instance newest_received_dec a b : Decision (newest_received a b).
Proof. unfold newest_received. apply _. Defined.

Definition selected (f : MessageFilter) (db : DB) : list Message :=
  merge_sort newest_received ((map_to_list (rows_where (MessageFilter_build d f) (messages db))).*2).

Definition message_limit (f : MessageFilter) : Z := if (mf_Limit f <=? 0) || (mf_Limit f >? 500) then 100 else mf_Limit f.

(** A negative offset is none, as in SQLite; PostgreSQL refuses it. *)
Definition Messages_List (f : MessageFilter) (io : option string) (db : DB) : result StoreError (list Message) :=
  listing io "store: listing messages: " (take (Z.to_nat (message_limit f)) (drop (Z.to_nat (mf_Offset f)) (selected f db))).

Definition Messages_Count (f : MessageFilter) (io : option string) (db : DB) : result StoreError Z :=
  match io with
  | Some e => Err (ErrDriver ("store: counting messages: " +:+ e))
  | None => Ok (rows_affected (MessageFilter_build d f) (messages db))
  end.

(** *** Pages *)

Definition at_page (limit offset : Z) (f : MessageFilter) : MessageFilter :=
  mkMessageFilter (mf_Status f) (mf_MailboxID f) (mf_AccountID f) (mf_Search f) (mf_Since f) (mf_Until f) limit offset.

Definition message_pages (n : nat) (limit : Z) (f : MessageFilter) (db : DB) : list (result StoreError (list Message)) :=
  (fun k => Messages_List (at_page limit (Z.of_nat k * limit) f) None db) <$> seq 0 n.

Lemma length_selected f db : length (selected f db) = Z.to_nat (rows_affected (MessageFilter_build d f) (messages db)).
Proof.
  unfold selected, rows_affected. rewrite (Permutation_length (merge_sort_Permutation _ _)), length_fmap, Nat2Z.id. apply length_map_to_list.
Qed.

Lemma full_page limit k f db :
  0 < limit <= 500 ->
  Messages_List (at_page limit (Z.of_nat k * limit) f) None db = Ok (take (Z.to_nat limit) (drop (k * Z.to_nat limit) (selected f db))).
Proof.
  intros Hl. unfold Messages_List, message_limit. simpl. rewrite (proj2 (Z.leb_gt limit 0)) by lia.
  rewrite Z.gtb_ltb, (proj2 (Z.ltb_ge 500 limit)) by lia. simpl. do 2 f_equal. f_equal. lia.
Qed.

(** going through the queue page by page shows every message that matches
    the filter exactly once, newest first, and the total is how many there are. *)
Theorem message_pages_cover_queue f limit n db :
  0 < limit <= 500 -> Z.of_nat n * limit >= rows_affected (MessageFilter_build d f) (messages db) ->
  exists pages, message_pages n limit f db = Ok <$> pages /\ concat pages = selected f db /\
    (forall m, m ∈ concat pages <-> MessageFilter_build d f m = true /\ exists id, messages db !! id = Some m) /\
    Messages_Count f None db = Ok (Z.of_nat (length (concat pages))).
Proof.
  intros Hl Hn. exists ((fun k => take (Z.to_nat limit) (drop (k * Z.to_nat limit) (selected f db))) <$> seq 0 n).
  rewrite take_pages. assert (take (n * Z.to_nat limit) (selected f db) = selected f db) as ->.
  { apply take_ge. rewrite length_selected, <-(Nat2Z.id n), <-Z2Nat.inj_mul by lia. lia. }
  split_and!; [| |intros m|].
  - unfold message_pages. rewrite <-list_fmap_compose. apply list_fmap_ext. intros _ k _. by apply full_page.
  - done.
  - unfold selected. rewrite merge_sort_Permutation, list_elem_of_fmap. split.
    + intros ([id m'] & -> & [??]%elem_of_map_to_list%map_lookup_filter_Some). eauto.
    + intros (Hb & id & Hid). exists (id, m). split; [done|]. by apply elem_of_map_to_list, map_lookup_filter_Some.
  - unfold Messages_Count. rewrite length_selected. f_equal. unfold rows_affected. lia.
Qed.
End Reading.

(** ** What a search finds *)

(** A term without a character that is special to LIKE. *)
Definition plain_term (s : string) : bool := negb (ContainsAny s "%_\").

Lemma some_suffix_ext p q s : (forall s, p s = q s) -> some_suffix p s = some_suffix q s.
Proof. intros Hpq. induction s as [|a s IH]; simpl; by rewrite Hpq, ?IH. Qed.

Lemma some_suffix_nil p s : p "" = true -> some_suffix p s = true.
Proof. intros Hp. induction s as [|a s IH]; simpl; [by rewrite Hp|]. rewrite IH. by rewrite orb_true_r. Qed.

(** The rest of a pattern: the term, then anything. *)
Lemma like_prefix d term s : plain_term term = true -> like d (term +:+ "%") s = HasPrefix (string_map (like_fold d) s) (string_map (like_fold d) term).
Proof.
  unfold plain_term. rewrite negb_true_iff. revert s. induction term as [|c term IH]; intros s Hp; simpl.
  - unfold HasPrefix. rewrite (some_suffix_nil _ s) by done. by destruct (string_map _ s).
  - simpl in Hp. apply orb_false_iff in Hp as [Hc Hp]. unfold contains_byte in Hc. simpl in Hc.
    rewrite !orb_false_iff, !bool_decide_eq_false in Hc. destruct Hc as (H1 & H2 & H3 & _).
    rewrite !bool_decide_eq_false_2 by (unfold PERCENT, UNDERSCORE; congruence).
    assert (forall k, match d, (term +:+ "%") with
      | postgresDialect, String e rest' => if bool_decide (c = BACKSLASH) then k e rest' else eat d c (like d (term +:+ "%"))
      | _, _ => eat d c (like d (term +:+ "%")) end = eat d c (like d (term +:+ "%"))) as Hk.
    { intros k. destruct d; [done|]. destruct (term +:+ "%"); [done|]. rewrite bool_decide_eq_false_2; [done|]. unfold BACKSLASH. congruence. }
    rewrite (Hk (fun e rest' => eat d e (like d rest'))). destruct s as [|a s]; [done|]. simpl. rewrite IH by done.
    unfold HasPrefix. simpl. destruct (ascii_dec (like_fold d c) (like_fold d a)) as [->|Hn].
    + by rewrite bool_decide_eq_true_2.
    + by rewrite bool_decide_eq_false_2.
Qed.

Lemma Contains_suffix s sub : Contains s sub = some_suffix (fun t => HasPrefix t sub) s.
Proof.
  unfold Contains. induction s as [|a s IH]; [by destruct sub|]. cbn [Index some_suffix].
  destruct (HasPrefix (String a s) sub); [done|]. rewrite <-IH. by destruct (Index sub s).
Qed.

Lemma some_suffix_map p f s : some_suffix p (string_map f s) = some_suffix (fun t => p (string_map f t)) s.
Proof. induction s as [|a s IH]; simpl; [done|]. by rewrite IH. Qed.

(** The reference: the text contains the term, in the engine's letters. *)
Definition contains_folded (d : Dialect) (text term : string) : bool := Contains (string_map (like_fold d) text) (string_map (like_fold d) term).

Lemma like_contains d term s : plain_term term = true -> like d ("%" +:+ term +:+ "%") s = contains_folded d s term.
Proof.
  intros Hp. unfold contains_folded. rewrite Contains_suffix, some_suffix_map. apply some_suffix_ext. intros t. by apply like_prefix.
Qed.

Lemma prefix_app p s t : HasPrefix s p = true -> HasPrefix (s +:+ t) p = true.
Proof.
  unfold HasPrefix. revert s. induction p as [|c p IH]; intros [|a s]; simpl; try done; [by destruct t|].
  destruct (ascii_dec c a); [apply IH|done].
Qed.

Lemma Contains_app l s r term : Contains s term = true -> Contains (l +:+ s +:+ r) term = true.
Proof.
  intros Hs. rewrite Contains_suffix in *. induction l as [|a l IH]; simpl; [|by rewrite IH, orb_true_r].
  induction s as [|a s IH]; simpl in *.
  - destruct term; [by destruct r|done].
  - apply orb_true_iff in Hs as [Hs|Hs]; apply orb_true_iff; [left|right; by apply IH].
    by apply (prefix_app _ (String a s) r).
Qed.

(** A recipient stands in the column as it is, unless JSON escapes one of its bytes. *)
Lemma recipient_in_column r l : r ∈ l -> escape_json r = r -> exists before after, marshalList l = before +:+ r +:+ after.
Proof.
  intros Hr He. assert (exists before after, Join (json_string <$> l) "," = before +:+ r +:+ after) as (b & a & Hj).
  { induction Hr as [r l|r x l Hr IH].
    - rewrite fmap_cons. unfold json_string at 1. rewrite He. destruct l as [|y l]; simpl.
      + exists (String JQUOTE ""), (String JQUOTE ""). done.
      + exists (String JQUOTE ""), (String JQUOTE "" +:+ "," +:+ Join (json_string <$> y :: l) ",").
        change ((String JQUOTE "" +:+ (r +:+ String JQUOTE "")) +:+ "," +:+ Join (json_string <$> y :: l) "," =
          String JQUOTE "" +:+ r +:+ String JQUOTE "" +:+ "," +:+ Join (json_string <$> y :: l) ","). by rewrite !string_app_assoc.
    - destruct (IH He) as (b & a & IH'). destruct l as [|y l]; [by apply elem_of_nil in Hr|].
      exists (json_string x +:+ "," +:+ b), a. change (Join (json_string <$> x :: y :: l) ",") with (json_string x +:+ "," +:+ Join (json_string <$> y :: l) ",").
      rewrite IH'. by rewrite !string_app_assoc. }
  exists ("[" +:+ b), (a +:+ "]"). destruct l; [by apply elem_of_nil in Hr|]. unfold marshalList, json_list. rewrite Hj. by rewrite !string_app_assoc.
Qed.

(** a search is a search for text. For a term without LIKE's special
    characters the query finds exactly the messages whose envelope sender, From
    header or list of recipients contains it, in upper or lower case alike on
    SQLite; in particular every message with a recipient that contains it. *)
Theorem search_is_substring d term m :
  plain_term term = true ->
  found d term m = contains_folded d (m_EnvelopeFrom m) term || contains_folded d (m_HeaderFrom m) term
                   || contains_folded d (marshalList (m_Recipients m)) term /\
  (forall r, r ∈ m_Recipients m -> escape_json r = r -> contains_folded d r term = true -> found d term m = true).
Proof.
  intros Hp. assert (found d term m = contains_folded d (m_EnvelopeFrom m) term || contains_folded d (m_HeaderFrom m) term
                   || contains_folded d (marshalList (m_Recipients m)) term) as Hf by (unfold found; by rewrite !like_contains).
  split; [done|]. intros r Hr He Hc. rewrite Hf. destruct (recipient_in_column _ _ Hr He) as (b & a & ->).
  unfold contains_folded at 3. rewrite !string_map_app. by rewrite Contains_app, orb_true_r.
Qed.

(** ** Witnesses and observations *)

Definition listed_message (id from : string) (recipients : list string) (received : Z) : Message :=
  mkMessage "smtp" id None (Some "b1") "scanner" "shared@x" from from recipients (Z.of_nat (length recipients)) 10 "" "" StatusQueued 0 received
    None None "" "" false "" "" received None received.

Definition listed_db : DB :=
  mkDB ∅ ∅ ∅ ∅ ∅ {[ "m1" := listed_message "m1" "a@x" ["bob@x"] 5; "m2" := listed_message "m2" "a@x" ["Ann@x"; "eve@x"] 6;
                    "m3" := listed_message "m3" "ann@x" [] 7 ]} ∅.

Definition about_ann : MessageFilter := mkMessageFilter [] "b1" "" "ann@x" 0 0 0 0.

Section Sample.
#[local] Instance list_collation : Collation := {| collate := string_le; collate_dec := string_le_dec |}.

Lemma message_pages_cover_queue_witness :
  m_ID <$> selected sqliteDialect about_ann listed_db = ["m3"; "m2"] /\
  exists pages, message_pages sqliteDialect 2 1 about_ann listed_db = Ok <$> pages /\ concat pages = selected sqliteDialect about_ann listed_db.
Proof.
  split; [vm_compute; reflexivity|].
  destruct (message_pages_cover_queue sqliteDialect about_ann 1 2 listed_db) as (pages & H1 & H2 & _); [lia|vm_compute; discriminate|].
  exists pages. split; [exact H1|exact H2].
Defined.
End Sample.

Lemma search_is_substring_witness : found sqliteDialect "ANN@" (listed_message "m2" "a@x" ["ann@x"; "eve@x"] 6) = true.
Proof.
  apply (proj2 (search_is_substring sqliteDialect "ANN@" (listed_message "m2" "a@x" ["ann@x"; "eve@x"] 6) eq_refl) "ann@x").
  - left.
  - vm_compute; reflexivity.
  - vm_compute; reflexivity.
Defined.

(** The term is put into the pattern as it is: an underscore, common in
    addresses, finds any character, and with PostgreSQL a capital letter in the
    term does not find the same address in small letters. *)
Lemma underscore_finds_any_letter :
  found sqliteDialect "floor_2@x" (listed_message "m1" "floor-2@x" [] 5) = true /\
  found postgresDialect "Floor-2@x" (listed_message "m1" "floor-2@x" [] 5) = false /\
  found sqliteDialect "Floor-2@x" (listed_message "m1" "floor-2@x" [] 5) = true.
Proof. by vm_compute. Qed.
