(* ===== verification/JsonList.v ===== *)
(** * Lists in a column

    [internal/store/jsonlist.go]: recipients and allowed networks are stored as
    a JSON array of strings. Of [encoding/json] the file holds what that takes:
    the encoding of any byte string, ill-formed UTF-8 included, and the decoding
    of any text into a [\[\]string], which accepts white space, [null], every
    escape and surrogate pairs, and fails on everything else. *)

From stdpp Require Import base gmap strings list.
From Stdlib Require Import ZArith Lia Ascii.
From S2P Require Import Prelude GoStrings GoStringsFacts Utf8 StoreModels MessageStore AuditLog MessageList.

Open Scope Z_scope.

(** ** Encoding *)

Definition encode_chunk (ch : chunk) : list ascii :=
  match ch with
  | Rune [x] => bytes (escape_byte x)
  | Rune [a; b; c] => if line_separator a b c then bytes (unicode_escape "20" (code c - 128)) else [a; b; c]
  | Rune enc => enc
  | Bad _ => bytes (String JBACKSLASH "ufffd")
  end.

Definition encode_text (l : list ascii) : list ascii := concat (encode_chunk <$> chunks l).

Definition encode_string (l : list ascii) : list ascii := JQUOTE :: encode_text l ++ [JQUOTE].

Definition COMMA : ascii := ",".
Definition LBRACKET : ascii := "[".
Definition RBRACKET : ascii := "]".

(** The elements after the first one. *)
Fixpoint encode_more (v : list string) : list ascii :=
  match v with
  | [] => [RBRACKET]
  | s :: v => COMMA :: encode_string (bytes s) ++ encode_more v
  end.

(** [marshalList] on any strings. *)
Definition marshal_list (v : list string) : string :=
  match v with
  | [] => "[]"
  | s :: v => unbytes (LBRACKET :: encode_string (bytes s) ++ encode_more v)
  end.

(** ** Decoding *)

Definition hex_value (c : ascii) : option Z :=
  if is_digit c then Some (code c - 48)
  else if byte_in 97 102 c then Some (code c - 87)
  else if byte_in 65 70 c then Some (code c - 55) else None.

Definition hex4 (a b c d : ascii) : option Z :=
  match hex_value a, hex_value b, hex_value c, hex_value d with
  | Some a, Some b, Some c, Some d => Some (((a * 16 + b) * 16 + c) * 16 + d)
  | _, _, _, _ => None
  end.

(** [utf8.EncodeRune] of a code point that is no surrogate. *)
Definition encode_rune (r : Z) : list ascii :=
  if r <? 128 then [chr r]
  else if r <? 2048 then [chr (192 + r / 64); chr (128 + r mod 64)]
  else if r <? 65536 then [chr (224 + r / 4096); chr (128 + r / 64 mod 64); chr (128 + r mod 64)]
  else [chr (240 + r / 262144); chr (128 + r / 4096 mod 64); chr (128 + r / 64 mod 64); chr (128 + r mod 64)].

Definition is_surrogate (r : Z) : bool := (55296 <=? r) && (r <? 57344).

(** [utf16.DecodeRune] *)
Definition surrogate_pair (r1 r2 : Z) : option Z :=
  if (55296 <=? r1) && (r1 <? 56320) && (56320 <=? r2) && (r2 <? 57344)
  then Some ((r1 - 55296) * 1024 + (r2 - 56320) + 65536) else None.

(** The escapes of one letter. *)
Definition simple_escape (e : ascii) : option ascii :=
  if Ascii.eqb e JQUOTE || Ascii.eqb e JBACKSLASH || Ascii.eqb e "/"%char then Some e
  else if Ascii.eqb e "b"%char then Some (chr 8)
  else if Ascii.eqb e "f"%char then Some (chr 12)
  else if Ascii.eqb e "n"%char then Some LF
  else if Ascii.eqb e "r"%char then Some CR
  else if Ascii.eqb e "t"%char then Some TAB
  else None.

Definition emit (out : list ascii) (r : option (list ascii * list ascii)) : option (list ascii * list ascii) :=
  match r with Some (l, rest) => Some (out ++ l, rest) | None => None end.

(** [unquote]: the text up to the closing quote, and what follows it. *)
Fixpoint unquote (l : list ascii) : option (list ascii * list ascii) :=
  match l with
  | [] => None
  | a :: t =>
      if Ascii.eqb a JQUOTE then Some ([], t)
      else if Ascii.eqb a JBACKSLASH then
        match t with
        | e :: t =>
            if Ascii.eqb e "u"%char then
              match t with
              | h1 :: h2 :: h3 :: h4 :: t =>
                  match hex4 h1 h2 h3 h4 with
                  | None => None
                  | Some r =>
                      if negb (is_surrogate r) then emit (encode_rune r) (unquote t)
                      else match t with
                      | b :: u :: g1 :: g2 :: g3 :: g4 :: t' =>
                          if Ascii.eqb b JBACKSLASH && Ascii.eqb u "u"%char
                          then match (match hex4 g1 g2 g3 g4 with Some r2 => surrogate_pair r r2 | None => None end) with
                               | Some r' => emit (encode_rune r') (unquote t')
                               | None => emit RuneError (unquote t)
                               end
                          else emit RuneError (unquote t)
                      | _ => emit RuneError (unquote t)
                      end
                  end
              | _ => None
              end
            else match simple_escape e with
                 | Some c => emit [c] (unquote t)
                 | None => None
                 end
        | [] => None
        end
      else if code a <? 32 then None
      else match rune_width l, t with
           | Some 1%nat, _ => emit [a] (unquote t)
           | Some 2%nat, b :: t => emit [a; b] (unquote t)
           | Some 3%nat, b :: c :: t => emit [a; b; c] (unquote t)
           | Some 4%nat, b :: c :: d :: t => emit [a; b; c; d] (unquote t)
           | _, _ => emit RuneError (unquote t)
           end
  end.

Definition json_space (c : ascii) : bool := Ascii.eqb c SP || Ascii.eqb c TAB || Ascii.eqb c LF || Ascii.eqb c CR.

Definition skip_spaces : list ascii -> list ascii := drop_while json_space.

(** An element of a [\[\]string]: a string, or [null], which leaves "". *)
Definition decode_element (l : list ascii) : option (list ascii * list ascii) :=
  match skip_spaces l with
  | [] => None
  | a :: t =>
      if Ascii.eqb a JQUOTE then unquote t
      else match CutPrefix (unbytes (a :: t)) "null" with Some rest => Some ([], bytes rest) | None => None end
  end.

(** The elements up to the closing bracket; [fuel] bounds their number. *)
Fixpoint decode_elements (fuel : nat) (l : list ascii) : option (list (list ascii) * list ascii) :=
  match fuel with
  | O => None
  | S fuel =>
      match decode_element l with
      | None => None
      | Some (x, rest) =>
          match skip_spaces rest with
          | a :: t =>
              if Ascii.eqb a COMMA then
                match decode_elements fuel t with Some (xs, rest) => Some (x :: xs, rest) | None => None end
              else if Ascii.eqb a RBRACKET then Some ([x], t)
              else None
          | [] => None
          end
      end
  end.

(** [json.Unmarshal] into a [\[\]string]. *)
Definition decode_list (l : list ascii) : option (list (list ascii)) :=
  match skip_spaces l with
  | [] => None
  | a :: t =>
      let value :=
        if Ascii.eqb a LBRACKET then
          match skip_spaces t with
          | b :: t' => if Ascii.eqb b RBRACKET then Some ([], t') else decode_elements (S (length t)) t
          | [] => None
          end
        else match CutPrefix (unbytes (a :: t)) "null" with Some rest => Some ([], bytes rest) | None => None end in
      match value with
      | Some (xs, rest) => match skip_spaces rest with [] => Some xs | _ => None end
      | None => None
      end
  end.

(** Of the error, the quoting of the text and the decoder's own message are
    left out. *)
Definition unmarshalList (s : string) : result string (list string) :=
  if bool_decide (s = "") || bool_decide (s = "[]") then Ok []
  else match decode_list (bytes s) with
       | Some xs => Ok (unbytes <$> xs)
       | None => Err ("store: decoding list " +:+ s)
       end.

(** ** Lemmas *)

Lemma emit_app a b r : emit a (emit b r) = emit (a ++ b) r.
Proof. destruct r as [[l rest]|]; [|done]. simpl. by rewrite app_assoc. Qed.

(** *** The bound on the elements is enough *)

Lemma emit_Some out r x rest : emit out r = Some (x, rest) -> exists y, r = Some (y, rest).
Proof. destruct r as [[y rest']|]; [|done]. intros [= _ <-]. eauto. Qed.

Lemma unquote_shorter n l x rest : (length l <= n)%nat -> unquote l = Some (x, rest) -> (length rest < length l)%nat.
Proof.
  revert l x rest. induction n as [|n IH]; intros [|a t] x rest Hl; simpl in Hl; try done; [lia|]. cbn [unquote].
  assert (forall out t', (length t' <= length t)%nat -> emit out (unquote t') = Some (x, rest) -> (length rest < S (length t))%nat) as Hrec.
  { intros out t' Ht (y & Hy)%emit_Some. apply IH in Hy; lia. }
  destruct (Ascii.eqb a JQUOTE); [intros [= _ <-]; simpl; lia|]. destruct (Ascii.eqb a JBACKSLASH).
  - destruct t as [|e t]; [done|]. destruct (Ascii.eqb e "u"%char).
    + destruct t as [|h1 [|h2 [|h3 [|h4 t]]]]; try done. destruct (hex4 h1 h2 h3 h4) as [r|]; [|done].
      destruct (negb (is_surrogate r)); [apply Hrec; simpl; lia|].
      destruct t as [|b [|u [|g1 [|g2 [|g3 [|g4 t']]]]]]; try (apply Hrec; simpl; lia).
      destruct (_ && _); [|apply Hrec; simpl; lia]. destruct (match hex4 g1 g2 g3 g4 with Some _ => _ | None => _ end); apply Hrec; simpl; lia.
    + destruct (simple_escape e); [|done]. apply Hrec. simpl. lia.
  - destruct (code a <? 32); [done|]. destruct (rune_width (a :: t)) as [[|[|[|[|[|w]]]]]|]; try (apply Hrec; simpl; lia).
    + destruct t as [|b t]; apply Hrec; simpl; lia.
    + destruct t as [|b [|c t]]; apply Hrec; simpl; lia.
    + destruct t as [|b [|c [|d t]]]; apply Hrec; simpl; lia.
Qed.

Lemma skip_spaces_length l : (length (skip_spaces l) <= length l)%nat.
Proof. unfold skip_spaces. induction l as [|a l IH]; [done|]. simpl. destruct (json_space a); simpl in *; lia. Qed.

Lemma length_drop_bytes n s : (String.length (drop_bytes n s) <= String.length s)%nat.
Proof. revert n. induction s as [|c s IH]; intros [|n]; simpl; try lia. specialize (IH n). lia. Qed.

Lemma decode_element_shorter l x rest : decode_element l = Some (x, rest) -> (length rest < length l)%nat.
Proof.
  unfold decode_element. pose proof (skip_spaces_length l) as Hs. destruct (skip_spaces l) as [|a t]; [done|]. simpl in Hs.
  destruct (Ascii.eqb a JQUOTE); [intros Hu%(unquote_shorter (length t)); lia|]. unfold CutPrefix.
  destruct (HasPrefix _ _); [|done]. pose proof (length_drop_bytes 3 (unbytes t)) as H. rewrite length_unbytes in H.
  change (drop_bytes 3 (unbytes t)) with (drop_bytes (String.length "null") (unbytes (a :: t))) in H. revert H.
  generalize (drop_bytes (String.length "null") (unbytes (a :: t))). intros d H [= _ <-]. rewrite length_bytes. lia.
Qed.

Lemma decode_fuel f f' l : (length l < f)%nat -> (length l < f')%nat -> decode_elements f l = decode_elements f' l.
Proof.
  revert f' l. induction f as [|f IH]; intros [|f'] l Hf Hf'; try lia. cbn [decode_elements].
  destruct (decode_element l) as [[x rest]|] eqn:He; [|done]. apply decode_element_shorter in He. pose proof (skip_spaces_length rest) as Hs.
  destruct (skip_spaces rest) as [|a t]; [done|]. simpl in Hs. by rewrite (IH f' t) by lia.
Qed.

(** *** Round trip *)

(** What was escaped reads as the character again. *)
Lemma unquote_ascii x rest : code x < 128 -> unquote (bytes (escape_byte x) ++ rest) = emit [x] (unquote rest).
Proof. intros Hx. destruct x as [[] [] [] [] [] [] [] []]; try (by vm_compute in Hx); reflexivity. Qed.

Lemma unquote_separator a b c rest :
  line_separator a b c = true -> unquote (bytes (unicode_escape "20" (code c - 128)) ++ rest) = emit [a; b; c] (unquote rest).
Proof.
  unfold line_separator. intros H. apply andb_true_iff in H as [[Ha Hb]%andb_true_iff Hc].
  assert (forall x n, (code x =? n) = true -> x = chr n) as Hchr.
  { intros x n Hx. apply Z.eqb_eq in Hx. subst n. unfold code, chr. by rewrite Nat2Z.id, ascii_nat_embedding. }
  apply Hchr in Ha as ->. apply Hchr in Hb as ->. apply orb_true_iff in Hc as [Hc|Hc]; apply Hchr in Hc as ->; reflexivity.
Qed.

Lemma unquote_high a t : 128 <= code a ->
  unquote (a :: t) = match rune_width (a :: t), t with
    | Some 1%nat, _ => emit [a] (unquote t)
    | Some 2%nat, b :: t => emit [a; b] (unquote t)
    | Some 3%nat, b :: c :: t => emit [a; b; c] (unquote t)
    | Some 4%nat, b :: c :: d :: t => emit [a; b; c; d] (unquote t)
    | _, _ => emit RuneError (unquote t)
    end.
Proof.
  intros Ha. assert (forall n, n < 128 -> 0 <= n -> Ascii.eqb a (chr n) = false) as Hne.
  { intros n Hn Hn0. apply Ascii.eqb_neq. intros ->. unfold code, chr in Ha. rewrite nat_ascii_embedding in Ha by lia. lia. }
  cbn [unquote]. unfold JQUOTE, JBACKSLASH. rewrite !Hne by lia. by rewrite (proj2 (Z.ltb_ge _ _)) by lia.
Qed.

Lemma unquote_chunk ch rest : chunk_ok ch -> unquote (encode_chunk ch ++ rest) = emit (reads_as ch) (unquote rest).
Proof.
  destruct ch as [enc|b]; [|reflexivity]. intros Hok. simpl in Hok. pose proof (rune_width_bound _ _ Hok) as [Hb _].
  destruct enc as [|a [|b t]]; [simpl in Hb; lia| |].
  - apply unquote_ascii. unfold chunk_ok, rune_width in Hok. destruct (code a <? 128) eqn:Ha; [|done]. by apply Z.ltb_lt.
  - assert (unquote ((a :: b :: t) ++ rest) = emit (a :: b :: t) (unquote rest)) as Hplain.
    { pose proof (rune_width_high _ _ Hok ltac:(simpl; lia)) as Hh. rewrite take_ge in Hh by done. inversion Hh as [|? ? Ha _]; subst.
      etrans; [apply (unquote_high a ((b :: t) ++ rest) Ha)|]. change (a :: (b :: t) ++ rest) with ((a :: b :: t) ++ rest).
      rewrite (rune_width_app _ _ rest Hok). destruct t as [|c [|d [|e t]]]; try reflexivity. simpl in Hb. lia. }
    destruct t as [|c [|d t]]; [exact Hplain| |exact Hplain]. cbn [encode_chunk].
    destruct (line_separator a b c) eqn:Hs; [by apply unquote_separator|exact Hplain].
Qed.

Lemma unquote_text l rest :
  unquote (encode_text l ++ JQUOTE :: rest) = Some (concat (reads_as <$> chunks l), rest).
Proof.
  unfold encode_text. induction (chunks_ok l) as [|ch chs Hok _ IH]; [reflexivity|]. rewrite !fmap_cons. cbn [concat].
  rewrite <-app_assoc, unquote_chunk by done. rewrite IH. done.
Qed.

Lemma decode_encoded l rest :
  decode_element (encode_string l ++ rest) = Some (concat (reads_as <$> chunks l), rest).
Proof.
  unfold decode_element, encode_string, skip_spaces. cbn [app drop_while]. change (json_space JQUOTE) with false. cbn iota.
  change (Ascii.eqb JQUOTE JQUOTE) with true. cbn iota. rewrite <-app_assoc. apply unquote_text.
Qed.

Definition read_back (s : string) : list ascii := concat (reads_as <$> chunks (bytes s)).

Lemma decode_more s v fuel : (length v < fuel)%nat ->
  decode_elements fuel (encode_string (bytes s) ++ encode_more v) = Some (read_back s :: (read_back <$> v), []).
Proof.
  revert s fuel. induction v as [|s' v IH]; intros s [|fuel] Hf; simpl in Hf; try lia; cbn [decode_elements encode_more]; rewrite decode_encoded.
  - reflexivity.
  - change (skip_spaces (COMMA :: encode_string (bytes s') ++ encode_more v)) with (COMMA :: encode_string (bytes s') ++ encode_more v).
    change (Ascii.eqb COMMA COMMA) with true. cbn iota. rewrite IH by lia. done.
Qed.

Lemma length_encode_more v : (length v < length (encode_more v))%nat.
Proof. induction v as [|s v IH]; [simpl; lia|]. cbn [encode_more]. simpl. rewrite length_app. lia. Qed.

Lemma decode_list_string t :
  decode_list (LBRACKET :: JQUOTE :: t)
  = match decode_elements (S (length (JQUOTE :: t))) (JQUOTE :: t) with
    | Some (xs, rest) => match skip_spaces rest with [] => Some xs | _ => None end
    | None => None
    end.
Proof. reflexivity. Qed.

(** ** Properties *)

(** what is stored of a list is read back: any list of strings written by
    [marshalList] is decoded by [unmarshalList] into the same number of
    strings, each with the bytes that belong to no UTF-8 encoding replaced by
    U+FFFD; so a list of well-formed strings comes back exactly as it was. *)
Theorem list_column_roundtrip v :
  unmarshalList (marshal_list v) = Ok (to_valid <$> v)
  /\ (Forall (fun s => valid_utf8 s = true) v -> unmarshalList (marshal_list v) = Ok v).
Proof.
  assert (unmarshalList (marshal_list v) = Ok (to_valid <$> v)) as H.
  { destruct v as [|s v]; [reflexivity|]. unfold unmarshalList, marshal_list.
    rewrite !bool_decide_eq_false_2 by (by intros ?; simplify_eq/=). simpl orb. cbn iota. rewrite bytes_unbytes. unfold encode_string at 1. cbn [app].
    rewrite decode_list_string. change (JQUOTE :: (encode_text (bytes s) ++ [JQUOTE]) ++ encode_more v) with (encode_string (bytes s) ++ encode_more v).
    rewrite decode_more; [|rewrite length_app; pose proof (length_encode_more v); lia]. cbn. by rewrite <-list_fmap_compose. }
  split; [done|]. intros Hv. rewrite H. f_equal. clear H. induction Hv as [|s v Hs _ IH]; [done|]. rewrite fmap_cons, IH. by rewrite to_valid_id.
Qed.

(** *** The encoding used elsewhere *)

Lemma escape_json_cons a s : code a <> 226 -> escape_json (String a s) = escape_byte a +:+ escape_json s.
Proof.
  intros Ha. cbn [escape_json]. destruct s as [|b [|c s]]; try done. unfold line_separator. by rewrite (proj2 (Z.eqb_neq _ _) Ha).
Qed.

Lemma escape_byte_high a : 128 <= code a -> escape_byte a = String a "".
Proof. intros Ha. destruct a as [[] [] [] [] [] [] [] []]; try (by vm_compute in Ha); reflexivity. Qed.

Lemma escape_json_high a s : 128 <= code a -> code a <> 226 -> escape_json (String a s) = String a (escape_json s).
Proof. intros Ha Hn. by rewrite escape_json_cons, escape_byte_high. Qed.

Lemma escape_json_three a b c s :
  escape_json (String a (String b (String c s)))
  = if line_separator a b c then unicode_escape "20" (code c - 128) +:+ escape_json s else escape_byte a +:+ escape_json (String b (String c s)).
Proof. reflexivity. Qed.

Lemma escape_json_rune enc l : chunk_ok (Rune enc) ->
  bytes (escape_json (unbytes (enc ++ l))) = encode_chunk (Rune enc) ++ bytes (escape_json (unbytes l)).
Proof.
  intros Hok. simpl in Hok. pose proof (rune_width_bound _ _ Hok) as [Hb _].
  unfold rune_width in Hok. destruct enc as [|a [|b [|c [|d [|e t]]]]]; simpl in Hb; try lia; repeat case_match; try discriminate Hok; try lia;
    unfold tail_byte, byte_in in *; bools.
  - change (unbytes ([a] ++ l)) with (String a (unbytes l)). rewrite escape_json_cons by lia. by rewrite bytes_app.
  - change (unbytes ([a; b] ++ l)) with (String a (String b (unbytes l))). by rewrite !escape_json_high by lia.
  - change (unbytes ([a; b; c] ++ l)) with (String a (String b (String c (unbytes l)))). rewrite escape_json_three. cbn [encode_chunk].
    destruct (line_separator a b c) eqn:Hs; [by rewrite bytes_app|]. rewrite escape_byte_high by lia.
    assert (128 <= code b <= 191) by (unfold second_of_three, tail_byte, byte_in in *; repeat case_match; bools; lia).
    by rewrite (escape_json_high b), (escape_json_high c) by lia.
  - assert (128 <= code b <= 191) by (unfold second_of_four, tail_byte, byte_in in *; repeat case_match; bools; lia).
    change (unbytes ([a; b; c; d] ++ l)) with (String a (String b (String c (String d (unbytes l))))). by rewrite !escape_json_high by lia.
Qed.

Lemma json_string_valid s : valid_utf8 s = true -> bytes (json_string s) = encode_string (bytes s).
Proof.
  intros Hv. unfold valid_utf8 in Hv. apply negb_true_iff in Hv. unfold json_string, encode_string. simpl. f_equal. rewrite bytes_app. f_equal.
  rewrite <-(unbytes_bytes s) at 1. unfold encode_text. revert Hv.
  induction (bytes s) as [|enc l Hok He IH|b l Hok He IH] using chunks_ind; [done|rewrite He..]; cbn [existsb is_bad orb]; [|done].
  intros Hv. rewrite fmap_cons. cbn [concat]. by rewrite escape_json_rune, IH.
Qed.

(** On well-formed strings the two encodings are the same. *)
Lemma marshal_list_valid v : Forall (fun s => valid_utf8 s = true) v -> marshal_list v = marshalList v.
Proof.
  intros Hv. destruct Hv as [|s v Hs Hv]; [done|]. unfold marshal_list, marshalList, json_list. rewrite <-(unbytes_bytes ("[" +:+ _)).
  f_equal. rewrite !bytes_app. change (bytes "[") with [LBRACKET]. cbn [app]. f_equal. rewrite fmap_cons. revert s Hs.
  induction Hv as [|s' v Hs' Hv IH]; intros s Hs; cbn [encode_more].
  - change (Join (json_string s :: (json_string <$> [])) ",") with (json_string s). by rewrite json_string_valid.
  - rewrite fmap_cons. change (Join (json_string s :: json_string s' :: (json_string <$> v)) ",") with (json_string s +:+ "," +:+ Join (json_string s' :: (json_string <$> v)) ",").
    rewrite !bytes_app, json_string_valid by done. rewrite <-app_assoc. f_equal. simpl. f_equal. by apply IH.
Qed.

(** ** Observation *)

(** A string with a byte that is no UTF-8 comes back as another one; what
    keeps such recipients out is the parser of package net/mail. *)
Lemma ill_formed_string_changes :
  let r := unbytes [chr 97; chr 255; chr 64; chr 120] in
  unmarshalList (marshal_list [r]) = Ok [unbytes ([chr 97] ++ RuneError ++ [chr 64; chr 120])].
Proof. vm_compute. reflexivity. Qed.
