(* ===== verification/SqlText.v ===== *)
(** * The SQL the store writes

    The statements of [internal/store] are text; this file gives that text a
    meaning: a lexer, a parser and an evaluator for the fragment the store
    uses, UPDATE, DELETE, INSERT and SELECT with the subquery of the claim, with
    both engines' placeholders, comments, and SQL's three-valued
    logic. A row is a list of columns with their values, so that the order in
    which a statement names its columns does not matter to it; a table is a
    map from the primary key. [None] is a statement the engine would refuse. *)

From stdpp Require Import base gmap strings list sorting.
From Stdlib Require Import ZArith Lia Ascii.
From S2P Require Import Prelude GoStrings.

Open Scope Z_scope.

(** ** Tokens *)

Inductive Tok := TWord (w : string) | TNum (n : Z) | TStr (s : string) | TParam | TDollar (k : nat) | TSym (s : string).

Definition word_char (c : ascii) : bool := is_upper c || is_lower c || is_digit c || Ascii.eqb c "_"%char.

Fixpoint span (f : ascii -> bool) (l : list ascii) : list ascii * list ascii :=
  match l with
  | c :: r => if f c then let '(x, y) := span f r in (c :: x, y) else ([], l)
  | [] => ([], [])
  end.

(** The text after an opening quote; a doubled quote is a quote. *)
Fixpoint quoted (l : list ascii) : option (list ascii * list ascii) :=
  match l with
  | [] => None
  | "'"%char :: r =>
      match r with
      | "'"%char :: r' => match quoted r' with Some (x, y) => Some ("'"%char :: x, y) | None => None end
      | _ => Some ([], r)
      end
  | c :: r => match quoted r with Some (x, y) => Some (c :: x, y) | None => None end
  end.

Definition symbol (c : ascii) : bool := contains_byte "=<>(),+." c.

(** [fuel]: every token takes a byte, so the length of the text is enough. *)
Fixpoint tokens (fuel : nat) (l : list ascii) : option (list Tok) :=
  match fuel with
  | O => None
  | S f =>
      match l with
      | [] => Some []
      | "-"%char :: "-"%char :: r => tokens f (span (fun c => negb (Ascii.eqb c LF)) r).2
      | "?"%char :: r => cons TParam <$> tokens f r
      | "$"%char :: r =>
          let '(d, r') := span is_digit r in
          match digits_value (unbytes d) 0 with Some n => cons (TDollar (Z.to_nat n)) <$> tokens f r' | None => None end
      | "'"%char :: r => match quoted r with Some (s, r') => cons (TStr (unbytes s)) <$> tokens f r' | None => None end
      | "<"%char :: "="%char :: r => cons (TSym "<=") <$> tokens f r
      | "<"%char :: ">"%char :: r => cons (TSym "<>") <$> tokens f r
      | c :: r =>
          if ascii_space c then tokens f r
          else if is_digit c then
            let '(d, r') := span is_digit l in
            match digits_value (unbytes d) 0 with Some n => cons (TNum n) <$> tokens f r' | None => None end
          else if word_char c then let '(w, r') := span word_char l in cons (TWord (unbytes w)) <$> tokens f r'
          else if symbol c then cons (TSym (String c "")) <$> tokens f r
          else None
      end
  end.

Definition lex_sql (text : string) : option (list Tok) := tokens (S (String.length text)) (bytes text).

(** ** Syntax *)

Inductive Expr := ECol (c : string) | EParam (k : nat) | ENull | EStr (s : string) | ENum (n : Z) | EBool (b : bool) | EAdd (a b : Expr).

Inductive Cond :=
| CAnd (a b : Cond) | COr (a b : Cond)
| CEq (a b : Expr) | CNe (a b : Expr) | CLt (a b : Expr) | CLe (a b : Expr)
| CIsNull (a : Expr) | CNotNull (a : Expr)
| CIn (a : Expr) (l : list Expr)
| CInQuery (a : Expr) (col table : string) (w : Cond) (order : string) (limit : Expr).

Inductive Stmt :=
| SUpdate (table : string) (sets : list (string * Expr)) (w : Cond)
| SDelete (table : string) (w : Cond)
| SInsert (table : string) (cols : list string) (vals : list Expr)
| SSelect (cols : list string) (table : string) (w : Cond) (order : option string).

(** The tables a statement is on, its subqueries included. *)
Fixpoint cond_on (tbl : string) (c : Cond) : bool :=
  match c with
  | CAnd a b | COr a b => cond_on tbl a && cond_on tbl b
  | CInQuery _ _ table w _ _ => String.eqb table tbl && cond_on tbl w
  | _ => true
  end.
Definition on_table (tbl : string) (s : Stmt) : bool :=
  match s with
  | SUpdate table _ w | SDelete table w | SSelect _ table w _ => String.eqb table tbl && cond_on tbl w
  | SInsert table _ _ => String.eqb table tbl
  end.

(** ** Parser *)

(** A parser takes the number of placeholders so far and the tokens left. *)
Definition P (A : Type) : Type := nat -> list Tok -> option (A * nat * list Tok).
Definition pret {A} (a : A) : P A := fun n l => Some (a, n, l).
Definition pbind {A B} (p : P A) (f : A -> P B) : P B :=
  fun n l => match p n l with Some (a, n', l') => f a n' l' | None => None end.
Definition pfail {A} : P A := fun _ _ => None.

Declare Scope sql_scope.
Notation "x <- p ;; q" := (pbind p (fun x => q)) (at level 60, p at next level, right associativity) : sql_scope.
Notation "p ;;; q" := (pbind p (fun _ => q)) (at level 60, right associativity) : sql_scope.
Local Open Scope sql_scope.

Definition is_word (w : string) (t : Tok) : bool := match t with TWord v => String.eqb v w | _ => false end.
Definition is_sym (s : string) (t : Tok) : bool := match t with TSym v => String.eqb v s | _ => false end.

Definition expect (f : Tok -> bool) : P unit := fun n l => match l with t :: r => if f t then Some (tt, n, r) else None | [] => None end.
Definition word (w : string) : P unit := expect (is_word w).
Definition sym (s : string) : P unit := expect (is_sym s).
Definition peek (f : Tok -> bool) : P bool := fun n l => match l with t :: r => if f t then Some (true, n, r) else Some (false, n, l) | [] => Some (false, n, l) end.
Definition name : P string := fun n l => match l with TWord w :: r => Some (w, n, r) | _ => None end.

Definition atom : P Expr := fun n l =>
  match l with
  | TParam :: r => Some (EParam n, S n, r)
  | TDollar (S k) :: r => Some (EParam k, n, r)
  | TNum k :: r => Some (ENum k, n, r)
  | TStr s :: r => Some (EStr s, n, r)
  | TWord w :: r =>
      Some ((if String.eqb w "NULL" then ENull else if String.eqb w "TRUE" then EBool true
             else if String.eqb w "FALSE" then EBool false else ECol w), n, r)
  | _ => None
  end.

Definition expr : P Expr := a <- atom ;; plus <- peek (is_sym "+") ;; if plus : bool then b <- atom ;; pret (EAdd a b) else pret a.

(** Items with commas between them. *)
Fixpoint commas {A} (fuel : nat) (p : P A) : P (list A) :=
  match fuel with
  | O => pfail
  | S f => a <- p ;; more <- peek (is_sym ",") ;; if more : bool then r <- commas f p ;; pret (a :: r) else pret [a]
  end.

Fixpoint disjunction (fuel : nat) : P Cond :=
  match fuel with
  | O => pfail
  | S f => a <- conjunction f ;; more <- peek (is_word "OR") ;; if more : bool then b <- disjunction f ;; pret (COr a b) else pret a
  end
with conjunction (fuel : nat) : P Cond :=
  match fuel with
  | O => pfail
  | S f => a <- comparison f ;; more <- peek (is_word "AND") ;; if more : bool then b <- conjunction f ;; pret (CAnd a b) else pret a
  end
with comparison (fuel : nat) : P Cond :=
  match fuel with
  | O => pfail
  | S f =>
      paren <- peek (is_sym "(") ;;
      if paren : bool then c <- disjunction f ;; sym ")" ;;; pret c
      else
        a <- expr ;;
        eq <- peek (is_sym "=") ;; if eq : bool then b <- expr ;; pret (CEq a b) else
        ne <- peek (is_sym "<>") ;; if ne : bool then b <- expr ;; pret (CNe a b) else
        le <- peek (is_sym "<=") ;; if le : bool then b <- expr ;; pret (CLe a b) else
        lt <- peek (is_sym "<") ;; if lt : bool then b <- expr ;; pret (CLt a b) else
        test <- peek (is_word "IS") ;;
        if test : bool then
          neg <- peek (is_word "NOT") ;; word "NULL" ;;; pret (if neg : bool then CNotNull a else CIsNull a)
        else
          word "IN" ;;; sym "(" ;;;
          sub <- peek (is_word "SELECT") ;;
          if sub : bool then
            col <- name ;; word "FROM" ;;; table <- name ;; word "WHERE" ;;; w <- disjunction f ;;
            word "ORDER" ;;; word "BY" ;;; order <- name ;; word "LIMIT" ;;; limit <- expr ;;
            lock <- peek (is_word "FOR") ;;
            (if lock : bool then word "UPDATE" ;;; word "SKIP" ;;; word "LOCKED" else pret tt) ;;;
            sym ")" ;;; pret (CInQuery a col table w order limit)
          else l <- commas f expr ;; sym ")" ;;; pret (CIn a l)
  end.

Definition assignment : P (string * Expr) := c <- name ;; sym "=" ;;; e <- expr ;; pret (c, e).

Definition statement (fuel : nat) : P Stmt :=
  update <- peek (is_word "UPDATE") ;;
  if update : bool then
    table <- name ;; word "SET" ;;; sets <- commas fuel assignment ;; word "WHERE" ;;; w <- disjunction fuel ;; pret (SUpdate table sets w)
  else
    delete <- peek (is_word "DELETE") ;;
    if delete : bool then word "FROM" ;;; table <- name ;; word "WHERE" ;;; w <- disjunction fuel ;; pret (SDelete table w)
    else
      select <- peek (is_word "SELECT") ;;
      if select : bool then
        cols <- commas fuel name ;; word "FROM" ;;; table <- name ;; word "WHERE" ;;; w <- disjunction fuel ;;
        order <- peek (is_word "ORDER") ;;
        if order : bool then word "BY" ;;; c <- name ;; pret (SSelect cols table w (Some c)) else pret (SSelect cols table w None)
      else
      word "INSERT" ;;; word "INTO" ;;; table <- name ;; sym "(" ;;; cols <- commas fuel name ;; sym ")" ;;;
      word "VALUES" ;;; sym "(" ;;; vals <- commas fuel expr ;; sym ")" ;;; pret (SInsert table cols vals).

Definition parse_sql (text : string) : option Stmt :=
  match lex_sql text with
  | None => None
  | Some toks => match statement (S (length toks)) 0%nat toks with Some (s, _, []) => Some s | _ => None end
  end.

(** ** Evaluation *)

Inductive SqlValue := VNull | VText (s : string) | VInt (n : Z) | VBool (b : bool) | VTime (t : Z).

Definition Row : Type := list (string * SqlValue).

Fixpoint column (c : string) (r : Row) : option SqlValue :=
  match r with [] => None | (c', v) :: r => if String.eqb c c' then Some v else column c r end.

(** Comparing with NULL, or values of different types, tells nothing. *)
Definition sql_eq (a b : SqlValue) : option bool :=
  match a, b with
  | VText a, VText b => Some (String.eqb a b)
  | VInt a, VInt b | VTime a, VTime b => Some (a =? b)
  | VBool a, VBool b => Some (Bool.eqb a b)
  | _, _ => None
  end.
Definition sql_lt (a b : SqlValue) : option bool :=
  match a, b with
  | VInt a, VInt b | VTime a, VTime b => Some (a <? b)
  | _, _ => None
  end.
Definition sql_le (a b : SqlValue) : option bool :=
  match a, b with
  | VInt a, VInt b | VTime a, VTime b => Some (a <=? b)
  | _, _ => None
  end.

(** The connectives of three-valued logic; [None] is unknown. *)
Definition and3 (a b : option bool) : option bool :=
  match a, b with
  | Some false, _ | _, Some false => Some false
  | Some true, Some true => Some true
  | _, _ => None
  end.
Definition or3 (a b : option bool) : option bool :=
  match a, b with
  | Some true, _ | _, Some true => Some true
  | Some false, Some false => Some false
  | _, _ => None
  end.
Definition not3 (a : option bool) : option bool := negb <$> a.

Fixpoint eval_expr (args : list SqlValue) (r : Row) (e : Expr) : option SqlValue :=
  match e with
  | ECol c => column c r
  | EParam k => args !! k
  | ENull => Some VNull
  | EStr s => Some (VText s)
  | ENum n => Some (VInt n)
  | EBool b => Some (VBool b)
  | EAdd a b =>
      match eval_expr args r a, eval_expr args r b with
      | Some (VInt x), Some (VInt y) => Some (VInt (x + y))
      | Some VNull, Some _ | Some _, Some VNull => Some VNull
      | _, _ => None
      end
  end.

Definition lift2 (f : SqlValue -> SqlValue -> option bool) (a b : option SqlValue) : option (option bool) :=
  match a, b with Some a, Some b => Some (f a b) | _, _ => None end.
Definition lift3 (f : option bool -> option bool -> option bool) (a b : option (option bool)) : option (option bool) :=
  match a, b with Some a, Some b => Some (f a b) | _, _ => None end.

(** A row is taken when its condition is true, not when it is unknown. *)
Definition holds (x : option (option bool)) : bool := match x with Some (Some true) => true | _ => false end.
Definition defined {A} (x : option A) : bool := match x with Some _ => true | None => false end.

Definition row_le (c : string) (a b : Row) : bool :=
  match column c a, column c b with
  | Some x, Some y => match sql_le x y with Some b => b | None => false end
  | _, _ => false
  end.
Definition row_before (c : string) (a b : Row) : Prop := row_le c a b = true.
#[export] Instance row_before_dec c a b : Decision (row_before c a b).
Proof. unfold row_before. apply _. Defined.

(** [rows]: the table in the order the engine scans it, for a subquery. *)
Fixpoint eval_cond (rows : list Row) (args : list SqlValue) (r : Row) (c : Cond) : option (option bool) :=
  match c with
  | CAnd a b => lift3 and3 (eval_cond rows args r a) (eval_cond rows args r b)
  | COr a b => lift3 or3 (eval_cond rows args r a) (eval_cond rows args r b)
  | CEq a b => lift2 sql_eq (eval_expr args r a) (eval_expr args r b)
  | CNe a b => lift2 (fun a b => not3 (sql_eq a b)) (eval_expr args r a) (eval_expr args r b)
  | CLt a b => lift2 sql_lt (eval_expr args r a) (eval_expr args r b)
  | CLe a b => lift2 sql_le (eval_expr args r a) (eval_expr args r b)
  | CIsNull a => match eval_expr args r a with Some VNull => Some (Some true) | Some _ => Some (Some false) | None => None end
  | CNotNull a => match eval_expr args r a with Some VNull => Some (Some false) | Some _ => Some (Some true) | None => None end
  | CIn a l =>
      foldr (fun e acc => lift3 or3 (lift2 sql_eq (eval_expr args r a) (eval_expr args r e)) acc) (Some (Some false)) l
  | CInQuery a col _ w order limit =>
      if forallb (fun r' => defined (eval_cond rows args r' w)) rows
      then match eval_expr args r limit with
           | Some (VInt n) =>
               let hits := List.filter (fun r' => holds (eval_cond rows args r' w)) rows in
               foldr (fun r' acc => lift3 or3 (lift2 sql_eq (eval_expr args r a) (column col r')) acc) (Some (Some false))
                 (take (Z.to_nat n) (merge_sort (row_before order) hits))
           | _ => None
           end
      else None
  end.

(** The values of SET are computed from the old row. *)
Fixpoint put (c : string) (v : SqlValue) (r : Row) : option Row :=
  match r with
  | [] => None
  | (c', v') :: r => if String.eqb c c' then Some ((c', v) :: r) else cons (c', v') <$> put c v r
  end.
Fixpoint assign (args : list SqlValue) (sets : list (string * Expr)) (old r : Row) : option Row :=
  match sets with
  | [] => Some r
  | (c, e) :: sets =>
      match eval_expr args old e with
      | Some v => match put c v r with Some r' => assign args sets old r' | None => None end
      | None => None
      end
  end.

(** A new row: the columns of the statement with the values of its list. *)
Definition insert_row (args : list SqlValue) (cols : list string) (vals : list Expr) : option Row :=
  if (length cols =? length vals)%nat then zip cols <$> mapM (eval_expr args []) vals else None.

Definition Table : Type := gmap string Row.

Definition scan_rows (scan : list string) (t : gmap string Row) : list Row := omap (fun k => t !! k) scan.

(** A statement on a table: the number of rows it affected, and the table. The
    column [id] is the primary key. *)
Definition exec_sql (scan : list string) (args : list SqlValue) (s : Stmt) (t : gmap string Row) : option (Z * gmap string Row) :=
  let rows := scan_rows scan t in
  match s with
  | SUpdate _ sets w =>
      if forallb (fun kr => defined (eval_cond rows args kr.2 w) && defined (assign args sets kr.2 kr.2)) (map_to_list t)
      then Some (Z.of_nat (size (filter (fun kr => holds (eval_cond rows args kr.2 w) = true) t)),
                 (fun r => if holds (eval_cond rows args r w) then default r (assign args sets r r) else r) <$> t)
      else None
  | SDelete _ w =>
      if forallb (fun kr => defined (eval_cond rows args kr.2 w)) (map_to_list t)
      then Some (Z.of_nat (size (filter (fun kr => holds (eval_cond rows args kr.2 w) = true) t)),
                 filter (fun kr => holds (eval_cond rows args kr.2 w) = false) t)
      else None
  | SInsert _ cols vals =>
      match insert_row args cols vals with
      | Some r =>
          match column "id" r with
          | Some (VText id) => if defined (t !! id) then None else Some (1, <[id := r]> t)
          | _ => None
          end
      | None => None
      end
  | SSelect _ _ _ _ => None
  end.

(** A query on a table: the columns of the rows it finds. *)
Definition select_columns (cols : list string) (r : Row) : option (list SqlValue) := mapM (fun c => column c r) cols.

Definition query_sql (scan : list string) (args : list SqlValue) (s : Stmt) (t : gmap string Row) : option (list (list SqlValue)) :=
  let rows := scan_rows scan t in
  match s with
  | SSelect cols _ w order =>
      if forallb (fun r => defined (eval_cond rows args r w)) rows
      then let hits := List.filter (fun r => holds (eval_cond rows args r w)) rows in
           mapM (select_columns cols) (match order with Some c => merge_sort (row_before c) hits | None => hits end)
      else None
  | _ => None
  end.
