(* ===== verification/Statements.v ===== *)
(** * The statements of the queue, executed

    [internal/store/messages.go] talks to the engine in text. Here are its
    statements as they stand in the source, the arguments the code binds to
    them, and [scanMessage]; [SqlText] parses and executes them on the rows the
    table holds. Shown: each text, rewritten by [Rebind] for either engine, does
    to the rows what [MessageStore] says the operation does to the messages,
    with the same answer; and a message that was inserted and selected again is
    the message. *)

From stdpp Require Import base gmap strings list sorting.
From Stdlib Require Import ZArith Lia Ascii.
From S2P Require Import Prelude GoStrings GoStringsFacts Utf8 StoreModels MessageStore MessageQueue Sql AuditLog MessageList JsonList SqlText.

Open Scope Z_scope.

(** ** Rows *)

Definition messageColumns : string :=
"
	id, smtp_account_id, mailbox_id, account_username, mailbox_address,
	envelope_from, header_from, recipients, recipient_count, size_bytes,
	subject, message_id, status, attempts, next_attempt_at,
	lease_owner, lease_expires_at, last_error, last_error_code,
	last_error_permanent, client_ip, blob_ref, received_at, sent_at, updated_at, origin".

Definition null_text (o : option string) : SqlValue := match o with Some s => VText s | None => VNull end.
Definition null_time (o : option Z) : SqlValue := match o with Some t => VTime t | None => VNull end.

(** The arguments of the INSERT, in the order the code binds them. *)
Definition message_args (m : Message) : list SqlValue :=
  [VText (m_ID m); null_text (m_SMTPAccountID m); null_text (m_MailboxID m); VText (m_AccountUsername m); VText (m_MailboxAddress m);
   VText (m_EnvelopeFrom m); VText (m_HeaderFrom m); VText (marshal_list (m_Recipients m)); VInt (m_RecipientCount m); VInt (m_SizeBytes m);
   VText (m_Subject m); VText (m_MessageID m); VText (status_text (m_Status m)); VInt (m_Attempts m); VTime (m_NextAttemptAt m);
   null_text (m_LeaseOwner m); null_time (m_LeaseExpiresAt m); VText (m_LastError m); VText (m_LastErrorCode m);
   VBool (m_LastErrorPermanent m); VText (m_ClientIP m); VText (m_BlobRef m); VTime (m_ReceivedAt m); null_time (m_SentAt m);
   VTime (m_UpdatedAt m); VText (m_Origin m)].

Definition message_columns : list string := Eval vm_compute in splitColumns messageColumns.

(** The row that holds a message. *)
Definition message_row (m : Message) : Row := zip message_columns (message_args m).

(** *** Scanning *)

Definition scan_text (v : SqlValue) : option string := match v with VText s => Some s | _ => None end.
Definition scan_null_text (v : SqlValue) : option (option string) :=
  match v with VText s => Some (Some s) | VNull => Some None | _ => None end.
Definition scan_int (v : SqlValue) : option Z := match v with VInt n => Some n | _ => None end.
Definition scan_bool (v : SqlValue) : option bool := match v with VBool b => Some b | _ => None end.
Definition scan_time (v : SqlValue) : option Z := match v with VTime t => Some t | _ => None end.
Definition scan_null_time (v : SqlValue) : option (option Z) :=
  match v with VTime t => Some (Some t) | VNull => Some None | _ => None end.

(** The statuses the program names. *)
Definition scan_status (v : SqlValue) : option MessageStatus :=
  s ← scan_text v;
  list_find (fun st => status_text st = s) [StatusUnset; StatusQueued; StatusSending; StatusSent; StatusDeferred; StatusFailed; StatusHeld]
    ≫= fun x => Some x.2.

(** [None] is the error of [Scan] or of [unmarshalList]. *)
Definition scanMessage (row : list SqlValue) : option Message :=
  match row with
  | [id; acct; mbox; user; addr; efrom; hfrom; rcpts; rcount; sz; subj; mid; st; att; next; owner; expires; err; code; perm; ip; blob;
     received; sent; updated; origin] =>
      id ← scan_text id; acct ← scan_null_text acct; mbox ← scan_null_text mbox; user ← scan_text user; addr ← scan_text addr;
      efrom ← scan_text efrom; hfrom ← scan_text hfrom; rcpts ← scan_text rcpts; rcount ← scan_int rcount; sz ← scan_int sz;
      subj ← scan_text subj; mid ← scan_text mid; st ← scan_status st; att ← scan_int att; next ← scan_time next;
      owner ← scan_null_text owner; expires ← scan_null_time expires; err ← scan_text err; code ← scan_text code;
      perm ← scan_bool perm; ip ← scan_text ip; blob ← scan_text blob; received ← scan_time received; sent ← scan_null_time sent;
      updated ← scan_time updated; origin ← scan_text origin;
      match unmarshalList rcpts with
      | Ok l => Some (mkMessage origin id acct mbox user addr efrom hfrom l rcount sz subj mid st att next owner expires err code perm ip
                        blob received sent updated)
      | Err _ => None
      end
  | _ => None
  end.

(** ** Statements *)

Definition enqueue_text : string :=
"
			INSERT INTO messages (" +:+ messageColumns +:+ ")
			VALUES (?, ?, ?, ?, ?, ?, ?, ?, ?, ?, ?, ?, ?, ?, ?, ?, ?, ?, ?, ?, ?, ?, ?, ?, ?, ?)".

Definition get_text : string := "SELECT " +:+ messageColumns +:+ " FROM messages WHERE id = ?".

Definition claim_text (d : Dialect) : string :=
"
		UPDATE messages SET
			status = 'sending', lease_owner = ?, lease_expires_at = ?, updated_at = ?
		WHERE id IN (
			SELECT id FROM messages
			WHERE (
				-- Due for its first or next attempt.
				(status IN ('queued', 'deferred') AND next_attempt_at <= ?)
				-- Or abandoned: a worker claimed it and never came back. It is
				-- retried immediately rather than waiting for next_attempt_at,
				-- which was already in the past when it was claimed.
				OR (status = 'sending' AND lease_expires_at IS NOT NULL AND lease_expires_at < ?)
			)
			AND (lease_owner IS NULL OR lease_expires_at IS NULL OR lease_expires_at < ?)
			ORDER BY next_attempt_at
			LIMIT ?" +:+ LockClause d +:+ "
		)".

Definition readback_text : string :=
"SELECT " +:+ messageColumns +:+ " FROM messages
		 WHERE lease_owner = ? AND lease_expires_at = ? AND status = 'sending'
		 ORDER BY next_attempt_at".

Definition extend_text : string :=
"
		UPDATE messages SET lease_expires_at = ?, updated_at = ?
		WHERE id = ? AND lease_owner = ?".

Definition mark_sent_text : string :=
"
		UPDATE messages SET
			status = 'sent', sent_at = ?, updated_at = ?,
			attempts = attempts + 1, lease_owner = NULL, lease_expires_at = NULL,
			last_error = '', last_error_code = ''
		WHERE id = ? AND lease_owner = ?".

Definition defer_text : string :=
"
		UPDATE messages SET
			status = 'deferred', attempts = attempts + 1, next_attempt_at = ?,
			last_error = ?, last_error_code = ?, last_error_permanent = ?,
			lease_owner = NULL, lease_expires_at = NULL, updated_at = ?
		WHERE id = ? AND lease_owner = ?".

Definition fail_text : string :=
"
		UPDATE messages SET
			status = 'failed', attempts = attempts + 1,
			last_error = ?, last_error_code = ?, last_error_permanent = ?,
			lease_owner = NULL, lease_expires_at = NULL, updated_at = ?
		WHERE id = ? AND lease_owner = ?".

Definition requeue_text : string :=
"
		UPDATE messages SET
			status = 'queued', next_attempt_at = ?, updated_at = ?,
			lease_owner = NULL, lease_expires_at = NULL
		WHERE id = ? AND status IN ('failed', 'deferred', 'held')".

Definition hold_text : string :=
"
		UPDATE messages SET
			status = 'held', updated_at = ?, lease_owner = NULL, lease_expires_at = NULL
		WHERE id = ? AND status IN ('queued', 'deferred', 'failed')".

Definition delete_text : string := "DELETE FROM messages WHERE id = ? AND status <> 'sending'".

Definition release_text : string :=
"
		UPDATE messages SET
			status = 'queued', lease_owner = NULL, lease_expires_at = NULL, updated_at = ?
		WHERE status = 'sending' AND lease_expires_at IS NOT NULL AND lease_expires_at < ?".

Definition purge_text : string :=
"
		DELETE FROM messages
		WHERE (status = 'sent' AND updated_at < ?)
		   OR (status = 'failed' AND updated_at < ?)".

(** The statement an operation runs, with its arguments; [None] when it returns
    before it reaches the database. *)
Definition op_statement (d : Dialect) (op : Op) : option (string * list SqlValue) :=
  match op with
  | OpEnqueue _ now newID m _ => Some (enqueue_text, message_args (enqueue_defaults now newID m))
  | OpClaim _ now _ owner limit leaseFor =>
      if bool_decide (owner = "") || (limit <=? 0) then None
      else Some (claim_text d, [VText owner; VTime (now + leaseFor); VTime now; VTime now; VTime now; VTime now; VInt limit])
  | OpExtend _ now id owner leaseFor => Some (extend_text, [VTime (now + leaseFor); VTime now; VText id; VText owner])
  | OpMarkSent _ now id owner => Some (mark_sent_text, [VTime now; VTime now; VText id; VText owner])
  | OpDefer _ now id owner f retryAt =>
      Some (defer_text, [VTime retryAt; VText (f_Message f); VText (f_Code f); VBool false; VTime now; VText id; VText owner])
  | OpFail _ now id owner f =>
      Some (fail_text, [VText (f_Message f); VText (f_Code f); VBool (f_Permanent f); VTime now; VText id; VText owner])
  | OpRequeue _ now id => Some (requeue_text, [VTime now; VTime now; VText id])
  | OpHold _ now id => Some (hold_text, [VTime now; VText id])
  | OpDelete _ _ id => Some (delete_text, [VText id])
  | OpRelease _ now => Some (release_text, [VTime now; VTime now])
  | OpPurge _ _ sentBefore failedBefore => Some (purge_text, [VTime sentBefore; VTime failedBefore])
  end.

(** What the engine is given is [Rebind] of the text; the statement is one on
    the table it is run on. *)
Definition compile (d : Dialect) (tbl text : string) : option Stmt :=
  match Rebind d text with
  | None => None
  | Some q => match parse_sql q with Some s => if on_table tbl s then Some s else None | None => None end
  end.

Definition run_text (d : Dialect) (tbl : string) (scan : list string) (text : string) (args : list SqlValue) (t : gmap string Row)
  : option (Z * gmap string Row) :=
  match compile d tbl text with Some s => exec_sql scan args s t | None => None end.

Definition query_text (d : Dialect) (tbl : string) (scan : list string) (text : string) (args : list SqlValue) (t : gmap string Row)
  : option (list (list SqlValue)) :=
  match compile d tbl text with Some s => query_sql scan args s t | None => None end.

(** *** Reading *)

(** [QueryRow] takes the first row; none is [sql.ErrNoRows]. The outer [None] is
    a text the engine refuses. *)
Definition Get_text (d : Dialect) (scan : list string) (id : string) (t : gmap string Row) : option (result StoreError Message) :=
  match query_text d "messages" scan get_text [VText id] t with
  | None => None
  | Some [] => Some (Err (ErrNotFound ("message " +:+ id)))
  | Some (row :: _) => Some (match scanMessage row with Some m => Ok m | None => Err (ErrDriver "message") end)
  end.

(** The whole of [ClaimMessages]: the UPDATE, then, when it claimed anything,
    the read-back and the scan of its rows. *)
Definition ClaimMessages_text (d : Dialect) (scan scan' : list string) (owner : string) (limit leaseFor now : Z) (t : gmap string Row)
  : option (result StoreError (list Message) * gmap string Row) :=
  if bool_decide (owner = "") then Some (Err (ErrDriver "store: claiming requires a worker identity"), t)
  else if limit <=? 0 then Some (Ok [], t)
  else
    let leaseUntil := now + leaseFor in
    '(n, t') ← run_text d "messages" scan (claim_text d)
                 [VText owner; VTime leaseUntil; VTime now; VTime now; VTime now; VTime now; VInt limit] t;
    if n =? 0 then Some (Ok [], t')
    else
      rows ← query_text d "messages" scan' readback_text [VText owner; VTime leaseUntil] t';
      Some (match mapM scanMessage rows with Some l => Ok l | None => Err (ErrDriver "store: scanning claimed message") end, t').

(** The answer the code gives for the number of rows the engine reports. *)
Definition op_answers (op : Op) (n : Z) (db : DB) : Prop :=
  match op with
  | OpEnqueue io now newID m body => (Enqueue io now newID m body db).1 = Ok (enqueue_defaults now newID m) /\ n = 1
  | OpClaim io now scan owner limit leaseFor =>
      forall scan', (ClaimMessages io None scan scan' owner limit leaseFor now db).1
                    = Ok (if n =? 0 then [] else claim_readback scan' owner (now + leaseFor) (step_op op db))
  | OpExtend io now id owner leaseFor => (ExtendLease io now id owner leaseFor db).1 = requireOneRow n ("lease on message " +:+ id)
  | OpMarkSent io now id owner => (MarkSent io now id owner db).1 = requireOneRow n ("lease on message " +:+ id)
  | OpDefer io now id owner f retryAt => (Defer io now id owner f retryAt db).1 = requireOneRow n ("lease on message " +:+ id)
  | OpFail io now id owner f => (Fail io now id owner f db).1 = requireOneRow n ("lease on message " +:+ id)
  | OpRequeue io now id => forall io_get, (Requeue io io_get now id db).1 = requireAction io_get n id (step_op op db)
  | OpHold io now id => forall io_get, (Hold io io_get now id db).1 = requireAction io_get n id (step_op op db)
  | OpDelete io _ id => forall io_get, (Delete io io_get id db).1 = requireAction io_get n id (step_op op db)
  | OpRelease io now => (ReleaseExpiredLeases io now db).1 = Ok n
  | OpPurge io _ sentBefore failedBefore => (Purge io sentBefore failedBefore db).1 = Ok n
  end.

Definition op_scan (op : Op) : list string := match op with OpClaim _ _ scan _ _ _ => scan | _ => [] end.

(** The engine executes the statement: the driver does not fail it, and an
    insert violates no constraint. *)
Definition op_accepted (op : Op) (db : DB) : Prop :=
  match op with
  | OpEnqueue io now newID m body =>
      io = None /\ insert_message_error (enqueue_defaults now newID m) db = None
      /\ (body = None \/ message_blobs db !! m_ID (enqueue_defaults now newID m) = None)
  | OpClaim io _ _ _ _ _ | OpExtend io _ _ _ _ | OpMarkSent io _ _ _ | OpDefer io _ _ _ _ _ | OpFail io _ _ _ _
  | OpRequeue io _ _ | OpHold io _ _ | OpDelete io _ _ | OpRelease io _ | OpPurge io _ _ _ => io = None
  end.

(** ** Conditions

    A condition decides a predicate: it has a value, and it is true exactly
    when the predicate is. Unknown counts as false, and the connectives respect
    that: the store never negates a condition that can be unknown. *)

Definition decides (x : option (option bool)) (b : bool) : Prop := defined x = true /\ holds x = b.

Create HintDb sql.

Lemma decides_and x y a b : decides x a -> decides y b -> decides (lift3 and3 x y) (a && b).
Proof. intros [? <-] [? <-]. destruct x as [[[]|]|], y as [[[]|]|]; done. Qed.

Lemma decides_or x y a b : decides x a -> decides y b -> decides (lift3 or3 x y) (a || b).
Proof. intros [? <-] [? <-]. destruct x as [[[]|]|], y as [[[]|]|]; done. Qed.

Lemma decides_ext x a b : decides x a -> a = b -> decides x b.
Proof. by intros ? <-. Qed.

Lemma decides_value a : decides (Some (Some a)) a.
Proof. split; [done|]. by destruct a. Qed.

Lemma eqb_decide a b : String.eqb a b = bool_decide (a = b).
Proof. destruct (String.eqb_spec a b); [by rewrite bool_decide_eq_true_2|by rewrite bool_decide_eq_false_2]. Qed.

Lemma decides_nothing : decides (Some (Some false)) false.
Proof. done. Qed.

Lemma decides_text a b : decides (Some (sql_eq (VText a) (VText b))) (bool_decide (a = b)).
Proof. rewrite <-eqb_decide. apply decides_value. Qed.

Lemma decides_null_text o s : decides (Some (sql_eq (null_text o) (VText s))) (bool_decide (o = Some s)).
Proof.
  destruct o as [s'|]; [|by rewrite bool_decide_eq_false_2]. eapply decides_ext; [apply decides_text|].
  by apply bool_decide_ext; split; [intros ->|intros [= ->]].
Qed.

Lemma decides_null_time o t : decides (Some (sql_eq (null_time o) (VTime t))) (bool_decide (o = Some t)).
Proof.
  destruct o as [s|]; [|by rewrite bool_decide_eq_false_2]. eapply decides_ext; [apply decides_value|].
  destruct (Z.eqb_spec s t) as [->|]; [by rewrite bool_decide_eq_true_2|]. rewrite bool_decide_eq_false_2; congruence.
Qed.

Lemma status_text_eqb st m : String.eqb (status_text (m_Status m)) (status_text st) = is_status st m.
Proof. unfold is_status. by destruct (m_Status m), st. Qed.

(** [status = '...'] and [status <> '...'] *)
Lemma decides_status st m : decides (Some (sql_eq (VText (status_text (m_Status m))) (VText (status_text st)))) (is_status st m).
Proof. rewrite <-status_text_eqb. apply decides_value. Qed.

Lemma decides_not_status st m :
  decides (Some (not3 (sql_eq (VText (status_text (m_Status m))) (VText (status_text st))))) (negb (is_status st m)).
Proof. rewrite <-status_text_eqb. apply decides_value. Qed.

(** [lease_expires_at < ?] *)
Lemma decides_expired now m : decides (Some (sql_lt (null_time (m_LeaseExpiresAt m)) (VTime now))) (expired now m).
Proof. unfold expired. destruct (m_LeaseExpiresAt m); [apply decides_value|done]. Qed.

Lemma decides_lt a b : decides (Some (sql_lt (VTime a) (VTime b))) (a <? b).
Proof. apply decides_value. Qed.

Lemma decides_le a b : decides (Some (sql_le (VTime a) (VTime b))) (a <=? b).
Proof. apply decides_value. Qed.

(** [IS NULL] and [IS NOT NULL] *)
Lemma decides_text_null o : decides (match null_text o with VNull => Some (Some true) | _ => Some (Some false) end) (bool_decide (o = None)).
Proof. by destruct o. Qed.

Lemma decides_time_null o : decides (match null_time o with VNull => Some (Some true) | _ => Some (Some false) end) (bool_decide (o = None)).
Proof. by destruct o. Qed.

Lemma decides_time_set o : decides (match null_time o with VNull => Some (Some false) | _ => Some (Some true) end) (bool_decide (o <> None)).
Proof. by destruct o. Qed.

Lemma set_and_expired now m : bool_decide (m_LeaseExpiresAt m <> None) && expired now m = expired now m.
Proof. unfold expired. by destruct (m_LeaseExpiresAt m). Qed.

#[export] Hint Resolve decides_text decides_null_text decides_null_time decides_expired decides_lt decides_le decides_text_null
  decides_time_null decides_time_set : sql.

Ltac status_comparison :=
  first
  [ apply (decides_status StatusQueued) | apply (decides_status StatusSending) | apply (decides_status StatusSent)
  | apply (decides_status StatusDeferred) | apply (decides_status StatusFailed) | apply (decides_status StatusHeld)
  | apply (decides_not_status StatusSending) ].

Arguments sql_eq : simpl never.
Arguments sql_lt : simpl never.
Arguments sql_le : simpl never.
Arguments not3 : simpl never.
Arguments null_text : simpl never.
Arguments null_time : simpl never.
Arguments status_text : simpl never.

(** A WHERE clause on the row of a message, down to its comparisons. *)
Ltac comparisons :=
  cbn [eval_cond eval_expr foldr];
  repeat (first [apply decides_and | apply decides_or]);
  simpl; first [apply decides_nothing | status_comparison | eauto with sql].
Ltac where_clause :=
  intros; eapply decides_ext; [comparisons|]; rewrite ?set_and_expired, ?orb_false_r, ?orb_assoc, ?andb_assoc; try reflexivity.

(** The statement a text stands for. *)
Ltac compiled :=
  match goal with
  | |- context [compile ?d ?tbl ?text] =>
      let s := eval vm_compute in (compile d tbl text) in replace (compile d tbl text) with s by (vm_compute; reflexivity)
  end; cbv iota beta.

(** ** Tables *)

Section Images.
Context {R : Type} (row : R -> Row).
Implicit Types (t : gmap string R) (p : R -> bool) (f : R -> R).

Lemma scan_rows_image scan t : scan_rows scan (row <$> t) = row <$> omap (fun k => t !! k) scan.
Proof.
  induction scan as [|k scan IH]; [done|]. unfold scan_rows in *. cbn [omap list_omap]. rewrite lookup_fmap.
  destruct (t !! k); simpl; [by f_equal|done].
Qed.

Lemma image_forallb (q : Row -> bool) t : (forall r, q (row r) = true) -> forallb (fun kr => q kr.2) (map_to_list (row <$> t)) = true.
Proof.
  intros Hq. apply forallb_forall. intros [k r] Hin. apply list_elem_of_In, elem_of_map_to_list, lookup_fmap_Some in Hin as (m & <- & _).
  apply Hq.
Qed.

Lemma image_count (q : Row -> bool) p t :
  (forall r, q (row r) = p r) -> Z.of_nat (size (filter (fun kr => q kr.2 = true) (row <$> t))) = rows_affected p t.
Proof.
  intros Hq. unfold rows_affected, rows_where. f_equal. rewrite <-(map_size_fmap row (filter _ t)). f_equal.
  apply map_eq. intros k. apply option_eq. intros r.
  rewrite map_lookup_filter_Some, !lookup_fmap, !fmap_Some. setoid_rewrite map_lookup_filter_Some. simpl.
  split; [intros [(m & Hm & ->) Hr]|intros (m & [Hm Hr] & ->)]; [rewrite Hq in Hr|rewrite <-Hq in Hr]; eauto.
Qed.

(** An UPDATE whose condition decides [p] and whose assignments compute [f]. *)
Lemma exec_update scan args tbl sets w p f t :
  (forall r, decides (eval_cond (scan_rows scan (row <$> t)) args (row r) w) (p r)) ->
  (forall r, assign args sets (row r) (row r) = Some (row (f r))) ->
  exec_sql scan args (SUpdate tbl sets w) (row <$> t) = Some (rows_affected p t, row <$> sql_update p f t).
Proof.
  intros Hw Hs. unfold exec_sql. set (rows := scan_rows _ _) in *.
  rewrite (image_forallb (fun r => defined (eval_cond rows args r w) && defined (assign args sets r r))).
  2:{ intros r. destruct (Hw r) as [-> _]. by rewrite Hs. }
  rewrite (image_count (fun r => holds (eval_cond rows args r w)) p) by (intros r; apply Hw). f_equal. f_equal.
  unfold sql_update. rewrite <-!map_fmap_compose. apply map_fmap_ext. intros k r _. simpl. destruct (Hw r) as [_ ->].
  destruct (p r); [|done]. by rewrite Hs.
Qed.

Lemma exec_delete scan args tbl w p t :
  (forall r, decides (eval_cond (scan_rows scan (row <$> t)) args (row r) w) (p r)) ->
  exec_sql scan args (SDelete tbl w) (row <$> t) = Some (rows_affected p t, row <$> sql_delete p t).
Proof.
  intros Hw. unfold exec_sql. set (rows := scan_rows _ _) in *.
  rewrite (image_forallb (fun r => defined (eval_cond rows args r w))) by apply Hw.
  rewrite (image_count (fun r => holds (eval_cond rows args r w)) p) by (intros r; apply Hw). f_equal. f_equal.
  unfold sql_delete. apply map_eq. intros k. apply option_eq. intros r.
  rewrite map_lookup_filter_Some, !lookup_fmap, !fmap_Some. setoid_rewrite map_lookup_filter_Some. simpl.
  split; [intros [(m & Hm & ->) Hr]|intros (m & [Hm Hr] & ->)]; destruct (Hw m) as [_ Hh]; rewrite Hh in *; eauto.
Qed.

(** The rows a query finds. *)
Lemma image_hits args w p scan t rows :
  (forall r, decides (eval_cond rows args (row r) w) (p r)) ->
  forallb (fun r' => defined (eval_cond rows args r' w)) (scan_rows scan (row <$> t)) = true
  /\ List.filter (fun r' => holds (eval_cond rows args r' w)) (scan_rows scan (row <$> t)) = row <$> sql_select p scan t.
Proof.
  intros Hw. rewrite scan_rows_image. unfold sql_select. induction (omap _ scan) as [|r l [IH1 IH2]]; [done|].
  rewrite !fmap_cons, filter_cons. simpl. destruct (Hw r) as [-> Hh]. rewrite Hh, IH1, IH2. split; [done|]. by destruct (p r).
Qed.
End Images.

(** ** The claim *)

Lemma row_before_image a b : by_next_attempt a b <-> row_before "next_attempt_at" (message_row a) (message_row b).
Proof. unfold by_next_attempt, row_before, row_le. simpl. unfold sql_le. by rewrite Z.leb_le. Qed.

Lemma sorted_image l : merge_sort (row_before "next_attempt_at") (message_row <$> l) = message_row <$> merge_sort by_next_attempt l.
Proof. symmetry. apply merge_sort_fmap, row_before_image. Qed.

Lemma decides_in_ids id l :
  decides (foldr (fun r acc => lift3 or3 (lift2 sql_eq (Some (VText id)) (column "id" r)) acc) (Some (Some false)) (message_row <$> l))
          (bool_decide (id ∈ m_ID <$> l)).
Proof.
  induction l as [|m l IH]; [done|]. rewrite !fmap_cons. cbn [foldr]. eapply decides_ext.
  - apply decides_or; [simpl; apply decides_text|apply IH].
  - rewrite <-bool_decide_or. apply bool_decide_ext. by rewrite elem_of_cons.
Qed.

(** [id IN (SELECT id ... WHERE w ORDER BY next_attempt_at LIMIT n)] *)
Lemma decides_in_query scan t args tbl w limit n p m :
  (forall m, decides (eval_cond (scan_rows scan (message_row <$> t)) args (message_row m) w) (p m)) ->
  eval_expr args (message_row m) limit = Some (VInt n) ->
  decides (eval_cond (scan_rows scan (message_row <$> t)) args (message_row m) (CInQuery (ECol "id") "id" tbl w "next_attempt_at" limit))
          (bool_decide (m_ID m ∈ m_ID <$> take (Z.to_nat n) (merge_sort by_next_attempt (sql_select p scan t)))).
Proof.
  intros Hw Hn. cbn [eval_cond]. rewrite Hn. destruct (image_hits message_row args w p scan t _ Hw) as [-> ->].
  rewrite sorted_image, <-fmap_take. apply decides_in_ids.
Qed.

Lemma claim_statement d scan owner limit leaseUntil now db :
  run_text d "messages" scan (claim_text d) [VText owner; VTime leaseUntil; VTime now; VTime now; VTime now; VTime now; VInt limit]
    (message_row <$> messages db)
  = Some ((claim_update scan owner limit leaseUntil now db).1,
          message_row <$> messages (claim_update scan owner limit leaseUntil now db).2).
Proof.
  unfold run_text, claim_update, claim_select. cbn [fst snd]. rewrite messages_set_messages.
  destruct d; compiled; apply (exec_update message_row _ _ _ _ _ _ (claim_row owner leaseUntil now)); try done.
  all: intros m; apply decides_in_query; [where_clause|done].
Qed.

(** ** The other statements *)

(** A text that updates or deletes the messages a predicate picks. *)
Ltac statement d :=
  unfold run_text; destruct d; compiled;
  first [ apply (exec_update message_row); [where_clause|intros; reflexivity]
        | apply (exec_delete message_row); where_clause ].

Lemma insert_statement d m t :
  t !! m_ID m = None ->
  run_text d "messages" [] enqueue_text (message_args m) (message_row <$> t) = Some (1, message_row <$> <[m_ID m := m]> t).
Proof.
  intros Hm. unfold run_text. rewrite fmap_insert. destruct d; compiled; cbn; by rewrite lookup_fmap, Hm.
Qed.

Lemma insert_accepted m db : insert_message_error m db = None -> messages db !! m_ID m = None.
Proof.
  unfold insert_message_error. destruct (negb _); [done|]. case_bool_decide as H; [done|]. intros _. by apply eq_None_not_Some.
Qed.

Lemma enqueue_accepted now newID m body db :
  op_accepted (OpEnqueue None now newID m body) db ->
  let m' := enqueue_defaults now newID m in
  (Enqueue None now newID m body db).1 = Ok m' /\ messages (Enqueue None now newID m body db).2 = <[m_ID m' := m']> (messages db).
Proof.
  intros (_ & He & Hb). unfold Enqueue, InTx, exec, enqueueTx. rewrite He. simpl translateError. cbv iota. destruct body as [b|]; [|done].
  destruct Hb as [|Hb]; [done|]. cbn [message_blobs set_messages].
  rewrite Hb. done.
Qed.

Lemma claim_answers scan scan' owner limit leaseFor now db :
  owner <> "" -> limit > 0 ->
  let '(n, db') := claim_update scan owner limit (now + leaseFor) now db in
  ClaimMessages None None scan scan' owner limit leaseFor now db
  = (Ok (if n =? 0 then [] else claim_readback scan' owner (now + leaseFor) db'), db').
Proof.
  intros Ho Hl. unfold ClaimMessages. rewrite bool_decide_eq_false_2 by done. rewrite (proj2 (Z.leb_gt limit 0)) by lia.
  destruct (claim_update _ _ _ _ _ _) as [n db']. by destruct (n =? 0).
Qed.

(** C10: each statement of the queue does, on either engine, what the model of its
    operation says. For every operation the engine executes, running the text
    the code writes, with the arguments it binds, on the rows of the messages
    gives the rows of the messages after the operation, and the number of rows
    the engine reports leads the code to the answer of the model; an operation
    without a statement changes nothing. *)
Theorem queue_statements_do_what_the_model_says d op db :
  op_accepted op db ->
  match op_statement d op with
  | None => step_op op db = db
  | Some (text, args) =>
      exists n, run_text d "messages" (op_scan op) text args (message_row <$> messages db) = Some (n, message_row <$> messages (step_op op db))
                /\ op_answers op n db
  end.
Proof.
  destruct op; cbn [op_statement op_accepted op_answers step_op op_scan]; intros Hok.
  { destruct Hok as [-> Hok]. destruct (enqueue_accepted now newID m body db) as [H1 H2]; [by split|].
    eexists. rewrite H2. split; [apply insert_statement, insert_accepted, Hok|done]. }
  { subst. case_bool_decide as Ho; [unfold ClaimMessages; by rewrite bool_decide_eq_true_2|].
    destruct (limit <=? 0) eqn:Hl; [unfold ClaimMessages; by rewrite bool_decide_eq_false_2, Hl|].
    pose proof (fun scan' => claim_answers scan scan' owner limit leaseFor now db Ho ltac:(lia)) as Hc.
    pose proof (claim_statement d scan owner limit (now + leaseFor) now db) as Hs.
    destruct (claim_update _ _ _ _ _ _) as [n db']. exists n. split; [by rewrite Hc|]. intros scan'. by rewrite !Hc. }
  all: subst; eexists; split; [|try intros io_get; reflexivity].
  all: unfold ExtendLease, MarkSent, Defer, Fail, Requeue, Hold, Delete, ReleaseExpiredLeases, Purge, update_owned, delete_messages, exec.
  all: cbn [fst snd]; rewrite ?messages_set_messages.
  all: statement d.
Qed.

(** ** Reading *)

(** Recipients that are text: what a JSON array holds without loss. *)
Definition text_recipients (m : Message) : Prop := Forall (fun s => valid_utf8 s = true) (m_Recipients m).

Definition scans (scan : list string) {R} (t : gmap string R) : Prop := NoDup scan /\ forall k, k ∈ scan <-> is_Some (t !! k).

Lemma scan_null_text_of o : scan_null_text (null_text o) = Some o.
Proof. by destruct o. Qed.
Lemma scan_null_time_of o : scan_null_time (null_time o) = Some o.
Proof. by destruct o. Qed.
Lemma scan_status_of st : scan_status (VText (status_text st)) = Some st.
Proof. by destruct st. Qed.

(** What [scanMessage] finds in the row of a message is the message. *)
Lemma scan_row m : text_recipients m -> scanMessage (message_args m) = Some m.
Proof.
  intros Hm. unfold scanMessage, message_args. rewrite !scan_null_text_of, !scan_null_time_of, scan_status_of. simpl.
  rewrite (proj2 (list_column_roundtrip (m_Recipients m)) Hm). by destruct m.
Qed.

Lemma scan_all l : Forall text_recipients l -> mapM scanMessage (message_args <$> l) = Some l.
Proof. intros Hl. apply mapM_Some. induction Hl as [|m l Hm Hl IH]; constructor; [by apply scan_row|done]. Qed.

Lemma select_row m : select_columns message_columns (message_row m) = Some (message_args m).
Proof. reflexivity. Qed.

Lemma select_rows l : mapM (select_columns message_columns) (message_row <$> l) = Some (message_args <$> l).
Proof. apply mapM_Some. induction l; constructor; [apply select_row|done]. Qed.

Lemma query_image scan args tbl w p t order :
  (forall m, decides (eval_cond (scan_rows scan (message_row <$> t)) args (message_row m) w) (p m)) ->
  query_sql scan args (SSelect message_columns tbl w (if order : bool then Some "next_attempt_at" else None)) (message_row <$> t)
  = Some (message_args <$> (if order then merge_sort by_next_attempt (sql_select p scan t) else sql_select p scan t)).
Proof.
  intros Hw. unfold query_sql. destruct (image_hits message_row args w p scan t _ Hw) as [-> ->].
  destruct order; [rewrite sorted_image|]; apply select_rows.
Qed.

Lemma readback_query d scan owner leaseUntil db :
  query_text d "messages" scan readback_text [VText owner; VTime leaseUntil] (message_row <$> messages db)
  = Some (message_args <$> claim_readback scan owner leaseUntil db).
Proof. unfold query_text, claim_readback. destruct d; compiled; apply (query_image _ _ _ _ _ _ true); where_clause. Qed.

Lemma get_query d scan id t :
  query_text d "messages" scan get_text [VText id] (message_row <$> t) = Some (message_args <$> sql_select (fun m => bool_decide (m_ID m = id)) scan t).
Proof. unfold query_text. destruct d; compiled; apply (query_image _ _ _ _ _ _ false); where_clause. Qed.

(** The primary key picks one row. *)
Lemma select_by_key {R} (id_of : R -> string) scan (t : gmap string R) id :
  scans scan t -> (forall k r, t !! k = Some r -> id_of r = k) ->
  sql_select (fun r => bool_decide (id_of r = id)) scan t = match t !! id with Some r => [r] | None => [] end.
Proof.
  intros [Hnd Hscan] Hkey. unfold sql_select.
  assert (forall l, id ∉ l -> base.filter (fun r => bool_decide (id_of r = id) = true) (omap (fun k => t !! k) l) = []) as Hnone.
  { intros l Hni. apply elem_of_nil_inv. intros r [Hd (k & Hk & Hl)%list_elem_of_omap]%list_elem_of_filter.
    apply bool_decide_eq_true in Hd. rewrite (Hkey k r Hl) in Hd. by subst. }
  destruct (t !! id) as [r|] eqn:E; [|apply Hnone; rewrite Hscan, E; by intros []].
  assert (id ∈ scan) as Hin by (apply Hscan; eauto). apply list_elem_of_split in Hin as (l1 & l2 & ->).
  apply NoDup_app in Hnd as (_ & Hd & [Hd2 _]%NoDup_cons).
  rewrite omap_app, filter_app. cbn. rewrite E. cbn. rewrite !Hnone; [|set_solver..].
  rewrite decide_True; [done|]. by rewrite (Hkey _ _ E), bool_decide_eq_true_2.
Qed.

Lemma claimed_text_recipients scan' owner leaseUntil db :
  map_Forall (fun _ => text_recipients) (messages db) -> Forall text_recipients (claim_readback scan' owner leaseUntil db).
Proof.
  intros Hv. apply Forall_forall. intros m Hm. unfold claim_readback in Hm. rewrite merge_sort_Permutation in Hm.
  apply elem_of_sql_select in Hm as (_ & k & _ & Hk). by apply (Hv k).
Qed.

Lemma claim_keeps_recipients scan owner limit leaseUntil now db :
  map_Forall (fun _ => text_recipients) (messages db) ->
  map_Forall (fun _ => text_recipients) (messages (claim_update scan owner limit leaseUntil now db).2).
Proof.
  intros Hv k m. unfold claim_update. cbn [snd]. rewrite messages_set_messages, lookup_sql_update.
  intros (m0 & Hm0 & ->)%fmap_Some. case_bool_decide; exact (Hv k m0 Hm0).
Qed.

(** C12: what the queue stores is what it reads back. On rows that hold messages
    under their IDs, [Get] finds by its text, and [scanMessage] rebuilds, the
    message of the ID or reports that there is none, whichever order the engine
    visits the rows in; and the whole of [ClaimMessages], its two texts and the
    scan of the rows, gives the messages and leaves the rows the model has. The
    recipients are text, as every address the listener accepts is: JSON keeps
    no other bytes. *)
Theorem messages_are_read_back d scan db :
  (forall k m, messages db !! k = Some m -> m_ID m = k) ->
  map_Forall (fun _ => text_recipients) (messages db) ->
  scans scan (messages db) ->
  (forall id, Get_text d scan id (message_row <$> messages db) = Some (Get None id db))
  /\ (forall scan1 scan2 owner limit leaseFor now,
        let '(r, db') := ClaimMessages None None scan1 scan2 owner limit leaseFor now db in
        ClaimMessages_text d scan1 scan2 owner limit leaseFor now (message_row <$> messages db) = Some (r, message_row <$> messages db')).
Proof.
  intros Hkey Hv Hscan. split.
  - intros id. unfold Get_text, Get. rewrite get_query, (select_by_key m_ID scan _ id Hscan Hkey).
    destruct (messages db !! id) as [m|] eqn:E; [|done]. cbn [fmap list_fmap]. by rewrite scan_row by (by apply (Hv id)).
  - intros scan1 scan2 owner limit leaseFor now. unfold ClaimMessages_text. case_bool_decide as Ho; [unfold ClaimMessages; by rewrite bool_decide_eq_true_2|].
    destruct (limit <=? 0) eqn:Hl; [unfold ClaimMessages; by rewrite bool_decide_eq_false_2, Hl|].
    pose proof (claim_answers scan1 scan2 owner limit leaseFor now db Ho ltac:(lia)) as Hc.
    pose proof (claim_keeps_recipients scan1 owner limit (now + leaseFor) now db Hv) as Hr.
    rewrite claim_statement. destruct (claim_update _ _ _ _ _ _) as [n db']. rewrite Hc. cbn.
    destruct (n =? 0); [done|]. rewrite readback_query. cbn [mbind option_bind]. by rewrite scan_all by (by apply claimed_text_recipients).
Qed.

(** *** Witnesses *)

Definition sample_message : Message :=
  mkMessage "smtp" "m1" None None "printer" "a@example.com" "a@example.com" "a@example.com" ["b@example.com"; "c@example.com"] 2 10 "hello" "<1@x>"
    StatusQueued 0 100 None None "" "" false "10.0.0.1" "" 90 None 90.

Definition sample_db : DB := set_messages {["m1" := sample_message]} empty_DB.

Lemma queue_statements_do_what_the_model_says_witness :
  exists n,
    run_text postgresDialect "messages" ["m1"] (claim_text postgresDialect)
      [VText "w"; VTime 260; VTime 200; VTime 200; VTime 200; VTime 200; VInt 5] (message_row <$> messages sample_db)
    = Some (n, message_row <$> messages (step_op (OpClaim None 200 ["m1"] "w" 5 60) sample_db))
    /\ op_answers (OpClaim None 200 ["m1"] "w" 5 60) n sample_db.
Proof. exact (queue_statements_do_what_the_model_says postgresDialect (OpClaim None 200 ["m1"] "w" 5 60) sample_db eq_refl). Defined.

Lemma sample_rows k m : messages sample_db !! k = Some m -> k = "m1" /\ m = sample_message.
Proof. unfold sample_db. rewrite messages_set_messages. intros [-> ->]%lookup_singleton_Some. done. Qed.

Lemma sample_keys k m : messages sample_db !! k = Some m -> m_ID m = k.
Proof. by intros [-> ->]%sample_rows. Qed.

Lemma sample_text : map_Forall (fun _ => text_recipients) (messages sample_db).
Proof. intros k m [-> ->]%sample_rows. repeat constructor. Qed.

Lemma sample_scans : scans ["m1"] (messages sample_db).
Proof.
  split; [apply NoDup_singleton|]. intros k. rewrite list_elem_of_singleton. unfold sample_db. rewrite messages_set_messages.
  split; [intros ->; rewrite lookup_singleton_eq; eauto|]. by intros [m [-> _]%lookup_singleton_Some].
Qed.

Lemma messages_are_read_back_witness :
  Get_text sqliteDialect ["m1"] "m1" (message_row <$> messages sample_db) = Some (Get None "m1" sample_db)
  /\ Get_text sqliteDialect ["m1"] "m2" (message_row <$> messages sample_db) = Some (Get None "m2" sample_db).
Proof.
  pose proof (messages_are_read_back sqliteDialect ["m1"] sample_db sample_keys sample_text sample_scans) as [H _].
  split; apply H.
Defined.

(** The claim takes the sample message and counts it. *)
Example claim_sample :
  option_map fst (run_text sqliteDialect "messages" ["m1"] (claim_text sqliteDialect)
    [VText "w"; VTime 260; VTime 200; VTime 200; VTime 200; VTime 200; VInt 5] (message_row <$> messages sample_db)) = Some 1.
Proof. vm_compute. reflexivity. Qed.
