(* ===== verification/Repositories.v ===== *)
(** * The statements of the other repositories, executed

    [internal/store/{credentials,mailboxes,accounts,users,sessions}.go]: the
    columns, the texts of the writes and of the lookups by ID, and the scans.
    A type class says what a repository's texts have to be for its records to
    be stored, found and deleted by their ID; each repository is an instance,
    and every write of the repositories is shown to do what [Directory] and
    [AdminStore] say, on either engine. *)

From stdpp Require Import base gmap strings list sorting.
From Stdlib Require Import ZArith Lia Ascii.
From S2P Require Import Prelude GoStrings GoStringsFacts Utf8 StoreModels MessageStore MessageQueue Directory DirectoryProps AdminStore AdminStoreProps AdminAuth Sql AuditLog.
From S2P Require Import MessageList JsonList SqlText Statements DirectoryApi.

Open Scope Z_scope.

(** ** Values *)

Definition null_int (o : option Z) : SqlValue := match o with Some n => VInt n | None => VNull end.
Definition scan_null_int (v : SqlValue) : option (option Z) :=
  match v with VInt n => Some (Some n) | VNull => Some None | _ => None end.

Definition managed_by_text (x : ManagedBy) : string :=
  match x with ManagedByUI => "ui" | ManagedByBootstrap => "bootstrap" | ManagedByOther s => s end.
Definition managed_by_of (s : string) : ManagedBy :=
  if bool_decide (s = "ui") then ManagedByUI else if bool_decide (s = "bootstrap") then ManagedByBootstrap else ManagedByOther s.

(** ** Columns, arguments and scans *)

Definition credentialColumns : string :=
"
	id, name, tenant_id, client_id, auth_type,
	client_secret_enc, certificate_pem, certificate_key_enc, certificate_thumbprint,
	authority_host, expires_at, managed_by, created_at, updated_at".

Definition credential_values (c : OAuthCredential) : list SqlValue :=
  [VText (cred_ID c); VText (cred_Name c); VText (cred_TenantID c); VText (cred_ClientID c); VText (auth_type_text (cred_AuthType c));
   VText (cred_ClientSecretEnc c); VText (cred_CertificatePEM c); VText (cred_CertificateKeyEnc c); VText (cred_CertificateThumbprint c);
   VText (cred_AuthorityHost c); null_time (cred_ExpiresAt c); VText (managed_by_text (cred_ManagedBy c)); VTime (cred_CreatedAt c);
   VTime (cred_UpdatedAt c)].

Definition scanCredential (row : list SqlValue) : option OAuthCredential :=
  match row with
  | [id; nm; tenant; client; auth; secret; pem; key; thumb; host; expires; managed; created; updated] =>
      id ← scan_text id; nm ← scan_text nm; tenant ← scan_text tenant; client ← scan_text client; auth ← scan_text auth;
      secret ← scan_text secret; pem ← scan_text pem; key ← scan_text key; thumb ← scan_text thumb; host ← scan_text host;
      expires ← scan_null_time expires; managed ← scan_text managed; created ← scan_time created; updated ← scan_time updated;
      Some (mkOAuthCredential id nm tenant client (auth_type_of auth) secret pem key thumb host expires (managed_by_of managed) created updated)
  | _ => None
  end.

Definition mailboxColumns : string :=
"
	id, address, display_name, oauth_credential_id, transport,
	rate_limit_per_min, max_concurrent, enabled, managed_by, created_at, updated_at".

Definition mailbox_values (m : Mailbox) : list SqlValue :=
  [VText (mb_ID m); VText (mb_Address m); VText (mb_DisplayName m); VText (mb_OAuthCredentialID m); VText (transport_text (mb_Transport m));
   null_int (mb_RateLimitPerMin m); null_int (mb_MaxConcurrent m); VBool (mb_Enabled m); VText (managed_by_text (mb_ManagedBy m));
   VTime (mb_CreatedAt m); VTime (mb_UpdatedAt m)].

Definition scanMailbox (row : list SqlValue) : option Mailbox :=
  match row with
  | [id; addr; display; cred; tr; rate; conc; enabled; managed; created; updated] =>
      id ← scan_text id; addr ← scan_text addr; display ← scan_text display; cred ← scan_text cred; tr ← scan_text tr;
      rate ← scan_null_int rate; conc ← scan_null_int conc; enabled ← scan_bool enabled; managed ← scan_text managed;
      created ← scan_time created; updated ← scan_time updated;
      Some (mkMailbox id addr display cred (transport_of tr) rate conc enabled (managed_by_of managed) created updated)
  | _ => None
  end.

Definition accountColumns : string :=
"
	id, username, password_hash, description, default_mailbox_id, from_policy,
	allow_cidrs, rate_limit_per_min, enabled, last_used_at, managed_by,
	created_at, updated_at".

Definition account_values (a : SMTPAccount) : list SqlValue :=
  [VText (acc_ID a); VText (acc_Username a); VText (acc_PasswordHash a); VText (acc_Description a); null_text (acc_DefaultMailboxID a);
   VText (from_policy_text (acc_FromPolicy a)); VText (marshal_list (acc_AllowCIDRs a)); null_int (acc_RateLimitPerMin a);
   VBool (acc_Enabled a); null_time (acc_LastUsedAt a); VText (managed_by_text (acc_ManagedBy a)); VTime (acc_CreatedAt a);
   VTime (acc_UpdatedAt a)].

Definition scanAccount (row : list SqlValue) : option SMTPAccount :=
  match row with
  | [id; user; hash; desc; mbox; policy; cidrs; rate; enabled; used; managed; created; updated] =>
      id ← scan_text id; user ← scan_text user; hash ← scan_text hash; desc ← scan_text desc; mbox ← scan_null_text mbox;
      policy ← scan_text policy; cidrs ← scan_text cidrs; rate ← scan_null_int rate; enabled ← scan_bool enabled;
      used ← scan_null_time used; managed ← scan_text managed; created ← scan_time created; updated ← scan_time updated;
      match unmarshalList cidrs with
      | Ok l => Some (mkSMTPAccount id user hash desc mbox (from_policy_of policy) l rate enabled used (managed_by_of managed) created updated)
      | Err _ => None
      end
  | _ => None
  end.

Definition userColumns : string :=
"
	id, username, email, display_name, password_hash, role, source, subject,
	totp_secret_enc, totp_enrolled_at, disabled, failed_logins, locked_until,
	last_login_at, created_at, updated_at".

Definition user_values (u : AdminUser) : list SqlValue :=
  [VText (u_ID u); VText (u_Username u); VText (u_Email u); VText (u_DisplayName u); null_text (u_PasswordHash u);
   VText (role_string (u_Role u)); VText (u_Source u); null_text (u_Subject u); VText (u_TOTPSecretEnc u); null_time (u_TOTPEnrolledAt u);
   VBool (u_Disabled u); VInt (u_FailedLogins u); null_time (u_LockedUntil u); null_time (u_LastLoginAt u); VTime (u_CreatedAt u);
   VTime (u_UpdatedAt u)].

Definition scanUser (row : list SqlValue) : option AdminUser :=
  match row with
  | [id; user; email; display; hash; role; source; subject; totp; enrolled; disabled; failed; locked; login; created; updated] =>
      id ← scan_text id; user ← scan_text user; email ← scan_text email; display ← scan_text display; hash ← scan_null_text hash;
      role ← scan_text role; source ← scan_text source; subject ← scan_null_text subject; totp ← scan_text totp;
      enrolled ← scan_null_time enrolled; disabled ← scan_bool disabled; failed ← scan_int failed; locked ← scan_null_time locked;
      login ← scan_null_time login; created ← scan_time created; updated ← scan_time updated;
      Some (mkAdminUser id user email display hash (role_of_string role) source subject totp enrolled disabled failed locked login created updated)
  | _ => None
  end.

Definition sessionColumns : string :=
"
	id, user_id, token_hash, csrf_token, ip, user_agent,
	created_at, last_seen_at, expires_at".

Definition session_values (s : Session) : list SqlValue :=
  [VText (s_ID s); VText (s_UserID s); VText (s_TokenHash s); VText (s_CSRFToken s); VText (s_IP s); VText (s_UserAgent s);
   VTime (s_CreatedAt s); VTime (s_LastSeenAt s); VTime (s_ExpiresAt s)].

Definition scanSession (row : list SqlValue) : option Session :=
  match row with
  | [id; user; hash; csrf; ip; agent; created; seen; expires] =>
      id ← scan_text id; user ← scan_text user; hash ← scan_text hash; csrf ← scan_text csrf; ip ← scan_text ip; agent ← scan_text agent;
      created ← scan_time created; seen ← scan_time seen; expires ← scan_time expires;
      Some (mkAdminSession id user hash csrf ip agent created seen expires)
  | _ => None
  end.

(** [prefixColumns] *)
Definition prefixColumns (alias columns : string) : string :=
  String.concat ", " ((fun part => alias +:+ "." +:+ part) <$> splitColumns columns).

(** ** Statements *)

Definition credential_insert_text : string :=
"
		INSERT INTO oauth_credentials (" +:+ credentialColumns +:+ ")
		VALUES (?, ?, ?, ?, ?, ?, ?, ?, ?, ?, ?, ?, ?, ?)".
Definition credential_get_text : string := "SELECT " +:+ credentialColumns +:+ " FROM oauth_credentials WHERE id = ?".
Definition credential_update_text : string :=
"
		UPDATE oauth_credentials SET
			name = ?, tenant_id = ?, client_id = ?, auth_type = ?,
			client_secret_enc = ?, certificate_pem = ?, certificate_key_enc = ?,
			certificate_thumbprint = ?, authority_host = ?, expires_at = ?,
			managed_by = ?, updated_at = ?
		WHERE id = ?".
Definition credential_delete_text : string := "DELETE FROM oauth_credentials WHERE id = ?".

Definition credential_update_args (now : Z) (c : OAuthCredential) : list SqlValue :=
  [VText (cred_Name c); VText (cred_TenantID c); VText (cred_ClientID c); VText (auth_type_text (cred_AuthType c));
   VText (cred_ClientSecretEnc c); VText (cred_CertificatePEM c); VText (cred_CertificateKeyEnc c);
   VText (cred_CertificateThumbprint c); VText (cred_AuthorityHost c); null_time (cred_ExpiresAt c);
   VText (managed_by_text (cred_ManagedBy c)); VTime now; VText (cred_ID c)].

Definition mailbox_insert_text : string :=
"
		INSERT INTO mailboxes (" +:+ mailboxColumns +:+ ")
		VALUES (?, ?, ?, ?, ?, ?, ?, ?, ?, ?, ?)".
Definition mailbox_get_text : string := "SELECT " +:+ mailboxColumns +:+ " FROM mailboxes WHERE id = ?".
Definition mailbox_update_text : string :=
"
		UPDATE mailboxes SET
			address = ?, display_name = ?, oauth_credential_id = ?, transport = ?,
			rate_limit_per_min = ?, max_concurrent = ?, enabled = ?,
			managed_by = ?, updated_at = ?
		WHERE id = ?".
Definition mailbox_delete_text : string := "DELETE FROM mailboxes WHERE id = ?".

Definition mailbox_update_args (now : Z) (m : Mailbox) : list SqlValue :=
  [VText (mb_Address m); VText (mb_DisplayName m); VText (mb_OAuthCredentialID m); VText (transport_text (mb_Transport m));
   null_int (mb_RateLimitPerMin m); null_int (mb_MaxConcurrent m); VBool (mb_Enabled m); VText (managed_by_text (mb_ManagedBy m));
   VTime now; VText (mb_ID m)].

Definition account_insert_text : string :=
"
		INSERT INTO smtp_accounts (" +:+ accountColumns +:+ ")
		VALUES (?, ?, ?, ?, ?, ?, ?, ?, ?, ?, ?, ?, ?)".
Definition account_get_text : string := "SELECT " +:+ accountColumns +:+ " FROM smtp_accounts WHERE id = ?".
Definition account_update_text : string :=
"
		UPDATE smtp_accounts SET
			username = ?, password_hash = ?, description = ?, default_mailbox_id = ?,
			from_policy = ?, allow_cidrs = ?, rate_limit_per_min = ?, enabled = ?,
			managed_by = ?, updated_at = ?
		WHERE id = ?".
Definition account_delete_text : string := "DELETE FROM smtp_accounts WHERE id = ?".
Definition account_touch_text : string := "UPDATE smtp_accounts SET last_used_at = ? WHERE id = ?".

Definition account_update_args (now : Z) (a : SMTPAccount) : list SqlValue :=
  [VText (acc_Username a); VText (acc_PasswordHash a); VText (acc_Description a); null_text (acc_DefaultMailboxID a);
   VText (from_policy_text (acc_FromPolicy a)); VText (marshal_list (acc_AllowCIDRs a)); null_int (acc_RateLimitPerMin a);
   VBool (acc_Enabled a); VText (managed_by_text (acc_ManagedBy a)); VTime now; VText (acc_ID a)].

Definition user_insert_text : string :=
"
		INSERT INTO admin_users (" +:+ userColumns +:+ ")
		VALUES (?, ?, ?, ?, ?, ?, ?, ?, ?, ?, ?, ?, ?, ?, ?, ?)".
Definition user_get_text : string := "SELECT " +:+ userColumns +:+ " FROM admin_users WHERE id = ?".
Definition user_update_text : string :=
"
		UPDATE admin_users SET
			username = ?, email = ?, display_name = ?, password_hash = ?, role = ?,
			source = ?, subject = ?, totp_secret_enc = ?, totp_enrolled_at = ?,
			disabled = ?, updated_at = ?
		WHERE id = ?".
Definition user_delete_text : string := "DELETE FROM admin_users WHERE id = ?".
Definition user_login_text : string :=
"
		UPDATE admin_users SET
			failed_logins = 0, locked_until = NULL, last_login_at = ?, updated_at = ?
		WHERE id = ?".

Definition user_update_args (now : Z) (u : AdminUser) : list SqlValue :=
  [VText (u_Username u); VText (u_Email u); VText (u_DisplayName u); null_text (u_PasswordHash u); VText (role_string (u_Role u));
   VText (u_Source u); null_text (u_Subject u); VText (u_TOTPSecretEnc u); null_time (u_TOTPEnrolledAt u);
   VBool (u_Disabled u); VTime now; VText (u_ID u)].

Definition session_insert_text : string :=
"
		INSERT INTO admin_sessions (" +:+ sessionColumns +:+ ")
		VALUES (?, ?, ?, ?, ?, ?, ?, ?, ?)".
Definition session_touch_text : string := "UPDATE admin_sessions SET last_seen_at = ? WHERE id = ?".
Definition session_delete_text : string := "DELETE FROM admin_sessions WHERE id = ?".
Definition session_delete_for_user_text : string := "DELETE FROM admin_sessions WHERE user_id = ?".
Definition session_purge_text : string := "DELETE FROM admin_sessions WHERE expires_at < ?".

(** ** Repositories *)

(** A record type with its table: the columns, the values a record has in
    them, and the scan that rebuilds it. [st_wf]: its values are ones the
    columns give back, which the CHECK clauses of the enumerations see to. *)
Class Stored (R : Type) := {
  st_table : string;
  st_id : R -> string;
  st_columns : list string;
  st_values : R -> list SqlValue;
  st_scan : list SqlValue -> option R;
  st_wf : R -> Prop;
  st_insert : string;
  st_delete : string
}.

Definition row_of {R} `{Stored R} (r : R) : Row := zip st_columns (st_values r).

(** What the texts of a repository have to be. *)
Class StoredLaws (R : Type) `{Stored R} : Prop := {
  st_insert_compiles d : compile d st_table st_insert = Some (SInsert st_table st_columns (EParam <$> seq 0 (length st_columns)));
  st_delete_compiles d : compile d st_table st_delete = Some (SDelete st_table (CEq (ECol "id") (EParam 0)));
  st_values_length r : length (st_values r) = length st_columns;
  st_select r : select_columns st_columns (row_of r) = Some (st_values r);
  st_id_column r : column "id" (row_of r) = Some (VText (st_id r));
  st_scan_values r : st_wf r -> st_scan (st_values r) = Some r
}.

(** The lookup by ID and the update of a record. *)
Class Fetched (R : Type) `{Stored R} := { st_get : string; st_update : string; st_update_args : Z -> R -> list SqlValue; st_set : Z -> R -> R -> R }.

Class FetchedLaws (R : Type) `{Fetched R} : Prop := {
  st_get_compiles d : compile d st_table st_get = Some (SSelect st_columns st_table (CEq (ECol "id") (EParam 0)) None);
  st_update_compiles d : exists sets k,
    compile d st_table st_update = Some (SUpdate st_table sets (CEq (ECol "id") (EParam k)))
    /\ forall now r, st_update_args now r !! k = Some (VText (st_id r))
       /\ forall old, assign (st_update_args now r) sets (row_of old) (row_of old) = Some (row_of (st_set now r old))
}.

Section Repository.
Context {R : Type} `{SL : StoredLaws R}.
Implicit Types (t : gmap string R) (r : R).

Definition has_id (id : string) (r : R) : bool := bool_decide (st_id r = id).

Lemma decides_id rows args k id r :
  args !! k = Some (VText id) -> decides (eval_cond rows args (row_of r) (CEq (ECol "id") (EParam k))) (has_id id r).
Proof. intros Hk. cbn [eval_cond eval_expr]. rewrite st_id_column, Hk. apply decides_text. Qed.

Lemma params_of (args : list SqlValue) : mapM (eval_expr args []) (EParam <$> seq 0 (length args)) = Some args.
Proof.
  apply mapM_Some, Forall2_same_length_lookup. split; [by rewrite length_fmap, length_seq|].
  intros i e v He Hv. rewrite list_lookup_fmap in He. apply fmap_Some in He as (j & Hj & ->). apply lookup_seq in Hj as [-> _]. done.
Qed.

Lemma insert_stored d r t :
  t !! st_id r = None ->
  run_text d st_table [] st_insert (st_values r) (row_of <$> t) = Some (1, row_of <$> <[st_id r := r]> t).
Proof.
  intros Hr. unfold run_text. rewrite (st_insert_compiles d). cbn [exec_sql]. unfold insert_row.
  rewrite length_fmap, length_seq, Nat.eqb_refl, <-(st_values_length r), (params_of (st_values r)). cbn [fmap option_fmap option_map].
  change (zip st_columns (st_values r)) with (row_of r). by rewrite st_id_column, lookup_fmap, Hr, fmap_insert.
Qed.

Lemma delete_stored d id t :
  run_text d st_table [] st_delete [VText id] (row_of <$> t) = Some (rows_affected (has_id id) t, row_of <$> sql_delete (has_id id) t).
Proof.
  unfold run_text. rewrite (st_delete_compiles d). apply (exec_delete row_of). intros r. by apply decides_id.
Qed.

Context `{!Fetched R} `{!FetchedLaws R}.

Lemma update_stored d now r t :
  run_text d st_table [] st_update (st_update_args now r) (row_of <$> t)
  = Some (rows_affected (has_id (st_id r)) t, row_of <$> sql_update (has_id (st_id r)) (st_set now r) t).
Proof.
  unfold run_text. destruct (st_update_compiles d) as (sets & k & -> & Hu). destruct (Hu now r) as [Hk Hs].
  apply (exec_update row_of); [|done]. intros old. by apply decides_id.
Qed.

(** The lookup by ID: the scan of the first row the query finds. *)
Definition fetch (d : Dialect) (scan : list string) (id : string) (t : gmap string Row) : option (option R) :=
  rows ← query_text d st_table scan st_get [VText id] t;
  match rows with [] => Some None | row :: _ => r ← st_scan row; Some (Some r) end.

Lemma fetch_stored d scan id t :
  scans scan t -> (forall k r, t !! k = Some r -> st_id r = k /\ st_wf r) -> fetch d scan id (row_of <$> t) = Some (t !! id).
Proof.
  intros Hscan Hwf. unfold fetch, query_text. rewrite (st_get_compiles d). unfold query_sql.
  destruct (image_hits row_of [VText id] (CEq (ECol "id") (EParam 0)) (has_id id) scan t (scan_rows scan (row_of <$> t))) as [-> ->].
  { intros r. by apply decides_id. }
  unfold has_id. rewrite (select_by_key st_id scan t id Hscan) by (intros k r Hk; by apply (Hwf k r Hk)).
  destruct (t !! id) as [r|] eqn:E; [|done]. cbn. rewrite st_select. cbn. rewrite st_scan_values; [done|by apply (Hwf id r)].
Qed.
End Repository.

(** ** The repositories are instances *)

Definition text_list (l : list string) : Prop := Forall (fun s => valid_utf8 s = true) l.

Definition credential_columns : list string := Eval vm_compute in splitColumns credentialColumns.
Definition mailbox_columns : list string := Eval vm_compute in splitColumns mailboxColumns.
Definition account_columns : list string := Eval vm_compute in splitColumns accountColumns.
Definition user_columns : list string := Eval vm_compute in splitColumns userColumns.
Definition session_columns : list string := Eval vm_compute in splitColumns sessionColumns.

#[export] Instance credential_stored : Stored OAuthCredential := {
  st_table := "oauth_credentials"; st_id := cred_ID; st_columns := credential_columns; st_values := credential_values;
  st_scan := scanCredential; st_insert := credential_insert_text; st_delete := credential_delete_text;
  st_wf c := known_auth_type (cred_AuthType c) = true /\ known_managed_by (cred_ManagedBy c) = true }.
#[export] Instance credential_fetched : Fetched OAuthCredential := {
  st_get := credential_get_text; st_update := credential_update_text; st_update_args := credential_update_args; st_set := credential_set }.

#[export] Instance mailbox_stored : Stored Mailbox := {
  st_table := "mailboxes"; st_id := mb_ID; st_columns := mailbox_columns; st_values := mailbox_values;
  st_scan := scanMailbox; st_insert := mailbox_insert_text; st_delete := mailbox_delete_text;
  st_wf m := known_transport (mb_Transport m) = true /\ known_managed_by (mb_ManagedBy m) = true }.
#[export] Instance mailbox_fetched : Fetched Mailbox := {
  st_get := mailbox_get_text; st_update := mailbox_update_text; st_update_args := mailbox_update_args; st_set := mailbox_set }.

#[export] Instance account_stored : Stored SMTPAccount := {
  st_table := "smtp_accounts"; st_id := acc_ID; st_columns := account_columns; st_values := account_values;
  st_scan := scanAccount; st_insert := account_insert_text; st_delete := account_delete_text;
  st_wf a := known_from_policy (acc_FromPolicy a) = true /\ known_managed_by (acc_ManagedBy a) = true /\ text_list (acc_AllowCIDRs a) }.
#[export] Instance account_fetched : Fetched SMTPAccount := {
  st_get := account_get_text; st_update := account_update_text; st_update_args := account_update_args; st_set := account_set }.

#[export] Instance user_stored : Stored AdminUser := {
  st_table := "admin_users"; st_id := u_ID; st_columns := user_columns; st_values := user_values;
  st_scan := scanUser; st_insert := user_insert_text; st_delete := user_delete_text;
  st_wf u := known_role (u_Role u) = true }.
#[export] Instance user_fetched : Fetched AdminUser := {
  st_get := user_get_text; st_update := user_update_text; st_update_args := user_update_args; st_set := user_set }.

#[export] Instance session_stored : Stored Session := {
  st_table := "admin_sessions"; st_id := s_ID; st_columns := session_columns; st_values := session_values;
  st_scan := scanSession; st_insert := session_insert_text; st_delete := session_delete_text; st_wf _ := True }.

Arguments null_int : simpl never.

Lemma scan_null_int_of o : scan_null_int (null_int o) = Some o.
Proof. by destruct o. Qed.
Lemma managed_by_known x : known_managed_by x = true -> managed_by_of (managed_by_text x) = x.
Proof. by destruct x. Qed.
Lemma auth_type_known x : known_auth_type x = true -> auth_type_of (auth_type_text x) = x.
Proof. by destruct x. Qed.
Lemma transport_known x : known_transport x = true -> transport_of (transport_text x) = x.
Proof. by destruct x. Qed.
Lemma from_policy_known x : known_from_policy x = true -> from_policy_of (from_policy_text x) = x.
Proof. by destruct x. Qed.
Lemma role_known x : known_role x = true -> role_of_string (role_string x) = x.
Proof. by destruct x. Qed.

(** A text of a repository compiles to the statement its law names. *)
Ltac law_compiles := intros []; vm_compute; reflexivity.
Ltac law_updates := intros []; do 2 eexists; (split; [vm_compute; reflexivity|]); intros; (split; [reflexivity|]); intros; reflexivity.
Ltac nullable := rewrite ?scan_null_text_of, ?scan_null_time_of, ?scan_null_int_of; simpl.

#[export] Instance credential_laws : StoredLaws OAuthCredential.
Proof.
  split; [law_compiles|law_compiles|done|done|done|]. intros c [Ha Hm]. simpl. unfold scanCredential, credential_values. nullable.
  rewrite auth_type_known, managed_by_known by done. by destruct c.
Qed.
#[export] Instance mailbox_laws : StoredLaws Mailbox.
Proof.
  split; [law_compiles|law_compiles|done|done|done|]. intros m [Ht Hm]. simpl. unfold scanMailbox, mailbox_values. nullable.
  rewrite transport_known, managed_by_known by done. by destruct m.
Qed.
#[export] Instance account_laws : StoredLaws SMTPAccount.
Proof.
  split; [law_compiles|law_compiles|done|done|done|]. intros a (Hp & Hm & Hl). simpl. unfold scanAccount, account_values. nullable.
  rewrite (proj2 (list_column_roundtrip (acc_AllowCIDRs a)) Hl), from_policy_known, managed_by_known by done. by destruct a.
Qed.
#[export] Instance user_laws : StoredLaws AdminUser.
Proof.
  split; [law_compiles|law_compiles|done|done|done|]. intros u Hr. simpl. unfold scanUser, user_values. nullable.
  rewrite role_known by done. by destruct u.
Qed.
#[export] Instance session_laws : StoredLaws Session.
Proof. split; [law_compiles|law_compiles|done|done|done|]. intros s _. by destruct s. Qed.

#[export] Instance credential_fetched_laws : FetchedLaws OAuthCredential.
Proof. split; [law_compiles|law_updates]. Qed.
#[export] Instance mailbox_fetched_laws : FetchedLaws Mailbox.
Proof. split; [law_compiles|law_updates]. Qed.
#[export] Instance account_fetched_laws : FetchedLaws SMTPAccount.
Proof. split; [law_compiles|law_updates]. Qed.
#[export] Instance user_fetched_laws : FetchedLaws AdminUser.
Proof. split; [law_compiles|law_updates]. Qed.

(** ** The writes of the repositories *)

Record Tables := mkTables { tb_store : DB; tb_admin : AdminDB }.

Inductive Write :=
| CreateCredential (newID : string) (c : OAuthCredential) | UpdateCredential (c : OAuthCredential) | DeleteCredential (id : string)
| CreateMailbox (newID : string) (m : Mailbox) | UpdateMailbox (m : Mailbox) | DeleteMailbox (id : string)
| CreateAccount (newID : string) (a : SMTPAccount) | UpdateAccount (a : SMTPAccount) | DeleteAccount (id : string)
| TouchAccount (id : string)
| CreateUser (newID : string) (u : AdminUser) | UpdateUser (u : AdminUser) | DeleteUser (id : string) | LoginUser (id : string)
| CreateSession (newID : string) (s : Session) | TouchSession (id : string) | DeleteSession (id : string)
| DeleteSessionsOf (userID : string) | PurgeSessions.

(** The tables after a write that the driver does not fail. *)
Definition write_step (now : Z) (w : Write) (t : Tables) : Tables :=
  let store db := mkTables db (tb_admin t) in
  let admin db := mkTables (tb_store t) db in
  match w with
  | CreateCredential newID c => store (Credentials_Create None now newID c (tb_store t)).2
  | UpdateCredential c => store (Credentials_Update None now c (tb_store t)).2
  | DeleteCredential id => store (Credentials_Delete None id (tb_store t)).2
  | CreateMailbox newID m => store (Mailboxes_Create None now newID m (tb_store t)).2
  | UpdateMailbox m => store (Mailboxes_Update None now m (tb_store t)).2
  | DeleteMailbox id => store (Mailboxes_Delete None id (tb_store t)).2
  | CreateAccount newID a => store (Accounts_Create None now newID a (tb_store t)).2
  | UpdateAccount a => store (Accounts_Update None now a (tb_store t)).2
  | DeleteAccount id => store (Accounts_Delete None id (tb_store t)).2
  | TouchAccount id => store (TouchLastUsed None id now (tb_store t)).2
  | CreateUser newID u => admin (Users_Create None now newID u (tb_admin t)).2
  | UpdateUser u => admin (Users_Update None now u (tb_admin t)).2
  | DeleteUser id => admin (Users_Delete None id (tb_admin t)).2
  | LoginUser id => admin (RecordSuccessfulLogin None now id (tb_admin t)).2
  | CreateSession newID s => admin (Sessions_Create None now newID s (tb_admin t)).2
  | TouchSession id => admin (Touch None now id (tb_admin t)).2
  | DeleteSession id => admin (Sessions_Delete None id (tb_admin t)).2
  | DeleteSessionsOf userID => admin (DeleteForUser None userID (tb_admin t)).2
  | PurgeSessions => admin (PurgeExpired None now (tb_admin t)).2
  end.

(** The statement of a write, with its arguments. *)
Definition write_statement (now : Z) (w : Write) : string * list SqlValue :=
  match w with
  | CreateCredential newID c => (credential_insert_text, credential_values (credential_defaults now newID c))
  | UpdateCredential c => (credential_update_text, credential_update_args now c)
  | DeleteCredential id => (credential_delete_text, [VText id])
  | CreateMailbox newID m => (mailbox_insert_text, mailbox_values (mailbox_defaults now newID m))
  | UpdateMailbox m => (mailbox_update_text, mailbox_update_args now m)
  | DeleteMailbox id => (mailbox_delete_text, [VText id])
  | CreateAccount newID a => (account_insert_text, account_values (account_defaults now newID a))
  | UpdateAccount a => (account_update_text, account_update_args now a)
  | DeleteAccount id => (account_delete_text, [VText id])
  | TouchAccount id => (account_touch_text, [VTime now; VText id])
  | CreateUser newID u => (user_insert_text, user_values (user_defaults now newID u))
  | UpdateUser u => (user_update_text, user_update_args now u)
  | DeleteUser id => (user_delete_text, [VText id])
  | LoginUser id => (user_login_text, [VTime now; VTime now; VText id])
  | CreateSession newID s => (session_insert_text, session_values (session_defaults now newID s))
  | TouchSession id => (session_touch_text, [VTime now; VText id])
  | DeleteSession id => (session_delete_text, [VText id])
  | DeleteSessionsOf userID => (session_delete_for_user_text, [VText userID])
  | PurgeSessions => (session_purge_text, [VTime now])
  end.

(** The rows of the table a write is on. *)
Definition write_table (w : Write) (t : Tables) : gmap string Row :=
  match w with
  | CreateCredential _ _ | UpdateCredential _ | DeleteCredential _ => row_of <$> oauth_credentials (tb_store t)
  | CreateMailbox _ _ | UpdateMailbox _ | DeleteMailbox _ => row_of <$> mailboxes (tb_store t)
  | CreateAccount _ _ | UpdateAccount _ | DeleteAccount _ | TouchAccount _ => row_of <$> smtp_accounts (tb_store t)
  | CreateUser _ _ | UpdateUser _ | DeleteUser _ | LoginUser _ => row_of <$> admin_users (tb_admin t)
  | CreateSession _ _ | TouchSession _ | DeleteSession _ | DeleteSessionsOf _ | PurgeSessions => row_of <$> admin_sessions (tb_admin t)
  end.

Definition write_on (w : Write) : string :=
  match w with
  | CreateCredential _ _ | UpdateCredential _ | DeleteCredential _ => "oauth_credentials"
  | CreateMailbox _ _ | UpdateMailbox _ | DeleteMailbox _ => "mailboxes"
  | CreateAccount _ _ | UpdateAccount _ | DeleteAccount _ | TouchAccount _ => "smtp_accounts"
  | CreateUser _ _ | UpdateUser _ | DeleteUser _ | LoginUser _ => "admin_users"
  | CreateSession _ _ | TouchSession _ | DeleteSession _ | DeleteSessionsOf _ | PurgeSessions => "admin_sessions"
  end.

(** The constraint of the schema a write violates. *)
Definition write_violation (now : Z) (w : Write) (t : Tables) : option DriverError :=
  match w with
  | CreateCredential newID c => insert_credential_error (credential_defaults now newID c) (tb_store t)
  | UpdateCredential c => credential_error c (tb_store t)
  | DeleteCredential id =>
      if exists_row (fun m => bool_decide (mb_OAuthCredentialID m = id)) (mailboxes (tb_store t)) then Some SqlForeignKeyViolation else None
  | CreateMailbox newID m => insert_mailbox_error (mailbox_defaults now newID m) (tb_store t)
  | UpdateMailbox m => mailbox_error m (tb_store t)
  | CreateAccount newID a => insert_account_error (account_defaults now newID a) (tb_store t)
  | UpdateAccount a => account_error a (tb_store t)
  | CreateUser newID u =>
      let u := user_defaults now newID u in insert_error (user_error u (tb_admin t)) (bool_decide (is_Some (admin_users (tb_admin t) !! u_ID u)))
  | UpdateUser u => user_error u (tb_admin t)
  | CreateSession newID s => insert_session_error (session_defaults now newID s) (tb_admin t)
  | _ => None
  end.

(** The answer for the number of rows the engine reports: the updates and
    deletes of the administration want their row, the others do not look. *)
Definition write_answers (now : Z) (w : Write) (n : Z) (t : Tables) : Prop :=
  match w with
  | UpdateCredential c => (Credentials_Update None now c (tb_store t)).1 = requireOneRow n ("credential " +:+ cred_ID c)
  | DeleteCredential id => (Credentials_Delete None id (tb_store t)).1 = requireOneRow n ("credential " +:+ id)
  | UpdateMailbox m => (Mailboxes_Update None now m (tb_store t)).1 = requireOneRow n ("mailbox " +:+ mb_ID m)
  | DeleteMailbox id => (Mailboxes_Delete None id (tb_store t)).1 = requireOneRow n ("mailbox " +:+ id)
  | UpdateAccount a => (Accounts_Update None now a (tb_store t)).1 = requireOneRow n ("SMTP account " +:+ acc_ID a)
  | DeleteAccount id => (Accounts_Delete None id (tb_store t)).1 = requireOneRow n ("SMTP account " +:+ id)
  | UpdateUser u => (Users_Update None now u (tb_admin t)).1 = requireOneRow n ("user " +:+ u_ID u)
  | DeleteUser id => (Users_Delete None id (tb_admin t)).1 = requireOneRow n ("user " +:+ id)
  | DeleteSessionsOf userID => (DeleteForUser None userID (tb_admin t)).1 = Ok n
  | PurgeSessions => (PurgeExpired None now (tb_admin t)).1 = Ok n
  | CreateCredential newID c => (Credentials_Create None now newID c (tb_store t)).1 = Ok (credential_defaults now newID c) /\ n = 1
  | CreateMailbox newID m => (Mailboxes_Create None now newID m (tb_store t)).1 = Ok (mailbox_defaults now newID m) /\ n = 1
  | CreateAccount newID a => (Accounts_Create None now newID a (tb_store t)).1 = Ok (account_defaults now newID a) /\ n = 1
  | CreateUser newID u => (Users_Create None now newID u (tb_admin t)).1 = Ok (user_defaults now newID u) /\ n = 1
  | CreateSession newID s => (Sessions_Create None now newID s (tb_admin t)).1 = Ok (session_defaults now newID s) /\ n = 1
  | TouchAccount id => (TouchLastUsed None id now (tb_store t)).1 = Ok tt
  | LoginUser id => (RecordSuccessfulLogin None now id (tb_admin t)).1 = Ok tt
  | TouchSession id => (Touch None now id (tb_admin t)).1 = Ok tt
  | DeleteSession id => (Sessions_Delete None id (tb_admin t)).1 = Ok tt
  end.

(** [write_row] without a violation, seen through one of the tables. *)
Lemma write_row_plain {R S T} (id_of : R -> string) id (t : gmap string R) what what' (db' db : T) (f : T -> S) :
  (rows_affected (fun r => bool_decide (id_of r = id)) t = 0 -> f db' = f db) ->
  (write_row id_of None id t None what what' db' db).1 = requireOneRow (rows_affected (fun r => bool_decide (id_of r = id)) t) what'
  /\ f (write_row id_of None id t None what what' db' db).2 = f db'.
Proof.
  intros Hf. unfold write_row, exec. destruct (_ =? 0) eqn:E; simpl; [|done]. split; [done|].
  symmetry. apply Hf. by apply Z.eqb_eq.
Qed.

Lemma delete_noop {R} (p : R -> bool) (t : gmap string R) : rows_affected p t = 0 -> sql_delete p t = t.
Proof.
  intros H. apply map_eq. intros k. apply option_eq. intros r. rewrite lookup_sql_delete.
  pose proof (proj1 (rows_affected_zero p t) H k r). naive_solver.
Qed.

Lemma update_noop {R} (p : R -> bool) f (t : gmap string R) : rows_affected p t = 0 -> sql_update p f t = t.
Proof. intros H. apply sql_update_noop. by apply rows_affected_zero. Qed.

(** An insert that is not refused has an ID of its own. *)
Lemma insert_free {R} e (t : gmap string R) k : insert_error e (bool_decide (is_Some (t !! k))) = None -> t !! k = None.
Proof. unfold insert_error. case_bool_decide; [by destruct e as [[]|]|]. intros _. by apply eq_None_not_Some. Qed.

Lemma session_id_free s adb : insert_session_error s adb = None -> admin_sessions adb !! s_ID s = None.
Proof. unfold insert_session_error. case_bool_decide; [done|]. intros _. by apply eq_None_not_Some. Qed.

(** A write by ID: what it answers, and its table afterwards. *)
Ltac by_id f :=
  match goal with
  | |- context [write_row ?g None ?i ?t None ?w ?w' ?d' ?d] =>
      let H1 := fresh in let H2 := fresh in
      destruct (write_row_plain g i t w w' d' d f) as [H1 H2];
      [intros Hzero; first [exact (update_noop _ _ _ Hzero) | exact (delete_noop _ _ Hzero)]|];
      eexists; split; [rewrite H2|exact H1]
  end.

(** A text that is an update or a delete of its own. *)
Ltac own_statement d :=
  unfold run_text; destruct d; compiled;
  first [ apply (exec_update row_of); [where_clause|intros; reflexivity] | apply (exec_delete row_of); where_clause ].

(** C11: each write of the repositories does, on either engine, what the model
    says. Whatever record is created, updated, deleted or stamped, as long as it
    violates no constraint of the schema: running the text the code writes, with
    the arguments it binds, on the rows of its table gives the rows of the
    table after the write, and the number of rows the engine reports leads to
    the model's answer. *)
Theorem repository_statements_do_what_the_model_says d now w t :
  write_violation now w t = None ->
  let '(text, args) := write_statement now w in
  exists n, run_text d (write_on w) [] text args (write_table w t) = Some (n, write_table w (write_step now w t)) /\ write_answers now w n t.
Proof.
  destruct t as [db adb], w; cbn [write_violation write_statement write_step write_table write_on write_answers tb_store tb_admin]; intros Hv.
  - unfold Credentials_Create, exec. rewrite Hv. eexists. split; [exact (insert_stored d (credential_defaults now newID c) _ (insert_free _ _ _ Hv))|done].
  - unfold Credentials_Update. rewrite Hv. by_id oauth_credentials. exact (update_stored d now c _).
  - unfold Credentials_Delete. rewrite Hv. by_id oauth_credentials. exact (delete_stored d id (oauth_credentials db)).
  - unfold Mailboxes_Create, exec. rewrite Hv. eexists. split; [exact (insert_stored d (mailbox_defaults now newID m) _ (insert_free _ _ _ Hv))|done].
  - unfold Mailboxes_Update. rewrite Hv. by_id mailboxes. exact (update_stored d now m _).
  - unfold Mailboxes_Delete. by_id mailboxes. exact (delete_stored d id (mailboxes db)).
  - unfold Accounts_Create, exec. rewrite Hv. eexists. split; [exact (insert_stored d (account_defaults now newID a) _ (insert_free _ _ _ Hv))|done].
  - unfold Accounts_Update. rewrite Hv. by_id smtp_accounts. exact (update_stored d now a _).
  - unfold Accounts_Delete. by_id smtp_accounts. exact (delete_stored d id (smtp_accounts db)).
  - eexists. split; [|done]. unfold TouchLastUsed, exec. cbn [snd smtp_accounts set_smtp_accounts]. own_statement d.
  - unfold Users_Create, exec. rewrite Hv. eexists. split; [exact (insert_stored d (user_defaults now newID u) _ (insert_free _ _ _ Hv))|done].
  - unfold Users_Update. rewrite Hv. by_id admin_users. exact (update_stored d now u _).
  - unfold Users_Delete. by_id admin_users. exact (delete_stored d id (admin_users adb)).
  - eexists. split; [|done]. unfold RecordSuccessfulLogin, exec. cbn [snd admin_users set_users]. own_statement d.
  - unfold Sessions_Create, exec. rewrite Hv. eexists. split; [exact (insert_stored d (session_defaults now newID s) _ (session_id_free _ _ Hv))|done].
  - eexists. split; [|done]. unfold Touch, exec. cbn [snd admin_sessions set_sessions]. own_statement d.
  - eexists. split; [exact (delete_stored d id (admin_sessions adb))|done].
  - eexists. split; [|reflexivity]. unfold DeleteForUser, delete_sessions, exec. cbn [snd admin_sessions set_sessions]. own_statement d.
  - eexists. split; [|reflexivity]. unfold PurgeExpired, delete_sessions, exec. cbn [snd admin_sessions set_sessions]. own_statement d.
Qed.

(** What the repositories look up by ID is what was stored: the invariants of
    the tables make every row one the scan rebuilds. *)
Theorem records_are_read_back d scan id db adb :
  dir_ok db -> admin_ok adb -> map_Forall (fun _ a => text_list (acc_AllowCIDRs a)) (smtp_accounts db) ->
  (scans scan (oauth_credentials db) -> fetch d scan id (row_of <$> oauth_credentials db) = Some (oauth_credentials db !! id))
  /\ (scans scan (mailboxes db) -> fetch d scan id (row_of <$> mailboxes db) = Some (mailboxes db !! id))
  /\ (scans scan (smtp_accounts db) -> fetch d scan id (row_of <$> smtp_accounts db) = Some (smtp_accounts db !! id))
  /\ (scans scan (admin_users adb) -> fetch d scan id (row_of <$> admin_users adb) = Some (admin_users adb !! id)).
Proof.
  intros [Hc Hm Ha _ _ _] [Hu _ _] Hl. split_and!; intros Hs; apply fetch_stored; try done; intros k r Hk.
  - split; [by apply (to_id _ _ _ _ Hc)|]. exact (to_row _ _ _ _ Hc k r Hk).
  - split; [by apply (to_id _ _ _ _ Hm)|]. destruct (to_row _ _ _ _ Hm k r Hk) as (? & ? & _). done.
  - split; [by apply (to_id _ _ _ _ Ha)|]. destruct (to_row _ _ _ _ Ha k r Hk) as (? & ? & _). split_and!; try done. exact (Hl k r Hk).
  - split; [by apply (to_id _ _ _ _ Hu)|]. by destruct (to_row _ _ _ _ Hu k r Hk).
Qed.

(** *** Witnesses *)

Definition sample_credential : OAuthCredential :=
  mkOAuthCredential "c1" "tenant" "t" "client" AuthTypeSecret "sealed" "" "" "" "login.example.com" None ManagedByUI 0 0.

Definition sample_tables : Tables :=
  mkTables (set_oauth_credentials {["c1" := sample_credential]} empty_DB) empty_AdminDB.

Lemma repository_statements_do_what_the_model_says_witness :
  exists n,
    run_text postgresDialect "oauth_credentials" [] credential_update_text (credential_update_args 7 sample_credential) (row_of <$> oauth_credentials (tb_store sample_tables))
    = Some (n, row_of <$> oauth_credentials (tb_store (write_step 7 (UpdateCredential sample_credential) sample_tables)))
    /\ write_answers 7 (UpdateCredential sample_credential) n sample_tables.
Proof.
  exact (repository_statements_do_what_the_model_says postgresDialect 7 (UpdateCredential sample_credential) sample_tables
           ltac:(vm_compute; reflexivity)).
Defined.

Example prefixed_columns :
  prefixColumns "m" mailboxColumns
  = "m.id, m.address, m.display_name, m.oauth_credential_id, m.transport, m.rate_limit_per_min, m.max_concurrent, m.enabled, m.managed_by, m.created_at, m.updated_at".
Proof. vm_compute. reflexivity. Qed.
