(* ===== verification/QueueApi.v ===== *)
(** * Watching and working the queue through the management API

    The handlers of [internal/adminapi/messages.go], [status.go], [audit.go]
    and [setup.go], [handleMailboxDiagnostics] of [diagnostics.go],
    [handleCredentialSetup] of [credentials.go], and the query parameters of
    [query.go], run as in [Api]. *)

From stdpp Require Import base gmap strings list sorting.
From Stdlib Require Import ZArith Lia Ascii.
From S2P Require Import Prelude GoStrings GoFloat StoreModels MessageStore Directory Policy Sql AdminStore AdminAuth AuditLog Diagnostics MessageList.
From S2P Require Import Api DirectoryApi.

Open Scope Z_scope.
Open Scope api_scope.

(** ** Query parameters *)

(** [url.Values] *)
Definition Query : Type := string -> list string.

Definition query_Get (q : Query) (name : string) : string := default "" (head (q name)).

Definition queryInt (q : Query) (name : string) (fallback : Z) : Z :=
  let raw := query_Get q name in
  if bool_decide (raw = "") then fallback
  else match Atoi raw with
       | Some n => if n <? 0 then fallback else n
       | None => fallback
       end.

Definition queryList (q : Query) (name : string) : list string :=
  List.flat_map (fun v => List.filter sent (List.map TrimSpace (split_byte ","%char v))) (q name).

Section Times.
(** [time.Parse(time.RFC3339, raw)] *)
Context (parseTime : string -> option Z).

Definition queryTime (q : Query) (name : string) : option Z :=
  let raw := query_Get q name in if bool_decide (raw = "") then None else parseTime raw.

Definition message_filter (q : Query) : MessageFilter :=
  mkMessageFilter (queryList q "status") (query_Get q "mailboxId") (query_Get q "accountId") (query_Get q "search")
    (default 0 (queryTime q "since")) (default 0 (queryTime q "until")) (queryInt q "limit" 50) (queryInt q "offset" 0).

Definition audit_filter (q : Query) : AuditFilter :=
  mkAuditFilter (query_Get q "actorId") (query_Get q "action") (query_Get q "targetType") (query_Get q "targetId")
    (default 0 (queryTime q "since")) (default 0 (queryTime q "until")) (queryInt q "limit" 100) (queryInt q "offset" 0).
End Times.

(** ** Answers *)

Record messageResponse := mkMessageResponse {
  mr_SMTPAccountID : string; mr_MailboxID : string; mr_Origin : string; mr_ID : string; mr_AccountUsername : string; mr_MailboxAddress : string;
  mr_EnvelopeFrom : string; mr_HeaderFrom : string; mr_Recipients : list string; mr_RecipientCount : Z; mr_SizeBytes : Z; mr_Subject : string;
  mr_MessageID : string; mr_Status : MessageStatus; mr_Attempts : Z; mr_NextAttemptAt : option Z; mr_LastError : string; mr_LastErrorCode : string;
  mr_LastErrorPermanent : bool; mr_ClientIP : string; mr_ReceivedAt : Z; mr_SentAt : option Z
}.

(** A message that waits for its next attempt. *)
Definition waiting (s : MessageStatus) : bool := match s with StatusQueued | StatusDeferred => true | _ => false end.

Definition toMessageResponse (m : Message) : messageResponse :=
  mkMessageResponse (default "" (m_SMTPAccountID m)) (default "" (m_MailboxID m)) (m_Origin m) (m_ID m) (m_AccountUsername m) (m_MailboxAddress m)
    (m_EnvelopeFrom m) (m_HeaderFrom m) (m_Recipients m) (m_RecipientCount m) (m_SizeBytes m) (m_Subject m) (m_MessageID m) (m_Status m) (m_Attempts m)
    (if waiting (m_Status m) then Some (m_NextAttemptAt m) else None) (m_LastError m) (m_LastErrorCode m) (m_LastErrorPermanent m) (m_ClientIP m)
    (m_ReceivedAt m) (m_SentAt m).

Record expiringCredential := mkExpiring { ec_ID : string; ec_Name : string; ec_ExpiresAt : Z; ec_ExpiresInDays : Z }.

Record statusResponse := mkStatusResponse {
  sp_Version : string; sp_QueueByStatus : list (MessageStatus * Z); sp_Mailboxes : Z; sp_Accounts : Z; sp_Credentials : Z;
  sp_ExpiringCredentials : list expiringCredential; sp_RecentFailures : list messageResponse; sp_AuthFailureCount : Z
}.

(** [At] is the text of the time. *)
Record auditResponse := mkAuditResponse {
  ap_ID : string; ap_At : string; ap_ActorType : string; ap_ActorID : string; ap_ActorName : string; ap_Action : string; ap_TargetType : string;
  ap_TargetID : string; ap_TargetName : string; ap_Details : string; ap_Result : string; ap_IP : string; ap_UserAgent : string
}.

Definition toAuditResponse (formatTime : Z -> string) (e : AuditEntry) : auditResponse :=
  mkAuditResponse (ae_ID e) (formatTime (ae_At e)) (ae_ActorType e) (ae_ActorID e) (ae_ActorName e) (ae_Action e) (ae_TargetType e) (ae_TargetID e)
    (ae_TargetName e) (ae_Details e) (ae_Result e) (ae_IP e) (ae_UserAgent e).

Record setupResponse := mkSetupResponse { su_Summary : string; su_Steps : list string; su_Commands : string; su_Docs : string }.

Inductive QBody :=
| AllMessages (l : list messageResponse) (total : Z)
| OneMessage (m : messageResponse)
| MessageFile (id content : string)
| Nothing
| Status (s : statusResponse)
| AuditPage (l : list auditResponse) (total : Z)
| Setup (s : setupResponse)
| Facts (m : mailboxResponse) (c : credentialResponse) (endpoint scope : string).

(** ** The setup script *)

Section SetupScript.
Context `{GF : GoFmt}.

Definition NL : string := String LF "".
Definition quoted (s : string) : string := String JQUOTE (s +:+ String JQUOTE "").
Definition BACKTICK : string := String (chr 96) "".

Definition oauthScopeForSetup : string := "https://outlook.office365.com/.default".

Definition setup_steps (mailboxAddresses : list string) : list string :=
  ["In Microsoft Entra ID, open this application's API permissions and add the application permission SMTP.SendAsApp under "
     +:+ quoted "Office 365 Exchange Online" +:+ ".";
   "Grant admin consent for that permission. Without consent the token is issued but Exchange refuses it with 535 5.7.3.";
   "Copy the Object ID from the Enterprise applications page — not from App registrations. Using the wrong one is the single most common cause of a 535 with everything else correct.";
   "Run the PowerShell below as an Exchange administrator."]
  ++ match mailboxAddresses with
     | [] => ["Add a mailbox to this credential, then run Add-MailboxPermission for it."]
     | _ => []
     end.

Definition grant_access (address : string) : string :=
  "Add-MailboxPermission -Identity " +:+ Quote address +:+ " -User $sp.Identity -AccessRights FullAccess" +:+ NL.

Definition grant_send_as (address : string) : string :=
  "# Add-RecipientPermission -Identity " +:+ Quote address +:+ " -Trustee $sp.Identity -AccessRights SendAs" +:+ NL.

Definition setup_commands (c : OAuthCredential) (mailboxAddresses : list string) : string :=
  "# Run in Exchange Online PowerShell, as an Exchange administrator." +:+ NL
  +:+ "Install-Module -Name ExchangeOnlineManagement -Scope CurrentUser" +:+ NL
  +:+ "Import-Module ExchangeOnlineManagement" +:+ NL
  +:+ "Connect-ExchangeOnline -Organization " +:+ cred_TenantID c +:+ NL +:+ NL
  +:+ "# The Object ID below must come from Entra ID > Enterprise applications," +:+ NL
  +:+ "# NOT from App registrations. They are different values." +:+ NL
  +:+ "$objectId = " +:+ quoted "<Object ID from Enterprise applications>" +:+ NL +:+ NL
  +:+ "New-ServicePrincipal -AppId " +:+ cred_ClientID c +:+ " -ObjectId $objectId " +:+ BACKTICK +:+ NL
  +:+ "  -DisplayName " +:+ quoted ("smtp-auth-proxy (" +:+ cred_Name c +:+ ")") +:+ NL +:+ NL
  +:+ "$sp = Get-ServicePrincipal -Identity " +:+ quoted ("smtp-auth-proxy (" +:+ cred_Name c +:+ ")") +:+ NL +:+ NL
  +:+ match mailboxAddresses with
      | [] =>
          "# Once a mailbox is added to this credential, grant access to it:" +:+ NL
          +:+ "# Add-MailboxPermission -Identity " +:+ quoted "shared@example.com" +:+ " -User $sp.Identity -AccessRights FullAccess" +:+ NL
      | _ =>
          "# Grant access to each mailbox this credential sends as." +:+ NL
          +:+ Join (grant_access <$> mailboxAddresses) ""
          +:+ NL +:+ "# Only needed if a message's envelope sender differs from the mailbox:" +:+ NL
          +:+ Join (grant_send_as <$> mailboxAddresses) ""
      end
  +:+ NL +:+ "# The proxy requests tokens for the scope " +:+ oauthScopeForSetup +:+ NL.

Definition buildSetup (c : OAuthCredential) (mailboxAddresses : list string) : setupResponse :=
  mkSetupResponse
    ("Exchange Online needs three things before it will accept this credential: admin consent for SMTP.SendAsApp, a registered service principal, and a mailbox permission for each of the "
       +:+ Itoa (Z.of_nat (length mailboxAddresses)) +:+ " mailbox(es) it sends as.")
    (setup_steps mailboxAddresses) (setup_commands c mailboxAddresses)
    "https://learn.microsoft.com/exchange/client-developer/legacy-protocols/how-to-authenticate-an-imap-pop-smtp-application-by-using-oauth".
End SetupScript.

(** ** The endpoint of a mailbox *)

(** A parsed [url.URL]; [up_rest] is what the handler leaves as it is. *)
Record URLParts := mkURLParts { up_User : option string; up_Host : string; up_RawQuery : string; up_Fragment : string; up_rest : string }.

(** [url.Parse] and [URL.String]. *)
Class NetURLParts := { url_ParseParts : string -> option URLParts; url_String : URLParts -> string }.

Definition public_endpoint `{NetURLParts} (endpoint : string) : string :=
  match url_ParseParts endpoint with
  | Some u => if bool_decide (up_Host u = "") then endpoint else url_String (mkURLParts None (up_Host u) "" "" (up_rest u))
  | None => endpoint
  end.

(** ** Handlers *)

(** A query over all tables. *)
Definition api_query {Body A} (w : World) (f : option string -> ProxyDB -> result StoreError A) : H Body A := fun s =>
  let n := h_calls s in
  let db := w_env w n (h_db s) in
  (match f (w_io w n) db with Ok a => inl a | Err e => inr (store_refusal e) end, at_call s db).

Section Handlers.
Context `{UC : UnicodeCase} `{GF : GoFmt} `{C : Collation} `{F : Float64} `{NU : NetURLParts}.
Context (parseTime : string -> option Z) (formatTime : Z -> string) (version : string).
Context (d : Dialect) (smtpEndpoint graphEndpoint smtpScope graphScope : string).
Context (w : World) (who : Caller).

Abbreviation QHandler := (H QBody (Answer QBody)).

Definition handleListMessages (q : Query) : QHandler :=
  let f := message_filter parseTime q in
  let! messages := api_read w (Messages_List d f) in
  let! total := api_read w (Messages_Count d f) in
  hret (Done 200 (AllMessages (List.map toMessageResponse messages) total)).

Definition handleGetMessage (id : string) : QHandler :=
  let! m := api_read w (fun io => Get io id) in
  hret (Done 200 (OneMessage (toMessageResponse m))).

Definition handleGetMessageBody (id : string) : QHandler :=
  let! m := api_read w (fun io => Get io id) in
  let! body := api_read w (fun io => Body io id) in
  api_audit w who (note_of who "message.read_body" "message" (m_ID m) (m_MailboxAddress m)
    [("sizeBytes", JInt (m_SizeBytes m)); ("recipients", JInt (m_RecipientCount m))] "") ;;!
  hret (Done 200 (MessageFile (m_ID m) body)).

(** A statement on the queue, and the query after it when it changed no row. *)
Definition api_action (do : option string -> option string -> Z -> DB -> result StoreError unit * DB) : H QBody unit := fun s =>
  api_write w (fun io now _ => do io (w_io w (S (h_calls s))) now) s.

Definition queueAction (id action : string) (do : option string -> option string -> Z -> DB -> result StoreError unit * DB) : QHandler :=
  let! m := api_read w (fun io => Get io id) in
  let! _u := api_action do in
  api_audit w who (note_of who action "message" (m_ID m) (m_MailboxAddress m)
    [("previousStatus", JString (status_text (m_Status m))); ("attempts", JInt (m_Attempts m))] "") ;;!
  hret (Done 204 Nothing).

Definition handleRetryMessage (id : string) : QHandler := queueAction id "message.retry" (fun io io_get now => Requeue io io_get now id).
Definition handleHoldMessage (id : string) : QHandler := queueAction id "message.hold" (fun io io_get now => Hold io io_get now id).
Definition handleDeleteMessage (id : string) : QHandler := queueAction id "message.delete" (fun io io_get _ => Delete io io_get id).

Definition expiryWarningWindow : Z := 30 * 24 * Hour.

Definition expiring (now : Z) (c : OAuthCredential) : expiringCredential :=
  let t := default 0 (cred_ExpiresAt c) in mkExpiring (cred_ID c) (cred_Name c) t (days_until t now).

Definition recent_failures : MessageFilter := mkMessageFilter ["failed"; "deferred"] "" "" "" 0 0 10 0.

(** The count of statuses is a map; its order is no part of the answer. *)
Definition count_statuses (io : option string) (db : DB) : result StoreError (list (MessageStatus * Z)) :=
  listing io "store: counting messages by status: " (CountByStatus db).

Definition handleStatus : QHandler :=
  let! counts := api_read w count_statuses in
  let! mailboxes := api_read w Mailboxes_List in
  let! accounts := api_read w Accounts_List in
  let! credentials := api_read w Credentials_List in
  let! now := api_now w in
  let! soon := api_read w (fun io => ExpiringBefore io (now + expiryWarningWindow)) in
  let! later := api_now w in
  let! failures := api_read w (Messages_List d recent_failures) in
  hret (Done 200 (Status (mkStatusResponse version counts (Z.of_nat (length mailboxes)) (Z.of_nat (length accounts)) (Z.of_nat (length credentials))
    (List.map (expiring later) soon) (List.map toMessageResponse failures) 0))).

Definition handleListAudit (q : Query) : QHandler :=
  let f := audit_filter parseTime q in
  let! entries := api_query w (fun io db => Audit_List io f (px_audit db)) in
  let! total := api_query w (fun io db => Audit_Count io f (px_audit db)) in
  hret (Done 200 (AuditPage (List.map (toAuditResponse formatTime) entries) total)).

(** The addresses of the mailboxes a credential sends for. *)
Definition addresses_of (credentialID : string) (l : list Mailbox) : list string :=
  List.map mb_Address (List.filter (fun m => bool_decide (mb_OAuthCredentialID m = credentialID)) l).

Definition handleCredentialSetup (id : string) : QHandler :=
  let! c := api_read w (fun io => Credentials_Get io id) in
  let! mailboxes := api_read w Mailboxes_List in
  hret (Done 200 (Setup (buildSetup c (addresses_of (cred_ID c) mailboxes)))).

Definition handleMailboxDiagnostics (id : string) : QHandler :=
  let! m := api_read w (fun io => Mailboxes_Get io id) in
  let! c := api_read w (fun io => Credentials_Get io (mb_OAuthCredentialID m)) in
  let! related := api_read w Mailboxes_List in
  let! now := api_now w in
  let endpoint := if bool_decide (mb_Transport m = TransportGraph) then graphEndpoint else smtpEndpoint in
  hret (Done 200 (Facts (toMailboxResponse m (cred_Name c)) (toCredentialResponse now c (count_for (cred_ID c) related))
    (public_endpoint endpoint) (scopeFor smtpScope graphScope (mb_Transport m)))).

(** ** Routes *)

Inductive QRequest :=
| ListMessages (q : Query) | GetMessage (id : string) | GetMessageBody (id : string)
| RetryMessage (id : string) | HoldMessage (id : string) | DeleteMessage (id : string)
| GetStatus | ListAudit (q : Query) | CredentialSetup (id : string) | MailboxDiagnostics (id : string).

(** [mountMessages], [mountAudit] and the other routes. *)
Definition queue_permission (r : QRequest) : Permission :=
  match r with
  | ListMessages _ | GetMessage _ | GetStatus => PermViewStatus
  | GetMessageBody _ => PermReadMessageBody
  | RetryMessage _ | HoldMessage _ | DeleteMessage _ => PermManageQueue
  | ListAudit _ => PermViewAudit
  | CredentialSetup _ | MailboxDiagnostics _ => PermViewConfig
  end.

Definition queue_handle (r : QRequest) : QHandler :=
  match r with
  | ListMessages q => handleListMessages q
  | GetMessage id => handleGetMessage id
  | GetMessageBody id => handleGetMessageBody id
  | RetryMessage id => handleRetryMessage id
  | HoldMessage id => handleHoldMessage id
  | DeleteMessage id => handleDeleteMessage id
  | GetStatus => handleStatus
  | ListAudit q => handleListAudit q
  | CredentialSetup id => handleCredentialSetup id
  | MailboxDiagnostics id => handleMailboxDiagnostics id
  end.
End Handlers.

Definition queue_dispatch `{UnicodeCase} `{GoFmt} `{Collation} `{Float64} `{NetURLParts} (parseTime : string -> option Z) (formatTime : Z -> string)
    (version : string) (d : Dialect) (smtpEndpoint graphEndpoint smtpScope graphScope : string)
    (w : World) (ip agent : string) (a : Admission) (r : QRequest) (db : ProxyDB) : (Z + Answer QBody) * ProxyDB :=
  match require (queue_permission r) a with
  | Refused status => (inl status, db)
  | Passed auth =>
      let '(answer, db) := serve (queue_handle parseTime formatTime version d smtpEndpoint graphEndpoint smtpScope graphScope
                                    w (mkCaller (au_User auth) ip agent) r) db in (inr answer, db)
  end.
