(* ===== verification/QueueApiProps.v ===== *)
(** * What the management API does to the queue, and what it shows of it *)

From stdpp Require Import base gmap strings list sorting.
From Stdlib Require Import ZArith Lia.
From S2P Require Import Prelude GoStrings GoFloat StoreModels MessageStore MessageQueue QueueProps Directory DirectoryProps Policy Sql.
From S2P Require Import Password AdminStore AdminAuth AuditLog Diagnostics MessageList Api DirectoryApi DirectoryApiProps ApiSecrecy QueueApi.

Open Scope Z_scope.

(** ** Operator actions as statements *)

Inductive QueueAction := Retry | Park | Discard.

Definition request_of (k : QueueAction) (id : string) : QRequest :=
  match k with Retry => RetryMessage id | Park => HoldMessage id | Discard => DeleteMessage id end.

Definition action_name (k : QueueAction) : string :=
  match k with Retry => "message.retry" | Park => "message.hold" | Discard => "message.delete" end.

Definition statement_of (k : QueueAction) (id : string) (io io_get : option string) (now : Z) (db : DB) : result StoreError unit * DB :=
  match k with Retry => Requeue io io_get now id db | Park => Hold io io_get now id db | Discard => Delete io io_get id db end.

(** Whether the query after a statement fails decides at most which error is
    reported. *)
Lemma statement_io k id io io_get now db :
  statement_of k id io io_get now db = statement_of k id io None now db
  \/ exists e e' db', statement_of k id io io_get now db = (Err e, db') /\ statement_of k id io None now db = (Err e', db').
Proof.
  destruct io; [left; by destruct k|]. destruct io_get as [e|]; [|by left].
  destruct k; cbn [statement_of]; unfold Requeue, Hold, Delete, exec, requireAction; destruct (_ >? 0); try (by left); right; unfold Get; simpl;
    (destruct (_ !! id); eauto).
Qed.

Lemma statement_db k id io io_get now db : (statement_of k id io io_get now db).2 = (statement_of k id io None now db).2.
Proof. by destruct (statement_io k id io io_get now db) as [->|(e & e' & db' & -> & ->)]. Qed.

(** The states an action is for. *)
Definition permitted (k : QueueAction) (s : MessageStatus) : bool :=
  match k, s with
  | Retry, (StatusFailed | StatusDeferred | StatusHeld) => true
  | Park, (StatusQueued | StatusDeferred | StatusFailed) => true
  | Discard, StatusSending => false
  | Discard, _ => true
  | _, _ => false
  end.

(** What becomes of the message. *)
Definition outcome (k : QueueAction) (now : Z) (m : Message) : option Message :=
  match k with
  | Retry => Some (clear_lease (set_m_UpdatedAt now (set_m_NextAttemptAt now (set_m_Status StatusQueued m))))
  | Park => Some (clear_lease (set_m_UpdatedAt now (set_m_Status StatusHeld m)))
  | Discard => None
  end.

Lemma can_requeue_permitted m : can_requeue (m_ID m) m = permitted Retry (m_Status m).
Proof. unfold can_requeue, is_status. rewrite bool_decide_eq_true_2 by done. by destruct (m_Status m). Qed.

Lemma can_hold_permitted m : can_hold (m_ID m) m = permitted Park (m_Status m).
Proof. unfold can_hold, is_status. rewrite bool_decide_eq_true_2 by done. by destruct (m_Status m). Qed.

Lemma can_delete_permitted m : can_delete (m_ID m) m = permitted Discard (m_Status m).
Proof. unfold can_delete, is_status. rewrite bool_decide_eq_true_2 by done. by destruct (m_Status m). Qed.

(** A statement on the row with one key changes that row and no other. *)
Lemma sql_update_at (p : Message -> bool) f id m (t : gmap string Message) :
  t !! id = Some m -> p m = true -> (forall j x, t !! j = Some x -> p x = true -> j = id) -> sql_update p f t = partial_alter (fun _ => Some (f m)) id t.
Proof.
  intros Hm Hp Hid. apply map_eq. intros j. rewrite lookup_sql_update. destruct (decide (j = id)) as [->|Hn].
  - rewrite lookup_partial_alter_eq, Hm. simpl. by rewrite Hp.
  - rewrite lookup_partial_alter_ne by done. destruct (t !! j) as [x|] eqn:Hj; [|done]. simpl. destruct (p x) eqn:Hx; [|done]. by apply Hid in Hj.
Qed.

Lemma sql_delete_at (p : Message -> bool) id m (t : gmap string Message) :
  t !! id = Some m -> p m = true -> (forall j x, t !! j = Some x -> p x = true -> j = id) -> sql_delete p t = partial_alter (fun _ => None) id t.
Proof.
  intros Hm Hp Hid. apply map_eq. intros j. apply option_eq. intros x. rewrite lookup_sql_delete. destruct (decide (j = id)) as [->|Hn].
  - rewrite lookup_partial_alter_eq, Hm. split; [|done]. intros [Hx Hf]. congruence.
  - rewrite lookup_partial_alter_ne by done. split; [naive_solver|]. intros Hj. split; [done|].
    destruct (p x) eqn:Hx; [|done]. by apply Hid in Hj.
Qed.

Section Actions.
Context (db : DB) (Hdb : db_ok db).

Lemma keyed (p : Message -> bool) id j x : (forall m, p m = true -> m_ID m = id) -> messages db !! j = Some x -> p x = true -> j = id.
Proof using Hdb. intros Hp Hj Hx. rewrite <-(Hp _ Hx). symmetry. exact (row_key _ _ (db_rows _ Hdb _ _ Hj)). Qed.

(** An action succeeds exactly on a message in one of its states, and then
    changes exactly that row; a failure changes no message. *)
Lemma statement_effect_read k id io now :
  match statement_of k id io None now db with
  | (Ok _, db') => exists m, messages db !! id = Some m /\ permitted k (m_Status m) = true /\
                     messages db' = partial_alter (fun _ => outcome k now m) id (messages db)
  | (Err _, db') => messages db' = messages db
  end.
Proof using Hdb.
  destruct io as [e|]; [by destruct k|]. destruct k; cbn [statement_of].
  - pose proof (action_update (can_requeue id) (fun m => clear_lease (set_m_UpdatedAt now (set_m_NextAttemptAt now (set_m_Status StatusQueued m)))) id db Hdb
      (can_requeue_id id)) as Ha. unfold Requeue, exec. simpl in *. destruct (messages db !! id) as [m|] eqn:Hm; [|injection Ha as -> Ha; exact (f_equal messages Ha)].
    pose proof (row_key _ _ (db_rows _ Hdb _ _ Hm)) as Hk. destruct (can_requeue id m) eqn:Hp; [|injection Ha as -> Ha; exact (f_equal messages Ha)].
    destruct Ha as [-> _]. exists m. split_and!; [done| |].
    + change (permitted Retry (m_Status m) = true). by rewrite <-can_requeue_permitted, Hk.
    + apply (sql_update_at _ (fun m => clear_lease (set_m_UpdatedAt now (set_m_NextAttemptAt now (set_m_Status StatusQueued m)))) id m); [done|done|].
      intros j x. apply keyed, can_requeue_id.
  - pose proof (action_update (can_hold id) (fun m => clear_lease (set_m_UpdatedAt now (set_m_Status StatusHeld m))) id db Hdb (can_hold_id id)) as Ha.
    unfold Hold, exec. simpl in *. destruct (messages db !! id) as [m|] eqn:Hm; [|injection Ha as -> Ha; exact (f_equal messages Ha)].
    pose proof (row_key _ _ (db_rows _ Hdb _ _ Hm)) as Hk. destruct (can_hold id m) eqn:Hp; [|injection Ha as -> Ha; exact (f_equal messages Ha)].
    destruct Ha as [-> _]. exists m. split_and!; [done| |].
    + change (permitted Park (m_Status m) = true). by rewrite <-can_hold_permitted, Hk.
    + apply (sql_update_at _ (fun m => clear_lease (set_m_UpdatedAt now (set_m_Status StatusHeld m))) id m); [done|done|].
      intros j x. apply keyed, can_hold_id.
  - pose proof (delete_action id db Hdb) as Ha. destruct (Delete None None id db) as [r db'] eqn:Hd. simpl in Ha.
    assert (messages db' = sql_delete (can_delete id) (messages db)) as Ht by (unfold Delete, exec in Hd; by injection Hd as _ <-).
    destruct (messages db !! id) as [m|] eqn:Hm; [|by destruct Ha as [-> ->]].
    pose proof (row_key _ _ (db_rows _ Hdb _ _ Hm)) as Hk.
    assert (can_delete id m = negb (is_status StatusSending m)) as Hc by (unfold can_delete; by rewrite bool_decide_eq_true_2).
    destruct (is_status StatusSending m); [by destruct Ha as [-> ->]|]. destruct Ha as [-> _]. exists m. split_and!; [done| |].
    + change (permitted Discard (m_Status m) = true). by rewrite <-can_delete_permitted, Hk, Hc.
    + rewrite Ht. apply (sql_delete_at _ _ m); [done|by rewrite Hc|]. intros j x. apply keyed, can_delete_id.
Qed.

Lemma statement_effect k id io io_get now :
  match statement_of k id io io_get now db with
  | (Ok _, db') => exists m, messages db !! id = Some m /\ permitted k (m_Status m) = true /\
                     messages db' = partial_alter (fun _ => outcome k now m) id (messages db)
  | (Err _, db') => messages db' = messages db
  end.
Proof using Hdb.
  pose proof (statement_effect_read k id io now) as H. destruct (statement_io k id io io_get now db) as [->|(e & e' & db' & -> & He)]; [done|].
  by rewrite He in H.
Qed.
End Actions.

(** ** On record *)

Lemma audit_recorded `{UnicodeCase} t id ip agent e log :
  log !! id = None -> nt_Result e = "" -> audit None t id ip agent e log !! id = Some (entry_defaults t id (describe ip agent e)).
Proof.
  intros Hid Hr. unfold audit, Audit_Append, exec, insert_entry.
  assert (known_actor (ae_ActorType (entry_defaults t id (describe ip agent e))) && known_result (ae_Result (entry_defaults t id (describe ip agent e))) = true) as ->.
  { unfold describe, entry_defaults. simpl. rewrite Hr. by destruct (nt_Actor e). }
  assert (ae_ID (entry_defaults t id (describe ip agent e)) = id) as -> by done.
  rewrite bool_decide_eq_false_2; [|rewrite Hid; by intros [? ?]]. simpl. by rewrite lookup_insert_eq.
Qed.

(** An entry in the log that says who did what to which message. *)
Definition on_record (log : AuditLog) (entryID : string) (who : AdminUser) (action id : string) : Prop :=
  exists e, log !! entryID = Some e /\ ae_ActorType e = ActorUser /\ ae_ActorID e = u_ID who /\ ae_ActorName e = u_Username who /\
    ae_Action e = action /\ ae_TargetType e = "message" /\ ae_TargetID e = id /\ ae_Result e = ResultSuccess.

Lemma note_on_record `{UnicodeCase} t entryID who action id name details log :
  log !! entryID = None ->
  on_record (audit None t entryID (ca_ip who) (ca_agent who) (note_of who action "message" id name details "") log) entryID (ca_actor who) action id.
Proof. intros Hid. eexists. split; [by apply audit_recorded|]. done. Qed.

Section Requests.
Context `{UC : UnicodeCase} `{GF : GoFmt} `{C : Collation} `{F : Float64} `{NU : NetURLParts}.
Context (parseTime : string -> option Z) (formatTime : Z -> string) (version : string).
Context (d : Dialect) (smtpEndpoint graphEndpoint smtpScope graphScope : string) (w : World) (ip agent : string).

Local Abbreviation answer := (queue_dispatch parseTime formatTime version d smtpEndpoint graphEndpoint smtpScope graphScope w ip agent).

Lemma require_passed p a auth : require p a = Passed auth -> a = Passed auth /\ Can (u_Role (au_User auth)) p = true.
Proof. unfold require. destruct a as [|au]; [done|]. destruct (Can _ _) eqn:Hc; [|done]. by intros [= <-]. Qed.

Lemma action_handler k id who : queue_handle parseTime formatTime version d smtpEndpoint graphEndpoint smtpScope graphScope w who (request_of k id)
  = queueAction w who id (action_name k) (statement_of k id).
Proof. by destruct k. Qed.

(** What others made of the database up to a call of the request. *)
Definition before_call (n : nat) (db : ProxyDB) : ProxyDB := foldl (fun x k => w_env w k x) db (seq 0 n).

(** C31: the buttons of the queue do what they say, on record. Whatever
    consistent changes others make between its calls, an action answered with
    204 was asked by somebody who may work the queue, on a message that was in
    one of the states it is for when the statement met it, and that statement
    changed exactly that message in exactly that way and nothing else of the
    queue; who did it is in the audit log, unless writing that entry failed,
    which does not fail the request. Every other answer leaves the messages and
    the log as the others left them. *)
Theorem queue_actions_are_exact k id a db :
  rely w (fun x => db_ok (px_store x)) -> db_ok (px_store db) ->
  let '(ans, db') := answer a (request_of k id) db in
  match ans with
  | inr (Done status _) =>
      status = 204 /\
      exists auth m done, a = Passed auth /\ Can (u_Role (au_User auth)) PermManageQueue = true /\
        messages (px_store (before_call 2 db)) !! id = Some m /\ permitted k (m_Status m) = true /\
        messages (px_store done) = partial_alter (fun _ => outcome k (w_clock w 1) m) id (messages (px_store (before_call 2 db))) /\
        px_audit done = px_audit (before_call 2 db) /\ px_store db' = px_store (w_env w 2 done) /\
        (w_io w 2 = None -> px_audit (w_env w 2 done) !! w_newID w 2 = None ->
           on_record (px_audit db') (w_newID w 2) (au_User auth) (action_name k) id)
  | _ => exists n, (n <= 2)%nat /\ messages (px_store db') = messages (px_store (before_call n db)) /\ px_audit db' = px_audit (before_call n db)
  end.
Proof.
  intros Hw Hdb. pose proof (Hw 0%nat _ Hdb) as Hdb0. pose proof (Hw 1%nat _ Hdb0) as Hdb1.
  unfold queue_dispatch. destruct (require _ a) as [st|auth] eqn:Hr; [by exists 0%nat; split; [lia|]|]. rewrite action_handler.
  assert (queue_permission (request_of k id) = PermManageQueue) as Hp by by destruct k. rewrite Hp in Hr. apply require_passed in Hr as [-> Hcan].
  unfold queueAction, serve, hbind, api_read, api_action, api_write, api_audit. simpl.
  destruct (Get (w_io w 0) id (px_store (w_env w 0 db))) as [m0|e] eqn:Hg; [|by exists 1%nat; split; [lia|]]. simpl.
  pose proof (statement_effect _ Hdb1 k id (w_io w 1) (w_io w 2) (w_clock w 1)) as Hs.
  destruct (statement_of k id (w_io w 1) (w_io w 2) (w_clock w 1) _) as [[[]|e] st]; [|by exists 2%nat; split; [lia|]].
  destruct Hs as (m & Hm & Hper & Hmsgs). simpl. split; [done|].
  exists auth, m, (queue_change st (w_env w 1 (w_env w 0 db))). split_and!; try done. intros Hio Hid. rewrite Hio.
  assert (m_ID m0 = id) as ->.
  { unfold Get in Hg. destruct (w_io w 0); [done|]. destruct (messages _ !! id) as [x|] eqn:Hx; [|done]. injection Hg as ->.
    exact (row_key _ _ (db_rows _ Hdb0 _ _ Hx)). }
  by apply (note_on_record _ _ (mkCaller (au_User auth) ip agent)).
Qed.

(** C30: mail is read on record. Whatever else happens meanwhile, a message's
    body is only served to somebody whose role may read mail, it is the stored
    body of the message asked for, and before it is served the audit log has an
    entry that names the reader and the message, unless writing it failed. *)
Theorem mail_is_read_on_record a id db name content db' status :
  answer a (GetMessageBody id) db = (inr (Done status (MessageFile name content)), db') ->
  exists auth db0 db1 db2, a = Passed auth /\ u_Role (au_User auth) = RoleAdmin /\
    db0 = w_env w 0 db /\ db1 = w_env w 1 db0 /\ db2 = w_env w 2 db1 /\
    message_blobs (px_store db1) !! id = Some content /\ (exists m, messages (px_store db0) !! id = Some m /\ m_ID m = name) /\
    px_store db' = px_store db2 /\ px_audit db2 ⊆ px_audit db' /\
    (w_io w 2 = None -> px_audit db2 !! w_newID w 2 = None -> on_record (px_audit db') (w_newID w 2) (au_User auth) "message.read_body" name).
Proof.
  unfold queue_dispatch. destruct (require _ a) as [st|auth] eqn:Hr; [done|]. apply require_passed in Hr as [-> Hcan]. cbn [queue_handle].
  unfold handleGetMessageBody, serve, hbind, api_read, api_audit. simpl.
  destruct (Get (w_io w 0) id _) as [m|e] eqn:Hg; [|done]. simpl. destruct (Body (w_io w 1) id _) as [b|e] eqn:Hb; [|done]. simpl. intros [= <- <- <- <-].
  exists auth, (w_env w 0 db), (w_env w 1 (w_env w 0 db)), (w_env w 2 (w_env w 1 (w_env w 0 db))). split_and!; try done.
  - destruct (u_Role (au_User auth)); vm_compute in Hcan; done.
  - unfold Body in Hb. destruct (w_io w 1); [done|]. by destruct (message_blobs _ !! id); simplify_eq.
  - unfold Get in Hg. destruct (w_io w 0); [done|]. destruct (messages _ !! id) as [m'|]; simplify_eq. eauto.
  - simpl. apply audit_grows.
  - intros Hio Hid. simpl. rewrite Hio. by apply (note_on_record _ _ (mkCaller (au_User auth) ip agent)).
Qed.

(** *** Integrity *)

Section Invariant.
Context (I : ProxyDB -> Prop) (Hw : rely w I) (who : Caller).
Context (Ha : forall io t id e db, I db -> I (set_px_audit (audit io t id (ca_ip who) (ca_agent who) e (px_audit db)) db)).
Lemma keeps_query {A} (f : option string -> ProxyDB -> result StoreError A) : keeps I (api_query (Body := QBody) w f).
Proof using Hw. intros s Hs. unfold api_query. simpl. pose proof (Hw (h_calls s) _ Hs). by destruct (f _ _). Qed.

#[local] Hint Resolve keeps_ret keeps_stop keeps_read keeps_now keeps_audit keeps_query : api.

Ltac keeps_calls := repeat (apply keeps_bind; [solve [eauto with api] || idtac|intros ?]); try solve [eauto with api].

(** The requests that only read, apart from the audit log. *)
Definition queue_reads (r : QRequest) : bool :=
  match r with RetryMessage _ | HoldMessage _ | DeleteMessage _ => false | _ => true end.

Lemma queue_readers_keep r :
  queue_reads r = true -> keeps I (queue_handle parseTime formatTime version d smtpEndpoint graphEndpoint smtpScope graphScope w who r).
Proof using Hw Ha.
  destruct r; try done; intros _; cbn [queue_handle];
    unfold handleListMessages, handleGetMessage, handleGetMessageBody, handleStatus, handleListAudit, handleCredentialSetup, handleMailboxDiagnostics; keeps_calls.
Qed.

Context (Hops : forall k id io io_get t db, I db -> I (queue_change (statement_of k id io io_get t (px_store db)).2 db)).

Lemma queue_handlers_keep r : keeps I (queue_handle parseTime formatTime version d smtpEndpoint graphEndpoint smtpScope graphScope w who r).
Proof using Hw Ha Hops.
  destruct (queue_reads r) eqn:Hr; [by apply queue_readers_keep|].
  assert (forall k id action, keeps I (queueAction w who id action (statement_of k id))) as Hact.
  { intros k id action. unfold queueAction, api_action. keeps_calls. intros s. apply keeps_write; [done|]. intros io t i db. apply Hops. }
  destruct r; try done; [apply (Hact Retry)|apply (Hact Park)|apply (Hact Discard)].
Qed.
End Invariant.

(** working the queue through the API keeps every invariant of the
    database, whatever fails and whatever consistent changes happen in between,
    and takes nothing out of the audit log. *)
Theorem queue_requests_keep_integrity a r db log :
  rely w (sound_beyond log) -> sound_beyond log db -> sound_beyond log (answer a r db).2.
Proof.
  intros Hw Hdb. unfold queue_dispatch. destruct (require _ a) as [st|auth]; [done|].
  destruct (serve _ db) as [ans db'] eqn:Hs. simpl. apply (f_equal snd) in Hs. simpl in Hs. subst db'.
  apply serve_keeps; [|done]. apply queue_handlers_keep; [done|..].
  - intros io t id e db' [H1 H2]. split; [exact H1|]. simpl. etrans; [exact H2|apply audit_grows].
  - intros k id io io_get t db' [[H1 H2] H3]. split; [|exact H3]. rewrite statement_db.
    assert (exists op, dir_fresh op /\ (statement_of k id io None t (px_store db')).2 = step_dir op (px_store db')) as (op & Hop & ->).
    { destruct k; [exists (DQueue (OpRequeue io t id))|exists (DQueue (OpHold io t id))|exists (DQueue (OpDelete io t id))]; by split. }
    split; simpl; [by apply step_dir_ok|by apply step_dir_db_ok].
Qed.

(** *** Secrecy *)

Definition looks (r : QRequest) : bool :=
  match r with GetMessageBody _ | RetryMessage _ | HoldMessage _ | DeleteMessage _ => false | _ => true end.

Lemma mask_store_messages db1 db2 : mask_store db1 = mask_store db2 -> messages db1 = messages db2.
Proof. by inversion 1. Qed.

Lemma discreet_messages f : discreet eq (Messages_List d f).
Proof. intros io db1 db2 Hdb%mask_store_messages. unfold Messages_List, selected. rewrite Hdb. by destruct io. Qed.

Lemma discreet_total f : discreet eq (Messages_Count d f).
Proof. intros io db1 db2 Hdb%mask_store_messages. unfold Messages_Count. rewrite Hdb. by destruct io. Qed.

Lemma discreet_message id : discreet eq (fun io => Get io id).
Proof. intros io db1 db2 Hdb%mask_store_messages. unfold Get. rewrite Hdb. by repeat case_match. Qed.

Lemma discreet_statuses : discreet eq count_statuses.
Proof. intros io db1 db2 Hdb%mask_store_messages. unfold count_statuses, CountByStatus, count_status. rewrite Hdb. by destruct io. Qed.

Lemma expiring_rows_masked t (cs : gmap string OAuthCredential) :
  merge_sort by_expiry ((map_to_list (rows_where (expires_before t) (mask_credential <$> cs))).*2)
  = mask_credential <$> merge_sort by_expiry ((map_to_list (rows_where (expires_before t) cs)).*2).
Proof.
  rewrite (merge_sort_fmap mask_credential by_expiry by_expiry) by done. f_equal. unfold rows_where.
  rewrite map_filter_fmap, map_to_list_fmap, <-!list_fmap_compose. done.
Qed.

Lemma discreet_expiring t : discreet (Forall2 same_credential) (fun io => ExpiringBefore io t).
Proof.
  intros io db1 db2 Hdb%(f_equal oauth_credentials). unfold ExpiringBefore. destruct io; simpl; [done|]. simpl in Hdb.
  apply fmap_eq_Forall2. rewrite <-!expiring_rows_masked. by rewrite Hdb.
Qed.

#[local] Hint Resolve discreet_messages discreet_total discreet_message discreet_statuses discreet_expiring : discreet.

Section Pairs.
Context (Henv : secrets_stay w).

Lemma paired_log {A} (f : option string -> AuditLog -> result StoreError A) :
  paired (Body := QBody) eq (api_query w (fun io db => f io (px_audit db))) (api_query w (fun io db => f io (px_audit db))).
Proof using Henv.
  intros s1 s2 Hs. pose proof (alike_env w Henv _ _ Hs) as Hdb. destruct Hs as [Hn _]. unfold api_query. simpl. split; [by split; simpl; [f_equal|]|].
  pose proof (f_equal px_audit Hdb) as Hl. simpl in Hl. rewrite Hn in *. rewrite Hl. by destruct (f _ _).
Qed.

Ltac look := eapply paired_bind; [by eauto using paired_read, paired_now, paired_log with discreet|]; intros ???.

Lemma setup_alike id : paired eq (handleCredentialSetup w id) (handleCredentialSetup w id).
Proof using Henv.
  look. look. subst. apply paired_ret. destruct (same_credential_keys _ _ H) as [-> _]. do 2 f_equal.
  assert (forall c l, buildSetup (mask_credential c) l = buildSetup c l) as Hb by done. by rewrite <-(Hb a1), <-(Hb a2), H.
Qed.

Lemma expiring_alike now l1 l2 : Forall2 same_credential l1 l2 -> List.map (expiring now) l1 = List.map (expiring now) l2.
Proof.
  induction 1 as [|c1 c2 l1 l2 Hc Hl IH]; simpl; [done|]. f_equal; [|done].
  unfold expiring. destruct (same_credential_keys _ _ Hc) as [-> ->]. by rewrite (f_equal cred_ExpiresAt Hc : cred_ExpiresAt c1 = cred_ExpiresAt c2).
Qed.

Lemma status_alike : paired eq (handleStatus version d w) (handleStatus version d w).
Proof using Henv.
  do 5 look. subst. do 3 look. subst. apply paired_ret. do 2 f_equal. f_equal; try done; [by f_equal; eapply Forall2_length..|by apply expiring_alike].
Qed.

Lemma diagnostics_alike id :
  paired eq (handleMailboxDiagnostics smtpEndpoint graphEndpoint smtpScope graphScope w id) (handleMailboxDiagnostics smtpEndpoint graphEndpoint smtpScope graphScope w id).
Proof using Henv.
  look. subst. look. do 2 look. subst. apply paired_ret. rename H into Hc. destruct (same_credential_keys _ _ Hc) as [-> ->].
  do 2 f_equal. by rewrite (responses_alike _ _ _ _ Hc).
Qed.

Lemma list_messages_alike q : paired eq (handleListMessages parseTime d w q) (handleListMessages parseTime d w q).
Proof using Henv. do 2 look. subst. by apply paired_ret. Qed.

Lemma get_message_alike id : paired eq (handleGetMessage w id) (handleGetMessage w id).
Proof using Henv. look. subst. by apply paired_ret. Qed.

Lemma list_audit_alike q : paired eq (handleListAudit parseTime formatTime w q) (handleListAudit parseTime formatTime w q).
Proof using Henv. do 2 (eapply paired_bind; [apply (paired_log (fun io => _ io _))|]; intros ? ? <-). by apply paired_ret. Qed.
End Pairs.

(** looking at the queue reveals neither mail nor secrets. On two databases
    that differ only in the bodies of messages and in the secrets of the
    directory, every request but the download of a body and the actions gets
    the same answer, whatever fails and whatever happens in between. *)
Theorem watching_reveals_no_mail a r db1 db2 :
  secrets_stay w -> looks r = true -> mask_px db1 = mask_px db2 -> (answer a r db1).1 = (answer a r db2).1.
Proof.
  intros Hw Hl Hdb. unfold queue_dispatch. destruct (require _ a) as [st|auth]; [done|].
  set (m := queue_handle _ _ _ _ _ _ _ _ _ _ r). assert (paired eq m m) as Hm.
  { subst m. destruct r; try discriminate; simpl;
      eauto using list_messages_alike, get_message_alike, status_alike, list_audit_alike, setup_alike, diagnostics_alike. }
  pose proof (paired_serve m m db1 db2 Hm Hdb) as Hs. destruct (serve m db1), (serve m db2). simpl in *. by subst.
Qed.
End Requests.

(** ** Who may change what *)

(** The tables of the directory. *)
Definition tables (s : DB) := (oauth_credentials s, mailboxes s, smtp_accounts s, smtp_account_mailboxes s, allowed_senders s).
Definition directory_tables (db : ProxyDB) := tables (px_store db).

Lemma enqueue_tables now newID m body s : tables (enqueueTx now newID m body s).2 = tables s.
Proof. unfold enqueueTx. destruct (translateError _ _); [done|]. destruct body; [|done]. by destruct (bool_decide _). Qed.

Lemma statement_directory k id io io_get t db :
  directory_tables (queue_change (statement_of k id io io_get t (px_store db)).2 db) = directory_tables db.
Proof.
  rewrite statement_db. destruct io; [by destruct k|]. destruct db as [s ? ? ?], s. destruct k; reflexivity.
Qed.

Lemma diagnostic_directory `{UnicodeCase} ios now newID auditID actorID requestID mailboxID recipient m body db :
  directory_tables (EnqueueDiagnostic ios now newID auditID actorID requestID mailboxID recipient m body db).2 = directory_tables db.
Proof.
  unfold EnqueueDiagnostic, InTx, diagnosticTx. destruct (ios 0%nat); [done|].
  destruct (px_requests db !! _) as [saved|]; [by destruct (repeated _ _ _ _)|]. destruct (ios 2%nat); [done|].
  destruct (diagnostic_mailbox _ _) as [[mb c]|]; [|done]. destruct (negb _); [done|]. unfold exec at 1. destruct (ios 3%nat); [done|].
  pose proof (enqueue_tables now newID (diagnostic_message mailboxID m) (Some body) (px_store db)) as Ht. cbn [px_store set_px_requests].
  destruct (enqueueTx _ _ _ _ (px_store db)) as [[queued|e] s']; [|done]. cbn [snd] in Ht.
  destruct (ios 4%nat); [done|]. destruct (ios 5%nat); [done|]. destruct (exec _ _ _) as [[[]|e] log]; [|done]. destruct (ios 7%nat); [done|].
  exact Ht.
Qed.

(** The routes of the directory, the queue, the status, the audit log and the
    diagnostics; a test message with what its two transactions meet. *)
Inductive ApiRequest :=
| OnDirectory (r : DirRequest)
| OnQueue (r : QRequest)
| SendTest (io_get : option string) (ios : nat -> option string) (now : Z) (date newID auditID mailboxID requestID recipient : string).

Definition holds_role (a : Admission) (roles : list Role) : Prop := exists auth, a = Passed auth /\ u_Role (au_User auth) ∈ roles.

Lemma Can_operate r p : Can r p = true -> p ∈ [PermManageQueue; PermRunDiagnostics; PermReadMessageBody] -> r ∈ [RoleAdmin; RoleOperator].
Proof.
  intros Hc Hp. rewrite !elem_of_cons, elem_of_nil in Hp. rewrite !elem_of_cons.
  destruct Hp as [->|[->|[->|[]]]]; destruct r; vm_compute in Hc; try done; auto.
Qed.

Section Roles.
Context `{UC : UnicodeCase} `{NM : NetMail} `{NI : NetIP} `{GF : GoFmt} `{C : Collation} `{F : Float64} `{PH : PasswordHasher} `{NU : NetURLParts}.
Context (seal : option (string -> string -> result string string)) (rand : Z -> result string string).
Context (tokens : option (OAuthCredential -> string -> result string unit)) (uuidParse : string -> option string).
Context (parseTime : string -> option Z) (formatTime : Z -> string) (version : string).
Context (d : Dialect) (smtpEndpoint graphEndpoint smtpScope graphScope : string) (w : World) (ip agent : string).

(** The database after a request. *)
Definition respond (a : Admission) (r : ApiRequest) (db : ProxyDB) : ProxyDB :=
  match r with
  | OnDirectory r => (dispatch seal rand tokens smtpScope graphScope w ip agent a r db).2
  | OnQueue r => (queue_dispatch parseTime formatTime version d smtpEndpoint graphEndpoint smtpScope graphScope w ip agent a r db).2
  | SendTest io_get ios now date newID auditID mailboxID requestID recipient =>
      match require PermRunDiagnostics a with
      | Refused _ => db
      | Passed auth =>
          (handleSendMailboxTest uuidParse io_get ios now date newID auditID (au_User auth) mailboxID requestID recipient db).2
      end
  end.

Lemma test_directory io_get ios now date newID auditID actor mailboxID requestID recipient db :
  directory_tables (handleSendMailboxTest uuidParse io_get ios now date newID auditID actor mailboxID requestID recipient db).2 = directory_tables db.
Proof.
  unfold handleSendMailboxTest. destruct (uuidParse _) as [q|]; [|done]. destruct (ParseAddress recipient) as [to|]; [|done].
  destruct (_ || _); [done|]. destruct (Mailboxes_Get _ _ _) as [m|]; [|done]. destruct (ParseAddress (mb_Address m)) as [from|]; [|done].
  destruct (bool_decide _); [done|]. set (body := diagnostic_body _ _ _ _).
  pose proof (diagnostic_directory ios now newID auditID (u_ID actor) q (mb_ID m) (Normalized to) (test_message newID m from to (len body)) body db) as Hd.
  by destruct (EnqueueDiagnostic _ _ _ _ _ _ _ _ _ _ _) as [[] ?].
Qed.

End Roles.

(** ** Witnesses and observations *)

Section Sample.
#[local] Existing Instances api_case api_fmt api_collation exact_float.
#[local] Instance no_url : NetURLParts := {| url_ParseParts := fun _ => None; url_String := fun _ => "" |}.

(** A failed message with its body. *)
Definition stuck_message : Message :=
  mkMessage "smtp" "m1" None None "scanner" "shared@x" "scan@x" "scan@x" ["bob@x"] 1 4 "" "" StatusFailed 3 5 None None "refused" "550" true "" "" 5 None 6.

Definition mail_db (body : string) : ProxyDB :=
  set_px_store (mkDB ∅ ∅ ∅ ∅ ∅ {[ "m1" := stuck_message ]} {[ "m1" := body ]}) api_db.

Definition ask_queue (r : QRequest) (db : ProxyDB) : (Z + Answer QBody) * ProxyDB :=
  queue_dispatch (fun _ => None) (fun _ => "") "dev" sqliteDialect "smtp:587" "https://graph" "smtp" "graph" calm "10.0.0.1" "curl" admin_session r db.

Lemma mail_db_ok body : store_ok (mail_db body).
Proof.
  split; constructor; simpl.
  - apply table_ok_empty.
  - apply table_ok_empty.
  - apply table_ok_empty.
  - intros a b H. by apply elem_of_empty in H.
  - apply table_ok_empty.
  - intros k m [<- <-]%lookup_singleton_Some. done.
  - intros k m [<- <-]%lookup_singleton_Some. constructor; simpl; try done.
  - intros k b [<- <-]%lookup_singleton_Some. rewrite lookup_singleton_eq. by eexists.
Qed.

Lemma queue_actions_are_exact_witness :
  messages (px_store (ask_queue (RetryMessage "m1") (mail_db "body")).2) !! "m1"
    = Some (clear_lease (set_m_UpdatedAt 7 (set_m_NextAttemptAt 7 (set_m_Status StatusQueued stuck_message)))) /\
  on_record (px_audit (ask_queue (RetryMessage "m1") (mail_db "body")).2) "n2"
    (mkAdminUser "u1" "root" "" "" None RoleAdmin SourceLocal None "" None false 0 None None 0 0) "message.retry" "m1".
Proof.
  pose proof (queue_actions_are_exact (fun _ => None) (fun _ => "") "dev" sqliteDialect "smtp:587" "https://graph" "smtp" "graph" calm "10.0.0.1" "curl"
    Retry "m1" admin_session (mail_db "body") (fun n x Hx => Hx) (proj2 (mail_db_ok "body"))) as H.
  unfold ask_queue. cbn [request_of] in H.
  destruct (queue_dispatch _ _ _ _ _ _ _ _ _ _ _ _ _ _) as [ans db'] eqn:E.
  assert (ans = inr (Done 204 Nothing)) as Ha by (apply (f_equal fst) in E; etransitivity; [symmetry; exact E|vm_compute; reflexivity]). subst ans.
  destruct H as (_ & auth & m & done & Ha & _ & Hm & _ & Hmsgs & Hlog & Hst & Hrec). injection Ha as <-. simpl.
  rewrite Hst. cbn [calm w_env]. rewrite Hmsgs, lookup_partial_alter_eq. assert (m = stuck_message) as -> by (vm_compute in Hm; by injection Hm as <-).
  split; [reflexivity|]. apply Hrec; [reflexivity|]. cbn [calm w_env]. rewrite Hlog. reflexivity.
Defined.

Lemma mail_is_read_on_record_witness :
  on_record (px_audit (ask_queue (GetMessageBody "m1") (mail_db "body")).2) "n2"
    (mkAdminUser "u1" "root" "" "" None RoleAdmin SourceLocal None "" None false 0 None None 0 0) "message.read_body" "m1".
Proof.
  edestruct (mail_is_read_on_record (fun _ => None) (fun _ => "") "dev" sqliteDialect "smtp:587" "https://graph" "smtp" "graph" calm "10.0.0.1" "curl"
    admin_session "m1" (mail_db "body") "m1" "body" (ask_queue (GetMessageBody "m1") (mail_db "body")).2 200) as (auth & d0 & d1 & d2 & Ha & _ & -> & -> & -> & _ & _ & _ & _ & Hrec).
  - unfold ask_queue. match goal with |- ?x = _ => rewrite (surjective_pairing x) at 1 end. f_equal.
  - injection Ha as <-. apply Hrec; reflexivity.
Defined.

Lemma queue_requests_keep_integrity_witness : sound_beyond ∅ (ask_queue (DeleteMessage "m1") (mail_db "body")).2.
Proof.
  apply (queue_requests_keep_integrity (fun _ => None) (fun _ => "") "dev" sqliteDialect "smtp:587" "https://graph" "smtp" "graph" calm "10.0.0.1" "curl"
    admin_session (DeleteMessage "m1") (mail_db "body") ∅).
  - intros n db H. exact H.
  - split; [exact (mail_db_ok "body")|apply map_empty_subseteq].
Defined.

Lemma watching_reveals_no_mail_witness : (ask_queue (GetMessage "m1") (mail_db "body")).1 = (ask_queue (GetMessage "m1") (mail_db "other")).1.
Proof.
  apply (watching_reveals_no_mail (fun _ => None) (fun _ => "") "dev" sqliteDialect "smtp:587" "https://graph" "smtp" "graph" calm "10.0.0.1" "curl"
    admin_session (GetMessage "m1") (mail_db "body") (mail_db "other")).
  - intros n db1 db2 H. exact H.
  - reflexivity.
  - reflexivity.
Defined.

(** The name of a credential is put into the script as it is, so it can end
    the string it stands in and go on with a command of its own. *)
Lemma name_can_leave_its_quotes :
  Contains (setup_commands (mkOAuthCredential "c1" ("x" +:+ String JQUOTE "; Remove-Mailbox boss@x #") "t" "i" AuthTypeSecret "" "" "" "" "" None ManagedByUI 0 0) [])
    (quoted "smtp-auth-proxy (x" +:+ "; Remove-Mailbox boss@x #") = true.
Proof. by vm_compute. Qed.
End Sample.
