(* ===== verification/Http.v ===== *)
(** * The management interface as an HTTP server

    [internal/adminapi/server.go], the middleware of [middleware.go] and the
    writers of [errors.go]: the table of routes with what each asks for, and
    what the chain of middleware makes of a handler's response. Which route a
    path matches is the router's. *)

From stdpp Require Import base gmap strings list.
From Stdlib Require Import ZArith QArith Lia.
From S2P Require Import Prelude GoStrings Base64 GoFloat StoreModels MessageStore Directory Policy Password Sql AdminStore AdminAuth AuditLog Diagnostics.
From S2P Require Import MessageList Api DirectoryApi DirectoryApiProps QueueApi QueueApiProps.

Open Scope Z_scope.

(** ** Routes *)

(** What stands in front of a handler: nothing, a session, or a permission. *)
Inductive Guard := Public | NeedsSession | Needs (p : Permission).

Record Route := mkRoute { rt_Method : string; rt_Pattern : string; rt_Guard : Guard }.

#[global] Instance Guard_eq_dec : EqDecision Guard.
Proof. solve_decision. Defined.
#[global] Instance Route_eq_dec : EqDecision Route.
Proof. solve_decision. Defined.

Definition under (prefix : string) (l : list Route) : list Route :=
  (fun r => mkRoute (rt_Method r) (prefix +:+ rt_Pattern r) (rt_Guard r)) <$> l.

Definition credential_routes : list Route :=
  under "/credentials"
    [mkRoute "GET" "/" (Needs PermViewConfig); mkRoute "GET" "/{id}" (Needs PermViewConfig); mkRoute "GET" "/{id}/setup" (Needs PermViewConfig);
     mkRoute "POST" "/" (Needs PermManageCredentials); mkRoute "PATCH" "/{id}" (Needs PermManageCredentials);
     mkRoute "DELETE" "/{id}" (Needs PermManageCredentials)].

Definition mailbox_routes : list Route :=
  under "/mailboxes"
    [mkRoute "GET" "/" (Needs PermViewConfig); mkRoute "GET" "/{id}" (Needs PermViewConfig);
     mkRoute "POST" "/" (Needs PermManageMailboxes); mkRoute "PATCH" "/{id}" (Needs PermManageMailboxes);
     mkRoute "DELETE" "/{id}" (Needs PermManageMailboxes); mkRoute "GET" "/{id}/diagnostics" (Needs PermViewConfig);
     mkRoute "POST" "/{id}/test-send" (Needs PermRunDiagnostics); mkRoute "POST" "/{id}/test" (Needs PermRunDiagnostics)].

Definition account_routes : list Route :=
  under "/accounts"
    [mkRoute "GET" "/" (Needs PermViewConfig); mkRoute "GET" "/{id}" (Needs PermViewConfig);
     mkRoute "POST" "/" (Needs PermManageAccounts); mkRoute "PATCH" "/{id}" (Needs PermManageAccounts);
     mkRoute "DELETE" "/{id}" (Needs PermManageAccounts); mkRoute "POST" "/{id}/password" (Needs PermManageAccounts)].

Definition message_routes : list Route :=
  under "/messages"
    [mkRoute "GET" "/" (Needs PermViewStatus); mkRoute "GET" "/{id}" (Needs PermViewStatus);
     mkRoute "GET" "/{id}/body" (Needs PermReadMessageBody); mkRoute "POST" "/{id}/retry" (Needs PermManageQueue);
     mkRoute "POST" "/{id}/hold" (Needs PermManageQueue); mkRoute "DELETE" "/{id}" (Needs PermManageQueue)].

Definition user_routes : list Route :=
  under "/users"
    [mkRoute "GET" "/" (Needs PermManageUsers); mkRoute "POST" "/" (Needs PermManageUsers); mkRoute "GET" "/{id}" (Needs PermManageUsers);
     mkRoute "PATCH" "/{id}" (Needs PermManageUsers); mkRoute "DELETE" "/{id}" (Needs PermManageUsers);
     mkRoute "POST" "/{id}/password" (Needs PermManageUsers)].

Definition auth_routes : list Route :=
  under "/auth"
    [mkRoute "GET" "/config" Public; mkRoute "POST" "/login" Public; mkRoute "GET" "/oidc/start" Public; mkRoute "GET" "/oidc/callback" Public;
     mkRoute "POST" "/logout" NeedsSession; mkRoute "GET" "/me" NeedsSession; mkRoute "POST" "/password" NeedsSession].

(** [routes]; the metrics, when they are enabled, and the pages of the user
    interface are beside it. *)
Definition routes : list Route :=
  [mkRoute "GET" "/licenses" Public; mkRoute "GET" "/healthz" Public; mkRoute "GET" "/readyz" Public]
  ++ under "/api/v1"
       (auth_routes ++ [mkRoute "GET" "/status/" (Needs PermViewStatus)]
        ++ credential_routes ++ mailbox_routes ++ account_routes ++ message_routes ++ user_routes
        ++ [mkRoute "GET" "/audit/" (Needs PermViewAudit)]).

(** The route of each request. *)
Definition dir_route (r : DirRequest) : Route :=
  let api m p := mkRoute m ("/api/v1" +:+ p) (Needs (permission_of r)) in
  match r with
  | ListCredentials => api "GET" "/credentials/" | GetCredential _ => api "GET" "/credentials/{id}"
  | CreateCredential _ => api "POST" "/credentials/" | UpdateCredential _ _ => api "PATCH" "/credentials/{id}"
  | DeleteCredential _ => api "DELETE" "/credentials/{id}"
  | ListMailboxes => api "GET" "/mailboxes/" | GetMailbox _ => api "GET" "/mailboxes/{id}"
  | CreateMailbox _ => api "POST" "/mailboxes/" | UpdateMailbox _ _ => api "PATCH" "/mailboxes/{id}"
  | DeleteMailbox _ => api "DELETE" "/mailboxes/{id}" | TestMailbox _ => api "POST" "/mailboxes/{id}/test"
  | ListAccounts => api "GET" "/accounts/" | GetAccount _ => api "GET" "/accounts/{id}"
  | CreateAccount _ => api "POST" "/accounts/" | UpdateAccount _ _ => api "PATCH" "/accounts/{id}"
  | DeleteAccount _ => api "DELETE" "/accounts/{id}" | ResetPassword _ _ => api "POST" "/accounts/{id}/password"
  end.

Definition queue_route (r : QRequest) : Route :=
  let api m p := mkRoute m ("/api/v1" +:+ p) (Needs (queue_permission r)) in
  match r with
  | ListMessages _ => api "GET" "/messages/" | GetMessage _ => api "GET" "/messages/{id}" | GetMessageBody _ => api "GET" "/messages/{id}/body"
  | RetryMessage _ => api "POST" "/messages/{id}/retry" | HoldMessage _ => api "POST" "/messages/{id}/hold"
  | DeleteMessage _ => api "DELETE" "/messages/{id}"
  | GetStatus => api "GET" "/status/" | ListAudit _ => api "GET" "/audit/"
  | CredentialSetup _ => api "GET" "/credentials/{id}/setup" | MailboxDiagnostics _ => api "GET" "/mailboxes/{id}/diagnostics"
  end.

(** ** Responses *)

(** A [http.ResponseWriter]: the headers so far, the status and headers once
    they are sent, the body. *)
Record Response := mkResponse { rs_header : gmap string string; rs_sent : option (Z * gmap string string); rs_body : string }.

Inductive Act :=
| SetHeader (k v : string)
| WriteHeader (status : Z)
| WriteBody (b : string).

Definition commit (status : Z) (r : Response) : Response :=
  match rs_sent r with
  | Some _ => r
  | None => mkResponse (rs_header r) (Some (status, rs_header r)) (rs_body r)
  end.

Definition act (r : Response) (a : Act) : Response :=
  match a with
  | SetHeader k v => mkResponse (<[k := v]> (rs_header r)) (rs_sent r) (rs_body r)
  | WriteHeader status => commit status r
  | WriteBody b => let r := commit 200 r in mkResponse (rs_header r) (rs_sent r) (rs_body r +:+ b)
  end.

Definition acts (l : list Act) (r : Response) : Response := fold_left act l r.

(** How a handler ends: it returns, it panics, or it panics because the client
    is gone ([http.ErrAbortHandler]). *)
Inductive Ending := Returns | Panics | Aborts.

Definition fresh_response : Response := mkResponse ∅ None "".

(** [writeJSON]; [None] is a nil value. *)
Definition writeJSON (status : Z) (body : option string) : list Act :=
  [SetHeader "Content-Type" "application/json; charset=utf-8"; SetHeader "Cache-Control" "no-store"; WriteHeader status]
  ++ match body with Some b => [WriteBody b] | None => [] end.

(** *** [statusRecorder] *)

Record statusRecorder := mkRecorder { sr_status : Z; sr_wrote : bool; sr_response : Response }.

Definition record (s : statusRecorder) (a : Act) : statusRecorder :=
  match a with
  | SetHeader _ _ => mkRecorder (sr_status s) (sr_wrote s) (act (sr_response s) a)
  | WriteHeader status => if sr_wrote s then s else mkRecorder status true (act (sr_response s) a)
  | WriteBody _ => mkRecorder (sr_status s) true (act (sr_response s) a)
  end.

Definition recorded (l : list Act) (r : Response) : statusRecorder := fold_left record l (mkRecorder 200 false r).

(** *** The chain *)

Definition security_headers : list Act :=
  [SetHeader "Content-Security-Policy"
     "default-src 'self'; img-src 'self' data:; style-src 'self' 'unsafe-inline'; font-src 'self' data:; connect-src 'self'; frame-ancestors 'none'; base-uri 'none'; form-action 'self'";
   SetHeader "X-Content-Type-Options" "nosniff"; SetHeader "X-Frame-Options" "DENY"; SetHeader "Referrer-Policy" "no-referrer"].

Definition no_cache : list Act := [SetHeader "Cache-Control" "no-store"; SetHeader "Pragma" "no-cache"].

(** What [recoverPanics] writes; [error_text] is the JSON of [APIError]. *)
Definition internal_error (error_text : string -> string) : list Act := writeJSON 500 (Some (error_text CodeInternal)).

(** [withRequestID], [recoverPanics], [logRequests] and [securityHeaders]
    around a handler, in the order [routes] puts them: the response as the
    server sends it, [None] for a connection that is dropped, and the status
    that is logged. The line is logged when the handler returns. *)
Definition chain (error_text : string -> string) (requestID : string) (handler : list Act) (ending : Ending) : option Response * option Z :=
  let r := act fresh_response (SetHeader "X-Request-Id" requestID) in
  let s := recorded (security_headers ++ handler) r in
  match ending with
  | Returns => (Some (commit 200 (sr_response s)), Some (sr_status s))
  | Panics => (Some (commit 200 (acts (internal_error error_text) (sr_response s))), None)
  | Aborts => (None, None)
  end.

(** [handleReadyz]: the status for the outcome of the ping. *)
Definition handleReadyz (io : option string) : Z := match io with Some _ => 503 | None => 200 end.

(** ** Who gets where *)

Definition sign_in_route : Route := mkRoute "POST" "/api/v1/auth/login" Public.

Definition guarded (rt : Route) : bool :=
  isSafeMethod (rt_Method rt) || bool_decide (rt = sign_in_route)
  || match rt_Guard rt with Public => false | NeedsSession => true | Needs p => negb (Can RoleViewer p) end.

(** whatever changes something is guarded. Every request is served by a
    route of the table with the permission its handler is run with; and every
    route for a method that is not safe, so that its CSRF token is checked, is
    the sign-in itself, or asks for a session, or for a permission that a
    viewer does not have. *)
Theorem changing_routes_are_guarded :
  (forall r, dir_route r ∈ routes) /\ (forall r, queue_route r ∈ routes) /\
  (forall rt, rt ∈ routes -> isSafeMethod (rt_Method rt) = false ->
     rt = sign_in_route \/ rt_Guard rt = NeedsSession \/ exists p, rt_Guard rt = Needs p /\ Can RoleViewer p = false).
Proof.
  split_and!.
  - intros r. apply (bool_decide_eq_true_1 _). by destruct r; vm_compute.
  - intros r. apply (bool_decide_eq_true_1 _). by destruct r; vm_compute.
  - intros rt Hrt%list_elem_of_In Hs. assert (forallb guarded routes = true) as Hg by by vm_compute.
    rewrite List.forallb_forall in Hg. specialize (Hg rt Hrt). unfold guarded in Hg. rewrite Hs in Hg. simpl in Hg.
    apply orb_true_iff in Hg as [Hg|Hg]; [left; by apply bool_decide_eq_true_1 in Hg|right].
    destruct (rt_Guard rt) as [| |p]; [done|by left|right]. exists p. split; [done|by apply negb_true_iff].
Qed.

Section Safe.
Context `{UC : UnicodeCase} `{NM : NetMail} `{NI : NetIP} `{GF : GoFmt} `{C : Collation} `{F : Float64} `{PH : PasswordHasher} `{NU : NetURLParts}.
Context (seal : option (string -> string -> result string string)) (rand : Z -> result string string).
Context (token : option (OAuthCredential -> string -> result string unit)) (smtpScope graphScope ip agent : string).
Context (parseTime : string -> option Z) (formatTime : Z -> string) (version : string) (d : Dialect) (smtpEndpoint graphEndpoint : string).

(** Handlers that only look. *)
Lemma queue_lookers_keep I w who r :
  rely w I -> looks r = true -> keeps I (queue_handle parseTime formatTime version d smtpEndpoint graphEndpoint smtpScope graphScope w who r).
Proof.
  intros Hw Hl. destruct r; try discriminate; cbn [queue_handle];
    unfold handleListMessages, handleGetMessage, handleStatus, handleListAudit, handleCredentialSetup, handleMailboxDiagnostics;
    repeat (apply keeps_bind; [first [by apply keeps_read|apply keeps_now|by apply keeps_query]|intros ?]); apply keeps_ret.
Qed.

(** a request with a safe method, for which no CSRF token is asked,
    changes nothing: not the directory, not the queue, and not the audit log
    either, the entry for reading a body apart. *)
Theorem safe_methods_change_nothing w a db :
  (forall n x, w_env w n x = x) ->
  (forall r, isSafeMethod (rt_Method (dir_route r)) = true -> (dispatch seal rand token smtpScope graphScope w ip agent a r db).2 = db) /\
  (forall r, isSafeMethod (rt_Method (queue_route r)) = true ->
     let db' := (queue_dispatch parseTime formatTime version d smtpEndpoint graphEndpoint smtpScope graphScope w ip agent a r db).2 in
     (looks r = true -> db' = db) /\ px_store db' = px_store db /\ px_admin db' = px_admin db).
Proof.
  intros Hw. split.
  - intros r Hs. unfold dispatch. destruct (require _ a) as [st|auth]; [done|]. destruct (serve _ db) as [x y] eqn:E. apply (f_equal snd) in E. simpl in *.
    rewrite <-E. apply (serve_keeps (fun x => x = db)); [|done]. apply viewers_keep; [intros n z; by rewrite Hw|]. by destruct r.
  - intros r Hs. unfold queue_dispatch. destruct (require _ a) as [st|auth]; [done|]. destruct (serve _ db) as [x y] eqn:E. apply (f_equal snd) in E. simpl in *.
    rewrite <-E. split.
    + intros Hl. apply (serve_keeps (fun x => x = db)); [|done]. apply queue_lookers_keep; [intros n z; by rewrite Hw|done].
    + destruct (looks r) eqn:Hl.
      * rewrite (serve_keeps (fun x => x = db)); [done| |done]. apply queue_lookers_keep; [intros n z; by rewrite Hw|done].
      * destruct r; try discriminate. simpl. unfold handleGetMessageBody, serve, hbind, api_read, api_audit. simpl. rewrite !Hw.
        destruct (Get _ _ _); [|done]. simpl. rewrite ?Hw. destruct (Body _ _ _); [|done]. simpl. by rewrite ?Hw.
Qed.
End Safe.

(** ** What every response carries *)

Definition protections (requestID : string) : list (string * string) :=
  ("X-Request-Id", requestID) :: omap (fun a => match a with SetHeader k v => Some (k, v) | _ => None end) security_headers.

Section Responses.
Context (error_text : string -> string) (requestID : string).

Definition protected (h : gmap string string) : Prop := forall k v, (k, v) ∈ protections requestID -> h !! k = Some v.

(** A handler that leaves those headers alone. *)
Definition respects (l : list Act) : Prop := forall k v, SetHeader k v ∈ l -> k ∉ (protections requestID).*1.

(** The recorder and the response agree, and the headers stay. *)
Definition in_step (s : statusRecorder) : Prop :=
  protected (rs_header (sr_response s)) /\
  match rs_sent (sr_response s) with
  | None => sr_wrote s = false /\ sr_status s = 200
  | Some (status, h) => sr_wrote s = true /\ sr_status s = status /\ protected h
  end.

Lemma protected_insert k v h : k ∉ (protections requestID).*1 -> protected h -> protected (<[k := v]> h).
Proof.
  intros Hk Hh k' v' Hin. rewrite lookup_insert_ne; [by apply Hh|]. intros ->. apply Hk, list_elem_of_fmap. by exists (k', v').
Qed.

Lemma record_in_step s a : in_step s -> respects [a] -> in_step (record s a).
Proof.
  intros [Hh Hs] Ha. destruct a as [k v|status|b]; simpl.
  - split; [|exact Hs]. apply protected_insert; [|done]. apply (Ha k v). by left.
  - destruct (rs_sent (sr_response s)) as [[st h]|] eqn:E; destruct Hs as [Hw Hs]; rewrite Hw.
    + unfold in_step. by rewrite E.
    + unfold in_step. simpl. unfold commit. by rewrite E.
  - unfold in_step. simpl. unfold commit. destruct (rs_sent (sr_response s)) as [[st h]|] eqn:E; destruct Hs as [Hw Hs]; simpl; rewrite ?E; tauto.
Qed.

Lemma records_in_step l s : in_step s -> respects l -> in_step (fold_left record l s).
Proof.
  revert s. induction l as [|a l IH]; intros s Hs Hl; simpl; [done|]. apply IH.
  - apply record_in_step; [done|]. intros k v Hin. apply (Hl k v). apply list_elem_of_singleton in Hin as <-. left.
  - intros k v Hin. apply (Hl k v). by right.
Qed.

Lemma start_in_step : in_step (recorded security_headers (act fresh_response (SetHeader "X-Request-Id" requestID))).
Proof.
  split; [|done]. intros k v. change ((k, v) ∈ protections requestID -> 
    (<["Referrer-Policy" := "no-referrer"]> (<["X-Frame-Options" := "DENY"]> (<["X-Content-Type-Options" := "nosniff"]>
    (<["Content-Security-Policy" := "default-src 'self'; img-src 'self' data:; style-src 'self' 'unsafe-inline'; font-src 'self' data:; connect-src 'self'; frame-ancestors 'none'; base-uri 'none'; form-action 'self'"]>
    (<["X-Request-Id" := requestID]> (∅ : gmap string string)))))) !! k = Some v).
  unfold protections. simpl. rewrite !elem_of_cons, elem_of_nil. intros [[= -> ->]|[[= -> ->]|[[= -> ->]|[[= -> ->]|[[= -> ->]|[]]]]]];
    by repeat (first [rewrite lookup_insert_eq|rewrite lookup_insert_ne by done]).
Qed.

Lemma chain_in_step handler :
  respects handler -> in_step (recorded (security_headers ++ handler) (act fresh_response (SetHeader "X-Request-Id" requestID))).
Proof. intros Hh. unfold recorded. rewrite fold_left_app. apply records_in_step; [apply start_in_step|done]. Qed.

(** Writing once more after the headers are sent changes neither them nor the status. *)
Lemma acts_sent l r x : rs_sent r = Some x -> rs_sent (acts l r) = Some x.
Proof.
  revert r. induction l as [|a l IH]; intros r Hr; simpl; [done|]. apply IH. destruct a; simpl; [done| |]; unfold commit; by rewrite Hr.
Qed.

(** The answer to a panic: 500, unless the handler had sent its own status. *)
Lemma panic_answer r :
  protected (rs_header r) ->
  exists h, rs_sent (acts (internal_error error_text) r) = Some (match rs_sent r with Some (status, h) => (status, h) | None => (500, h) end) /\
    protected h.
Proof.
  intros Hr. assert (forall k v h, k ∈ ["Content-Type"; "Cache-Control"] -> protected h -> protected (<[k := v]> h)) as Hi.
  { intros k v h Hk. apply protected_insert. rewrite !elem_of_cons, elem_of_nil in Hk. destruct Hk as [->|[->|[]]]; unfold protections; simpl;
      rewrite !elem_of_cons, elem_of_nil; by intros [|[|[|[|[|]]]]]. }
  eexists. split.
  - simpl. unfold commit. simpl. by destruct (rs_sent r) as [[st h]|].
  - apply Hi; [by repeat (left; done) || right; left|]. apply Hi; [by left|done].
Qed.

(** every response is hardened and logged as it was sent. Around a handler
    that leaves them alone, the middleware sends the request's identifier, the
    content policy, nosniff, the frame and the referrer policy with every
    response, one that reports a panic included; a handler that panics before it
    sent anything is answered with 500; and the status in the log is the status
    that was sent. *)
Theorem responses_are_hardened handler ending :
  respects handler -> ending <> Aborts ->
  exists r status h, (chain error_text requestID handler ending).1 = Some r /\ rs_sent r = Some (status, h) /\ protected h /\
    (ending = Returns -> (chain error_text requestID handler ending).2 = Some status) /\
    (ending = Panics -> (forall a, a ∈ handler -> exists k v, a = SetHeader k v) -> status = 500).
Proof.
  intros Hh He. pose proof (chain_in_step handler Hh) as [Hp Hs]. unfold chain.
  set (s := recorded _ _) in *. destruct ending; [| |done]; cbn [fst snd].
  - unfold commit. destruct (rs_sent (sr_response s)) as [[st h]|] eqn:E.
    + destruct Hs as (_ & <- & Hprot). exists (sr_response s), (sr_status s), h. by split_and!.
    + destruct Hs as [_ ->]. do 3 eexists. split_and!; simpl; try done.
  - destruct (panic_answer _ Hp) as (h & Hsent & Hprot).
    destruct (rs_sent (sr_response s)) as [[st h']|] eqn:E.
    + destruct Hs as (Hw & Hst & Hh'). exists (commit 200 (acts (internal_error error_text) (sr_response s))), st, h'.
      split_and!; [done|unfold commit; by rewrite Hsent|done|done|].
      intros _ Hset. exfalso. assert (rs_sent (sr_response s) = None) as Hn; [|congruence]. subst s. clear -Hset.
      assert (forall l s0, (forall a, a ∈ l -> exists k v, a = SetHeader k v) -> rs_sent (sr_response s0) = None -> rs_sent (sr_response (fold_left record l s0)) = None) as Hl.
      { induction l as [|a l IH]; intros s0 Ha H0; simpl; [done|]. apply IH; [intros b Hb; apply Ha; by right|].
        destruct (Ha a) as (k & v & ->); [by left|]. done. }
      apply Hl; [|done]. intros a. rewrite elem_of_app. intros [Ha|Ha]; [|by apply Hset].
      unfold security_headers in Ha. rewrite !elem_of_cons, elem_of_nil in Ha. destruct Ha as [->|[->|[->|[->|[]]]]]; eauto.
    + exists (commit 200 (acts (internal_error error_text) (sr_response s))), 500, h. split_and!; try done. unfold commit. by rewrite Hsent.
Qed.
End Responses.

(** ** Witnesses *)

Lemma responses_are_hardened_witness :
  exists r status h, (chain (fun c => c) "r1" (writeJSON 200 (Some "{}")) Returns).1 = Some r /\ rs_sent r = Some (status, h) /\
    h !! "X-Content-Type-Options" = Some "nosniff".
Proof.
  destruct (responses_are_hardened (fun c => c) "r1" (writeJSON 200 (Some "{}")) Returns) as (r & st & h & H1 & H2 & H3 & _).
  - intros k v H. unfold writeJSON in H. simpl in H. rewrite !elem_of_cons, elem_of_nil in H. unfold protections. simpl. rewrite !elem_of_cons, elem_of_nil.
    destruct H as [[= -> ->]|[[= -> ->]|[H|[H|[]]]]]; try discriminate H; by intros [|[|[|[|[|]]]]].
  - discriminate.
  - exists r, st, h. split; [exact H1|]. split; [exact H2|]. apply H3. unfold protections. simpl. rewrite !elem_of_cons. auto.
Defined.

Section Sample.
#[local] Existing Instances api_case api_mail api_net api_fmt api_collation api_hasher exact_float no_url.

Lemma safe_methods_change_nothing_witness : (ask (GetMailbox "b1")).2 = api_db /\ px_store (ask_queue (GetMessageBody "m1") (mail_db "body")).2 = px_store (mail_db "body").
Proof.
  split.
  - exact (proj1 (safe_methods_change_nothing None (fun _ => Err "no entropy") None "smtp" "graph" "10.0.0.1" "curl" (fun _ => None) (fun _ => "") "dev" sqliteDialect
      "smtp:587" "https://graph" calm admin_session api_db (fun n x => eq_refl)) (GetMailbox "b1") eq_refl).
  - exact (proj1 (proj2 (proj2 (safe_methods_change_nothing None (fun _ => Err "no entropy") None "smtp" "graph" "10.0.0.1" "curl" (fun _ => None) (fun _ => "") "dev" sqliteDialect
      "smtp:587" "https://graph" calm admin_session (mail_db "body") (fun n x => eq_refl)) (GetMessageBody "m1") eq_refl))).
Defined.
End Sample.
