(* ===== verification/People.v ===== *)
(** * What the management API shows of people

    The views of [internal/adminapi/users.go] and [auth.go]: the listing of
    administrators, one of them, the session's own user, and what the sign-in
    page may offer. *)

From stdpp Require Import base gmap strings list sorting.
From Stdlib Require Import ZArith Lia.
From S2P Require Import Prelude GoStrings StoreModels MessageStore Directory AdminStore AdminAuth Api DirectoryApi ApiSecrecy.

Open Scope Z_scope.

Record userResponse := mkUserResponse {
  ur_ID : string; ur_Username : string; ur_Email : string; ur_DisplayName : string; ur_Role : Role; ur_Source : string; ur_Disabled : bool;
  ur_HasPassword : bool; ur_LockedUntil : option Z; ur_LastLoginAt : option Z; ur_CreatedAt : Z; ur_UpdatedAt : Z
}.

Definition has_password (u : AdminUser) : bool := match u_PasswordHash u with Some h => sent h | None => false end.

Definition toUserResponse (u : AdminUser) : userResponse :=
  mkUserResponse (u_ID u) (u_Username u) (u_Email u) (u_DisplayName u) (u_Role u) (u_Source u) (u_Disabled u) (has_password u)
    (u_LockedUntil u) (u_LastLoginAt u) (u_CreatedAt u) (u_UpdatedAt u).

(** A session as its own user sees it. *)
Record sessionResponse := mkSessionResponse { sn_User : userResponse; sn_Permissions : list Permission; sn_CSRFToken : string; sn_ExpiresAt : Z }.

Definition handleMe (auth : Authenticated) : sessionResponse :=
  mkSessionResponse (toUserResponse (au_User auth)) (PermissionsFor (u_Role (au_User auth))) (s_CSRFToken (au_Session auth)) (s_ExpiresAt (au_Session auth)).

Record authConfigResponse := mkAuthConfig { ac_LocalEnabled : bool; ac_OIDCEnabled : bool; ac_OIDCLabel : string }.

Definition handleAuthConfig (local oidc : bool) : authConfigResponse :=
  mkAuthConfig local oidc (if oidc then "Single sign-on" else "").

Inductive PBody := AllUsers (l : list userResponse) (total : Z) | OneUser (u : userResponse).

Definition handleListUsers `{Collation} (io : option string) (db : AdminDB) : Answer PBody :=
  match Users_List io db with
  | Ok users => Done 200 (AllUsers (List.map toUserResponse users) (Z.of_nat (length users)))
  | Err e => store_refusal e
  end.

Definition handleGetUser (io : option string) (id : string) (db : AdminDB) : Answer PBody :=
  match Users_Get io id db with
  | Ok user => Done 200 (OneUser (toUserResponse user))
  | Err e => store_refusal e
  end.

(** ** Secrecy *)

(** A user without what proves who it is. *)
Definition mask_user (u : AdminUser) : AdminUser :=
  mkAdminUser (u_ID u) (u_Username u) (u_Email u) (u_DisplayName u) (if has_password u then Some "*" else None) (u_Role u) (u_Source u)
    None "" None (u_Disabled u) 0 (u_LockedUntil u) (u_LastLoginAt u) (u_CreatedAt u) (u_UpdatedAt u).

Definition mask_people (db : AdminDB) : gmap string AdminUser := mask_user <$> admin_users db.

Lemma response_of_masked_user u : toUserResponse (mask_user u) = toUserResponse u.
Proof. unfold toUserResponse, mask_user. simpl. f_equal. unfold has_password. simpl. by destruct (u_PasswordHash u) as [h|]; [destruct (sent h)|]. Qed.

Lemma responses_of_masked_users l : List.map toUserResponse (mask_user <$> l) = List.map toUserResponse l.
Proof. induction l as [|u l IH]; [done|]. rewrite fmap_cons. cbn [List.map]. by rewrite IH, response_of_masked_user. Qed.

(** no view of people reveals what proves who they are. Two tables of
    administrators that differ only in password hashes, second factors, links
    to the identity provider and counters of failed logins, whether there is a
    password apart, give the listing and every single view the same answer; and
    what a session is told of itself does not depend on them either. *)
Theorem people_reveal_no_proof `{Collation} db1 db2 :
  mask_people db1 = mask_people db2 ->
  (forall io, handleListUsers io db1 = handleListUsers io db2) /\ (forall io id, handleGetUser io id db1 = handleGetUser io id db2) /\
  (forall s u1 u2, mask_user u1 = mask_user u2 -> handleMe (mkAuthenticated s u1) = handleMe (mkAuthenticated s u2)).
Proof.
  intros Hdb. split_and!.
  - intros io. unfold handleListUsers, Users_List. destruct io; [done|]. simpl.
    assert (forall db, list_rows (fun _ => true) u_Username (mask_people db) = mask_user <$> list_rows (fun _ => true) u_Username (admin_users db)) as Hm
      by (intros db; by apply list_rows_fmap).
    rewrite <-(responses_of_masked_users (list_rows _ _ (admin_users db1))), <-(responses_of_masked_users (list_rows _ _ (admin_users db2))).
    rewrite <-!Hm, Hdb. do 3 f_equal. rewrite <-(length_fmap mask_user (list_rows _ _ (admin_users db1))), <-(length_fmap mask_user (list_rows _ _ (admin_users db2))).
    by rewrite <-!Hm, Hdb.
  - intros io id. unfold handleGetUser, Users_Get. destruct io; [done|].
    pose proof (masked_lookup mask_user _ _ id Hdb) as Hl. destruct Hl as [u1 u2 Hu|]; [|done].
    by rewrite <-(response_of_masked_user u1), <-(response_of_masked_user u2), Hu.
  - intros s u1 u2 Hu. unfold handleMe. simpl. rewrite <-(response_of_masked_user u1), <-(response_of_masked_user u2), Hu.
    by rewrite (f_equal u_Role Hu : u_Role u1 = u_Role u2).
Qed.

Section Sample.
#[local] Instance people_collation : Collation := {| collate := string_le; collate_dec := string_le_dec |}.

Definition someone (hash : string) : AdminUser := mkAdminUser "u1" "root" "" "" (Some hash) RoleAdmin SourceLocal None "" None false 0 None None 0 0.
Definition people (hash : string) : AdminDB := mkAdminDB {[ "u1" := someone hash ]} ∅.

Lemma people_reveal_no_proof_witness : handleListUsers None (people "$argon2id$a") = handleListUsers None (people "$argon2id$b").
Proof. apply (people_reveal_no_proof (people "$argon2id$a") (people "$argon2id$b")). vm_compute. reflexivity. Defined.
End Sample.
