(* ===== verification/Sso.v ===== *)
(** * The redirect of single sign-on, and cookies

    [NewOIDCAuthenticator], [Start] and [StateCookie] of
    [internal/adminauth/oidc.go], [Cookie] and [ClearCookie] of [session.go],
    [handleOIDCStart], [handleOIDCCallback] and the state encoding of
    [internal/adminapi/{auth,state}.go]: what the proxy remembers of a sign-in
    while the browser is at the identity provider travels in a cookie.

    The OIDC and OAuth libraries are parameters: [discover] is
    [oidc.NewProvider], [AuthCodeURL] the library's URL, and [exchange] the
    exchange of a code with a PKCE verifier up to the verified ID token. *)

From stdpp Require Import base gmap strings list.
From Stdlib Require Import ZArith Lia Ascii.
From S2P Require Import Prelude GoStrings GoStringsFacts Utf8 Base64 StoreModels MessageStore Policy AdminStore AdminStoreProps AdminAuth AdminAuthProps AdminApi AuditLog.
From S2P Require Import JsonList.

Open Scope Z_scope.

(** ** Cookies *)

Inductive SameSite := SameSiteLax | SameSiteNone.

Record Cookie := mkCookie {
  ck_Name : string; ck_Value : string; ck_Path : string; ck_HttpOnly : bool; ck_Secure : bool; ck_SameSite : SameSite;
  ck_Expires : option Z; ck_MaxAge : Z
}.

(** The part of [SessionConfig] that shapes cookies, with the defaults of
    [NewSessionManager]. *)
Record CookieConfig := mkCookieConfig { cc_Name : string; cc_Path : string; cc_Secure : bool }.

Definition cookie_defaults (cfg : CookieConfig) : CookieConfig :=
  mkCookieConfig (if bool_decide (cc_Name cfg = "") then "sap_session" else cc_Name cfg)
    (if bool_decide (cc_Path cfg = "") then "/" else cc_Path cfg) (cc_Secure cfg).

Definition session_cookie (cfg : CookieConfig) (token : string) (expires : Z) : Cookie :=
  mkCookie (cc_Name cfg) token (cc_Path cfg) true (cc_Secure cfg) SameSiteLax (Some expires) 0.

Definition set_MaxAge (n : Z) (c : Cookie) : Cookie :=
  mkCookie (ck_Name c) (ck_Value c) (ck_Path c) (ck_HttpOnly c) (ck_Secure c) (ck_SameSite c) (ck_Expires c) n.

(** [time.Unix(0, 0)] is 0. *)
Definition ClearCookie (cfg : CookieConfig) : Cookie := set_MaxAge (-1) (session_cookie cfg "" 0).

Definition CallbackPath : string := "/api/v1/auth/oidc/callback".
Definition oidcStateCookie : string := "sap_oidc_state".

Definition StateCookie (name value : string) (secure : bool) : Cookie :=
  mkCookie name value CallbackPath true secure SameSiteLax None 600.

Definition expiredStateCookie (secure : bool) : Cookie := set_MaxAge (-1) (StateCookie oidcStateCookie "" secure).

(** ** Sign-in requests *)

Record AuthRequest := mkAuthRequest { ar_URL : string; ar_State : string; ar_Nonce : string; ar_Verifier : string }.

(** [json.Marshal] of the struct: the fields in their order. *)
Definition json_field (name : string) (value : string) : list ascii := encode_string (bytes name) ++ ":"%char :: encode_string (bytes value).

Definition marshal_request (r : AuthRequest) : list ascii :=
  "{"%char :: json_field "URL" (ar_URL r) ++ COMMA :: json_field "State" (ar_State r) ++ COMMA :: json_field "Nonce" (ar_Nonce r)
    ++ COMMA :: json_field "Verifier" (ar_Verifier r) ++ ["}"%char].

Definition request_valid (r : AuthRequest) : Prop :=
  valid_utf8 (ar_URL r) = true /\ valid_utf8 (ar_State r) = true /\ valid_utf8 (ar_Nonce r) = true /\ valid_utf8 (ar_Verifier r) = true.

(** What is relied on of [json.Unmarshal] into the struct: it reads back what
    [json.Marshal] wrote. What it makes of other texts is left open. *)
Class RequestCodec := {
  unmarshal_request : list ascii -> option AuthRequest;
  unmarshal_marshal : forall r, request_valid r -> unmarshal_request (marshal_request r) = Some r
}.

Definition encodeState (b : list ascii) : string := b64_encode URLAlphabet (unbytes b).
Definition decodeState (s : string) : option (list ascii) := bytes <$> b64_decode URLAlphabet false s.

(** ** The authenticator *)

Record SsoConfig := mkSsoConfig {
  sso_Enabled : bool; sso_Issuer : string; sso_ClientID : string; sso_ClientSecret : string; sso_Scopes : list string;
  sso_BaseURL : string; sso_mapping : OIDCConfig
}.

Section Flow.
Context {Endpoint : Type} (discover : string -> result string Endpoint).

Record oauth2Config := mkOauth2 {
  ox_ClientID : string; ox_ClientSecret : string; ox_Endpoint : Endpoint; ox_RedirectURL : string; ox_Scopes : list string
}.

Record OIDCAuthenticator := mkOIDCAuthenticator { oa_cfg : SsoConfig; oa_oauth : oauth2Config }.

Definition NewOIDCAuthenticator (cfg : SsoConfig) : result string (option OIDCAuthenticator) :=
  if negb (sso_Enabled cfg) then Ok None
  else match discover (sso_Issuer cfg) with
  | Err e => Err ("adminauth: discovering the identity provider at " +:+ sso_Issuer cfg +:+ ": " +:+ e)
  | Ok endpoint =>
      let scopes := match sso_Scopes cfg with [] => ["openid"; "profile"; "email"] | l => l end in
      Ok (Some (mkOIDCAuthenticator cfg
        (mkOauth2 (sso_ClientID cfg) (sso_ClientSecret cfg) endpoint (TrimRight (sso_BaseURL cfg) "/" +:+ CallbackPath) scopes)))
  end.

Context (AuthCodeURL : oauth2Config -> string -> string -> string -> string).
Context (exchange : oauth2Config -> string -> string -> result string IDToken).

(** [Start]: [state] and [nonce] are what [GenerateToken] returned, [verifier]
    what [oauth2.GenerateVerifier] did. *)
Definition Start (a : OIDCAuthenticator) (state nonce : result string string) (verifier : string) : result string AuthRequest :=
  match state with
  | Err e => Err ("adminauth: generating state: " +:+ e)
  | Ok state =>
      match nonce with
      | Err e => Err ("adminauth: generating a nonce: " +:+ e)
      | Ok nonce => Ok (mkAuthRequest (AuthCodeURL (oa_oauth a) state nonce verifier) state nonce verifier)
      end
  end.

Inductive StartAnswer := StartStatus (status : Z) | StartRedirect (url : string) (cookie : Cookie).

Definition handleOIDCStart (oidc : option OIDCAuthenticator) (secure : bool) (state nonce : result string string) (verifier : string) : StartAnswer :=
  match oidc with
  | None => StartStatus 404
  | Some a =>
      match Start a state nonce verifier with
      | Err _ => StartStatus 500
      | Ok req => StartRedirect (ar_URL req) (StateCookie oidcStateCookie (encodeState (marshal_request req)) secure)
      end
  end.

Context `{RC : RequestCodec} `{GF : GoFmt} `{NI : NetIP}.
Context (SplitHost : string -> option string) (ParseIP : string -> option IP) (HashSessionToken : string -> string).

(** The pending request of the browser's cookie. *)
Definition pending_of (cookie : option string) : option AuthRequest :=
  match cookie with
  | None => None
  | Some v => match decodeState v with Some b => unmarshal_request b | None => None end
  end.

(** [handleOIDCCallback] with its cookies: [errCode], [code] and
    [returnedState] are the query's parameters. The exchange is only made with
    a pending request. *)
Definition callback (oidc : option OIDCAuthenticator) (secure : bool) (ccfg : CookieConfig) (io : OidcIO) (io_issue : option string)
    (scfg : SessionConfig) (token csrf : result string string) (now : Z) (newUserID newID errCode : string) (cookie : option string)
    (code returnedState : string) (r : Request) (read db : AdminDB) : SsoResult * list Cookie :=
  let pending := pending_of cookie in
  let verified := match oidc, pending with
                  | Some a, Some req => exchange (oa_oauth a) code (ar_Verifier req)
                  | _, _ => Err "no pending request"
                  end in
  let res := handleOIDCCallback SplitHost ParseIP HashSessionToken ((fun a => sso_mapping (oa_cfg a)) <$> oidc) io io_issue scfg token csrf now
               newUserID newID errCode ((fun req => (ar_State req, ar_Nonce req)) <$> pending) returnedState verified r read db in
  let cleared := match oidc, cookie with
                 | Some _, Some _ => if bool_decide (errCode = "") then [expiredStateCookie secure] else []
                 | _, _ => []
                 end in
  (res, cleared ++ match sso_answer res with
                   | SsoDone (session, token, _) => [session_cookie ccfg token (s_ExpiresAt session)]
                   | _ => []
                   end).
End Flow.
Arguments oauth2Config : clear implicits.
Arguments OIDCAuthenticator : clear implicits.

(** ** A decoder that keeps the promise *)

Fixpoint strip (pre l : list ascii) : option (list ascii) :=
  match pre, l with
  | [], _ => Some l
  | a :: pre, b :: l => if Ascii.eqb a b then strip pre l else None
  | _ :: _, [] => None
  end.

(** [name:] and the string after it. *)
Definition read_field (pre : list ascii) (l : list ascii) : option (string * list ascii) :=
  match strip (pre ++ [JQUOTE]) l with
  | Some t => match unquote t with Some (v, rest) => Some (unbytes v, rest) | None => None end
  | None => None
  end.

Definition field_prefix (sep : ascii) (name : string) : list ascii := sep :: encode_string (bytes name) ++ [":"%char].

Definition read_request (l : list ascii) : option AuthRequest :=
  match read_field (field_prefix "{"%char "URL") l with
  | None => None
  | Some (u, l) =>
      match read_field (field_prefix COMMA "State") l with
      | None => None
      | Some (s, l) =>
          match read_field (field_prefix COMMA "Nonce") l with
          | None => None
          | Some (n, l) =>
              match read_field (field_prefix COMMA "Verifier") l with
              | Some (v, ["}"%char]) => Some (mkAuthRequest u s n v)
              | _ => None
              end
          end
      end
  end.

Lemma strip_app pre l : strip pre (pre ++ l) = Some l.
Proof. induction pre as [|a pre IH]; [done|]. simpl. by rewrite Ascii.eqb_refl. Qed.

Lemma read_field_json sep name value rest :
  valid_utf8 value = true -> read_field (field_prefix sep name) (sep :: json_field name value ++ rest) = Some (value, rest).
Proof.
  intros Hv. unfold read_field.
  assert (sep :: json_field name value ++ rest = (field_prefix sep name ++ [JQUOTE]) ++ (encode_text (bytes value) ++ JQUOTE :: rest)) as ->.
  { unfold json_field, field_prefix, encode_string at 2. simpl. rewrite <-!app_assoc. simpl. by rewrite <-!app_assoc. }
  rewrite strip_app, unquote_text. unfold valid_utf8 in Hv. apply negb_true_iff in Hv. by rewrite valid_chunks, unbytes_bytes.
Qed.

#[export] Program Instance strict_codec : RequestCodec := {| unmarshal_request := read_request |}.
Next Obligation.
  intros [u s n v] (Hu & Hs & Hn & Hv). unfold read_request, marshal_request. cbn [ar_URL ar_State ar_Nonce ar_Verifier] in *.
  rewrite (read_field_json "{"%char "URL" u) by done. rewrite (read_field_json COMMA "State" s) by done.
  rewrite (read_field_json COMMA "Nonce" n) by done. by rewrite (read_field_json COMMA "Verifier" v).
Qed.

(** ** Lemmas *)

Section Flow.
Context {Endpoint : Type}.
Context (AuthCodeURL : oauth2Config Endpoint -> string -> string -> string -> string).
Context (exchange : oauth2Config Endpoint -> string -> string -> result string IDToken).
Context `{RC : RequestCodec} `{GF : GoFmt} `{NI : NetIP}.
Context (SplitHost : string -> option string) (ParseIP : string -> option IP) (HashSessionToken : string -> string).

Lemma decode_encode_state b : decodeState (encodeState b) = Some b.
Proof. unfold decodeState, encodeState. rewrite (b64_decode_encode URLAlphabet URLAlphabet_ok). simpl. by rewrite bytes_unbytes. Qed.

Lemma pending_encoded r : request_valid r -> pending_of (Some (encodeState (marshal_request r))) = Some r.
Proof. intros Hv. unfold pending_of. rewrite decode_encode_state. by apply unmarshal_marshal. Qed.

(** ** Properties *)

(** C26: a sign-in is for the browser that started it. Whatever the browser
    sends, [handleOIDCCallback] hands out a session only when single sign-on is
    configured, the cookie holds a pending request, the state that came back
    is the one in the cookie and not empty, and the identity provider gave, for
    the code and for the verifier in the cookie, an ID token with the nonce in
    the cookie; the state cookie is then cleared. No other answer sets a
    session cookie, and every cookie that is set is out of reach of scripts,
    restricted to same-site navigation and Secure as configured. *)
Theorem sign_in_belongs_to_its_browser oidc secure ccfg io io_issue scfg token csrf now newUserID newID errCode cookie code returnedState r read db :
  let run := callback exchange SplitHost ParseIP HashSessionToken oidc secure ccfg io io_issue scfg token csrf now newUserID newID errCode
               cookie code returnedState r read db in
  (forall issued, sso_answer run.1 = SsoDone issued ->
     exists a req idToken, oidc = Some a /\ pending_of cookie = Some req /\ errCode = ""
       /\ returnedState = ar_State req /\ ar_State req <> ""
       /\ exchange (oa_oauth a) code (ar_Verifier req) = Ok idToken /\ it_Nonce idToken = ar_Nonce req
       /\ run.2 = [expiredStateCookie secure; session_cookie ccfg issued.1.2 (s_ExpiresAt issued.1.1)])
  /\ ((forall issued, sso_answer run.1 <> SsoDone issued) -> Forall (fun c => ck_Name c = oidcStateCookie /\ ck_Value c = "") run.2)
  /\ Forall (fun c => ck_HttpOnly c = true /\ ck_SameSite c = SameSiteLax
                      /\ (ck_Secure c = secure \/ ck_Secure c = cc_Secure ccfg)) run.2.
Proof.
  cbv zeta. unfold callback. set (res := handleOIDCCallback _ _ _ _ _ _ _ _ _ _ _ _ _ _ _ _ _ _ _). cbn [fst snd].
  set (cleared := match oidc with Some _ => _ | None => _ end).
  assert (Forall (fun c => c = expiredStateCookie secure) cleared) as Hc.
  { unfold cleared. destruct oidc, cookie; try constructor. case_bool_decide; repeat constructor. }
  split_and!.
  - intros issued Hdone. rewrite Hdone. pose proof Hdone as Hd. unfold res in Hd. clear Hdone. destruct oidc as [a|]; [|done]. simpl in Hd. case_bool_decide as He; [|done]. simpl in Hd.
    destruct (pending_of cookie) as [req|] eqn:Hp; [|done]. simpl in Hd. destruct (Complete _ _ _ _ _ _ _ _ _ _) as [[user|e] db1] eqn:Hcp; [|by destruct e].
    unfold Complete, ConstantTimeEqual in Hcp. case_bool_decide as Hs; [done|]. case_bool_decide as Hst; [|done]. simpl in Hcp.
    destruct (exchange _ _ _) as [t|] eqn:Hx; [|done]. case_bool_decide as Hn; [|done].
    exists a, req, t. split_and!; try done; [congruence|]. unfold cleared. destruct cookie as [v|]; [|done].
    by destruct issued as [[s t'] c].
  - intros Hn. rewrite Forall_app. split; [by eapply Forall_impl; [exact Hc|intros c ->]|]. destruct (sso_answer res) as [| |i]; try constructor. by destruct (Hn i).
  - rewrite Forall_app. split; [eapply Forall_impl; [exact Hc|intros c ->; by auto]|]. destruct (sso_answer res) as [| |[[s t] c]]; [constructor..|]. constructor; [by auto|constructor].
Qed.

(** The callback with the cookie of a request that was started. *)
Lemma callback_completes a b secure state nonce verifier url cookie ccfg io io_issue scfg token csrf now newUserID newID code r read db
    idToken raw user db1 issued db2 :
  handleOIDCStart AuthCodeURL (Some a) secure (Ok state) (Ok nonce) verifier = StartRedirect url cookie ->
  request_valid (mkAuthRequest url state nonce verifier) -> state <> "" ->
  exchange (oa_oauth b) code verifier = Ok idToken -> it_Nonce idToken = nonce -> it_claims idToken = Ok raw ->
  resolveUser (sso_mapping (oa_cfg b)) io now newUserID (readClaims (it_Subject idToken) raw) read db = (Ok user, db1) ->
  Issue SplitHost ParseIP HashSessionToken io_issue scfg token csrf now now newID user r db1 = (Ok issued, db2) ->
  let run := callback exchange SplitHost ParseIP HashSessionToken (Some b) secure ccfg io io_issue scfg token csrf now newUserID newID ""
               (Some (ck_Value cookie)) code state r read db in
  sso_answer run.1 = SsoDone issued /\ sso_db run.1 = db2.
Proof.
  intros Hstart Hv Hs Hx Hn Hc Hr Hi. cbv zeta. simpl in Hstart. injection Hstart as <- <-. cbn [StateCookie ck_Value] in *.
  unfold callback. rewrite (pending_encoded _ Hv). cbn [fmap option_fmap option_map fst ar_State ar_Nonce ar_Verifier]. rewrite Hx.
  unfold handleOIDCCallback. simpl. unfold Complete, ConstantTimeEqual. rewrite (bool_decide_eq_false_2 _ Hs), !bool_decide_eq_true_2 by done. simpl.
  rewrite Hc, Hr, Hi. done.
Qed.

(** a sign-in that was started can be completed, on any replica. The cookie
    [handleOIDCStart] sets gives the callback the request back; so when the
    browser brings it with the state of the redirect, and the provider answers
    the code and the verifier of that redirect with an ID token for its nonce,
    the sign-in is decided by the token's claims alone: the browser is signed
    in as the user they resolve to. *)
Theorem started_sign_in_completes a b secure state nonce verifier url cookie ccfg io io_issue scfg token csrf now newUserID newID code r read db
    idToken raw user db1 issued db2 :
  handleOIDCStart AuthCodeURL (Some a) secure (Ok state) (Ok nonce) verifier = StartRedirect url cookie ->
  request_valid (mkAuthRequest url state nonce verifier) -> state <> "" ->
  exchange (oa_oauth b) code verifier = Ok idToken -> it_Nonce idToken = nonce -> it_claims idToken = Ok raw ->
  resolveUser (sso_mapping (oa_cfg b)) io now newUserID (readClaims (it_Subject idToken) raw) read db = (Ok user, db1) ->
  Issue SplitHost ParseIP HashSessionToken io_issue scfg token csrf now now newID user r db1 = (Ok issued, db2) ->
  let run := callback exchange SplitHost ParseIP HashSessionToken (Some b) secure ccfg io io_issue scfg token csrf now newUserID newID ""
               (Some (ck_Value cookie)) code state r read db in
  sso_answer run.1 = SsoDone issued /\ sso_db run.1 = db2.
Proof. apply callback_completes. Qed.
End Flow.

(** ** Witness *)

Definition sample_replica : OIDCAuthenticator unit :=
  mkOIDCAuthenticator (mkSsoConfig true "https://idp" "proxy" "s" [] "https://mail/" sso)
    (mkOauth2 "proxy" "s" tt "https://mail/api/v1/auth/oidc/callback" ["openid"; "profile"; "email"]).

(** The authenticator the application would build. *)
Lemma sample_replica_built :
  NewOIDCAuthenticator (fun _ => Ok tt) (mkSsoConfig true "https://idp" "proxy" "s" [] "https://mail/" sso) = Ok (Some sample_replica).
Proof. vm_compute. reflexivity. Qed.

Definition sample_url (_ : oauth2Config unit) (state nonce verifier : string) : string := "https://idp/authorize?state=" +:+ state.
Definition sample_exchange (_ : oauth2Config unit) (code verifier : string) : result string IDToken :=
  if bool_decide (verifier = "v") then Ok ann_token else Err "invalid_grant".

Definition ann_resolved : result SignInError AdminUser * AdminDB :=
  resolveUser (GF := admin_fmt) sso (mkOidcIO None None None None) 80 "" (readClaims "sub-1"
    {[ "preferred_username" := CString "ann"; "groups" := CArray [Some "staff"; None; Some "ops"] ]}) sample_admins sample_admins.
Definition ann : AdminUser := match ann_resolved.1 with Ok u => u | Err _ => root_row end.
Definition ann_issued : result SessionErr (Session * string * string) * AdminDB :=
  Issue (NI := one_ip) (fun _ => None) (fun _ => None) token_hash None short (Ok "tok") (Ok "csrf2") 80 80 "s9" ann post ann_resolved.2.
Definition ann_session : Session * string * string := match ann_issued.1 with Ok i => i | Err _ => (issued_session, "", "") end.

Definition ann_cookie : string := encodeState (marshal_request (mkAuthRequest "https://idp/authorize?state=state" "state" "nonce" "v")).

Lemma started_sign_in_completes_witness :
  let run := callback (GF := admin_fmt) (NI := one_ip) sample_exchange (fun _ => None) (fun _ => None) token_hash (Some sample_replica) true
    (mkCookieConfig "sap_session" "/" true) (mkOidcIO None None None None) None short (Ok "tok") (Ok "csrf2") 80 "" "s9" ""
    (Some ann_cookie) "code" "state" post sample_admins sample_admins in
  sso_answer run.1 = SsoDone ann_session /\ u_Role ann = RoleOperator.
Proof.
  split; [|vm_compute; reflexivity].
  refine (proj1 (started_sign_in_completes sample_url sample_exchange (GF := admin_fmt) (NI := one_ip) (fun _ => None) (fun _ => None) token_hash
    sample_replica sample_replica true "state" "nonce" "v" "https://idp/authorize?state=state" (StateCookie oidcStateCookie ann_cookie true)
    (mkCookieConfig "sap_session" "/" true) (mkOidcIO None None None None) None short (Ok "tok") (Ok "csrf2") 80 "" "s9" "code" post sample_admins sample_admins
    ann_token _ ann ann_resolved.2 ann_session ann_issued.2 _ _ _ _ _ _ _ _)).
  - vm_compute. reflexivity.
  - split_and!; vm_compute; reflexivity.
  - discriminate.
  - vm_compute. reflexivity.
  - reflexivity.
  - reflexivity.
  - vm_compute. reflexivity.
  - vm_compute. reflexivity.
Defined.
