(* ===== verification/Idp.v ===== *)
(** * Single sign-on against an identity provider

    [internal/testsupport/fakeidp]: the OpenID Connect provider the sign-on is
    exercised with, and the whole flow of [internal/adminauth/oidc.go] through
    it: the redirect, the provider's answer, the callback, the exchange of the
    code and the sign-in.

    Values of a query or a form are maps as package net/url has them. The
    signature and its verification, SHA-256, the parsing of the redirect URI,
    the URL the OAuth library builds and the decoding of JSON are parameters,
    with what the flow relies on as laws. *)

From stdpp Require Import base gmap strings list.
From Stdlib Require Import ZArith Lia Ascii.
From S2P Require Import Prelude GoStrings GoStringsFacts Utf8 Base64 StoreModels MessageStore Policy AdminStore AdminStoreProps AdminAuth AdminAuthProps AdminApi AuditLog.
From S2P Require Import JsonList Sso.

Open Scope Z_scope.

(** ** Forms *)

(** [url.Values] with its [Get] and [Set]. *)
Notation Values := (gmap string (list string)) (only parsing).
Definition Get (v : Values) (key : string) : string := match v !! key with Some (x :: _) => x | _ => "" end.
Definition SetValue (v : Values) (key value : string) : Values := <[key := [value]]> v.

Lemma Get_Set v key value : Get (SetValue v key value) key = value.
Proof. unfold Get, SetValue. by rewrite lookup_insert_eq. Qed.

Lemma Get_Set_ne v key key' value : key <> key' -> Get (SetValue v key value) key' = Get v key'.
Proof. intros H. unfold Get, SetValue. by rewrite lookup_insert_ne. Qed.

(** ** Codes *)

Record pendingCode := mkPendingCode { pc_Nonce : string; pc_Challenge : string }.

Definition marshal_code (p : pendingCode) : list ascii :=
  "{"%char :: json_field "nonce" (pc_Nonce p) ++ COMMA :: json_field "challenge" (pc_Challenge p) ++ ["}"%char].

Definition code_valid (p : pendingCode) : Prop := valid_utf8 (pc_Nonce p) = true /\ valid_utf8 (pc_Challenge p) = true.

(** [json.Unmarshal] into the struct reads back what [json.Marshal] wrote. *)
Class CodeCodec := {
  unmarshal_code : list ascii -> result string pendingCode;
  unmarshal_marshal_code : forall p, code_valid p -> unmarshal_code (marshal_code p) = Ok p
}.

Definition encodeCode (p : pendingCode) : string := b64_encode URLAlphabet (unbytes (marshal_code p)).

Section Codes.
Context `{CC : CodeCodec} (base64_error : string -> string).

Definition decodeCode (code : string) : result string pendingCode :=
  match b64_decode URLAlphabet false code with
  | None => Err (base64_error code)
  | Some b => unmarshal_code (bytes b)
  end.
End Codes.

(** ** The provider *)

Record Provider := mkProvider {
  pv_URL : string;
  pv_claims : gmap string ClaimValue;
  pv_tokenRequests : list Values;
  pv_failToken : bool
}.

(** [Start], [SetClaims], [FailToken] *)
Definition start_provider (url : string) : Provider := mkProvider url ∅ [] false.
Definition SetClaims (claims : gmap string ClaimValue) (p : Provider) : Provider :=
  mkProvider (pv_URL p) claims (pv_tokenRequests p) (pv_failToken p).
Definition FailToken (fail : bool) (p : Provider) : Provider :=
  mkProvider (pv_URL p) (pv_claims p) (pv_tokenRequests p) fail.

(** [discovery]: the endpoints; the rest of the document is constant. *)
Record Discovery := mkDiscovery {
  ds_issuer : string; ds_authorization_endpoint : string; ds_token_endpoint : string; ds_jwks_uri : string;
  ds_challenge_methods : list string
}.
Definition discovery (p : Provider) : Discovery :=
  mkDiscovery (pv_URL p) (pv_URL p +:+ "/authorize") (pv_URL p +:+ "/token") (pv_URL p +:+ "/jwks") ["S256"].

(** An answer of the token endpoint. *)
Inductive TokenAnswer :=
| TokenRefused (status : Z) (error : string) (description : option string)
| TokenIssued (id_token : string).

(** [time.Time.Unix]: seconds since 1970. *)
Definition unix_epoch : Z := 62135596800 * Second.
Definition Unix (t : Z) : Z := (t - unix_epoch) / Second.

Section Provider.
Context `{CC : CodeCodec} (base64_error : string -> string).
(** SHA-256, [url.Parse] with [Query] of the redirect URI, and the signer with
    the provider's key. *)
Context (sha256 : string -> string) (parse_redirect : string -> option (string * Values)).
Context (sign : gmap string ClaimValue -> result string string).

Definition s256 (verifier : string) : string := b64_encode URLAlphabet (sha256 verifier).

(** [authorize]: where the browser is sent, or status 400. *)
Definition authorize (q : Values) : result Z (string * Values) :=
  match parse_redirect (Get q "redirect_uri") with
  | None => Err 400
  | Some (redirect, values) =>
      let code := encodeCode (mkPendingCode (Get q "nonce") (Get q "code_challenge")) in
      Ok (redirect, SetValue (SetValue values "code" code) "state" (Get q "state"))
  end.

(** [clientID]: the user of the Authorization header, or the form. *)
Definition clientID (basic : option string) (form : Values) : string :=
  match basic with
  | Some id => if bool_decide (id = "") then Get form "client_id" else id
  | None => Get form "client_id"
  end.

(** [signIDToken]: the claims set last win. *)
Definition id_claims (p : Provider) (now : Z) (audience nonce : string) (extra : gmap string ClaimValue) : gmap string ClaimValue :=
  let base : gmap string ClaimValue :=
    {[ "iss" := CString (pv_URL p); "aud" := CString audience; "exp" := CNumber (Itoa (Unix (now + Hour)));
       "iat" := CNumber (Itoa (Unix now)); "sub" := CString "default-subject" ]} in
  extra ∪ (if bool_decide (nonce = "") then base else <["nonce" := CString nonce]> base).

Definition signIDToken (p : Provider) (now : Z) (audience nonce : string) (extra : gmap string ClaimValue) : result string string :=
  sign (id_claims p now audience nonce extra).

(** [token]: the request is recorded first. *)
Definition token (now : Z) (basic : option string) (form : Values) (p : Provider) : TokenAnswer * Provider :=
  let p := mkProvider (pv_URL p) (pv_claims p) (pv_tokenRequests p ++ [form]) (pv_failToken p) in
  (if pv_failToken p then TokenRefused 400 "invalid_grant" None
   else match decodeCode base64_error (Get form "code") with
   | Err e => TokenRefused 400 "invalid_grant" (Some e)
   | Ok pending =>
       let verifier := Get form "code_verifier" in
       if negb (bool_decide (pc_Challenge pending = ""))
          && (bool_decide (verifier = "") || negb (bool_decide (s256 verifier = pc_Challenge pending)))
       then TokenRefused 400 "invalid_grant" (Some "PKCE verification failed")
       else match signIDToken p now (clientID basic form) (pc_Nonce pending) (pv_claims p) with
            | Err e => TokenRefused 500 e None
            | Ok idToken => TokenIssued idToken
            end
   end, p).

Lemma decode_encode_code c : code_valid c -> decodeCode base64_error (encodeCode c) = Ok c.
Proof.
  intros Hc. unfold decodeCode, encodeCode. rewrite (b64_decode_encode URLAlphabet URLAlphabet_ok), bytes_unbytes.
  by apply unmarshal_marshal_code.
Qed.

(** A code is bound to the browser's request: the endpoint issues a token for
    the code of a redirect only to someone who shows a verifier of that
    redirect's challenge, and the token it signs is for that redirect's nonce
    and whoever asked, unless the claims that were set say otherwise. *)
Theorem code_is_bound_to_its_request now basic form p q redirect values idToken :
  authorize q = Ok (redirect, values) -> code_valid (mkPendingCode (Get q "nonce") (Get q "code_challenge")) ->
  Get form "code" = Get values "code" -> (token now basic form p).1 = TokenIssued idToken ->
  pv_failToken p = false
  /\ (Get q "code_challenge" <> "" -> s256 (Get form "code_verifier") = Get q "code_challenge")
  /\ sign (id_claims p now (clientID basic form) (Get q "nonce") (pv_claims p)) = Ok idToken.
Proof.
  unfold authorize. destruct (parse_redirect _) as [[r v]|]; [|done]. intros [= <- <-] Hv Hcode. unfold token. cbn [fst pv_failToken].
  destruct (pv_failToken p); [done|]. rewrite Hcode, Get_Set_ne, Get_Set, decode_encode_code by done. cbn [pc_Challenge pc_Nonce].
  destruct (_ && _) eqn:Hpkce; [done|]. destruct (signIDToken _ _ _ _ _) as [t|e] eqn:Hs; [|done]. intros [= ->].
  split_and!; [done| |exact Hs]. intros Hc. rewrite (bool_decide_eq_false_2 _ Hc) in Hpkce. simpl in Hpkce. bools. done.
Qed.
End Provider.

(** ** The libraries *)

(** A claim whose name no JSON decoder takes for another and whose value is
    text, a list of texts or an integer. *)
Definition key_byte (c : ascii) : bool :=
  ((97 <=? code c) && (code c <=? 122)) || ((48 <=? code c) && (code c <=? 57)) || bool_decide (c = "_"%char).
Definition claim_key (k : string) : bool := negb (string_exists (fun c => negb (key_byte c)) k).

Definition plain_value (v : ClaimValue) : Prop :=
  match v with
  | CString s => valid_utf8 s = true
  | CNumber t => exists n, t = Itoa n /\ 0 <= n <= max_int64
  | CArray l => Forall (fun i => exists s, i = Some s /\ valid_utf8 s = true) l
  | CStrings l => Forall (fun s => valid_utf8 s = true) l
  | COther => False
  end.

Definition plain_claims (claims : gmap string ClaimValue) : Prop := map_Forall (fun k v => claim_key k = true /\ plain_value v) claims.

(** What is left of such a value when it is written as JSON and read into a
    [map[string]any]: every number is a [float64] and every list a [[]any]. *)
Definition reread (v : ClaimValue) : ClaimValue :=
  match v with
  | CString s => CString s
  | CNumber _ => COther
  | CArray l => CArray l
  | CStrings l => CArray (Some <$> l)
  | COther => COther
  end.

(** The members of an ID token the verifier looks at itself, beyond those the
    provider fills in. *)
Definition verifier_members : list string := ["nbf"; "at_hash"; "_claim_names"; "_claim_sources"].

(** golang.org/x/oauth2 ([lib_url] is [AuthCodeURL]), net/url ([lib_query] the
    query of a URL, [lib_redirect] the parsed redirect URI), SHA-256, and the
    signing of ID tokens with the provider's key and their verification by
    go-oidc with the keys the provider publishes, [lib_verify] for an issuer, a
    client and a time. What is relied on of the latter: a token signed with that
    key, of that issuer, for that client and not expired, without a "not
    before", with a subject that is text, is accepted, and its claims are those
    that were signed, read back from JSON. *)
Class OidcLibrary (Endpoint : Type) := {
  lib_url : oauth2Config Endpoint -> string -> string -> string -> string;
  lib_query : string -> Values;
  lib_redirect : string -> option (string * Values);
  lib_sha256 : string -> string;
  lib_sign : gmap string ClaimValue -> result string string;
  lib_verify : string -> string -> Z -> string -> result string IDToken;
  lib_url_query : forall cfg state nonce verifier,
    let q := lib_query (lib_url cfg state nonce verifier) in
    Get q "state" = state /\ Get q "nonce" = nonce /\ Get q "code_challenge" = s256 lib_sha256 verifier
    /\ Get q "redirect_uri" = ox_RedirectURL cfg;
  lib_verify_sign : forall issuer client now claims raw expires issued subject nonce,
    lib_sign claims = Ok raw -> plain_claims claims ->
    claims !! "iss" = Some (CString issuer) -> claims !! "aud" = Some (CString client) ->
    claims !! "exp" = Some (CNumber (Itoa expires)) -> claims !! "iat" = Some (CNumber (Itoa issued)) ->
    claims !! "sub" = Some (CString subject) -> claims !! "nonce" = Some (CString nonce) ->
    Forall (fun k => claims !! k = None) verifier_members -> 0 <= expires <= max_int64 -> Unix now < expires ->
    lib_verify issuer client now raw = Ok (mkIDToken nonce subject (Ok (reread <$> claims)))
}.

Section Flow.
Context {Endpoint : Type} `{OL : OidcLibrary Endpoint} `{CC : CodeCodec} (base64_error : string -> string).
Context `{RC : RequestCodec} `{GF : GoFmt} `{NI : NetIP}.
Context (SplitHost : string -> option string) (ParseIP : string -> option IP) (HashSessionToken : string -> string).

(** What the OAuth library posts to the token endpoint. *)
Definition exchange_form (cfg : oauth2Config Endpoint) (code verifier : string) : Values :=
  SetValue (SetValue (SetValue (SetValue ∅ "grant_type" "authorization_code") "redirect_uri" (ox_RedirectURL cfg))
    "code" code) "code_verifier" verifier.

(** [Complete] up to the verified ID token, against the provider [p]: the
    client authenticates with the Authorization header. *)
Definition exchange_with (p : Provider) (issuer : string) (now : Z) (cfg : oauth2Config Endpoint) (code verifier : string)
  : result string IDToken :=
  match (token base64_error lib_sha256 lib_sign now (Some (ox_ClientID cfg)) (exchange_form cfg code verifier) p).1 with
  | TokenRefused _ e _ => Err ("adminauth: exchanging the authorization code: " +:+ e)
  | TokenIssued raw =>
      if bool_decide (raw = "") then Err "adminauth: the identity provider returned no ID token"
      else match lib_verify issuer (ox_ClientID cfg) now raw with
           | Err e => Err ("adminauth: verifying the ID token: " +:+ e)
           | Ok t => Ok t
           end
  end.

Lemma ascii_valid s : (forall c, c ∈ bytes s -> code c < 128) -> valid_utf8 s = true.
Proof.
  unfold valid_utf8. induction (bytes s) as [|c l IH]; [done|]. intros H. rewrite ascii_rune by (apply H; left). simpl.
  apply IH. intros d Hd. apply H. by right.
Qed.

Lemma b64_valid s : valid_utf8 (b64_encode URLAlphabet s) = true.
Proof.
  apply ascii_valid. intros c Hc%(b64_encode_chars URLAlphabet URLAlphabet_ok).
  assert (Forall (fun c => code c < 128) (bytes URLAlphabet)) as Ha by (vm_compute; repeat constructor).
  rewrite Forall_forall in Ha. by apply Ha.
Qed.

(** The claims that were set: plain ones that leave the protocol's own alone. *)
Definition claims_ordinary (claims : gmap string ClaimValue) : Prop :=
  plain_claims claims /\ Forall (fun k => claims !! k = None) (["iss"; "aud"; "exp"; "iat"; "nonce"] ++ verifier_members)
  /\ (claims !! "sub" = None \/ exists s, claims !! "sub" = Some (CString s)).

(** The subject the token is for. *)
Definition subject_of (claims : gmap string ClaimValue) : string :=
  match claims !! "sub" with Some (CString s) => s | _ => "default-subject" end.

Lemma id_claims_lookup p now audience nonce extra :
  claims_ordinary extra -> nonce <> "" ->
  let claims := id_claims p now audience nonce extra in
  claims !! "iss" = Some (CString (pv_URL p)) /\ claims !! "aud" = Some (CString audience)
  /\ claims !! "exp" = Some (CNumber (Itoa (Unix (now + Hour)))) /\ claims !! "iat" = Some (CNumber (Itoa (Unix now)))
  /\ claims !! "sub" = Some (CString (subject_of extra)) /\ claims !! "nonce" = Some (CString nonce)
  /\ Forall (fun k => claims !! k = None) verifier_members.
Proof.
  intros (_ & Hk & Hsub) Hne. cbv zeta. unfold id_claims. rewrite (bool_decide_eq_false_2 _ Hne).
  unfold verifier_members in Hk. cbn [app] in Hk. rewrite !Forall_cons in Hk. destruct Hk as (Hi & Ha & He & Hia & Hn & H1 & H2 & H3 & H4 & _).
  rewrite !lookup_union, Hi, Ha, He, Hia, Hn, !(left_id_L None _).
  split_and!; try (rewrite lookup_insert_ne by done); try (by simplify_map_eq).
  - unfold subject_of. destruct Hsub as [->|[s ->]]; [rewrite (left_id_L None _)|by destruct (_ !! _)]. by simplify_map_eq.
  - unfold verifier_members. rewrite !Forall_cons, !lookup_union, H1, H2, H3, H4, !(left_id_L None _).
    split_and!; try (rewrite lookup_insert_ne by done); try (by simplify_map_eq).
Qed.

Lemma id_claims_plain p now audience nonce extra :
  claims_ordinary extra -> valid_utf8 (pv_URL p) = true -> valid_utf8 audience = true -> valid_utf8 nonce = true ->
  0 <= Unix now <= max_int64 -> 0 <= Unix (now + Hour) <= max_int64 -> plain_claims (id_claims p now audience nonce extra).
Proof.
  intros (Hp & _ & _) Hu Ha Hn Ht Ht'. unfold id_claims. apply map_Forall_union_2; [done|].
  assert (plain_claims {[ "iss" := CString (pv_URL p); "aud" := CString audience; "exp" := CNumber (Itoa (Unix (now + Hour)));
       "iat" := CNumber (Itoa (Unix now)); "sub" := CString "default-subject" ]}) as Hbase.
  { repeat (apply map_Forall_insert_2; [split; [done|simpl; eauto]|]). apply map_Forall_empty. }
  case_bool_decide; [done|]. apply map_Forall_insert_2; [by split|done].
Qed.

(** The exchange of the code the provider gave out, with the verifier of the
    request it was given out for. *)
Lemma exchange_succeeds p issuer now cfg nonce verifier raw code :
  code = encodeCode (mkPendingCode nonce (s256 lib_sha256 verifier)) -> code_valid (mkPendingCode nonce (s256 lib_sha256 verifier)) ->
  pv_failToken p = false -> verifier <> "" -> nonce <> "" -> issuer = pv_URL p -> ox_ClientID cfg <> "" ->
  claims_ordinary (pv_claims p) -> valid_utf8 (pv_URL p) = true -> valid_utf8 (ox_ClientID cfg) = true ->
  let claims := id_claims p now (ox_ClientID cfg) nonce (pv_claims p) in
  lib_sign claims = Ok raw -> raw <> "" -> 0 <= Unix now <= max_int64 -> 0 <= Unix (now + Hour) <= max_int64 ->
  exchange_with p issuer now cfg code verifier = Ok (mkIDToken nonce (subject_of (pv_claims p)) (Ok (reread <$> claims))).
Proof.
  intros -> Hv Hf Hver Hn -> Hcl Hord Hu8 Hc8 claims Hs Hraw Hnow Hclock.
  destruct (id_claims_lookup p now (ox_ClientID cfg) nonce _ Hord Hn) as (Hi & Ha & He & Hia & Hsub & Hno & Hvm).
  pose proof (id_claims_plain p now (ox_ClientID cfg) nonce _ Hord Hu8 Hc8 (proj1 Hv) Hnow Hclock) as Hplain.
  unfold exchange_with, token. cbn [fst pv_failToken]. rewrite Hf. unfold exchange_form.
  rewrite Get_Set_ne, !Get_Set, decode_encode_code by done. cbn [pc_Challenge pc_Nonce].
  rewrite (bool_decide_eq_false_2 _ Hver), (bool_decide_eq_true_2 (s256 lib_sha256 verifier = s256 lib_sha256 verifier)) by done. cbn [negb orb]. rewrite andb_false_r.
  unfold signIDToken, clientID. rewrite (bool_decide_eq_false_2 _ Hcl). unfold id_claims in *. cbn [pv_URL pv_claims] in *.
  fold claims. rewrite Hs, (bool_decide_eq_false_2 _ Hraw).
  rewrite (lib_verify_sign _ _ _ _ _ _ _ _ _ Hs Hplain Hi Ha He Hia Hsub Hno Hvm Hclock); [done|].
  unfold Unix. apply Z.div_lt_upper_bound; [done|]. pose proof (Z.mod_pos_bound (now + Hour - unix_epoch) Second ltac:(done)).
  rewrite (Z.mod_eq _ Second) in H by done. assert (Second < Hour) by done. lia.
Qed.

(** C14: single sign-on works end to end. A browser that starts at one replica,
    follows the redirect to the provider and brings what the provider sent
    back, code and state, to any replica with the same provider, is signed in
    as the user the provider's claims, as they come back through JSON, resolve
    to: the state, the nonce, the PKCE challenge and its verifier arrive where
    they are checked. The claims set at the provider are texts, lists of texts
    and integers under lower-case names, leave the protocol's own members alone
    but for a subject that is text, and the role they map to, the account they
    name and the session that is stored are the code's own decisions, given as
    the results of [resolveUser] and [Issue]. *)
Theorem provider_sign_in_completes a b p now secure state nonce verifier url cookie redirect values raw ccfg io io_issue scfg tok csrf
    newUserID newID r read db user db1 issued db2 :
  handleOIDCStart lib_url (Some a) secure (Ok state) (Ok nonce) verifier = StartRedirect url cookie ->
  request_valid (mkAuthRequest url state nonce verifier) -> state <> "" -> nonce <> "" -> verifier <> "" ->
  authorize lib_redirect (lib_query url) = Ok (redirect, values) ->
  pv_failToken p = false -> claims_ordinary (pv_claims p) -> 0 <= Unix now <= max_int64 -> 0 <= Unix (now + Hour) <= max_int64 ->
  valid_utf8 (pv_URL p) = true -> valid_utf8 (ox_ClientID (oa_oauth b)) = true ->
  sso_Issuer (oa_cfg b) = pv_URL p -> ox_ClientID (oa_oauth b) <> "" ->
  let claims := id_claims p now (ox_ClientID (oa_oauth b)) nonce (pv_claims p) in
  lib_sign claims = Ok raw -> raw <> "" ->
  resolveUser (sso_mapping (oa_cfg b)) io now newUserID (readClaims (subject_of (pv_claims p)) (reread <$> claims)) read db = (Ok user, db1) ->
  Issue SplitHost ParseIP HashSessionToken io_issue scfg tok csrf now now newID user r db1 = (Ok issued, db2) ->
  let run := callback (exchange_with p (sso_Issuer (oa_cfg b)) now) SplitHost ParseIP HashSessionToken (Some b) secure ccfg io io_issue scfg tok csrf
               now newUserID newID "" (Some (ck_Value cookie)) (Get values "code") (Get values "state") r read db in
  sso_answer run.1 = SsoDone issued /\ sso_db run.1 = db2.
Proof.
  intros Hstart Hv Hs Hn Hver Hau Hf Hord Hnow Hclock Hu8 Hc8 Hiss Hcl claims Hsign Hraw Hres Hissue run.
  assert (url = lib_url (oa_oauth a) state nonce verifier) as Hurl by (simpl in Hstart; by injection Hstart).
  destruct (lib_url_query (oa_oauth a) state nonce verifier) as (Hq1 & Hq2 & Hq3 & _). rewrite <-Hurl in Hq1, Hq2, Hq3.
  unfold authorize in Hau. destruct (lib_redirect _) as [[red v]|]; [|done]. injection Hau as <- <-.
  subst run. rewrite Hq1, Hq2, Hq3, Get_Set, Get_Set_ne, Get_Set by done.
  eapply callback_completes with (idToken := mkIDToken nonce (subject_of (pv_claims p)) (Ok (reread <$> claims))); [exact Hstart|exact Hv|exact Hs| |done|done|exact Hres|exact Hissue].
  eapply exchange_succeeds; eauto. split; [by destruct Hv as (_ & _ & ? & _)|apply b64_valid].
Qed.
End Flow.

(** ** Libraries that keep the laws *)

(** A reader of the code's JSON, and a URL that has its parameters in base64. *)
Definition read_code (l : list ascii) : result string pendingCode :=
  match read_field (field_prefix "{"%char "nonce") l with
  | None => Err "json"
  | Some (n, l) =>
      match read_field (field_prefix COMMA "challenge") l with
      | Some (c, ["}"%char]) => Ok (mkPendingCode n c)
      | _ => Err "json"
      end
  end.

#[export] Program Instance strict_code_codec : CodeCodec := {| unmarshal_code := read_code |}.
Next Obligation.
  intros [n c] [Hn Hc]. unfold read_code, marshal_code. cbn [pc_Nonce pc_Challenge] in *.
  rewrite (read_field_json "{"%char "nonce" n) by done. by rewrite (read_field_json COMMA "challenge" c).
Qed.

Definition enc : string -> string := b64_encode URLAlphabet.
Definition dec (s : string) : string := default "" (b64_decode URLAlphabet false s).

Lemma dec_enc s : dec (enc s) = s.
Proof. unfold dec, enc. by rewrite (b64_decode_encode URLAlphabet URLAlphabet_ok). Qed.

Section Url.
Context {Endpoint : Type} (sha256 : string -> string).

Definition dotted_url (cfg : oauth2Config Endpoint) (state nonce verifier : string) : string :=
  "https://idp/authorize?" +:+ Join [enc state; enc nonce; enc (s256 sha256 verifier); enc (ox_RedirectURL cfg)] ".".

Definition dotted_query (url : string) : Values :=
  match split_byte "."%char (default "" (CutPrefix url "https://idp/authorize?")) with
  | [s; n; c; u] =>
      SetValue (SetValue (SetValue (SetValue ∅ "state" (dec s)) "nonce" (dec n)) "code_challenge" (dec c)) "redirect_uri" (dec u)
  | _ => ∅
  end.

Lemma dotted_url_query cfg state nonce verifier :
  let q := dotted_query (dotted_url cfg state nonce verifier) in
  Get q "state" = state /\ Get q "nonce" = nonce /\ Get q "code_challenge" = s256 sha256 verifier /\ Get q "redirect_uri" = ox_RedirectURL cfg.
Proof.
  cbv zeta. unfold dotted_query, dotted_url. rewrite CutPrefix_app. unfold default, id.
  assert (forall s, contains_byte (enc s) "."%char = false) as Hno.
  { intros s. apply b64_encode_no; [exact URLAlphabet_ok|]. by apply contains_byte_false. }
  change "." with (String "."%char ""). rewrite split_Join; [|done|by repeat constructor].
  split_and!; repeat (rewrite Get_Set_ne by done); by rewrite Get_Set, dec_enc.
Qed.
End Url.

(** Tokens that are not signed, only written down: a text that names the
    claims one by one. *)
#[export] Instance ClaimValue_eq_dec : EqDecision ClaimValue.
Proof. solve_decision. Defined.

#[export] Program Instance ClaimValue_countable : Countable ClaimValue :=
  inj_countable'
    (fun c => match c with
              | CString s => inl (inl s) | CNumber s => inl (inr s) | CArray l => inr (inl l) | CStrings l => inr (inr (inl l))
              | COther => inr (inr (inr ()))
              end)
    (fun x => match x with
              | inl (inl s) => CString s | inl (inr s) => CNumber s | inr (inl l) => CArray l | inr (inr (inl l)) => CStrings l
              | inr (inr (inr _)) => COther
              end) _.
Next Obligation. by intros []. Qed.

Fixpoint digits_of_positive (p : positive) : string :=
  match p with xH => "" | xO p => String "0"%char (digits_of_positive p) | xI p => String "1"%char (digits_of_positive p) end.
Fixpoint positive_of_digits (s : string) : positive :=
  match s with
  | EmptyString => xH
  | String c s => if bool_decide (c = "0"%char) then xO (positive_of_digits s) else xI (positive_of_digits s)
  end.

Lemma positive_digits p : positive_of_digits (digits_of_positive p) = p.
Proof. induction p as [p IH|p IH|]; simpl; by rewrite ?IH. Qed.

Definition plain_sign (claims : gmap string ClaimValue) : result string string := Ok ("plain." +:+ digits_of_positive (encode claims)).

Definition plain_verify (issuer client : string) (now : Z) (raw : string) : result string IDToken :=
  match CutPrefix raw "plain." ≫= fun d => decode (positive_of_digits d) with
  | None => Err "malformed"
  | Some claims =>
      let expires := match claims !! "exp" with Some (CNumber t) => default 0 (Atoi t) | _ => 0 end in
      if bool_decide (claims !! "iss" = Some (CString issuer)) && bool_decide (claims !! "aud" = Some (CString client)) && (Unix now <? expires)
      then Ok (mkIDToken (claim_value claims "nonce") (claim_value claims "sub") (Ok (reread <$> claims)))
      else Err "not for us"
  end.

#[export] Program Instance plain_library : OidcLibrary unit := {|
  lib_url := dotted_url (fun s => s); lib_query := dotted_query; lib_redirect := fun u => Some (u, ∅); lib_sha256 := fun s => s;
  lib_sign := plain_sign; lib_verify := plain_verify
|}.
Next Obligation. intros. apply dotted_url_query. Qed.
Next Obligation.
  intros issuer client now claims raw expires issued subject nonce [= <-] Hp Hi Ha He _ Hsub Hno _ Hr Hn. unfold plain_verify.
  rewrite CutPrefix_app. cbn. rewrite positive_digits, decode_encode, Hi, Ha, He, Atoi_Itoa by done. simpl.
  rewrite !bool_decide_eq_true_2 by done. rewrite (proj2 (Z.ltb_lt _ _) Hn). unfold claim_value. by rewrite Hno, Hsub.
Qed.

(** ** A sign-in *)

Definition ann_claims : gmap string ClaimValue :=
  {[ "sub" := CString "sub-1"; "preferred_username" := CString "ann"; "groups" := CStrings ["staff"; "ops"]; "age" := CNumber "44" ]}.
Definition sample_provider : Provider := SetClaims ann_claims (start_provider "https://idp").
Definition sign_in_time : Z := unix_epoch + 80.
Definition ann_id : gmap string ClaimValue := id_claims sample_provider sign_in_time "proxy" "nonce" ann_claims.

Definition ann_through : result SignInError AdminUser * AdminDB :=
  resolveUser (GF := admin_fmt) sso (mkOidcIO None None None None) sign_in_time "" (readClaims (subject_of ann_claims) (reread <$> ann_id)) sample_admins sample_admins.
Definition ann_user : AdminUser := match ann_through.1 with Ok u => u | Err _ => root_row end.
Definition ann_signed_in : result SessionErr (Session * string * string) * AdminDB :=
  Issue (NI := one_ip) (fun _ => None) (fun _ => None) token_hash None short (Ok "tok") (Ok "csrf2") sign_in_time sign_in_time "s9" ann_user post ann_through.2.
Definition ann_got : Session * string * string := match ann_signed_in.1 with Ok i => i | Err _ => (issued_session, "", "") end.

Lemma ann_claims_ordinary : claims_ordinary ann_claims.
Proof.
  split_and!; [|repeat constructor|right; by exists "sub-1"].
  unfold ann_claims. apply map_Forall_insert_2; [done|]. apply map_Forall_insert_2; [done|].
  apply map_Forall_insert_2; [split; [done|by repeat constructor]|]. apply map_Forall_singleton. split; [done|]. by exists 44.
Qed.

Definition ann_url : string := dotted_url (fun s => s) (oa_oauth sample_replica) "state" "nonce" "v".
Definition ann_back : Values := match authorize lib_redirect (lib_query ann_url) with Ok (_, v) => v | Err _ => ∅ end.

Lemma provider_sign_in_completes_witness :
  let run := callback (GF := admin_fmt) (NI := one_ip) (exchange_with (fun _ => "base64") sample_provider "https://idp" sign_in_time)
    (fun _ => None) (fun _ => None) token_hash (Some sample_replica) true (mkCookieConfig "sap_session" "/" true) (mkOidcIO None None None None) None
    short (Ok "tok") (Ok "csrf2") sign_in_time "" "s9" "" (Some (encodeState (marshal_request (mkAuthRequest ann_url "state" "nonce" "v"))))
    (Get ann_back "code") (Get ann_back "state") post sample_admins sample_admins in
  sso_answer run.1 = SsoDone ann_got /\ u_Username ann_user = "ann" /\ u_Role ann_user = RoleOperator.
Proof.
  split; [|split; vm_compute; reflexivity].
  refine (proj1 (provider_sign_in_completes (fun _ => "base64") (GF := admin_fmt) (NI := one_ip) (fun _ => None) (fun _ => None) token_hash
    sample_replica sample_replica sample_provider sign_in_time true "state" "nonce" "v" ann_url
    (StateCookie oidcStateCookie (encodeState (marshal_request (mkAuthRequest ann_url "state" "nonce" "v"))) true)
    "https://mail/api/v1/auth/oidc/callback" ann_back ("plain." +:+ digits_of_positive (encode ann_id)) (mkCookieConfig "sap_session" "/" true)
    (mkOidcIO None None None None) None short (Ok "tok") (Ok "csrf2") "" "s9" post sample_admins sample_admins ann_user ann_through.2 ann_got ann_signed_in.2
    _ _ _ _ _ _ _ ann_claims_ordinary _ _ _ _ _ _ _ _ _ _)); try (vm_compute; reflexivity); try discriminate.
  - split_and!; vm_compute; reflexivity.
  - split; vm_compute; discriminate.
  - split; vm_compute; discriminate.
Defined.
