(* ===== verification/Command.v ===== *)
(** * The command line

    [cmd/smtp-auth-proxy]: the subcommands, with the flags of package [flag],
    and [internal/version]. What a command prints and what it leaves in the
    database are its result; the usage texts and the log go to standard error
    and are left out. *)

From stdpp Require Import base gmap strings list.
From Stdlib Require Import ZArith Lia Ascii.
From S2P Require Import Prelude GoStrings GoStringsFacts Base64 StoreModels MessageStore MessageQueue Directory DirectoryProps Policy Password AdminStore AdminStoreProps AdminAuth.
From S2P Require Import AdminAuthProps AdminApi Keyring Expand ExpandProps Sql AuditLog Config App.

Open Scope Z_scope.

(** ** Package flag *)

Inductive FlagValue := FlagString (s : string) | FlagBool (b : bool) | FlagDuration (d : Z).

(** The flags that are defined, with their values so far. *)
Abbreviation FlagSet := (gmap string FlagValue).

Inductive FlagError := FlagHelp | FlagFailed (message : string).

(** [strconv.ParseBool] *)
Definition ParseBool (s : string) : option bool :=
  if bool_decide (s ∈ ["1"; "t"; "T"; "TRUE"; "true"; "True"]) then Some true
  else if bool_decide (s ∈ ["0"; "f"; "F"; "FALSE"; "false"; "False"]) then Some false
  else None.

(** What an argument is: [Given] carries the name of a flag and the value that
    follows an equals sign. *)
Inductive Argument := Operand | Terminator | Malformed | Given (name : string) (value : option string).

Definition flag_body (name : string) : Argument :=
  match name with
  | "" => Malformed
  | String c _ =>
      if bool_decide (c = "-"%char) || bool_decide (c = "="%char) then Malformed
      else match cut_byte "="%char name with
           | Some (name, value) => Given name (Some value)
           | None => Given name None
           end
  end.

Definition argument (s : string) : Argument :=
  match s with
  | String "-" (String "-" "") => Terminator
  | String "-" (String "-" name) => flag_body name
  | String "-" (String c rest) => flag_body (String c rest)
  | _ => Operand
  end.

Section Flags.
Context (ParseDuration : string -> option Z).

(** [Value.Set] *)
Definition set_value (old : FlagValue) (s : string) : option FlagValue :=
  match old with
  | FlagString _ => Some (FlagString s)
  | FlagBool _ => FlagBool <$> ParseBool s
  | FlagDuration _ => FlagDuration <$> ParseDuration s
  end.

Definition is_bool_flag (v : FlagValue) : bool := match v with FlagBool _ => true | _ => false end.

Definition undefined_flag (name : string) : FlagError :=
  if bool_decide (name = "help") || bool_decide (name = "h") then FlagHelp
  else FlagFailed ("flag provided but not defined: -" +:+ name).

(** [FlagSet.Parse]: the values, and the arguments that are left. *)
Fixpoint flag_Parse (fs : FlagSet) (args : list string) : result FlagError (FlagSet * list string) :=
  match args with
  | [] => Ok (fs, [])
  | s :: rest =>
      match argument s with
      | Operand => Ok (fs, args)
      | Terminator => Ok (fs, rest)
      | Malformed => Err (FlagFailed ("bad flag syntax: " +:+ s))
      | Given name value =>
          match fs !! name with
          | None => Err (undefined_flag name)
          | Some old =>
              match value, is_bool_flag old with
              | Some v, _ =>
                  match set_value old v with
                  | Some new => flag_Parse (<[name := new]> fs) rest
                  | None => Err (FlagFailed ("invalid value for flag -" +:+ name))
                  end
              | None, true => flag_Parse (<[name := FlagBool true]> fs) rest
              | None, false =>
                  match rest with
                  | [] => Err (FlagFailed ("flag needs an argument: -" +:+ name))
                  | v :: rest =>
                      match set_value old v with
                      | Some new => flag_Parse (<[name := new]> fs) rest
                      | None => Err (FlagFailed ("invalid value for flag -" +:+ name))
                      end
                  end
              end
          end
      end
  end.
End Flags.

Definition flag_string (fs : FlagSet) (name : string) : string := match fs !! name with Some (FlagString s) => s | _ => "" end.
Definition flag_bool (fs : FlagSet) (name : string) : bool := match fs !! name with Some (FlagBool b) => b | _ => false end.
Definition flag_duration (fs : FlagSet) (name : string) : Z := match fs !! name with Some (FlagDuration d) => d | _ => 0 end.

(** ** Package version *)

Definition unknown : string := "unknown".
Definition shortCommitLen : nat := 12.

Record Info := mkInfo { in_Version : string; in_Commit : string; in_BuildDate : string; in_GoVersion : string; in_Platform : string }.

Definition shortenCommit (rev : string) : string :=
  if (shortCommitLen <? String.length rev)%nat then String.substring 0 shortCommitLen rev else rev.

(** One round of the loop of [applyVCSSettings]. *)
Definition apply_setting (i : Info) (s : string * string) : Info :=
  let '(key, value) := s in
  if bool_decide (value = "") then i
  else if bool_decide (key = "vcs.revision") then
    (if bool_decide (in_Commit i = unknown)
     then mkInfo (in_Version i) (shortenCommit value) (in_BuildDate i) (in_GoVersion i) (in_Platform i) else i)
  else if bool_decide (key = "vcs.time") then
    (if bool_decide (in_BuildDate i = unknown)
     then mkInfo (in_Version i) (in_Commit i) value (in_GoVersion i) (in_Platform i) else i)
  else i.

Definition applyVCSSettings (i : Info) (settings : list (string * string)) : Info := fold_left apply_setting settings i.

(** [Get]; [stamped] are the variables the linker may have set, [settings] what
    [debug.ReadBuildInfo] found. *)
Definition version_Get (stamped : Info) (settings : option (list (string * string))) : Info :=
  match settings with Some l => applyVCSSettings stamped l | None => stamped end.

Definition Info_String (i : Info) : string :=
  in_Version i +:+ " (commit " +:+ in_Commit i +:+ ", built " +:+ in_BuildDate i +:+ ", " +:+ in_GoVersion i +:+ ", " +:+ in_Platform i +:+ ")".

Definition UserAgent (stamped : Info) : string := "smtp-auth-proxy/" +:+ in_Version stamped.

(** ** Loading the configuration *)

Inductive LoadError := LoadRead (path e : string) | LoadParse (path : string) (e : ParseError) | LoadStuck.

Inductive CmdError :=
| CmdFlags (e : FlagError) | CmdText (e : string) | CmdLoad (e : LoadError) | CmdCrypto (e : CryptoError)
| CmdRandom (e : KeyringError) | CmdStore (e : StoreError).

(** What the commands work on, and what one of them leaves: its error, its
    standard output, whether it warned, and the tables. *)
Record CmdDB := mkCmdDB { cd_admin : AdminDB; cd_audit : AuditLog }.
Record CmdRun := mkCmdRun { cr_error : option CmdError; cr_stdout : string; cr_warned : bool; cr_db : CmdDB }.

Definition nl : string := String LF "".

Section Commands.
Context `{UC : UnicodeCase} `{NI : NetIP} `{NU : NetURL} `{GF : GoFmt} `{PH : PasswordHasher}.
Context (ParseDuration : string -> option Z) (lookup : string -> option string) (stat : string -> result string Z)
  (readFile : string -> result string string) (decode : string -> Config -> result string Config).
Context (rand : Z -> result string string).

Definition Load (path : string) : result LoadError Config :=
  match readFile path with
  | Err e => Err (LoadRead path e)
  | Ok raw =>
      match Parse lookup stat readFile decode raw with
      | None => Err LoadStuck
      | Some (Err e) => Err (LoadParse path e)
      | Some (Ok cfg) => Ok cfg
      end
  end.

Definition failed (db : CmdDB) (e : CmdError) : CmdRun := mkCmdRun (Some e) "" false db.
Definition printed (db : CmdDB) (out : string) : CmdRun := mkCmdRun None out false db.

(** The password a command was given, or a new one. *)
Definition chosen_password (given : string) : result KeyringError (string * bool) :=
  if bool_decide (given = "")
  then match GeneratePassword rand with Err e => Err e | Ok p => Ok (p, true) end
  else Ok (given, false).

(** *** adduser *)

Definition adduser_flags : FlagSet :=
  list_to_map [("config", FlagString "config.yaml"); ("username", FlagString ""); ("email", FlagString "");
               ("role", FlagString "admin"); ("password", FlagString "")].

Definition added_user (username email : string) (hash : string) (role : Role) : AdminUser :=
  mkAdminUser "" username email "" (NullString hash) role SourceLocal None "" None false 0 None None time_zero time_zero.

Definition added_entry (user : AdminUser) (role : Role) : AuditEntry :=
  mkAuditEntry "" time_zero ActorSystem "" "smtp-auth-proxy adduser" "user.create" "user" (u_ID user) (u_Username user)
    (MaskSecrets [("role", JString (role_string role))]) "" "" "".

(** The calls of [runAddUser] that reach outside: what [Open] and [Migrate]
    returned, the failures of the two statements, the clock and fresh IDs. *)
Record AddUserIO := mkAddUserIO {
  ai_sqlOpen : string -> string -> option string; ai_ping : string -> string -> option string; ai_migrate : option string;
  ai_create : option string; ai_append : option string; ai_now : Z; ai_userID : string; ai_entryID : string
}.

Definition adduser_options (c : Config) : Sql.Options :=
  Sql.mkOptions (db_Driver (c_Database c)) (db_DSN (c_Database c)) (db_MaxOpenConns (c_Database c)) 0 0.

(** From the statements on: the schema is there. *)
Definition add_user (io : AddUserIO) (username email hash chosen : string) (generated : bool) (role : Role) (db : CmdDB) : CmdRun :=
  match Users_Create (ai_create io) (ai_now io) (ai_userID io) (added_user username email hash role) (cd_admin db) with
  | (Err e, admins) => failed (mkCmdDB admins (cd_audit db)) (CmdStore e)
  | (Ok user, admins) =>
      let '(r, log) := Audit_Append (ai_append io) (ai_now io) (ai_entryID io) (added_entry user role) (cd_audit db) in
      mkCmdRun None ("created " +:+ u_Username user +:+ " with the role " +:+ role_string role +:+ nl
        +:+ (if generated then "password: " +:+ chosen +:+ nl +:+ nl +:+ "This is the only time it is shown." +:+ nl else ""))
        (negb (is_ok r)) (mkCmdDB admins log)
  end.

Definition runAddUser (io : AddUserIO) (args : list string) (db : CmdDB) : CmdRun :=
  match flag_Parse ParseDuration adduser_flags args with
  | Err e => failed db (CmdFlags e)
  | Ok (fs, _) =>
      let username := flag_string fs "username" in
      if bool_decide (username = "") then failed db (CmdText "--username is required")
      else match ParseRole (flag_string fs "role") with
      | Err e => failed db (CmdText e)
      | Ok role =>
          match Load (flag_string fs "config") with
          | Err e => failed db (CmdLoad e)
          | Ok cfg =>
              match chosen_password (flag_string fs "password") with
              | Err e => failed db (CmdRandom e)
              | Ok (chosen, generated) =>
                  match ph_hash chosen with
                  | Err e => failed db (CmdCrypto e)
                  | Ok hash =>
                      match Sql.Open (ai_sqlOpen io) (ai_ping io) (adduser_options cfg) with
                      | Err e => failed db (CmdText e)
                      | Ok _ =>
                          match ai_migrate io with
                          | Some e => failed db (CmdText e)
                          | None => add_user io username (flag_string fs "email") hash chosen generated role db
                          end
                      end
                  end
              end
          end
      end
  end.

(** *** genkey, passwd *)

Definition genkey_flags : FlagSet := list_to_map [("id", FlagString "k1"); ("quiet", FlagBool false)].

Definition genkey_help (spec : string) : string :=
  spec +:+ nl +:+ nl
  +:+ "Store this where the proxy can read it, and nowhere else " +:+ String (chr 226) (String (chr 128) (String (chr 148) ""))
  +:+ " it decrypts every" +:+ nl
  +:+ "OAuth client secret, certificate key and TOTP seed in the database. Losing it" +:+ nl
  +:+ "means those values cannot be recovered; leaking it means they are not protected." +:+ nl +:+ nl
  +:+ "Docker Compose (.env):" +:+ nl
  +:+ "  SMTP_AUTH_PROXY_ENCRYPTION_KEY=" +:+ spec +:+ nl +:+ nl
  +:+ "Kubernetes:" +:+ nl
  +:+ "  kubectl create secret generic smtp-auth-proxy-encryption \" +:+ nl
  +:+ "    --from-literal=key='" +:+ spec +:+ "'" +:+ nl +:+ nl
  +:+ "To rotate, generate a new key and list it first in encryption.keys, keeping the" +:+ nl
  +:+ "old one after it so values sealed with it stay readable." +:+ nl.

Definition runGenkey (args : list string) (db : CmdDB) : CmdRun :=
  match flag_Parse ParseDuration genkey_flags args with
  | Err e => failed db (CmdFlags e)
  | Ok (fs, _) =>
      match GenerateKey rand (flag_string fs "id") with
      | Err e => failed db (CmdRandom e)
      | Ok spec => printed db (if flag_bool fs "quiet" then spec +:+ nl else genkey_help spec)
      end
  end.

Definition passwd_flags : FlagSet := list_to_map [("password", FlagString "")].

Definition runPasswd (args : list string) (db : CmdDB) : CmdRun :=
  match flag_Parse ParseDuration passwd_flags args with
  | Err e => failed db (CmdFlags e)
  | Ok (fs, _) =>
      match chosen_password (flag_string fs "password") with
      | Err e => failed db (CmdRandom e)
      | Ok (value, generated) =>
          match ph_hash value with
          | Err e => failed db (CmdCrypto e)
          | Ok hash => printed db ((if generated then "password: " +:+ value +:+ nl else "") +:+ "hash:     " +:+ hash +:+ nl)
          end
      end
  end.

(** *** healthcheck, licenses, version *)

Definition healthcheck_flags : FlagSet :=
  list_to_map [("url", FlagString "http://127.0.0.1:8080/readyz"); ("timeout", FlagDuration 5000000000)].

(** [get] sends the request: the status code and line of the answer. *)
Definition runHealthcheck (newRequest : string -> option string) (get : Z -> string -> result string (Z * string))
    (args : list string) (db : CmdDB) : CmdRun :=
  match flag_Parse ParseDuration healthcheck_flags args with
  | Err e => failed db (CmdFlags e)
  | Ok (fs, _) =>
      let url := flag_string fs "url" in
      match newRequest url with
      | Some e => failed db (CmdText e)
      | None =>
          match get (flag_duration fs "timeout") url with
          | Err e => failed db (CmdText ("the proxy is not answering: " +:+ e))
          | Ok (code, status) =>
              if code =? 200 then printed db "" else failed db (CmdText ("the proxy reports " +:+ status))
          end
      end
  end.

Definition runLicenses (notices : string) (args : list string) (db : CmdDB) : CmdRun :=
  match flag_Parse ParseDuration ∅ args with
  | Err e => failed db (CmdFlags e)
  | Ok (_, []) => printed db notices
  | Ok (_, _) => failed db (CmdText "licenses takes no arguments")
  end.

Definition runVersion (info : Info) (args : list string) (db : CmdDB) : CmdRun :=
  match flag_Parse ParseDuration ∅ args with
  | Err e => failed db (CmdFlags e)
  | Ok _ => printed db (Info_String info +:+ nl)
  end.

(** *** serve *)

Inductive Level := LevelDebug | LevelInfo | LevelWarn | LevelError.

Definition parseLevel (level : string) : Level :=
  let l := ToLower level in
  if bool_decide (l = "debug") then LevelDebug
  else if bool_decide (l = "warn") || bool_decide (l = "warning") then LevelWarn
  else if bool_decide (l = "error") then LevelError
  else LevelInfo.

(** [newLogger]: the level, and whether the format is text. *)
Definition newLogger (l : Log) : Level * bool := (parseLevel (lg_Level l), EqualFold (lg_Format l) "text").

Definition serve_flags : FlagSet := list_to_map [("config", FlagString "config.yaml"); ("check", FlagBool false)].

(** [steps] are the parts of [app.New], [served] is what [App.Run] returned. *)
Definition runServe (steps : Config -> Steps) (served : Config -> option string) (args : list string) (db : CmdDB) : CmdRun :=
  match flag_Parse ParseDuration serve_flags args with
  | Err e => failed db (CmdFlags e)
  | Ok (fs, _) =>
      match Load (flag_string fs "config") with
      | Err e => failed db (CmdLoad e)
      | Ok cfg =>
          if flag_bool fs "check" then mkCmdRun None "" (bool_decide (Warnings cfg <> [])) db
          else match (app_New cfg (steps cfg)).1 with
          | Some e => failed db (CmdText e)
          | None => match served cfg with Some e => failed db (CmdText e) | None => printed db "" end
          end
      end
  end.

(** *** main *)

Record command := mkCommand { cm_name : string; cm_summary : string; cm_run : list string -> CmdDB -> CmdRun }.

(** [%-10s] *)
Definition pad (n : nat) (s : string) : string := s +:+ unbytes (replicate (n - String.length s) SP).

Definition usage (info : Info) (commands : list command) : string :=
  "smtp-auth-proxy " +:+ in_Version info +:+ nl +:+ nl
  +:+ "Usage:" +:+ nl +:+ "  smtp-auth-proxy <command> [flags]" +:+ nl +:+ nl +:+ "Commands:" +:+ nl
  +:+ String.concat "" ((fun c => "  " +:+ pad 10 (cm_name c) +:+ " " +:+ cm_summary c +:+ nl) <$> commands)
  +:+ nl +:+ "Run 'smtp-auth-proxy <command> -h' for command flags." +:+ nl.

Definition run_command (info : Info) (commands : list command) (args : list string) (db : CmdDB) : CmdRun :=
  match args with
  | [] => failed db (CmdText "no subcommand given")
  | name :: args =>
      if bool_decide (name ∈ ["-h"; "--help"; "help"]) then printed db (usage info commands)
      else match List.find (fun c => bool_decide (cm_name c = name)) commands with
      | Some c => cm_run c args db
      | None => failed db (CmdText ("unknown subcommand " +:+ Quote name))
      end
  end.

(** [realMain]: the exit status. *)
Definition exit_status (r : CmdRun) : Z :=
  match cr_error r with
  | None | Some (CmdFlags FlagHelp) => 0
  | Some _ => 1
  end.
End Commands.

(** ** Signing in after a user was written *)

Section SigningIn.
Context `{GF : GoFmt} `{NI : NetIP} `{PH : PasswordHasher} `{!PasswordHasherLaws PH}.
Context (SplitHost : string -> option string) (ParseIP : string -> option IP) (decoyHash : string) (HashSessionToken : string -> string).

(** No statement of a sign-in touches the sessions. *)
Lemma sign_in_sessions cfg io now name password read db :
  admin_sessions (si_db (local_Authenticate decoyHash cfg io now name password read db)) = admin_sessions db.
Proof.
  assert (forall i t id d, admin_sessions (RecordSuccessfulLogin i t id d).2 = admin_sessions d) as Hs by (intros; apply successful_login_sessions).
  assert (forall i t u d, admin_sessions (Users_Update i t u d).2 = admin_sessions d) as Hu.
  { intros i t u d. unfold Users_Update. write_cases Hw. destruct Hw as [[-> _]|(-> & _)]; done. }
  assert (forall u d, admin_sessions (local_recordFailure cfg io u d) = admin_sessions d) as Hf.
  { intros u d. unfold local_recordFailure, RecordFailedLogin, InTx, exec. by destruct (li_count io), (admin_users d !! u_ID u), (li_count' io). }
  assert (forall u d, admin_sessions (local_rehash io u password d).2 = admin_sessions d) as Hr.
  { intros u d. unfold local_rehash. destruct (ph_hash password); [|done]. simpl. apply Hu. }
  unfold local_Authenticate. destruct (lc_Enabled cfg); [|done]. simpl.
  destruct (Users_GetByUsername _ _ _) as [u|[]]; try done. destruct (LockedAt u now); [done|].
  destruct (bool_decide _); [done|]. destruct (ph_verify _ _) as [[[] due]|]; try done; [|apply Hf].
  destruct (u_Disabled u); [done|]. destruct due; simpl; [|apply Hs].
  specialize (Hr u db). destruct (local_rehash io u password db) as [u' d']. simpl in *. by rewrite Hs.
Qed.

(** The request a session comes with is admitted. *)
Definition admits (scfg : SessionConfig) (role : Role) (signed : Z) (issued : AdminStore.Session * string * string) (db : AdminDB) : Prop :=
  let '(_, token, csrf) := issued in
  forall io io' perm now now' r,
    Can role perm = true -> rq_cookie r = Some token -> rq_csrf r = csrf -> now < signed + sc_Lifetime scfg ->
    (0 < sc_IdleTimeout scfg -> Sub now signed <= sc_IdleTimeout scfg) ->
    exists auth, require perm (requireSession HashSessionToken None io io' scfg now now' r db).1 = Passed auth /\ u_Role (au_User auth) = role.

(** Nothing stands in the way of a new session. *)
Definition session_free (newID token : string) (db : AdminDB) : Prop :=
  admin_sessions db !! newID = None /\ forall k s, admin_sessions db !! k = Some s -> s_TokenHash s <> HashSessionToken token.

Lemma issue_free scfg token csrf t newID u v r db :
  session_free newID token db -> admin_users db !! u_ID u = Some v ->
  exists s db', Issue SplitHost ParseIP HashSessionToken None scfg (Ok token) (Ok csrf) t t newID u r db = (Ok (s, token, csrf), db').
Proof.
  intros [Hn Ht] Hu. unfold Issue, Sessions_Create, exec. cbv zeta. unfold insert_session_error. cbn [session_defaults s_ID s_TokenHash s_UserID].
  rewrite (bool_decide_eq_true_2 ("" = "")) by done. rewrite Hn, (bool_decide_eq_false_2 (is_Some None)) by (by intros []). simpl.
  destruct (exists_row _ _) eqn:He; [|rewrite Hu, bool_decide_eq_true_2 by (by eexists); simpl; eauto].
  apply exists_row_spec in He as (k & s & Hk & Hs). apply bool_decide_eq_true_1 in Hs. by destruct (Ht k s Hk).
Qed.

(** A user as the table has them signs in with their password and gets to work. *)
Lemma login_opens cfg io scfg token csrf now newID password r db k u h :
  admin_ok db -> lc_Enabled cfg = true -> admin_users db !! k = Some u -> CanSignIn u now = true -> u_Username u <> "" -> password <> "" ->
  u_PasswordHash u = Some h -> h <> "" -> ph_hash password = Ok h -> li_read io = None -> li_success io = None ->
  token <> "" -> csrf <> "" -> session_free newID token db ->
  exists issued, (handleLogin SplitHost ParseIP decoyHash HashSessionToken (Some cfg) io None scfg (Ok token) (Ok csrf) now newID
                   (u_Username u) password r db db).2 = Some issued
    /\ admits scfg (u_Role u) (li_now io) issued
         (ap_db (handleLogin SplitHost ParseIP decoyHash HashSessionToken (Some cfg) io None scfg (Ok token) (Ok csrf) now newID
            (u_Username u) password r db db).1).
Proof.
  intros Hdb He Hk Hc Hname Hpw Hh Hne Hhash Hr Hs Htok Hcsrf Hfree.
  destruct (local_sign_in_complete decoyHash cfg io now password db k u h Hdb He Hk Hc Hh Hne Hhash Hr Hs) as (user & Hres & Hid & u' & Hu' & _ & _ & Hrole & Hdis).
  pose proof (local_Authenticate_ok decoyHash cfg io now (u_Username u) password db db Hdb) as Hok.
  pose proof (sign_in_sessions cfg io now (u_Username u) password db db) as Hses.
  cbn [handleLogin]. rewrite !bool_decide_eq_false_2 by done. cbn [orb]. cbv zeta.
  set (run := local_Authenticate _ _ _ _ _ _ _ _) in *. rewrite Hres.
  assert (session_free newID token (si_db run)) as Hfree' by (unfold session_free; by rewrite Hses).
  destruct (issue_free scfg token csrf (li_now io) newID user u' r (si_db run) Hfree' ltac:(by rewrite Hid)) as (s & db' & Hi). rewrite Hi. simpl.
  eexists. split; [done|]. intros io0 io1 perm now0 now1 r' Hcan Hck Hcs Hlt Hidle. exists (mkAuthenticated s u'). split; [|done].
  eapply (issued_session_is_admitted HashSessionToken SplitHost ParseIP); try done; [by rewrite Hid|by rewrite Hrole].
Qed.
End SigningIn.

(** ** adduser *)

Section AddUser.
Context `{UC : UnicodeCase} `{NI : NetIP} `{NU : NetURL} `{GF : GoFmt} `{PH : PasswordHasher} `{!PasswordHasherLaws PH}.
Context (ParseDuration : string -> option Z) (lookup : string -> option string) (stat : string -> result string Z)
  (readFile : string -> result string string) (decode : string -> Config -> result string Config) (rand : Z -> result string string).

Abbreviation adduser := (runAddUser ParseDuration lookup stat readFile decode rand).

Lemma chosen_password_Ok given chosen generated :
  rand_ok rand -> chosen_password rand given = Ok (chosen, generated) ->
  chosen <> "" /\ (given <> "" -> chosen = given /\ generated = false) /\ (given = "" -> generated = true).
Proof.
  intros Hrand. unfold chosen_password. case_bool_decide as Hg; [|intros [= <- <-]; by split_and!].
  unfold GeneratePassword, randomString. destruct (rand passwordEntropyBytes) as [b|e] eqn:Hb; [|done]. intros [= <- <-]. apply Hrand in Hb.
  split_and!; [|done|done]. apply (b64_encode_nonempty _ URLAlphabet_ok), len_pos_nonempty. rewrite Hb. done.
Qed.

(** What was done when there is no error. *)
Lemma adduser_Ok io args db run :
  adduser io args db = run -> cr_error run = None ->
  exists fs rest role chosen generated hash user,
    flag_Parse ParseDuration adduser_flags args = Ok (fs, rest) /\ flag_string fs "username" <> "" /\ ParseRole (flag_string fs "role") = Ok role
    /\ chosen_password rand (flag_string fs "password") = Ok (chosen, generated) /\ ph_hash chosen = Ok hash
    /\ Users_Create (ai_create io) (ai_now io) (ai_userID io) (added_user (flag_string fs "username") (flag_string fs "email") hash role) (cd_admin db)
       = (Ok user, cd_admin (cr_db run))
    /\ run = add_user io (flag_string fs "username") (flag_string fs "email") hash chosen generated role db.
Proof.
  intros <-. unfold runAddUser. destruct (flag_Parse _ _ _) as [[fs rest]|] eqn:Hfs; [|done]. cbv zeta. case_bool_decide as Hn; [done|].
  destruct (ParseRole _) as [role|] eqn:Hrole; [|done]. destruct (Load _ _ _ _ _) as [c|]; [|done].
  destruct (chosen_password _ _) as [[chosen generated]|] eqn:Hch; [|done]. destruct (ph_hash chosen) as [hash|] eqn:Hh; [|done].
  destruct (Sql.Open _ _ _); [|done]. destruct (ai_migrate io); [done|]. intros Herr.
  destruct (Users_Create (ai_create io) (ai_now io) (ai_userID io) (added_user (flag_string fs "username") (flag_string fs "email") hash role) (cd_admin db))
    as [[user|e] admins] eqn:Hcr.
  - exists fs, rest, role, chosen, generated, hash, user. split_and!; try done. unfold add_user. rewrite Hcr.
    by destruct (Audit_Append _ _ _ _ _).
  - unfold add_user in Herr. by rewrite Hcr in Herr.
Qed.

(** The row that was written, and that the others are still there. *)
Lemma Users_Create_Ok io now newID u db v db' :
  Users_Create io now newID u db = (Ok v, db') ->
  v = user_defaults now newID u /\ db' = set_users (<[u_ID v := v]> (admin_users db)) db /\ admin_users db !! u_ID v = None /\ user_error v db = None.
Proof.
  unfold Users_Create, exec. destruct io; [done|]. cbv zeta. destruct (insert_error _ _) as [e|] eqn:He; [by destruct e|].
  intros [= <- <-]. split; [done|]. split; [done|]. unfold insert_error in He.
  destruct (user_error _ db) as [[]|]; try done; destruct (bool_decide _) eqn:Hb; try done. apply bool_decide_eq_false_1 in Hb.
  split; [|done]. by apply eq_None_not_Some.
Qed.

(** A password that was made up is on the output. *)
Lemma add_user_output io username email hash chosen role db run :
  run = add_user io username email hash chosen true role db -> cr_error run = None ->
  exists before after, cr_stdout run = before +:+ "password: " +:+ chosen +:+ nl +:+ after.
Proof.
  intros ->. unfold add_user. destruct (Users_Create _ _ _ _ _) as [[user|e] admins]; [|done]. destruct (Audit_Append _ _ _ _ _) as [r log]. intros _.
  exists ("created " +:+ u_Username user +:+ " with the role " +:+ role_string role +:+ nl), (nl +:+ "This is the only time it is shown." +:+ nl).
  cbn [cr_stdout]. by rewrite !string_app_assoc.
Qed.

(** C20: the first administrator can get in. When [adduser] reports no error,
    the database has the user it was asked for, beside everyone who was there;
    and the password it was given, or the one it printed, signs that user in at
    the management interface, with a session that is admitted wherever the
    user's role may go. *)
Theorem added_user_can_sign_in SplitHost ParseIP decoyHash HashSessionToken io args db :
  admin_ok (cd_admin db) -> rand_ok rand -> (forall p h, ph_hash p = Ok h -> h <> "") ->
  cr_error (adduser io args db) = None ->
  exists fs rest role password u,
    flag_Parse ParseDuration adduser_flags args = Ok (fs, rest) /\ ParseRole (flag_string fs "role") = Ok role
    /\ (flag_string fs "password" <> "" -> password = flag_string fs "password")
    /\ (flag_string fs "password" = "" ->
          exists before after, cr_stdout (adduser io args db) = before +:+ "password: " +:+ password +:+ nl +:+ after)
    /\ admin_users (cd_admin (cr_db (adduser io args db))) = <[u_ID u := u]> (admin_users (cd_admin db))
    /\ admin_users (cd_admin db) !! u_ID u = None /\ u_Username u = flag_string fs "username" /\ u_Role u = role
    /\ (forall cfg lio scfg token csrf now newID r,
          lc_Enabled cfg = true -> li_read lio = None -> li_success lio = None -> token <> "" -> csrf <> "" ->
          session_free HashSessionToken newID token (cd_admin db) ->
          let db' := cd_admin (cr_db (adduser io args db)) in
          let login := handleLogin SplitHost ParseIP decoyHash HashSessionToken (Some cfg) lio None scfg (Ok token) (Ok csrf) now newID
                         (u_Username u) password r db' db' in
          exists issued, login.2 = Some issued /\ admits HashSessionToken scfg role (li_now lio) issued (ap_db login.1)).
Proof.
  intros Hdb Hrand Hhash Herr. remember (adduser io args db) as run eqn:Hrun. symmetry in Hrun.
  destruct (adduser_Ok io args db run Hrun Herr) as (fs & rest & role & chosen & generated & hash & u & Hfs & Hname & Hrole & Hch & Hh & Hcr & Hadd).
  destruct (chosen_password_Ok _ _ _ Hrand Hch) as (Hne & Hgiven & Hmade). apply Hhash in Hh as Hhne.
  pose proof (create_user_ok (ai_create io) (ai_now io) (ai_userID io) (added_user (flag_string fs "username") (flag_string fs "email") hash role) _ Hdb) as Hdb'.
  rewrite Hcr in Hdb'. apply Users_Create_Ok in Hcr as (Hu & Hset & Hnew & _). cbn [snd] in Hdb'.
  assert (u_PasswordHash u = Some hash) as Hph by (rewrite Hu; simpl; unfold NullString; by rewrite bool_decide_eq_false_2).
  exists fs, rest, role, chosen, u. split_and!; try done; [by intros [? _]%Hgiven|intros Hg%Hmade; subst generated; by eapply add_user_output|by rewrite Hset|by rewrite Hu|by rewrite Hu|].
  intros cfg lio scfg token csrf now newID r He Hr Hs Ht Hc Hfree. cbv zeta.
  assert (role = u_Role u) as -> by (by rewrite Hu).
  eapply (login_opens SplitHost ParseIP decoyHash HashSessionToken cfg lio scfg token csrf now newID chosen r _ (u_ID u) u hash); try done.
  - rewrite Hset. apply lookup_insert_eq.
  - by rewrite Hu.
  - by rewrite Hu.
  - unfold session_free. by rewrite Hset.
Qed.
End AddUser.

(** ** The other commands *)

Section Others.
Context `{UC : UnicodeCase} `{NI : NetIP} `{NU : NetURL} `{GF : GoFmt} `{PH : PasswordHasher} `{!PasswordHasherLaws PH}.
Context (ParseDuration : string -> option Z) (lookup : string -> option string) (stat : string -> result string Z)
  (readFile : string -> result string string) (decode : string -> Config -> result string Config) (rand : Z -> result string string).

(** Loading always ends. *)
Lemma load_ends path : Load lookup stat readFile decode path <> Err LoadStuck.
Proof.
  unfold Load. destruct (readFile path) as [raw|]; [|done]. unfold Parse, expand.
  destruct (loop_total lookup stat readFile (String.length raw) (String.length raw) (mkPos 0 None false None) raw) as [_ H]; try done.
  destruct (expand_loop _ _ _ _ _ raw) as [[text|]|]; [|done|done]. destruct (decode text Defaults) as [cfg|]; [|done]. by destruct (Validate cfg).
Qed.

(** The hash [passwd] prints is one the password verifies against. *)
Lemma printed_hash_verifies args db :
  cr_error (runPasswd ParseDuration rand args db) = None ->
  exists fs rest value generated hash due, flag_Parse ParseDuration passwd_flags args = Ok (fs, rest)
    /\ chosen_password rand (flag_string fs "password") = Ok (value, generated) /\ ph_verify hash value = Ok (true, due)
    /\ cr_stdout (runPasswd ParseDuration rand args db)
       = (if generated then "password: " +:+ value +:+ nl else "") +:+ "hash:     " +:+ hash +:+ nl.
Proof.
  unfold runPasswd. destruct (flag_Parse _ _ _) as [[fs rest]|] eqn:Hfs; [|done].
  destruct (chosen_password _ _) as [[value generated]|] eqn:Hch; [|done]. destruct (ph_hash value) as [hash|] eqn:Hh; [|done]. intros _.
  destruct (ph_verify_hash _ _ Hh) as [due Hv]. by exists fs, rest, value, generated, hash, due.
Qed.

(** The key [genkey] prints can be configured as it is. *)
Lemma printed_key_is_accepted NewGCM args db :
  rand_ok rand -> (forall key, len key = keyLen -> exists a, NewGCM key = Ok a) -> cr_error (runGenkey ParseDuration rand args db) = None ->
  exists spec kr text, NewKeyring NewGCM [spec] = Ok kr /\ cr_stdout (runGenkey ParseDuration rand args db) = spec +:+ nl +:+ text.
Proof.
  intros Hrand Hgcm. unfold runGenkey. destruct (flag_Parse _ _ _) as [[fs rest]|]; [|done].
  destruct (GenerateKey rand _) as [spec|e] eqn:Hg; [|done]. intros _. revert Hg. unfold GenerateKey.
  destruct (valid_key_id _) eqn:Hid; [|done]. simpl. destruct (rand keyLen) as [key|] eqn:Hk; [|done]. intros [= <-]. apply Hrand in Hk as Hlen.
  destruct (Hgcm key Hlen) as [a Ha]. destruct (generated_key_is_accepted NewGCM rand _ key 0 a Hid Hlen Ha) as [_ Hacc].
  eexists _, _. cbn [printed cr_stdout]. rewrite (Hacc _ (or_introl eq_refl)). cbn [replicate unbytes]. rewrite string_app_nil.
  destruct (flag_bool fs "quiet"); [exists ""|eexists]; (split; [reflexivity|]); [by rewrite string_app_nil|unfold genkey_help; reflexivity].
Qed.

(** [serve --check] says that a configuration is valid exactly when [serve]
    would go on to build the proxy from it. *)
Lemma check_agrees_with_serve path db steps served :
  (forall c, (app_New c (steps c)).1 = None) -> (forall c, served c = None) ->
  cr_error (runServe ParseDuration lookup stat readFile decode steps served ["--check"; "--config=" +:+ path] db)
  = cr_error (runServe ParseDuration lookup stat readFile decode steps served ["-config"; path] db).
Proof.
  intros Hn Hs. unfold runServe.
  change (flag_Parse ParseDuration serve_flags ["--check"; "--config=" +:+ path])
    with (Ok (E := FlagError) (<["config" := FlagString path]> (<["check" := FlagBool true]> serve_flags), @nil string)).
  change (flag_Parse ParseDuration serve_flags ["-config"; path]) with (Ok (E := FlagError) (<["config" := FlagString path]> serve_flags, @nil string)).
  cbv zeta beta iota. unfold flag_string, flag_bool. rewrite !lookup_insert_eq, !lookup_insert_ne, lookup_insert_eq by done.
  destruct (Load lookup stat readFile decode path); [|done]. change (serve_flags !! "check") with (Some (FlagBool false)). cbv iota. by rewrite Hn, Hs.
Qed.
End Others.

(** What the linker stamped stays, and what it did not comes from the first
    setting that has it. *)
Lemma stamp_wins i settings :
  (in_Commit i <> unknown -> in_Commit (applyVCSSettings i settings) = in_Commit i)
  /\ (in_BuildDate i <> unknown -> in_BuildDate (applyVCSSettings i settings) = in_BuildDate i).
Proof.
  revert i. unfold applyVCSSettings. induction settings as [|s settings IH]; intros i; [done|]. cbn [fold_left].
  destruct (IH (apply_setting i s)) as [H1 H2]. destruct s as [key value].
  split; intros Hc; [rewrite H1|rewrite H2]; unfold apply_setting; repeat case_bool_decide; done.
Qed.

(** ** Witness *)

Definition salted_hasher : PasswordHasher :=
  Build_PasswordHasher (fun h p => Ok (bool_decide (h = "$" +:+ p), false)) (fun p => Ok ("$" +:+ p)).

#[export] Instance salted_hasher_laws : PasswordHasherLaws salted_hasher.
Proof. constructor. intros password hash [= <-]. exists false. cbn [ph_verify salted_hasher]. by rewrite bool_decide_eq_true_2. Qed.

Definition cmd_net : NetIP := Build_NetIP string string id (fun s => Ok s) (fun n a => bool_decide (n = a)).
Definition cmd_url : NetURL := {| url_Parse := fun s => Some (mkURL "https" "host") |}.
Definition cmd_case : UnicodeCase := {| unicode_to_lower := id; unicode_to_upper := id; unicode_equal_fold := fun a b => bool_decide (a = b) |}.

Definition cmd_config : Config :=
  let s := c_SMTP Defaults in
  mkConfig (c_Log Defaults) (c_Database Defaults) (mkEncryption ["k1:AAAA"]) (c_Storage Defaults)
    (mkSMTP (sm_Hostname s) (sm_Listeners s) (mkTLS "" "" true "1.2") false 100 100 10 5 (5 * Minute) (5 * Minute) (sm_ProxyProtocol s))
    (c_Queue Defaults) (c_Upstream Defaults) (c_Admin Defaults) (c_Bootstrap Defaults).

Definition cmd_io : AddUserIO := mkAddUserIO (fun _ _ => None) (fun _ _ => None) None None None 40 "u7" "e7".
Definition cmd_args : list string := ["-username"; "eve"; "--role=operator"].

Definition cmd_run : CmdRun :=
  runAddUser (UC := cmd_case) (NI := cmd_net) (NU := cmd_url) (GF := key_fmt) (PH := salted_hasher) (fun _ => None) (fun _ => None)
    (fun _ => Err "none") (fun _ => Ok "log: {}") (fun _ _ => Ok cmd_config) safe_rand cmd_io cmd_args (mkCmdDB sample_admins ∅).

Definition cmd_flags : FlagSet := <["role" := FlagString "operator"]> (<["username" := FlagString "eve"]> adduser_flags).

Lemma cmd_flags_parsed : flag_Parse (fun _ => None) adduser_flags cmd_args = Ok (cmd_flags, []).
Proof. reflexivity. Qed.

Lemma cmd_flags_values : flag_string cmd_flags "username" = "eve" /\ flag_string cmd_flags "password" = "".
Proof. split; vm_compute; reflexivity. Qed.

Lemma cmd_session_free : session_free token_hash "s7" "tok7" sample_admins.
Proof.
  split; [vm_compute; reflexivity|]. intros k s Hk.
  assert (admin_sessions sample_admins = {[ "s1" := session_defaults 3 "s1" root_session ]}) as He by (vm_compute; reflexivity).
  rewrite He in Hk. apply lookup_singleton_Some in Hk as [_ <-]. vm_compute. discriminate.
Qed.

(** Eve, an operator, is added and given a password. *)
Lemma added_user_can_sign_in_witness :
  exists password before after, cr_stdout cmd_run = before +:+ "password: " +:+ password +:+ nl +:+ after
    /\ exists issued, (handleLogin (NI := cmd_net) (PH := salted_hasher) (fun _ => None) (fun _ => None) "decoy" token_hash (Some strict) (calm_io 50)
         None short (Ok "tok7") (Ok "csrf7") 50 "s7" "eve" password post (cd_admin (cr_db cmd_run)) (cd_admin (cr_db cmd_run))).2 = Some issued.
Proof.
  destruct (added_user_can_sign_in (UC := cmd_case) (NI := cmd_net) (NU := cmd_url) (GF := key_fmt) (PH := salted_hasher) (fun _ => None) (fun _ => None)
    (fun _ => Err "none") (fun _ => Ok "log: {}") (fun _ _ => Ok cmd_config) safe_rand (fun _ => None) (fun _ => None) "decoy" token_hash
    cmd_io cmd_args (mkCmdDB sample_admins ∅)) as (fs & rest & role & password & u & Hfs & _ & _ & Hmade & _ & _ & Hname & _ & Hlogin).
  - exact sample_admins_ok.
  - exact safe_rand_ok.
  - intros p h [= <-]. discriminate.
  - vm_compute. reflexivity.
  - rewrite cmd_flags_parsed in Hfs. injection Hfs as <- <-. destruct cmd_flags_values as [Hu Hp]. rewrite Hu in Hname.
    destruct (Hmade Hp) as (before & after & Hout). exists password, before, after. split; [exact Hout|].
    destruct (Hlogin strict (calm_io 50) short "tok7" "csrf7" 50 "s7" post eq_refl eq_refl eq_refl ltac:(discriminate) ltac:(discriminate) cmd_session_free)
      as (issued & Hi & _).
    exists issued. rewrite Hname in Hi. exact Hi.
Defined.
