(* ===== verification/Webui.v ===== *)
(** * The embedded pages

    [internal/webui/webui.go]: which file of the built user interface a request
    gets, and [internal/legal/legal.go]. [http.FileServer] is modelled as far
    as the choice of the answer goes; content types it guesses, ranges and
    conditional requests are left out. *)

From stdpp Require Import base strings list.
From Stdlib Require Import ZArith Lia Ascii.
From S2P Require Import Prelude GoStrings GoStringsFacts GoPath.

Open Scope Z_scope.

(** ** Definitions *)

(** What [fs.Stat] finds under a name. *)
Inductive Stat := IsFile (content : string) | IsDir (entries : list string) | NotExist | StatFailed.

Abbreviation FS := (string -> Stat).

Definition indexFile : string := "index.html".
Definition assetPrefix : string := "assets/".

Definition hasIndex (root : FS) : bool := match root indexFile with IsFile _ | IsDir _ => true | NotExist | StatFailed => false end.

Inductive UiAnswer :=
| UiIndex (body : string)                   (* 200, text/html, never cached *)
| UiFile (name content : string)            (* 200 *)
| UiListing (name : string) (entries : list string)  (* 200: the names in a directory *)
| UiRedirect (location : string)
| UiStatus (status : Z).

Definition serveIndex (method : string) (root : FS) : UiAnswer :=
  match root indexFile with
  | IsFile b => UiIndex (if bool_decide (method = "HEAD") then "" else b)
  | _ => UiStatus 500
  end.

Definition notBuilt : UiAnswer := UiStatus 404.

(** [path.Base] of a path that is not all slashes. *)
Definition Base (p : string) : string :=
  match last_cut_byte SLASH (TrimRight p "/") with Some (_, base) => base | None => TrimRight p "/" end.

(** [http.FileServer] on a request path; [index.html] is reached by its
    directory only. *)
Definition file_server (root : FS) (url : string) : UiAnswer :=
  let url := if HasPrefix url "/" then url else "/" +:+ url in
  let name := rooted_name url in
  if HasSuffix url "/index.html" then UiRedirect "./"
  else match root (if bool_decide (name = "") then "." else name) with
  | NotExist => UiStatus 404
  | StatFailed => UiStatus 500
  | IsFile c => if HasSuffix url "/" then UiRedirect ("../" +:+ Base url) else UiFile name c
  | IsDir entries =>
      if negb (HasSuffix url "/") then UiRedirect (Base url +:+ "/")
      else let index := name +:+ "/index.html" in
           match root index with
           | IsFile c => UiFile index c
           | IsDir inner => UiListing index inner
           | NotExist | StatFailed => UiListing name entries
           end
  end.

Definition handlerFor (root : FS) (method path : string) : UiAnswer :=
  if negb (hasIndex root) then notBuilt
  else
    let name := default (Clean ("/" +:+ path)) (CutPrefix (Clean ("/" +:+ path)) "/") in
    if bool_decide (name = "") || bool_decide (name = indexFile) then serveIndex method root
    else match root name with
    | StatFailed => UiStatus 500
    | NotExist => if HasPrefix name assetPrefix then UiStatus 404 else serveIndex method root
    | IsFile _ | IsDir _ => file_server root path
    end.

(** [legal.Handler]: the notices, and whether they are sent as a download. *)
Definition legal_Handler (notices : string) (download : string) : string * bool := (notices, bool_decide (download = "1")).

(** ** Properties *)

Lemma ui_name path : default (Clean ("/" +:+ path)) (CutPrefix (Clean ("/" +:+ path)) "/") = rooted_name path.
Proof. rewrite clean_rooted. unfold CutPrefix, HasPrefix. change ("/" +:+ ?x) with (String SLASH x). by destruct (rooted_name path). Qed.

Lemma rooted_name_slash path : rooted_name ("/" +:+ path) = rooted_name path.
Proof. done. Qed.

(** What was asked for, to the file server too. *)
Lemma file_server_name path : rooted_name (if HasPrefix path "/" then path else "/" +:+ path) = rooted_name path.
Proof. by destruct (HasPrefix path "/"). Qed.

(** The pages stay inside. Whatever path a request has, dots and doubled
    slashes included, it is looked up under a name that cannot lead out of the
    embedded tree; what is served under it is a file of the tree of that name,
    or the index of a directory of that name; a bundle that is not there is a
    404 and never a page; and every other path that names nothing gets the
    page that routes on the client. *)
Theorem pages_stay_inside root method path :
  let name := rooted_name path in
  (name = "" \/ valid_name name = true)
  /\ (hasIndex root = true ->
      match handlerFor root method path with
      | UiIndex body => exists page, root indexFile = IsFile page /\ (body = page \/ method = "HEAD")
          /\ (name = "" \/ name = indexFile \/ (root name = NotExist /\ HasPrefix name assetPrefix = false))
      | UiFile served content => root served = IsFile content /\ (served = name \/ served = name +:+ "/index.html")
      | UiListing served entries => root served = IsDir entries /\ (served = name \/ served = name +:+ "/index.html")
      | UiRedirect _ => root name <> NotExist
      | UiStatus status => status = 404 /\ root name = NotExist /\ HasPrefix name assetPrefix = true \/ status = 500
      end).
Proof.
  cbv zeta. split; [apply rooted_name_valid|]. intros Hi. unfold handlerFor. rewrite Hi, ui_name. cbn [negb].
  assert (forall P : Prop, (forall page, root indexFile = IsFile page -> P) ->
    match serveIndex method root with
    | UiIndex body => exists page, root indexFile = IsFile page /\ (body = page \/ method = "HEAD") /\ P
    | UiStatus status => status = 500 | _ => False end) as Hserve.
  { intros P HP. unfold serveIndex. destruct (root indexFile) as [b| | |] eqn:Hb; try done. exists b. split_and!; [done| |by eapply HP].
    case_bool_decide; auto. }
  unfold file_server. rewrite file_server_name. set (name := rooted_name path).
  case_bool_decide as H1; [specialize (Hserve (name = "" \/ name = indexFile \/ (root name = NotExist /\ HasPrefix name assetPrefix = false)) ltac:(by auto));
    destruct (serveIndex method root); try done; by right|].
  case_bool_decide as H2; [specialize (Hserve (name = "" \/ name = indexFile \/ (root name = NotExist /\ HasPrefix name assetPrefix = false)) ltac:(by auto));
    destruct (serveIndex method root); try done; by right|].
  cbn [orb]. cbv zeta. destruct (root name) as [c|entries| |] eqn:Hn; [| | |by right].
  - destruct (HasSuffix _ "/index.html"); [done|]. destruct (HasSuffix _ "/"); [done|]. auto.
  - destruct (HasSuffix _ "/index.html"); [done|]. destruct (HasSuffix _ "/"); [|done]. cbn [negb].
    destruct (root (name +:+ "/index.html")) eqn:Hx; auto.
  - destruct (HasPrefix name assetPrefix) eqn:Ha; [left; done|].
    specialize (Hserve (name = "" \/ name = indexFile \/ (NotExist = NotExist /\ false = false)) ltac:(by auto)).
    destruct (serveIndex method root); try done. by right.
Qed.

(** The tree of the tests. *)
Definition built_tree (name : string) : Stat :=
  if bool_decide (name = "index.html") then IsFile "<title>app</title>"
  else if bool_decide (name = "assets/main-abc123.js") then IsFile "console.log(1)"
  else if bool_decide (name = "assets") then IsDir ["main-abc123.js"]
  else if bool_decide (name = ".") then IsDir ["assets"; "index.html"]
  else NotExist.

Example served_pages :
  handlerFor built_tree "GET" "/" = UiIndex "<title>app</title>" /\ handlerFor built_tree "GET" "/assets/main-abc123.js" = UiFile "assets/main-abc123.js" "console.log(1)"
  /\ handlerFor built_tree "GET" "/queue/42" = UiIndex "<title>app</title>" /\ handlerFor built_tree "GET" "/assets/main-deadbeef.js" = UiStatus 404
  /\ handlerFor built_tree "HEAD" "/dashboard" = UiIndex "" /\ handlerFor built_tree "GET" "/../../etc/passwd" = UiIndex "<title>app</title>".
Proof. vm_compute. done. Qed.

(** The directory of the bundles is listed to whoever asks. *)
Example asset_directory_is_listed : handlerFor built_tree "GET" "/assets/" = UiListing "assets" ["main-abc123.js"].
Proof. vm_compute. done. Qed.
