(* ===== verification/Covercheck.v ===== *)
(** * The coverage gate

    [internal/tools/covercheck/main.go]: the tool that refuses a build whose
    tests cover too little of a package. Percentages are 64-bit floats; the
    order in which Go visits a map is an argument; the table it prints is left
    out. *)

From stdpp Require Import base gmap strings list sorting.
From Stdlib Require Import ZArith QArith Lia Ascii.
From S2P Require Import Prelude GoStrings GoStringsFacts GoPath GoFloat.

Open Scope Z_scope.

(** ** Definitions *)

Record CoverConfig := mkCoverConfig { cv_Total : Q; cv_Packages : gmap string Q; cv_Exclude : list string }.

Record pkgStats := mkPkgStats { ps_total : Z; ps_covered : Z }.

Definition no_stats : pkgStats := mkPkgStats 0 0.

(** [strings.Fields]: [word] is the field being read, last byte first; the
    length of the text is fuel enough. *)
Definition close_field (word : list ascii) : list string := match word with [] => [] | _ => [unbytes (rev word)] end.

Fixpoint fields_from (fuel : nat) (word l : list ascii) : list string :=
  match fuel, l with
  | S fuel, c :: rest =>
      match space_width unicode_spaces l with
      | O => fields_from fuel (c :: word) rest
      | w => close_field word ++ fields_from fuel [] (drop w l)
      end
  | _, _ => close_field word
  end.

Definition Fields (s : string) : list string := fields_from (String.length s) [] (bytes s).

Definition parseProfileLine (line : string) : result string (string * Z * Z) :=
  match last_cut_byte ":"%char line with
  | None => Err "missing ':' separator"
  | Some (file, after) =>
      match Fields after with
      | [_; stmts; count] =>
          match Atoi stmts with
          | None => Err "statement count"
          | Some n => match Atoi count with None => Err "execution count" | Some c => Ok (file, n, c) end
          end
      | l => Err ("expected 3 fields after ':', got " +:+ Itoa (Z.of_nat (length l)))
      end
  end.

Definition below (pkg prefix : string) : bool := bool_decide (pkg = prefix) || HasPrefix pkg (prefix +:+ "/").

Definition isExcluded (pkg : string) (exclude : list string) : bool := existsb (below pkg) exclude.

Definition add_stats (stmts count : Z) (s : pkgStats) : pkgStats :=
  mkPkgStats (ps_total s + stmts) (if count >? 0 then ps_covered s + stmts else ps_covered s).

(** One line of the profile. *)
Definition profile_line (module : string) (exclude : list string) (line : string) (stats : gmap string pkgStats)
  : result string (gmap string pkgStats) :=
  let line := TrimSpace line in
  if bool_decide (line = "") || HasPrefix line "mode:" then Ok stats
  else match parseProfileLine line with
  | Err e => Err e
  | Ok (file, stmts, count) =>
      let pkg := TrimPrefix (Dir file) (module +:+ "/") in
      if isExcluded pkg exclude then Ok stats
      else Ok (<[pkg := add_stats stmts count (default no_stats (stats !! pkg))]> stats)
  end.

Fixpoint profile_lines (module : string) (exclude : list string) (n : Z) (lines : list string) (stats : gmap string pkgStats)
  : result string (gmap string pkgStats) :=
  match lines with
  | [] => Ok stats
  | line :: rest =>
      match profile_line module exclude line stats with
      | Err e => Err ("profile line " +:+ Itoa n +:+ ": " +:+ e)
      | Ok stats => profile_lines module exclude (n + 1) rest stats
      end
  end.

(** [parseProfile]: the lines of the scanner, and the error it stopped with. *)
Definition parseProfile (lines : list string) (scan : option string) (module : string) (exclude : list string)
  : result string (gmap string pkgStats) :=
  match profile_lines module exclude 1 lines ∅ with
  | Err e => Err e
  | Ok stats => match scan with Some e => Err e | None => Ok stats end
  end.

(** The module directive of a go.mod. *)
Definition module_of (text : string) : option string :=
  match omap (fun line => CutPrefix (TrimSpace line) "module ") (split_byte LF text) with
  | after :: _ => Some (TrimSpace after)
  | [] => None
  end.

Fixpoint find_module (readFile : string -> option string) (levels : nat) (dir : string) : result string string :=
  match levels with
  | O => Err "could not locate go.mod"
  | S levels =>
      match readFile (Join2 dir "go.mod") with
      | Some text => match module_of text with Some m => Ok m | None => Err "go.mod has no module directive" end
      | None => find_module readFile levels (Join2 dir "..")
      end
  end.

Definition moduleFromProfile (readFile : string -> option string) (profilePath : string) : result string string :=
  find_module readFile 5 (Dir profilePath).

(** One entry of the map: the longest prefix so far, with its length. *)
Definition threshold_step (pkg : string) (best : Q * Z) (entry : string * Q) : Q * Z :=
  let '(prefix, want) := entry in
  if below pkg prefix && (len prefix >? best.2) then (want, len prefix) else best.

Definition thresholdFor (pkg : string) (total : Q) (visited : list (string * Q)) : Q :=
  (fold_left (threshold_step pkg) visited (total, -1)).1.

Section Percent.
Context `{F : Float64}.

Definition percent (s : pkgStats) : Q :=
  if ps_total s =? 0 then 100 else rnd (rnd (rnd (inject_Z (ps_covered s)) / rnd (inject_Z (ps_total s))) * 100).

Definition short_of (got want : Q) : bool := negb (Qle_bool want (rnd (got + rnd (1 # 1000000000)))).

Definition overall (stats : gmap string pkgStats) : pkgStats :=
  map_fold (fun _ s acc => mkPkgStats (ps_total acc + ps_total s) (ps_covered acc + ps_covered s)) no_stats stats.

(** [report]: what falls short, the packages in the order of their names. *)
Definition report (stats : gmap string pkgStats) (cfg : CoverConfig) (visited : list (string * Q)) : list (string * Q * Q) :=
  omap (fun p =>
          let got := percent (default no_stats (stats !! p)) in
          let want := thresholdFor p (cv_Total cfg) visited in
          if short_of got want then Some (p, got, want) else None)
    (merge_sort string_le (map_to_list stats).*1)
  ++ (if short_of (percent (overall stats)) (cv_Total cfg) then [("total", percent (overall stats), cv_Total cfg)] else []).

Inductive CoverError := CoverText (e : string) | CoverBelow (failures : list (string * Q * Q)).

Definition covercheck_run (config : result string CoverConfig) (profile : result string (list string * option string))
    (readFile : string -> option string) (profilePath : string) (visit : gmap string Q -> list (string * Q)) : option CoverError :=
  match config with
  | Err e => Some (CoverText e)
  | Ok cfg =>
      match profile with
      | Err e => Some (CoverText ("open profile: " +:+ e))
      | Ok (lines, scan) =>
          match moduleFromProfile readFile profilePath with
          | Err e => Some (CoverText e)
          | Ok module =>
              match parseProfile lines scan module (cv_Exclude cfg) with
              | Err e => Some (CoverText e)
              | Ok stats =>
                  if bool_decide (stats = ∅) then Some (CoverText "profile contained no packages after exclusions")
                  else match report stats cfg (visit (cv_Packages cfg)) with
                       | [] => None
                       | failures => Some (CoverBelow failures)
                       end
              end
          end
      end
  end.
End Percent.

(** ** Properties *)

(** A prefix of a package that is as long as another is the other. *)
Lemma prefix_determined a b s : HasPrefix s a = true -> HasPrefix s b = true -> len a = len b -> a = b.
Proof.
  unfold HasPrefix, len. revert a b. induction s as [|c s IH]; intros [|x a] [|y b]; simpl; try done; try lia.
  intros Ha Hb Hl. destruct (ascii_dec x c) as [->|]; [|done]. destruct (ascii_dec y c) as [->|]; [|done]. f_equal. apply IH; try done. lia.
Qed.

Lemma HasPrefix_weaken s a b : HasPrefix s (a +:+ b) = true -> HasPrefix s a = true.
Proof.
  unfold HasPrefix. revert a. induction s as [|c s IH]; intros [|x a]; simpl; try done. destruct (ascii_dec x c); [apply IH|done].
Qed.

Lemma below_prefix pkg prefix : below pkg prefix = true -> HasPrefix pkg prefix = true.
Proof.
  unfold below. intros [H|H]%orb_true_iff; [|by eapply HasPrefix_weaken]. apply bool_decide_eq_true_1 in H as ->.
  rewrite <-(string_app_nil prefix) at 1. apply HasPrefix_app.
Qed.

(** The outcome of a visit: the entry with the longest prefix, or the total. *)
Definition best_of (pkg : string) (total : Q) (visited : list (string * Q)) (best : Q * Z) : Prop :=
  (best = (total, -1) /\ forall p w, (p, w) ∈ visited -> below pkg p = false)
  \/ exists p w, (p, w) ∈ visited /\ below pkg p = true /\ best = (w, len p) /\ forall p' w', (p', w') ∈ visited -> below pkg p' = true -> len p' <= len p.

Lemma visit_best pkg total visited : best_of pkg total visited (fold_left (threshold_step pkg) visited (total, -1)).
Proof.
  induction visited as [|[p w] visited IH] using rev_ind; [left; split; [done|]; intros ?? H; by apply elem_of_nil in H|].
  rewrite fold_left_app. cbn [fold_left]. set (best := fold_left _ _ _) in *. unfold threshold_step.
  assert (0 <= len p) as Hlen by (unfold len; lia). destruct (below pkg p) eqn:Hb; cbn [andb].
  - destruct (len p >? best.2) eqn:Hl.
    + right. exists p, w. split_and!; [apply elem_of_app; right; by apply list_elem_of_singleton|done|done|].
      intros p' w' [Hin|Hin]%elem_of_app Hb'; [|apply list_elem_of_singleton in Hin; by simplify_eq].
      destruct IH as [[_ Hno]|(q & v & _ & _ & He & Hmax)]; [by rewrite (Hno p' w' Hin) in Hb'|]. rewrite He in Hl. simpl in Hl. specialize (Hmax p' w' Hin Hb'). lia.
    + destruct IH as [[He _]|(q & v & Hin & Hq & He & Hmax)]; [rewrite He in Hl; simpl in Hl; lia|]. right. exists q, v. rewrite He in Hl. simpl in Hl.
      split_and!; [apply elem_of_app; by left|done|done|]. intros p' w' [Hin'|Hin']%elem_of_app Hb'; [by eapply Hmax|].
      apply list_elem_of_singleton in Hin'. simplify_eq. lia.
  - destruct IH as [[He Hno]|(q & v & Hin & Hq & He & Hmax)]; [left|right].
    + split; [done|]. intros p' w' [Hin|Hin]%elem_of_app; [by eapply Hno|]. apply list_elem_of_singleton in Hin. by simplify_eq.
    + exists q, v. split_and!; [apply elem_of_app; by left|done|done|]. intros p' w' [Hin'|Hin']%elem_of_app Hb'; [by eapply Hmax|].
      apply list_elem_of_singleton in Hin'. injection Hin' as -> ->. congruence.
Qed.

(** The bar of a package does not depend on the order Go visits the map in: it
    is that of the longest prefix that is configured, and of the total when
    there is none. *)
Theorem threshold_is_longest_prefix pkg cfg visited :
  visited ≡ₚ map_to_list (cv_Packages cfg) ->
  (thresholdFor pkg (cv_Total cfg) visited = cv_Total cfg /\ forall p w, cv_Packages cfg !! p = Some w -> below pkg p = false)
  \/ exists p w, cv_Packages cfg !! p = Some w /\ below pkg p = true /\ thresholdFor pkg (cv_Total cfg) visited = w
       /\ forall p' w', cv_Packages cfg !! p' = Some w' -> below pkg p' = true -> p' = p \/ len p' < len p.
Proof.
  intros Hperm. assert (forall p w, (p, w) ∈ visited <-> cv_Packages cfg !! p = Some w) as Hin by (intros p w; rewrite Hperm; apply elem_of_map_to_list).
  unfold thresholdFor. destruct (visit_best pkg (cv_Total cfg) visited) as [[-> Hno]|(p & w & Hp & Hb & -> & Hmax)].
  - left. split; [done|]. intros p w Hp. eapply Hno. by apply Hin.
  - right. exists p, w. split_and!; [by apply Hin|done|done|]. intros p' w' Hp' Hb'. destruct (decide (len p' = len p)) as [He|Hne].
    + left. eapply prefix_determined; [by apply below_prefix..|done].
    + right. specialize (Hmax p' w' (proj2 (Hin p' w') Hp') Hb'). lia.
Qed.

(** The gate refuses exactly what falls short of its bar: a package that does
    is named, and so is the total. *)
Lemma report_exact `{F : Float64} stats cfg visited :
  report stats cfg visited = [] <->
  (forall p s, stats !! p = Some s -> short_of (percent s) (thresholdFor p (cv_Total cfg) visited) = false)
  /\ short_of (percent (overall stats)) (cv_Total cfg) = false.
Proof.
  unfold report. split.
  - intros [Ho Ht]%app_nil. split; [|by destruct (short_of _ (cv_Total cfg))]. intros p s Hp. apply not_true_iff_false. intros Hs.
    assert (p ∈ merge_sort string_le (map_to_list stats).*1) as Hin.
    { rewrite merge_sort_Permutation. apply list_elem_of_fmap. exists (p, s). split; [done|]. by apply elem_of_map_to_list. }
    eapply (elem_of_nil (p, percent s, thresholdFor p (cv_Total cfg) visited)). rewrite <-Ho. apply list_elem_of_omap. exists p. split; [done|].
    cbv zeta. rewrite Hp. simpl. by rewrite Hs.
  - intros [Hp Ht]. rewrite Ht, app_nil_r. destruct (omap _ _) as [|x l] eqn:Ho; [done|].
    assert (x ∈ x :: l) as Hx by left. rewrite <-Ho in Hx. apply list_elem_of_omap in Hx as (p & Hin & Hx). cbv zeta in Hx.
    rewrite merge_sort_Permutation in Hin. apply list_elem_of_fmap in Hin as ([p' s] & -> & Hin). apply elem_of_map_to_list in Hin. simpl in Hx. rewrite Hin in Hx.
    simpl in Hx. by rewrite (Hp p' s Hin) in Hx.
Qed.
