(* ===== verification/Startup.v ===== *)
(** * From the bootstrap file to the first login

    [bootstrap.Load], [applyBootstrap] of [internal/app/app.go], and what they
    give together with reconciling and SMTP authentication: the accounts of the
    file are the ones devices can log in to. *)

From stdpp Require Import base gmap strings list.
From Stdlib Require Import ZArith Lia.
From S2P Require Import Prelude GoStrings StoreModels MessageStore MessageQueue QueueProps Directory DirectoryProps Policy Password Expand ExpandProps Config.
From S2P Require Import AuditLog SmtpAuth SmtpAuthProps Bootstrap BootstrapProps Reconcile.

Open Scope Z_scope.

(** ** Definitions *)

Inductive BootLoadError := BootRead (path e : string) | BootExpand (path : string) (e : ExpandError) | BootYAML (path e : string)
| BootInvalid (path : string) (problems : list string) | BootStuck.

Section Startup.
Context `{UC : UnicodeCase} `{NM : NetMail} `{GF : GoFmt} `{NI : NetIP} `{C : Collation}.
Context (lookup : string -> option string) (stat : string -> result string Z) (readFile : string -> result string string).
Context (decode : string -> result string File).

(** [bootstrap.Load]; [decode] is the YAML decoder. *)
Definition bootstrap_Load (path : string) : result BootLoadError File :=
  match readFile path with
  | Err e => Err (BootRead path e)
  | Ok raw =>
      match expand lookup stat readFile raw with
      | None => Err BootStuck
      | Some (Err e) => Err (BootExpand path e)
      | Some (Ok expanded) =>
          match decode expanded with
          | Err e => Err (BootYAML path e)
          | Ok f => match validate f with [] => Ok f | problems => Err (BootInvalid path problems) end
          end
      end
  end.

Inductive StartError := StartLoad (e : BootLoadError) | StartApply (e : BootError).

Context (io : nat -> option string) (newID : nat -> string) (clock : nat -> Z) (seal : string -> string -> result string string).

(** [applyBootstrap] *)
Definition applyBootstrap (c : Config) (db : DB) (log : AuditLog) : option StartError * DB :=
  match bootstrap_Load (bs_Path (c_Bootstrap c)) with
  | Err e => (Some (StartLoad e), db)
  | Ok f =>
      match Apply io newID clock (Some seal) (bool_decide (bs_Mode (c_Bootstrap c) = BootstrapReconcile)) f (start db log) with
      | (Err e, s) => (Some (StartApply e), b_db s)
      | (Ok _, s) => (None, b_db s)
      end
  end.

(** ** Properties *)

Lemma bootstrap_load_ends path : bootstrap_Load path <> Err BootStuck.
Proof.
  unfold bootstrap_Load, expand. destruct (readFile path) as [raw|]; [|done].
  destruct (loop_total lookup stat readFile (String.length raw) (String.length raw) (mkPos 0 None false None) raw) as [_ H]; try done.
  destruct (expand_loop _ _ _ _ _ raw) as [[text|]|]; [|done|done]. destruct (decode text) as [f|]; [|done]. by destruct (validate f).
Qed.

Lemma loaded_file_is_valid path f : bootstrap_Load path = Ok f -> validate f = [].
Proof.
  unfold bootstrap_Load. destruct (readFile path); [|done]. destruct (expand _ _ _ _) as [[text|]|]; [|done|done].
  destruct (decode text) as [g|]; [|done]. destruct (validate g) eqn:Hv; [|done]. by intros [= ->].
Qed.

(** Nothing of the database changes by a start that may only add. *)
Lemma start_only_adds c db log :
  dir_ok db -> bs_Mode (c_Bootstrap c) <> BootstrapReconcile -> extends db (applyBootstrap c db log).2 /\ dir_ok (applyBootstrap c db log).2.
Proof.
  intros Hd Hm. unfold applyBootstrap. destruct (bootstrap_Load _) as [f|]; [|by split; [apply extends_refl|]]. rewrite bool_decide_eq_false_2 by done.
  pose proof (apply_grown db Hd io newID clock (Some seal) f (start db log) (conj Hd (extends_refl db))) as H.
  destruct (Apply _ _ _ _ _ _ _) as [[] s]; simpl; by destruct H as [? ?].
Qed.

Lemma started_declared c db log :
  dir_ok db -> (forall n, newID n <> "") -> bs_Mode (c_Bootstrap c) = BootstrapReconcile -> (applyBootstrap c db log).1 = None ->
  exists f, bootstrap_Load (bs_Path (c_Bootstrap c)) = Ok f /\ declared seal f (applyBootstrap c db log).2 /\ dir_ok (applyBootstrap c db log).2.
Proof.
  intros Hd Hid Hm. unfold applyBootstrap. destruct (bootstrap_Load _) as [f|] eqn:Hl; [|done]. rewrite bool_decide_eq_true_2 by done.
  destruct (apply_settles io newID clock seal f Hid (loaded_file_is_valid _ _ Hl) (start db log)) as (_ & Hd' & Hok); [by apply known_start|].
  destruct (Apply _ _ _ _ _ _ _) as [[[]|] s]; [|done]. intros _. exists f. split_and!; [done| |done]. by apply Hok.
Qed.

(** *** What a declared account gives its device *)

Lemma resolved_dec file accs x : resolved_by file accs x \/ ~ resolved_by file accs x.
Proof.
  unfold resolved_by. destruct (decide (x ∈ (fun m => ToLower (bm_Address m)) <$> fl_Mailboxes file)); [by left; left|].
  destruct (decide (Exists (fun a => x ∈ ToLower <$> ba_Mailboxes a) accs)) as [H|H]; rewrite Exists_exists in H; [left; by right|right; tauto].
Qed.

Lemma NullString_Some v k : NullString v = Some k -> v = k.
Proof. unfold NullString. case_bool_decide; [done|by intros [= ->]]. Qed.

(** The mailboxes an account can send as are those the file lists, and the
    default it names, when that name was resolved. *)
Lemma declared_mailboxes N a db id row :
  dir_ok db -> smtp_accounts db !! id = Some row -> default_declared N a db (acc_DefaultMailboxID row) -> (forall x, N x \/ ~ N x) ->
  (forall address, address ∈ ba_Mailboxes a -> exists b, mailbox_at db address b) ->
  (forall b, (id, b) ∈ smtp_account_mailboxes db <-> exists address, address ∈ ba_Mailboxes a /\ mailbox_at db address b) ->
  forall l : list Mailbox, (forall m, m ∈ l <-> may_send_as id db m = true /\ exists k, mailboxes db !! k = Some m) ->
  forall x, x ∈ mb_Address <$> l <-> x ∈ ToLower <$> ba_Mailboxes a
    \/ (ba_DefaultMailbox a <> "" /\ x = ToLower (ba_DefaultMailbox a) /\ N x /\ ~ mailbox_at db (ba_DefaultMailbox a) "").
Proof.
  intros Hd Hrow (Hdef1 & Hdef2 & Hdef3) Hdec Hex Hl l Hlist x.
  assert (forall b m, mailboxes db !! b = Some m -> mb_ID m = b) as Hidm by (intros b m Hb; exact (to_id _ _ _ _ (do_mailboxes _ Hd) _ _ Hb)).
  assert (forall address b m, mailbox_at db address b -> mailboxes db !! b = Some m -> mb_Address m = ToLower address) as Haddr.
  { intros address b m (r & Hr & Ha) Hb. by simplify_eq. }
  assert (forall address b b', mailbox_at db address b -> mailbox_at db address b' -> b = b') as Huniq.
  { intros address b b' (r & Hr & Ha) (r' & Hr' & Ha'). apply (to_unique _ _ _ _ (do_mailboxes _ Hd) b b' r r'); [done|done|congruence]. }
  rewrite !list_elem_of_fmap. split.
  - intros (m & -> & [Hsend [k Hk]]%Hlist). unfold may_send_as in Hsend. rewrite Hrow, (Hidm _ _ Hk) in Hsend.
    apply orb_true_iff in Hsend as [Hs|Hs]; apply bool_decide_eq_true_1 in Hs.
    { apply Hl in Hs as (address & Ha & Hat). left. exists address. split; [by eapply Haddr|done]. }
    destruct (decide (ba_DefaultMailbox a = "")) as [Hn|Hn].
    + specialize (Hdef1 Hn). destruct (ba_Mailboxes a) as [|address rest]; [congruence|]. destruct Hdef1 as (id' & Hat & Hv).
      left. exists address. split; [|left]. rewrite Hv in Hs. apply NullString_Some in Hs as ->. by eapply Haddr.
    + destruct (Hdec (ToLower (ba_DefaultMailbox a))) as [HN|HN]; [|rewrite (Hdef3 Hn HN) in Hs; done].
      destruct (Hdef2 Hn HN) as (id' & Hat & Hv). rewrite Hv in Hs. pose proof (NullString_Some _ _ Hs) as ->. right.
      assert (mb_Address m = ToLower (ba_DefaultMailbox a)) as -> by (by eapply Haddr). split_and!; [done..|].
      intros He. rewrite <-(Huniq _ _ _ He Hat) in Hs. done.
  - intros [(address & -> & Ha)|(Hn & -> & HN & Hne)].
    + destruct (Hex address Ha) as (b & m & Hb & Hm). exists m. split; [done|].
      apply Hlist. split; [|by exists b]. unfold may_send_as. apply orb_true_iff. left. apply bool_decide_eq_true_2.
      rewrite (Hidm _ _ Hb). apply Hl. exists address. split; [done|]. by exists m.
    + destruct (Hdef2 Hn HN) as (id' & Hat & Hv). pose proof Hat as (m & Hm & Hma). exists m. split; [done|].
      apply Hlist. split; [|by exists id']. unfold may_send_as. rewrite Hrow. apply orb_true_iff. right. apply bool_decide_eq_true_2.
      rewrite Hv, (Hidm _ _ Hm). unfold NullString. rewrite bool_decide_eq_false_2; [done|]. intros ->. done.
Qed.

(** C18: a device of the file can send. When the proxy starts in reconcile mode
    and applying the file reports no error, every account of the file that is
    not disabled logs in over SMTP with the password its hash was made from,
    from every address its networks admit, as long as the database is as the
    start left it and can be read; and what it may then send as is what the file
    says: its sender patterns, its policy, and exactly the mailboxes it lists
    together with the default mailbox it names, provided that name is one of the
    file's mailboxes or in the list of this account or one before it. *)
Theorem declared_account_can_send `{PH : PasswordHasher} `{!PasswordHasherLaws PH} decoy store_text crypto_text c db log :
  dir_ok db -> (forall n, newID n <> "") -> bs_Mode (c_Bootstrap c) = BootstrapReconcile -> (applyBootstrap c db log).1 = None ->
  exists f, bootstrap_Load (bs_Path (c_Bootstrap c)) = Ok f
    /\ forall before a after password remote w, fl_Accounts f = before ++ a :: after -> ba_Disabled a = false -> ph_hash password = Ok (ba_PasswordHash a) ->
         (ba_AllowCIDRs a = [] \/ exists ip, remote = Some ip /\ check_cidrs (ba_Username a) (ba_AllowCIDRs a) ip = Ok tt) ->
         let db' := (applyBootstrap c db log).2 in
         aw_user_db w = db' -> aw_senders_db w = db' -> aw_mailbox_db w = db' ->
         aw_user_io w = None -> aw_senders_io w = None -> aw_mailbox_io w = None ->
         exists id, ar_result (Authenticate decoy store_text crypto_text w (ba_Username a) password remote) = Ok id
           /\ a_Username (id_Account id) = ba_Username a /\ a_Policy (id_Account id) = accountPolicy a
           /\ (forall p, p ∈ a_AllowedSenders (id_Account id) <-> p ∈ ba_AllowedSenders a)
           /\ (forall x, x ∈ mb_Address <$> id_Mailboxes id <-> x ∈ ToLower <$> ba_Mailboxes a
                \/ (ba_DefaultMailbox a <> "" /\ x = ToLower (ba_DefaultMailbox a) /\ resolved_by f (before ++ [a]) x
                    /\ ~ mailbox_at db' (ba_DefaultMailbox a) "")).
Proof.
  intros Hd Hid Hm Hok. destruct (started_declared c db log Hd Hid Hm Hok) as (f & Hf & (_ & _ & Hacc) & Hd'). exists f. split; [done|].
  intros before a after password remote w Ha Hen Hpw Hsrc. cbv zeta. set (db' := (applyBootstrap c db log).2) in *. intros Hu Hs Hmb Hio1 Hio2 Hio3.
  destruct (Hacc before a after Ha) as (k & row & Hrow & H1 & H2 & _ & H4 & H5 & _ & H7 & _ & H9 & H10 & H11 & H12).
  pose proof (to_id _ _ _ _ (do_accounts _ Hd') _ _ Hrow) as Hrid.
  assert (exists allowed, AllowedSenders None (acc_ID row) db' = Ok allowed) as [allowed Hallowed] by (by eexists).
  destruct (known_account_logs_in decoy store_text crypto_text w k row password remote allowed) as (id & Hres & Hkid & Hacct); rewrite ?Hu, ?Hs, ?Hio2; try done;
    [by rewrite H7, Hen|by rewrite H2| |].
  { unfold CheckSourceAddress. cbn [AccountFromStore a_AllowCIDRs a_Username]. rewrite H5, H1. destruct Hsrc as [->|(ip & -> & Hc)]; [done|].
    case_bool_decide; done. }
  rewrite H1 in Hres. destruct (Authenticate_Ok _ _ _ _ _ _ _ _ Hres) as (account & k' & due & Hk' & _ & _ & _ & Hkid' & _ & _ & _ & _ & Hsend & Hbox).
  rewrite Hu in Hk'. rewrite Hs in Hsend. rewrite Hmb in Hbox.
  assert (acc_ID account = k) as Hak by congruence. pose proof (to_id _ _ _ _ (do_accounts _ Hd') _ _ Hk') as Hka. rewrite Hak in *. subst k'. simplify_eq.
  exists id. split; [done|]. rewrite Hacct at 1 2. cbn [AccountFromStore a_Policy a_Username]. split_and!; [done|done| |].
  - intros p. rewrite Hsend, <-H12. naive_solver.
  - eapply (declared_mailboxes _ a _ (acc_ID row) row); try done. apply resolved_dec.
Qed.
End Startup.

(** ** Witness *)

#[local] Existing Instances boot_case boot_mail boot_fmt.
#[local] Instance start_net : NetIP := Build_NetIP string string id (fun s => Ok s) (fun n a => bool_decide (n = a)).
#[local] Instance start_collation : Collation := Build_Collation string_le string_le_dec.

Definition plain_hasher : PasswordHasher := Build_PasswordHasher (fun h p => Ok (bool_decide (h = p), false)) (fun p => Ok p).

#[export] Instance plain_hasher_laws : PasswordHasherLaws plain_hasher.
Proof. constructor. intros password hash [= <-]. exists false. cbn [ph_verify plain_hasher]. by rewrite bool_decide_eq_true_2. Qed.

Definition start_config : Config :=
  mkConfig (c_Log Defaults) (c_Database Defaults) (c_Encryption Defaults) (c_Storage Defaults) (c_SMTP Defaults) (c_Queue Defaults)
    (c_Upstream Defaults) (c_Admin Defaults) (mkBootstrap BootstrapReconcile "bootstrap.yaml").

Definition start_run : option StartError * DB :=
  applyBootstrap (fun _ => None) (fun _ => Err "none") (fun _ => Ok "file") (fun _ => Ok boot_file) (fun _ => None) sample_ids (fun _ => 7) boot_seal
    start_config dir_db ∅.

Definition start_world : AuthWorld := mkAuthWorld None start_run.2 None start_run.2 None start_run.2 None None 8 start_run.2.

Lemma start_loaded :
  bootstrap_Load (fun _ => None) (fun _ => Err "none") (fun _ => Ok "file") (fun _ => Ok boot_file) (bs_Path (c_Bootstrap start_config)) = Ok boot_file.
Proof. vm_compute. reflexivity. Qed.

(** The printer of the file logs in and may send as both its mailboxes. *)
Lemma declared_account_can_send_witness :
  exists id, ar_result (Authenticate (PH := plain_hasher) "decoy" (fun _ => "") (fun _ => "") start_world "printer" "$argon2id$y" None) = Ok id
    /\ "alerts@x" ∈ mb_Address <$> id_Mailboxes id /\ "scan@x" ∈ mb_Address <$> id_Mailboxes id.
Proof.
  destruct (declared_account_can_send (fun _ => None) (fun _ => Err "none") (fun _ => Ok "file") (fun _ => Ok boot_file) (fun _ => None) sample_ids (fun _ => 7)
    boot_seal (PH := plain_hasher) "decoy" (fun _ => "") (fun _ => "") start_config dir_db ∅ dir_db_ok sample_ids_nonempty eq_refl) as (f & Hf & H).
  - vm_compute. reflexivity.
  - rewrite start_loaded in Hf. injection Hf as <-.
    destruct (H [] (mkBAccount "printer" "new" "$argon2id$y" ["alerts@x"; "scan@x"] "scan@x" ["*@x"] "rewrite" [] 5 false) [] "$argon2id$y" None start_world)
      as (id & Hid & _ & _ & _ & Hm).
    + reflexivity.
    + reflexivity.
    + reflexivity.
    + left. reflexivity.
    + reflexivity.
    + reflexivity.
    + reflexivity.
    + reflexivity.
    + reflexivity.
    + reflexivity.
    + exists id. split; [exact Hid|]. split; apply Hm; left; [left|right; left].
Defined.
