(* ===== verification/Wiring.v ===== *)
(** * The upstream side and the management interface, as they are wired

    [buildTokenProvider], [buildQueue], [buildAdmin] and [serveAdmin] of
    [internal/app/app.go], with the constructors they call: [smtprelay.New],
    [graph.New] and [adminapi.New]. An [http.Client] is its timeout and the TLS
    settings of its transport, where [None] is the library's own. *)

From stdpp Require Import base gmap strings list.
From Stdlib Require Import ZArith QArith Lia.
From S2P Require Import Prelude GoStrings GoStringsFacts GoFloat StoreModels Backoff RateLimit Transport Worker Policy AdminStore AdminAuth Keyring Sql Config ConfigProps SmtpAuth SmtpSession SmtpServer App Tokens Sso.

Open Scope Z_scope.

(** ** Upstream *)

Record HTTPClient := mkHTTPClient { hc_Timeout : Z; hc_TLS : option ClientTLS }.

(** The options of the relay beside those [Send] uses; [rl_TLS] is the server
    name with the settings. *)
Record RelaySetup := mkRelaySetup { rl_opts : RelayOptions; rl_Timeout : Z; rl_TLS : option (string * ClientTLS) }.

(** [smtprelay.New]; [tokens] says whether there is a token source. *)
Definition relay_New (tokens : bool) (s : RelaySetup) : result string RelaySetup :=
  let o := rl_opts s in
  if negb tokens then Err "smtprelay: a token source is required"
  else if bool_decide (r_Host o = "") then Err "smtprelay: an upstream host is required"
  else if bool_decide (r_Scope o = "") then Err "smtprelay: an OAuth scope is required"
  else Ok (mkRelaySetup
    (mkRelayOptions (r_Host o) (if r_Port o =? 0 then 587 else r_Port o) (r_Scope o)
       (if bool_decide (r_LocalName o = "") then "localhost" else r_LocalName o))
    (if rl_Timeout s <=? 0 then 2 * Minute else rl_Timeout s) (rl_TLS s)).

(** The TLS settings [connect] uses. *)
Definition relay_tls (s : RelaySetup) : string * ClientTLS :=
  match rl_TLS s with Some t => t | None => (r_Host (rl_opts s), mkClientTLS false None) end.

Record GraphSetup := mkGraphSetup { gr_Endpoint : string; gr_Scope : string; gr_Timeout : Z; gr_client : option HTTPClient }.

Definition graph_New (tokens : bool) (s : GraphSetup) : result string GraphSetup :=
  if negb tokens then Err "graph: a token source is required"
  else if bool_decide (gr_Endpoint s = "") then Err "graph: an endpoint is required"
  else if bool_decide (gr_Scope s = "") then Err "graph: an OAuth scope is required"
  else
    let timeout := if gr_Timeout s <=? 0 then 2 * Minute else gr_Timeout s in
    Ok (mkGraphSetup (gr_Endpoint s) (gr_Scope s) timeout
      (Some (match gr_client s with Some c => c | None => mkHTTPClient timeout None end))).

Section Building.
Context (readFile : string -> result string string) (usable : string -> bool).

(** [buildTokenProvider] *)
Definition buildTokenProvider (k : Keyring) (c : Config) : result string (Provider * HTTPClient) :=
  match upstreamTLSConfig readFile usable (up_TLS (c_Upstream c)) with
  | Err e => Err e
  | Ok tls =>
      let authority := uo_Authority (up_OAuth (c_Upstream c)) in
      Ok (NewProvider k (Some authority) (negb (HasPrefix authority DefaultAuthorityHost)),
          mkHTTPClient (up_Timeout (c_Upstream c)) tls)
  end.

(** [buildQueue], with the backends the transports are; [tokens] says that the
    token provider was built. *)
Definition buildQueue (tokens : bool) (relay_backend : RelaySetup -> Backend) (graph_backend : GraphSetup -> Backend) (id newID : string) (c : Config)
  : result string (RelaySetup * GraphSetup * option (result string Worker.Options)) :=
  let u := c_Upstream c in
  match upstreamTLSConfig readFile usable (up_TLS u) with
  | Err e => Err e
  | Ok tls =>
      match relay_New tokens (mkRelaySetup
              (mkRelayOptions (us_Host (up_SMTP u)) (us_Port (up_SMTP u)) (uo_SMTPScope (up_OAuth u)) (sm_Hostname (c_SMTP c)))
              (up_Timeout u) ((fun t => (us_Host (up_SMTP u), t)) <$> tls)) with
      | Err e => Err e
      | Ok relay =>
          match graph_New tokens (mkGraphSetup (ug_Endpoint (up_Graph u)) (uo_GraphScope (up_OAuth u)) (up_Timeout u)
                  (Some (mkHTTPClient (up_Timeout u) tls))) with
          | Err e => Err e
          | Ok graph => Ok (relay, graph, Worker.New newID <$> runner_options c (relay_backend relay) (graph_backend graph) id)
          end
      end
  end.
End Building.

(** ** The management interface *)

(** What [buildAdmin] tells the single sign-on. *)
Definition sso_config (c : Config) : SsoConfig :=
  let o := ad_OIDC (c_Admin c) in
  mkSsoConfig (oi_Enabled o) (oi_Issuer o) (oi_ClientID o) (oi_ClientSecret o) (oi_Scopes o) (ad_BaseURL (c_Admin c))
    (mkOIDCConfig (oi_UsernameClaim o) (oi_RoleClaim o) (oi_RoleMappings o) (oi_DefaultRole o) (oi_AllowSignup o)).

Definition cookie_config (c : Config) : CookieConfig :=
  cookie_defaults (mkCookieConfig (ss_CookieName (ad_Session (c_Admin c))) "" (cookieSecure c)).

Section Admin.
Context `{NI : NetIP} `{GF : GoFmt} {Endpoint : Type}.

(** [adminapi.Options] as far as they are settings. *)
Record AdminOptions := mkAdminOptions {
  ao_sessions : SessionConfig; ao_local : option LocalConfig; ao_oidc : option (OIDCAuthenticator Endpoint); ao_oidcClient : HTTPClient;
  ao_SMTPScope : string; ao_GraphScope : string; ao_SMTPEndpoint : string; ao_GraphEndpoint : string;
  ao_TrustedProxies : list string; ao_CookieSecure : bool; ao_MetricsEnabled : bool; ao_MetricsPath : string; ao_ServeUI : bool
}.

Record AdminServer := mkAdminServer { as_opts : AdminOptions; as_trusted : list IPNet }.

Definition set_MetricsPath (p : string) (o : AdminOptions) : AdminOptions :=
  mkAdminOptions (ao_sessions o) (ao_local o) (ao_oidc o) (ao_oidcClient o) (ao_SMTPScope o) (ao_GraphScope o) (ao_SMTPEndpoint o)
    (ao_GraphEndpoint o) (ao_TrustedProxies o) (ao_CookieSecure o) (ao_MetricsEnabled o) p (ao_ServeUI o).

(** [adminapi.New]; [db] and [sessions] say whether they are there. *)
Definition adminapi_New (db sessions : bool) (o : AdminOptions) : result string AdminServer :=
  if negb db then Err "adminapi: a database is required"
  else if negb sessions then Err "adminapi: a session manager is required"
  else match ParseTrustedProxies (ao_TrustedProxies o) with
  | Err e => Err e
  | Ok nets => Ok (mkAdminServer (if bool_decide (ao_MetricsPath o = "") then set_MetricsPath "/metrics" o else o) nets)
  end.

(** The timeouts of the HTTP server, in nanoseconds. *)
Record AdminHTTP := mkAdminHTTP { ah_Addr : string; ah_ReadHeader : Z; ah_Read : Z; ah_Write : Z; ah_Idle : Z }.

Definition buildAdmin (discover : string -> result string Endpoint) (c : Config) : result string (AdminServer * AdminHTTP) :=
  match NewOIDCAuthenticator discover (sso_config c) with
  | Err e => Err e
  | Ok oidc =>
      let u := c_Upstream c in
      match adminapi_New true true (mkAdminOptions (session_config c) (local_config c) oidc (mkHTTPClient (30 * Second) None)
              (uo_SMTPScope (up_OAuth u)) (uo_GraphScope (up_OAuth u)) (us_Host (up_SMTP u) +:+ ":" +:+ Itoa (us_Port (up_SMTP u)))
              (ug_Endpoint (up_Graph u)) (ad_TrustedProxies (c_Admin c)) (cookieSecure c) (me_Enabled (ad_Metrics (c_Admin c)))
              (me_Path (ad_Metrics (c_Admin c))) true) with
      | Err e => Err e
      | Ok admin => Ok (admin, mkAdminHTTP (ad_Address (c_Admin c)) (10 * Second) (60 * Second) (120 * Second) (120 * Second))
      end
  end.
End Admin.

(** [serveAdmin]: [listen] is the outcome of binding, [serve] and [serveTLS]
    what the server returned, [None] being [http.ErrServerClosed]. *)
Definition serveAdmin (c : Config) (listen : option string) (serve : option string) (serveTLS : string -> string -> option string) : option string :=
  match listen with
  | Some e => Some ("app: binding the admin interface on " +:+ ad_Address (c_Admin c) +:+ ": " +:+ e)
  | None =>
      let t := ad_TLS (c_Admin c) in
      if filled (at_CertFile t) then serveTLS (at_CertFile t) (at_KeyFile t) else serve
  end.

(** ** Properties *)

Section Upstreams.
Context `{NI : NetIP} `{NU : NetURL}.
Context (readFile : string -> result string string) (usable : string -> bool).

(** What validation says of the upstream settings. *)
Record upstream_ok (c : Config) : Prop := mkUpstreamOk {
  uk_host : us_Host (up_SMTP (c_Upstream c)) <> "";
  uk_port : 0 < us_Port (up_SMTP (c_Upstream c)) <= 65535;
  uk_endpoint : ug_Endpoint (up_Graph (c_Upstream c)) <> "";
  uk_authority : uo_Authority (up_OAuth (c_Upstream c)) <> "";
  uk_scopes : uo_SMTPScope (up_OAuth (c_Upstream c)) <> "" /\ uo_GraphScope (up_OAuth (c_Upstream c)) <> "";
  uk_timeout : 0 < up_Timeout (c_Upstream c)
}.

Lemma upstreamTLS_checked cfg tls :
  upstreamTLSConfig readFile usable cfg = Ok tls -> ut_InsecureSkipVerify cfg = false ->
  match tls with Some t => ct_InsecureSkipVerify t = false | None => True end.
Proof.
  unfold upstreamTLSConfig. intros H Hs. rewrite Hs in H. destruct (filled (ut_CAFile cfg)); simpl in H; [|by simplify_eq].
  destruct (readFile _) as [pem|]; [|done]. destruct (usable pem); by simplify_eq.
Qed.

Lemma https_nonempty field raw : validateHTTPSURL field raw true = [] -> raw <> "".
Proof. unfold validateHTTPSURL. by case_bool_decide. Qed.

Lemma validated_upstream `{UC : UnicodeCase} c : Validate c = [] -> upstream_ok c.
Proof.
  unfold Validate. rewrite !app_nil. intros (_ & _ & _ & _ & _ & _ & Hu & _ & _). unfold validateUpstream, positiveDuration in Hu.
  rewrite !app_nil in Hu. rewrite !when_nil in Hu. destruct Hu as (H1 & H2 & H3%https_nonempty & H4%https_nonempty & H5 & H6 & H7).
  unfold filled in *. bools. by split.
Qed.

(** The upstream side runs as it was configured, and verified. For a validated
    configuration whose TLS settings can be read, the token provider, the relay
    and the Graph transport are built; none of them replaces a setting by a
    default of its own; the relay checks that the certificate is for the
    configured host; and unless the operator asked for it, no connection skips
    the verification of certificates. *)
Theorem validated_upstreams_take_effect `{UC : UnicodeCase} c k tls relay_backend graph_backend id newID :
  Validate c = [] -> upstreamTLSConfig readFile usable (up_TLS (c_Upstream c)) = Ok tls ->
  let u := c_Upstream c in
  (exists p client, buildTokenProvider readFile usable k c = Ok (p, client)
     /\ pv_defaultAuthorityHost p = uo_Authority (up_OAuth u) /\ hc_Timeout client = up_Timeout u /\ hc_TLS client = tls)
  /\ (exists relay graph runner client, buildQueue readFile usable true relay_backend graph_backend id newID c = Ok (relay, graph, runner)
     /\ r_Host (rl_opts relay) = us_Host (up_SMTP u) /\ r_Port (rl_opts relay) = us_Port (up_SMTP u)
     /\ r_Scope (rl_opts relay) = uo_SMTPScope (up_OAuth u) /\ rl_Timeout relay = up_Timeout u
     /\ gr_Endpoint graph = ug_Endpoint (up_Graph u) /\ gr_Scope graph = uo_GraphScope (up_OAuth u) /\ gr_Timeout graph = up_Timeout u
     /\ gr_client graph = Some client /\ hc_TLS client = tls
     /\ (relay_tls relay).1 = us_Host (up_SMTP u)
     /\ (ut_InsecureSkipVerify (up_TLS u) = false -> ct_InsecureSkipVerify (relay_tls relay).2 = false)).
Proof.
  intros Hv Htls. cbv zeta. destruct (validated_upstream c Hv) as [H1 H2 H3 H4 [H5 H6] H7]. split.
  - unfold buildTokenProvider. rewrite Htls. eexists _, _. split; [done|]. simpl. by rewrite bool_decide_eq_false_2.
  - unfold buildQueue. rewrite Htls. cbv zeta. unfold relay_New. cbn [rl_opts r_Host r_Port r_Scope r_LocalName rl_Timeout rl_TLS negb].
    rewrite (bool_decide_eq_false_2 _ H1), (bool_decide_eq_false_2 _ H5). unfold graph_New. cbn [gr_Endpoint gr_Scope gr_Timeout gr_client negb].
    rewrite (bool_decide_eq_false_2 _ H3), (bool_decide_eq_false_2 _ H6), (proj2 (Z.leb_gt _ 0)), (proj2 (Z.eqb_neq _ 0)) by lia.
    eexists _, _, _, _. split; [done|]. split_and!; try done; destruct tls as [t|]; try done. apply (upstreamTLS_checked _ _ Htls).
Qed.
End Upstreams.

(** A host that only starts like Microsoft's counts as Microsoft's. *)
Example lookalike_authority_keeps_discovery :
  HasPrefix "https://login.microsoftonline.com.example.net" DefaultAuthorityHost = true.
Proof. reflexivity. Qed.
