(* ===== verification/Metrics.v ===== *)
(** * Metrics

    [internal/metrics/metrics.go], [internal/app/recorder.go] and the labels of
    [internal/smtpsrv/recorder.go]: the series an operator can alert on. A
    series is a collector's name and its label values; the registry of the
    Prometheus library is a map from series to values. Durations and seconds
    are integers (nanoseconds). *)

From stdpp Require Import base gmap strings list.
From Stdlib Require Import ZArith QArith Lia.
From S2P Require Import Prelude GoStrings GoFloat StoreModels MessageStore Backoff RateLimit Transport Worker QueueProps WorkerProps.

Open Scope Z_scope.

(** ** Definitions *)

Abbreviation Series := (string * list string)%type.

Record Metrics := mkMetrics { mt_counters : gmap Series Z; mt_histograms : gmap Series (list Z); mt_gauges : gmap Series Z }.

Definition metrics_New : Metrics := mkMetrics ∅ ∅ ∅.

Definition submissions : string := "submissions_total".
Definition auth_failures : string := "smtp_auth_failures_total".
Definition deliveries : string := "deliveries_total".
Definition delivery_duration : string := "delivery_duration_seconds".
Definition queue_depth : string := "queue_depth".
Definition credential_expiry : string := "credential_expiry_seconds".

(** [WithLabelValues]: the series is there afterwards. *)
Definition with_counter (s : Series) (m : Metrics) : Metrics :=
  mkMetrics (<[s := default 0 (mt_counters m !! s)]> (mt_counters m)) (mt_histograms m) (mt_gauges m).

Definition with_histogram (s : Series) (m : Metrics) : Metrics :=
  mkMetrics (mt_counters m) (<[s := default [] (mt_histograms m !! s)]> (mt_histograms m)) (mt_gauges m).

Definition inc (s : Series) (m : Metrics) : Metrics :=
  mkMetrics (<[s := default 0 (mt_counters m !! s) + 1]> (mt_counters m)) (mt_histograms m) (mt_gauges m).

Definition observe (s : Series) (v : Z) (m : Metrics) : Metrics :=
  mkMetrics (mt_counters m) (<[s := v :: default [] (mt_histograms m !! s)]> (mt_histograms m)) (mt_gauges m).

Definition set_gauge (s : Series) (v : Z) (m : Metrics) : Metrics :=
  mkMetrics (mt_counters m) (mt_histograms m) (<[s := v]> (mt_gauges m)).

(** The labels. *)
Inductive SubmissionResult := SubmissionAccepted | SubmissionRejected | SubmissionFailed.
Inductive AuthFailureReason := AuthFailureCredentials | AuthFailureNoTLS.

Definition submission_text (r : SubmissionResult) : string :=
  match r with SubmissionAccepted => "accepted" | SubmissionRejected => "rejected" | SubmissionFailed => "failed" end.
Definition failure_text (r : AuthFailureReason) : string :=
  match r with AuthFailureCredentials => "credentials" | AuthFailureNoTLS => "encryption_required" end.
Definition outcome_text (o : DeliveryOutcome) : string :=
  match o with DeliverySent => "sent" | DeliveryDeferred => "deferred" | DeliveryFailed => "failed" end.

(** [Init] *)
Definition init_transport (m : Metrics) (transport : string) : Metrics :=
  with_histogram (delivery_duration, [transport])
    (fold_left (fun m result => with_counter (deliveries, [transport; result]) m) ["sent"; "deferred"; "failed"] m).

Definition metrics_Init (transports : list string) (m : Metrics) : Metrics :=
  let m := fold_left (fun m result => with_counter (submissions, [result]) m) ["accepted"; "rejected"; "failed"] m in
  let m := fold_left (fun m reason => with_counter (auth_failures, [reason]) m) ["credentials"; "encryption_required"] m in
  fold_left init_transport transports m.

(** What the components report, and the recorder. *)
Inductive Event :=
| Submission (r : SubmissionResult)
| AuthFailure (r : AuthFailureReason)
| Delivery (transport : string) (o : DeliveryOutcome) (took : Z)
| QueueDepth (status : string) (count : Z)
| CredentialExpiry (name : string) (left : Z).

Definition recorded (m : Metrics) (e : Event) : Metrics :=
  match e with
  | Submission r => inc (submissions, [submission_text r]) m
  | AuthFailure r => inc (auth_failures, [failure_text r]) m
  | Delivery t o took => observe (delivery_duration, [t]) took (inc (deliveries, [t; outcome_text o]) m)
  | QueueDepth s n => set_gauge (queue_depth, [s]) n m
  | CredentialExpiry c n => set_gauge (credential_expiry, [c]) n m
  end.

Definition record_all (events : list Event) (m : Metrics) : Metrics := fold_left recorded events m.

(** The metrics the application starts with. *)
Definition started : Metrics := metrics_Init [transport_name TransportSMTP; transport_name TransportGraph] metrics_New.

(** How often something was reported. *)
Definition count_events (p : Event -> bool) (events : list Event) : Z := Z.of_nat (length (List.filter p events)).

Definition is_submission (r : SubmissionResult) (e : Event) : bool :=
  match e with Submission r' => bool_decide (submission_text r' = submission_text r) | _ => false end.
Definition is_auth_failure (r : AuthFailureReason) (e : Event) : bool :=
  match e with AuthFailure r' => bool_decide (failure_text r' = failure_text r) | _ => false end.
Definition is_delivery (t : string) (o : DeliveryOutcome) (e : Event) : bool :=
  match e with Delivery t' o' _ => bool_decide (t' = t) && bool_decide (o' = o) | _ => false end.

(** ** Lemmas *)

Lemma outcome_text_inj o o' : outcome_text o = outcome_text o' -> o = o'.
Proof. by destruct o, o'. Qed.

(** A counter counts the events that are its own. *)
Lemma counts_events (s : Series) (p : Event -> bool) events m :
  (forall e m, mt_counters (recorded m e) !! s = if p e then Some (default 0 (mt_counters m !! s) + 1) else mt_counters m !! s) ->
  is_Some (mt_counters m !! s) ->
  mt_counters (record_all events m) !! s = Some (default 0 (mt_counters m !! s) + count_events p events).
Proof.
  intros Hp. revert m. unfold record_all, count_events. induction events as [|e events IH]; intros m [v Hv]; cbn [fold_left List.filter length].
  - rewrite Hv. simpl. f_equal. lia.
  - rewrite IH; rewrite Hp; destruct (p e); cbn [length]; try (by eexists); f_equal; cbn [default from_option]; unfold id; lia.
Qed.

(** The series that are there from the start. *)
Definition known_series : list Series :=
  ((fun r => (submissions, [r])) <$> ["accepted"; "rejected"; "failed"]) ++ ((fun r => (auth_failures, [r])) <$> ["credentials"; "encryption_required"])
  ++ (t ← ["smtp"; "graph"]; o ← ["sent"; "deferred"; "failed"]; [(deliveries, [t; o])]).

Lemma started_at_zero s : s ∈ known_series -> mt_counters started !! s = Some 0.
Proof.
  assert (forallb (fun s => bool_decide (mt_counters started !! s = Some 0)) known_series = true) as H by (vm_compute; reflexivity).
  intros Hs. rewrite forallb_forall in H. apply list_elem_of_In, H in Hs. by apply bool_decide_eq_true_1 in Hs.
Qed.

Lemma submissions_known r : (submissions, [submission_text r]) ∈ known_series.
Proof. apply list_elem_of_In. destruct r; simpl; tauto. Qed.

Lemma auth_failures_known r : (auth_failures, [failure_text r]) ∈ known_series.
Proof. apply list_elem_of_In. destruct r; simpl; tauto. Qed.

Lemma deliveries_known t o : t = TransportSMTP \/ t = TransportGraph -> (deliveries, [transport_name t; outcome_text o]) ∈ known_series.
Proof. intros Ht. apply list_elem_of_In. destruct Ht as [->| ->], o; simpl; tauto. Qed.

Ltac series_cases := unfold recorded, inc, observe, set_gauge; cbn [mt_counters].

(** the counters tell how often something happened, from the start. Every
    series of a submission, of a refused login and of a delivery over a
    transport the proxy has is there, at zero, before anything happens, and
    then is the number of times it was reported, whatever else is reported in
    between. *)
Theorem counters_count events :
  let m := record_all events started in
  (forall r, mt_counters m !! (submissions, [submission_text r]) = Some (count_events (is_submission r) events))
  /\ (forall r, mt_counters m !! (auth_failures, [failure_text r]) = Some (count_events (is_auth_failure r) events))
  /\ (forall t o, t = TransportSMTP \/ t = TransportGraph ->
        mt_counters m !! (deliveries, [transport_name t; outcome_text o]) = Some (count_events (is_delivery (transport_name t) o) events)).
Proof.
  cbv zeta. split_and!.
  - intros r. rewrite (counts_events _ (is_submission r)); rewrite ?(started_at_zero _ (submissions_known r)); [done|intros [] m; series_cases; cbn [is_submission]|by eexists];
      try (rewrite lookup_insert_ne; [done|by intros [=]]); try done.
    case_bool_decide as H; [rewrite H; by rewrite lookup_insert_eq|rewrite lookup_insert_ne; [done|congruence]].
  - intros r. rewrite (counts_events _ (is_auth_failure r)); rewrite ?(started_at_zero _ (auth_failures_known r)); [done|intros [] m; series_cases; cbn [is_auth_failure]|by eexists];
      try (rewrite lookup_insert_ne; [done|by intros [=]]); try done.
    case_bool_decide as H; [rewrite H; by rewrite lookup_insert_eq|rewrite lookup_insert_ne; [done|congruence]].
  - intros t o Ht. rewrite (counts_events _ (is_delivery (transport_name t) o)); rewrite ?(started_at_zero _ (deliveries_known t o Ht));
      [done|intros [] m; series_cases; cbn [is_delivery]|by eexists];
      try (rewrite lookup_insert_ne; [done|by intros [=]]); try done.
    case_bool_decide as H1; [case_bool_decide as H2|]; cbn [andb].
    + subst. by rewrite lookup_insert_eq.
    + rewrite lookup_insert_ne; [done|]. intros [=]. by apply H2, outcome_text_inj.
    + rewrite lookup_insert_ne; [done|]. congruence.
Qed.

(** The gauge of a credential that was deleted or renamed stays as it was. *)
Example deleted_credential_keeps_its_gauge :
  let publish creds m := record_all ((fun '(c, n) => CredentialExpiry c n) <$> creds) m in
  mt_gauges (publish [("new name", 900)] (publish [("old name", 100)] started)) !! (credential_expiry, ["old name"]) = Some 100.
Proof. vm_compute. reflexivity. Qed.

(** A delivery that is given up after its last attempt is counted as one that
    will be retried. *)
Definition busy_backend : Backend := refuses (NewTransient "smtp" "try later" None).

Definition last_attempt : Options :=
  mkOptions true [(TransportSMTP, busy_backend)] 4 (5 * Second) (5 * Minute) (mkBackoff [Minute] 0%Q 1 (24 * Hour)) (mkBudget 30 3) Hour Hour Hour "w1".

Definition given_up : Delivered := deliver (F := exact_float) id last_attempt (calm_world sample_claimed) run_message.

Example given_up_delivery_counts_as_deferred :
  dl_metric given_up = Some ("smtp", DeliveryDeferred) /\ (m_Status <$> messages (dl_db given_up) !! m_ID run_message) = Some StatusFailed.
Proof. split; vm_compute; reflexivity. Qed.
